(* ===== verification/_CoqProject ===== *)
-Q . S2P
Prelude.v
Frame.v
ChatCommon.v
ChatInbox.v
ChatSync.v
ChatIdentity.v
ChatPermission.v
ChatGroup.v
GroupViews.v
GroupChecks.v
GroupSteps.v
GroupHooks.v
GroupRegistry.v
GroupDisband.v
GroupCommit.v
GroupRefinement.v
ChatWiring.v
ChatCore.v
CoreStore.v
CoreIds.v
CoreReading.v
Escrow.v
EscrowSolvency.v
EscrowStates.v
EscrowExpiry.v
Arbitration.v
ArbitrationRules.v
ArbitrationDisputes.v
HoldCurrency.v
ArbitrationEscrow.v
EntityPorts.v
EntityMarket.v
MarketCalls.v
MarketFunds.v
MarketSteps.v
MarketMatching.v
MarketOracle.v
EntityToken.v
TokenSupply.v
TokenHoldings.v
TokenMarket.v
EntityOrder.v
OrderRules.v
OrderMoney.v
OrderEscrow.v
OrderCash.v
OrderPayments.v
OrderLife.v
EntityLoyalty.v
LoyaltyBalances.v
LoyaltyPoints.v
