(* ===== verification/Prelude.v ===== *)
(** * nexchat: chat and settlement pallets of a Substrate chain

    This library models pallets of the nexchat runtime, written in Rust with
    FRAME under src/pallets/, and proves what they promise. The root file is the
    prelude; the parts that follow it model one pallet each, or prove one group
    of theorems about it.

    ** The program

    The chain keeps what two people who chat need to agree on, and settles money
    between parties of a trade. The parts modelled here are:

    - src/pallets/chat/common: the rate limiter, epochs and deposit helpers the
      chat pallets share (ChatCommon.v);
    - src/pallets/chat/inbox: delivery inboxes, their epochs and revoked tags
      (ChatInbox.v);
    - src/pallets/chat/sync: anchors of encrypted backups, signed by a key whose
      digest is the anchor's id (ChatSync.v);
    - src/pallets/chat/msg-identity: device keys and prekeys (ChatIdentity.v);
    - src/pallets/chat/permission: who may write to whom, by authorization of a
      scene or by the receiver's settings, and the platform's mutes and reports
      (ChatPermission.v);
    - src/pallets/chat/group: MLS groups, a state machine of epochs driven by
      commits, with join requests, moderation and a teardown in bounded steps
      (ChatGroup.v and the Group*.v files);
    - the runtime's adapters between the last two, src/runtime/src/configs/mod.rs
      (ChatWiring.v): a membership change in a group grants or revokes a scene;
    - src/pallets/chat/core: system notices, sessions, read state, chat ids
      (ChatCore.v and the Core*.v files);
    - src/pallets/dispute/escrow: money locked for an identifier, released,
      refunded, split, disputed, or settled by a timer (Escrow.v and the
      Escrow*.v files);
    - src/pallets/dispute/arbitration: disputes about money in escrow, and
      complaints that go from filing to a decision and its appeals, with deposits
      on hold (Arbitration.v, ArbitrationRules.v, ArbitrationDisputes.v); with the
      runtime's router it drives the escrow pallet (ArbitrationEscrow.v, over a
      currency with holds, HoldCurrency.v);
    - src/pallets/entity/market: the order book on which the tokens of an entity
      are traded for the native currency, with its price oracle and circuit
      breaker (EntityMarket.v, MarketCalls.v and the Market*.v files), over the
      interfaces of src/pallets/entity/common/src/traits (EntityPorts.v);
    - src/pallets/entity/token: the tokens themselves, with time locks, dividends,
      transfer restrictions, allowances and the reservations the market makes
      (EntityToken.v, TokenSupply.v, TokenHoldings.v), and both pallets together
      (TokenMarket.v);
    - src/pallets/entity/order: orders for goods and services, paid into escrow,
      with reserved tokens or out of a shopping balance, with disputes and a queue
      of timeouts (EntityOrder.v, OrderRules.v, OrderMoney.v, OrderLife.v), and
      orders over the escrow pallet (OrderEscrow.v, OrderCash.v, OrderPayments.v);
    - src/pallets/entity/loyalty: the points of a shop and the shopping balances
      an entity owes its members (EntityLoyalty.v, LoyaltyBalances.v,
      LoyaltyPoints.v).

    ** How the code is represented

    A pallet is a Module of that name; its storage items are the fields of a
    record [State], with the names of the source. A [StorageMap] is a finite map
    ([gmap]); a [StorageDoubleMap] is a map of maps where a row is iterated or
    cleared, and a map keyed by pairs where it is not; a [ValueQuery] counter is
    read with [get0]. Integers are [Z] with the saturation, wrap-around or
    division of the source written out ([sat_add], [sat_sub], [mod]); every
    bound a type has is part of an invariant. Account ids are numbers ordered as
    the bytes are. Byte strings are lists of numbers.

    A function of the source is a definition of the same name in the monad
    [M S E A] of the prelude, which passes the storage along and ends with a
    value or an error. An error does not undo writes by itself: [transactional]
    does, and is applied exactly where FRAME applies it, around a dispatchable;
    [attempt] is a caller that drops an error and keeps the writes. The
    dispatchables of a pallet are the constructors of its type [Call], run by
    [apply_call]; [dispatch] is the transaction around it. A run of a pallet is
    the reflexive-transitive closure of its relation [step]: any call by any
    origin in any block, the operations other pallets call, block hooks, and,
    where the environment can interfere, its moves.

    What is not code of the repository is a parameter: origins, the block
    environment, the currency, the hash functions and signatures, the iteration
    order and the limited clearing of a storage prefix (Frame.v), the digest of a
    pair of accounts and the order of storage keys (ChatCore.v). Each is a
    class of operations, with the documented laws the theorems use in a second
    class, and a concrete instance that satisfies the laws. The witnesses
    evaluate the theorems on concrete runs with these instances.

    The host clears a storage prefix by the keys the block began with: all that
    was written in the block, and the first of the others, up to the limit; a
    second call without a cursor looks at the same keys. EntityLoyalty.v keeps
    what the block began with and what was written since, so that a clearing that
    is continued within a block is seen to stand still. In ChatGroup.v the limited
    clearing is the operation [clear_row]; that it makes progress whenever it
    leaves a cursor is a law of its own ([FreshRowLaws]), which holds for a call
    in a new block and is assumed only where the end of the teardown is shown.
    [sort_by] of the source is the stable [stable_sort] of this file, which keeps
    the order of equal elements.

    ** What is shown

    - ChatCommon.v: in any span of one window at most twice the allowed number
      of actions pass the limiter.
    - ChatInbox.v, ChatIdentity.v: the registry invariant over all runs (exact
      counters and caps, distinct tags, epochs in range, deposits covered by
      reserved balance and moved exactly with the records); a bump invalidates
      earlier tokens; what registering again does to them.
    - ChatSync.v: a cleared anchor never comes back at or below its tombstone;
      every stored content is signed by the key the anchor is named after; the
      signed payload determines what it authorizes.
    - ChatPermission.v: the exact condition under which a message may be sent;
      a grant opens both directions until its expiry; the invariant of the
      authorization lists; extending a permanent grant ends it.
    - GroupViews.v, GroupChecks.v, GroupSteps.v: a call changes a group only
      through one of a few changes of that group's rows (its view).
      GroupRegistry.v: the storage invariant, finality of commits, and that
      accounts enter groups only by a commit. GroupRefinement.v: every call of
      the pallet, by its sender, arguments and result, is a step of an abstract
      membership service that says who may do what. GroupDisband.v: the bounded
      teardown ends and returns the deposit. GroupCommit.v: the checks of a
      commit decide their specification, and its effect. GroupHooks.v: the calls
      made on the authorization layer.
    - ChatWiring.v: with the runtime's adapter, scenes of groups mirror
      memberships, and a commit opens the conversations it should.
    - CoreStore.v: the consistency of messages, sessions and indexes, and that
      the unread counter never promises more than there is (it can promise
      less). CoreIds.v: chat ids correspond to accounts one to one, and only one
      can be created per block. CoreReading.v: the bounded scans reach the end
      in a number of calls computed from the size of the table.
    - EscrowSolvency.v: the held account covers everything locked; splits are
      exact; where funds get stranded. EscrowStates.v: the states of an
      identifier and that a dispute freezes its funds. EscrowExpiry.v: the two
      expiry tables are inverse to each other.
    - ArbitrationRules.v: the records of complaints agree with each other and with
      the amounts on hold, a complaint moves only along its state machine or the
      two ways round it, and what a forced close does to an appeal's deposit.
      ArbitrationDisputes.v: the tables of open disputes agree, their deposits are
      on hold until a single decision closes them, and one party can settle alone.
      ArbitrationEscrow.v: the router and the escrow satisfy the laws arbitration
      assumes, and a slash is paid out of other users' locked money.
    - MarketFunds.v, MarketSteps.v: what an account has in reserve is what its open
      orders lock and what others have put there, orders are indexed exactly, no
      call touches what an account has reserved for anything
      else, and the sweep of expired orders stays near its weight.
      MarketMatching.v: matching is the greedy plan, the plan gives the best
      total, and what that means for each type of order. MarketOracle.v: averages
      stay within the prices they average; the circuit breaker and the price
      limits stop what they are meant to stop, and where the limits fail.
    - TokenSupply.v: what is issued and promised stays within the limit of a
      token. TokenHoldings.v: locks and reservations are covered by holdings;
      what transfers check; who can take tokens from an account; what unlocking
      releases. TokenMarket.v: the token pallet satisfies the laws the market
      assumes, so that open sales are backed by tokens in every joint run, and
      what happens to a buyer when root breaks that.
    - OrderRules.v: what each call does to one order and its money (its view), as
      one of a few moves. OrderMoney.v: placing an order locks its price, and the
      invariant of all runs. OrderEscrow.v: the escrow pallet satisfies the laws
      orders assume; an order whose entry was emptied, by an arbitration or a
      failed refund, never ends. OrderCash.v: what the events of the escrow name
      for an account is what the account is paid. OrderPayments.v: each call on an
      order leaves exactly the payments of its settlement in the escrow and in the
      accounts. OrderLife.v: the money
      of open orders is locked, orders are well formed and move along their state
      machine, what a withdrawn dispute restores, and how an automatic repurchase
      burns a balance.
    - LoyaltyBalances.v: shopping balances add up to their totals in every run, and
      a consumption can be rolled back. LoyaltyPoints.v: every point is counted as
      long as the lists that are cleared are short, redeeming pays exactly, a
      clearing in steps ends, and how points stay uncounted or come back.

    Each theorem about all runs is proved through the same steps: a lemma per
    operation saying which change it makes, one lemma per change saying that the
    invariant survives it, and [rtc_invariant].

    ** Fuel and bounds

    No definition needs fuel: loops are structural recursions over the list they
    walk or over the retries they have left ([try_candidates], 100 of them).
    Where a theorem speaks of repeated calls, the number of calls is part of the
    statement. The theorems that need identifiers to be fresh assume that a u64
    counter has not reached its largest value.

    Runs say what the rest of the chain may do meanwhile. Between the calls of
    the market, others may do anything to balances and tokens, and reserve and
    release what is theirs ([shared_step] keeps the account of it); root's forced
    burns and transfers of tokens are outside. Between those of the order pallet,
    others may do anything but change the escrow's books, except for orders
    already placed that are in a set [E] ([estep]), which a statement about the
    other orders leaves free. Runs of the escrow pallet assume that nobody takes
    currency from its account, runs of the token pallet that nobody calls the
    assets pallet directly; ArbitrationEscrow.v, OrderEscrow.v and TokenMarket.v
    show what happens otherwise, and the doc comment of each theorem says what
    it relies on.

    ** Not modelled

    Weights, benchmarks, Runtime API glue, storage-version hooks and migrations
    of the pallets carry no behaviour of their own or run once. The other
    pallets (evidence, the rest of entity, trading, storage, bridge,
    inscription, the common crypto and media crates) and the node are not
    modelled; the currency, the assets pallet and the other FRAME pallets are
    parameters, and so are the registry, shop, product, KYC, member, commission
    and disclosure pallets the market, the tokens, the orders and the loyalty
    pallet ask; what the orders ask of the loyalty pallet is a class of its own,
    not yet discharged by its model. Amounts of tokens are [N] in the token pallet,
    whose subtraction saturates as the source's does, and [Z] elsewhere. *)

From Stdlib Require Export ZArith Lia.
From stdpp Require Export base decidable gmap list fin_maps fin_sets option sorting relations.
From Stdlib Require Ascii String.
Export String.StringSyntax.

#[global] Open Scope Z_scope.

(** * Representation of the code's types *)

(** An account id is 32 bytes compared lexicographically; it is kept as the
    number its bytes spell in big-endian order, whose order is that one. *)
Abbreviation AccountId := N (only parsing).

(** A [[u8; 32]] or [[u8; 16]] the code only stores and compares: the number
    its bytes spell. *)
Abbreviation Bytes32 := N (only parsing).
Abbreviation Bytes16 := N (only parsing).

(** Byte strings ([Vec<u8>], [BoundedVec<u8, _>], [[u8; 32]]). *)
Abbreviation bytes := (list Z) (only parsing).

Definition u8_max : Z := 255.
Definition u32_max : Z := 4294967295.
Definition u64_max : Z := 18446744073709551615.
Definition u128_max : Z := 340282366920938463463374607431768211455.

(** [saturating_add] of an unsigned type whose largest value is [top]. *)
Definition sat_add (top a b : Z) : Z := Z.min top (a + b).

(** [saturating_sub] of an unsigned type. *)
Definition sat_sub (a b : Z) : Z := Z.max 0 (a - b).

(** [uN::to_le_bytes]: the [n] bytes of [z], least significant first. *)
Fixpoint le_bytes (n : nat) (z : Z) : bytes :=
  match n with
  | O => []
  | S n' => z mod 256 :: le_bytes n' (z / 256)
  end.

(** [uN::from_le_bytes]. *)
Fixpoint of_le_bytes (b : bytes) : Z :=
  match b with
  | [] => 0
  | x :: b' => x + 256 * of_le_bytes b'
  end.

(** A byte-string literal. *)
Definition literal (s : String.string) : bytes :=
  map (fun c => Z.of_N (Ascii.N_of_ascii c)) (String.list_ascii_of_string s).
Arguments literal s%_string_scope.

(** [slice::sort_by] of the comparison whose "not greater" is [R]: a stable sort, which
    keeps the order of elements that compare equal. *)
Fixpoint insert_before {A} (R : relation A) `{!RelDecision R} (x : A) (l : list A) : list A :=
  match l with
  | [] => [x]
  | y :: l' => if decide (R x y) then x :: y :: l' else y :: insert_before R x l'
  end.

Definition stable_sort {A} (R : relation A) `{!RelDecision R} (l : list A) : list A :=
  foldr (insert_before R) [] l.

(** [Vec::swap_remove]: the last element takes the place of the removed one. *)
Definition swap_remove {A} (i : nat) (l : list A) : list A :=
  match last l with
  | Some y => take (pred (length l)) (<[i := y]> l)
  | None => l
  end.

(** A [ValueQuery] counter. *)
Definition get0 {K} `{Countable K} (m : gmap K Z) (k : K) : Z := default 0 (m !! k).

(** * Storage effects *)

(** A call either returns a value or an error; the storage it leaves is part
    of the result in both cases, because code outside a dispatchable (hooks,
    best-effort bridges) is not rolled back when it fails. *)
Inductive outcome (E A : Type) : Type :=
| Ok (a : A)
| Err (e : E).
Arguments Ok {E A} a.
Arguments Err {E A} e.

Definition M (S E A : Type) : Type := S -> outcome E A * S.

Section Monad.
Context {S E : Type}.

Definition ret {A} (a : A) : M S E A := fun s => (Ok a, s).

Definition fail {A} (e : E) : M S E A := fun s => (Err e, s).

Definition bind {A B} (m : M S E A) (k : A -> M S E B) : M S E B := fun s =>
  match m s with
  | (Ok a, s') => k a s'
  | (Err e, s') => (Err e, s')
  end.

Definition gets {A} (f : S -> A) : M S E A := fun s => (Ok (f s), s).

Definition modify (f : S -> S) : M S E unit := fun s => (Ok tt, f s).

(** Rust's [ensure!(cond, err)]. *)
Definition ensure (P : Prop) `{Decision P} (e : E) : M S E unit :=
  if decide P then ret tt else fail e.

(** [Option::ok_or]. *)
Definition ok_or {A} (o : option A) (e : E) : M S E A :=
  match o with Some a => ret a | None => fail e end.

(** A dispatchable runs in a storage layer: an error undoes its writes. *)
Definition transactional {A} (m : M S E A) : M S E A := fun s =>
  match m s with
  | (Ok a, s') => (Ok a, s')
  | (Err e, _) => (Err e, s)
  end.

(** [Result::ok]: the error is dropped, the writes made so far stay. *)
Definition attempt {A} (m : M S E A) : M S E (option A) := fun s =>
  match m s with
  | (Ok a, s') => (Ok (Some a), s')
  | (Err _, s') => (Ok None, s')
  end.

(** A [for] loop whose body may fail. *)
Fixpoint for_each {A} (l : list A) (body : A -> M S E unit) : M S E unit :=
  match l with
  | [] => ret tt
  | x :: l' => bind (body x) (fun _ => for_each l' body)
  end.
End Monad.

Declare Scope pallet_scope.
Delimit Scope pallet_scope with pallet.
Notation "'let!' x := m 'in' k" := (bind m (fun x => k))
  (at level 10, x pattern, m at level 200, k at level 200,
   format "'[v' 'let!'  x  :=  m  'in' '/' k ']'") : pallet_scope.
Notation "m >> k" := (bind m (fun _ => k))
  (at level 90, k at level 200, right associativity,
   format "'[v' m  >> '/' k ']'") : pallet_scope.
#[global] Open Scope pallet_scope.

(** Errors of a dispatch: the pallet's own, a refused origin, a refusal of
    the currency. *)
Inductive DispatchError (E : Type) : Type :=
| Module (e : E)
| BadOrigin
| CurrencyError.
Arguments Module {E} e.
Arguments BadOrigin {E}.
Arguments CurrencyError {E}.

(** * Record update: [s <| field := v |>] *)

Class Settable (R : Type) : Type := eta : R -> R.
Class Setter {R T : Type} (proj : R -> T) : Type := set_field : (T -> T) -> R -> R.
Arguments set_field {R T} proj {_} _ _ /.

Ltac build_setter proj :=
  lazymatch type of proj with
  | ?R -> ?T =>
    let e := constr:(@eta R _) in
    let body := eval hnf in e in
    match eval pattern proj in body with
    | ?abs _ =>
      let r := eval cbv beta in (fun (g : T -> T) => abs (fun x : R => g (proj x))) in
      exact r
    end
  end.
#[global] Hint Extern 1 (Setter ?proj) => build_setter proj : typeclass_instances.

Notation "s <| f := v |>" := (set_field f (fun _ => v) s)
  (at level 1, left associativity, f at level 11, format "s  <| f  :=  v |>").
Notation "s <| f ::= g |>" := (set_field f g s)
  (at level 1, left associativity, f at level 11, format "s  <| f  ::=  g |>").

(** * Inversion of the effects

    One lemma per construct, stating when it succeeds and with what; [m_inv]
    applies them to a hypothesis until only guards and states are left. *)

Section Inversion.
Context {S E : Type}.
Implicit Types s : S.

Lemma bind_Ok {A B} (m : M S E A) (k : A -> M S E B) s b s' :
  bind m k s = (Ok b, s') -> exists a s1, m s = (Ok a, s1) /\ k a s1 = (Ok b, s').
Proof. unfold bind. destruct (m s) as [[a | e] s1]; [eauto | discriminate]. Qed.

Lemma bind_Err {A B} (m : M S E A) (k : A -> M S E B) s e s' :
  bind m k s = (Err e, s') ->
  m s = (Err e, s') \/ exists a s1, m s = (Ok a, s1) /\ k a s1 = (Err e, s').
Proof. unfold bind. destruct (m s) as [[a | e1] s1]; [eauto |]. intros [= -> ->]. auto. Qed.

Lemma bind_eval {A B} (m : M S E A) (k : A -> M S E B) s a s1 :
  m s = (Ok a, s1) -> bind m k s = k a s1.
Proof. unfold bind. by intros ->. Qed.

Lemma ret_inv {A} (a : A) s r s' : ret (E:=E) a s = (r, s') -> r = Ok a /\ s' = s.
Proof. by intros [= <- <-]. Qed.

Lemma fail_inv {A} (e : E) s r s' : fail (A:=A) e s = (r, s') -> r = Err e /\ s' = s.
Proof. by intros [= <- <-]. Qed.

Lemma gets_inv {A} (f : S -> A) s r s' : gets (E:=E) f s = (r, s') -> r = Ok (f s) /\ s' = s.
Proof. by intros [= <- <-]. Qed.

Lemma modify_inv (f : S -> S) s r s' : modify (E:=E) f s = (r, s') -> r = Ok tt /\ s' = f s.
Proof. by intros [= <- <-]. Qed.

Lemma ensure_inv (P : Prop) `{Decision P} (e : E) s r s' :
  ensure P e s = (r, s') -> s' = s /\ ((r = Ok tt /\ P) \/ (r = Err e /\ ~ P)).
Proof. unfold ensure. case_decide; intros [= <- <-]; auto. Qed.

Lemma ensure_Ok (P : Prop) `{Decision P} (e : E) s u s' :
  ensure P e s = (Ok u, s') -> P /\ s' = s.
Proof. intros [-> [[? ?] | [? ?]]]%ensure_inv; [auto | discriminate]. Qed.

Lemma ensure_Err (P : Prop) `{Decision P} (e e' : E) s s' :
  ensure P e s = (Err e', s') -> ~ P /\ e' = e /\ s' = s.
Proof. intros [-> [[? ?] | [? ?]]]%ensure_inv; [discriminate |]. simplify_eq. auto. Qed.

Lemma ensure_true (P : Prop) `{Decision P} (e : E) s : P -> ensure P e s = (Ok tt, s).
Proof. intros. unfold ensure. by rewrite decide_True. Qed.

Lemma ensure_false (P : Prop) `{Decision P} (e : E) s : ~ P -> ensure P e s = (Err e, s).
Proof. intros. unfold ensure. by rewrite decide_False. Qed.

Lemma ok_or_Ok {A} (o : option A) (e : E) s a s' :
  ok_or o e s = (Ok a, s') -> o = Some a /\ s' = s.
Proof. destruct o; [by intros [= <- <-] | discriminate]. Qed.

Lemma ok_or_Err {A} (o : option A) (e e' : E) s s' :
  ok_or o e s = (Err e', s') -> o = None /\ e' = e /\ s' = s.
Proof. destruct o; [discriminate | by intros [= <- <-]]. Qed.

Lemma transactional_Ok {A} (m : M S E A) s a s' :
  transactional m s = (Ok a, s') -> m s = (Ok a, s').
Proof. unfold transactional. by destruct (m s) as [[? | ?] ?]. Qed.

Lemma transactional_run {A} (m : M S E A) s a s' :
  m s = (Ok a, s') -> transactional m s = (Ok a, s').
Proof. unfold transactional. by intros ->. Qed.

Lemma transactional_Err {A} (m : M S E A) s e s' :
  transactional m s = (Err e, s') -> s' = s /\ exists s1, m s = (Err e, s1).
Proof.
  unfold transactional. destruct (m s) as [[? | ?] ?]; [discriminate |].
  intros [= -> ->]. eauto.
Qed.

(** A rolled-back call either did all its work or none of it. *)
Lemma transactional_cases {A} (m : M S E A) s r s' :
  transactional m s = (r, s') ->
  (exists a, r = Ok a /\ m s = (Ok a, s')) \/ (exists e, r = Err e /\ s' = s).
Proof.
  unfold transactional. destruct (m s) as [[? | ?] ?]; intros [= <- <-]; eauto.
Qed.

Lemma attempt_inv {A} (m : M S E A) s r s' :
  attempt m s = (r, s') ->
  (exists a, r = Ok (Some a) /\ m s = (Ok a, s')) \/
  (exists e, r = Ok None /\ m s = (Err e, s')).
Proof. unfold attempt. destruct (m s) as [[? | ?] ?]; intros [= <- <-]; eauto. Qed.

(** A loop keeps what each of its iterations keeps. *)
Lemma for_each_ind {A} (P : S -> Prop) (l : list A) (body : A -> M S E unit) :
  (forall x s r s', x ∈ l -> P s -> body x s = (r, s') -> P s') ->
  forall s r s', P s -> for_each l body s = (r, s') -> P s'.
Proof.
  induction l as [| x l IH]; intros Hbody s r s' HP; simpl.
  - by intros [= <- <-].
  - unfold bind. destruct (body x s) as [[u | e] s1] eqn:Hx.
    + apply IH; [| by eapply Hbody; [left | |]].
      intros y ? ? ? ?. apply Hbody. by right.
    + intros [= <- <-]. eapply Hbody; [left | |]; eauto.
Qed.

(** A loop of checks passes exactly when every element does. *)
Lemma for_each_check {A} (Q : A -> Prop) (l : list A) (body : A -> M S E unit) s s' :
  (forall x s1, x ∈ l -> body x s = (Ok tt, s1) -> s1 = s /\ Q x) ->
  for_each l body s = (Ok tt, s') -> s' = s /\ forall x, x ∈ l -> Q x.
Proof.
  revert s'. induction l as [| x l IH]; intros s' Hbody; simpl.
  - intros [= <-]. split; [done |]. by intros x ?%elem_of_nil.
  - intros ([] & s1 & Hx & Hl)%bind_Ok. apply Hbody in Hx as [-> Hx]; [| by left].
    apply IH in Hl as [-> Hl]; [| intros y s2 ?; apply Hbody; by right].
    split; [done |]. by intros y [-> | ?]%elem_of_cons; [| apply Hl].
Qed.

(** A loop of [ensure]s decides whether all conditions hold. *)
Lemma for_each_ensure {A} (Q : A -> Prop) `{forall x, Decision (Q x)} (e : E) (l : list A) s :
  for_each l (fun x => ensure (Q x) e) s = (if decide (Forall Q l) then Ok tt else Err e, s).
Proof.
  induction l as [| x l IH]; [done |]. simpl. unfold bind.
  destruct (decide (Q x)) as [Hx | Hx].
  - rewrite ensure_true, IH by done. repeat case_decide; try done; rewrite Forall_cons in *; tauto.
  - rewrite ensure_false, decide_False; [done | | done]. by intros [? _]%Forall_cons.
Qed.

Lemma for_each_pass {A} (l : list A) (body : A -> M S E unit) s :
  (forall x, x ∈ l -> body x s = (Ok tt, s)) -> for_each l body s = (Ok tt, s).
Proof.
  induction l as [| x l IH]; intros Hbody; [done |]. simpl. unfold bind.
  rewrite Hbody by (by left). apply IH. intros y ?. apply Hbody. by right.
Qed.
End Inversion.

(** The state a call leaves when it returns a value. *)
Lemma returns {S E A} (m : M S E A) s a : (m s).1 = Ok a -> m s = (Ok a, (m s).2).
Proof. destruct (m s). by intros <-. Qed.

(** Destructs the effects of a successful run, leaving the guards it passed
    and the state it built. *)
Ltac m_step :=
  match goal with
  | H : bind _ _ _ = (Ok _, _) |- _ =>
      apply bind_Ok in H; destruct H as (? & ? & ? & H)
  | H : (if decide ?P then _ else _) _ = (Ok _, _) |- _ => destruct (decide P)
  | H : (match ?x with _ => _ end) _ = (Ok _, _) |- _ => destruct x eqn:?
  | H : ret _ _ = (_, _) |- _ => apply ret_inv in H; destruct H as [? ?]
  | H : fail _ _ = (_, _) |- _ => apply fail_inv in H; destruct H as [? ?]
  | H : gets _ _ = (_, _) |- _ => apply gets_inv in H; destruct H as [? ?]
  | H : modify _ _ = (_, _) |- _ => apply modify_inv in H; destruct H as [? ?]
  | H : ensure _ _ _ = (Ok _, _) |- _ => apply ensure_Ok in H; destruct H as [? ?]
  | H : ok_or _ _ _ = (Ok _, _) |- _ => apply ok_or_Ok in H; destruct H as [? ?]
  | u : unit |- _ => destruct u
  end; simplify_eq.
Ltac m_inv := repeat m_step.

(** Destructs a failed run into the ways it can fail, leaving the guard that
    refused and the state at that point. *)
Ltac m_err_step :=
  match goal with
  | H : bind _ _ _ = (Err _, _) |- _ =>
      apply bind_Err in H; destruct H as [H | (? & ? & ? & H)]
  | H : (if decide ?P then _ else _) _ = (Err _, _) |- _ => destruct (decide P)
  | H : (match ?x with _ => _ end) _ = (Err _, _) |- _ => destruct x eqn:?
  | H : ret _ _ = (Err _, _) |- _ => discriminate H
  | H : gets _ _ = (Err _, _) |- _ => discriminate H
  | H : modify _ _ = (Err _, _) |- _ => discriminate H
  | H : fail _ _ = (_, _) |- _ => apply fail_inv in H; destruct H as [? ?]
  | H : ensure _ _ _ = (Err _, _) |- _ => apply ensure_Err in H; destruct H as (? & ? & ?)
  | H : ok_or _ _ _ = (Err _, _) |- _ => apply ok_or_Err in H; destruct H as (? & ? & ?)
  | _ => m_step
  end; simplify_eq.
Ltac m_err := repeat m_err_step.

(** The same constructs run forwards: [m_run] evaluates a call as far as its
    guards are among the hypotheses. *)

Section Running.
Context {S E : Type}.

Lemma run_bind {A B C} (m : M S E A) (k : A -> M S E B) (k' : B -> M S E C) s :
  bind (bind m k) k' s = bind m (fun a => bind (k a) k') s.
Proof. unfold bind. by destruct (m s) as [[? | ?] ?]. Qed.

Lemma run_ret {A B} (a : A) (k : A -> M S E B) s : bind (ret a) k s = k a s.
Proof. done. Qed.

Lemma run_gets {A B} (f : S -> A) (k : A -> M S E B) s : bind (gets f) k s = k (f s) s.
Proof. done. Qed.

Lemma run_modify {B} (f : S -> S) (k : unit -> M S E B) s : bind (modify f) k s = k tt (f s).
Proof. done. Qed.

Lemma run_ok_or {A B} (o : option A) (e : E) (k : A -> M S E B) s a :
  o = Some a -> bind (ok_or o e) k s = k a s.
Proof. by intros ->. Qed.

Lemma run_ensure {B} (P : Prop) `{Decision P} (e : E) (k : unit -> M S E B) s :
  P -> bind (ensure P e) k s = k tt s.
Proof. intros. unfold ensure. by rewrite decide_True. Qed.

Lemma run_ok_or_none {A B} (o : option A) (e : E) (k : A -> M S E B) s :
  o = None -> bind (ok_or o e) k s = (Err e, s).
Proof. by intros ->. Qed.

Lemma run_ensure_not {B} (P : Prop) `{Decision P} (e : E) (k : unit -> M S E B) s :
  ~ P -> bind (ensure P e) k s = (Err e, s).
Proof. intros. unfold ensure. by rewrite decide_False. Qed.
End Running.

Ltac m_run_step :=
  first
    [ rewrite run_bind | rewrite run_ret | rewrite run_gets | rewrite run_modify
    | erewrite run_ok_or by first [eassumption | reflexivity]
    | rewrite run_ensure by first [assumption | reflexivity | lia]
    | rewrite run_ok_or_none by assumption
    | rewrite run_ensure_not by first [assumption | lia] ]; cbv beta.
Ltac m_run := repeat m_run_step.

(** * Computations that cannot fail *)

Section Total.
Context {S E : Type}.

Definition total {A} (m : M S E A) : Prop := forall s, exists a s', m s = (Ok a, s').

Lemma total_ret {A} (a : A) : total (ret a).
Proof. intros s. by exists a, s. Qed.

Lemma total_gets {A} (f : S -> A) : total (gets f).
Proof. intros s. by exists (f s), s. Qed.

Lemma total_modify (f : S -> S) : total (modify f).
Proof. intros s. by exists tt, (f s). Qed.

Lemma total_bind {A B} (m : M S E A) (k : A -> M S E B) :
  total m -> (forall a, total (k a)) -> total (bind m k).
Proof.
  intros Hm Hk s. destruct (Hm s) as (a & s1 & Ha). destruct (Hk a s1) as (b & s2 & Hb).
  exists b, s2. unfold bind. by rewrite Ha.
Qed.

Lemma total_for_each {A} (l : list A) (body : A -> M S E unit) :
  (forall x, total (body x)) -> total (for_each l body).
Proof. intros Hb. induction l; simpl; [apply total_ret | by apply total_bind]. Qed.
End Total.

Ltac total_tac :=
  repeat first
    [ apply total_ret | apply total_gets | apply total_modify
    | apply total_for_each; intros ?
    | apply total_bind; [| intros ?]
    | match goal with |- total (if ?b then _ else _) => destruct b end
    | match goal with |- total (match ?x with _ => _ end) => destruct x end ].

(** * Computations that leave part of the state alone *)

Section Framed.
Context {S E T : Type} (f : S -> T).

(** However [m] ends, the part [f] of the state is as it was. *)
Definition framed {A} (m : M S E A) : Prop := forall s r s', m s = (r, s') -> f s' = f s.

Lemma framed_ret {A} (a : A) : framed (ret a).
Proof. by intros s r s' [= <- <-]. Qed.

Lemma framed_fail {A} (e : E) : framed (A:=A) (fail e).
Proof. by intros s r s' [= <- <-]. Qed.

Lemma framed_gets {A} (h : S -> A) : framed (gets h).
Proof. by intros s r s' [= <- <-]. Qed.

Lemma framed_modify (h : S -> S) : (forall s, f (h s) = f s) -> framed (modify h).
Proof. intros Hh s r s' [= <- <-]. apply Hh. Qed.

Lemma framed_ensure (P : Prop) `{Decision P} (e : E) : framed (ensure P e).
Proof. by intros s r s' [-> _]%ensure_inv. Qed.

Lemma framed_ok_or {A} (o : option A) (e : E) : framed (ok_or o e).
Proof. destruct o; [apply framed_ret | apply framed_fail]. Qed.

Lemma framed_bind {A B} (m : M S E A) (k : A -> M S E B) :
  framed m -> (forall a, framed (k a)) -> framed (bind m k).
Proof.
  intros Hm Hk s r s'. unfold bind. destruct (m s) as [[a | e] s1] eqn:Hs.
  - intros Hr. apply Hk in Hr as ->. by eapply Hm.
  - intros [= <- <-]. by eapply Hm.
Qed.

Lemma framed_for_each {A} (l : list A) (body : A -> M S E unit) :
  (forall x, framed (body x)) -> framed (for_each l body).
Proof. intros Hb. induction l; simpl; [apply framed_ret | by apply framed_bind]. Qed.

Lemma framed_attempt {A} (m : M S E A) : framed m -> framed (attempt m).
Proof.
  intros Hm s r s'. unfold attempt. destruct (m s) as [[a | e] s1] eqn:Hs;
    intros [= <- <-]; by eapply Hm.
Qed.

Lemma framed_transactional {A} (m : M S E A) : framed m -> framed (transactional m).
Proof.
  intros Hm s r s'. unfold transactional. destruct (m s) as [[a | e] s1] eqn:Hs;
    intros [= <- <-]; [by eapply Hm | done].
Qed.
End Framed.

(** Follows the construction of a computation down to its writes. *)
Ltac framed_step :=
  first
    [ apply framed_ret | apply framed_fail | apply framed_gets | apply framed_ensure
    | apply framed_ok_or | apply framed_modify; intros ?; reflexivity
    | apply framed_for_each; intros ? | apply framed_attempt
    | apply framed_bind; [| intros ?]
    | match goal with
      | |- framed _ (if ?b then _ else _) => destruct b
      | |- framed _ (match ?x with _ => _ end) => destruct x
      end ].
Ltac framed_tac := cbv zeta; repeat (framed_step; cbv zeta).

(** * Computations that keep a property of the state *)

Section Kept.
Context {S E : Type} (P : S -> Prop).

(** However [m] ends, the state it leaves still has [P]. *)
Definition kept {A} (m : M S E A) : Prop := forall s r s', P s -> m s = (r, s') -> P s'.

Lemma kept_ret {A} (a : A) : kept (ret a).
Proof. by intros s r s' ? [= <- <-]. Qed.

Lemma kept_fail {A} (e : E) : kept (A:=A) (fail e).
Proof. by intros s r s' ? [= <- <-]. Qed.

Lemma kept_gets {A} (h : S -> A) : kept (gets h).
Proof. by intros s r s' ? [= <- <-]. Qed.

Lemma kept_modify (h : S -> S) : (forall s, P s -> P (h s)) -> kept (modify h).
Proof. intros Hh s r s' ? [= <- <-]. by apply Hh. Qed.

Lemma kept_ok_or {A} (o : option A) (e : E) : kept (ok_or o e).
Proof. destruct o; [apply kept_ret | apply kept_fail]. Qed.

Lemma kept_bind {A B} (m : M S E A) (k : A -> M S E B) :
  kept m -> (forall a, kept (k a)) -> kept (bind m k).
Proof.
  intros Hm Hk s r s' Hs. unfold bind. destruct (m s) as [[a | e] s1] eqn:Hr.
  - apply Hk. by eapply Hm.
  - intros [= <- <-]. by eapply Hm.
Qed.

(** What runs after a guard may rely on it. *)
Lemma kept_ensure {B} (Q : Prop) `{Decision Q} (e : E) (k : unit -> M S E B) :
  (Q -> kept (k tt)) -> kept (bind (ensure Q e) k).
Proof.
  intros Hk s r s' Hs. unfold bind, ensure. case_decide; [by apply Hk |]. by intros [= <- <-].
Qed.

Lemma kept_ensure_last (Q : Prop) `{Decision Q} (e : E) : kept (ensure Q e).
Proof. by intros s r s' ? [-> _]%ensure_inv. Qed.

(** What follows a read may rely on what was read. *)
Lemma kept_gets_bind {A B} (h : S -> A) (k : A -> M S E B) :
  (forall s r s', P s -> k (h s) s = (r, s') -> P s') -> kept (bind (gets h) k).
Proof. intros Hk s r s' Hs. unfold bind, gets. by apply Hk. Qed.

Lemma kept_for_each {A} (l : list A) (body : A -> M S E unit) :
  (forall x, kept (body x)) -> kept (for_each l body).
Proof. intros Hb. induction l; simpl; [apply kept_ret | by apply kept_bind]. Qed.

Lemma kept_attempt {A} (m : M S E A) : kept m -> kept (attempt m).
Proof.
  intros Hm s r s' Hs. unfold attempt. destruct (m s) as [[a | e] s1] eqn:Hr;
    intros [= <- <-]; by eapply Hm.
Qed.

Lemma kept_transactional {A} (m : M S E A) : kept m -> kept (transactional m).
Proof.
  intros Hm s r s' Hs. unfold transactional. destruct (m s) as [[a | e] s1] eqn:Hr;
    intros [= <- <-]; [by eapply Hm | done].
Qed.
End Kept.

(** Follows the construction down to its writes, which are left as goals when
    [easy_write] does not solve them. *)
Ltac kept_step easy_write :=
  first
    [ apply kept_ret | apply kept_fail | apply kept_gets | apply kept_ok_or
    | apply kept_modify; easy_write
    | apply kept_ensure; intros ? | apply kept_ensure_last
    | apply kept_for_each; intros ? | apply kept_attempt
    | apply kept_bind; [| intros ?]
    | match goal with
      | |- kept _ (if ?b then _ else _) => destruct b
      | |- kept _ (match ?x with _ => _ end) => destruct x
      end ].

(** * Sums over storage maps *)

Section MapSum.
Context {K V : Type} `{Countable K}.
Implicit Types (m : gmap K V) (f g : K -> V -> Z).

Definition msum f m : Z := map_fold (fun k v acc => f k v + acc) 0 m.

Lemma msum_empty f : msum f ∅ = 0.
Proof. apply map_fold_empty. Qed.

Lemma msum_insert_new f m k v :
  m !! k = None -> msum f (<[k := v]> m) = f k v + msum f m.
Proof.
  intros. unfold msum. apply (map_fold_insert_L (fun k v acc => f k v + acc)); [| done].
  intros; lia.
Qed.

Lemma msum_delete_some f m k v :
  m !! k = Some v -> msum f m = f k v + msum f (delete k m).
Proof.
  intros. unfold msum. apply (map_fold_delete_L (fun k v acc => f k v + acc)); [| done].
  intros; lia.
Qed.

Lemma msum_delete f m k :
  msum f (delete k m) = msum f m - default 0 (f k <$> m !! k).
Proof.
  destruct (m !! k) as [v |] eqn:Hk; simpl.
  - rewrite (msum_delete_some f m k v Hk). lia.
  - rewrite delete_id by done. lia.
Qed.

Lemma msum_insert f m k v :
  msum f (<[k := v]> m) = msum f m - default 0 (f k <$> m !! k) + f k v.
Proof.
  rewrite <- insert_delete_eq, msum_insert_new by apply lookup_delete_eq.
  rewrite msum_delete. lia.
Qed.

Lemma msum_ext f g m :
  (forall k v, m !! k = Some v -> f k v = g k v) -> msum f m = msum g m.
Proof.
  induction m as [| k v m Hk IH] using map_ind; intros Hfg; [by rewrite !msum_empty |].
  rewrite !msum_insert_new by done. rewrite IH.
  - rewrite (Hfg k v); [done | apply lookup_insert_eq].
  - intros k' v' Hk'. apply Hfg. rewrite lookup_insert_ne; [done | congruence].
Qed.

Lemma msum_nonneg f m :
  (forall k v, m !! k = Some v -> 0 <= f k v) -> 0 <= msum f m.
Proof.
  induction m as [| k v m Hk IH] using map_ind; intros Hf; [by rewrite msum_empty |].
  rewrite msum_insert_new by done.
  assert (0 <= f k v) by (apply Hf, lookup_insert_eq).
  assert (0 <= msum f m); [| lia].
  apply IH. intros k' v' Hk'. apply Hf. rewrite lookup_insert_ne; [done | congruence].
Qed.

Lemma msum_mono f g m :
  (forall k v, m !! k = Some v -> f k v <= g k v) -> msum f m <= msum g m.
Proof.
  induction m as [| k v m Hk IH] using map_ind; intros Hfg; [by rewrite !msum_empty |].
  rewrite !msum_insert_new by done. specialize (Hfg k v (lookup_insert_eq _ _ _)) as Hkv.
  assert (msum f m <= msum g m); [| lia].
  apply IH. intros k' v' Hk'. apply Hfg. rewrite lookup_insert_ne; [done | congruence].
Qed.

Lemma msum_elem_le f m k v :
  (forall k v, m !! k = Some v -> 0 <= f k v) -> m !! k = Some v -> f k v <= msum f m.
Proof.
  intros Hf Hk. rewrite (msum_delete_some f m k v Hk).
  assert (0 <= msum f (delete k m)); [| lia].
  apply msum_nonneg. intros k' v' [_ Hk']%lookup_delete_Some. eauto.
Qed.

Lemma msum_const m : msum (fun _ _ => 1) m = Z.of_nat (size m).
Proof.
  induction m as [| k v m Hk IH] using map_ind; [by rewrite msum_empty, map_size_empty |].
  rewrite msum_insert_new, map_size_insert_None by done. lia.
Qed.
End MapSum.

(** Rows of a double map keyed by a pair, counted under one first key. *)
Definition row {K1 K2 V} `{EqDecision K1} (w : V -> Z) (k1 : K1) (k : K1 * K2) (v : V) : Z :=
  if decide (k.1 = k1) then w v else 0.

Lemma row_eq {K1 K2 V} `{EqDecision K1} (w : V -> Z) (k1 : K1) (k2 : K2) v : row w k1 (k1, k2) v = w v.
Proof. unfold row. by rewrite decide_True. Qed.

Lemma row_ne {K1 K2 V} `{EqDecision K1} (w : V -> Z) (k1 k1' : K1) (k2 : K2) v :
  k1' <> k1 -> row w k1 (k1', k2) v = 0.
Proof. intros. unfold row. by rewrite decide_False. Qed.

(** Rows of a storage map charged to the account [owner] names. *)
Section Tally.
Context {K V : Type} `{Countable K}.
Implicit Types (m : gmap K V) (who : AccountId) (owner : V -> AccountId) (w : V -> Z).

Definition charge owner w who (v : V) : Z := if decide (owner v = who) then w v else 0.

Definition tally owner w who m : Z := msum (fun _ => charge owner w who) m.

Lemma tally_insert owner w who m k v :
  tally owner w who (<[k := v]> m) =
    tally owner w who m - default 0 (charge owner w who <$> m !! k) + charge owner w who v.
Proof. apply (msum_insert (fun _ => charge owner w who)). Qed.

Lemma tally_delete owner w who m k :
  tally owner w who (delete k m) =
    tally owner w who m - default 0 (charge owner w who <$> m !! k).
Proof. apply (msum_delete (fun _ => charge owner w who)). Qed.

Lemma tally_empty owner w who : tally owner w who (∅ : gmap K V) = 0.
Proof. apply msum_empty. Qed.

Lemma tally_elem_le owner w who m k v :
  (forall k v, m !! k = Some v -> 0 <= w v) -> m !! k = Some v -> owner v = who ->
  w v <= tally owner w who m.
Proof.
  intros Hw Hk Hwho. trans (charge owner w who v).
  - unfold charge. by rewrite decide_True.
  - apply (msum_elem_le (fun _ => charge owner w who) m k v); [| done].
    intros k' v' Hk'. unfold charge. case_decide; [eauto | lia].
Qed.
End Tally.

(** The position of an element just pushed. *)
Lemma list_find_last {A} `{EqDecision A} (l : list A) x :
  x ∉ l -> list_find (fun y => y = x) (l ++ [x]) = Some (length l, x).
Proof.
  intros Hx. rewrite list_find_app_r.
  - simpl. rewrite decide_True by done. simpl. by f_equal; f_equal; lia.
  - apply list_find_None, Forall_forall. intros y Hy ->. done.
Qed.

(** ** Stable sorting *)

Section StableSort.
Context {A : Type} (R : relation A) `{!RelDecision R}.

Lemma insert_before_Permutation x l : insert_before R x l ≡ₚ x :: l.
Proof.
  induction l as [| y l IH]; simpl; [done |]. case_decide; [done |]. rewrite IH. constructor.
Qed.

Lemma stable_sort_Permutation l : stable_sort R l ≡ₚ l.
Proof. induction l as [| x l IH]; simpl; [done |]. by rewrite insert_before_Permutation, IH. Qed.

Lemma insert_before_sorted `{!Total R, !Transitive R} x l : StronglySorted R l -> StronglySorted R (insert_before R x l).
Proof.
  induction 1 as [| y l Hl IH Hy]; simpl; [by repeat constructor |]. case_decide as Hxy.
  - constructor; [by constructor |]. constructor; [done |]. eapply Forall_impl; [exact Hy |]. intros z. by transitivity y.
  - constructor; [done |]. rewrite insert_before_Permutation. constructor; [| done].
    destruct (base.total R x y); done.
Qed.

Lemma stable_sort_sorted `{!Total R, !Transitive R} l : StronglySorted R (stable_sort R l).
Proof. induction l as [| x l IH]; simpl; [constructor | by apply insert_before_sorted]. Qed.

(** Elements that compare equal stay in the order they had. *)
Lemma insert_before_filter `{!Total R, !Transitive R} z x l :
  filter (fun y => R z y /\ R y z) (insert_before R x l) = filter (fun y => R z y /\ R y z) (x :: l).
Proof.
  induction l as [| y l IH]; [done |]. cbn [insert_before]. case_decide as Hxy; [done |].
  rewrite filter_cons, IH, !filter_cons. repeat case_decide; try done. exfalso.
  apply Hxy. transitivity z; tauto.
Qed.

Lemma stable_sort_stable `{!Total R, !Transitive R} z l :
  filter (fun y => R z y /\ R y z) (stable_sort R l) = filter (fun y => R z y /\ R y z) l.
Proof.
  induction l as [| x l IH]; [done |]. cbn [stable_sort foldr]. rewrite insert_before_filter, !filter_cons.
  fold (stable_sort R l). by rewrite IH.
Qed.
End StableSort.

Lemma swap_remove_Permutation {A} (l : list A) i x :
  l !! i = Some x -> l ≡ₚ x :: swap_remove i l.
Proof.
  intros Hi. unfold swap_remove. destruct l as [| y l _] using rev_ind; [done |].
  rewrite last_snoc, length_app, Nat.add_comm. simpl.
  apply lookup_snoc_Some in Hi as [[Hlt Hi] | [-> <-]].
  - rewrite insert_app_l by done. rewrite take_app_length' by (by rewrite length_insert).
    rewrite <- (take_drop_middle _ _ _ Hi) at 1.
    rewrite insert_take_drop by done. rewrite <- app_assoc. simpl.
    rewrite <- Permutation_middle. apply Permutation_skip, Permutation_app_head.
    symmetry. apply Permutation_cons_append.
  - rewrite list_insert_id by (by apply list_lookup_middle).
    rewrite take_app_length. by rewrite Permutation_app_comm.
Qed.

Lemma list_sublist_filter {A} (P : A -> Prop) `{forall x, Decision (P x)} (l : list A) :
  filter P l `sublist_of` l.
Proof.
  induction l as [| x l IH]; [constructor |]. rewrite filter_cons.
  case_decide; by constructor.
Qed.

Lemma alter_eq_insert {K V} `{Countable K} (f : V -> V) (m : gmap K V) k v :
  m !! k = Some v -> alter f k m = <[k := f v]> m.
Proof.
  intros Hk. apply map_eq. intros k'. destruct (decide (k = k')) as [<- | Hne].
  - by rewrite lookup_alter_eq, lookup_insert_eq, Hk.
  - by rewrite lookup_alter_ne, lookup_insert_ne.
Qed.

Lemma get0_insert {K} `{Countable K} (m : gmap K Z) i j x :
  get0 (<[i := x]> m) j = if decide (i = j) then x else get0 m j.
Proof. unfold get0. rewrite lookup_insert. by case_decide. Qed.

Lemma get0_empty {K} `{Countable K} (j : K) : get0 (∅ : gmap K Z) j = 0.
Proof. unfold get0. by rewrite lookup_empty. Qed.

(** * Double maps

    A [StorageDoubleMap] is a map of rows, one row per first key; a row that was
    never written reads as the empty one. *)

Section DoubleMap.
Context {A B V : Type} `{Countable A} `{Countable B}.
Implicit Types (m : gmap A (gmap B V)).

Definition prefix m (a : A) : gmap B V := default ∅ (m !! a).

Definition dget m (a : A) (b : B) : option V := prefix m a !! b.

Definition dset (a : A) (b : B) (v : V) m : gmap A (gmap B V) := <[a := <[b := v]> (prefix m a)]> m.

Definition drem (a : A) (b : B) m : gmap A (gmap B V) := <[a := delete b (prefix m a)]> m.

Lemma prefix_empty a : prefix (∅ : gmap A (gmap B V)) a = ∅.
Proof. unfold prefix. by rewrite lookup_empty. Qed.

Lemma prefix_insert m a r a' : prefix (<[a := r]> m) a' = if decide (a = a') then r else prefix m a'.
Proof. unfold prefix. rewrite lookup_insert. by case_decide. Qed.

Lemma prefix_dset m a b v a' :
  prefix (dset a b v m) a' = if decide (a = a') then <[b := v]> (prefix m a) else prefix m a'.
Proof. apply prefix_insert. Qed.

Lemma prefix_drem m a b a' :
  prefix (drem a b m) a' = if decide (a = a') then delete b (prefix m a) else prefix m a'.
Proof. apply prefix_insert. Qed.

Lemma dget_dset m a b v a' b' :
  dget (dset a b v m) a' b' = if decide (a = a' /\ b = b') then Some v else dget m a' b'.
Proof.
  unfold dget. rewrite prefix_dset. destruct (decide (a = a')) as [<- |].
  - rewrite lookup_insert. repeat case_decide; tauto.
  - rewrite decide_False by tauto. done.
Qed.

Lemma dget_drem m a b a' b' :
  dget (drem a b m) a' b' = if decide (a = a' /\ b = b') then None else dget m a' b'.
Proof.
  unfold dget. rewrite prefix_drem. destruct (decide (a = a')) as [<- |].
  - rewrite lookup_delete. repeat case_decide; tauto.
  - rewrite decide_False by tauto. done.
Qed.
End DoubleMap.

(** * Saturating arithmetic *)

Lemma sat_add_exact top a b : a + b <= top -> sat_add top a b = a + b.
Proof. unfold sat_add. lia. Qed.

Lemma sat_sub_exact a b : b <= a -> sat_sub a b = a - b.
Proof. unfold sat_sub. lia. Qed.

Lemma sat_add_bounds top a b : 0 <= a -> 0 <= b -> a <= top -> a <= sat_add top a b <= top.
Proof. unfold sat_add. lia. Qed.

Lemma sat_sub_bounds a b : 0 <= a -> 0 <= b -> 0 <= sat_sub a b <= a.
Proof. unfold sat_sub. lia. Qed.

(** * Encodings *)

Lemma le_bytes_length n z : length (le_bytes n z) = n.
Proof. revert z. induction n; intros z; simpl; auto. Qed.

Lemma of_le_bytes_le_bytes n z : 0 <= z < 256 ^ Z.of_nat n -> of_le_bytes (le_bytes n z) = z.
Proof.
  revert z. induction n as [| n IH]; intros z Hz; [simpl in *; lia |].
  cbn [le_bytes of_le_bytes]. rewrite IH.
  - pose proof (Z.div_mod z 256). lia.
  - rewrite Nat2Z.inj_succ, Z.pow_succ_r in Hz by lia.
    split; [apply Z.div_pos; lia |]. apply Z.div_lt_upper_bound; lia.
Qed.

Lemma le_bytes_inj n x y :
  0 <= x < 256 ^ Z.of_nat n -> 0 <= y < 256 ^ Z.of_nat n -> le_bytes n x = le_bytes n y -> x = y.
Proof.
  intros Hx Hy Heq. rewrite <- (of_le_bytes_le_bytes n x), <- (of_le_bytes_le_bytes n y) by done.
  by rewrite Heq.
Qed.

(** * Automation *)

Create HintDb pallet.
Create Rewrite HintDb pallet.
#[export] Hint Rewrite @msum_insert @msum_delete @msum_empty @row_eq
  @tally_insert @tally_delete @tally_empty : pallet.
#[export] Hint Rewrite @lookup_insert_eq @lookup_delete_eq : pallet.
#[export] Hint Resolve sat_add_exact sat_sub_exact : pallet.

(** Splits every lookup in an updated map on whether the keys agree. *)
Ltac map_cases :=
  repeat match goal with
  | H : context [<[?i := _]> _ !! ?j] |- _ => rewrite lookup_insert in H; case_decide; simplify_eq
  | H : context [delete ?i _ !! ?j] |- _ => rewrite lookup_delete in H; case_decide; simplify_eq
  | |- context [<[?i := _]> _ !! ?j] => rewrite lookup_insert; case_decide; simplify_eq
  | |- context [delete ?i _ !! ?j] => rewrite lookup_delete; case_decide; simplify_eq
  end.
