(* ===== verification/Frame.v ===== *)
(** The parts of FRAME and of the runtime every pallet relies on: origins, the
    block environment and the reservable currency. None of them is code of the
    repository, so each is an interface a pallet's section takes as a
    parameter: the operations in one class, the documented laws the theorems
    use in another. A small ledger that satisfies the laws is given at the end,
    for the concrete runs. *)

From S2P Require Import Prelude.

(** * frame_system *)

(** [OriginFor<T>] and the two origin checks the pallets call. *)
Class FrameSystem : Type := {
  Origin : Type;
  ensure_signed : Origin -> option AccountId;
  ensure_root : Origin -> bool;
}.

(** What a call reads of the block it runs in: [frame_system]'s block number
    and genesis hash, and the clock. *)
Record Env : Type := mkEnv {
  block_number : Z;
  now_ms : Z;
  unix_secs : Z;
  genesis_hash : bytes;
}.

(** Whether each field is in the range of its type (u32 blocks, u64 clocks). *)
Definition env_ok (e : Env) : Prop :=
  0 <= block_number e <= u32_max /\ 0 <= now_ms e <= u64_max /\ 0 <= unix_secs e <= u64_max.

(** * Iterating and clearing a row of a double map *)

(** [iter_key_prefix] lists the keys of a row in the order of their hashes;
    [clear_prefix] removes at most [limit] of the stored entries and says whether
    it left a cursor. *)
Class PrefixStorage : Type := {
  iter_keys : forall {K V : Type} `{Countable K}, gmap K V -> list K;
  clear_row : forall {K V : Type} `{Countable K}, nat -> gmap K V -> gmap K V * bool;
}.

(** Their documented contract: every key is listed once; clearing only removes,
    and a call that leaves no cursor has emptied the row. *)
Class PrefixStorageLaws `{PrefixStorage} : Prop := {
  iter_keys_spec : forall (K V : Type) `{Countable K} (m : gmap K V),
    iter_keys m ≡ₚ (map_to_list m).*1;
  clear_row_subseteq : forall (K V : Type) `{Countable K} limit (m : gmap K V),
    (clear_row limit m).1 ⊆ m;
  clear_row_done : forall (K V : Type) `{Countable K} limit (m : gmap K V),
    (clear_row limit m).2 = false -> (clear_row limit m).1 = ∅;
}.

(** A call without a cursor on a row that has not been touched earlier in its block, and
    which leaves a cursor, has removed as many entries as it was allowed to. Repeated in
    the same block it may look at the same entries again and remove none. *)
Class FreshRowLaws `{PrefixStorage} : Prop := {
  clear_row_cursor : forall (K V : Type) `{Countable K} limit (m : gmap K V),
    (clear_row limit m).2 = true -> (size (clear_row limit m).1 + limit <= size m)%nat;
}.

Lemma iter_keys_elem `{PrefixStorageLaws} {K V : Type} `{Countable K} (m : gmap K V) k :
  is_Some (m !! k) <-> k ∈ iter_keys m.
Proof.
  rewrite (iter_keys_spec K V m), list_elem_of_fmap. split.
  - intros [v Hk]. exists (k, v). by rewrite elem_of_map_to_list.
  - intros ([k' v] & -> & Hk%elem_of_map_to_list). eauto.
Qed.

(** * Host functions *)

(** [sp_io::hashing] and [sp_io::crypto]. *)
Class HostCrypto : Type := {
  blake2_256 : bytes -> bytes;
  blake2_128 : bytes -> Bytes16;
  ed25519_verify (sig msg pk : bytes) : bool;
}.

Class HostCryptoLaws `{HostCrypto} : Prop := {
  blake2_256_length : forall b, length (blake2_256 b) = 32%nat;
}.

(** * Reservable currency *)

Class ReservableCurrency (L : Type) : Type := {
  free_balance : AccountId -> L -> Z;
  reserved_balance : AccountId -> L -> Z;
  (** [reserve]: fails, without effect, when the free balance is too small. *)
  reserve : AccountId -> Z -> L -> option L;
  (** [unreserve]: moves back at most what is reserved; the amount it could not
      move is returned. *)
  unreserve : AccountId -> Z -> L -> L * Z;
}.

(** The documented contract of [ReservableCurrency]. *)
Class ReservableCurrencyLaws (L : Type) `{ReservableCurrency L} : Prop := {
  reserved_nonneg : forall x l, 0 <= reserved_balance x l;
  reserve_reserved : forall who a l l' x, 0 <= a -> reserve who a l = Some l' ->
    reserved_balance x l' = reserved_balance x l + (if decide (x = who) then a else 0);
  reserve_free : forall who a l l' x, 0 <= a -> reserve who a l = Some l' ->
    free_balance x l' = free_balance x l - (if decide (x = who) then a else 0);
  unreserve_reserved : forall who a l x, 0 <= a ->
    reserved_balance x (unreserve who a l).1 =
      reserved_balance x l -
      (if decide (x = who) then Z.min a (reserved_balance who l) else 0);
  unreserve_free : forall who a l x, 0 <= a ->
    free_balance x (unreserve who a l).1 =
      free_balance x l +
      (if decide (x = who) then Z.min a (reserved_balance who l) else 0);
}.

Section Currency.
Context {L : Type} `{ReservableCurrency L} `{!ReservableCurrencyLaws L}.

Lemma unreserve_exact who a l x :
  0 <= a <= reserved_balance who l ->
  reserved_balance x (unreserve who a l).1 =
    reserved_balance x l - (if decide (x = who) then a else 0).
Proof. intros. rewrite unreserve_reserved by lia. case_decide; lia. Qed.
End Currency.

(** * Currency that pays out of reserves *)

Class RepatriatingCurrency (L : Type) `{ReservableCurrency L} : Type := {
  (** [repatriate_reserved(from, to, amount, Free)]: moves at most what [from] has
      reserved; the amount it could not move is returned. It fails, without
      effect, when [to] cannot receive. *)
  repatriate_reserved (from to : AccountId) (amount : Z) (l : L) : option (L * Z);
  (** [transfer(from, to, amount, KeepAlive)] of free balance. *)
  transfer_free (from to : AccountId) (amount : Z) (l : L) : option L;
}.

(** The documented contract, between two different accounts. *)
Class RepatriatingCurrencyLaws (L : Type) `{RepatriatingCurrency L} : Prop := {
  repatriate_rest : forall a b v l l' rest, a <> b -> 0 <= v ->
    repatriate_reserved a b v l = Some (l', rest) ->
    rest = v - Z.min v (reserved_balance a l);
  repatriate_reserves : forall a b v l l' rest x, a <> b -> 0 <= v ->
    repatriate_reserved a b v l = Some (l', rest) ->
    reserved_balance x l' = reserved_balance x l -
      (if decide (x = a) then Z.min v (reserved_balance a l) else 0);
  repatriate_free : forall a b v l l' rest x, a <> b -> 0 <= v ->
    repatriate_reserved a b v l = Some (l', rest) ->
    free_balance x l' = free_balance x l +
      (if decide (x = b) then Z.min v (reserved_balance a l) else 0);
  transfer_free_reserves : forall a b v l l' x, a <> b -> 0 <= v ->
    transfer_free a b v l = Some l' -> reserved_balance x l' = reserved_balance x l;
  transfer_free_free : forall a b v l l' x, a <> b -> 0 <= v ->
    transfer_free a b v l = Some l' ->
    free_balance x l' = free_balance x l + (if decide (x = b) then v else 0) -
      (if decide (x = a) then v else 0);
}.

(** * Transferable currency *)

Inductive ExistenceRequirement : Type := KeepAlive | AllowDeath.

Class TransferCurrency (L : Type) : Type := {
  balance : AccountId -> L -> Z;
  minimum_balance : Z;
  (** [Currency::transfer]: fails, without effect, when the sender cannot pay,
      when it would have to stay alive and could not, or when the receiver would
      be left under the minimum balance. *)
  transfer (from to : AccountId) (amount : Z) (existence : ExistenceRequirement) (l : L)
    : option L;
}.

(** The documented contract of [Currency::transfer]: the amount moves, nobody
    else is touched, and a sender left with less than the minimum balance is
    removed with what it has left, which [KeepAlive] refuses. *)
Class TransferCurrencyLaws (L : Type) `{TransferCurrency L} : Prop := {
  balance_nonneg : forall x l, 0 <= balance x l;
  (** balances are u128 *)
  balance_max : forall x l, balance x l <= u128_max;
  minimum_balance_pos : 0 < minimum_balance;
  transfer_self : forall a v ex l l' x, transfer a a v ex l = Some l' -> balance x l' = balance x l;
  transfer_to : forall a b v ex l l', a <> b -> 0 <= v ->
    transfer a b v ex l = Some l' -> balance b l' = balance b l + v;
  transfer_other : forall a b v ex l l' x, x <> a -> x <> b ->
    transfer a b v ex l = Some l' -> balance x l' = balance x l;
  transfer_from : forall a b v ex l l', a <> b -> 0 <= v ->
    transfer a b v ex l = Some l' ->
    v <= balance a l /\
    (balance a l' = balance a l - v \/
     (ex = AllowDeath /\ balance a l - v < minimum_balance /\ balance a l' = 0));
}.

(** * Runs *)

(** An invariant of every step holds along every run. *)
Lemma rtc_invariant {S} (step : S -> S -> Prop) (P : S -> Prop) :
  (forall s s', P s -> step s s' -> P s') ->
  forall s s', P s -> rtc step s s' -> P s'.
Proof. intros Hstep s s' HP Hrun. induction Hrun; eauto. Qed.

(** An invariant of a dispatchable's successful runs is one of the call, since
    a failed call leaves the storage as it was. *)
Lemma transactional_invariant {S E A} (P : S -> Prop) (m : M S E A) s r s' :
  (forall a s1, m s = (Ok a, s1) -> P s1) -> P s -> transactional m s = (r, s') -> P s'.
Proof.
  intros Hm HP [(a & -> & Ha) | (e & -> & ->)]%transactional_cases; eauto.
Qed.

(** * A concrete ledger *)

(** Origins of the concrete runs: root, or a signer. *)
Inductive SimpleOrigin : Type := RootOrigin | SignedBy (who : AccountId).

#[export] Instance simple_origin_eq_dec : EqDecision SimpleOrigin.
Proof. solve_decision. Defined.

#[export] Instance simple_system : FrameSystem := {|
  Origin := SimpleOrigin;
  ensure_signed o := match o with SignedBy who => Some who | RootOrigin => None end;
  ensure_root o := match o with SignedBy _ => false | RootOrigin => true end;
|}.

(** The keys in the order of the map; clearing drops its first entries. *)
#[export] Instance simple_prefix_storage : PrefixStorage := {|
  iter_keys K V _ _ m := (map_to_list m).*1;
  clear_row K V _ _ limit m :=
    (list_to_map (drop limit (map_to_list m)), bool_decide (limit < size m)%nat);
|}.

#[export] Instance simple_prefix_storage_laws : PrefixStorageLaws.
Proof.
  split; simpl.
  - done.
  - intros K V ? ? limit m. apply map_subseteq_spec. intros k v Hk.
    apply elem_of_list_to_map_2, (subseteq_drop limit), elem_of_map_to_list in Hk. done.
  - intros K V ? ? limit m Hlim%bool_decide_eq_false. rewrite drop_ge; [done |].
    rewrite length_map_to_list. lia.
Qed.

#[export] Instance simple_fresh_rows : FreshRowLaws.
Proof.
  split. simpl. intros K V ? ? limit m Hlim%bool_decide_eq_true. rewrite map_size_list_to_map.
  - rewrite length_drop, length_map_to_list. lia.
  - rewrite fmap_drop. eapply sublist_NoDup; [apply (NoDup_fst_map_to_list m) | apply sublist_drop].
Qed.

(** A toy digest, and a verifier that accepts the digest of the key and the
    message. *)
Definition toy_digest (b : bytes) : Z := foldl (fun acc x => (31 * acc + x + 1) mod 65521) 7 b.

#[export] Instance toy_crypto : HostCrypto := {|
  blake2_256 b := le_bytes 32 (toy_digest b);
  blake2_128 b := Z.to_N (toy_digest b);
  ed25519_verify sig msg pk := bool_decide (sig = le_bytes 64 (toy_digest (pk ++ msg)));
|}.

#[export] Instance toy_crypto_laws : HostCryptoLaws.
Proof. split. intros b. apply le_bytes_length. Qed.

(** Free and reserved balance of every account. *)
Abbreviation SimpleLedger := (gmap AccountId (N * N)).

#[export] Instance simple_reservable : ReservableCurrency SimpleLedger := {|
  free_balance x l := Z.of_N (default (0%N, 0%N) (l !! x)).1;
  reserved_balance x l := Z.of_N (default (0%N, 0%N) (l !! x)).2;
  reserve who a l :=
    let '(f, r) := default (0%N, 0%N) (l !! who) in
    if decide (a <= Z.of_N f)
    then Some (<[who := ((f - Z.to_N a)%N, (r + Z.to_N a)%N)]> l) else None;
  unreserve who a l :=
    let '(f, r) := default (0%N, 0%N) (l !! who) in
    let moved := N.min (Z.to_N a) r in
    (<[who := ((f + moved)%N, (r - moved)%N)]> l, a - Z.of_N moved);
|}.

#[export] Instance simple_reservable_laws : ReservableCurrencyLaws SimpleLedger.
Proof.
  split; simpl.
  1: lia.
  all: intros who a l; destruct (default _ (l !! who)) as [f r] eqn:Hwho.
  1-2: intros l' x Ha; case_decide; intros [= <-].
  3-4: intros x Ha; simpl.
  all: rewrite lookup_insert; repeat case_decide; simplify_eq; rewrite ?Hwho; simpl; lia.
Qed.

#[export] Instance simple_repatriating : RepatriatingCurrency SimpleLedger := {|
  repatriate_reserved from to a l :=
    let '(f1, r1) := default (0%N, 0%N) (l !! from) in
    let moved := N.min (Z.to_N a) r1 in
    let l1 := <[from := (f1, (r1 - moved)%N)]> l in
    let '(f2, r2) := default (0%N, 0%N) (l1 !! to) in
    Some (<[to := ((f2 + moved)%N, r2)]> l1, a - Z.of_N moved);
  transfer_free from to a l :=
    let '(f1, r1) := default (0%N, 0%N) (l !! from) in
    if decide (a < Z.of_N f1) then
      let l1 := <[from := ((f1 - Z.to_N a)%N, r1)]> l in
      let '(f2, r2) := default (0%N, 0%N) (l1 !! to) in
      Some (<[to := ((f2 + Z.to_N a)%N, r2)]> l1)
    else None;
|}.

#[export] Instance simple_repatriating_laws : RepatriatingCurrencyLaws SimpleLedger.
Proof.
  split; simpl; intros a b v l l'; [intros rest | intros rest x | intros rest x | intros x | intros x];
    intros Hne Hv; destruct (default _ (l !! a)) as [f1 r1] eqn:Ha;
    try (case_decide; [| done]);
    rewrite lookup_insert_ne by done; destruct (default _ (l !! b)) as [f2 r2] eqn:Hb;
    intros [= <-]; subst; simpl; try lia.
  all: rewrite !lookup_insert; repeat case_decide; simplify_eq; simpl; rewrite ?Ha, ?Hb; simpl; lia.
Qed.

(** Balances of accounts; an account keeps at least five units. *)
Abbreviation SimpleBank := (gmap AccountId N).

Definition bank_get (l : SimpleBank) (x : AccountId) : Z :=
  Z.min u128_max (Z.of_N (default 0%N (l !! x))).

Definition bank_set (x : AccountId) (v : Z) (l : SimpleBank) : SimpleBank := <[x := Z.to_N v]> l.

Lemma bank_get_set l x y v :
  0 <= v <= u128_max -> bank_get (bank_set x v l) y = if decide (x = y) then v else bank_get l y.
Proof.
  intros Hv. unfold bank_get, bank_set. rewrite lookup_insert. case_decide; simpl; [lia | done].
Qed.

#[export] Instance simple_bank : TransferCurrency SimpleBank := {|
  balance x l := bank_get l x;
  minimum_balance := 5;
  transfer from to v ex l :=
    let rest := bank_get l from - v in
    let sum := bank_get l to + v in
    if decide (from = to \/ v = 0) then Some l
    else if decide (v < 0 \/ rest < 0 \/ sum < 5 \/ sum > u128_max) then None
    else if decide (5 <= rest) then Some (bank_set to sum (bank_set from rest l))
    else match ex with
         | AllowDeath => Some (bank_set to sum (bank_set from 0 l))
         | KeepAlive => None
         end;
|}.

Lemma bank_get_bounds l x : 0 <= bank_get l x <= u128_max.
Proof. unfold bank_get, u128_max. lia. Qed.

Lemma bank_transfer a b v ex l l' :
  transfer a b v ex l = Some l' ->
  ((a = b \/ v = 0) /\ l' = l) \/
  (a <> b /\ v <= bank_get l a /\ exists r,
    (r = bank_get l a - v \/ (ex = AllowDeath /\ bank_get l a - v < 5 /\ r = 0)) /\
    forall x, bank_get l' x =
      if decide (b = x) then bank_get l b + v else if decide (a = x) then r else bank_get l x).
Proof.
  pose proof (bank_get_bounds l a). pose proof (bank_get_bounds l b).
  simpl. case_decide as Hnop; [intros [= <-]; auto |].
  case_decide as Hbad; [done |]. intros Hl'. right.
  split; [intros ->; apply Hnop; by left | split; [lia |]].
  case_decide; [| destruct ex; [done |]]; simplify_eq.
  - exists (bank_get l a - v). split; [auto |]. intros x. by rewrite !bank_get_set by lia.
  - exists 0. split; [right; split_and!; [done | lia | done] |].
    intros x. by rewrite !bank_get_set by (unfold u128_max in *; lia).
Qed.

#[export] Instance simple_bank_laws : TransferCurrencyLaws SimpleBank.
Proof.
  split.
  - intros. apply bank_get_bounds.
  - intros. apply bank_get_bounds.
  - done.
  - intros a v ex l l' x [[_ ->] | [? _]]%bank_transfer; done.
  - intros a b v ex l l' Hne Hv [[[? | ->] ->] | (_ & _ & r & _ & Hx)]%bank_transfer;
      simpl; [done | lia |]. by rewrite Hx, decide_True.
  - intros a b v ex l l' x Ha Hb [[_ ->] | (_ & _ & r & _ & Hx)]%bank_transfer; [done |].
    simpl. by rewrite Hx, !decide_False.
  - intros a b v ex l l' Hne Hv Ht. pose proof (bank_get_bounds l a). simpl.
    apply bank_transfer in Ht as [[[? | ->] ->] | (_ & Hle & r & Hr & Hx)]; [done | lia |].
    rewrite Hx, decide_False, decide_True by done. split; [done |].
    destruct Hr as [-> | Hr]; [by left | by right].
Qed.
