(* ===== verification/ChatCommon.v ===== *)
(** [pallet-chat-common]: the helpers the chat pallets share
    (src/pallets/chat/common/src): the windowed rate limit and the block
    cooldown (rate_limit.rs), the epoch bump (epoch.rs) and the deposit
    wrappers (deposit.rs), with the lemmas on them the pallets reuse. *)

From S2P Require Import Prelude Frame.

(** * rate_limit.rs *)

Module RateLimit.

Record RateLimitState : Type := mkRateLimitState { last_time : Z; count : Z }.

#[export] Instance eta_rate_limit : Settable RateLimitState :=
  fun s => mkRateLimitState (last_time s) (count s).

Definition default_state : RateLimitState := mkRateLimitState 0 0.

Inductive RateLimitResult : Type := Allowed | Exceeded.

#[export] Instance rate_limit_result_eq_dec : EqDecision RateLimitResult.
Proof. solve_decision. Defined.

Definition is_allowed (r : RateLimitResult) : bool :=
  match r with Allowed => true | Exceeded => false end.

(** The new state is returned next to the verdict. *)
Definition check_and_update_rate_limit (state : RateLimitState)
    (current_block window max_count : Z) : RateLimitState * RateLimitResult :=
  let elapsed := sat_sub current_block (last_time state) in
  if decide (elapsed >= window) then
    (state <| last_time := current_block |> <| count := 1 |>, Allowed)
  else if decide (count state >= max_count) then (state, Exceeded)
  else (state <| count ::= fun c => sat_add u32_max c 1 |>, Allowed).

Definition check_rate_limit (state : RateLimitState)
    (current_block window max_count : Z) : bool :=
  let elapsed := sat_sub current_block (last_time state) in
  if decide (elapsed >= window) then true else bool_decide (count state < max_count).

Definition reset_rate_limit (state : RateLimitState) : RateLimitState := default_state.

Definition remaining_quota (state : RateLimitState) (current_block window max_count : Z) : Z :=
  let elapsed := sat_sub current_block (last_time state) in
  if decide (elapsed >= window) then max_count else sat_sub max_count (count state).

Definition min_blocks_elapsed (last now min_interval : Z) : bool :=
  bool_decide (sat_sub now last >= min_interval).

(** The calls of one caller at the given blocks, in order: the state they leave
    and how many were allowed. *)
Fixpoint run (state : RateLimitState) (window max_count : Z) (blocks : list Z)
    : RateLimitState * Z :=
  match blocks with
  | [] => (state, 0)
  | b :: blocks' =>
      let '(state1, verdict) := check_and_update_rate_limit state b window max_count in
      let '(state2, n) := run state1 window max_count blocks' in
      (state2, (if is_allowed verdict then 1 else 0) + n)
  end.

(** Between two resets of the counter. *)
Lemma run_in_window st window max t blocks :
  0 <= count st <= max -> max <= u32_max ->
  (forall b, b ∈ blocks -> t <= b < t + window) -> t <= last_time st ->
  count st + (run st window max blocks).2 <= max.
Proof.
  intros Hcount Hmax Hin Hlast. revert st Hcount Hlast.
  induction blocks as [| b blocks IH]; intros st Hcount Hlast; simpl; [lia |].
  assert (t <= b < t + window) by (apply Hin; left).
  unfold check_and_update_rate_limit.
  rewrite decide_False by (unfold sat_sub; lia).
  assert (forall st', 0 <= count st' <= max -> t <= last_time st' ->
    count st' + (run st' window max blocks).2 <= max) as IH'.
  { intros. apply IH; [| done..]. intros. apply Hin. by right. }
  case_decide as Hfull; simpl.
  - specialize (IH' st Hcount Hlast). destruct (run st window max blocks); simpl in *. lia.
  - rewrite sat_add_exact by lia.
    specialize (IH' (mkRateLimitState (last_time st) (count st + 1)) ltac:(simpl; lia) Hlast).
    destruct (run _ window max blocks); simpl in *. lia.
Qed.

(** C40: in any span of [window] blocks, whatever the state the span starts
    from and however the calls are spread over it, at most [2 * max_count]
    actions pass the rate limit: the fixed window can reset only once in it. *)
Theorem rate_limit_span_bound st window max t blocks :
  0 <= count st -> 1 <= max <= u32_max -> StronglySorted Z.le blocks ->
  (forall b, b ∈ blocks -> t <= b < t + window) ->
  (run st window max blocks).2 <= 2 * max.
Proof.
  intros Hcount Hmax Hsorted Hin.
  enough (Z.min max (count st) + (run st window max blocks).2 <= 2 * max) by lia.
  revert st Hcount. induction Hsorted as [| b blocks Hsorted IH Hb]; intros st Hcount; simpl; [lia |].
  assert (t <= b < t + window) by (apply Hin; left).
  rewrite Forall_forall in Hb. unfold check_and_update_rate_limit.
  case_decide as Hreset; [| case_decide as Hfull]; simpl.
  - assert (1 + (run (mkRateLimitState b 1) window max blocks).2 <= max) as Hrun.
    { apply (run_in_window (mkRateLimitState b 1) window max b); simpl; [lia | lia | | lia].
      intros b' Hb'. specialize (Hb b' Hb'). specialize (Hin b' ltac:(by right)). lia. }
    destruct (run _ window max blocks); simpl in *. lia.
  - specialize (IH ltac:(intros; apply Hin; by right) st Hcount).
    destruct (run st window max blocks); simpl in *. lia.
  - rewrite sat_add_exact by lia.
    specialize (IH ltac:(intros; apply Hin; by right)
      (mkRateLimitState (last_time st) (count st + 1)) ltac:(simpl; lia)).
    destruct (run _ window max blocks); simpl in *. lia.
Qed.

Lemma rate_limit_span_bound_witness :
  (run default_state 10 3 [100; 105; 105; 105; 109; 109]).2 <= 2 * 3.
Proof.
  apply (rate_limit_span_bound _ _ _ 100); [simpl; lia | unfold u32_max; lia | |].
  - repeat constructor; lia.
  - intros b Hb. repeat (apply elem_of_cons in Hb as [-> | Hb]; [lia |]). by apply elem_of_nil in Hb.
Defined.

(** The read-only query predicts the verdict, and a refused call leaves the
    state as it was. *)
Theorem check_agrees st now window max :
  check_rate_limit st now window max =
    is_allowed (check_and_update_rate_limit st now window max).2 /\
  ((check_and_update_rate_limit st now window max).2 = Exceeded ->
   (check_and_update_rate_limit st now window max).1 = st).
Proof.
  unfold check_rate_limit, check_and_update_rate_limit.
  repeat case_decide; simpl; repeat case_bool_decide; simpl; try lia; auto; done.
Qed.

Lemma min_blocks_elapsed_spec last now d :
  0 < d -> min_blocks_elapsed last now d = true <-> now - last >= d.
Proof. intros. unfold min_blocks_elapsed, sat_sub. rewrite bool_decide_eq_true. lia. Qed.

End RateLimit.

(** * epoch.rs *)

Module Epoch.

Definition next_u32_epoch (epoch : Z) : Z := sat_add u32_max epoch 1.

(** The mutable argument's new value is the returned one. *)
Definition bump_u32_epoch (epoch : Z) : Z := sat_add u32_max epoch 1.

Lemma bump_bounds epoch :
  0 <= epoch <= u32_max -> epoch <= bump_u32_epoch epoch <= u32_max.
Proof. unfold bump_u32_epoch, sat_add. lia. Qed.

Lemma bump_succ epoch : epoch < u32_max -> bump_u32_epoch epoch = epoch + 1.
Proof. unfold bump_u32_epoch, sat_add. lia. Qed.

End Epoch.

(** * deposit.rs *)

(** The pallet's storage [S] holds the currency's ledger. *)
Class LedgerIn (S L : Type) : Type := {
  ledger_of : S -> L;
  with_ledger : L -> S -> S;
}.

Section Deposit.
Context {S L E : Type} `{ReservableCurrency L} `{LedgerIn S L}.

Definition reserve_deposit (who : AccountId) (amount : Z) : M S (DispatchError E) unit :=
  let! l := gets ledger_of in
  let! l' := ok_or (reserve who amount l) CurrencyError in
  modify (with_ledger l').

Definition unreserve_deposit (who : AccountId) (amount : Z) : M S (DispatchError E) unit :=
  modify (fun s => with_ledger (unreserve who amount (ledger_of s)).1 s).

Lemma reserve_deposit_Ok who a s u s' :
  reserve_deposit who a s = (Ok u, s') ->
  exists l', reserve who a (ledger_of s) = Some l' /\ s' = with_ledger l' s.
Proof. unfold reserve_deposit. intros H1. m_inv. eauto. Qed.

Lemma unreserve_deposit_Ok who a s u s' :
  unreserve_deposit who a s = (Ok u, s') ->
  s' = with_ledger (unreserve who a (ledger_of s)).1 s.
Proof. by intros [= _ <-]. Qed.
End Deposit.

(** Records of a storage map that stand for a deposit: [owner] names the account
    it is reserved from, [amount] how much. The difference between what an
    account has reserved and what the records charge it is kept by the four
    ways the pallets change such a map. *)
Section DepositMap.
Context {L : Type} `{ReservableCurrency L} `{!ReservableCurrencyLaws L}.
Context {K V : Type} `{Countable K} (owner : V -> AccountId) (amount : V -> Z).
Implicit Types (m : gmap K V) (l : L) (x : AccountId).

Definition slack x l m : Z := reserved_balance x l - tally owner amount x m.

(** Every recorded amount is non-negative, and what an account is charged is
    covered by what it has reserved. *)
Definition covered l m : Prop :=
  map_Forall (fun _ v => 0 <= amount v) m /\ forall x, 0 <= slack x l m.

Lemma covered_le l m k v : covered l m -> m !! k = Some v ->
  0 <= amount v <= reserved_balance (owner v) l.
Proof.
  intros [Hpos Hcov] Hk. split; [by eapply Hpos |].
  pose proof (tally_elem_le owner amount (owner v) m k v Hpos Hk eq_refl).
  specialize (Hcov (owner v)). unfold slack in Hcov. lia.
Qed.

Lemma slack_insert x l l' m k v :
  m !! k = None -> 0 <= amount v -> reserve (owner v) (amount v) l = Some l' ->
  slack x l' (<[k := v]> m) = slack x l m.
Proof.
  intros Hk Hv Hres. unfold slack.
  rewrite (reserve_reserved (owner v) (amount v) l) by done.
  rewrite tally_insert, Hk. unfold charge. simpl. repeat case_decide; congruence || lia.
Qed.

Lemma slack_update x l m k v v' :
  m !! k = Some v -> owner v' = owner v -> amount v' = amount v ->
  slack x l (<[k := v']> m) = slack x l m.
Proof.
  intros Hk Ho Ha. unfold slack. rewrite tally_insert, Hk. unfold charge. simpl.
  rewrite Ho, Ha. lia.
Qed.

Lemma slack_remove x l m k v :
  covered l m -> m !! k = Some v ->
  slack x (unreserve (owner v) (amount v) l).1 (delete k m) = slack x l m.
Proof.
  intros Hcov Hk. pose proof (covered_le l m k v Hcov Hk). unfold slack.
  rewrite unreserve_exact by lia. rewrite tally_delete, Hk. unfold charge. simpl.
  repeat case_decide; congruence || lia.
Qed.

Lemma slack_transfer x l l' m k v v' :
  covered l m -> m !! k = Some v -> owner v' <> owner v -> amount v' = amount v ->
  reserve (owner v') (amount v) l = Some l' ->
  slack x (unreserve (owner v) (amount v) l').1 (<[k := v']> m) = slack x l m.
Proof.
  intros Hcov Hk Ho Ha Hres. pose proof (covered_le l m k v Hcov Hk) as [Hpos Hle].
  pose proof (fun y => reserve_reserved _ _ l l' y Hpos Hres) as Hl'. unfold slack.
  rewrite unreserve_exact; [| rewrite Hl'; case_decide; lia].
  rewrite Hl', tally_insert, Hk. unfold charge. simpl. rewrite Ha.
  repeat case_decide; congruence || lia.
Qed.
End DepositMap.

(** [m_inv] with the deposit wrappers. *)
Ltac p_step :=
  first
    [ m_step
    | match goal with
      | H : reserve_deposit _ _ _ = (Ok _, _) |- _ =>
          apply reserve_deposit_Ok in H; destruct H as (? & ? & ?); simplify_eq
      | H : unreserve_deposit _ _ _ = (Ok _, _) |- _ =>
          apply unreserve_deposit_Ok in H; simplify_eq
      end ].
Ltac p_inv := repeat p_step.
