(* ===== verification/ChatInbox.v ===== *)
(** [pallet-chat-inbox] (src/pallets/chat/inbox/src/lib.rs, types.rs): the
    registry of delivery inboxes. Each handler of the pallet is one definition;
    the theorems are the registry's invariant (counts, bounds, distinct tags,
    deposits covered by reserved balance), how revocation epochs evolve, and
    what registering an inbox again does to old tokens. *)

From S2P Require Import Prelude Frame ChatCommon.

Module Inbox.

Abbreviation InboxId := Bytes32 (only parsing).
Abbreviation ContactTag := Bytes32 (only parsing).

Record InboxRecord : Type := mkInboxRecord {
  controller : AccountId;
  epoch : Z;
  revoked_tags : list ContactTag;
  deposit : Z;
  created_at : Z;
}.

#[export] Instance eta_record : Settable InboxRecord := fun r =>
  mkInboxRecord (controller r) (epoch r) (revoked_tags r) (deposit r) (created_at r).

Inductive Event : Type :=
| InboxRegistered (inbox_id : InboxId) (controller : AccountId)
| InboxEpochBumped (inbox_id : InboxId) (new_epoch : Z)
| ContactTagRevoked (inbox_id : InboxId) (tag : ContactTag)
| ContactTagUnrevoked (inbox_id : InboxId) (tag : ContactTag)
| InboxControllerTransferred (inbox_id : InboxId) (old_controller new_controller : AccountId)
| InboxDeregistered (inbox_id : InboxId)
| InboxForceDeregistered (inbox_id : InboxId) (controller : AccountId).

Inductive Error : Type :=
| InboxAlreadyExists
| InboxNotFound
| NotController
| TooManyRevokedTags
| TagAlreadyRevoked
| TagNotRevoked
| TooManyInboxes.

Record Config `{FrameSystem} : Type := mkConfig {
  ForceOrigin : Origin -> bool;
  InboxDeposit : Z;
  MaxRevokedTags : Z;
  MaxInboxesPerController : Z;
}.

(** Storage of the pallet, the ledger of its currency and its event log. *)
Record State {L : Type} : Type := mkState {
  Inboxes : gmap InboxId InboxRecord;
  InboxCountByController : gmap AccountId Z;
  ledger : L;
  events : list Event;
}.
Arguments State L : clear implicits.

#[export] Instance eta_state {L} : Settable (State L) := fun s =>
  mkState L (Inboxes s) (InboxCountByController s) (ledger s) (events s).

#[export] Instance ledger_in {L} : LedgerIn (State L) L := {|
  ledger_of := ledger;
  with_ledger l s := s <| ledger := l |>;
|}.

Section Pallet.
Context `{FrameSystem} {L : Type} `{ReservableCurrency L} (cfg : Config).

Abbreviation Call_ := (M (State L) (DispatchError Error) unit).

Definition deposit_event (e : Event) : Call_ :=
  modify (fun s => s <| events ::= fun l => l ++ [e] |>).

Definition register_inbox (env : Env) (origin : Origin) (inbox_id : InboxId) : Call_ :=
  let! who := ok_or (ensure_signed origin) BadOrigin in
  let! inboxes := gets Inboxes in
  ensure (inboxes !! inbox_id = None) (Module InboxAlreadyExists) >>
  let! count := gets (fun s => get0 (InboxCountByController s) who) in
  ensure (count < MaxInboxesPerController cfg) (Module TooManyInboxes) >>
  reserve_deposit who (InboxDeposit cfg) >>
  let record := mkInboxRecord who 0 [] (InboxDeposit cfg) (block_number env) in
  modify (fun s => s <| Inboxes ::= <[inbox_id := record]> |>) >>
  modify (fun s => s <| InboxCountByController ::= <[who := sat_add u32_max count 1]> |>) >>
  deposit_event (InboxRegistered inbox_id who).

(** The record of an inbox the caller controls. *)
Definition controlled (who : AccountId) (inbox_id : InboxId)
    : M (State L) (DispatchError Error) InboxRecord :=
  let! inboxes := gets Inboxes in
  let! record := ok_or (inboxes !! inbox_id) (Module InboxNotFound) in
  ensure (controller record = who) (Module NotController) >>
  ret record.

Definition bump_epoch (origin : Origin) (inbox_id : InboxId) : Call_ :=
  let! who := ok_or (ensure_signed origin) BadOrigin in
  let! record := controlled who inbox_id in
  let new_epoch := Epoch.bump_u32_epoch (epoch record) in
  modify (fun s => s <| Inboxes ::=
    <[inbox_id := record <| epoch := new_epoch |> <| revoked_tags := [] |>]> |>) >>
  deposit_event (InboxEpochBumped inbox_id new_epoch).

Definition revoke_tag (origin : Origin) (inbox_id : InboxId) (tag : ContactTag) : Call_ :=
  let! who := ok_or (ensure_signed origin) BadOrigin in
  let! record := controlled who inbox_id in
  ensure (tag ∉ revoked_tags record) (Module TagAlreadyRevoked) >>
  ensure (Z.of_nat (length (revoked_tags record)) < MaxRevokedTags cfg)
    (Module TooManyRevokedTags) >>
  modify (fun s => s <| Inboxes ::=
    <[inbox_id := record <| revoked_tags ::= fun l => l ++ [tag] |>]> |>) >>
  deposit_event (ContactTagRevoked inbox_id tag).

(** Releases the deposit, the record and the controller's slot: the common
    end of [deregister_inbox], where the caller is the controller, and of
    [force_deregister_inbox]. *)
Definition remove_inbox (inbox_id : InboxId) (record : InboxRecord) : Call_ :=
  unreserve_deposit (controller record) (deposit record) >>
  modify (fun s => s <| Inboxes ::= delete inbox_id |>) >>
  modify (fun s => s <| InboxCountByController ::= fun m =>
    <[controller record := sat_sub (get0 m (controller record)) 1]> m |>).

Definition deregister_inbox (origin : Origin) (inbox_id : InboxId) : Call_ :=
  let! who := ok_or (ensure_signed origin) BadOrigin in
  let! record := controlled who inbox_id in
  remove_inbox inbox_id record >>
  deposit_event (InboxDeregistered inbox_id).

Definition unrevoke_tag (origin : Origin) (inbox_id : InboxId) (tag : ContactTag) : Call_ :=
  let! who := ok_or (ensure_signed origin) BadOrigin in
  let! record := controlled who inbox_id in
  let! found := ok_or (list_find (fun t => t = tag) (revoked_tags record))
    (Module TagNotRevoked) in
  modify (fun s => s <| Inboxes ::=
    <[inbox_id := record <| revoked_tags ::= delete (fst found) |>]> |>) >>
  deposit_event (ContactTagUnrevoked inbox_id tag).

Definition transfer_controller (origin : Origin) (inbox_id : InboxId)
    (new_controller : AccountId) : Call_ :=
  let! who := ok_or (ensure_signed origin) BadOrigin in
  let! record := controlled who inbox_id in
  if decide (new_controller = who) then ret tt else
  let! new_count := gets (fun s => get0 (InboxCountByController s) new_controller) in
  ensure (new_count < MaxInboxesPerController cfg) (Module TooManyInboxes) >>
  reserve_deposit new_controller (deposit record) >>
  unreserve_deposit who (deposit record) >>
  modify (fun s => s <| Inboxes ::= alter (set_field controller (fun _ => new_controller)) inbox_id |>) >>
  modify (fun s => s <| InboxCountByController ::= fun m => <[who := sat_sub (get0 m who) 1]> m |>) >>
  modify (fun s => s <| InboxCountByController ::=
    <[new_controller := sat_add u32_max new_count 1]> |>) >>
  deposit_event (InboxControllerTransferred inbox_id who new_controller).

Definition force_deregister_inbox (origin : Origin) (inbox_id : InboxId) : Call_ :=
  ensure (ForceOrigin cfg origin = true) BadOrigin >>
  let! inboxes := gets Inboxes in
  let! record := ok_or (inboxes !! inbox_id) (Module InboxNotFound) in
  remove_inbox inbox_id record >>
  deposit_event (InboxForceDeregistered inbox_id (controller record)).

Definition inbox_epoch (s : State L) (inbox_id : InboxId) : option Z :=
  epoch <$> Inboxes s !! inbox_id.

Definition is_tag_revoked (s : State L) (inbox_id : InboxId) (tag : ContactTag) : bool :=
  default false ((fun r => bool_decide (tag ∈ revoked_tags r)) <$> Inboxes s !! inbox_id).

Definition inbox_exists (s : State L) (inbox_id : InboxId) : bool :=
  bool_decide (is_Some (Inboxes s !! inbox_id)).

(** The dispatchables, and one transaction of the pallet. *)
Inductive Call : Type :=
| RegisterInbox (inbox_id : InboxId)
| BumpEpoch (inbox_id : InboxId)
| RevokeTag (inbox_id : InboxId) (tag : ContactTag)
| DeregisterInbox (inbox_id : InboxId)
| UnrevokeTag (inbox_id : InboxId) (tag : ContactTag)
| TransferController (inbox_id : InboxId) (new_controller : AccountId)
| ForceDeregisterInbox (inbox_id : InboxId).

Definition apply_call (env : Env) (origin : Origin) (c : Call) : Call_ :=
  match c with
  | RegisterInbox id => register_inbox env origin id
  | BumpEpoch id => bump_epoch origin id
  | RevokeTag id tag => revoke_tag origin id tag
  | DeregisterInbox id => deregister_inbox origin id
  | UnrevokeTag id tag => unrevoke_tag origin id tag
  | TransferController id new => transfer_controller origin id new
  | ForceDeregisterInbox id => force_deregister_inbox origin id
  end.

Definition dispatch (env : Env) (origin : Origin) (c : Call) : Call_ :=
  transactional (apply_call env origin c).

Inductive step (s s' : State L) : Prop :=
| step_call env origin c r (Hcall : dispatch env origin c s = (r, s')).

(** * The registry's changes

    What a call can do to the records, the counters and the ledger: nothing,
    or one of four changes. *)

Inductive change (s s' : State L) : Prop :=
| change_none
    (Hi : Inboxes s' = Inboxes s)
    (Hc : InboxCountByController s' = InboxCountByController s)
    (Hl : ledger s' = ledger s)
| change_insert id r
    (Hid : Inboxes s !! id = None)
    (Hok : epoch r = 0 /\ revoked_tags r = [] /\ deposit r = InboxDeposit cfg)
    (Hcap : get0 (InboxCountByController s) (controller r) < MaxInboxesPerController cfg)
    (Hres : reserve (controller r) (deposit r) (ledger s) = Some (ledger s'))
    (Hi : Inboxes s' = <[id := r]> (Inboxes s))
    (Hc : InboxCountByController s' =
      <[controller r := sat_add u32_max (get0 (InboxCountByController s) (controller r)) 1]>
        (InboxCountByController s))
| change_update id r r'
    (Hid : Inboxes s !! id = Some r)
    (Hkeep : controller r' = controller r /\ deposit r' = deposit r)
    (Htags : (revoked_tags r' = [] /\ epoch r' = Epoch.bump_u32_epoch (epoch r)) \/
      (epoch r' = epoch r /\
       ((exists tag, (tag ∉ revoked_tags r) /\ revoked_tags r' = revoked_tags r ++ [tag] /\
           Z.of_nat (length (revoked_tags r)) < MaxRevokedTags cfg) \/
        (exists pos tag, revoked_tags r !! pos = Some tag /\
           revoked_tags r' = delete pos (revoked_tags r)))))
    (Hi : Inboxes s' = <[id := r']> (Inboxes s))
    (Hc : InboxCountByController s' = InboxCountByController s)
    (Hl : ledger s' = ledger s)
| change_remove id r
    (Hid : Inboxes s !! id = Some r)
    (Hi : Inboxes s' = delete id (Inboxes s))
    (Hc : InboxCountByController s' =
      <[controller r := sat_sub (get0 (InboxCountByController s) (controller r)) 1]>
        (InboxCountByController s))
    (Hl : ledger s' = (unreserve (controller r) (deposit r) (ledger s)).1)
| change_transfer id r new l
    (Hid : Inboxes s !! id = Some r)
    (Hne : new <> controller r)
    (Hcap : get0 (InboxCountByController s) new < MaxInboxesPerController cfg)
    (Hres : reserve new (deposit r) (ledger s) = Some l)
    (Hi : Inboxes s' = <[id := r <| controller := new |>]> (Inboxes s))
    (Hc : InboxCountByController s' =
      <[new := sat_add u32_max (get0 (InboxCountByController s) new) 1]>
        (<[controller r := sat_sub (get0 (InboxCountByController s) (controller r)) 1]>
          (InboxCountByController s)))
    (Hl : ledger s' = (unreserve (controller r) (deposit r) l).1).

Lemma controlled_Ok who id s r s' :
  controlled who id s = (Ok r, s') ->
  s' = s /\ Inboxes s !! id = Some r /\ controller r = who.
Proof. unfold controlled. intros Hrun. by m_inv. Qed.

Ltac inbox_inv :=
  p_inv;
  try match goal with
  | Hc : controlled _ _ _ = _ |- _ => apply controlled_Ok in Hc as (-> & ? & ?)
  end; simplify_eq.

Ltac update_record :=
  eapply change_update; [eassumption | | | reflexivity ..]; simpl; eauto 10.

Lemma inbox_apply_call_change env origin c s s' :
  apply_call env origin c s = (Ok tt, s') -> change s s'.
Proof.
  destruct c; simpl; intros Hrun;
    unfold register_inbox, bump_epoch, revoke_tag, deregister_inbox, unrevoke_tag,
      transfer_controller, force_deregister_inbox, remove_inbox, deposit_event in Hrun;
    inbox_inv.

  - eapply (change_insert _ _ inbox_id (mkInboxRecord _ 0 [] _ _)); simpl; eauto.
  - update_record.
  - update_record.
  - eapply (change_remove _ _ inbox_id); simpl; eauto.
  - match goal with Hf : list_find _ _ = Some ?found |- _ => destruct found as [pos t] end.
    update_record. apply list_find_Some in H3 as (Hpos & -> & _). eauto 10.
  - by apply change_none.
  - eapply change_transfer; [eassumption | | | eassumption | | reflexivity ..]; try done.
    by apply alter_eq_insert.
  - eapply (change_remove _ _ inbox_id); simpl; eauto.
Qed.

(** * The registry's invariant *)

Definition deposits_of (who : AccountId) (s : State L) : Z :=
  tally controller deposit who (Inboxes s).

Record record_ok (r : InboxRecord) : Prop := {
  epoch_ok : 0 <= epoch r <= u32_max;
  tags_distinct : NoDup (revoked_tags r);
  tags_bounded : Z.of_nat (length (revoked_tags r)) <= MaxRevokedTags cfg;
  deposit_ok : 0 <= deposit r;
}.

Record inv (s : State L) : Prop := {
  inv_count : forall who,
    get0 (InboxCountByController s) who = tally controller (fun _ => 1) who (Inboxes s);
  inv_cap : forall who, get0 (InboxCountByController s) who <= MaxInboxesPerController cfg;
  inv_records : map_Forall (fun _ => record_ok) (Inboxes s);
  inv_deposits : covered controller deposit (ledger s) (Inboxes s);
}.

Record config_ok : Prop := {
  cfg_deposit : 0 <= InboxDeposit cfg;
  cfg_tags : 0 <= MaxRevokedTags cfg;
  cfg_inboxes : 0 <= MaxInboxesPerController cfg <= u32_max;
}.

Lemma inv_count_pos s id r :
  inv s -> Inboxes s !! id = Some r -> 1 <= get0 (InboxCountByController s) (controller r).
Proof.
  intros Hinv Hid. rewrite (inv_count s Hinv).
  by apply (tally_elem_le controller (fun _ => 1) _ (Inboxes s) id r).
Qed.

Lemma record_ok_update r r' :
  record_ok r -> controller r' = controller r /\ deposit r' = deposit r ->
  (revoked_tags r' = [] /\ epoch r' = Epoch.bump_u32_epoch (epoch r)) \/
  (epoch r' = epoch r /\
   ((exists tag, (tag ∉ revoked_tags r) /\ revoked_tags r' = revoked_tags r ++ [tag] /\
       Z.of_nat (length (revoked_tags r)) < MaxRevokedTags cfg) \/
    (exists pos tag, revoked_tags r !! pos = Some tag /\
       revoked_tags r' = delete pos (revoked_tags r)))) ->
  config_ok -> record_ok r'.
Proof.
  intros [He Hd Hb Hp] [_ Hdep] Htags Hcfg.
  pose proof (Epoch.bump_bounds (epoch r) He).
  destruct Htags as [[Ht Hep] | [Hep [(t & Ht & Happ & Hlen) | (pos & t & Hf & Hdel)]]];
    split; rewrite ?Hep, ?Hdep; try done; try lia.
  - rewrite Ht. constructor.
  - rewrite Ht. simpl. apply Hcfg.
  - rewrite Happ. apply NoDup_app. split; [done |]. split; [| apply NoDup_singleton].
    intros x Hx ->%list_elem_of_singleton. done.
  - rewrite Happ, length_app. simpl. lia.
  - rewrite Hdel. by eapply sublist_NoDup; [| apply sublist_delete].
  - rewrite Hdel. pose proof (sublist_length _ _ (sublist_delete (revoked_tags r) pos)). lia.
Qed.

Context `{!ReservableCurrencyLaws L}.

Lemma inbox_change_slack s s' who :
  config_ok -> inv s -> change s s' ->
  slack controller deposit who (ledger s') (Inboxes s') =
    slack controller deposit who (ledger s) (Inboxes s).
Proof.
  intros Hcfg Hinv Hch. pose proof (cfg_deposit Hcfg). pose proof (inv_deposits s Hinv).
  destruct Hch; rewrite Hi; rewrite ?Hl.
  - done.
  - destruct Hok as (_ & _ & Hd). apply slack_insert; [done | lia | done].
  - destruct Hkeep. by apply (slack_update _ _ _ _ _ id r).
  - by apply (slack_remove controller deposit _ _ _ id r).
  - by apply (slack_transfer controller deposit _ (ledger s) l _ id r).
Qed.

Lemma inbox_change_inv s s' : config_ok -> inv s -> change s s' -> inv s'.
Proof.
  intros Hcfg Hinv Hch.
  pose proof (fun who => inbox_change_slack s s' who Hcfg Hinv Hch) as Hslack.
  pose proof (cfg_inboxes Hcfg) as Hmax.
  assert (map_Forall (fun _ => record_ok) (Inboxes s') ->
    covered controller deposit (ledger s') (Inboxes s')) as Hdep.
  { intros Hrec. split; [by intros id r ?; eapply deposit_ok, Hrec |].
    intros who. rewrite Hslack. apply (inv_deposits s Hinv). }
  enough ((forall who, get0 (InboxCountByController s') who =
      tally controller (fun _ => 1) who (Inboxes s')) /\
    (forall who, get0 (InboxCountByController s') who <= MaxInboxesPerController cfg) /\
    map_Forall (fun _ => record_ok) (Inboxes s')) as (? & ? & ?) by (split; auto).
  clear Hslack Hdep. destruct Hch.
  - destruct Hinv. rewrite Hi, Hc. auto.
  - split_and!; [intros who | intros who |]; rewrite ?Hc, ?Hi, ?get0_insert.
    + rewrite tally_insert, Hid, <- !(inv_count s Hinv). unfold charge, sat_add; simpl.
      repeat case_decide; subst; lia.
    + pose proof (inv_cap s Hinv who). unfold sat_add. case_decide; subst; lia.
    + apply map_Forall_insert_2; [| apply Hinv]. destruct Hok as (He & Ht & Hd).
      destruct Hcfg. split; rewrite ?He, ?Ht, ?Hd; simpl; try done; try constructor; lia.
  - split_and!; [intros who | intros who |]; rewrite ?Hc, ?Hi; [| apply Hinv |].
    + rewrite tally_insert, Hid, <- (inv_count s Hinv). unfold charge. simpl.
      destruct Hkeep as [-> _]. lia.
    + apply map_Forall_insert_2; [| apply Hinv].
      apply (record_ok_update r r'); try done. by apply (inv_records s Hinv id).
  - pose proof (inv_count_pos s id r Hinv Hid).
    split_and!; [intros who | intros who |]; rewrite ?Hc, ?Hi, ?get0_insert.
    + rewrite tally_delete, Hid, <- !(inv_count s Hinv). unfold charge, sat_sub; simpl.
      repeat case_decide; subst; lia.
    + pose proof (inv_cap s Hinv who). unfold sat_sub. case_decide; subst; lia.
    + apply map_Forall_delete, Hinv.
  - pose proof (inv_count_pos s id r Hinv Hid).
    split_and!; [intros who | intros who |]; rewrite ?Hc, ?Hi, ?get0_insert.
    + rewrite tally_insert, Hid, <- !(inv_count s Hinv).
      unfold charge, sat_add, sat_sub; simpl. repeat case_decide; subst; lia || congruence.
    + pose proof (inv_cap s Hinv who). unfold sat_add, sat_sub.
      repeat case_decide; subst; lia.
    + apply map_Forall_insert_2; [| apply Hinv].
      destruct (inv_records s Hinv id r Hid). by split.
Qed.

Lemma step_change s s' : step s s' -> change s s'.
Proof.
  intros [env origin c r [([] & -> & Hrun) | (e & -> & ->)]%transactional_cases].
  - by eapply inbox_apply_call_change.
  - by apply change_none.
Qed.

(** Storage at genesis: no inbox, whatever the balances are. *)
Definition genesis (l : L) : State L := mkState L ∅ ∅ l [].

Lemma genesis_inv l : config_ok -> inv (genesis l).
Proof.
  intros Hcfg. split; intros; simpl.
  - by rewrite get0_empty, tally_empty.
  - rewrite get0_empty. apply Hcfg.
  - apply map_Forall_empty.
  - split; [apply map_Forall_empty |]. intros x. unfold slack. rewrite tally_empty.
    pose proof (reserved_nonneg x l). simpl. lia.
Qed.

Lemma inbox_reachable_inv l s : config_ok -> rtc step (genesis l) s -> inv s.
Proof.
  intros Hcfg Hrun. eapply (rtc_invariant step inv); [| by apply genesis_inv | done].
  intros s1 s2 Hs1 Hstep%step_change. by eapply inbox_change_inv.
Qed.

(** A delivery token is accepted while its epoch is the inbox's and its tag
    is not revoked: the two reads the pallet offers a relay. *)
Definition token_valid (s : State L) (id : InboxId) (e : Z) (tag : ContactTag) : Prop :=
  inbox_epoch s id = Some e /\ is_tag_revoked s id tag = false.

(** A step through which [id] stays registered. *)
Definition step_keeping (id : InboxId) (s s' : State L) : Prop :=
  step s s' /\ is_Some (Inboxes s !! id) /\ is_Some (Inboxes s' !! id).

Lemma change_epoch s s' id r r' :
  inv s -> change s s' -> Inboxes s !! id = Some r -> Inboxes s' !! id = Some r' ->
  epoch r <= epoch r'.
Proof.
  intros Hinv Hch Hr Hr'. pose proof (epoch_ok r (inv_records s Hinv id r Hr)) as He.
  pose proof (Epoch.bump_bounds _ He).
  destruct Hch; rewrite Hi in Hr'; map_cases; simplify_eq; try lia; simpl; try lia.
Qed.

Lemma epoch_monotone s s' id r r' :
  config_ok -> inv s -> rtc (step_keeping id) s s' ->
  Inboxes s !! id = Some r -> Inboxes s' !! id = Some r' -> epoch r <= epoch r'.
Proof.
  intros Hcfg Hinv Hrun. revert r. induction Hrun as [s | s s1 s' (Hstep & _ & [r1 Hr1]) Hrun IH].
  - intros r Hr Hr'. simplify_eq. lia.
  - intros r Hr Hr'. apply step_change in Hstep.
    pose proof (change_epoch s s1 id r r1 Hinv Hstep Hr Hr1).
    assert (inv s1) by (by eapply inbox_change_inv).
    specialize (IH ltac:(done) r1 Hr1 Hr'). lia.
Qed.

(** * Properties *)

(** after any sequence of calls, by anyone, the registry is consistent:
    each controller's counter is the number of records naming it and never
    exceeds the cap, every record's epoch and tag list are in bounds with no
    tag twice, and the deposits recorded for an account are covered by its
    reserved balance. *)
Theorem registry_invariant l s :
  config_ok -> rtc step (genesis l) s -> inv s.
Proof. apply inbox_reachable_inv. Qed.

(** A call changes what an account has reserved by exactly the change of
    the deposits recorded for it: nobody is charged for, or refunded, a
    deposit the registry does not record. *)
Theorem deposits_move_with_records l s s' who :
  config_ok -> rtc step (genesis l) s -> step s s' ->
  reserved_balance who (ledger s') - reserved_balance who (ledger s) =
    deposits_of who s' - deposits_of who s.
Proof.
  intros Hcfg Hrun Hstep%step_change.
  pose proof (inbox_change_slack s s' who Hcfg (inbox_reachable_inv l s Hcfg Hrun) Hstep).
  unfold slack, deposits_of in *. lia.
Qed.

(** a successful epoch bump below the largest u32 invalidates, for as
    long as the inbox stays registered and whatever is called on it, every
    token of the epochs up to the bumped one. *)
Theorem bump_invalidates_tokens l s s1 s2 env origin id e :
  config_ok -> rtc step (genesis l) s ->
  inbox_epoch s id = Some e -> e < u32_max ->
  dispatch env origin (BumpEpoch id) s = (Ok tt, s1) ->
  rtc (step_keeping id) s1 s2 ->
  forall e' tag, e' <= e -> ~ token_valid s2 id e' tag.
Proof.
  intros Hcfg Hrun He Hmax Hbump Hkeep e' tag Hle [He' _].
  assert (inv s1) as Hinv1.
  { eapply (inbox_change_inv s); [done | by eapply inbox_reachable_inv |].
    apply step_change. by eexists. }
  apply transactional_Ok in Hbump. simpl in Hbump. unfold bump_epoch, deposit_event in Hbump.
  inbox_inv. apply fmap_Some in He as (r & Hr & ->). simplify_eq.
  apply fmap_Some in He' as (r2 & Hr2 & ->).
  eapply (epoch_monotone _ s2 id) in Hr2; [| done | done | done | by simpl; apply lookup_insert_eq].
  simpl in Hr2. rewrite Epoch.bump_succ in Hr2 by done. lia.
Qed.

(** Un-revoking a tag that was just revoked always succeeds and gives the
    registry back exactly as it was, list order included; in between the tag
    is rejected. *)
Theorem unrevoke_undoes_revoke env env' origin id tag s s1 :
  dispatch env origin (RevokeTag id tag) s = (Ok tt, s1) ->
  is_tag_revoked s1 id tag = true /\
  exists s2, dispatch env' origin (UnrevokeTag id tag) s1 = (Ok tt, s2) /\
    Inboxes s2 = Inboxes s /\ is_tag_revoked s2 id tag = false.
Proof.
  intros Hrun%transactional_Ok. simpl in Hrun. unfold revoke_tag, deposit_event in Hrun.
  inbox_inv. rename x1 into r.
  match goal with |- context [is_tag_revoked ?s1 _ _] => set (s1' := s1) end.
  assert (Inboxes s1' !! id = Some (r <| revoked_tags ::= fun l => l ++ [tag] |>)) as Hr1
    by (simpl; apply lookup_insert_eq).
  unfold is_tag_revoked. rewrite Hr1. simpl.
  split; [apply bool_decide_eq_true; set_solver |].
  assert (list_find (fun t => t = tag) (revoked_tags r ++ [tag]) =
    Some (length (revoked_tags r), tag)) as Hfind by by apply list_find_last.
  unfold dispatch, transactional; simpl. unfold unrevoke_tag, controlled, deposit_event.
  m_run. eexists. split; [reflexivity |]. simpl.
  rewrite delete_middle, app_nil_r, insert_insert_eq, lookup_insert_eq. simpl.
  rewrite bool_decide_eq_false_2 by done. split; [| done].
  apply insert_id. by destruct r.
Qed.

(** Bumping its epoch, deregistering the inbox and letting anyone at all
    register the same identifier again makes the tokens of epoch 0 acceptable
    once more, revoked tags included: the epoch restarts and nothing remembers
    the identifier. *)
Theorem reregistration_revives_tokens env o o' id s s1 s2 s3 :
  dispatch env o (BumpEpoch id) s = (Ok tt, s1) ->
  dispatch env o (DeregisterInbox id) s1 = (Ok tt, s2) ->
  dispatch env o' (RegisterInbox id) s2 = (Ok tt, s3) ->
  forall tag, token_valid s3 id 0 tag.
Proof.
  intros _ _ Hreg%transactional_Ok tag. simpl in Hreg.
  unfold register_inbox, deposit_event in Hreg. inbox_inv.
  unfold token_valid, inbox_epoch, is_tag_revoked; simpl. by rewrite lookup_insert_eq.
Qed.
End Pallet.

(** * Concrete runs *)

Definition test_config : Config := mkConfig simple_system (fun o => ensure_root o) 10 2 2.
Definition test_env : Env := mkEnv 7 1000 1 [].
Definition test_ledger : SimpleLedger := {[ 1%N := (100%N, 0%N); 2%N := (50%N, 5%N) ]}.

(** The state after the given calls. *)
Fixpoint run_calls (s : State SimpleLedger) (cs : list (SimpleOrigin * Call)) : State SimpleLedger :=
  match cs with
  | [] => s
  | (o, c) :: cs' => run_calls (dispatch test_config test_env o c s).2 cs'
  end.

Lemma inbox_run_calls_reach s cs : rtc (step test_config) s (run_calls s cs).
Proof.
  revert s. induction cs as [| [o c] cs IH]; intros s; simpl; [constructor |].
  eapply rtc_l; [| apply IH]. exists test_env o c (dispatch test_config test_env o c s).1.
  by destruct (dispatch _ _ _ _ _).
Qed.

Lemma inbox_test_config_ok : config_ok test_config.
Proof. split; simpl; unfold u32_max; lia. Qed.

Definition test_state : State SimpleLedger :=
  run_calls (genesis test_ledger)
    [(SignedBy 1, RegisterInbox 77); (SignedBy 2, RegisterInbox 78);
     (SignedBy 1, RevokeTag 77 5); (SignedBy 1, TransferController 77 2)].

Lemma registry_invariant_witness :
  inv test_config test_state /\ deposits_of 2 test_state = 20 /\
  reserved_balance 2%N (ledger test_state) = 25.
Proof.
  split; [| by vm_compute].
  apply (registry_invariant test_config test_ledger); [apply inbox_test_config_ok | apply inbox_run_calls_reach].
Defined.

Lemma deposits_move_with_records_witness :
  let s' := run_calls test_state [(SignedBy 2, DeregisterInbox 77)] in
  reserved_balance 2%N (ledger s') - reserved_balance 2%N (ledger test_state) =
    deposits_of 2 s' - deposits_of 2 test_state /\
  reserved_balance 2%N (ledger s') = 15.
Proof.
  split; [| by vm_compute].
  apply (deposits_move_with_records test_config test_ledger);
    [apply inbox_test_config_ok | apply inbox_run_calls_reach |].
  by exists test_env (SignedBy 2) (DeregisterInbox 77) (Ok tt).
Defined.

Lemma bump_invalidates_tokens_witness :
  let s1 := run_calls test_state [(SignedBy 2, BumpEpoch 77)] in
  let s2 := run_calls s1 [(SignedBy 2, RevokeTag 77 9)] in
  token_valid test_state 77 0 9 /\ ~ token_valid s2 77 0 9 /\ token_valid s2 77 1 5.
Proof.
  split; [by vm_compute |]. split; [| by vm_compute].
  eapply (bump_invalidates_tokens test_config test_ledger test_state
    (run_calls test_state [(SignedBy 2, BumpEpoch 77)]) _ test_env (SignedBy 2) 77 0);
    [apply inbox_test_config_ok | apply inbox_run_calls_reach | by vm_compute | by vm_compute
    | by vm_compute | | lia].
  apply rtc_once. split; [by exists test_env (SignedBy 2) (RevokeTag 77 9) (Ok tt) |].
  split; eexists; by vm_compute.
Defined.

Lemma unrevoke_undoes_revoke_witness :
  exists s2, dispatch test_config test_env (SignedBy 2) (UnrevokeTag 77 6)
      (run_calls test_state [(SignedBy 2, RevokeTag 77 6)]) = (Ok tt, s2) /\
    Inboxes s2 = Inboxes test_state /\ is_tag_revoked s2 77 6 = false.
Proof.
  apply (unrevoke_undoes_revoke test_config test_env test_env (SignedBy 2) 77 6 test_state).
  by vm_compute.
Defined.

Lemma reregistration_revives_tokens_witness :
  let s1 := run_calls test_state [(SignedBy 2, BumpEpoch 77)] in
  let s3 := run_calls s1 [(SignedBy 2, DeregisterInbox 77); (SignedBy 1, RegisterInbox 77)] in
  token_valid test_state 77 0 9 /\ ~ token_valid s1 77 0 9 /\ token_valid s3 77 0 9.
Proof.
  split; [by vm_compute |]. split; [by intros [[=] _] |].
  eapply (reregistration_revives_tokens test_config test_env (SignedBy 2) (SignedBy 1) 77 test_state);
    by vm_compute.
Defined.

End Inbox.
