(* ===== verification/ChatSync.v ===== *)
(** [pallet-chat-sync] (src/pallets/chat/sync/src/lib.rs, types.rs): encrypted
    sync anchors. The storage key of an anchor is the digest of the key that
    signs for it; a publish replaces the record last-writer-wins, a clear leaves
    a tombstone. The theorems: what a payload binds, that only signed content is
    stored, that nothing is resurrected below the tombstone, that resending the
    current publish changes nothing, and that deposits follow the records. *)

From S2P Require Import Prelude Frame ChatCommon.

Module Sync.

(** [[u8; 32]], kept as bytes because payloads concatenate it. *)
Abbreviation AnchorId := bytes (only parsing).

Definition PUBLISH_CONTEXT : bytes := literal "nexus/chat-sync/publish/v1".
Definition CLEAR_CONTEXT : bytes := literal "nexus/chat-sync/clear/v1".
Definition MIN_CIPHERTEXT_LEN : Z := 16.
Definition ANCHOR_VERSION : Z := 1.

Record SyncAnchorRecord : Type := mkSyncAnchorRecord {
  version : Z;
  updated_at : Z;
  ciphertext : bytes;
  depositor : AccountId;
  deposit : Z;
  last_publish_block : Z;
}.

#[export] Instance eta_record : Settable SyncAnchorRecord := fun r =>
  mkSyncAnchorRecord (version r) (updated_at r) (ciphertext r) (depositor r) (deposit r)
    (last_publish_block r).

Inductive Event : Type :=
| AnchorPublished (anchor_id : AnchorId) (updated_at : Z)
| AnchorCleared (anchor_id : AnchorId)
| AnchorForceCleared (anchor_id : AnchorId).

Inductive Error : Type :=
| BadAnchorSignature
| AnchorNotFound
| StaleUpdatedAt
| UpdatedAtTooFarInFuture
| CiphertextTooShort
| PublishTooFrequent.

Record Config `{FrameSystem} : Type := mkConfig {
  MaxAnchorLen : Z;
  MinBlocksBetweenPublish : Z;
  AnchorDeposit : Z;
  MaxClockSkew : Z;
  ForceOrigin : Origin -> bool;
}.

Record State {L : Type} : Type := mkState {
  SyncAnchors : gmap AnchorId SyncAnchorRecord;
  ClearedAt : gmap AnchorId Z;
  ledger : L;
  events : list Event;
}.
Arguments State L : clear implicits.

#[export] Instance eta_state {L} : Settable (State L) := fun s =>
  mkState L (SyncAnchors s) (ClearedAt s) (ledger s) (events s).

#[export] Instance ledger_in {L} : LedgerIn (State L) L := {|
  ledger_of := ledger;
  with_ledger l s := s <| ledger := l |>;
|}.

Section Pallet.
Context `{FrameSystem} `{HostCrypto} {L : Type} `{ReservableCurrency L} (cfg : Config).

Abbreviation Call_ := (M (State L) (DispatchError Error) unit).

Definition deposit_event (e : Event) : Call_ :=
  modify (fun s => s <| events ::= fun l => l ++ [e] |>).

Definition publish_payload (env : Env) (anchor_id : AnchorId) (updated_at : Z)
    (ciphertext : bytes) : bytes :=
  PUBLISH_CONTEXT ++ genesis_hash env ++ anchor_id ++ le_bytes 8 updated_at ++
  blake2_256 ciphertext.

Definition clear_payload (env : Env) (anchor_id : AnchorId) (stored_updated_at : Z) : bytes :=
  CLEAR_CONTEXT ++ genesis_hash env ++ anchor_id ++ le_bytes 8 stored_updated_at.

Definition verify_anchor_sig (anchor_pk anchor_sig payload : bytes) : Call_ :=
  ensure (ed25519_verify anchor_sig payload anchor_pk = true) (Module BadAnchorSignature).

(** The parameter type [BoundedVec<u8, MaxAnchorLen>] refuses a longer
    ciphertext when the call is decoded. *)
Definition publish_sync_anchor (env : Env) (origin : Origin) (anchor_pk : bytes)
    (new_updated_at : Z) (new_ciphertext anchor_sig : bytes) : Call_ :=
  let! who := ok_or (ensure_signed origin) BadOrigin in
  let anchor_id := blake2_256 anchor_pk in
  ensure (Z.of_nat (length new_ciphertext) >= MIN_CIPHERTEXT_LEN) (Module CiphertextTooShort) >>
  let payload := publish_payload env anchor_id new_updated_at new_ciphertext in
  verify_anchor_sig anchor_pk anchor_sig payload >>
  ensure (new_updated_at <= sat_add u64_max (now_ms env) (MaxClockSkew cfg))
    (Module UpdatedAtTooFarInFuture) >>
  let current_block := block_number env in
  let! anchors := gets SyncAnchors in
  match anchors !! anchor_id with
  | Some record =>
      ensure (new_updated_at >= updated_at record) (Module StaleUpdatedAt) >>
      if decide (new_updated_at = updated_at record /\ new_ciphertext = ciphertext record) then
        deposit_event (AnchorPublished anchor_id new_updated_at)
      else
        ensure (RateLimit.min_blocks_elapsed (last_publish_block record) current_block
          (MinBlocksBetweenPublish cfg) = true) (Module PublishTooFrequent) >>
        let record := record <| version := ANCHOR_VERSION |> <| updated_at := new_updated_at |>
          <| ciphertext := new_ciphertext |> <| last_publish_block := current_block |> in
        modify (fun s => s <| SyncAnchors ::= <[anchor_id := record]> |>) >>
        deposit_event (AnchorPublished anchor_id new_updated_at)
  | None =>
      let! cleared := gets ClearedAt in
      match cleared !! anchor_id with
      | Some watermark => ensure (new_updated_at > watermark) (Module StaleUpdatedAt)
      | None => ret tt
      end >>
      let deposit := AnchorDeposit cfg in
      reserve_deposit who deposit >>
      modify (fun s => s <| SyncAnchors ::= <[anchor_id :=
        mkSyncAnchorRecord ANCHOR_VERSION new_updated_at new_ciphertext who deposit
          current_block]> |>) >>
      deposit_event (AnchorPublished anchor_id new_updated_at)
  end.

(** The common end of the two clears: refund, remove, leave the tombstone. *)
Definition remove_anchor (anchor_id : AnchorId) (record : SyncAnchorRecord) : Call_ :=
  unreserve_deposit (depositor record) (deposit record) >>
  modify (fun s => s <| SyncAnchors ::= delete anchor_id |>) >>
  modify (fun s => s <| ClearedAt ::= <[anchor_id := updated_at record]> |>).

Definition clear_sync_anchor (env : Env) (origin : Origin) (anchor_pk anchor_sig : bytes) : Call_ :=
  let! _ := ok_or (ensure_signed origin) BadOrigin in
  let anchor_id := blake2_256 anchor_pk in
  let! anchors := gets SyncAnchors in
  let! record := ok_or (anchors !! anchor_id) (Module AnchorNotFound) in
  let payload := clear_payload env anchor_id (updated_at record) in
  verify_anchor_sig anchor_pk anchor_sig payload >>
  remove_anchor anchor_id record >>
  deposit_event (AnchorCleared anchor_id).

Definition force_clear_sync_anchor (origin : Origin) (anchor_id : AnchorId) : Call_ :=
  ensure (ForceOrigin cfg origin = true) BadOrigin >>
  let! anchors := gets SyncAnchors in
  let! record := ok_or (anchors !! anchor_id) (Module AnchorNotFound) in
  remove_anchor anchor_id record >>
  deposit_event (AnchorForceCleared anchor_id).

Definition sync_anchor (s : State L) (anchor_id : AnchorId) : option (Z * bytes) :=
  (fun r => (updated_at r, ciphertext r)) <$> SyncAnchors s !! anchor_id.

Inductive Call : Type :=
| PublishSyncAnchor (anchor_pk : bytes) (updated_at : Z) (ciphertext anchor_sig : bytes)
| ClearSyncAnchor (anchor_pk anchor_sig : bytes)
| ForceClearSyncAnchor (anchor_id : AnchorId).

(** What decoding the arguments guarantees: a u64 timestamp and a ciphertext
    within its bound. *)
Definition well_typed (c : Call) : Prop :=
  match c with
  | PublishSyncAnchor _ u ct _ => 0 <= u <= u64_max /\ Z.of_nat (length ct) <= MaxAnchorLen cfg
  | _ => True
  end.

Definition apply_call (env : Env) (origin : Origin) (c : Call) : Call_ :=
  match c with
  | PublishSyncAnchor pk u ct sig => publish_sync_anchor env origin pk u ct sig
  | ClearSyncAnchor pk sig => clear_sync_anchor env origin pk sig
  | ForceClearSyncAnchor id => force_clear_sync_anchor origin id
  end.

Definition dispatch (env : Env) (origin : Origin) (c : Call) : Call_ :=
  transactional (apply_call env origin c).

(** One call of a chain whose genesis hash is [g]. *)
Inductive step (g : bytes) (s s' : State L) : Prop :=
| step_call env origin c r (Hgenesis : genesis_hash env = g) (Hty : well_typed c)
    (Hcall : dispatch env origin c s = (r, s')).

(** * The store's changes *)

(** A call leaves the anchors as they are, or changes one of them in one of
    three ways. *)
Inductive change (env : Env) (s s' : State L) : Prop :=
| change_none
    (Ha : SyncAnchors s' = SyncAnchors s)
    (Hw : ClearedAt s' = ClearedAt s)
    (Hl : ledger s' = ledger s)
| change_insert pk sig r
    (Hid : SyncAnchors s !! blake2_256 pk = None)
    (Hsig : ed25519_verify sig
      (publish_payload env (blake2_256 pk) (updated_at r) (ciphertext r)) pk = true)
    (Hlen : MIN_CIPHERTEXT_LEN <= Z.of_nat (length (ciphertext r)))
    (Hwater : forall w, ClearedAt s !! blake2_256 pk = Some w -> w < updated_at r)
    (Hdep : deposit r = AnchorDeposit cfg)
    (Hres : reserve (depositor r) (deposit r) (ledger s) = Some (ledger s'))
    (Ha : SyncAnchors s' = <[blake2_256 pk := r]> (SyncAnchors s))
    (Hw : ClearedAt s' = ClearedAt s)
| change_update pk sig r r'
    (Hid : SyncAnchors s !! blake2_256 pk = Some r)
    (Hsig : ed25519_verify sig
      (publish_payload env (blake2_256 pk) (updated_at r') (ciphertext r')) pk = true)
    (Hlen : MIN_CIPHERTEXT_LEN <= Z.of_nat (length (ciphertext r')))
    (Hlww : updated_at r <= updated_at r')
    (Hspace : RateLimit.min_blocks_elapsed (last_publish_block r) (block_number env)
      (MinBlocksBetweenPublish cfg) = true)
    (Hblock : last_publish_block r' = block_number env)
    (Hkeep : depositor r' = depositor r /\ deposit r' = deposit r)
    (Ha : SyncAnchors s' = <[blake2_256 pk := r']> (SyncAnchors s))
    (Hw : ClearedAt s' = ClearedAt s)
    (Hl : ledger s' = ledger s)
| change_remove id r
    (Hid : SyncAnchors s !! id = Some r)
    (Ha : SyncAnchors s' = delete id (SyncAnchors s))
    (Hw : ClearedAt s' = <[id := updated_at r]> (ClearedAt s))
    (Hl : ledger s' = (unreserve (depositor r) (deposit r) (ledger s)).1).

Lemma publish_change env origin pk u ct sig s s' :
  publish_sync_anchor env origin pk u ct sig s = (Ok tt, s') -> change env s s'.
Proof.
  unfold publish_sync_anchor, verify_anchor_sig, deposit_event. intros Hrun. p_inv.
  - by apply change_none.
  - eapply (change_update _ _ _ pk sig); [eassumption | ..];
      [| | | | | | reflexivity ..]; try done; simpl; lia.
  - eapply (change_insert _ _ _ pk sig (mkSyncAnchorRecord _ _ _ _ _ _));
      [done | ..]; [| | | | | reflexivity ..]; simpl; try done; try lia.
    intros w Hw. simplify_eq. lia.
  - eapply (change_insert _ _ _ pk sig (mkSyncAnchorRecord _ _ _ _ _ _));
      [done | ..]; [| | | | | reflexivity ..]; simpl; try done; try lia.
    intros w Hw. simplify_eq.
Qed.

Lemma sync_apply_call_change env origin c s s' :
  apply_call env origin c s = (Ok tt, s') -> change env s s'.
Proof.
  destruct c; simpl; intros Hrun; [by eapply publish_change | ..];
    unfold clear_sync_anchor, force_clear_sync_anchor, verify_anchor_sig, remove_anchor,
      deposit_event in Hrun; p_inv;
    by eapply change_remove.
Qed.

Lemma dispatch_change env origin c r s s' :
  dispatch env origin c s = (r, s') -> change env s s'.
Proof.
  intros [([] & -> & Hrun) | (e & -> & ->)]%transactional_cases.
  - by eapply sync_apply_call_change.
  - by apply change_none.
Qed.

(** * The invariant *)

Record config_ok : Prop := { cfg_deposit : 0 <= AnchorDeposit cfg }.

(** Somebody holding the anchor's key signed exactly this content, on the chain
    with genesis hash [g]. *)
Definition signed_content (g : bytes) (id : AnchorId) (u : Z) (ct : bytes) : Prop :=
  exists env pk sig, genesis_hash env = g /\ id = blake2_256 pk /\
    ed25519_verify sig (publish_payload env id u ct) pk = true.

Definition record_ok (g : bytes) (id : AnchorId) (r : SyncAnchorRecord) : Prop :=
  0 <= deposit r /\ MIN_CIPHERTEXT_LEN <= Z.of_nat (length (ciphertext r)) /\
  signed_content g id (updated_at r) (ciphertext r).

Record inv (g : bytes) (s : State L) : Prop := {
  inv_records : map_Forall (record_ok g) (SyncAnchors s);
  inv_water : forall id r w,
    SyncAnchors s !! id = Some r -> ClearedAt s !! id = Some w -> w < updated_at r;
  inv_covered : covered depositor deposit (ledger s) (SyncAnchors s);
}.

(** Storage at genesis: no anchor, no tombstone. *)
Definition genesis_state (l : L) : State L := mkState L ∅ ∅ l [].

(** What a publish of anchor [id] has to reach: the stored timestamp, or the
    tombstone of an anchor that was cleared. *)
Definition floor (s : State L) (id : AnchorId) : option Z :=
  match SyncAnchors s !! id with
  | Some r => Some (updated_at r)
  | None => ClearedAt s !! id
  end.

Definition deposits_of (who : AccountId) (s : State L) : Z :=
  tally depositor deposit who (SyncAnchors s).

Context `{!ReservableCurrencyLaws L} (Hcfg : config_ok).

Lemma sync_change_slack g env s s' who :
  inv g s -> change env s s' ->
  slack depositor deposit who (ledger s') (SyncAnchors s') =
    slack depositor deposit who (ledger s) (SyncAnchors s).
Proof.
  intros Hinv Hch. pose proof (cfg_deposit Hcfg). pose proof (inv_covered g s Hinv).
  destruct Hch; rewrite Ha; rewrite ?Hl.
  - done.
  - apply slack_insert; [done | lia | done].
  - destruct Hkeep. by apply (slack_update _ _ _ _ _ (blake2_256 pk) r).
  - by apply (slack_remove depositor deposit _ _ _ id r).
Qed.

Lemma sync_change_inv g env s s' :
  genesis_hash env = g -> inv g s -> change env s s' -> inv g s'.
Proof.
  intros Hg Hinv Hch. pose proof (cfg_deposit Hcfg).
  pose proof (fun who => sync_change_slack g env s s' who Hinv Hch) as Hslack.
  assert (map_Forall (record_ok g) (SyncAnchors s') ->
    covered depositor deposit (ledger s') (SyncAnchors s')) as Hcov.
  { intros Hrec. split; [by intros id r (? & _)%Hrec |].
    intros who. rewrite Hslack. apply (inv_covered g s Hinv). }
  enough (map_Forall (record_ok g) (SyncAnchors s') /\
    (forall id r w, SyncAnchors s' !! id = Some r -> ClearedAt s' !! id = Some w ->
      w < updated_at r)) as [? ?] by (split; auto).
  clear Hcov Hslack. destruct Hinv as [Hrec Hwat _]. destruct Hch; rewrite Ha, Hw.
  - done.
  - split; [| intros id r0 w ? ?; map_cases; eauto].
    apply map_Forall_insert_2; [| done]. split_and!; [lia | done | by exists env, pk, sig].
  - split.
    + apply map_Forall_insert_2; [| done]. destruct (Hrec _ _ Hid) as (? & _), Hkeep as [_ Hd].
      split_and!; [by rewrite Hd | done | by exists env, pk, sig].
    + intros id r0 w Hr Hcl. map_cases; [| by eauto]. specialize (Hwat _ _ _ Hid Hcl). lia.
  - split; [by apply map_Forall_delete | intros id' r0 w ? ?; map_cases; eauto].
Qed.

Lemma sync_reachable_inv g l s : rtc (step g) (genesis_state l) s -> inv g s.
Proof.
  intros Hrun. eapply (rtc_invariant (step g) (inv g)); [| | done].
  - intros s1 s2 Hs1 [env o c r Hg _ Hcall%dispatch_change]. by eapply sync_change_inv.
  - split; simpl; [apply map_Forall_empty | by intros id r w; rewrite lookup_empty |].
    split; [apply map_Forall_empty |]. intros x. unfold slack. rewrite tally_empty.
    pose proof (reserved_nonneg x l). simpl. lia.
Qed.

Lemma change_floor g env s s' id v :
  inv g s -> change env s s' -> floor s id = Some v ->
  exists v', floor s' id = Some v' /\ v <= v'.
Proof.
  intros Hinv Hch. unfold floor. destruct Hch; rewrite Ha, Hw.
  - eauto with lia.
  - intros Hv. map_cases; [| eauto with lia].
    rewrite Hid in Hv. eexists. split; [done |]. specialize (Hwater _ Hv). lia.
  - intros Hv. map_cases; [| eauto with lia]. rewrite Hid in Hv. simplify_eq. eauto.
  - intros Hv. map_cases; [| eauto with lia]. rewrite Hid in Hv. simplify_eq. eauto with lia.
Qed.

Lemma run_floor g l s s' id v :
  rtc (step g) (genesis_state l) s -> rtc (step g) s s' -> floor s id = Some v ->
  exists v', floor s' id = Some v' /\ v <= v'.
Proof.
  intros Hs%sync_reachable_inv Hrun. revert v.
  induction Hrun as [s | s s1 s' [env o c r Hg _ Hcall%dispatch_change] Hrun IH]; intros v Hv.
  - eauto with lia.
  - destruct (change_floor g env s s1 id v Hs Hcall Hv) as (v1 & Hv1 & ?).
    destruct (IH ltac:(by eapply sync_change_inv) v1 Hv1) as (v2 & Hv2 & ?). eauto with lia.
Qed.

(** A tombstone is never lost nor lowered. *)
Lemma change_water g env s s' id w :
  inv g s -> change env s s' -> ClearedAt s !! id = Some w ->
  exists w', ClearedAt s' !! id = Some w' /\ w <= w'.
Proof.
  intros Hinv Hch Hcl. destruct Hch; rewrite Hw; try (eauto with lia).
  map_cases; [| eauto with lia]. pose proof (inv_water g s Hinv id r w Hid Hcl). eauto with lia.
Qed.

(** * Properties *)

(** C34: once anchor [id] has been cleared at timestamp [w], by its owner or by
    governance, no sequence of calls ever stores it again with a timestamp up to
    [w]: a publish captured from the chain's history cannot resurrect it. And
    whatever happens in between, a stored anchor is never replaced by an older
    one. *)
Theorem no_resurrection g l s s' id :
  rtc (step g) (genesis_state l) s -> rtc (step g) s s' ->
  (forall w r', ClearedAt s !! id = Some w -> SyncAnchors s' !! id = Some r' ->
    w < updated_at r') /\
  (forall r r', SyncAnchors s !! id = Some r -> SyncAnchors s' !! id = Some r' ->
    updated_at r <= updated_at r').
Proof.
  intros Hs Hrun. split.
  - intros w r' Hw Hr'. apply sync_reachable_inv in Hs.
    assert (exists w', ClearedAt s' !! id = Some w' /\ w <= w' /\ inv g s') as (w' & Hw' & ? & Hinv).
    { clear Hr'. revert w Hw.
      induction Hrun as [s | s s1 s' [env o c r Hg _ Hcall%dispatch_change] Hrun IH];
        intros w Hw; [eauto with lia |].
      destruct (change_water g env s s1 id w Hs Hcall Hw) as (w1 & Hw1 & ?).
      destruct (IH ltac:(by eapply sync_change_inv) w1 Hw1) as (w2 & ? & ? & ?). eauto with lia. }
    pose proof (inv_water g s' Hinv id r' w' Hr' Hw'). lia.
  - intros r r' Hr Hr'.
    destruct (run_floor g l s s' id (updated_at r) Hs Hrun) as (v & Hv & ?);
      [unfold floor; by rewrite Hr |].
    unfold floor in Hv. rewrite Hr' in Hv. by simplify_eq.
Qed.

(** every anchor the chain ever stores carries a signature by a key whose
    digest is its identifier, over exactly the stored timestamp and content, for
    this chain: the account that pays for the call cannot write anything else. *)
Theorem stored_content_is_signed g l s id r :
  rtc (step g) (genesis_state l) s -> SyncAnchors s !! id = Some r ->
  signed_content g id (updated_at r) (ciphertext r).
Proof. intros Hs%sync_reachable_inv Hr. apply (inv_records g s Hs id r Hr). Qed.

(** The byte string signed for a publish determines the chain, the anchor,
    the timestamp and the content's digest, and is never one signed for a clear:
    a signature cannot be moved to another chain, anchor, state or operation. *)
Theorem publish_payload_binding `{!HostCryptoLaws} env env' id id' u u' ct ct' :
  length (genesis_hash env) = 32%nat -> length (genesis_hash env') = 32%nat ->
  length id = 32%nat -> length id' = 32%nat -> 0 <= u <= u64_max -> 0 <= u' <= u64_max ->
  (publish_payload env id u ct = publish_payload env' id' u' ct' ->
   genesis_hash env = genesis_hash env' /\ id = id' /\ u = u' /\
   blake2_256 ct = blake2_256 ct') /\
  publish_payload env id u ct <> clear_payload env' id' u'.
Proof.
  intros Hg Hg' Hi Hi' Hu Hu'. split.
  - unfold publish_payload. intros Heq%(inj _).
    apply app_inj_1 in Heq as [-> Heq]; [| congruence].
    apply app_inj_1 in Heq as [-> Heq]; [| congruence].
    apply app_inj_1 in Heq as [Hle ->]; [| by rewrite !le_bytes_length].
    apply le_bytes_inj in Hle as ->; [done | ..]; unfold u64_max in *; simpl; lia.
  - intros Heq%(f_equal (fun l => nth 16 l 0)). vm_compute in Heq. discriminate.
Qed.

(** Whoever sends it, the publish an anchor currently stores changes
    nothing when it is sent again: not the record, so not the block its rate
    limit counts from, not the deposit. A change of the record, on the other
    hand, comes at least the configured interval after the previous one. *)
Theorem resend_changes_nothing env origin pk sig s s' res r :
  SyncAnchors s !! blake2_256 pk = Some r ->
  (dispatch env origin (PublishSyncAnchor pk (updated_at r) (ciphertext r) sig) s = (res, s') ->
   SyncAnchors s' = SyncAnchors s /\ ClearedAt s' = ClearedAt s /\ ledger s' = ledger s) /\
  (forall c r', dispatch env origin c s = (res, s') ->
   SyncAnchors s' !! blake2_256 pk = Some r' -> r' <> r ->
   sat_sub (block_number env) (last_publish_block r) >= MinBlocksBetweenPublish cfg /\
   last_publish_block r' = block_number env).
Proof.
  intros Hr. split.
  - intros [([] & -> & Hrun) | (e & -> & ->)]%transactional_cases; [| done].
    simpl in Hrun. unfold publish_sync_anchor, verify_anchor_sig, deposit_event in Hrun.
    p_inv; [done | exfalso; auto].
  - intros c r' Hcall%dispatch_change Hr' Hne.
    destruct Hcall; rewrite Ha in Hr'; map_cases; try congruence.
    apply bool_decide_eq_true in Hspace. assert (r0 = r) as -> by congruence. done.
Qed.

(** A call changes what an account has reserved by exactly the change of
    the anchor deposits recorded for it, which are always covered. *)
Theorem anchor_deposits_exact g l s s' who :
  rtc (step g) (genesis_state l) s -> step g s s' ->
  reserved_balance who (ledger s') - reserved_balance who (ledger s) =
    deposits_of who s' - deposits_of who s /\
  0 <= deposits_of who s <= reserved_balance who (ledger s).
Proof.
  intros Hs%sync_reachable_inv [env o c r Hg _ Hcall%dispatch_change].
  pose proof (sync_change_slack g env s s' who Hs Hcall).
  destruct (inv_covered g s Hs) as [Hpos Hcov]. specialize (Hcov who).
  assert (0 <= deposits_of who s).
  { apply msum_nonneg. intros id r0 Hr0. unfold charge. case_decide; [by eapply Hpos | lia]. }
  unfold slack, deposits_of in *. lia.
Qed.
End Pallet.

(** * Concrete runs *)

Definition test_config : Config := mkConfig simple_system 64 5 10 1000 (fun o => ensure_root o).
Definition test_genesis : bytes := le_bytes 32 12345.
Definition test_env (block : Z) : Env := mkEnv block 1000000 1000 test_genesis.
Definition test_ledger : SimpleLedger := {[ 1%N := (100%N, 0%N); 2%N := (50%N, 0%N) ]}.
Definition test_pk : bytes := le_bytes 32 77.
Definition test_id : bytes := blake2_256 test_pk.
Definition sealed (n : Z) : bytes := le_bytes 16 n.

Definition sign (msg : bytes) : bytes := le_bytes 64 (toy_digest (test_pk ++ msg)).

Definition publish (u : Z) (ct : bytes) : Call :=
  PublishSyncAnchor test_pk u ct (sign (publish_payload (test_env 0) test_id u ct)).

Definition clear_at (u : Z) : Call :=
  ClearSyncAnchor test_pk (sign (clear_payload (test_env 0) test_id u)).

Fixpoint run_calls (s : State SimpleLedger) (cs : list (Z * AccountId * Call))
    : State SimpleLedger :=
  match cs with
  | [] => s
  | (block, who, c) :: cs' =>
      run_calls (dispatch test_config (test_env block) (SignedBy who) c s).2 cs'
  end.

Lemma sync_run_calls_reach s cs :
  Forall (fun x => well_typed test_config x.2) cs ->
  rtc (step test_config test_genesis) s (run_calls s cs).
Proof.
  intros Hty. revert s. induction Hty as [| [[b w] c] cs Hc Hty IH]; intros s; simpl; [constructor |].
  eapply rtc_l; [| apply IH].
  exists (test_env b) (SignedBy w) c (dispatch test_config (test_env b) (SignedBy w) c s).1;
    [done | done |]. by destruct (dispatch _ _ _ _ _).
Qed.

Lemma sync_test_config_ok : config_ok test_config.
Proof. split; simpl; lia. Qed.

Definition history : list (Z * AccountId * Call) :=
  [(10, 1%N, publish 500 (sealed 1)); (20, 2%N, publish 600 (sealed 2))].
Definition live : State SimpleLedger := run_calls (genesis_state test_ledger) history.
Definition cleared : State SimpleLedger := run_calls live [(30, 2%N, clear_at 600)].

(** Replaying the old publish, then a newer one. *)
Definition after : list (Z * AccountId * Call) :=
  [(40, 2%N, publish 600 (sealed 2)); (50, 2%N, publish 700 (sealed 3))].

Lemma calls_well_typed :
  Forall (fun x => well_typed test_config x.2) history /\
  Forall (fun x => well_typed test_config x.2) [(30, 2%N, clear_at 600)] /\
  Forall (fun x => well_typed test_config x.2) after.
Proof. split_and!; repeat constructor; by vm_compute. Qed.

Lemma live_reach : rtc (step test_config test_genesis) (genesis_state test_ledger) live.
Proof. apply sync_run_calls_reach, calls_well_typed. Qed.

Lemma cleared_reach : rtc (step test_config test_genesis) (genesis_state test_ledger) cleared.
Proof.
  etrans; [apply live_reach | apply sync_run_calls_reach, calls_well_typed].
Qed.

Lemma no_resurrection_witness :
  ClearedAt cleared !! test_id = Some 600 /\
  sync_anchor (run_calls cleared (take 1 after)) test_id = None /\
  exists r, SyncAnchors (run_calls cleared after) !! test_id = Some r /\ 600 < updated_at r.
Proof.
  split; [by vm_compute |]. split; [by vm_compute |].
  eexists. split; [by vm_compute |].
  eapply (proj1 (no_resurrection test_config sync_test_config_ok test_genesis test_ledger cleared
    (run_calls cleared after) test_id cleared_reach
    (sync_run_calls_reach _ _ (proj2 (proj2 calls_well_typed))))); by vm_compute.
Defined.

Lemma stored_content_is_signed_witness :
  signed_content test_genesis test_id 600 (sealed 2).
Proof.
  eapply (stored_content_is_signed test_config sync_test_config_ok test_genesis test_ledger live test_id
    (mkSyncAnchorRecord 1 600 (sealed 2) 1 10 20) live_reach). by vm_compute.
Defined.

Lemma publish_payload_binding_witness :
  publish_payload (test_env 0) test_id 500 (sealed 1) <> clear_payload (test_env 0) test_id 500.
Proof.
  eapply (publish_payload_binding (test_env 0) (test_env 0) test_id test_id 500 500 (sealed 1)
    (sealed 1)); by vm_compute.
Defined.

Definition resent : State SimpleLedger := run_calls live [(21, 2%N, publish 600 (sealed 2))].
Definition stored : SyncAnchorRecord := mkSyncAnchorRecord 1 600 (sealed 2) 1 10 20.

Lemma resend_changes_nothing_witness :
  SyncAnchors live !! test_id = Some stored /\ SyncAnchors resent = SyncAnchors live.
Proof.
  assert (SyncAnchors live !! test_id = Some stored) as Hstored by by vm_compute.
  split; [exact Hstored |].
  refine (proj1 (proj1 (resend_changes_nothing test_config (test_env 21) (SignedBy 2) test_pk
    (sign (publish_payload (test_env 0) test_id 600 (sealed 2))) live resent (Ok tt) stored
    Hstored) _)).
  by vm_compute.
Defined.

Lemma anchor_deposits_exact_witness :
  reserved_balance 1%N (ledger cleared) - reserved_balance 1%N (ledger live) = -10 /\
  reserved_balance 1%N (ledger cleared) - reserved_balance 1%N (ledger live) =
    deposits_of 1 cleared - deposits_of 1 live.
Proof.
  split; [by vm_compute |].
  eapply (anchor_deposits_exact test_config sync_test_config_ok test_genesis test_ledger live cleared 1
    live_reach).
  exists (test_env 30) (SignedBy 2) (clear_at 600) (Ok tt); by vm_compute.
Defined.

End Sync.
