(* ===== verification/ChatIdentity.v ===== *)
(** [pallet-msg-identity] (src/pallets/chat/msg-identity/src/lib.rs, types.rs):
    the registry of device keys for one-to-one conversations. Each handler is one
    definition; the theorems are the registry's invariant over all runs, how
    deposits move, and what registering a device again does to its epochs. *)

From S2P Require Import Prelude Frame ChatCommon.

Module Identity.

Abbreviation DeviceId := Bytes16 (only parsing).
Abbreviation X25519Pub := bytes (only parsing).
Abbreviation Endorsement := bytes (only parsing).
Abbreviation MerkleRoot := Bytes32 (only parsing).

Definition STACK_DR : Z := 1.
Definition STACK_MLS_WIRE : Z := 2.

Record DeviceIdentity : Type := mkDevice {
  ik : X25519Pub;
  ik_endorsement : Endorsement;
  prekey_epoch : Z;
  deposit : Z;
  registered_at : Z;
}.

#[export] Instance eta_device : Settable DeviceIdentity := fun d =>
  mkDevice (ik d) (ik_endorsement d) (prekey_epoch d) (deposit d) (registered_at d).

Record SignedPreKey : Type := mkPreKey {
  spk : X25519Pub;
  spk_endorsement : Endorsement;
  valid_until : Z;
  updated_at : Z;
}.

Record OpkRoot : Type := mkOpk {
  root : MerkleRoot;
  count : Z;
  epoch : Z;
}.

Record StackCaps : Type := mkCaps {
  flags : Z;
  version : Z;
}.

Inductive Event : Type :=
| DeviceRegistered (account : AccountId) (device_id : DeviceId)
| SignedPreKeySet (account : AccountId) (device_id : DeviceId)
| OpkRootSet (account : AccountId) (device_id : DeviceId) (epoch count : Z)
| PrekeyEpochBumped (account : AccountId) (device_id : DeviceId) (new_epoch : Z)
| DeviceUnregistered (account : AccountId) (device_id : DeviceId)
| DeviceForceUnregistered (account : AccountId) (device_id : DeviceId)
| StackCapsSet (account : AccountId) (flags version : Z).

Inductive Error : Type :=
| DeviceAlreadyExists | DeviceNotFound | DeviceIdMismatch | TooManyDevices | EmptyOpkSet.

Record Config `{FrameSystem} : Type := mkConfig {
  ForceOrigin : Origin -> bool;
  DeviceDeposit : Z;
  MaxDevicesPerAccount : Z;
}.

(** The double maps are keyed by (account, device). *)
Record State {L : Type} : Type := mkState {
  DeviceIdentities : gmap (AccountId * DeviceId) DeviceIdentity;
  DeviceSignedPreKeys : gmap (AccountId * DeviceId) SignedPreKey;
  DeviceOpkRoots : gmap (AccountId * DeviceId) OpkRoot;
  DeviceCountByAccount : gmap AccountId Z;
  ChatStackCaps : gmap AccountId StackCaps;
  ledger : L;
  events : list Event;
}.
Arguments State L : clear implicits.

#[export] Instance eta_state {L} : Settable (State L) := fun s =>
  mkState L (DeviceIdentities s) (DeviceSignedPreKeys s) (DeviceOpkRoots s)
    (DeviceCountByAccount s) (ChatStackCaps s) (ledger s) (events s).

#[export] Instance identity_ledger_in {L} : LedgerIn (State L) L := {|
  ledger_of := ledger;
  with_ledger l s := s <| ledger := l |>;
|}.

Section Pallet.
Context `{FrameSystem} `{HostCrypto} {L : Type} `{ReservableCurrency L} (cfg : Config).

Abbreviation Call_ := (M (State L) (DispatchError Error) unit).

Definition deposit_event (e : Event) : Call_ :=
  modify (fun s => s <| events ::= fun l => l ++ [e] |>).

Definition register_device (env : Env) (origin : Origin) (device_id : DeviceId) (ik_ : X25519Pub)
    (ik_endorsement_ : Endorsement) : Call_ :=
  let! who := ok_or (ensure_signed origin) BadOrigin in
  let! devices := gets DeviceIdentities in
  ensure (devices !! (who, device_id) = None) (Module DeviceAlreadyExists) >>
  ensure (device_id = blake2_128 ik_) (Module DeviceIdMismatch) >>
  let! count_ := gets (fun s => get0 (DeviceCountByAccount s) who) in
  ensure (count_ < MaxDevicesPerAccount cfg) (Module TooManyDevices) >>
  reserve_deposit who (DeviceDeposit cfg) >>
  let device := mkDevice ik_ ik_endorsement_ 0 (DeviceDeposit cfg) (block_number env) in
  modify (fun s => s <| DeviceIdentities ::= <[(who, device_id) := device]> |>) >>
  modify (fun s => s <| DeviceCountByAccount ::= <[who := sat_add u32_max count_ 1]> |>) >>
  deposit_event (DeviceRegistered who device_id).

(** The check that the caller has registered the device. *)
Definition ensure_registered (who : AccountId) (device_id : DeviceId) : Call_ :=
  let! devices := gets DeviceIdentities in
  ensure (is_Some (devices !! (who, device_id))) (Module DeviceNotFound).

Definition set_signed_prekey (env : Env) (origin : Origin) (device_id : DeviceId) (spk_ : X25519Pub)
    (spk_endorsement_ : Endorsement) (valid_until_ : Z) : Call_ :=
  let! who := ok_or (ensure_signed origin) BadOrigin in
  ensure_registered who device_id >>
  modify (fun s => s <| DeviceSignedPreKeys ::= <[(who, device_id) :=
    mkPreKey spk_ spk_endorsement_ valid_until_ (block_number env)]> |>) >>
  deposit_event (SignedPreKeySet who device_id).

Definition set_opk_root (origin : Origin) (device_id : DeviceId) (root_ : MerkleRoot) (count_ : Z) : Call_ :=
  let! who := ok_or (ensure_signed origin) BadOrigin in
  ensure_registered who device_id >>
  ensure (count_ > 0) (Module EmptyOpkSet) >>
  let! roots := gets DeviceOpkRoots in
  let epoch_ := default 0 ((fun r => Epoch.next_u32_epoch (epoch r)) <$> roots !! (who, device_id)) in
  modify (fun s => s <| DeviceOpkRoots ::= <[(who, device_id) := mkOpk root_ count_ epoch_]> |>) >>
  deposit_event (OpkRootSet who device_id epoch_ count_).

Definition get_device (account : AccountId) (device_id : DeviceId)
    : M (State L) (DispatchError Error) DeviceIdentity :=
  let! devices := gets DeviceIdentities in
  ok_or (devices !! (account, device_id)) (Module DeviceNotFound).

Definition bump_prekey_epoch (origin : Origin) (device_id : DeviceId) : Call_ :=
  let! who := ok_or (ensure_signed origin) BadOrigin in
  let! rec := get_device who device_id in
  let new_epoch := Epoch.bump_u32_epoch (prekey_epoch rec) in
  modify (fun s => s <| DeviceIdentities ::=
    <[(who, device_id) := rec <| prekey_epoch := new_epoch |>]> |>) >>
  deposit_event (PrekeyEpochBumped who device_id new_epoch).

Definition purge_device (account : AccountId) (device_id : DeviceId) : Call_ :=
  modify (fun s => s <| DeviceIdentities ::= delete (account, device_id) |>) >>
  modify (fun s => s <| DeviceSignedPreKeys ::= delete (account, device_id) |>) >>
  modify (fun s => s <| DeviceOpkRoots ::= delete (account, device_id) |>) >>
  modify (fun s => s <| DeviceCountByAccount ::= fun m =>
    <[account := sat_sub (get0 m account) 1]> m |>).

Definition unregister_device (origin : Origin) (device_id : DeviceId) : Call_ :=
  let! who := ok_or (ensure_signed origin) BadOrigin in
  let! rec := get_device who device_id in
  unreserve_deposit who (deposit rec) >>
  purge_device who device_id >>
  deposit_event (DeviceUnregistered who device_id).

Definition set_stack_caps (origin : Origin) (flags_ version_ : Z) : Call_ :=
  let! who := ok_or (ensure_signed origin) BadOrigin in
  modify (fun s => s <| ChatStackCaps ::= <[who := mkCaps flags_ version_]> |>) >>
  deposit_event (StackCapsSet who flags_ version_).

Definition force_unregister_device (origin : Origin) (account : AccountId) (device_id : DeviceId) : Call_ :=
  ensure (ForceOrigin cfg origin = true) BadOrigin >>
  let! rec := get_device account device_id in
  unreserve_deposit account (deposit rec) >>
  purge_device account device_id >>
  deposit_event (DeviceForceUnregistered account device_id).

Definition device_ik (s : State L) (account : AccountId) (device_id : DeviceId) : option (X25519Pub * Z) :=
  (fun r => (ik r, prekey_epoch r)) <$> DeviceIdentities s !! (account, device_id).

Definition device_spk (s : State L) (account : AccountId) (device_id : DeviceId) : option (X25519Pub * Z) :=
  (fun r => (spk r, valid_until r)) <$> DeviceSignedPreKeys s !! (account, device_id).

Definition device_opk_root (s : State L) (account : AccountId) (device_id : DeviceId)
    : option (MerkleRoot * Z * Z) :=
  (fun r => (root r, count r, epoch r)) <$> DeviceOpkRoots s !! (account, device_id).

Definition stack_caps (s : State L) (account : AccountId) : option (Z * Z) :=
  (fun c => (flags c, version c)) <$> ChatStackCaps s !! account.

Definition device_exists (s : State L) (account : AccountId) (device_id : DeviceId) : bool :=
  bool_decide (is_Some (DeviceIdentities s !! (account, device_id))).

Inductive Call : Type :=
| RegisterDevice (device_id : DeviceId) (ik_ : X25519Pub) (e : Endorsement)
| SetSignedPrekey (device_id : DeviceId) (spk_ : X25519Pub) (e : Endorsement) (until : Z)
| SetOpkRoot (device_id : DeviceId) (root_ : MerkleRoot) (count_ : Z)
| BumpPrekeyEpoch (device_id : DeviceId)
| UnregisterDevice (device_id : DeviceId)
| SetStackCaps (flags_ version_ : Z)
| ForceUnregisterDevice (account : AccountId) (device_id : DeviceId).

Definition apply_call (env : Env) (origin : Origin) (c : Call) : Call_ :=
  match c with
  | RegisterDevice d k e => register_device env origin d k e
  | SetSignedPrekey d k e u => set_signed_prekey env origin d k e u
  | SetOpkRoot d r n => set_opk_root origin d r n
  | BumpPrekeyEpoch d => bump_prekey_epoch origin d
  | UnregisterDevice d => unregister_device origin d
  | SetStackCaps f v => set_stack_caps origin f v
  | ForceUnregisterDevice a d => force_unregister_device origin a d
  end.

Definition dispatch (env : Env) (origin : Origin) (c : Call) : Call_ :=
  transactional (apply_call env origin c).

Inductive step (s s' : State L) : Prop :=
| step_call env origin c r (Hcall : dispatch env origin c s = (r, s')).

Definition genesis (l : L) : State L := mkState L ∅ ∅ ∅ ∅ ∅ l [].

(** * The registry's invariant *)

Definition devices_of (who : AccountId) (s : State L) : Z :=
  msum (row (fun _ => 1) who) (DeviceIdentities s).

Definition deposits_of (who : AccountId) (s : State L) : Z :=
  msum (row deposit who) (DeviceIdentities s).

Record config_ok : Prop := {
  cfg_deposit : 0 <= DeviceDeposit cfg;
  cfg_devices : 0 <= MaxDevicesPerAccount cfg <= u32_max;
}.

Record device_ok (k : AccountId * DeviceId) (d : DeviceIdentity) : Prop := {
  dv_id : k.2 = blake2_128 (ik d);
  dv_epoch : 0 <= prekey_epoch d <= u32_max;
  dv_deposit : 0 <= deposit d;
}.

Definition opk_ok (r : OpkRoot) : Prop := 0 < count r /\ 0 <= epoch r <= u32_max.

(** A device is stored under the digest of its key, prekeys exist only for
    registered devices, the counter is the number of devices and at most the
    cap, and what an account has deposited is reserved. *)
Record identity_ok (s : State L) : Prop := {
  id_devices : forall k d, DeviceIdentities s !! k = Some d -> device_ok k d;
  id_prekeys : forall k, is_Some (DeviceSignedPreKeys s !! k) -> is_Some (DeviceIdentities s !! k);
  id_roots : forall k r, DeviceOpkRoots s !! k = Some r -> is_Some (DeviceIdentities s !! k) /\ opk_ok r;
  id_count : forall who, get0 (DeviceCountByAccount s) who = devices_of who s;
  id_cap : forall who, devices_of who s <= MaxDevicesPerAccount cfg;
  id_reserved : forall who, deposits_of who s <= reserved_balance who (ledger s);
}.

Lemma insert_domain {V} (m : gmap (AccountId * DeviceId) V) (k k' : AccountId * DeviceId) v :
  is_Some (m !! k) -> is_Some (<[k' := v]> m !! k).
Proof. intros Hk. rewrite lookup_insert. by case_decide. Qed.

Lemma row_nonneg (w : DeviceIdentity -> Z) (who : AccountId) (m : gmap (AccountId * DeviceId) DeviceIdentity) :
  (forall k d, m !! k = Some d -> 0 <= w d) ->
  forall k d, m !! k = Some d -> 0 <= row w who k d.
Proof. intros Hw k d Hk. unfold row. case_decide; [by eapply Hw | lia]. Qed.

Lemma deposit_covered s who id d :
  identity_ok s -> DeviceIdentities s !! (who, id) = Some d ->
  0 <= deposit d <= reserved_balance who (ledger s) /\ 1 <= get0 (DeviceCountByAccount s) who.
Proof.
  intros Hs Hd. split; [split; [by eapply dv_deposit, id_devices |] |].
  - etrans; [| by apply id_reserved]. rewrite <- (row_eq deposit who id d).
    apply msum_elem_le; [| done]. apply row_nonneg. intros k d' Hk. by eapply dv_deposit, id_devices.
  - rewrite (id_count s Hs). unfold devices_of. rewrite <- (row_eq (fun _ => 1) who id d) at 1.
    apply msum_elem_le; [| done]. by apply row_nonneg.
Qed.

Context `{!ReservableCurrencyLaws L}.

(** How a call changes the devices and the ledger. *)
Definition moves (s s' : State L) : Prop := forall who,
  reserved_balance who (ledger s') - reserved_balance who (ledger s) = deposits_of who s' - deposits_of who s.

Lemma row_insert_new (w : DeviceIdentity -> Z) (who : AccountId) (m : gmap (AccountId * DeviceId) DeviceIdentity) (a : AccountId) (d : DeviceId) v :
  m !! (a, d) = None ->
  msum (row w who) (<[(a, d) := v]> m) = msum (row w who) m + (if decide (a = who) then w v else 0).
Proof. intros Hn. rewrite msum_insert, Hn. unfold row. simpl. lia. Qed.

Lemma row_insert_same (w : DeviceIdentity -> Z) (who : AccountId) (m : gmap (AccountId * DeviceId) DeviceIdentity) (k : AccountId * DeviceId) v v' :
  m !! k = Some v -> w v' = w v -> msum (row w who) (<[k := v']> m) = msum (row w who) m.
Proof. intros Hk Hw. rewrite msum_insert, Hk. unfold row. simpl. rewrite Hw. lia. Qed.

Lemma row_delete (w : DeviceIdentity -> Z) (who : AccountId) (m : gmap (AccountId * DeviceId) DeviceIdentity) (a : AccountId) (d : DeviceId) v :
  m !! (a, d) = Some v ->
  msum (row w who) (delete (a, d) m) = msum (row w who) m - (if decide (a = who) then w v else 0).
Proof. intros Hk. rewrite msum_delete, Hk. unfold row. simpl. lia. Qed.

Lemma register_ok env o d k e s s' :
  config_ok -> identity_ok s -> register_device env o d k e s = (Ok tt, s') -> identity_ok s' /\ moves s s'.
Proof.
  intros Hcfg Hs Hrun. unfold register_device, deposit_event in Hrun. p_inv.
  match goal with Hw : ensure_signed _ = Some ?w |- _ => rename w into who end.
  match goal with Hr : reserve _ _ _ = Some ?l |- _ =>
    pose proof (fun a => reserve_reserved _ _ _ l a (cfg_deposit Hcfg) Hr) as Hres; simpl in Hres; rename l into l' end.
  pose proof (cfg_devices Hcfg) as Hmax.
  assert (moves s (s <| DeviceIdentities ::= <[(who, blake2_128 k) := mkDevice k e 0 (DeviceDeposit cfg) (block_number env)]> |>
    <| ledger := l' |>)) as Hmoves.
  { intros a. unfold deposits_of. simpl. rewrite row_insert_new, Hres by done. simpl.
    repeat case_decide; congruence || lia. }
  split; [| exact Hmoves]. destruct Hs as [I1 I2 I3 I4 I5 I6]. split; simpl.
  - intros [a d'] v [[[= <- <-] <-] | [_ Hv]]%lookup_insert_Some; [| by apply I1].
    split; simpl; [done | unfold u32_max; lia | apply Hcfg].
  - intros j Hj. by apply insert_domain, I2.
  - intros j r Hj. destruct (I3 j r Hj). split; [by apply insert_domain | done].
  - intros a. unfold devices_of. simpl. rewrite row_insert_new by done. fold (devices_of a s).
    rewrite get0_insert, <- I4. case_decide; [subst a | lia]. rewrite sat_add_exact by lia. lia.
  - intros a. unfold devices_of. simpl. rewrite row_insert_new by done. fold (devices_of a s).
    specialize (I5 a). rewrite <- I4 in *. case_decide; [subst a |]; lia.
  - intros a. specialize (Hmoves a). specialize (I6 a). unfold deposits_of in *. simpl in *. lia.
Qed.

Lemma purge_ok who d dev s l :
  identity_ok s -> DeviceIdentities s !! (who, d) = Some dev ->
  l = (unreserve who (deposit dev) (ledger s)).1 ->
  let s' := s <| ledger := l |> <| DeviceIdentities ::= delete (who, d) |>
    <| DeviceSignedPreKeys ::= delete (who, d) |> <| DeviceOpkRoots ::= delete (who, d) |>
    <| DeviceCountByAccount ::= fun m => <[who := sat_sub (get0 m who) 1]> m |> in
  identity_ok s' /\ moves s s'.
Proof.
  intros Hs Hd -> s'. destruct (deposit_covered s who d dev Hs Hd) as [Hdep Hcnt].
  assert (moves s s') as Hmoves.
  { intros a. unfold s', deposits_of. simpl. rewrite (row_delete _ _ _ _ _ _ Hd), unreserve_exact by done.
    repeat case_decide; congruence || lia. }
  split; [| exact Hmoves]. destruct Hs as [I1 I2 I3 I4 I5 I6]. split; unfold s' in *; simpl.
  - intros k v [_ Hv]%lookup_delete_Some. by apply I1.
  - intros k [v [Hne Hv]%lookup_delete_Some]. rewrite lookup_delete_ne by done. eauto.
  - intros k r [Hne Hr]%lookup_delete_Some. rewrite lookup_delete_ne by done. by apply I3.
  - intros a. unfold devices_of. simpl. rewrite (row_delete _ _ _ _ _ _ Hd). fold (devices_of a s).
    rewrite get0_insert, <- I4. case_decide; [subst a; rewrite sat_sub_exact by lia |]; lia.
  - intros a. unfold devices_of. simpl. rewrite (row_delete _ _ _ _ _ _ Hd). fold (devices_of a s).
    specialize (I5 a). case_decide; lia.
  - intros a. specialize (Hmoves a). specialize (I6 a). unfold deposits_of in *. simpl in *. lia.
Qed.

Lemma moves_same s s' :
  DeviceIdentities s' = DeviceIdentities s -> ledger s' = ledger s -> moves s s'.
Proof. intros Hd Hl who. unfold deposits_of. rewrite Hd, Hl. lia. Qed.

Lemma identity_call_ok env o c s s' :
  config_ok -> identity_ok s -> apply_call env o c s = (Ok tt, s') -> identity_ok s' /\ moves s s'.
Proof.
  intros Hcfg Hs Hrun. destruct c; simpl in Hrun; [by eapply register_ok | ..];
    unfold set_signed_prekey, set_opk_root, bump_prekey_epoch, unregister_device, set_stack_caps,
      force_unregister_device, ensure_registered, get_device, purge_device, deposit_event in Hrun; p_inv.
  - split; [| by apply moves_same]. destruct Hs as [I1 I2 I3 I4 I5 I6]. split; simpl; try done.
    intros k [v [[<- _] | [_ Hv]]%lookup_insert_Some]; [done | apply I2; eauto].
  - split; [| by apply moves_same]. destruct Hs as [I1 I2 I3 I4 I5 I6]. split; simpl; try done.
    intros k v [[<- <-] | [_ Hv]]%lookup_insert_Some; [| by apply I3]. split; [done |].
    split; simpl; [lia |]. destruct (DeviceOpkRoots s !! _) as [r |] eqn:Hr; simpl; [| unfold u32_max; lia].
    destruct (I3 _ _ Hr) as [_ [_ He]]. unfold Epoch.next_u32_epoch, sat_add. lia.
  - match goal with Hd : DeviceIdentities s !! ?k = Some ?v |- _ =>
      pose proof Hd as Hdev; rename v into dev end.
    assert (forall w who v, w v = w dev -> msum (row w who) (<[_ := v]> (DeviceIdentities s)) =
      msum (row w who) (DeviceIdentities s)) as Hrow by (intros w who v Hw; by apply (row_insert_same _ _ _ _ dev)).
    split; [destruct Hs as [I1 I2 I3 I4 I5 I6]; split; simpl; try done |].
    + intros k v [[<- <-] | [_ Hv]]%lookup_insert_Some; [| by apply I1].
      destruct (I1 _ _ Hdev). split; simpl; [done | | done].
      pose proof (Epoch.bump_bounds (prekey_epoch dev)). lia.
    + intros k Hk. by apply insert_domain, I2.
    + intros k r Hk. destruct (I3 k r Hk). split; [by apply insert_domain | done].
    + intros who. unfold devices_of. simpl. rewrite (Hrow (fun _ => 1)) by done. apply I4.
    + intros who. unfold devices_of. simpl. rewrite (Hrow (fun _ => 1)) by done. apply I5.
    + intros who. unfold deposits_of. simpl. rewrite (Hrow deposit) by done. apply I6.
    + intros who. unfold deposits_of. simpl. rewrite (Hrow deposit) by done. lia.
  - match goal with Hd : DeviceIdentities s !! (?w, ?d) = Some ?v |- _ =>
      destruct (purge_ok w d v s _ Hs Hd eq_refl) as [[] Hm]; by split end.
  - split; [| by apply moves_same]. by destruct Hs.
  - match goal with Hd : DeviceIdentities s !! (?w, ?d) = Some ?v |- _ =>
      destruct (purge_ok w d v s _ Hs Hd eq_refl) as [[] Hm]; by split end.
Qed.

Lemma identity_step_ok s s' : config_ok -> identity_ok s -> step s s' -> identity_ok s' /\ moves s s'.
Proof.
  intros Hcfg Hs [env o c r [([] & -> & Hrun) | (e & -> & ->)]%transactional_cases];
    [by eapply identity_call_ok |]. split; [done | by apply moves_same].
Qed.

Lemma identity_reach l s : config_ok -> rtc step (genesis l) s -> identity_ok s.
Proof.
  intros Hcfg Hrun. eapply (rtc_invariant step identity_ok); [| | exact Hrun].
  - intros s1 s2 Hs1 Hstep. by eapply identity_step_ok.
  - split; simpl; unfold devices_of, deposits_of; simpl; intros *; rewrite ?lookup_empty, ?get0_empty, ?msum_empty;
      try done; try (by intros [? ?]); [apply Hcfg | pose proof (reserved_nonneg who l); lia].
Qed.

(** * Properties *)

(** in every reachable state a device is stored under the digest of its
    key, signed prekeys and one-time-prekey roots exist only for registered
    devices, every account's counter is the number of its devices and within
    the cap, epochs are in range, and the deposits recorded for an account are
    reserved; and every call changes what an account has reserved by exactly
    the change of the deposits recorded for it. *)
Theorem identity_invariant l s :
  config_ok -> rtc step (genesis l) s ->
  identity_ok s /\ forall s', step s s' -> forall who,
    reserved_balance who (ledger s') - reserved_balance who (ledger s) =
      deposits_of who s' - deposits_of who s.
Proof.
  intros Hcfg Hrun%identity_reach; [| done]. split; [done |]. intros s' Hstep.
  by apply identity_step_ok.
Qed.

(** A device that is unregistered and registered again is back at epoch 0, both
    for its prekeys and for its one-time-prekey roots: bundles revoked by an
    earlier bump carry a current epoch again. *)
Theorem reregistration_restarts_epochs env o d k e rt n who s s1 s2 s3 s4 :
  ensure_signed o = Some who ->
  dispatch env o (BumpPrekeyEpoch d) s = (Ok tt, s1) ->
  dispatch env o (UnregisterDevice d) s1 = (Ok tt, s2) ->
  dispatch env o (RegisterDevice d k e) s2 = (Ok tt, s3) ->
  dispatch env o (SetOpkRoot d rt n) s3 = (Ok tt, s4) ->
  device_ik s4 who d = Some (k, 0) /\ device_opk_root s4 who d = Some (rt, n, 0).
Proof.
  intros Ho _ Hun%transactional_Ok Hreg%transactional_Ok Hopk%transactional_Ok. simpl in *.
  unfold unregister_device, register_device, set_opk_root, ensure_registered, get_device, purge_device,
    deposit_event in *. p_inv.
  unfold device_ik, device_opk_root. simpl. by rewrite !lookup_insert_eq, lookup_delete_eq.
Qed.

End Pallet.

(** * Concrete runs *)

Definition identity_config : Config := {|
  ForceOrigin := ensure_root;
  DeviceDeposit := 5;
  MaxDevicesPerAccount := 2;
|}.

Definition identity_env : Env := mkEnv 7 0 42 [].
Definition identity_genesis : State SimpleLedger := genesis {[ 1%N := (50%N, 0%N) ]}.
Definition test_key : X25519Pub := [1; 2; 3].
Definition test_device : DeviceId := blake2_128 test_key.

Definition run_calls (cs : list (SimpleOrigin * Call)) (s : State SimpleLedger) : State SimpleLedger :=
  foldl (fun s x => (dispatch identity_config identity_env x.1 x.2 s).2) s cs.

Lemma identity_run_reach cs s : rtc (step identity_config) s (run_calls cs s).
Proof.
  revert s. induction cs as [| [o c] cs IH]; intros s; [constructor |].
  eapply rtc_l; [| apply IH].
  exists identity_env o c (dispatch identity_config identity_env o c s).1. apply surjective_pairing.
Qed.

Lemma identity_config_ok : config_ok identity_config.
Proof. split; simpl; unfold u32_max; lia. Qed.

Definition one_device : State SimpleLedger :=
  run_calls [(SignedBy 1, RegisterDevice test_device test_key []); (SignedBy 1, SetOpkRoot test_device 9 4);
    (SignedBy 1, SetSignedPrekey test_device [8] [] 100)] identity_genesis.

Lemma identity_invariant_witness :
  device_opk_root one_device 1 test_device = Some (9%N, 4, 0) /\ deposits_of 1 one_device = 5 /\
  identity_ok identity_config one_device /\ forall s', step identity_config one_device s' -> forall who,
    reserved_balance who (ledger s') - reserved_balance who (ledger one_device) =
      deposits_of who s' - deposits_of who one_device.
Proof.
  split; [by vm_compute |]. split; [by vm_compute |].
  apply (identity_invariant identity_config {[ 1%N := (50%N, 0%N) ]});
    [apply identity_config_ok | apply identity_run_reach].
Defined.

Lemma reregistration_restarts_epochs_witness :
  let s1 := run_calls [(SignedBy 1, BumpPrekeyEpoch test_device)] one_device in
  let s2 := run_calls [(SignedBy 1, UnregisterDevice test_device)] s1 in
  let s3 := run_calls [(SignedBy 1, RegisterDevice test_device test_key [])] s2 in
  let s4 := run_calls [(SignedBy 1, SetOpkRoot test_device 9 4)] s3 in
  device_ik s1 1 test_device = Some (test_key, 1) /\
  device_ik s4 1 test_device = Some (test_key, 0) /\ device_opk_root s4 1 test_device = Some (9%N, 4, 0).
Proof.
  intros s1 s2 s3 s4. split; [by vm_compute |].
  apply (reregistration_restarts_epochs identity_config identity_env (SignedBy 1) test_device test_key [] 9 4 1
    one_device s1 s2 s3 s4); by vm_compute.
Defined.

End Identity.
