(* ===== verification/ChatPermission.v ===== *)
(** [pallet-chat-permission] (src/pallets/chat/permission/src/lib.rs, types.rs):
    who may message whom. Privacy settings, platform mutes and reports are the
    pallet's calls; scene authorizations are written by other pallets through
    [SceneAuthorizationManager] and read by [check_permission]. The theorems:
    the decision of [check_permission], what a grant opens and a revoke closes,
    the shape of the authorization lists, the report queue, and what extending
    a permanent authorization does to it. *)

From S2P Require Import Prelude Frame ChatCommon.

Module Permission.

Inductive SceneType : Type :=
| MarketMaker
| Order
| Memorial
| Group
| Custom (name : bytes)
| Direct.

#[export] Instance scene_type_eq_dec : EqDecision SceneType.
Proof. solve_decision. Defined.

Inductive SceneId : Type :=
| NoId
| Numeric (n : Z)
| Hash (h : Bytes32).

#[export] Instance scene_id_eq_dec : EqDecision SceneId.
Proof. solve_decision. Defined.

Record SceneAuthorization : Type := mkSceneAuthorization {
  scene_type : SceneType;
  scene_id : SceneId;
  source_pallet : bytes;
  granted_at : Z;
  expires_at : option Z;
  metadata : bytes;
}.

#[export] Instance eta_auth : Settable SceneAuthorization := fun a =>
  mkSceneAuthorization (scene_type a) (scene_id a) (source_pallet a) (granted_at a)
    (expires_at a) (metadata a).

Inductive ChatPermissionLevel : Type := Open | FriendsOnly | Whitelist | Closed.

Record PrivacySettings : Type := mkPrivacySettings {
  permission_level : ChatPermissionLevel;
  rejected_scene_types : list SceneType;
  updated_at : Z;
}.

#[export] Instance eta_settings : Settable PrivacySettings := fun p =>
  mkPrivacySettings (permission_level p) (rejected_scene_types p) (updated_at p).

Definition default_settings : PrivacySettings := mkPrivacySettings FriendsOnly [] 0.

Inductive PermissionResult : Type :=
| Allowed
| AllowedByScene (scenes : list SceneType)
| DeniedRequiresFriend
| DeniedClosed
| DeniedSenderMuted.

Definition is_allowed (r : PermissionResult) : bool :=
  match r with Allowed | AllowedByScene _ => true | _ => false end.

Record SceneAuthorizationInfo : Type := mkSceneAuthorizationInfo {
  info_scene_type : SceneType;
  info_scene_id : SceneId;
  is_expired : bool;
  info_expires_at : option Z;
  info_metadata : bytes;
}.

Inductive MuteStatus : Type := Forever | Until (block : Z).

Inductive ReportTarget : Type :=
| TargetAccount (who : AccountId)
| TargetGroup (id : Z)
| TargetMessage (hash : Bytes32).

Record ReportRecord : Type := mkReportRecord {
  reporter : AccountId;
  target : ReportTarget;
  reason_cid : bytes;
  filed_at : Z;
}.

Record PrivacySettingsSummary : Type := mkPrivacySettingsSummary {
  summary_level : ChatPermissionLevel;
  summary_rejected : list SceneType;
}.

Inductive Event : Type :=
| PrivacySettingsUpdated (who : AccountId)
| CapabilityEpochBumped (who : AccountId) (new_epoch : Z)
| SceneAuthorizationGranted (source : bytes) (user1 user2 : AccountId) (t : SceneType) (i : SceneId)
| SceneAuthorizationRevoked (source : bytes) (user1 user2 : AccountId) (t : SceneType) (i : SceneId)
| SceneAuthorizationExtended (user1 user2 : AccountId) (t : SceneType) (i : SceneId)
    (new_expires_at : option Z)
| SceneAuthorizationHookFailed (source : bytes) (user1 user2 : AccountId) (t : SceneType)
    (i : SceneId) (is_grant : bool)
| AccountMuted (who : AccountId) (until : option Z)
| AccountUnmuted (who : AccountId)
| ReportFiled (id : Z) (reporter : AccountId)
| ReportResolved (id : Z) (upheld : bool).

Inductive Error : Type :=
| TooManyScenes
| SceneAuthorizationNotFound
| MetadataTooLong
| ReportCooldown
| TooManyOpenReports
| ReportNotFound.

Record Config `{FrameSystem} : Type := mkConfig {
  MaxScenesPerPair : Z;
  GovernanceOrigin : Origin -> bool;
  MaxReportCidLen : Z;
  MaxOpenReports : Z;
  ReportCooldownBlocks : Z;
}.

Record State : Type := mkState {
  PrivacySettingsOf : gmap AccountId PrivacySettings;
  CapabilityEpoch : gmap AccountId Z;
  MutedAccounts : gmap AccountId MuteStatus;
  NextReportId : Z;
  Reports : gmap Z ReportRecord;
  OpenReportCount : Z;
  LastReportAt : gmap AccountId Z;
  SceneAuthorizations : gmap (AccountId * AccountId) (list SceneAuthorization);
  events : list Event;
}.

#[export] Instance eta_state : Settable State := fun s =>
  mkState (PrivacySettingsOf s) (CapabilityEpoch s) (MutedAccounts s) (NextReportId s)
    (Reports s) (OpenReportCount s) (LastReportAt s) (SceneAuthorizations s) (events s).

Section Pallet.
Context `{FrameSystem} (cfg : Config).

Abbreviation Call_ := (M State (DispatchError Error) unit).

Definition deposit_event (e : Event) : Call_ :=
  modify (fun s => s <| events ::= fun l => l ++ [e] |>).

Definition privacy_settings (s : State) (who : AccountId) : PrivacySettings :=
  default default_settings (PrivacySettingsOf s !! who).

(** * Calls *)

Definition set_permission_level (env : Env) (origin : Origin) (level : ChatPermissionLevel)
    : Call_ :=
  let! who := ok_or (ensure_signed origin) BadOrigin in
  modify (fun s => s <| PrivacySettingsOf ::= <[who :=
    (privacy_settings s who) <| permission_level := level |>
      <| updated_at := block_number env |>]> |>) >>
  deposit_event (PrivacySettingsUpdated who).

(** The parameter type bounds [scene_types] to ten entries. *)
Definition set_rejected_scene_types (env : Env) (origin : Origin) (scene_types : list SceneType)
    : Call_ :=
  let! who := ok_or (ensure_signed origin) BadOrigin in
  modify (fun s => s <| PrivacySettingsOf ::= <[who :=
    (privacy_settings s who) <| rejected_scene_types := scene_types |>
      <| updated_at := block_number env |>]> |>) >>
  deposit_event (PrivacySettingsUpdated who).

Definition bump_capability_epoch (origin : Origin) : Call_ :=
  let! who := ok_or (ensure_signed origin) BadOrigin in
  let! epochs := gets CapabilityEpoch in
  let new_epoch := Epoch.bump_u32_epoch (get0 epochs who) in
  modify (fun s => s <| CapabilityEpoch ::= <[who := new_epoch]> |>) >>
  deposit_event (CapabilityEpochBumped who new_epoch).

Definition force_mute_account (origin : Origin) (who : AccountId) (until : option Z) : Call_ :=
  ensure (GovernanceOrigin cfg origin = true) BadOrigin >>
  let status := match until with Some b => Until b | None => Forever end in
  modify (fun s => s <| MutedAccounts ::= <[who := status]> |>) >>
  deposit_event (AccountMuted who until).

Definition force_unmute_account (origin : Origin) (who : AccountId) : Call_ :=
  ensure (GovernanceOrigin cfg origin = true) BadOrigin >>
  modify (fun s => s <| MutedAccounts ::= delete who |>) >>
  deposit_event (AccountUnmuted who).

Definition report (env : Env) (origin : Origin) (target : ReportTarget) (reason_cid : bytes)
    : Call_ :=
  let! who := ok_or (ensure_signed origin) BadOrigin in
  let now := block_number env in
  let! last_report := gets LastReportAt in
  match last_report !! who with
  | Some last =>
      ensure (RateLimit.min_blocks_elapsed last now (ReportCooldownBlocks cfg) = true)
        (Module ReportCooldown)
  | None => ret tt
  end >>
  let! open := gets OpenReportCount in
  ensure (open < MaxOpenReports cfg) (Module TooManyOpenReports) >>
  ensure (Z.of_nat (length reason_cid) <= MaxReportCidLen cfg) (Module MetadataTooLong) >>
  let! id := gets NextReportId in
  modify (fun s => s <| Reports ::= <[id := mkReportRecord who target reason_cid now]> |>) >>
  modify (fun s => s <| NextReportId := sat_add u64_max id 1 |>) >>
  modify (fun s => s <| OpenReportCount := sat_add u32_max open 1 |>) >>
  modify (fun s => s <| LastReportAt ::= <[who := now]> |>) >>
  deposit_event (ReportFiled id who).

Definition resolve_report (origin : Origin) (report_id : Z) (upheld : bool) : Call_ :=
  ensure (GovernanceOrigin cfg origin = true) BadOrigin >>
  let! reports := gets Reports in
  ensure (is_Some (reports !! report_id)) (Module ReportNotFound) >>
  modify (fun s => s <| Reports ::= delete report_id |>) >>
  modify (fun s => s <| OpenReportCount ::= fun c => sat_sub c 1 |>) >>
  deposit_event (ReportResolved report_id upheld).

(** * Reads *)

Definition sorted_pair (user1 user2 : AccountId) : AccountId * AccountId :=
  if decide (user1 < user2)%N then (user1, user2) else (user2, user1).

Definition is_account_muted (env : Env) (s : State) (who : AccountId) : bool :=
  match MutedAccounts s !! who with
  | Some Forever => true
  | Some (Until until) => bool_decide (block_number env < until)
  | None => false
  end.

(** The authorizations stored for the pair, an empty list by default. *)
Definition authorizations (s : State) (user1 user2 : AccountId) : list SceneAuthorization :=
  default [] (SceneAuthorizations s !! sorted_pair user1 user2).

(** [auth.expires_at.map(|e| current_block <= e).unwrap_or(true)]. *)
Definition unexpired (current_block : Z) (a : SceneAuthorization) : bool :=
  match expires_at a with
  | Some e => bool_decide (current_block <= e)
  | None => true
  end.

Definition check_permission (env : Env) (s : State) (sender receiver : AccountId)
    : PermissionResult :=
  let current_block := block_number env in
  if is_account_muted env s sender then DeniedSenderMuted else
  let receiver_settings := privacy_settings s receiver in
  let accepted a :=
    match expires_at a with
    | Some e => if decide (current_block > e) then false
                else bool_decide (scene_type a ∉ rejected_scene_types receiver_settings)
    | None => bool_decide (scene_type a ∉ rejected_scene_types receiver_settings)
    end in
  let valid_scenes :=
    scene_type <$> filter (fun a => accepted a = true) (authorizations s sender receiver) in
  match valid_scenes with
  | _ :: _ => AllowedByScene valid_scenes
  | [] =>
      match permission_level receiver_settings with
      | Open => Allowed
      | FriendsOnly | Whitelist => DeniedRequiresFriend
      | Closed => DeniedClosed
      end
  end.

Definition can_send_message (env : Env) (s : State) (sender receiver : AccountId) : bool :=
  is_allowed (check_permission env s sender receiver).

Definition get_active_scenes (env : Env) (s : State) (user1 user2 : AccountId)
    : list SceneAuthorizationInfo :=
  (fun a => mkSceneAuthorizationInfo (scene_type a) (scene_id a)
    (match expires_at a with Some e => bool_decide (block_number env > e) | None => false end)
    (expires_at a) (metadata a)) <$> authorizations s user1 user2.

Definition get_privacy_summary (s : State) (user : AccountId) : PrivacySettingsSummary :=
  mkPrivacySettingsSummary (permission_level (privacy_settings s user))
    (rejected_scene_types (privacy_settings s user)).

Definition has_any_valid_scene_authorization (env : Env) (s : State) (from to : AccountId) : bool :=
  existsb (unexpired (block_number env)) (authorizations s from to).

Definition get_valid_scene_authorizations (env : Env) (s : State) (user1 user2 : AccountId)
    : list SceneAuthorization :=
  filter (fun a => unexpired (block_number env) a = true) (authorizations s user1 user2).

(** * SceneAuthorizationManager: what other pallets call *)

(** The key of an authorization in its pair's list. *)
Definition same_key (source : bytes) (t : SceneType) (i : SceneId) (a : SceneAuthorization)
    : Prop :=
  source_pallet a = source /\ scene_type a = t /\ scene_id a = i.

#[export] Instance same_key_dec source t i a : Decision (same_key source t i a).
Proof. unfold same_key. apply _. Defined.

Definition put_authorizations (pair : AccountId * AccountId) (auths : list SceneAuthorization)
    : Call_ :=
  modify (fun s => s <| SceneAuthorizations ::= <[pair := auths]> |>).

Definition grant_scene_authorization (env : Env) (source : bytes) (from to : AccountId)
    (t : SceneType) (i : SceneId) (duration : option Z) (meta : bytes) : Call_ :=
  let current_block := block_number env in
  let expires_at := (fun d => sat_add u32_max current_block d) <$> duration in
  let pair := sorted_pair from to in
  ensure (Z.of_nat (length meta) <= 128) (Module MetadataTooLong) >>
  let authorization := mkSceneAuthorization t i source current_block expires_at meta in
  let! auths := gets (fun s => authorizations s from to) in
  match list_find (same_key source t i) auths with
  | Some (pos, _) => put_authorizations pair (<[pos := authorization]> auths)
  | None =>
      ensure (Z.of_nat (length auths) < MaxScenesPerPair cfg) (Module TooManyScenes) >>
      put_authorizations pair (auths ++ [authorization])
  end >>
  deposit_event (SceneAuthorizationGranted source pair.1 pair.2 t i).

Definition grant_bidirectional_scene_authorization (env : Env) (source : bytes)
    (user1 user2 : AccountId) (t : SceneType) (i : SceneId) (duration : option Z) (meta : bytes)
    : Call_ :=
  grant_scene_authorization env source user1 user2 t i duration meta.

Definition revoke_scene_authorization (source : bytes) (from to : AccountId)
    (t : SceneType) (i : SceneId) : Call_ :=
  let pair := sorted_pair from to in
  let! auths := gets (fun s => authorizations s from to) in
  let! found := ok_or (list_find (same_key source t i) auths) (Module SceneAuthorizationNotFound) in
  put_authorizations pair (delete found.1 auths) >>
  deposit_event (SceneAuthorizationRevoked source pair.1 pair.2 t i).

Definition revoke_all_by_source (source : bytes) (user1 user2 : AccountId) : Call_ :=
  let! auths := gets (fun s => authorizations s user1 user2) in
  put_authorizations (sorted_pair user1 user2) (filter (fun a => source_pallet a <> source) auths).

Definition extend_scene_authorization (env : Env) (source : bytes) (from to : AccountId)
    (t : SceneType) (i : SceneId) (additional_duration : Z) : Call_ :=
  let current_block := block_number env in
  let pair := sorted_pair from to in
  let! auths := gets (fun s => authorizations s from to) in
  let! found := ok_or (list_find (same_key source t i) auths) (Module SceneAuthorizationNotFound) in
  let base := default current_block (expires_at found.2) in
  let new_time := sat_add u32_max (Z.max base current_block) additional_duration in
  put_authorizations pair (<[found.1 := found.2 <| expires_at := Some new_time |>]> auths) >>
  deposit_event (SceneAuthorizationExtended pair.1 pair.2 t i (Some new_time)).

Definition cleanup_expired_scenes (env : Env) (user1 user2 : AccountId) : Call_ :=
  let! auths := gets (fun s => authorizations s user1 user2) in
  put_authorizations (sorted_pair user1 user2)
    (filter (fun a => unexpired (block_number env) a = true) auths).

(** The best-effort variants other pallets' hooks use: a refusal is turned into
    an event, the hook never fails. *)
Definition grant_scene_from_hook (env : Env) (source : bytes) (from to : AccountId)
    (t : SceneType) (i : SceneId) (duration : option Z) (meta : bytes) : Call_ :=
  let! result := attempt
    (grant_bidirectional_scene_authorization env source from to t i duration meta) in
  match result with
  | Some _ => ret tt
  | None =>
      let pair := sorted_pair from to in
      deposit_event (SceneAuthorizationHookFailed source pair.1 pair.2 t i true)
  end.

Definition revoke_scene_from_hook (source : bytes) (from to : AccountId)
    (t : SceneType) (i : SceneId) : Call_ :=
  let! result := attempt (revoke_scene_authorization source from to t i) in
  match result with
  | Some _ => ret tt
  | None =>
      let pair := sorted_pair from to in
      deposit_event (SceneAuthorizationHookFailed source pair.1 pair.2 t i false)
  end.

(** The dispatchables and the operations other pallets perform. *)
Inductive Call : Type :=
| SetPermissionLevel (level : ChatPermissionLevel)
| SetRejectedSceneTypes (types : list SceneType)
| BumpCapabilityEpoch
| ForceMuteAccount (who : AccountId) (until : option Z)
| ForceUnmuteAccount (who : AccountId)
| Report (target : ReportTarget) (reason : bytes)
| ResolveReport (id : Z) (upheld : bool).

Inductive ManagerOp : Type :=
| Grant (source : bytes) (from to : AccountId) (t : SceneType) (i : SceneId)
    (duration : option Z) (meta : bytes)
| Revoke (source : bytes) (from to : AccountId) (t : SceneType) (i : SceneId)
| RevokeAllBySource (source : bytes) (from to : AccountId)
| Extend (source : bytes) (from to : AccountId) (t : SceneType) (i : SceneId) (more : Z)
| CleanupExpired (from to : AccountId)
| GrantFromHook (source : bytes) (from to : AccountId) (t : SceneType) (i : SceneId)
    (duration : option Z) (meta : bytes)
| RevokeFromHook (source : bytes) (from to : AccountId) (t : SceneType) (i : SceneId).

Definition apply_call (env : Env) (origin : Origin) (c : Call) : Call_ :=
  match c with
  | SetPermissionLevel level => set_permission_level env origin level
  | SetRejectedSceneTypes types => set_rejected_scene_types env origin types
  | BumpCapabilityEpoch => bump_capability_epoch origin
  | ForceMuteAccount who until => force_mute_account origin who until
  | ForceUnmuteAccount who => force_unmute_account origin who
  | Report target reason => report env origin target reason
  | ResolveReport id upheld => resolve_report origin id upheld
  end.

Definition apply_op (env : Env) (op : ManagerOp) : Call_ :=
  match op with
  | Grant src a b t i d meta => grant_bidirectional_scene_authorization env src a b t i d meta
  | Revoke src a b t i => revoke_scene_authorization src a b t i
  | RevokeAllBySource src a b => revoke_all_by_source src a b
  | Extend src a b t i more => extend_scene_authorization env src a b t i more
  | CleanupExpired a b => cleanup_expired_scenes env a b
  | GrantFromHook src a b t i d meta => grant_scene_from_hook env src a b t i d meta
  | RevokeFromHook src a b t i => revoke_scene_from_hook src a b t i
  end.

Definition dispatch (env : Env) (origin : Origin) (c : Call) : Call_ :=
  transactional (apply_call env origin c).

(** What decoding or the calling pallet's types guarantee of the arguments. *)
Definition op_typed (op : ManagerOp) : Prop :=
  match op with
  | Grant _ _ _ _ _ (Some d) _ | GrantFromHook _ _ _ _ _ (Some d) _ => 0 <= d <= u32_max
  | Extend _ _ _ _ _ more => 0 <= more <= u32_max
  | _ => True
  end.

Inductive step (s s' : State) : Prop :=
| step_call env origin c r (Henv : env_ok env) (Hcall : dispatch env origin c s = (r, s'))
| step_op env op r (Henv : env_ok env) (Hty : op_typed op) (Hop : apply_op env op s = (r, s')).

(** * The authorization lists *)

Definition auth_key (a : SceneAuthorization) : bytes * SceneType * SceneId :=
  (source_pallet a, scene_type a, scene_id a).

Lemma same_key_auth_key source t i a : same_key source t i a <-> auth_key a = (source, t, i).
Proof.
  unfold same_key, auth_key. split; [by intros (-> & -> & ->) | by intros [= -> -> ->]].
Qed.

Definition auth_ok (a : SceneAuthorization) : Prop :=
  Z.of_nat (length (metadata a)) <= 128 /\ 0 <= granted_at a <= u32_max /\
  match expires_at a with Some e => 0 <= e <= u32_max | None => True end.

(** Each key at most once, no more entries than the bound, every entry in
    range. *)
Definition auths_ok (l : list SceneAuthorization) : Prop :=
  NoDup (auth_key <$> l) /\ Z.of_nat (length l) <= MaxScenesPerPair cfg /\ Forall auth_ok l.

(** How an operation may rewrite one list. *)
Inductive rewrites (l l' : list SceneAuthorization) : Prop :=
| rewrites_replace pos a a'
    (Hpos : l !! pos = Some a) (Hkey : auth_key a' = auth_key a) (Hok : auth_ok a -> auth_ok a')
    (Hl' : l' = <[pos := a']> l)
| rewrites_push a
    (Hnew : auth_key a ∉ auth_key <$> l) (Hok : auth_ok a)
    (Hlen : Z.of_nat (length l) < MaxScenesPerPair cfg) (Hl' : l' = l ++ [a])
| rewrites_shrink (Hsub : l' `sublist_of` l).

Lemma rewrites_ok l l' : auths_ok l -> rewrites l l' -> auths_ok l'.
Proof.
  intros (Hnd & Hlen & Hall) [pos a a' Hpos Hkey Hok -> | a Hnew Hok Hroom -> | Hsub].
  - split_and!.
    + rewrite list_fmap_insert, Hkey, list_insert_id; [done |].
      by rewrite list_lookup_fmap, Hpos.
    + by rewrite length_insert.
    + apply Forall_insert; [done |]. apply Hok. by eapply Forall_lookup_1.
  - split_and!.
    + rewrite fmap_app. apply NoDup_app. split; [done |]. split; [| apply NoDup_singleton].
      by intros k Hk ->%list_elem_of_singleton.
    + rewrite length_app. simpl. lia.
    + by apply Forall_app_2; [| constructor].
  - split_and!.
    + eapply sublist_NoDup; [done |]. by apply fmap_sublist.
    + pose proof (sublist_length _ _ Hsub). lia.
    + rewrite Forall_forall in *. intros x Hx. by apply Hall, (sublist_subseteq _ _ Hsub).
Qed.

Lemma find_None_key source t i l :
  list_find (same_key source t i) l = None -> (source, t, i) ∉ auth_key <$> l.
Proof.
  intros Hnone%list_find_None Hin. apply list_elem_of_fmap in Hin as (a & Ha & Hin).
  rewrite Forall_forall in Hnone. apply (Hnone a Hin). by apply same_key_auth_key.
Qed.

Lemma find_Some_key source t i l pos a :
  list_find (same_key source t i) l = Some (pos, a) ->
  l !! pos = Some a /\ auth_key a = (source, t, i).
Proof. intros (Hpos & Hk & _)%list_find_Some. by rewrite same_key_auth_key in Hk. Qed.

(** Everything but the authorizations and the events. *)
Definition same_rest (s s' : State) : Prop :=
  PrivacySettingsOf s' = PrivacySettingsOf s /\ CapabilityEpoch s' = CapabilityEpoch s /\
  MutedAccounts s' = MutedAccounts s /\ NextReportId s' = NextReportId s /\
  Reports s' = Reports s /\ OpenReportCount s' = OpenReportCount s /\
  LastReportAt s' = LastReportAt s.

(** The effect of an operation on the authorizations: none, or one pair's list
    rewritten. *)
Definition auth_change (s s' : State) : Prop :=
  same_rest s s' /\
  (SceneAuthorizations s' = SceneAuthorizations s \/
   exists a b l, rewrites (authorizations s a b) l /\
     SceneAuthorizations s' = <[sorted_pair a b := l]> (SceneAuthorizations s)).

Lemma grant_Ok env src a b t i d meta s s' :
  grant_scene_authorization env src a b t i d meta s = (Ok tt, s') ->
  let new := mkSceneAuthorization t i src (block_number env)
    ((fun d => sat_add u32_max (block_number env) d) <$> d) meta in
  same_rest s s' /\ Z.of_nat (length meta) <= 128 /\
  SceneAuthorizations s' = <[sorted_pair a b :=
    match list_find (same_key src t i) (authorizations s a b) with
    | Some (pos, _) => <[pos := new]> (authorizations s a b)
    | None => authorizations s a b ++ [new]
    end]> (SceneAuthorizations s) /\
  (list_find (same_key src t i) (authorizations s a b) = None ->
   Z.of_nat (length (authorizations s a b)) < MaxScenesPerPair cfg).
Proof.
  unfold grant_scene_authorization, put_authorizations, deposit_event. intros Hrun.
  m_inv; simpl; rewrite ?Heqo; split_and!; try done.
Qed.

Lemma grant_auth_change env src a b t i d meta s s' :
  env_ok env -> match d with Some d => 0 <= d <= u32_max | None => True end ->
  grant_scene_authorization env src a b t i d meta s = (Ok tt, s') -> auth_change s s'.
Proof.
  intros [Hb _] Hd Hrun. apply grant_Ok in Hrun as (Hrest & Hmeta & Ha & Hroom).
  split; [done |]. right. exists a, b.
  set (new := mkSceneAuthorization _ _ _ _ _ _) in Ha.
  assert (auth_ok new) as Hnew.
  { split_and!; [done | simpl; lia.. |]. destruct d; simpl; [| done].
    unfold sat_add, u32_max in *. lia. }
  destruct (list_find _ _) as [[pos old] |] eqn:Hfind.
  - eexists. split; [| done]. apply find_Some_key in Hfind as [Hpos Hkey].
    by apply (rewrites_replace _ _ pos old new); [| rewrite Hkey | |].
  - eexists. split; [| done]. by apply (rewrites_push _ _ new); [apply find_None_key | | auto |].
Qed.

Lemma revoke_Ok src a b t i s s' :
  revoke_scene_authorization src a b t i s = (Ok tt, s') ->
  same_rest s s' /\ exists pos auth,
    list_find (same_key src t i) (authorizations s a b) = Some (pos, auth) /\
    SceneAuthorizations s' =
      <[sorted_pair a b := delete pos (authorizations s a b)]> (SceneAuthorizations s).
Proof.
  unfold revoke_scene_authorization, put_authorizations, deposit_event. intros Hrun. m_inv.
  match goal with H : list_find _ _ = Some ?f |- _ => destruct f end. split; [done | eauto].
Qed.

Lemma extend_Ok env src a b t i more s s' :
  extend_scene_authorization env src a b t i more s = (Ok tt, s') ->
  same_rest s s' /\ exists pos auth,
    list_find (same_key src t i) (authorizations s a b) = Some (pos, auth) /\
    SceneAuthorizations s' = <[sorted_pair a b := <[pos := auth <| expires_at := Some (sat_add u32_max
      (Z.max (default (block_number env) (expires_at auth)) (block_number env)) more) |>]>
        (authorizations s a b)]> (SceneAuthorizations s).
Proof.
  unfold extend_scene_authorization, put_authorizations, deposit_event. intros Hrun. m_inv.
  match goal with H : list_find _ _ = Some ?f |- _ => destruct f end. split; [done | eauto].
Qed.

Lemma revoke_auth_change src a b t i s s' :
  revoke_scene_authorization src a b t i s = (Ok tt, s') -> auth_change s s'.
Proof.
  intros (Hrest & pos & auth & _ & Ha)%revoke_Ok. split; [done |]. right.
  exists a, b, (delete pos (authorizations s a b)). split; [| done].
  apply rewrites_shrink, sublist_delete.
Qed.

(** A refused grant, revoke or extension has no effect. *)
Lemma grant_Err env src a b t i d meta s e s' :
  grant_scene_authorization env src a b t i d meta s = (Err e, s') -> s' = s.
Proof.
  unfold grant_scene_authorization, put_authorizations, deposit_event. intros Hrun.
  m_err; done.
Qed.

Lemma revoke_Err src a b t i s e s' :
  revoke_scene_authorization src a b t i s = (Err e, s') -> s' = s.
Proof.
  unfold revoke_scene_authorization, put_authorizations, deposit_event. intros Hrun.
  m_err; done.
Qed.

Lemma extend_Err env src a b t i more s e s' :
  extend_scene_authorization env src a b t i more s = (Err e, s') -> s' = s.
Proof.
  unfold extend_scene_authorization, put_authorizations, deposit_event. intros Hrun.
  m_err; done.
Qed.

Lemma auth_change_refl s : auth_change s s.
Proof. split; [by split_and! | by left]. Qed.

Lemma auth_change_event s s' e :
  auth_change s s' -> auth_change s (s' <| events ::= fun l => l ++ [e] |>).
Proof. by intros []. Qed.

Lemma op_auth_change env op r s s' :
  env_ok env -> op_typed op -> apply_op env op s = (r, s') -> auth_change s s'.
Proof.
  intros Henv Hty. destruct op; simpl in *.
  - destruct r as [[] | e]; intros Hrun; [by eapply grant_auth_change |].
    apply grant_Err in Hrun as ->. apply auth_change_refl.
  - destruct r as [[] | e]; intros Hrun; [by eapply revoke_auth_change |].
    apply revoke_Err in Hrun as ->. apply auth_change_refl.
  - intros [= <- <-]. split; [by split_and! |]. right. eexists from, to, _. split; [| done].
    apply rewrites_shrink, list_sublist_filter.
  - destruct r as [[] | e]; intros Hrun; [| apply extend_Err in Hrun as ->; apply auth_change_refl].
    apply extend_Ok in Hrun as (Hrest & pos & auth & Hfind & Ha). split; [done |]. right.
    eexists from, to, _. split; [| done]. apply find_Some_key in Hfind as [Hpos Hkey].
    eapply rewrites_replace; [done | | | done]; [done |].
    intros (Hm & Hg & He). split_and!; simpl; [done | lia.. | |];
      destruct Henv as [Hb _]; unfold sat_add; destruct (expires_at auth); simpl; lia.
  - intros [= <- <-]. split; [by split_and! |]. right. eexists from, to, _. split; [| done].
    apply rewrites_shrink, list_sublist_filter.
  - unfold grant_scene_from_hook, grant_bidirectional_scene_authorization, bind, attempt.
    destruct (grant_scene_authorization _ _ _ _ _ _ _ _ s) as [[[] | e] s1] eqn:Hrun; simpl.
    + intros [= <- <-]. by eapply grant_auth_change.
    + apply grant_Err in Hrun as ->. intros [= <- <-]. apply auth_change_event, auth_change_refl.
  - unfold revoke_scene_from_hook, bind, attempt.
    destruct (revoke_scene_authorization _ _ _ _ _ s) as [[[] | e] s1] eqn:Hrun; simpl.
    + intros [= <- <-]. by eapply revoke_auth_change.
    + apply revoke_Err in Hrun as ->. intros [= <- <-]. apply auth_change_event, auth_change_refl.
Qed.

(** * The invariant *)

Record config_ok : Prop := {
  cfg_scenes : 0 <= MaxScenesPerPair cfg;
  cfg_reports : 0 <= MaxOpenReports cfg <= u32_max;
}.

Definition pair_ok (pair : AccountId * AccountId) (l : list SceneAuthorization) : Prop :=
  (pair.1 <= pair.2)%N /\ auths_ok l.

(** The open reports, as long as identifiers are not exhausted: the counter is
    their number and every identifier in use is below the next one. *)
Definition reports_ok (s : State) : Prop :=
  0 <= OpenReportCount s <= MaxOpenReports cfg /\ 0 <= NextReportId s <= u64_max /\
  (NextReportId s < u64_max ->
   OpenReportCount s = Z.of_nat (size (Reports s)) /\
   map_Forall (fun id _ => id < NextReportId s) (Reports s)).

Record inv (s : State) : Prop := {
  inv_auths : map_Forall pair_ok (SceneAuthorizations s);
  inv_reports : reports_ok s;
}.

Definition genesis : State := mkState ∅ ∅ ∅ 0 ∅ 0 ∅ ∅ [].

Lemma sorted_pair_comm a b : sorted_pair a b = sorted_pair b a.
Proof. unfold sorted_pair. repeat case_decide; try done; f_equal; lia. Qed.

Lemma sorted_pair_le a b : ((sorted_pair a b).1 <= (sorted_pair a b).2)%N.
Proof. unfold sorted_pair. case_decide; simpl; lia. Qed.

Lemma authorizations_comm s a b : authorizations s a b = authorizations s b a.
Proof. unfold authorizations. by rewrite sorted_pair_comm. Qed.

Lemma authorizations_ok s a b : config_ok -> inv s -> auths_ok (authorizations s a b).
Proof.
  intros Hcfg Hinv. unfold authorizations.
  destruct (SceneAuthorizations s !! sorted_pair a b) as [l |] eqn:Hl; simpl.
  - by apply (inv_auths s Hinv) in Hl as [_ ?].
  - split_and!; [constructor | apply Hcfg | constructor].
Qed.

Lemma auth_change_inv s s' : config_ok -> inv s -> auth_change s s' -> inv s'.
Proof.
  intros Hcfg Hinv [(_ & _ & _ & Hnext & Hrep & Hopen & _) Hch]. split.
  - destruct Hch as [-> | (a & b & l & Hrw & ->)]; [apply Hinv |].
    apply map_Forall_insert_2; [| apply Hinv]. split; [apply sorted_pair_le |].
    eapply rewrites_ok; [by apply authorizations_ok | done].
  - unfold reports_ok. rewrite Hnext, Hrep, Hopen. apply Hinv.
Qed.

Lemma report_inv env origin target reason s s' :
  config_ok -> inv s -> report env origin target reason s = (Ok tt, s') -> inv s'.
Proof.
  intros [_ Hmax] [Hauth (Hopen & Hnext & Hsize)] Hrun.
  unfold report, deposit_event in Hrun. m_inv; (split; [done |]); unfold reports_ok; simpl;
    (rewrite (sat_add_exact u32_max) by lia); unfold sat_add;
    (split; [lia |]; split; [lia |]; intros Hlt);
    destruct Hsize as [Hsize Hids]; try lia;
    assert (Reports s !! NextReportId s = None) as Hfresh by
      (destruct (Reports s !! NextReportId s) eqn:Hr; [apply Hids in Hr; lia | done]);
    (split; [rewrite map_size_insert_None by done; lia |]);
    (apply map_Forall_insert_2; [lia |]); intros id r Hr; apply Hids in Hr; lia.
Qed.

Lemma resolve_inv origin id upheld s s' :
  inv s -> resolve_report origin id upheld s = (Ok tt, s') -> inv s'.
Proof.
  intros [Hauth (Hopen & Hnext & Hsize)] Hrun. unfold resolve_report, deposit_event in Hrun.
  m_inv. split; [done |]. unfold reports_ok; simpl. unfold sat_sub.
  split; [lia |]. split; [done |]. intros Hlt. destruct (Hsize Hlt) as [-> Hids].
  split; [| by apply map_Forall_delete].
  match goal with H : is_Some _ |- _ => destruct H as [r Hr] end.
  rewrite map_size_delete, Hr. simpl.
  assert (size (Reports s) <> 0)%nat; [| lia].
  rewrite map_size_non_empty_iff. intros He. by rewrite He, lookup_empty in Hr.
Qed.

Lemma step_inv s s' : config_ok -> inv s -> step s s' -> inv s'.
Proof.
  intros Hcfg Hinv [env origin c r _ Hcall | env op r Henv Hty Hop].
  - apply transactional_cases in Hcall as [([] & -> & Hrun) | (e & -> & ->)]; [| done].
    destruct c; simpl in Hrun; try (by eapply report_inv); try (by eapply resolve_inv);
      unfold set_permission_level, set_rejected_scene_types, bump_capability_epoch,
        force_mute_account, force_unmute_account, deposit_event in Hrun;
      m_inv; by destruct Hinv.
  - apply op_auth_change in Hop; [by eapply auth_change_inv | done..].
Qed.

Lemma permission_reachable_inv s : config_ok -> rtc step genesis s -> inv s.
Proof.
  intros Hcfg Hrun. eapply (rtc_invariant step inv); [| | done].
  - intros s1 s2. by apply step_inv.
  - destruct Hcfg. split; [apply map_Forall_empty |]. unfold reports_ok; simpl.
    rewrite map_size_empty. unfold u64_max. split_and!; try lia.
    intros _. split; [done | apply map_Forall_empty].
Qed.

(** * Properties *)

Lemma check_scenes env s a b :
  is_account_muted env s a = false ->
  can_send_message env s a b = true <->
    (exists auth, auth ∈ authorizations s a b /\
       unexpired (block_number env) auth = true /\
       (scene_type auth ∉ rejected_scene_types (privacy_settings s b))) \/
    permission_level (privacy_settings s b) = Open.
Proof.
  intros Hmute. unfold can_send_message, check_permission. rewrite Hmute.
  match goal with |- context [scene_type <$> ?l] => set (valid := l) end.
  assert (forall auth, auth ∈ valid <-> auth ∈ authorizations s a b /\
    unexpired (block_number env) auth = true /\
    (scene_type auth ∉ rejected_scene_types (privacy_settings s b))) as Hvalid.
  { intros auth. unfold valid. rewrite list_elem_of_filter. unfold unexpired.
    destruct (expires_at auth) as [e |]; [case_decide |];
      rewrite ?bool_decide_eq_true; intuition (try lia; try done). }
  destruct valid as [| auth valid]; simpl.
  - split.
    + intros Hl. right. by destruct (permission_level _).
    + intros [(auth & Hauth) | ->]; [| done].
      apply Hvalid, elem_of_nil in Hauth. done.
  - split; [| done]. intros _. left. exists auth. apply Hvalid. left.
Qed.

(** C33: a message is let through exactly when the sender is not muted by the
    platform and either some unexpired authorization of the pair is of a type
    the receiver has not rejected, or the receiver is open to everyone; the
    mute comes first. *)
Theorem can_send_iff env s a b :
  (can_send_message env s a b = true <->
    is_account_muted env s a = false /\
    ((exists auth, auth ∈ authorizations s a b /\
        unexpired (block_number env) auth = true /\
        (scene_type auth ∉ rejected_scene_types (privacy_settings s b))) \/
     permission_level (privacy_settings s b) = Open)) /\
  (check_permission env s a b = DeniedSenderMuted <-> is_account_muted env s a = true).
Proof.
  destruct (is_account_muted env s a) eqn:Hmute.
  - unfold can_send_message, check_permission. rewrite Hmute. simpl.
    split; split; [done | by intros [? _] | done | done].
  - rewrite (check_scenes env s a b Hmute). split; [by split; [| intros [_ ?]] |].
    split; [| done]. unfold check_permission. rewrite Hmute.
    destruct (_ <$> _); [| done]. by destruct (permission_level _).
Qed.

Lemma authorizations_insert s s' a b l :
  SceneAuthorizations s' = <[sorted_pair a b := l]> (SceneAuthorizations s) ->
  authorizations s' a b = l.
Proof. unfold authorizations. intros ->. by rewrite lookup_insert_eq. Qed.

(** A successful grant lets both accounts message each other, in either
    direction, up to and including the block it expires at, unless the sender
    is muted or the receiver rejects that type of scene. *)
Theorem grant_opens_both_directions env env' src a b t i d meta s s' x y :
  grant_scene_authorization env src a b t i d meta s = (Ok tt, s') ->
  match d with Some d => block_number env' <= sat_add u32_max (block_number env) d | None => True end ->
  (x = a /\ y = b) \/ (x = b /\ y = a) ->
  is_account_muted env' s' x = false ->
  t ∉ rejected_scene_types (privacy_settings s' y) ->
  can_send_message env' s' x y = true.
Proof.
  intros Hrun Hd Hxy Hmute Hrej. apply grant_Ok in Hrun as (_ & _ & Ha & _).
  apply (check_scenes env' s' x y Hmute). left.
  set (new := mkSceneAuthorization _ _ _ _ _ _) in Ha. exists new.
  split; [| split; [| done]].
  - apply authorizations_insert in Ha.
    assert (new ∈ authorizations s' a b) as Hnew.
    { rewrite Ha. destruct (list_find _ _) as [[pos old] |] eqn:Hfind.
      - apply list_find_Some in Hfind as (Hpos & _). apply lookup_lt_Some in Hpos.
        by apply list_elem_of_insert.
      - apply elem_of_app. right. by left. }
    destruct Hxy as [[-> ->] | [-> ->]]; [done | by rewrite authorizations_comm].
  - unfold unexpired; simpl. destruct d; simpl; [by apply bool_decide_eq_true | done].
Qed.

(** A revoke, on distinct keys, takes out the authorization with its key and
    nothing else. *)
Lemma revoke_exact src a b t i s s' :
  NoDup (auth_key <$> authorizations s a b) ->
  revoke_scene_authorization src a b t i s = (Ok tt, s') ->
  (forall auth, auth ∈ authorizations s' a b <->
     auth ∈ authorizations s a b /\ ~ same_key src t i auth) /\
  (forall x y, sorted_pair x y <> sorted_pair a b -> authorizations s' x y = authorizations s x y).
Proof.
  intros Hnd Hrun. apply revoke_Ok in Hrun as (_ & pos & old & Hfind & Ha).
  apply find_Some_key in Hfind as [Hpos Hkey]. split.
  - rewrite (authorizations_insert s s' a b _ Ha). intros auth.
    rewrite same_key_auth_key, <- Hkey.
    pose proof (delete_Permutation _ _ _ Hpos) as Hperm.
    set (rest := delete pos _) in *. clearbody rest.
    rewrite Hperm in Hnd. apply NoDup_cons in Hnd as [Hnew _].
    rewrite Hperm, elem_of_cons. split.
    + intros Hin. split; [by right |]. intros Heq. apply Hnew. rewrite <- Heq.
      by apply list_elem_of_fmap_2.
    + by intros [[-> | Hin] Hne].
  - intros x y Hne. unfold authorizations. by rewrite Ha, lookup_insert_ne.
Qed.

(** After a successful revoke exactly the authorization with the given
    source, type and identifier is gone from the pair, and no other pair is
    touched: the keys of a reachable list are distinct, so nothing with the
    revoked key survives. *)
Theorem revoke_removes_exactly src a b t i s s' :
  config_ok -> rtc step genesis s ->
  revoke_scene_authorization src a b t i s = (Ok tt, s') ->
  (forall auth, auth ∈ authorizations s' a b <->
     auth ∈ authorizations s a b /\ ~ same_key src t i auth) /\
  (forall x y, sorted_pair x y <> sorted_pair a b -> authorizations s' x y = authorizations s x y).
Proof.
  intros Hcfg Hreach%permission_reachable_inv Hrun; [| done].
  pose proof (authorizations_ok s a b Hcfg Hreach) as (Hnd & _ & _). by apply revoke_exact.
Qed.

(** ** The hook bridges *)

Lemma sorted_pair_inj x y a b :
  sorted_pair x y = sorted_pair a b -> (x = a /\ y = b) \/ (x = b /\ y = a).
Proof. unfold sorted_pair. repeat case_decide; intros [= -> ->]; auto. Qed.

(** The entry a hook grants. *)
Definition hook_entry (env : Env) (src : bytes) (t : SceneType) (i : SceneId) : SceneAuthorization :=
  mkSceneAuthorization t i src (block_number env) None [].

(** A hook's grant leaves other pairs alone and adds at most its own entry; it is
    there afterwards unless the pair's list was full. *)
Lemma hook_grant env src a b t i s :
  let s' := (grant_scene_from_hook env src a b t i None [] s).2 in
  (forall x y, sorted_pair x y <> sorted_pair a b -> authorizations s' x y = authorizations s x y) /\
  (forall auth, auth ∈ authorizations s' a b ->
     auth ∈ authorizations s a b \/ auth = hook_entry env src t i) /\
  (Z.of_nat (length (authorizations s a b)) < MaxScenesPerPair cfg ->
   hook_entry env src t i ∈ authorizations s' a b).
Proof.
  unfold grant_scene_from_hook, grant_bidirectional_scene_authorization, bind, attempt. simpl.
  destruct (grant_scene_authorization _ _ _ _ _ _ _ _ s) as [[[] | e] s1] eqn:Hrun; simpl.
  - apply grant_Ok in Hrun as (_ & _ & Ha & _). simpl in Ha. fold (hook_entry env src t i) in Ha.
    split_and!.
    + intros x y Hne. unfold authorizations. by rewrite Ha, lookup_insert_ne.
    + rewrite (authorizations_insert s s1 a b _ Ha). intros auth.
      destruct (list_find _ _) as [[pos old] |]; [| rewrite elem_of_app, list_elem_of_singleton; done].
      intros [k Hk]%list_elem_of_lookup. apply list_lookup_insert_Some in Hk as [(_ & -> & _) | [_ Hk]];
        [by right | left; by eapply list_elem_of_lookup_2].
    + intros _. rewrite (authorizations_insert s s1 a b _ Ha).
      destruct (list_find _ _) as [[pos old] |] eqn:Hfind; [| rewrite elem_of_app; right; by left].
      apply list_find_Some in Hfind as (Hpos & _). apply lookup_lt_Some in Hpos.
      by apply list_elem_of_insert.
  - pose proof (grant_Err _ _ _ _ _ _ _ _ _ _ _ Hrun) as ->. split_and!; [done | by left |].
    intros Hroom. exfalso.
    unfold grant_scene_authorization, put_authorizations, deposit_event in Hrun.
    m_err; simpl in *; lia.
Qed.

(** A hook's revoke leaves other pairs alone and, on distinct keys, exactly the
    entries with other keys in its own, whether it found one or not. *)
Lemma hook_revoke src a b t i s :
  let s' := (revoke_scene_from_hook src a b t i s).2 in
  (forall x y, sorted_pair x y <> sorted_pair a b -> authorizations s' x y = authorizations s x y) /\
  (NoDup (auth_key <$> authorizations s a b) -> forall auth, auth ∈ authorizations s' a b <->
     auth ∈ authorizations s a b /\ ~ same_key src t i auth).
Proof.
  unfold revoke_scene_from_hook, bind, attempt. simpl.
  destruct (revoke_scene_authorization _ _ _ _ _ s) as [[[] | e] s1] eqn:Hrun; simpl.
  - split; [| intros Hnd; by apply revoke_exact].
    apply revoke_Ok in Hrun as (_ & pos & old & _ & Ha).
    intros x y Hne. unfold authorizations. by rewrite Ha, lookup_insert_ne.
  - pose proof (revoke_Err _ _ _ _ _ _ _ _ Hrun) as ->. split; [done |]. intros _ auth.
    split; [| by intros [? _]]. intros Hin. split; [done |].
    assert (list_find (same_key src t i) (authorizations s a b) = None) as Hnone.
    { unfold revoke_scene_authorization, put_authorizations, deposit_event in Hrun. by m_err. }
    apply list_find_None in Hnone. rewrite Forall_forall in Hnone. by apply Hnone.
Qed.

(** In every reachable state the pairs are stored under one ordering of
    their accounts, each list has at most the configured number of entries, no
    two with the same key and all in range, the open reports never exceed the
    cap and, until report identifiers run out, their counter is exact. *)
Theorem permission_invariant s : config_ok -> rtc step genesis s -> inv s.
Proof. apply permission_reachable_inv. Qed.

(** Extending a permanent authorization makes it expire. When it is the
    pair's only one, the pair is authorized in every later block before the
    extension, and in none past the new expiry after it. *)
Theorem extend_ends_permanent env env' src a b t i more s s' auth :
  authorizations s a b = [auth] -> expires_at auth = None ->
  extend_scene_authorization env src a b t i more s = (Ok tt, s') ->
  block_number env' > sat_add u32_max (block_number env) more ->
  has_any_valid_scene_authorization env' s a b = true /\
  has_any_valid_scene_authorization env' s' a b = false.
Proof.
  intros Hl Hperm Hrun Hlate. apply extend_Ok in Hrun as (_ & pos & old & Hfind & Ha).
  apply find_Some_key in Hfind as [Hpos _]. unfold has_any_valid_scene_authorization.
  rewrite (authorizations_insert s s' a b _ Ha). rewrite Hl in Hpos |- *.
  destruct pos; [| done]. simpl in Hpos. simplify_eq. simpl. unfold unexpired; simpl.
  rewrite Hperm. simpl. split; [done |].
  rewrite Z.max_id, bool_decide_eq_false_2 by lia. done.
Qed.
End Pallet.

(** * Concrete runs *)

Definition test_config : Config := mkConfig simple_system 3 (fun o => ensure_root o) 8 2 10.
Definition test_env (block : Z) : Env := mkEnv block 0 0 [].
Definition shop : bytes := literal "order/sh".

Definition op (block : Z) (o : ManagerOp) (s : State) : State :=
  (apply_op test_config (test_env block) o s).2.

Lemma op_step block o s :
  0 <= block <= u32_max -> op_typed o -> step test_config s (op block o s).
Proof.
  intros Hb Ho. apply (step_op _ _ _ (test_env block) o (apply_op test_config (test_env block) o s).1).
  - unfold env_ok, u64_max; simpl; lia.
  - done.
  - unfold op. by destruct (apply_op _ _ _ _).
Qed.

(** Two orders and a permanent group grant between accounts 1 and 2. *)
Definition granted : State :=
  op 12 (Grant shop 1 2 Order (Numeric 8) (Some 50) [])
    (op 11 (Grant shop 2 1 Group NoId None [])
      (op 10 (Grant shop 1 2 Order (Numeric 7) (Some 20) []) genesis)).

Lemma permission_test_config_ok : config_ok test_config.
Proof. split; simpl; unfold u32_max; lia. Qed.

Lemma granted_reach : rtc (step test_config) genesis granted.
Proof.
  eapply rtc_l; [| eapply rtc_l; [| eapply rtc_once]]; apply op_step; simpl; unfold u32_max; lia.
Qed.

Lemma grant_opens_both_directions_witness :
  let s := op 12 (Grant shop 1 2 Order (Numeric 8) (Some 50) []) genesis in
  can_send_message (test_env 62) s 2 1 = true /\ can_send_message (test_env 63) s 2 1 = false.
Proof.
  split; [| by vm_compute].
  eapply (grant_opens_both_directions test_config (test_env 12) (test_env 62) shop 1 2 Order
    (Numeric 8) (Some 50) [] genesis);
    [by vm_compute | by vm_compute | by right | by vm_compute | apply not_elem_of_nil].
Defined.

Lemma revoke_removes_exactly_witness :
  let s' := op 13 (Revoke shop 2 1 Order (Numeric 7)) granted in
  (forall auth, auth ∈ authorizations s' 2 1 <->
     auth ∈ authorizations granted 2 1 /\ ~ same_key shop Order (Numeric 7) auth) /\
  length (authorizations s' 2 1) = 2%nat.
Proof.
  split; [| by vm_compute].
  eapply (revoke_removes_exactly test_config shop 2 1 Order (Numeric 7) granted);
    [apply permission_test_config_ok | apply granted_reach | by vm_compute].
Defined.

Lemma permission_invariant_witness :
  inv test_config granted /\ length (authorizations granted 1 2) = 3%nat.
Proof.
  split; [| by vm_compute].
  apply (permission_invariant test_config); [apply permission_test_config_ok | apply granted_reach].
Defined.

Lemma extend_ends_permanent_witness :
  let s := op 11 (Grant shop 2 1 Group NoId None []) genesis in
  let s' := op 20 (Extend shop 1 2 Group NoId 5) s in
  has_any_valid_scene_authorization (test_env 26) s 1 2 = true /\
  has_any_valid_scene_authorization (test_env 26) s' 1 2 = false.
Proof.
  eapply (extend_ends_permanent (test_env 20) (test_env 26) shop 1 2 Group NoId 5 _ _
    (mkSceneAuthorization Group NoId shop 11 None [])); by vm_compute.
Defined.

End Permission.
