(* ===== verification/ChatGroup.v ===== *)
(** [pallet-chat-group] (src/pallets/chat/group/src/lib.rs): the on-chain anchor
    of MLS groups. The data, the twenty dispatchables with the helpers they
    share, and the reads. A group's storage is the row of each double map at its
    id. The hook that mirrors membership into the authorization layer and the
    platform-mute check are interfaces; ChatWiring.v implements them with
    [pallet-chat-permission]. The theorems are in GroupCommit.v (the commit),
    GroupRegistry.v (the invariant of the storage) and GroupDisband.v (the
    teardown). *)

From S2P Require Import Prelude Frame ChatCommon.

Module Group.

Definition MAX_DISBAND_ITEMS_PER_CALL : nat := 128.

Inductive MemberRole : Type := Owner | Admin | Member.

#[export] Instance member_role_eq_dec : EqDecision MemberRole.
Proof. solve_decision. Defined.

Record GroupMember : Type := mkGroupMember {
  role : MemberRole;
  joined_epoch : Z;
  joined_at : Z;
}.

#[export] Instance eta_member : Settable GroupMember := fun m =>
  mkGroupMember (role m) (joined_epoch m) (joined_at m).

Record MlsGroupState : Type := mkMlsGroupState {
  epoch : Z;
  tree_hash : Bytes32;
  confirmed_transcript_hash : Bytes32;
  group_info_cid : bytes;
  admin : AccountId;
  member_count : Z;
  cipher_suite : Z;
  is_public : bool;
}.

#[export] Instance eta_mls : Settable MlsGroupState := fun g =>
  mkMlsGroupState (epoch g) (tree_hash g) (confirmed_transcript_hash g) (group_info_cid g)
    (admin g) (member_count g) (cipher_suite g) (is_public g).

Record GroupProfile : Type := mkGroupProfile {
  name : bytes;
  avatar_cid : bytes;
  announcement : bytes;
}.

#[export] Instance eta_profile : Settable GroupProfile := fun p =>
  mkGroupProfile (name p) (avatar_cid p) (announcement p).

Definition default_profile : GroupProfile := mkGroupProfile [] [] [].

Record MemberDelta : Type := mkMemberDelta {
  added : list AccountId;
  removed : list AccountId;
}.

Inductive Event : Type :=
| KeyPackagePublished (who : AccountId) (id : Z)
| KeyPackageRevoked (who : AccountId) (id : Z)
| GroupCreated (group_id : Z) (creator : AccountId) (epoch : Z)
| Committed (group_id epoch : Z) (committer : AccountId)
| MemberJoined (group_id : Z) (member : AccountId) (epoch : Z)
| MemberRemoved (group_id : Z) (member : AccountId) (epoch : Z)
| WelcomeClaimed (group_id : Z) (who : AccountId)
| GroupDisbanded (group_id : Z)
| GroupDisbandProgress (group_id : Z)
| MessageDigestAnchored (group_id batch_seq epoch : Z)
| JoinRequested (group_id : Z) (who : AccountId)
| JoinRequestCancelled (group_id : Z) (who : AccountId)
| JoinApproved (group_id : Z) (who by_ : AccountId)
| OwnershipTransferred (group_id : Z) (from to : AccountId)
| AdminSet (group_id : Z) (who : AccountId) (on : bool)
| GroupProfileUpdated (group_id : Z) (by_ : AccountId)
| MemberNicknameSet (group_id : Z) (who : AccountId)
| MemberBanned (group_id : Z) (who by_ : AccountId)
| MemberUnbanned (group_id : Z) (who by_ : AccountId)
| MemberMuted (group_id : Z) (who : AccountId) (until : Z) (by_ : AccountId)
| MemberUnmuted (group_id : Z) (who by_ : AccountId)
| GroupMuteAllSet (group_id : Z) (on : bool) (by_ : AccountId)
| GroupForceDisbanded (group_id : Z)
| GroupFrozenSet (group_id : Z) (frozen : bool).

Inductive Error : Type :=
| GroupNotFound | NotMember | AlreadyMember | GroupFull | UserGroupLimitExceeded | EpochStale
| NotAuthorized | NotGroupOwner | KeyPackageNotFound | TooManyKeyPackages | WelcomeNotFound
| BadMemberDelta | TooLong | GroupIdOverflow | CreationCooldown | PublicGroupNoApproval
| AlreadyRequested | JoinRequestNotFound | TooManyPendingJoins | NotApproved | AddeeNotJoinable
| TargetNotMember | MustTransferFirst | CannotTargetSelf | AlreadyBanned | NotBanned
| IsBanned (** [Error::Banned] *)
| InvalidMuteExpiry | RateLimited
| IsFrozen (** [Error::GroupFrozen] *)
| WelcomeMismatch | TwoMemberGroupForbidden | SenderPlatformMuted.

Record Config `{FrameSystem} : Type := mkConfig {
  GroupDeposit : Z;
  KeyPackageDeposit : Z;
  MaxPendingJoins : Z;
  MaxGroupMembers : Z;
  MaxGroupsPerUser : Z;
  MaxKeyPackageLen : Z;
  MaxHandshakeLen : Z;
  MaxWelcomeLen : Z;
  MaxCidLen : Z;
  MaxGroupNameLen : Z;
  MaxGroupAnnouncementLen : Z;
  MaxGroupNicknameLen : Z;
  MaxKeyPackagesPerUser : Z;
  GroupCreationCooldown : Z;
  MlsActionWindow : Z;
  MaxMlsActionsPerWindow : Z;
  JoinRequestWindow : Z;
  MaxJoinRequestsPerWindow : Z;
  GovernanceOrigin : Origin -> bool;
}.

(** * Interfaces

    [P] is the state of the authorization layer. *)

Class GroupChatHook (P : Type) : Type := {
  on_member_added (env : Env) (group_id : Z) (member counterparty : AccountId) (p : P) : P;
  on_member_removed (env : Env) (group_id : Z) (member counterparty : AccountId) (p : P) : P;
}.

Class PlatformMuteChecker (P : Type) : Type := {
  is_platform_muted (env : Env) (who : AccountId) (p : P) : bool;
}.

(** * State *)

Record State {L P : Type} : Type := mkState {
  KeyPackages : gmap AccountId (gmap Z bytes);
  NextKeyPackageId : gmap AccountId Z;
  KeyPackageCount : gmap AccountId Z;
  GroupMls : gmap Z MlsGroupState;
  NextGroupId : Z;
  HandshakeLog : gmap Z (gmap Z bytes);
  WelcomeMailbox : gmap Z (gmap AccountId bytes);
  GroupMembers : gmap Z (gmap AccountId GroupMember);
  UserGroups : gmap AccountId (list Z);
  LastGroupCreation : gmap AccountId Z;
  MlsActionRate : gmap AccountId RateLimit.RateLimitState;
  JoinRequestRate : gmap AccountId RateLimit.RateLimitState;
  GroupFrozen : gmap Z unit;
  GroupDepositOf : gmap Z (AccountId * Z);
  JoinRequests : gmap Z (gmap AccountId Z);
  PendingJoinCount : gmap Z Z;
  JoinApprovals : gmap Z (gmap AccountId Z);
  MessageDigestAnchor : gmap Z (gmap Z (Bytes32 * Z * Z));
  GroupProfiles : gmap Z GroupProfile;
  GroupNicknames : gmap Z (gmap AccountId bytes);
  Banned : gmap Z (gmap AccountId Z);
  MemberMutedUntil : gmap Z (gmap AccountId Z);
  GroupMutedAll : gmap Z bool;
  permission : P;
  ledger : L;
  events : list Event;
}.
Arguments State : clear implicits.

#[export] Instance eta_state {L P} : Settable (State L P) := fun s =>
  mkState L P (KeyPackages s) (NextKeyPackageId s) (KeyPackageCount s) (GroupMls s)
    (NextGroupId s) (HandshakeLog s) (WelcomeMailbox s) (GroupMembers s) (UserGroups s)
    (LastGroupCreation s) (MlsActionRate s) (JoinRequestRate s) (GroupFrozen s)
    (GroupDepositOf s) (JoinRequests s) (PendingJoinCount s) (JoinApprovals s)
    (MessageDigestAnchor s) (GroupProfiles s) (GroupNicknames s) (Banned s)
    (MemberMutedUntil s) (GroupMutedAll s) (permission s) (ledger s) (events s).

#[export] Instance ledger_in {L P} : LedgerIn (State L P) L := {|
  ledger_of := ledger;
  with_ledger l s := s <| ledger := l |>;
|}.

Section Pallet.
Context `{FrameSystem} {L P : Type} `{ReservableCurrency L} `{PrefixStorage}.
Context `{GroupChatHook P} `{PlatformMuteChecker P} (cfg : Config).

Abbreviation Call_ := (M (State L P) (DispatchError Error) unit).

Definition deposit_event (e : Event) : Call_ :=
  modify (fun s => s <| events ::= fun l => l ++ [e] |>).

(** The rows of a group. *)
Definition members (s : State L P) (group_id : Z) : gmap AccountId GroupMember :=
  prefix (GroupMembers s) group_id.

Definition user_groups (s : State L P) (who : AccountId) : list Z := default [] (UserGroups s !! who).

Definition len {A} (l : list A) : Z := Z.of_nat (length l).

(** [try_into] of a [BoundedVec] of [bound] bytes. *)
Definition bounded (bound : Z) (b : bytes) : M (State L P) (DispatchError Error) bytes :=
  ensure (len b <= bound) (Module TooLong) >> ret b.

(** * Helpers *)

Definition block_u32 (n : Z) : Z := Z.min u32_max n.

Definition ensure_sender_not_platform_muted (env : Env) (who : AccountId) : Call_ :=
  let! p := gets permission in
  ensure (is_platform_muted env who p = false) (Module SenderPlatformMuted).

Definition ensure_not_frozen (group_id : Z) : Call_ :=
  let! frozen := gets GroupFrozen in
  ensure (frozen !! group_id = None) (Module IsFrozen).

(** How many Welcomes are addressed to [acct], none of them empty. *)
Fixpoint match_welcomes (acct : AccountId) (welcomes : list (AccountId * bytes)) (matched : Z)
    : M (State L P) (DispatchError Error) Z :=
  match welcomes with
  | [] => ret matched
  | (w_acct, w_bytes) :: rest =>
      if decide (w_acct = acct) then
        ensure (w_bytes <> []) (Module WelcomeMismatch) >>
        match_welcomes acct rest (sat_add u32_max matched 1)
      else match_welcomes acct rest matched
  end.

Definition ensure_welcomes_match_added (added : list AccountId)
    (welcomes : list (AccountId * bytes)) : Call_ :=
  ensure (length welcomes = length added) (Module WelcomeMismatch) >>
  for_each added (fun acct =>
    let! matched := match_welcomes acct welcomes 0 in
    ensure (matched = 1) (Module WelcomeMismatch)) >>
  for_each welcomes (fun w => ensure (w.1 ∈ added) (Module WelcomeMismatch)).

(** [l[i] != l[j]] for every [i < j], and every element of [l] differs from
    those of [others]. *)
Fixpoint distinct_from (l others : list AccountId) : Call_ :=
  match l with
  | [] => ret tt
  | x :: rest =>
      for_each rest (fun y => ensure (x <> y) (Module BadMemberDelta)) >>
      for_each others (fun y => ensure (x <> y) (Module BadMemberDelta)) >>
      distinct_from rest others
  end.

Definition ensure_member_delta_unique (d : MemberDelta) : Call_ :=
  distinct_from (added d) (removed d) >> distinct_from (removed d) [].

Definition note_mls_action (env : Env) (who : AccountId) : Call_ :=
  let! rates := gets MlsActionRate in
  let '(state, res) := RateLimit.check_and_update_rate_limit
    (default RateLimit.default_state (rates !! who)) (block_number env)
    (MlsActionWindow cfg) (MaxMlsActionsPerWindow cfg) in
  ensure (RateLimit.is_allowed res = true) (Module RateLimited) >>
  modify (fun s => s <| MlsActionRate ::= <[who := state]> |>).

Definition note_join_request (env : Env) (who : AccountId) : Call_ :=
  let! rates := gets JoinRequestRate in
  let '(state, res) := RateLimit.check_and_update_rate_limit
    (default RateLimit.default_state (rates !! who)) (block_number env)
    (JoinRequestWindow cfg) (MaxJoinRequestsPerWindow cfg) in
  ensure (RateLimit.is_allowed res = true) (Module RateLimited) >>
  modify (fun s => s <| JoinRequestRate ::= <[who := state]> |>).

Definition is_owner_or_admin (m : GroupMember) : Prop := role m = Owner \/ role m = Admin.

#[export] Instance is_owner_or_admin_dec m : Decision (is_owner_or_admin m).
Proof. unfold is_owner_or_admin. apply _. Defined.

Definition ensure_owner_or_admin (group_id : Z) (who : AccountId) : Call_ :=
  let! s := gets id in
  let! m := ok_or (members s group_id !! who) (Module NotMember) in
  ensure (is_owner_or_admin m) (Module NotAuthorized).

Definition user_groups_add (who : AccountId) (group_id : Z) : Call_ :=
  let! groups := gets (fun s => user_groups s who) in
  if decide (group_id ∈ groups) then ret tt else
  ensure (len groups < MaxGroupsPerUser cfg) (Module UserGroupLimitExceeded) >>
  modify (fun s => s <| UserGroups ::= <[who := groups ++ [group_id]]> |>).

Definition user_groups_remove (who : AccountId) (group_id : Z) : Call_ :=
  modify (fun s => s <| UserGroups ::=
    <[who := filter (fun g => g <> group_id) (user_groups s who)]> |>).

Definition clear_join_state (group_id : Z) (who : AccountId) : Call_ :=
  modify (fun s => s <| JoinApprovals ::= drem group_id who |>) >>
  let! request := gets (fun s => dget (JoinRequests s) group_id who) in
  modify (fun s => s <| JoinRequests ::= drem group_id who |>) >>
  match request with
  | Some _ => modify (fun s => s <| PendingJoinCount ::=
      fun m => <[group_id := sat_sub (get0 m group_id) 1]> m |>)
  | None => ret tt
  end.

Definition hook_added (env : Env) (group_id : Z) (member counterparty : AccountId) : Call_ :=
  modify (fun s => s <| permission ::= on_member_added env group_id member counterparty |>).

Definition hook_removed (env : Env) (group_id : Z) (member counterparty : AccountId) : Call_ :=
  modify (fun s => s <| permission ::= on_member_removed env group_id member counterparty |>).

Definition get_group (group_id : Z) : M (State L P) (DispatchError Error) MlsGroupState :=
  let! groups := gets GroupMls in
  ok_or (groups !! group_id) (Module GroupNotFound).

(** * Key packages *)

Definition publish_key_package (env : Env) (origin : Origin) (kp_bytes : bytes) : Call_ :=
  let! who := ok_or (ensure_signed origin) BadOrigin in
  ensure_sender_not_platform_muted env who >>
  let! blob := bounded (MaxKeyPackageLen cfg) kp_bytes in
  let! count := gets (fun s => get0 (KeyPackageCount s) who) in
  ensure (count < MaxKeyPackagesPerUser cfg) (Module TooManyKeyPackages) >>
  reserve_deposit who (KeyPackageDeposit cfg) >>
  let! kp_id := gets (fun s => get0 (NextKeyPackageId s) who) in
  modify (fun s => s <| KeyPackages ::= dset who kp_id blob |>) >>
  modify (fun s => s <| NextKeyPackageId ::= <[who := sat_add u64_max kp_id 1]> |>) >>
  modify (fun s => s <| KeyPackageCount ::= <[who := sat_add u32_max count 1]> |>) >>
  deposit_event (KeyPackagePublished who kp_id).

Definition revoke_key_package (origin : Origin) (kp_id : Z) : Call_ :=
  let! who := ok_or (ensure_signed origin) BadOrigin in
  let! packages := gets KeyPackages in
  ensure (is_Some (dget packages who kp_id)) (Module KeyPackageNotFound) >>
  modify (fun s => s <| KeyPackages ::= drem who kp_id |>) >>
  modify (fun s => s <| KeyPackageCount ::= fun m => <[who := sat_sub (get0 m who) 1]> m |>) >>
  unreserve_deposit who (KeyPackageDeposit cfg) >>
  deposit_event (KeyPackageRevoked who kp_id).

(** * Creating a group *)

Definition create_group (env : Env) (origin : Origin) (init_group_info_cid : bytes)
    (cipher_suite : Z) (is_public : bool) (tree_hash transcript_hash : Bytes32) : Call_ :=
  let! who := ok_or (ensure_signed origin) BadOrigin in
  ensure_sender_not_platform_muted env who >>
  let now := block_number env in
  let! last := gets (fun s => get0 (LastGroupCreation s) who) in
  (if decide (last <> 0)
   then ensure (RateLimit.min_blocks_elapsed last now (GroupCreationCooldown cfg) = true)
     (Module CreationCooldown)
   else ret tt) >>
  let! groups := gets (fun s => user_groups s who) in
  ensure (len groups < MaxGroupsPerUser cfg) (Module UserGroupLimitExceeded) >>
  let! cid := bounded (MaxCidLen cfg) init_group_info_cid in
  reserve_deposit who (GroupDeposit cfg) >>
  let! group_id := gets NextGroupId in
  ensure (group_id + 1 <= u64_max) (Module GroupIdOverflow) >>
  modify (fun s => s <| NextGroupId := group_id + 1 |>) >>
  modify (fun s => s <| GroupDepositOf ::= <[group_id := (who, GroupDeposit cfg)]> |>) >>
  let state := mkMlsGroupState 0 tree_hash transcript_hash cid who 1 cipher_suite is_public in
  modify (fun s => s <| GroupMls ::= <[group_id := state]> |>) >>
  modify (fun s => s <| GroupMembers ::=
    dset group_id who (mkGroupMember Owner 0 (block_u32 now)) |>) >>
  user_groups_add who group_id >>
  modify (fun s => s <| LastGroupCreation ::= <[who := now]> |>) >>
  deposit_event (GroupCreated group_id who 0).

(** * The commit *)

(** Leaving alone is for everyone but the owner; touching others takes a role. *)
Definition check_committer (who : AccountId) (g : MlsGroupState) (committer : GroupMember)
    (d : MemberDelta) : Call_ :=
  if decide (added d = [] /\ removed d = [who]) then
    ensure (who <> admin g) (Module MustTransferFirst)
  else if decide (added d <> [] \/ Exists (fun a => a <> who) (removed d)) then
    ensure (is_owner_or_admin committer) (Module NotAuthorized)
  else ret tt.

Definition check_added (group_id : Z) (g : MlsGroupState) (acct : AccountId) : Call_ :=
  let! s := gets id in
  ensure (members s group_id !! acct = None) (Module AlreadyMember) >>
  ensure (dget (Banned s) group_id acct = None) (Module IsBanned) >>
  ensure (get0 (KeyPackageCount s) acct > 0) (Module AddeeNotJoinable) >>
  (if is_public g then ret tt
   else ensure (is_Some (dget (JoinApprovals s) group_id acct)) (Module NotApproved)).

Definition check_removed (group_id : Z) (g : MlsGroupState) (acct : AccountId) : Call_ :=
  let! s := gets id in
  ensure (is_Some (members s group_id !! acct)) (Module NotMember) >>
  ensure (acct <> admin g) (Module BadMemberDelta).

Definition add_member (env : Env) (group_id : Z) (g : MlsGroupState) (new_epoch joined_at : Z)
    (acct : AccountId) : Call_ :=
  modify (fun s => s <| GroupMembers ::=
    dset group_id acct (mkGroupMember Member new_epoch joined_at) |>) >>
  user_groups_add acct group_id >>
  clear_join_state group_id acct >>
  hook_added env group_id acct (admin g) >>
  deposit_event (MemberJoined group_id acct new_epoch).

Definition remove_member (env : Env) (group_id : Z) (g : MlsGroupState) (new_epoch : Z)
    (acct : AccountId) : Call_ :=
  modify (fun s => s <| GroupMembers ::= drem group_id acct |>) >>
  modify (fun s => s <| WelcomeMailbox ::= drem group_id acct |>) >>
  modify (fun s => s <| GroupNicknames ::= drem group_id acct |>) >>
  modify (fun s => s <| MemberMutedUntil ::= drem group_id acct |>) >>
  user_groups_remove acct group_id >>
  hook_removed env group_id acct (admin g) >>
  deposit_event (MemberRemoved group_id acct new_epoch).

Definition deliver_welcome (group_id : Z) (w : AccountId * bytes) : Call_ :=
  let! wb := bounded (MaxWelcomeLen cfg) w.2 in
  modify (fun s => s <| WelcomeMailbox ::= dset group_id w.1 wb |>).

Definition commit (env : Env) (origin : Origin) (group_id expected_epoch : Z)
    (commit_bytes : bytes) (new_tree_hash new_transcript_hash : Bytes32)
    (new_group_info_cid : bytes) (welcomes : list (AccountId * bytes)) (d : MemberDelta) : Call_ :=
  let! who := ok_or (ensure_signed origin) BadOrigin in
  ensure_sender_not_platform_muted env who >>
  ensure_not_frozen group_id >>
  let! g := get_group group_id in
  ensure (epoch g = expected_epoch) (Module EpochStale) >>
  let! rows := gets (fun s => members s group_id) in
  let! committer := ok_or (rows !! who) (Module NotMember) in
  check_committer who g committer d >>
  ensure_member_delta_unique d >>
  let new_epoch := sat_add u64_max (epoch g) 1 in
  let joined_at := block_u32 (block_number env) in
  for_each (added d) (check_added group_id g) >>
  ensure_welcomes_match_added (added d) welcomes >>
  for_each (removed d) (check_removed group_id g) >>
  let new_count := sat_sub (sat_add u32_max (member_count g) (len (added d))) (len (removed d)) in
  ensure (new_count <= MaxGroupMembers cfg) (Module GroupFull) >>
  ensure (new_count <> 2) (Module TwoMemberGroupForbidden) >>
  note_mls_action env who >>
  for_each (added d) (add_member env group_id g new_epoch joined_at) >>
  for_each (removed d) (remove_member env group_id g new_epoch) >>
  let! cid := bounded (MaxCidLen cfg) new_group_info_cid in
  modify (fun s => s <| GroupMls ::= <[group_id :=
    g <| epoch := new_epoch |> <| tree_hash := new_tree_hash |>
      <| confirmed_transcript_hash := new_transcript_hash |> <| group_info_cid := cid |>
      <| member_count := new_count |>]> |>) >>
  let! commit_blob := bounded (MaxHandshakeLen cfg) commit_bytes in
  modify (fun s => s <| HandshakeLog ::= dset group_id new_epoch commit_blob |>) >>
  for_each welcomes (deliver_welcome group_id) >>
  deposit_event (Committed group_id new_epoch who).

Definition claim_welcome (origin : Origin) (group_id : Z) : Call_ :=
  let! who := ok_or (ensure_signed origin) BadOrigin in
  let! mailbox := gets WelcomeMailbox in
  ensure (is_Some (dget mailbox group_id who)) (Module WelcomeNotFound) >>
  modify (fun s => s <| WelcomeMailbox ::= drem group_id who |>) >>
  deposit_event (WelcomeClaimed group_id who).

(** * Tearing a group down *)

(** [XMap::clear_prefix(group_id, budget, None)]. *)
Definition clear_prefix {K V} `{Countable K} (group_id : Z) (m : gmap Z (gmap K V))
    : gmap Z (gmap K V) * bool :=
  let '(row, cursor) := clear_row MAX_DISBAND_ITEMS_PER_CALL (prefix m group_id) in
  (<[group_id := row]> m, cursor).

Definition evict_member (env : Env) (group_id : Z) (admin_ : option AccountId)
    (acct : AccountId) : Call_ :=
  user_groups_remove acct group_id >>
  match admin_ with
  | Some a => if decide (acct <> a) then hook_removed env group_id acct a else ret tt
  | None => ret tt
  end >>
  modify (fun s => s <| GroupMembers ::= drem group_id acct |>).

(** The bounded clearing of the other rows; whether one of them is left over. *)
Definition clear_rows (group_id : Z) : M (State L P) (DispatchError Error) bool := fun s =>
  let '(hand, c1) := clear_prefix group_id (HandshakeLog s) in
  let '(welc, c2) := clear_prefix group_id (WelcomeMailbox s) in
  let '(dig, c3) := clear_prefix group_id (MessageDigestAnchor s) in
  let '(jreq, c4) := clear_prefix group_id (JoinRequests s) in
  let '(japp, c5) := clear_prefix group_id (JoinApprovals s) in
  let '(nick, c6) := clear_prefix group_id (GroupNicknames s) in
  let '(ban, c7) := clear_prefix group_id (Banned s) in
  let '(mute, c8) := clear_prefix group_id (MemberMutedUntil s) in
  (Ok (c1 || c2 || c3 || c4 || c5 || c6 || c7 || c8),
   s <| HandshakeLog := hand |> <| WelcomeMailbox := welc |> <| MessageDigestAnchor := dig |>
     <| JoinRequests := jreq |> <| JoinApprovals := japp |> <| GroupNicknames := nick |>
     <| Banned := ban |> <| MemberMutedUntil := mute |>).

Definition finish_disband (group_id : Z) : Call_ :=
  modify (fun s => s <| GroupProfiles ::= delete group_id |>) >>
  modify (fun s => s <| GroupMutedAll ::= delete group_id |>) >>
  modify (fun s => s <| PendingJoinCount ::= delete group_id |>) >>
  modify (fun s => s <| GroupFrozen ::= delete group_id |>) >>
  let! deposits := gets GroupDepositOf in
  modify (fun s => s <| GroupDepositOf ::= delete group_id |>) >>
  match deposits !! group_id with
  | Some (depositor, amount) => unreserve_deposit depositor amount
  | None => ret tt
  end >>
  modify (fun s => s <| GroupMls ::= delete group_id |>) >>
  deposit_event (GroupDisbanded group_id).

(** Each of at most [MAX_DISBAND_ITEMS_PER_CALL] members is handled once. *)
Definition evict_members (env : Env) (group_id : Z) (admin_ : option AccountId) : Call_ :=
  let! evicted := gets (fun s => take MAX_DISBAND_ITEMS_PER_CALL (iter_keys (members s group_id))) in
  for_each evicted (evict_member env group_id admin_) >>
  (if decide (evicted <> []) then
     modify (fun s => s <| GroupMls ::= alter (fun g => g <| member_count ::=
       fun c => sat_sub c (len evicted) |>) group_id |>)
   else ret tt).

Definition do_disband (env : Env) (group_id : Z) : M (State L P) (DispatchError Error) bool :=
  let! groups := gets GroupMls in
  modify (fun s => s <| GroupFrozen ::= <[group_id := tt]> |>) >>
  evict_members env group_id (admin <$> groups !! group_id) >>
  let! cursor := clear_rows group_id in
  let! members_left := gets (fun s => bool_decide (members s group_id <> ∅)) in
  if (members_left || cursor : bool) then
    deposit_event (GroupDisbandProgress group_id) >> ret false
  else finish_disband group_id >> ret true.

Definition disband_group (env : Env) (origin : Origin) (group_id : Z) : Call_ :=
  let! who := ok_or (ensure_signed origin) BadOrigin in
  let! g := get_group group_id in
  ensure (admin g = who) (Module NotGroupOwner) >>
  let! _ := do_disband env group_id in
  ret tt.

Definition anchor_message_digest (env : Env) (origin : Origin) (group_id batch_seq : Z)
    (digest : Bytes32) (epoch_ : Z) : Call_ :=
  let! who := ok_or (ensure_signed origin) BadOrigin in
  ensure_sender_not_platform_muted env who >>
  ensure_not_frozen group_id >>
  let! g := get_group group_id in
  ensure (epoch g = epoch_) (Module EpochStale) >>
  ensure_owner_or_admin group_id who >>
  note_mls_action env who >>
  modify (fun s => s <| MessageDigestAnchor ::=
    dset group_id batch_seq (digest, epoch_, block_number env) |>) >>
  deposit_event (MessageDigestAnchored group_id batch_seq epoch_).

(** * Joining *)

Definition request_join (env : Env) (origin : Origin) (group_id : Z) : Call_ :=
  let! who := ok_or (ensure_signed origin) BadOrigin in
  ensure_sender_not_platform_muted env who >>
  ensure_not_frozen group_id >>
  let! g := get_group group_id in
  ensure (is_public g = false) (Module PublicGroupNoApproval) >>
  let! s := gets id in
  ensure (members s group_id !! who = None) (Module AlreadyMember) >>
  ensure (dget (Banned s) group_id who = None) (Module IsBanned) >>
  ensure (dget (JoinRequests s) group_id who = None) (Module AlreadyRequested) >>
  let cnt := get0 (PendingJoinCount s) group_id in
  ensure (cnt < MaxPendingJoins cfg) (Module TooManyPendingJoins) >>
  note_join_request env who >>
  modify (fun s => s <| JoinRequests ::= dset group_id who (block_number env) |>) >>
  modify (fun s => s <| PendingJoinCount ::= <[group_id := sat_add u32_max cnt 1]> |>) >>
  deposit_event (JoinRequested group_id who).

Definition cancel_join_request (origin : Origin) (group_id : Z) : Call_ :=
  let! who := ok_or (ensure_signed origin) BadOrigin in
  let! requests := gets JoinRequests in
  ensure (is_Some (dget requests group_id who)) (Module JoinRequestNotFound) >>
  clear_join_state group_id who >>
  deposit_event (JoinRequestCancelled group_id who).

Definition approve_join (env : Env) (origin : Origin) (group_id : Z) (who : AccountId) : Call_ :=
  let! by_ := ok_or (ensure_signed origin) BadOrigin in
  ensure_sender_not_platform_muted env by_ >>
  ensure_not_frozen group_id >>
  let! _ := get_group group_id in
  ensure_owner_or_admin group_id by_ >>
  let! s := gets id in
  ensure (is_Some (dget (JoinRequests s) group_id who)) (Module JoinRequestNotFound) >>
  ensure (members s group_id !! who = None) (Module AlreadyMember) >>
  ensure (dget (Banned s) group_id who = None) (Module IsBanned) >>
  modify (fun s => s <| JoinApprovals ::= dset group_id who (block_number env) |>) >>
  deposit_event (JoinApproved group_id who by_).

(** * Roles *)

Definition rebind (env : Env) (group_id : Z) (who to member : AccountId) : Call_ :=
  if decide (member = to) then ret tt else
  (if decide (member <> who) then hook_removed env group_id member who else ret tt) >>
  hook_added env group_id member to.

Definition transfer_ownership (env : Env) (origin : Origin) (group_id : Z) (to : AccountId)
    : Call_ :=
  let! who := ok_or (ensure_signed origin) BadOrigin in
  let! g := get_group group_id in
  ensure (admin g = who) (Module NotGroupOwner) >>
  ensure (to <> who) (Module CannotTargetSelf) >>
  let! rows := gets (fun s => members s group_id) in
  let! target := ok_or (rows !! to) (Module TargetNotMember) in
  let! old := ok_or (rows !! who) (Module NotMember) in
  modify (fun s => s <| GroupMembers ::= dset group_id who (old <| role := Admin |>) |>) >>
  modify (fun s => s <| GroupMembers ::= dset group_id to (target <| role := Owner |>) |>) >>
  modify (fun s => s <| GroupMls ::= <[group_id := g <| admin := to |>]> |>) >>
  let! keys := gets (fun s => iter_keys (members s group_id)) in
  for_each keys (rebind env group_id who to) >>
  deposit_event (OwnershipTransferred group_id who to).

Definition set_admin (origin : Origin) (group_id : Z) (who : AccountId) (on : bool) : Call_ :=
  let! owner := ok_or (ensure_signed origin) BadOrigin in
  let! g := get_group group_id in
  ensure (admin g = owner) (Module NotGroupOwner) >>
  ensure (who <> owner) (Module CannotTargetSelf) >>
  let! rows := gets (fun s => members s group_id) in
  let! m := ok_or (rows !! who) (Module TargetNotMember) in
  ensure (role m <> Owner) (Module BadMemberDelta) >>
  modify (fun s => s <| GroupMembers ::=
    dset group_id who (m <| role := if on then Admin else Member |>) |>) >>
  deposit_event (AdminSet group_id who on).

(** * Profile, nicknames, bans, mutes *)

Definition bounded_or (bound : Z) (b : option bytes) (old : bytes)
    : M (State L P) (DispatchError Error) bytes :=
  match b with Some b => bounded bound b | None => ret old end.

Definition set_group_profile (origin : Origin) (group_id : Z)
    (name_ avatar_cid_ announcement_ : option bytes) : Call_ :=
  let! who := ok_or (ensure_signed origin) BadOrigin in
  ensure_owner_or_admin group_id who >>
  let! profile := gets (fun s => default default_profile (GroupProfiles s !! group_id)) in
  let! n := bounded_or (MaxGroupNameLen cfg) name_ (name profile) in
  let! c := bounded_or (MaxCidLen cfg) avatar_cid_ (avatar_cid profile) in
  let! a := bounded_or (MaxGroupAnnouncementLen cfg) announcement_ (announcement profile) in
  modify (fun s => s <| GroupProfiles ::= <[group_id := mkGroupProfile n c a]> |>) >>
  deposit_event (GroupProfileUpdated group_id who).

Definition set_group_nickname (origin : Origin) (group_id : Z) (nickname : option bytes) : Call_ :=
  let! who := ok_or (ensure_signed origin) BadOrigin in
  let! rows := gets (fun s => members s group_id) in
  ensure (is_Some (rows !! who)) (Module NotMember) >>
  match nickname with
  | Some nick =>
      let! b := bounded (MaxGroupNicknameLen cfg) nick in
      modify (fun s => s <| GroupNicknames ::= dset group_id who b |>)
  | None => modify (fun s => s <| GroupNicknames ::= drem group_id who |>)
  end >>
  deposit_event (MemberNicknameSet group_id who).

Definition ban_member (env : Env) (origin : Origin) (group_id : Z) (who : AccountId) : Call_ :=
  let! by_ := ok_or (ensure_signed origin) BadOrigin in
  let! g := get_group group_id in
  ensure_owner_or_admin group_id by_ >>
  ensure (who <> by_) (Module CannotTargetSelf) >>
  ensure (who <> admin g) (Module NotAuthorized) >>
  let! banned := gets Banned in
  ensure (dget banned group_id who = None) (Module AlreadyBanned) >>
  modify (fun s => s <| Banned ::= dset group_id who (block_number env) |>) >>
  clear_join_state group_id who >>
  deposit_event (MemberBanned group_id who by_).

Definition unban_member (origin : Origin) (group_id : Z) (who : AccountId) : Call_ :=
  let! by_ := ok_or (ensure_signed origin) BadOrigin in
  let! _ := get_group group_id in
  ensure_owner_or_admin group_id by_ >>
  let! banned := gets Banned in
  ensure (is_Some (dget banned group_id who)) (Module NotBanned) >>
  modify (fun s => s <| Banned ::= drem group_id who |>) >>
  deposit_event (MemberUnbanned group_id who by_).

Definition set_member_mute (env : Env) (origin : Origin) (group_id : Z) (who : AccountId)
    (until : option Z) : Call_ :=
  let! by_ := ok_or (ensure_signed origin) BadOrigin in
  let! g := get_group group_id in
  ensure_owner_or_admin group_id by_ >>
  ensure (who <> by_) (Module CannotTargetSelf) >>
  ensure (who <> admin g) (Module NotAuthorized) >>
  let! rows := gets (fun s => members s group_id) in
  ensure (is_Some (rows !! who)) (Module TargetNotMember) >>
  match until with
  | Some until =>
      ensure (until > block_number env) (Module InvalidMuteExpiry) >>
      modify (fun s => s <| MemberMutedUntil ::= dset group_id who until |>) >>
      deposit_event (MemberMuted group_id who until by_)
  | None =>
      modify (fun s => s <| MemberMutedUntil ::= drem group_id who |>) >>
      deposit_event (MemberUnmuted group_id who by_)
  end.

Definition set_group_mute_all (origin : Origin) (group_id : Z) (on : bool) : Call_ :=
  let! by_ := ok_or (ensure_signed origin) BadOrigin in
  let! _ := get_group group_id in
  ensure_owner_or_admin group_id by_ >>
  (if on then modify (fun s => s <| GroupMutedAll ::= <[group_id := true]> |>)
   else modify (fun s => s <| GroupMutedAll ::= delete group_id |>)) >>
  deposit_event (GroupMuteAllSet group_id on by_).

(** * Governance *)

Definition force_disband_group (env : Env) (origin : Origin) (group_id : Z) : Call_ :=
  ensure (GovernanceOrigin cfg origin = true) BadOrigin >>
  let! _ := get_group group_id in
  let! done := do_disband env group_id in
  if (done : bool) then deposit_event (GroupForceDisbanded group_id) else ret tt.

Definition set_group_frozen (origin : Origin) (group_id : Z) (frozen : bool) : Call_ :=
  ensure (GovernanceOrigin cfg origin = true) BadOrigin >>
  let! _ := get_group group_id in
  (if frozen then modify (fun s => s <| GroupFrozen ::= <[group_id := tt]> |>)
   else modify (fun s => s <| GroupFrozen ::= delete group_id |>)) >>
  deposit_event (GroupFrozenSet group_id frozen).

(** * Reads *)

Definition is_member_muted (env : Env) (s : State L P) (group_id : Z) (who : AccountId) : bool :=
  match dget (MemberMutedUntil s) group_id who with
  | Some until => bool_decide (block_number env < until)
  | None => false
  end ||
  match GroupMutedAll s !! group_id, members s group_id !! who with
  | Some true, Some m => bool_decide (role m = Member)
  | _, _ => false
  end.

Definition member_role_tag (s : State L P) (group_id : Z) (who : AccountId) : Z :=
  match role <$> members s group_id !! who with
  | Some Owner => 0
  | Some Admin => 1
  | Some Member => 2
  | None => 255
  end.

Definition group_member_count (s : State L P) (group_id : Z) : Z :=
  default 0 (member_count <$> GroupMls s !! group_id).

Definition pending_welcome (s : State L P) (group_id : Z) (who : AccountId) : option bytes :=
  dget (WelcomeMailbox s) group_id who.

Definition handshake_at_epoch (s : State L P) (group_id epoch : Z) : option bytes :=
  dget (HandshakeLog s) group_id epoch.

Definition is_group_frozen (s : State L P) (group_id : Z) : bool :=
  bool_decide (is_Some (GroupFrozen s !! group_id)).

(** * Transitions *)

Inductive Call : Type :=
| PublishKeyPackage (kp : bytes)
| RevokeKeyPackage (kp_id : Z)
| CreateGroup (cid : bytes) (suite : Z) (public : bool) (tree transcript : Bytes32)
| Commit (group_id expected_epoch : Z) (blob : bytes) (tree transcript : Bytes32) (cid : bytes)
    (welcomes : list (AccountId * bytes)) (d : MemberDelta)
| ClaimWelcome (group_id : Z)
| DisbandGroup (group_id : Z)
| AnchorMessageDigest (group_id batch_seq : Z) (digest : Bytes32) (epoch_ : Z)
| RequestJoin (group_id : Z)
| CancelJoinRequest (group_id : Z)
| ApproveJoin (group_id : Z) (who : AccountId)
| TransferOwnership (group_id : Z) (to : AccountId)
| SetAdmin (group_id : Z) (who : AccountId) (on : bool)
| SetGroupProfile (group_id : Z) (name_ cid_ announcement_ : option bytes)
| SetGroupNickname (group_id : Z) (nickname : option bytes)
| BanMember (group_id : Z) (who : AccountId)
| UnbanMember (group_id : Z) (who : AccountId)
| SetMemberMute (group_id : Z) (who : AccountId) (until : option Z)
| SetGroupMuteAll (group_id : Z) (on : bool)
| ForceDisbandGroup (group_id : Z)
| SetGroupFrozen (group_id : Z) (frozen : bool).

Definition apply_call (env : Env) (origin : Origin) (c : Call) : Call_ :=
  match c with
  | PublishKeyPackage kp => publish_key_package env origin kp
  | RevokeKeyPackage i => revoke_key_package origin i
  | CreateGroup cid suite public tree tr => create_group env origin cid suite public tree tr
  | Commit g e blob tree tr cid ws d => commit env origin g e blob tree tr cid ws d
  | ClaimWelcome g => claim_welcome origin g
  | DisbandGroup g => disband_group env origin g
  | AnchorMessageDigest g b dig e => anchor_message_digest env origin g b dig e
  | RequestJoin g => request_join env origin g
  | CancelJoinRequest g => cancel_join_request origin g
  | ApproveJoin g who => approve_join env origin g who
  | TransferOwnership g to => transfer_ownership env origin g to
  | SetAdmin g who on => set_admin origin g who on
  | SetGroupProfile g n c a => set_group_profile origin g n c a
  | SetGroupNickname g nick => set_group_nickname origin g nick
  | BanMember g who => ban_member env origin g who
  | UnbanMember g who => unban_member origin g who
  | SetMemberMute g who until => set_member_mute env origin g who until
  | SetGroupMuteAll g on => set_group_mute_all origin g on
  | ForceDisbandGroup g => force_disband_group env origin g
  | SetGroupFrozen g frozen => set_group_frozen origin g frozen
  end.

Definition dispatch (env : Env) (origin : Origin) (c : Call) : Call_ :=
  transactional (apply_call env origin c).

(** What decoding guarantees: the two lists are bounded by the group size. *)
Definition call_typed (c : Call) : Prop :=
  match c with
  | Commit _ _ _ _ _ _ _ d =>
      len (added d) <= MaxGroupMembers cfg /\ len (removed d) <= MaxGroupMembers cfg
  | _ => True
  end.

(** A call, or anything else the chain does to the authorization layer. *)
Inductive step (s s' : State L P) : Prop :=
| step_call env origin c r (Henv : env_ok env) (Hty : call_typed c)
    (Hcall : dispatch env origin c s = (r, s'))
| step_permission p (Hp : s' = s <| permission := p |>).

End Pallet.

Definition genesis {L P} (l : L) (p : P) : State L P :=
  mkState L P ∅ ∅ ∅ ∅ 0 ∅ ∅ ∅ ∅ ∅ ∅ ∅ ∅ ∅ ∅ ∅ ∅ ∅ ∅ ∅ ∅ ∅ ∅ p l [].

(** * A concrete configuration *)

(** An authorization layer that records nothing and mutes nobody. *)
#[export] Instance no_hook : GroupChatHook unit := {|
  on_member_added _ _ _ _ p := p;
  on_member_removed _ _ _ _ p := p;
|}.

#[export] Instance no_mute : PlatformMuteChecker unit := {| is_platform_muted _ _ _ := false |}.

(** Small bounds; root is the governance. *)
Definition test_config : Config := {|
  GroupDeposit := 100;
  KeyPackageDeposit := 10;
  MaxPendingJoins := 4;
  MaxGroupMembers := 8;
  MaxGroupsPerUser := 4;
  MaxKeyPackageLen := 16;
  MaxHandshakeLen := 16;
  MaxWelcomeLen := 16;
  MaxCidLen := 16;
  MaxGroupNameLen := 16;
  MaxGroupAnnouncementLen := 16;
  MaxGroupNicknameLen := 16;
  MaxKeyPackagesPerUser := 4;
  GroupCreationCooldown := 5;
  MlsActionWindow := 10;
  MaxMlsActionsPerWindow := 20;
  JoinRequestWindow := 10;
  MaxJoinRequestsPerWindow := 20;
  GovernanceOrigin o := ensure_root o;
|}.

Definition test_env (block : Z) : Env := mkEnv block 0 0 [].

Definition test_ledger : SimpleLedger :=
  {[ 1%N := (500%N, 0%N); 2%N := (50%N, 0%N); 3%N := (50%N, 0%N); 4%N := (50%N, 0%N) ]}.

(** A run: who calls what, in which block. *)
Fixpoint run_calls (s : State SimpleLedger unit) (cs : list (Z * SimpleOrigin * Call))
    : State SimpleLedger unit :=
  match cs with
  | [] => s
  | (b, o, c) :: cs' => run_calls (dispatch test_config (test_env b) o c s).2 cs'
  end.

Definition group_run_ok (x : Z * SimpleOrigin * Call) : Prop :=
  0 <= x.1.1 <= u32_max /\ call_typed test_config x.2.

#[export] Instance group_run_ok_dec x : Decision (group_run_ok x).
Proof. unfold group_run_ok, call_typed. destruct x as [[b o] []]; apply _. Defined.

Lemma group_run_reach s cs : Forall group_run_ok cs -> rtc (step test_config) s (run_calls s cs).
Proof.
  intros Hok. revert s. induction Hok as [| [[b o] c] cs [Hb Hty] Hok IH]; intros s; simpl;
    [constructor |].
  eapply rtc_l; [| apply IH].
  apply (step_call test_config _ _ (test_env b) o c (dispatch test_config (test_env b) o c s).1).
  - unfold env_ok, u64_max. simpl in *. lia.
  - done.
  - by destruct (dispatch _ _ _ _ _).
Qed.

(** Account 1 creates a public group and adds 2 and 3, who published a key
    package each. *)
Definition founding : list (Z * SimpleOrigin * Call) :=
  [(1, SignedBy 2, PublishKeyPackage [1]); (1, SignedBy 3, PublishKeyPackage [2]);
   (1, SignedBy 4, PublishKeyPackage [3]);
   (2, SignedBy 1, CreateGroup [7] 1 true 11 12);
   (3, SignedBy 1, Commit 0 0 [9] 13 14 [8] [(2%N, [4]); (3%N, [5])] (mkMemberDelta [2%N; 3%N] []))].

Definition trio : State SimpleLedger unit := run_calls (genesis test_ledger tt) founding.

Example trio_state :
  member_count <$> GroupMls trio !! 0 = Some 3 /\ epoch <$> GroupMls trio !! 0 = Some 1 /\
  user_groups trio 3 = [0] /\ reserved_balance 1%N (ledger trio) = 100.
Proof. by vm_compute. Qed.

End Group.
