(* ===== verification/GroupViews.v ===== *)
(** What [pallet-chat-group] keeps for one group: the rows of its storage maps at
    the group's id, gathered in a [View]; the changes one call can make to a
    view ([vstep]) with the well-formedness they keep ([view_ok]); and the parts
    of the state that are not a group's. *)

From S2P Require Import Prelude Frame ChatCommon ChatGroup.
Import Group.

Record View : Type := mkView {
  v_mls : option MlsGroupState;
  v_members : gmap AccountId GroupMember;
  v_log : gmap Z bytes;
  v_welcome : gmap AccountId bytes;
  v_digests : gmap Z (Bytes32 * Z * Z);
  v_requests : gmap AccountId Z;
  v_pending : option Z;
  v_approvals : gmap AccountId Z;
  v_profile : option GroupProfile;
  v_nicknames : gmap AccountId bytes;
  v_banned : gmap AccountId Z;
  v_muted : gmap AccountId Z;
  v_muted_all : option bool;
  v_frozen : option unit;
  v_deposit : option (AccountId * Z);
}.

Definition empty_view : View := mkView None ∅ ∅ ∅ ∅ ∅ None ∅ None ∅ ∅ ∅ None None None.

Definition pending_of (v : View) : Z := default 0 (v_pending v).

(** The counter of pending requests is their number. *)
Definition counted (v : View) : Prop := Z.of_nat (size (v_requests v)) = pending_of v.

(** The counter goes down with the requests. *)
Definition count_follows (v v' : View) : Prop :=
  (Z.of_nat (size (v_requests v)) <= pending_of v ->
     Z.of_nat (size (v_requests v')) <= pending_of v' <= pending_of v) /\
  (counted v -> counted v').

(** * The changes of a view *)

(** The fields the well-formedness is about. *)
Definition same_core (v v' : View) : Prop :=
  v_mls v' = v_mls v /\ v_members v' = v_members v /\ v_log v' = v_log v /\
  v_requests v' = v_requests v /\ v_pending v' = v_pending v /\
  v_approvals v' = v_approvals v /\ v_banned v' = v_banned v /\ v_deposit v' = v_deposit v.

(** A commit of [d] on a group in state [st]: who is a member afterwards, the
    anchored state, the log entry of the new epoch. *)
Record committed (max : Z) (d : MemberDelta) (st st' : MlsGroupState) (v v' : View) : Prop := {
  cm_before : v_mls v = Some st;
  cm_after : v_mls v' = Some st';
  cm_typed : len (added d) <= max;
  cm_distinct : NoDup (added d ++ removed d);
  cm_added : forall a, a ∈ added d -> v_members v !! a = None /\ v_banned v !! a = None;
  cm_removed : forall a, a ∈ removed d -> is_Some (v_members v !! a) /\ a <> admin st;
  cm_members : exists joined, forall who, v_members v' !! who =
    if decide (who ∈ removed d) then None
    else if decide (who ∈ added d) then Some (mkGroupMember Member (epoch st') joined)
    else v_members v !! who;
  cm_admin : admin st' = admin st;
  cm_epoch : epoch st' = sat_add u64_max (epoch st) 1;
  cm_count : member_count st' =
    sat_sub (sat_add u32_max (member_count st) (len (added d))) (len (removed d));
  cm_cap : member_count st' <= max;
  cm_not_two : member_count st' <> 2;
  cm_log : exists blob, v_log v' = <[epoch st' := blob]> (v_log v);
  cm_requests : forall who, v_requests v' !! who =
    if decide (who ∈ added d) then None else v_requests v !! who;
  cm_approvals : forall who, v_approvals v' !! who =
    if decide (who ∈ added d) then None else v_approvals v !! who;
  cm_pending : count_follows v v';
  cm_banned : v_banned v' = v_banned v;
  cm_deposit : v_deposit v' = v_deposit v;
}.

(** A teardown that has not finished: rows only shrink, the count follows. *)
Record shrunk (st st' : MlsGroupState) (v v' : View) : Prop := {
  sh_before : v_mls v = Some st;
  sh_after : v_mls v' = Some st';
  sh_members : v_members v' ⊆ v_members v;
  sh_count : exists n, Z.of_nat (size (v_members v)) = Z.of_nat (size (v_members v')) + n /\
    member_count st' = if decide (n = 0) then member_count st else sat_sub (member_count st) n;
  sh_same : admin st' = admin st /\ epoch st' = epoch st;
  sh_log : v_log v' ⊆ v_log v;
  sh_requests : v_requests v' ⊆ v_requests v;
  sh_approvals : v_approvals v' ⊆ v_approvals v;
  sh_banned : v_banned v' ⊆ v_banned v;
  sh_pending : v_pending v' = v_pending v;
  sh_deposit : v_deposit v' = v_deposit v;
}.

#[export] Instance eta_view : Settable View := fun v =>
  mkView (v_mls v) (v_members v) (v_log v) (v_welcome v) (v_digests v) (v_requests v)
    (v_pending v) (v_approvals v) (v_profile v) (v_nicknames v) (v_banned v) (v_muted v)
    (v_muted_all v) (v_frozen v) (v_deposit v).

(** A request and its approval are dropped. *)
Definition clear_join (who : AccountId) (v : View) : View :=
  let v1 := v <| v_approvals ::= delete who |> <| v_requests ::= delete who |> in
  match v_requests v !! who with
  | Some _ => v1 <| v_pending := Some (sat_sub (pending_of v) 1) |>
  | None => v1
  end.

(** What one call does to the view of the group it names; [D]: the call may tear the
    group down. *)
Inductive vstep (D : Prop) (max max_pending : Z) (v v' : View) : Prop :=
| vs_decor (Hsome : is_Some (v_mls v)) (Hsame : same_core v v')
| vs_commit d st st' (Hc : committed max d st st' v v')
| vs_request who b (Hsome : is_Some (v_mls v))
    (Hmem : v_members v !! who = None) (Hban : v_banned v !! who = None)
    (Hreq : v_requests v !! who = None) (Hcap : pending_of v < max_pending)
    (Hv : v' = v <| v_requests ::= <[who := b]> |>
               <| v_pending := Some (sat_add u32_max (pending_of v) 1) |>)
| vs_cancel who (Hsome : is_Some (v_mls v)) (Hv : v' = clear_join who v)
| vs_approve who b (Hsome : is_Some (v_mls v)) (Hreq : is_Some (v_requests v !! who))
    (Hmem : v_members v !! who = None) (Hban : v_banned v !! who = None)
    (Hv : v' = v <| v_approvals ::= <[who := b]> |>)
| vs_ban who b (Hsome : is_Some (v_mls v))
    (Hv : v' = clear_join who (v <| v_banned ::= <[who := b]> |>))
| vs_unban who (Hsome : is_Some (v_mls v)) (Hv : v' = v <| v_banned ::= delete who |>)
| vs_set_admin st who m on (Hst : v_mls v = Some st) (Hm : v_members v !! who = Some m)
    (Hrole : role m <> Owner)
    (Hv : v' = v <| v_members ::= <[who := m <| role := if (on : bool) then Admin else Member |>]> |>)
| vs_transfer st to old target (Hst : v_mls v = Some st) (Hne : to <> admin st)
    (Hold : v_members v !! admin st = Some old) (Hto : v_members v !! to = Some target)
    (Hv : v' = v <| v_mls := Some (st <| admin := to |>) |>
               <| v_members ::= fun ms => <[to := target <| role := Owner |>]>
                    (<[admin st := old <| role := Admin |>]> ms) |>)
| vs_shrink st st' (Hdown : D) (Hs : shrunk st st' v v')
| vs_gone (Hsome : is_Some (v_mls v)) (Hv : v' = empty_view).

(** * Well-formed views *)

(** A group's rows exist only while the group does; the count is the number of
    members and within the bound; the owner's row and no other has the owner's
    role; pending requests are bounded and counted; neither a member nor a banned
    account has a request or an approval; the log ends at the current epoch. *)
Record view_ok (max max_pending : Z) (v : View) : Prop := {
  vo_orphan : v_mls v = None -> v = empty_view;
  vo_count : forall st, v_mls v = Some st -> member_count st = Z.of_nat (size (v_members v));
  vo_cap : forall st, v_mls v = Some st -> member_count st <= max;
  vo_owner : forall st who m, v_mls v = Some st -> v_members v !! who = Some m ->
    role m = Owner -> who = admin st;
  vo_epoch : forall st, v_mls v = Some st -> 0 <= epoch st <= u64_max;
  vo_log : forall st e, v_mls v = Some st -> is_Some (v_log v !! e) -> e <= epoch st;
  vo_pending : Z.of_nat (size (v_requests v)) <= pending_of v <= max_pending;
  vo_banned : forall who, is_Some (v_banned v !! who) ->
    v_requests v !! who = None /\ v_approvals v !! who = None;
  vo_members : forall who, is_Some (v_members v !! who) ->
    v_requests v !! who = None /\ v_approvals v !! who = None;
}.

Lemma empty_view_ok max max_pending : 0 <= max_pending -> view_ok max max_pending empty_view.
Proof.
  intros. split; simpl; try done.
  all: intros who [? Hw]; by rewrite lookup_empty in Hw.
Qed.

(** The members after a commit, counted. *)
Lemma committed_size max d st st' v v' :
  committed max d st st' v v' ->
  Z.of_nat (size (v_members v')) =
    Z.of_nat (size (v_members v)) + len (added d) - len (removed d).
Proof.
  intros Hc. pose proof (cm_distinct _ _ _ _ _ _ Hc) as Hnd.
  apply NoDup_app in Hnd as (Ha & Hdisj & Hr).
  assert (dom (v_members v') =
    (dom (v_members v) ∪ list_to_set (added d)) ∖ list_to_set (removed d)) as Hdom.
  { apply set_eq. intros who. rewrite elem_of_dom, elem_of_difference, elem_of_union, elem_of_dom,
      !elem_of_list_to_set. destruct (cm_members _ _ _ _ _ _ Hc) as [j Hm]. rewrite Hm.
    clear Hc. repeat case_decide; split; try tauto; eauto.
    by intros [? ?]. }
  assert (list_to_set (removed d) ⊆@{gset AccountId} dom (v_members v)) as Hsub.
  { intros who Hw%elem_of_list_to_set. apply elem_of_dom. by apply (cm_removed _ _ _ _ _ _ Hc). }
  rewrite <- !size_dom, Hdom, size_difference by (etrans; [exact Hsub | apply union_subseteq_l]).
  rewrite size_union, !size_list_to_set by first [done | intros who Hw Hin; apply elem_of_dom in Hw;
    apply elem_of_list_to_set, (cm_added _ _ _ _ _ _ Hc) in Hin as [Hin _];
    rewrite Hin in Hw; by destruct Hw].
  apply subseteq_size in Hsub. rewrite size_list_to_set in Hsub by done. unfold len. lia.
Qed.

Section ViewOk.
Context (max max_pending : Z) (Hmax : 0 <= max /\ 2 * max <= u32_max)
  (Hpend : 0 <= max_pending <= u32_max).

Abbreviation vok := (view_ok max max_pending).

Lemma same_core_ok v v' : is_Some (v_mls v) -> same_core v v' -> vok v -> vok v'.
Proof.
  intros [st Hst] (Hm & Hmem & Hlog & Hreq & Hp & Happ & Hban & Hdep) [Ho Hc Hcap How He Hl Hpe Hb Hme].
  split; unfold pending_of; rewrite ?Hm, ?Hmem, ?Hlog, ?Hreq, ?Hp, ?Happ, ?Hban; try done.
  congruence.
Qed.

Lemma committed_ok d st st' v v' : committed max d st st' v v' -> vok v -> vok v'.
Proof.
  intros Hc Hv. pose proof (committed_size _ _ _ _ _ _ Hc) as Hsize.
  destruct Hc as [Hb Ha Hty _ Hadd Hrem [j Hmem] Hadm Hep Hcnt Hcap _ [blob Hlog] Hreq Happ Hpe Hban _].
  destruct Hv as [_ Hc1 Hcap1 How He Hl Hp1 Hba Hme].
  pose proof (Hc1 st Hb). pose proof (He st Hb).
  assert (epoch st' = sat_add u64_max (epoch st) 1 /\ epoch st <= epoch st' <= u64_max)
    as [_ Hep'] by (unfold sat_add in *; lia).
  split.
  - by rewrite Ha.
  - rewrite Ha. intros ? [= <-]. rewrite Hcnt. specialize (Hcap1 st Hb).
    rewrite sat_add_exact by lia. rewrite sat_sub_exact by lia. lia.
  - rewrite Ha. by intros ? [= <-].
  - rewrite Ha. intros ? who m [= <-]. rewrite Hmem, Hadm.
    case_decide; [done |]. case_decide; [by intros [= <-] | by apply How].
  - rewrite Ha. by intros ? [= <-]; lia.
  - rewrite Ha, Hlog. intros ? e [= <-]. destruct (decide (e = epoch st')) as [-> |]; [done |].
    rewrite lookup_insert_ne by done. intros Hin%(Hl st e Hb). lia.
  - destruct Hp1 as [Hp1 Hp2]. pose proof (proj1 Hpe Hp1). lia.
  - intros who. rewrite Hban, Hreq, Happ. intros Hin%Hba. by case_decide.
  - intros who. rewrite Hmem, Hreq, Happ. case_decide; [by intros [? ?] |].
    case_decide; [done | by apply Hme].
Qed.

Lemma shrunk_ok st st' v v' : shrunk st st' v v' -> vok v -> vok v'.
Proof.
  intros [Hb Ha Hmem (n & Hn & Hcnt) [Hadm Hep] Hlog Hreq Happ Hban Hpe _]
    [_ Hc Hcap How He Hl Hp Hba Hme].
  pose proof (Hc st Hb). pose proof (Hcap st Hb).
  assert (member_count st' = Z.of_nat (size (v_members v'))) as Hc'
    by (rewrite Hcnt; case_decide; [| rewrite sat_sub_exact]; lia).
  pose proof (map_subseteq_size _ _ Hmem). pose proof (map_subseteq_size _ _ Hreq).
  assert (forall who, is_Some (v_banned v' !! who) \/ is_Some (v_members v' !! who) ->
    v_requests v !! who = None /\ v_approvals v !! who = None) as Hnone.
  { intros who [[? Hw] | [? Hw]].
    - by eapply Hba, (lookup_weaken_is_Some (v_banned v')).
    - by eapply Hme, (lookup_weaken_is_Some (v_members v')). }
  split; rewrite ?Ha.
  - done.
  - by intros ? [= <-].
  - intros ? [= <-]. lia.
  - intros ? who m [= <-] Hw. rewrite Hadm. eapply How; [done |]. by eapply lookup_weaken.
  - intros ? [= <-]. rewrite Hep. by apply He.
  - intros ? e [= <-] Hw. rewrite Hep. apply (Hl st); [done |].
    by eapply lookup_weaken_is_Some.
  - unfold pending_of in *. rewrite Hpe. lia.
  - intros who Hw. destruct (Hnone who (or_introl Hw)).
    split; (eapply lookup_weaken_None; [| eassumption]; done).
  - intros who Hw. destruct (Hnone who (or_intror Hw)).
    split; (eapply lookup_weaken_None; [| eassumption]; done).
Qed.

Lemma transfer_ok st to old target v :
  v_mls v = Some st -> to <> admin st -> v_members v !! admin st = Some old ->
  v_members v !! to = Some target -> vok v ->
  vok (v <| v_mls := Some (st <| admin := to |>) |>
         <| v_members ::= fun ms => <[to := target <| role := Owner |>]>
              (<[admin st := old <| role := Admin |>]> ms) |>).
Proof.
  intros Hst Hne Hold Hto [_ Hc Hcap How He Hl Hp Hba Hme]. split; simpl; try done.
  - intros ? [= <-]. simpl. rewrite !map_size_insert, lookup_insert_ne, Hto, Hold by done.
    by apply Hc.
  - intros ? [= <-]. by apply (Hcap st).
  - intros ? who m [= <-]. simpl. intros Hw Hr. map_cases; try done.
    exfalso. by apply (How st who m Hst) in Hr; subst.
  - intros ? [= <-]. by apply (He st).
  - intros ? e [= <-]. by apply (Hl st).
  - intros who Hw. apply Hme. map_cases; subst; eauto.
Qed.

Lemma clear_join_fields who v :
  let v' := clear_join who v in
  v_mls v' = v_mls v /\ v_members v' = v_members v /\ v_log v' = v_log v /\
  v_requests v' = delete who (v_requests v) /\ v_approvals v' = delete who (v_approvals v) /\
  v_banned v' = v_banned v /\ v_deposit v' = v_deposit v.
Proof. unfold clear_join. by destruct (v_requests v !! who). Qed.

Lemma clear_join_pending who v : count_follows v (clear_join who v).
Proof.
  unfold count_follows, counted, clear_join. destruct (v_requests v !! who) as [b |] eqn:Hreq; simpl.
  - rewrite map_size_delete_Some by done. unfold pending_of in *. simpl.
    unfold sat_sub. destruct (size (v_requests v)) eqn:Hsize; [| lia].
    apply map_size_empty_inv in Hsize. by rewrite Hsize, lookup_empty in Hreq.
  - rewrite delete_id by done. unfold pending_of in *. simpl. lia.
Qed.

Lemma clear_join_ok who v :
  is_Some (v_mls v) -> vok v -> vok (clear_join who v).
Proof.
  intros [st Hst] [_ Hc Hcap How He Hl [Hp Hp'] Hba Hme].
  pose proof (proj1 (clear_join_pending who v) Hp).
  destruct (clear_join_fields who v) as (Hm & Hmem & Hlog & Hreq & Happ & Hban & _).
  split; rewrite ?Hm, ?Hmem, ?Hlog, ?Hban; try done; [congruence | lia | |];
    intros who' Hw; rewrite Hreq, Happ; map_cases; auto.
Qed.

(** Every change of a view keeps it well-formed. *)
Lemma vstep_ok D v v' : vstep D max max_pending v v' -> vok v -> vok v'.
Proof.
  intros Hstep Hv. pose proof Hv as [_ Hc Hcap How He Hl Hp Hba Hme].
  destruct Hstep as [| | who b Hs Hmem Hban Hreq | who Hs | who b Hs Hreq Hmem Hban
    | who b Hs | who Hs | st who m on Hst Hm Hrole | st to old target Hst Hne Hold Hto | |];
    subst; try (pose proof Hs as [st Hst]).
  - by eapply same_core_ok.
  - by eapply committed_ok.
  - split; simpl; try done; try congruence.
    + unfold pending_of in *. simpl. rewrite map_size_insert_None by done.
      rewrite sat_add_exact by lia. lia.
    + intros who' Hw. map_cases; [by rewrite Hban in Hw; destruct Hw | by apply Hba].
    + intros who' Hw. map_cases; [by rewrite Hmem in Hw; destruct Hw | by apply Hme].
  - by apply clear_join_ok.
  - split; simpl; try done; try congruence.
    + intros who' Hw. split; [by apply Hba |].
      map_cases; [by rewrite Hban in Hw; destruct Hw | by apply Hba].
    + intros who' Hw. split; [by apply Hme |].
      map_cases; [by rewrite Hmem in Hw; destruct Hw | by apply Hme].
  - set (v1 := v <| v_banned ::= <[who := b]> |>).
    pose proof (clear_join_ok who v Hs Hv) as [_ Hc' Hcap' How' He' Hl' _ _ Hme'].
    destruct (clear_join_fields who v1) as (Hm & Hmem & Hlog & Hreq & Happ & Hban & _).
    pose proof (proj1 (clear_join_pending who v1) (proj1 Hp)) as Hp1.
    split; rewrite ?Hm, ?Hmem, ?Hlog, ?Hban, ?Hreq, ?Happ; simpl; try done; try congruence.
    + rewrite Hreq in Hp1. simpl in Hp1. unfold pending_of in *. simpl in *. lia.
    + intros who' Hw. map_cases; [done.. |]; by apply Hba.
    + intros who' Hw. map_cases; [done.. |]; by apply Hme.
  - split; simpl; try done; try congruence.
    intros who' Hw. apply Hba. map_cases; [by destruct Hw | done].
  - split; simpl; try done; try congruence.
    + intros st' Hst'. rewrite map_size_insert, Hm. by apply Hc.
    + intros st' who' m' Hst' Hw. map_cases; [by destruct on | by apply How].
    + intros who' Hw. apply Hme. map_cases; subst; eauto.
  - by apply transfer_ok.
  - by eapply shrunk_ok.
  - apply empty_view_ok. lia.
Qed.

(** Only a teardown that goes on leaves the counter behind. *)
Lemma vstep_counted v v' : vstep False max max_pending v v' -> vok v -> counted v -> counted v'.
Proof.
  intros Hstep Hv Hc. pose proof (vo_pending _ _ _ Hv) as Hp.
  destruct Hstep as [_ (_ & _ & _ & Hr & Hpe & _) | d st st' [? ? ? ? ? ? ? ? ? ? ? ? ? ? ? Hcm ?] | who b _ _ _ Hreq ? -> | who _ ->
    | who b _ _ _ _ -> | who b _ -> | who _ -> | | | ? ? [] | _ ->]; subst; try done.
  - unfold counted, pending_of in *. by rewrite Hr, Hpe.
  - by apply Hcm.
  - unfold counted, pending_of in *. simpl. rewrite map_size_insert_None by done.
    rewrite sat_add_exact by lia. lia.
  - by apply clear_join_pending.
  - by apply clear_join_pending.
Qed.
End ViewOk.
