(* ===== verification/GroupChecks.v ===== *)
(** The checks of [pallet-chat-group]'s calls: each only reads the state, and
    what it has established when it passes. [g_inv] takes a successful run apart
    and replaces every check in it by that. *)

From S2P Require Import Prelude Frame ChatCommon ChatGroup.
Import Group.

Section Checks.
Context `{FrameSystem} {L P : Type} `{ReservableCurrency L} `{PrefixStorage}.
Context `{GroupChatHook P} `{PlatformMuteChecker P} (cfg : Config).
Implicit Types (s : State L P) (g : Z).

Lemma ensure_muted_Ok env who s s' :
  ensure_sender_not_platform_muted env who s = (Ok tt, s') ->
  s' = s /\ is_platform_muted env who (permission s) = false.
Proof. unfold ensure_sender_not_platform_muted. intros Hrun. by m_inv. Qed.

Lemma ensure_not_frozen_Ok g s s' :
  ensure_not_frozen g s = (Ok tt, s') -> s' = s /\ GroupFrozen s !! g = None.
Proof. unfold ensure_not_frozen. intros Hrun. by m_inv. Qed.

Lemma get_group_Ok g s st s' : get_group g s = (Ok st, s') -> s' = s /\ GroupMls s !! g = Some st.
Proof. unfold get_group. intros Hrun. by m_inv. Qed.

Lemma ensure_role_Ok g who s s' :
  ensure_owner_or_admin g who s = (Ok tt, s') ->
  s' = s /\ exists m, members s g !! who = Some m /\ is_owner_or_admin m.
Proof. unfold ensure_owner_or_admin. intros Hrun. m_inv. eauto. Qed.

Lemma bounded_Ok n b s b' s' : bounded n b s = (Ok b', s') -> s' = s /\ b' = b /\ len b <= n.
Proof. unfold bounded. intros Hrun. by m_inv. Qed.

Lemma bounded_or_Ok n b old s b' s' : bounded_or n b old s = (Ok b', s') -> s' = s.
Proof. unfold bounded_or. intros Hrun. m_inv; [| done]. by apply bounded_Ok in Hrun as [-> _]. Qed.

Lemma distinct_from_Ok l others s s' :
  distinct_from l others s = (Ok tt, s') ->
  s' = s /\ NoDup l /\ forall x, x ∈ l -> x ∉ others.
Proof.
  revert s'. induction l as [| x l IH]; intros s'; simpl.
  - intros [= <-]. split_and!; [done | constructor |]. by intros x ?%elem_of_nil.
  - intros Hrun. m_inv.
    match goal with Hl : for_each l _ _ = _ |- _ =>
      apply (for_each_check (fun y => x <> y)) in Hl as [-> Hl];
        [| by intros y s1 _ [? ->]%ensure_Ok]; rename Hl into Hrest end.
    match goal with Ho : for_each others _ _ = _ |- _ =>
      apply (for_each_check (fun y => x <> y)) in Ho as [-> Ho];
        [| by intros y s1 _ [? ->]%ensure_Ok]; rename Ho into Hothers end.
    apply IH in Hrun as (-> & Hnd & Hout). split_and!; [done | |].
    + constructor; [| done]. intros Hin. by apply (Hrest x Hin).
    + intros y [-> | Hy]%elem_of_cons; [| by apply Hout]. intros Hin. by apply (Hothers x Hin).
Qed.

Lemma ensure_unique_Ok d s s' :
  ensure_member_delta_unique d s = (Ok tt, s') -> s' = s /\ NoDup (added d ++ removed d).
Proof.
  unfold ensure_member_delta_unique. intros Hrun. m_inv.
  match goal with Ha : distinct_from (added d) _ _ = _ |- _ =>
    apply distinct_from_Ok in Ha as (-> & Ha & Hdisj) end.
  apply distinct_from_Ok in Hrun as (-> & Hr & _). split; [done |]. by apply NoDup_app.
Qed.

Lemma match_welcomes_Ok acct ws n s k s' :
  match_welcomes acct ws n s = (Ok k, s') -> s' = s.
Proof.
  revert n. induction ws as [| [a b] ws IH]; intros n; simpl; [by intros [= _ <-] |].
  intros Hrun. m_inv; eauto.
Qed.

Lemma ensure_welcomes_Ok l ws s s' : ensure_welcomes_match_added l ws s = (Ok tt, s') -> s' = s.
Proof.
  unfold ensure_welcomes_match_added. intros Hrun. m_inv.
  apply (for_each_check (fun _ => True)) in Hrun as [-> _]; [| by intros y s1 _ [? ->]%ensure_Ok].
  match goal with Hl : for_each l _ _ = _ |- _ =>
    apply (for_each_check (fun _ => True)) in Hl as [-> _]; [done |] end.
  intros y s1 _ Hy. m_inv. split; [| done]. by eapply match_welcomes_Ok.
Qed.

Lemma check_committer_Ok who st m d s s' : check_committer who st m d s = (Ok tt, s') -> s' = s.
Proof. unfold check_committer. intros Hrun. by m_inv. Qed.

(** What [commit] checks of an account it adds. *)
Definition addable s g (st : MlsGroupState) (a : AccountId) : Prop :=
  members s g !! a = None /\ dget (Banned s) g a = None /\ get0 (KeyPackageCount s) a > 0 /\
  (is_public st = false -> is_Some (dget (JoinApprovals s) g a)).

Lemma check_added_Ok g st a s s' :
  check_added g st a s = (Ok tt, s') -> s' = s /\ addable s g st a.
Proof.
  unfold check_added, addable. intros Hrun. m_inv; by split_and!.
Qed.

Lemma check_removed_Ok g st a s s' :
  check_removed g st a s = (Ok tt, s') -> s' = s /\ is_Some (members s g !! a) /\ a <> admin st.
Proof. unfold check_removed. intros Hrun. m_inv. by split_and!. Qed.

Lemma note_mls_action_Ok env who s s' :
  note_mls_action cfg env who s = (Ok tt, s') ->
  exists r, s' = s <| MlsActionRate := r |>.
Proof. unfold note_mls_action. intros Hrun. m_inv. eauto. Qed.

Lemma note_join_request_Ok env who s s' :
  note_join_request cfg env who s = (Ok tt, s') ->
  exists r, s' = s <| JoinRequestRate := r |>.
Proof. unfold note_join_request. intros Hrun. m_inv. eauto. Qed.

Lemma check_committer_role who st m d s s' :
  check_committer who st m d s = (Ok tt, s') ->
  (added d <> [] \/ Exists (fun a => a <> who) (removed d) -> is_owner_or_admin m) /\
  (removed d = [who] -> added d = [] -> who <> admin st).
Proof.
  unfold check_committer. intros Hrun. m_inv.
  - destruct a as [-> ->]. split; [| done]. intros [? | Hex]; [done |].
    apply Exists_cons in Hex as [? | Hex]; [done | by apply Exists_nil in Hex].
  - split; [done |]. intros Hr Ha. exfalso. tauto.
  - split; [tauto |]. intros Hr Ha. exfalso. tauto.
Qed.

End Checks.

(** [m_inv] with the lemmas on the checks. *)
Ltac g_step :=
  match goal with
  | Hc : ensure_sender_not_platform_muted _ _ _ = _ |- _ => apply ensure_muted_Ok in Hc as [-> Hc]
  | Hc : ensure_not_frozen _ _ = _ |- _ => apply ensure_not_frozen_Ok in Hc as [-> Hc]
  | Hc : get_group _ _ = _ |- _ => apply get_group_Ok in Hc as [-> Hc]
  | Hc : ensure_owner_or_admin _ _ _ = _ |- _ => apply ensure_role_Ok in Hc as (-> & ? & ? & ?)
  | Hc : bounded _ _ _ = _ |- _ => apply bounded_Ok in Hc as (-> & -> & Hc)
  | Hc : bounded_or _ _ _ _ = _ |- _ => apply bounded_or_Ok in Hc as ->
  | Hc : check_committer _ _ _ _ _ = _ |- _ =>
      pose proof (check_committer_Ok _ _ _ _ _ _ Hc) as ->; apply check_committer_role in Hc as [? ?]
  | Hc : ensure_member_delta_unique _ _ = _ |- _ => apply ensure_unique_Ok in Hc as [-> Hc]
  | Hc : ensure_welcomes_match_added _ _ ?s = (_, ?s') |- _ =>
      lazymatch s' with s => fail | _ => pose proof (ensure_welcomes_Ok _ _ _ _ Hc); subst s' end
  | Hc : for_each _ (check_added ?g ?st) ?s = _ |- _ =>
      apply (for_each_check (addable s g st)) in Hc as [-> Hc];
        [| by intros ? ? _ ?%check_added_Ok]
  | Hc : for_each _ (check_removed ?g ?st) ?s = _ |- _ =>
      apply (for_each_check (fun a => is_Some (members s g !! a) /\ a <> admin st)) in Hc as [-> Hc];
        [| by intros ? ? _ ?%check_removed_Ok]
  | Hc : note_mls_action _ _ _ _ = _ |- _ => apply note_mls_action_Ok in Hc as [? ->]
  | Hc : note_join_request _ _ _ _ = _ |- _ => apply note_join_request_Ok in Hc as [? ->]
  end.
Ltac g_inv := p_inv; repeat (g_step; p_inv).
