(* ===== verification/GroupSteps.v ===== *)
(** Every call of [pallet-chat-group] as a change of one group's view: the
    two loops of the commit, the teardown, and for each
    dispatchable which view it changes and how. The invariants of
    GroupRegistry.v follow from this description. *)

From S2P Require Import Prelude Frame ChatCommon ChatGroup GroupViews GroupChecks.
Import Group.

Section Steps.
Context `{FrameSystem} {L P : Type} `{ReservableCurrency L} `{PrefixStorage}.
Context `{GroupChatHook P} `{PlatformMuteChecker P} (cfg : Config).
Implicit Types (s : State L P) (g : Z).

Definition view s g : View :=
  mkView (GroupMls s !! g) (members s g) (prefix (HandshakeLog s) g)
    (prefix (WelcomeMailbox s) g) (prefix (MessageDigestAnchor s) g)
    (prefix (JoinRequests s) g) (PendingJoinCount s !! g) (prefix (JoinApprovals s) g)
    (GroupProfiles s !! g) (prefix (GroupNicknames s) g) (prefix (Banned s) g)
    (prefix (MemberMutedUntil s) g) (GroupMutedAll s !! g) (GroupFrozen s !! g)
    (GroupDepositOf s !! g).

(** What deposits are about. *)
Definition money s :=
  (ledger s, GroupDepositOf s, KeyPackages s, NextKeyPackageId s, KeyPackageCount s).

(** A change confined to group [g]. *)
Record local g s s' : Prop := {
  loc_view : forall g', g' <> g -> view s' g' = view s g';
  loc_next : NextGroupId s' = NextGroupId s;
  loc_money : money s' = money s;
}.

(** The users' lists: bounded, without duplicates, and in step with the member
    tables. *)
Record lists_ok s : Prop := {
  lo_nodup : forall who, NoDup (user_groups s who);
  lo_bound : forall who, len (user_groups s who) <= MaxGroupsPerUser cfg;
  lo_synced : forall g who, g ∈ user_groups s who <-> is_Some (members s g !! who);
}.

Lemma local_refl g s : local g s s.
Proof. by split. Qed.

Lemma local_trans g s1 s2 s3 : local g s1 s2 -> local g s2 s3 -> local g s1 s3.
Proof.
  intros [Hv Hn Hm] [Hv' Hn' Hm']. split; [| congruence ..].
  intros g' Hne. by rewrite Hv', Hv.
Qed.

Lemma local_members g s s' g' : local g s s' -> g' <> g -> members s' g' = members s g'.
Proof. intros Hl Hne. by pose proof (f_equal v_members (loc_view _ _ _ Hl g' Hne)). Qed.

(** Computes the view of an updated state. *)
Ltac view_simpl :=
  unfold view, members; cbn -[prefix dset drem]; rewrite ?prefix_dset, ?prefix_drem;
  repeat first
    [ rewrite decide_True by done | rewrite decide_False by congruence
    | rewrite lookup_insert_eq | rewrite lookup_delete_eq
    | rewrite lookup_alter_eq | rewrite lookup_alter_ne by congruence
    | rewrite lookup_insert_ne by congruence | rewrite lookup_delete_ne by congruence ].

Ltac local_tac := split; [intros ? ?; by view_simpl | done | done].

(** The lists only depend on the member tables and the lists. *)
Lemma lists_same s s' :
  UserGroups s' = UserGroups s ->
  (forall g who, is_Some (members s' g !! who) <-> is_Some (members s g !! who)) ->
  lists_ok s -> lists_ok s'.
Proof.
  intros Hug Hm [Hn Hb Hs]. unfold user_groups in *.
  split; unfold user_groups; rewrite Hug; [done.. |]. intros g who. by rewrite Hs, Hm.
Qed.

Ltac moves_tac := split; [local_tac | by apply lists_same].

(** * Helpers of the calls *)

Lemma user_groups_insert s m who l who' :
  user_groups (s <| GroupMembers := m |> <| UserGroups ::= <[who := l]> |>) who' =
    if decide (who = who') then l else user_groups s who'.
Proof. unfold user_groups. simpl. rewrite lookup_insert. by case_decide. Qed.

(** Adding a member and the group to its list keeps them in step. *)
Lemma add_synced s s' g who m :
  members s g !! who = None -> lists_ok s ->
  GroupMembers s' = dset g who m (GroupMembers s) ->
  ((g ∈ user_groups s who /\ UserGroups s' = UserGroups s) \/
   (len (user_groups s who) < MaxGroupsPerUser cfg /\
    UserGroups s' = <[who := user_groups s who ++ [g]]> (UserGroups s))) ->
  lists_ok s'.
Proof.
  intros Hnone [Hn Hb Hs] Hm [[Hin _] | [Hroom Hug]].
  { apply Hs in Hin. rewrite Hnone in Hin. by destruct Hin. }
  assert (g ∉ user_groups s who) as Hnin by (rewrite Hs, Hnone; by intros [? ?]).
  assert (forall x, user_groups s' x =
    if decide (who = x) then user_groups s who ++ [g] else user_groups s x) as Hug'.
  { intros x. unfold user_groups. rewrite Hug, lookup_insert. by case_decide; subst. }
  split; intros x; [| | intros x']; rewrite Hug'.
  - case_decide; [| done]. apply NoDup_app. split; [done |]. split; [| apply NoDup_singleton].
    by intros y Hy ->%list_elem_of_singleton.
  - case_decide; [| done]. unfold len in *. rewrite length_app. simpl. lia.
  - unfold members. rewrite Hm. fold (dget (dset g who m (GroupMembers s)) x x').
    rewrite dget_dset. case_decide as Hwho.
    + subst x'. rewrite elem_of_app, list_elem_of_singleton, Hs.
      destruct (decide (g = x)) as [<- | Hne].
      * rewrite decide_True by done. split; [by eauto | by right].
      * rewrite decide_False by tauto. split; [| by left].
        intros [? | ->]; done.
    + rewrite decide_False by tauto. apply Hs.
Qed.

Lemma remove_synced s s' g who :
  lists_ok s ->
  GroupMembers s' = drem g who (GroupMembers s) ->
  UserGroups s' = <[who := filter (fun x => x <> g) (user_groups s who)]> (UserGroups s) ->
  lists_ok s'.
Proof.
  intros [Hn Hb Hs] Hm Hug.
  assert (forall x, user_groups s' x =
    if decide (who = x) then filter (fun x => x <> g) (user_groups s who) else user_groups s x)
    as Hug'.
  { intros x. unfold user_groups. rewrite Hug, lookup_insert. by case_decide; subst. }
  split; intros x; [| | intros x']; rewrite Hug'.
  - case_decide; [by apply NoDup_filter | done].
  - case_decide; [| done]. specialize (Hb who). unfold len in *.
    pose proof (length_filter (fun x => x <> g) (user_groups s who)). lia.
  - unfold members. rewrite Hm. fold (dget (drem g who (GroupMembers s)) x x').
    rewrite dget_drem. case_decide as Hwho.
    + subst x'. rewrite list_elem_of_filter, Hs. case_decide as Hg.
      * destruct Hg. split; [by intros [? _] | by intros [? ?]].
      * split; [tauto |]. intros. split; [| done]. intros ->. by apply Hg.
    + rewrite decide_False by tauto. apply Hs.
Qed.

(** * The loops of the commit *)

(** What adding the accounts of [l] with the record [m] does to a view. *)
Record joins (l : list AccountId) (m : GroupMember) (v v' : View) : Prop := {
  jn_mls : v_mls v' = v_mls v;
  jn_log : v_log v' = v_log v;
  jn_banned : v_banned v' = v_banned v;
  jn_deposit : v_deposit v' = v_deposit v;
  jn_members : forall who, v_members v' !! who =
    if decide (who ∈ l) then Some m else v_members v !! who;
  jn_requests : forall who, v_requests v' !! who =
    if decide (who ∈ l) then None else v_requests v !! who;
  jn_approvals : forall who, v_approvals v' !! who =
    if decide (who ∈ l) then None else v_approvals v !! who;
  jn_pending : count_follows v v';
}.

(** What removing them does. *)
Record leaves (l : list AccountId) (v v' : View) : Prop := {
  lv_mls : v_mls v' = v_mls v;
  lv_log : v_log v' = v_log v;
  lv_banned : v_banned v' = v_banned v;
  lv_deposit : v_deposit v' = v_deposit v;
  lv_requests : v_requests v' = v_requests v;
  lv_approvals : v_approvals v' = v_approvals v;
  lv_pending : v_pending v' = v_pending v;
  lv_members : forall who, v_members v' !! who =
    if decide (who ∈ l) then None else v_members v !! who;
}.

Lemma joins_cons a l m v v1 v2 : joins [a] m v v1 -> joins l m v1 v2 -> joins (a :: l) m v v2.
Proof.
  intros [] []. split; [congruence .. | | | |].
  1-3: intros who; repeat match goal with H : forall who, _ !! who = _ |- _ => rewrite H end;
    repeat case_decide; rewrite ?list_elem_of_singleton, ?elem_of_cons in *; tauto.
  unfold count_follows in *. intuition lia.
Qed.

Lemma leaves_cons a l v v1 v2 : leaves [a] v v1 -> leaves l v1 v2 -> leaves (a :: l) v v2.
Proof.
  intros [] []. split; [congruence .. |].
  intros who; repeat match goal with H : forall who, _ !! who = _ |- _ => rewrite H end;
    repeat case_decide; rewrite ?list_elem_of_singleton, ?elem_of_cons in *; tauto.
Qed.

Lemma joins_nil m v : joins [] m v v.
Proof. by split. Qed.

Lemma leaves_nil v : leaves [] v v.
Proof. by split. Qed.

(** A confined change that keeps the lists in step with the members. *)
Definition moves g s s' : Prop := local g s s' /\ (lists_ok s -> lists_ok s').

Lemma moves_trans g s1 s2 s3 : moves g s1 s2 -> moves g s2 s3 -> moves g s1 s3.
Proof. intros [Hl1 Ho1] [Hl2 Ho2]. split; [by eapply local_trans | auto]. Qed.

Lemma clear_join_state_Ok g who s s' :
  clear_join_state g who s = (Ok tt, s') ->
  local g s s' /\ view s' g = clear_join who (view s g) /\
  UserGroups s' = UserGroups s /\ GroupMembers s' = GroupMembers s.
Proof.
  unfold clear_join_state. intros Hrun. m_inv;
    (match goal with Hd : _ = dget _ g who |- _ =>
      change (dget _ g who) with (v_requests (view s g) !! who) in Hd end;
    split_and!; [local_tac | | done | done];
    unfold clear_join; match goal with Hd : _ = v_requests _ !! _ |- _ => rewrite <- Hd end;
    by view_simpl).
Qed.

Lemma user_groups_add_Ok g who s s' :
  user_groups_add cfg who g s = (Ok tt, s') ->
  (g ∈ user_groups s who /\ s' = s) \/
  (len (user_groups s who) < MaxGroupsPerUser cfg /\
   s' = s <| UserGroups ::= <[who := user_groups s who ++ [g]]> |>).
Proof. unfold user_groups_add. intros Hrun. m_inv; eauto. Qed.

Lemma joins_one a m v : joins [a] m v (clear_join a (v <| v_members ::= <[a := m]> |>)).
Proof.
  pose proof (clear_join_pending a (v <| v_members ::= <[a := m]> |>)) as Hp.
  destruct (clear_join_fields a (v <| v_members ::= <[a := m]> |>))
    as (Hm & Hmem & Hlog & Hreq & Happ & Hban & Hdep).
  split; rewrite ?Hm, ?Hmem, ?Hlog, ?Hreq, ?Happ, ?Hban, ?Hdep; try done; simpl;
    try (intros who; map_cases; [rewrite decide_True | rewrite decide_False];
      rewrite ?list_elem_of_singleton; done).
Qed.

(** The first two writes of [add_member]. *)
Lemma list_member_Ok g a m s s' :
  members s g !! a = None ->
  user_groups_add cfg a g (s <| GroupMembers ::= dset g a m |>) = (Ok tt, s') ->
  moves g s s' /\ view s' g = (view s g) <| v_members ::= <[a := m]> |>.
Proof.
  intros Hnone Hu. apply user_groups_add_Ok in Hu.
  change (user_groups (s <| GroupMembers ::= dset g a m |>) a) with (user_groups s a) in Hu.
  destruct Hu as [[Hin ->] | [Hroom ->]].
  - split; [| by view_simpl]. split; [local_tac |]. intros Ho.
    eapply (add_synced s _ g a m); [done | done | done | by left].
  - split; [| by view_simpl]. split; [local_tac |]. intros Ho.
    eapply (add_synced s _ g a m); [done | done | done | by right].
Qed.

Lemma add_member_Ok env g st ne ja a s s' :
  add_member cfg env g st ne ja a s = (Ok tt, s') -> members s g !! a = None ->
  moves g s s' /\ joins [a] (mkGroupMember Member ne ja) (view s g) (view s' g).
Proof.
  unfold add_member, hook_added, deposit_event. intros Hrun Hnone. m_inv.
  match goal with Hj : clear_join_state g a ?s2 = (_, ?s3), Hu : user_groups_add _ _ _ _ = _ |- _ =>
    apply clear_join_state_Ok in Hj as (Hloc & Hv & Hug & Hgm);
    apply list_member_Ok in Hu as [[Hl Ho] Hv2]; [| done]; rename s2 into u, s3 into w end.
  split; [split |].
  - eapply local_trans; [exact Hl |]. destruct Hloc as [Hlv Hln Hlm]. split; [| done | done].
    intros g' Hne. by rewrite <- (Hlv g' Hne).
  - intros Hs. apply (lists_same w); [done | done |]. apply (lists_same u); [done | | by apply Ho].
    intros x who. unfold members. by rewrite Hgm.
  - change (joins [a] (mkGroupMember Member ne ja) (view s g) (view w g)). rewrite Hv, Hv2.
    apply joins_one.
Qed.

Lemma remove_member_Ok env g st ne a s s' :
  remove_member env g st ne a s = (Ok tt, s') ->
  moves g s s' /\ leaves [a] (view s g) (view s' g).
Proof.
  unfold remove_member, user_groups_remove, hook_removed, deposit_event. intros Hrun. m_inv.
  split; [split |].
  - local_tac.
  - intros Hs. by eapply (remove_synced s _ g a).
  - split; try (by view_simpl). intros who. view_simpl. rewrite lookup_delete.
    case_decide; [rewrite decide_True | rewrite decide_False];
      rewrite ?list_elem_of_singleton; done.
Qed.

Lemma add_loop_Ok env g st ne ja l s s' :
  NoDup l -> (forall a, a ∈ l -> members s g !! a = None) ->
  for_each l (add_member cfg env g st ne ja) s = (Ok tt, s') ->
  moves g s s' /\ joins l (mkGroupMember Member ne ja) (view s g) (view s' g).
Proof.
  intros Hnd. revert s. induction Hnd as [| a l Ha Hnd IH]; intros s Hnone; simpl.
  - intros [= <-]. split; [split; [apply local_refl | done] | apply joins_nil].
  - intros ([] & s1 & Hadd & Hl)%bind_Ok.
    apply add_member_Ok in Hadd as [Hm1 Hj1]; [| apply Hnone; by left].
    apply IH in Hl as [Hm2 Hj2].
    + split; [by eapply moves_trans | by eapply joins_cons].
    + intros b Hb. change (v_members (view s1 g) !! b = None).
      rewrite (jn_members _ _ _ _ Hj1). rewrite decide_False.
      * apply Hnone. by right.
      * intros ->%list_elem_of_singleton. done.
Qed.

Lemma remove_loop_Ok env g st ne l s s' :
  for_each l (remove_member env g st ne) s = (Ok tt, s') ->
  moves g s s' /\ leaves l (view s g) (view s' g).
Proof.
  revert s. induction l as [| a l IH]; intros s; simpl.
  - intros [= <-]. split; [split; [apply local_refl | done] | apply leaves_nil].
  - intros ([] & s1 & Hrem & Hl)%bind_Ok. apply remove_member_Ok in Hrem as [Hm1 Hj1].
    apply IH in Hl as [Hm2 Hj2]. split; [by eapply moves_trans | by eapply leaves_cons].
Qed.

(** The mailbox is not part of what the invariant is about: each addressee has
    the last Welcome for it, the others what they had. *)
Lemma welcome_loop_Ok g ws s s' :
  for_each ws (deliver_welcome cfg g) s = (Ok tt, s') ->
  moves g s s' /\ exists w, view s' g = (view s g) <| v_welcome := w |> /\
    (forall a, a ∉ ws.*1 -> w !! a = v_welcome (view s g) !! a) /\
    (NoDup ws.*1 -> forall a b, (a, b) ∈ ws -> w !! a = Some b).
Proof.
  revert s. induction ws as [| [a b] ws IH]; intros s; simpl.
  - intros [= <-]. split; [split; [apply local_refl | done] |]. exists (v_welcome (view s g)).
    split_and!; [done | done |]. by intros _ x y ?%elem_of_nil.
  - intros ([] & s1 & Hw & Hl)%bind_Ok. unfold deliver_welcome in Hw. m_inv.
    match goal with Hb : bounded _ _ _ = _ |- _ => apply bounded_Ok in Hb as (-> & -> & _) end.
    apply IH in Hl as [Hm (w & Hv & Hout & Hin)]. split.
    + eapply moves_trans; [| exact Hm]. split; [local_tac |]. by apply lists_same.
    + cbn [fst snd] in *. assert (v_welcome (view (s <| WelcomeMailbox ::= dset g a b |>) g) =
        <[a := b]> (v_welcome (view s g))) as Hfirst by (by view_simpl).
      rewrite Hfirst in Hout. exists w. split_and!; [rewrite Hv; by view_simpl | |].
      * intros x Hx. rewrite not_elem_of_cons in Hx. destruct Hx as [Hne Hx].
        by rewrite Hout, lookup_insert_ne by done.
      * intros Hnd x y [[= -> ->] | Hy]%elem_of_cons; apply NoDup_cons in Hnd as [Ha Hnd];
          [| by apply Hin]. by rewrite Hout, lookup_insert_eq by done.
Qed.

(** * The commit *)

(** The guards of [commit], all read in the state it starts in. *)
Record commit_guards (env : Env) (who : AccountId) g (e : Z) (d : MemberDelta) s
    (st : MlsGroupState) : Prop := {
  cg_muted : is_platform_muted env who (permission s) = false;
  cg_frozen : GroupFrozen s !! g = None;
  cg_group : GroupMls s !! g = Some st;
  cg_epoch : epoch st = e;
  cg_member : exists m, members s g !! who = Some m /\
    (added d <> [] \/ Exists (fun a => a <> who) (removed d) -> is_owner_or_admin m);
  cg_leave : removed d = [who] -> added d = [] -> who <> admin st;
  cg_distinct : NoDup (added d ++ removed d);
  cg_added : forall a, a ∈ added d -> addable s g st a;
  cg_removed : forall a, a ∈ removed d -> is_Some (members s g !! a) /\ a <> admin st;
  cg_cap : let n := sat_sub (sat_add u32_max (member_count st) (len (added d))) (len (removed d)) in
    n <= MaxGroupMembers cfg /\ n <> 2;
}.

(** The three stretches of writes, put together. *)
Lemma committed_view d st st' ne ja blob v v1 v2 v3 w :
  v_mls v = Some st -> len (added d) <= MaxGroupMembers cfg -> NoDup (added d ++ removed d) ->
  (forall a, a ∈ added d -> v_members v !! a = None /\ v_banned v !! a = None) ->
  (forall a, a ∈ removed d -> is_Some (v_members v !! a) /\ a <> admin st) ->
  joins (added d) (mkGroupMember Member ne ja) v v1 -> leaves (removed d) v1 v2 ->
  v3 = v2 <| v_mls := Some st' |> <| v_log ::= <[ne := blob]> |> <| v_welcome := w |> ->
  admin st' = admin st -> epoch st' = ne -> ne = sat_add u64_max (epoch st) 1 ->
  member_count st' = sat_sub (sat_add u32_max (member_count st) (len (added d))) (len (removed d)) ->
  member_count st' <= MaxGroupMembers cfg -> member_count st' <> 2 ->
  committed (MaxGroupMembers cfg) d st st' v v3.
Proof.
  intros Hb Hty Hnd Hadd Hrem Hj Hl -> Hadm Hep Hne Hcnt Hcap Htwo. destruct Hj, Hl.
  split; simpl; try done.
  - exists ja. intros who. rewrite Hep, lv_members0, jn_members0. repeat case_decide; done.
  - congruence.
  - exists blob. rewrite Hep. congruence.
  - intros who. by rewrite lv_requests0.
  - intros who. by rewrite lv_approvals0.
  - unfold count_follows, counted, pending_of in *. simpl. by rewrite lv_requests0, lv_pending0.
  - congruence.
  - congruence.
Qed.

Definition next_state (st : MlsGroupState) (th tr : Bytes32) (cid : bytes) (d : MemberDelta)
    : MlsGroupState :=
  st <| epoch := sat_add u64_max (epoch st) 1 |> <| tree_hash := th |>
    <| confirmed_transcript_hash := tr |> <| group_info_cid := cid |>
    <| member_count := sat_sub (sat_add u32_max (member_count st) (len (added d)))
         (len (removed d)) |>.

Lemma commit_Ok env o g e blob th tr cid ws d s s' :
  commit cfg env o g e blob th tr cid ws d s = (Ok tt, s') ->
  len (added d) <= MaxGroupMembers cfg ->
  exists who st, let st' := next_state st th tr cid d in
    ensure_signed o = Some who /\ commit_guards env who g e d s st /\ moves g s s' /\
    committed (MaxGroupMembers cfg) d st st' (view s g) (view s' g) /\
    v_log (view s' g) = <[epoch st' := blob]> (v_log (view s g)) /\
    ensure_welcomes_match_added (added d) ws s = (Ok tt, s) /\
    (NoDup ws.*1 -> forall a b, (a, b) ∈ ws -> v_welcome (view s' g) !! a = Some b).
Proof.
  unfold commit, deposit_event. intros Hrun Hty. g_inv.
  match goal with
  | Ho : ensure_signed o = Some ?who, Hg : GroupMls s !! g = Some ?st |- _ =>
      exists who, st; set (st' := next_state st th tr cid d)
  end.
  match goal with Hl : for_each (added d) _ _ = _ |- _ =>
    apply add_loop_Ok in Hl as [Hm1 Hj]; [| by apply NoDup_app in H12 as [? _] |
      intros a Ha; by apply H13] end.
  match goal with Hl : for_each (removed d) _ _ = _ |- _ => apply remove_loop_Ok in Hl as [Hm2 Hl] end.
  match goal with Hw : for_each ws _ ?s2 = (_, ?s3) |- _ =>
    apply welcome_loop_Ok in Hw as [Hm3 (w & Hv3 & _ & Hbox)] end.
  assert (view x42 g = (view x32 g) <| v_mls := Some st' |>
    <| v_log ::= <[sat_add u64_max (epoch x5) 1 := blob]> |> <| v_welcome := w |>) as Hv
    by (rewrite Hv3; by view_simpl).
  split_and!; [done | by split; eauto | | | | done |].
  - eapply moves_trans; [| eapply moves_trans; [exact Hm1 | eapply moves_trans; [exact Hm2 |
      eapply moves_trans; [| eapply moves_trans; [exact Hm3 |]]]]]; moves_tac.
  - change (committed (MaxGroupMembers cfg) d x5 st' (view s g) (view x42 g)).
    eapply (committed_view _ _ _ _ _ blob); [.. | exact Hv | | | | | |]; try done.
    intros a Ha. apply H13 in Ha as (? & ? & _). done.
  - change (v_log (view x42 g) = <[epoch st' := blob]> (v_log (view s g))). rewrite Hv.
    change (<[epoch st' := blob]> (v_log (view x32 g)) =
      <[epoch st' := blob]> (v_log (view s g))).
    by rewrite (lv_log _ _ _ H20), (jn_log _ _ _ _ Hj).
  - intros Hnd a b Hin. change (v_welcome (view x42 g) !! a = Some b). rewrite Hv. simpl.
    by apply Hbox.
Qed.

(** * The teardown *)

Context `{!PrefixStorageLaws}.

Definition limit : nat := MAX_DISBAND_ITEMS_PER_CALL.

(** The stored entries the teardown has to remove one by one. *)
Definition rows (v : View) : nat :=
  size (v_members v) + size (v_log v) + size (v_welcome v) + size (v_digests v) +
  size (v_requests v) + size (v_approvals v) + size (v_nicknames v) + size (v_banned v) +
  size (v_muted v).

(** One bounded clearing, on a view. *)
Definition clear_view (v : View) : View :=
  v <| v_log ::= fun m => (clear_row limit m).1 |>
    <| v_welcome ::= fun m => (clear_row limit m).1 |>
    <| v_digests ::= fun m => (clear_row limit m).1 |>
    <| v_requests ::= fun m => (clear_row limit m).1 |>
    <| v_approvals ::= fun m => (clear_row limit m).1 |>
    <| v_nicknames ::= fun m => (clear_row limit m).1 |>
    <| v_banned ::= fun m => (clear_row limit m).1 |>
    <| v_muted ::= fun m => (clear_row limit m).1 |>.

Definition clear_cursor (v : View) : bool :=
  (clear_row limit (v_log v)).2 || (clear_row limit (v_welcome v)).2 ||
  (clear_row limit (v_digests v)).2 || (clear_row limit (v_requests v)).2 ||
  (clear_row limit (v_approvals v)).2 || (clear_row limit (v_nicknames v)).2 ||
  (clear_row limit (v_banned v)).2 || (clear_row limit (v_muted v)).2.

Lemma clear_row_size {K V} `{Countable K} (m : gmap K V) :
  (size (clear_row limit m).1 <= size m)%nat /\
  (FreshRowLaws -> (clear_row limit m).2 = true -> (size (clear_row limit m).1 + limit <= size m)%nat).
Proof. split; [apply map_subseteq_size, clear_row_subseteq | intros ?; apply clear_row_cursor]. Qed.

Lemma clear_view_rows v :
  (rows (clear_view v) <= rows v)%nat /\
  (FreshRowLaws -> clear_cursor v = true -> (rows (clear_view v) + limit <= rows v)%nat).
Proof.
  unfold clear_cursor, clear_view, rows. simpl.
  pose proof (clear_row_size (v_log v)). pose proof (clear_row_size (v_welcome v)).
  pose proof (clear_row_size (v_digests v)). pose proof (clear_row_size (v_requests v)).
  pose proof (clear_row_size (v_approvals v)). pose proof (clear_row_size (v_nicknames v)).
  pose proof (clear_row_size (v_banned v)). pose proof (clear_row_size (v_muted v)).
  split; [lia |]. intros Hfresh. rewrite !orb_true_iff. intuition lia.
Qed.

Lemma clear_view_done v :
  clear_cursor v = false ->
  v_log (clear_view v) = ∅ /\ v_welcome (clear_view v) = ∅ /\ v_digests (clear_view v) = ∅ /\
  v_requests (clear_view v) = ∅ /\ v_approvals (clear_view v) = ∅ /\
  v_nicknames (clear_view v) = ∅ /\ v_banned (clear_view v) = ∅ /\ v_muted (clear_view v) = ∅.
Proof.
  unfold clear_cursor. rewrite !orb_false_iff. intros Hc. destruct_and! Hc.
  unfold clear_view. simpl. split_and!; by apply clear_row_done.
Qed.

Lemma clear_rows_Ok g s c s' :
  clear_rows g s = (Ok c, s') ->
  moves g s s' /\ view s' g = clear_view (view s g) /\ c = clear_cursor (view s g).
Proof.
  unfold clear_rows, clear_prefix, clear_cursor, clear_view. simpl. fold limit.
  repeat match goal with |- context [clear_row limit ?m] =>
    let r := fresh "r" in let b := fresh "b" in destruct (clear_row limit m) as [r b] eqn:? end.
  intros [= <- <-]. split_and!; [| | done].
  - split; [| by apply lists_same]. split; [| done | done].
    intros g' Hne. unfold view, members. cbn -[prefix]. by rewrite !prefix_insert, !decide_False by congruence.
  - unfold view, members. cbn -[prefix]. by rewrite !prefix_insert, !decide_True by done.
Qed.

Lemma evict_loop_Ok env g adm l s s' :
  for_each l (evict_member env g adm) s = (Ok tt, s') ->
  moves g s s' /\ exists ms, view s' g = (view s g) <| v_members := ms |> /\
    forall who, ms !! who = if decide (who ∈ l) then None else v_members (view s g) !! who.
Proof.
  revert s. induction l as [| a l IH]; intros s; simpl.
  - intros [= <-]. split; [split; [apply local_refl | done] |].
    by exists (v_members (view s g)).
  - intros ([] & s1 & He & Hl)%bind_Ok. apply IH in Hl as [Hm2 (ms & Hv & Hms)].
    assert (moves g s s1 /\ view s1 g = (view s g) <| v_members ::= delete a |>) as [Hm1 Hv1].
    { unfold evict_member, user_groups_remove, hook_removed in He.
      m_inv; (split; [split; [local_tac |]; intros Hs; by eapply (remove_synced s _ g a) |
        by view_simpl]). }
    split; [by eapply moves_trans |]. exists ms. split; [rewrite Hv, Hv1; done |].
    intros who. rewrite Hms, Hv1. simpl. rewrite lookup_delete.
    repeat case_decide; rewrite ?elem_of_cons in *; intuition congruence.
Qed.

Lemma map_size_removed {V} (m m' : gmap AccountId V) l :
  NoDup l -> (forall who, who ∈ l -> is_Some (m !! who)) ->
  (forall who, m' !! who = if decide (who ∈ l) then None else m !! who) ->
  (size m' + length l = size m)%nat /\ m' ⊆ m.
Proof.
  intros Hnd Hin Hm'.
  assert (dom m' = dom m ∖ list_to_set l) as Hdom.
  { apply set_eq. intros who. rewrite elem_of_difference, !elem_of_dom, Hm', elem_of_list_to_set.
    case_decide; [split; [by intros [? ?] | tauto] | tauto]. }
  assert (list_to_set l ⊆@{gset AccountId} dom m) as Hsub
    by (intros who Hw%elem_of_list_to_set; by apply elem_of_dom, Hin).
  split.
  - pose proof (subseteq_size _ _ Hsub) as Hle. rewrite size_list_to_set in Hle by done.
    rewrite <- !size_dom, Hdom, size_difference, size_list_to_set by done.
    rewrite size_dom in *. lia.
  - apply map_subseteq_spec. intros who x. rewrite Hm'. by case_decide.
Qed.

(** The members a teardown call evicts. *)
Definition evicted s g : list AccountId := take limit (iter_keys (members s g)).

Lemma evicted_spec s g :
  NoDup (evicted s g) /\ (forall who, who ∈ evicted s g -> is_Some (members s g !! who)) /\
  (length (evicted s g) = limit \/ length (evicted s g) = size (members s g)).
Proof.
  unfold evicted. pose proof (iter_keys_spec _ _ (members s g)) as Hperm.
  assert (NoDup (iter_keys (members s g))) as Hnd
    by (rewrite Hperm; apply NoDup_fst_map_to_list).
  split_and!.
  - eapply sublist_NoDup; [exact Hnd | apply sublist_take].
  - intros who Hw%(subseteq_take limit). rewrite Hperm in Hw.
    apply list_elem_of_fmap in Hw as ([k x] & -> & Hw). apply elem_of_map_to_list in Hw. eauto.
  - rewrite length_take, Hperm, length_fmap, length_map_to_list. lia.
Qed.

(** The view after the eviction of [n] members, before the other rows. *)
Definition evicted_view (v : View) (ms : gmap AccountId GroupMember) (n : Z) : View :=
  v <| v_members := ms |>
    <| v_mls ::= fun o => (fun st => if decide (n = 0) then st else
         st <| member_count ::= fun c => sat_sub c n |>) <$> o |>.

Lemma evict_members_Ok env g adm s s' :
  evict_members env g adm s = (Ok tt, s') ->
  moves g s s' /\ exists ms, view s' g = evicted_view (view s g) ms (len (evicted s g)) /\
    forall who, ms !! who = if decide (who ∈ evicted s g) then None else members s g !! who.
Proof.
  unfold evict_members. intros Hrun. m_inv; fold limit in *; fold (evicted s g) in *;
    match goal with Hl : for_each _ _ _ = _ |- _ =>
      apply evict_loop_Ok in Hl as [Hm (ms & Hv & Hms)] end.
  - split; [eapply moves_trans; [exact Hm | moves_tac] |]. exists ms. split; [| done].
    match goal with |- view (?x <| GroupMls ::= alter ?f g |>) g = _ =>
      trans ((view x g) <| v_mls ::= fmap f |>); [by view_simpl | rewrite Hv] end.
    unfold evicted_view. simpl. f_equal. destruct (GroupMls s !! g); [| done]. simpl.
    rewrite decide_False; [done |]. unfold len. by destruct (evicted s g).
  - split; [done |]. exists ms. split; [| done]. rewrite Hv. unfold evicted_view.
    match goal with Hn : ~ (evicted s g <> []) |- _ => apply dec_stable in Hn; rewrite Hn end.
    simpl. f_equal. by destruct (GroupMls s !! g).
Qed.

Lemma do_disband_Ok env g b s s' :
  do_disband env g s = (Ok b, s') ->
  exists s1 ms v1, moves g s s1 /\
    v1 = (evicted_view (view s g) ms (len (evicted s g))) <| v_frozen := Some tt |> /\
    (forall who, ms !! who = if decide (who ∈ evicted s g) then None else members s g !! who) /\
    view s1 g = clear_view v1 /\
    b = negb (bool_decide (ms <> ∅) || clear_cursor v1) /\
    if b then finish_disband g s1 = (Ok tt, s') else moves g s1 s' /\ view s' g = view s1 g.
Proof.
  unfold do_disband. intros Hrun. m_inv;
    match goal with He : evict_members _ _ _ _ = _, Hc : clear_rows _ _ = _ |- _ =>
      apply evict_members_Ok in He as [Hm1 (ms & Hv1 & Hms)];
      apply clear_rows_Ok in Hc as (Hm2 & Hv2 & ->) end;
    match type of Hm1 with moves g ?s0 ?x => assert (view s0 g = (view s g) <| v_frozen := Some tt |>)
      as Hv0 by (by view_simpl); rename x into s1 end;
    match type of Hm2 with moves g _ ?x => rename x into s2 end;
    assert (members s2 g = ms) as Hms2
      by (change (v_members (view s2 g) = ms); by rewrite Hv2, Hv1);
    rewrite Hms2 in *; exists s2, ms, (view s1 g);
    (split; [| split; [by rewrite Hv1, Hv0 | split; [exact Hms | split; [exact Hv2 | split]]]]);
    try (eapply moves_trans; [| eapply moves_trans; [exact Hm1 | exact Hm2]]; moves_tac).
  - match goal with Hb : _ || _ = true |- _ => by rewrite Hb end.
  - unfold deposit_event in *. m_inv. split; [moves_tac | done].
  - match goal with Hb : _ || _ = false |- _ => by rewrite Hb end.
  - done.
Qed.

Definition refunded s s' g : Prop :=
  GroupDepositOf s' = delete g (GroupDepositOf s) /\
  KeyPackages s' = KeyPackages s /\ NextKeyPackageId s' = NextKeyPackageId s /\
  KeyPackageCount s' = KeyPackageCount s /\
  ledger s' = match GroupDepositOf s !! g with
              | Some (who, a) => (unreserve who a (ledger s)).1
              | None => ledger s
              end.

(** A finished teardown. *)
Record gone g s s' : Prop := {
  gn_view : view s' g = empty_view;
  gn_other : forall g', g' <> g -> view s' g' = view s g';
  gn_next : NextGroupId s' = NextGroupId s;
  gn_lists : lists_ok s -> lists_ok s';
  gn_money : refunded s s' g;
}.

Lemma finish_disband_Ok g s s' :
  finish_disband g s = (Ok tt, s') ->
  v_members (view s g) = ∅ -> (exists v, view s g = clear_view v /\ clear_cursor v = false) ->
  gone g s s'.
Proof.
  intros Hrun Hmem (v & Hv & Hc). apply clear_view_done in Hc. rewrite <- Hv in Hc.
  destruct Hc as (Hc1 & Hc2 & Hc3 & Hc4 & Hc5 & Hc6 & Hc7 & Hc8). clear v Hv.
  change (members s g = ∅) in Hmem. simpl in *.
  unfold finish_disband, deposit_event in Hrun. p_inv;
    (split; [view_simpl; unfold members in *; unfold empty_view; congruence
      | intros g' Hne; by view_simpl | done | by apply lists_same |]);
    split_and!; try done; simpl;
    match goal with Hd : GroupDepositOf _ !! _ = _ |- _ => simpl in Hd; by rewrite Hd end.
Qed.

Lemma gone_after_moves g s s1 s' : moves g s s1 -> gone g s1 s' -> gone g s s'.
Proof.
  intros [[Hlv Hln Hlm] Hlo] [Hv Ho Hn Hl (Hd & Hk1 & Hk2 & Hk3 & Hled)].
  unfold money in Hlm. injection Hlm as El Ed Ek1 Ek2 Ek3.
  split; [done | | congruence | auto |].
  - intros g' Hne. by rewrite Ho, Hlv.
  - unfold refunded. rewrite Hd, Hk1, Hk2, Hk3, Hled, El, Ed, Ek1, Ek2, Ek3. done.
Qed.

(** One teardown call on an existing group: it is gone, or its rows have shrunk, in a
    block that had not touched them by at least the budget. *)
Lemma disband_Ok env g b s s' st :
  do_disband env g s = (Ok b, s') -> GroupMls s !! g = Some st ->
  if b then gone g s s'
  else moves g s s' /\ (exists st', shrunk st st' (view s g) (view s' g)) /\
    (FreshRowLaws -> (rows (view s' g) + limit <= rows (view s g))%nat).
Proof.
  intros Hrun Hst. apply do_disband_Ok in Hrun as (s1 & ms & v1 & Hm & Hv1 & Hms & Hs1 & Hb & Hend).
  destruct (evicted_spec s g) as (Hnd & Hin & Hlen).
  destruct (map_size_removed (members s g) ms (evicted s g) Hnd Hin Hms) as [Hsize Hsub].
  destruct (clear_view_rows v1) as [Hr1 Hr2].
  destruct b; symmetry in Hb.
  - apply negb_true_iff, orb_false_iff in Hb as [Hms0%bool_decide_eq_false Hc].
    apply dec_stable in Hms0. eapply gone_after_moves; [exact Hm |].
    eapply finish_disband_Ok; [exact Hend | | eauto]. by rewrite Hs1, Hv1.
  - apply negb_false_iff, orb_true_iff in Hb. destruct Hend as [Hm2 Hv2].
    split; [by eapply moves_trans |]. rewrite Hv2, Hs1.
    assert (rows v1 + length (evicted s g) = rows (view s g))%nat as Hrows
      by (rewrite Hv1; unfold rows; simpl; lia).
    split.
    + set (k := len (evicted s g)) in *.
      exists (if decide (k = 0) then st else st <| member_count ::= fun c => sat_sub c k |>).
      subst v1. split; simpl; try apply clear_row_subseteq; try done.
      * by rewrite Hst.
      * exists k. split; [unfold k, len; lia | by case_decide].
      * by case_decide.
    + intros Hfresh. destruct Hb as [Hne%bool_decide_eq_true | Hc]; [| specialize (Hr2 Hfresh Hc); lia].
      destruct Hlen as [Hlen | Hlen]; [lia |]. exfalso. apply Hne, map_size_empty_inv. lia.
Qed.

(** * What a call does *)

Abbreviation vok := (view_ok (MaxGroupMembers cfg) (MaxPendingJoins cfg)).

(** The groups the call may tear down. *)
Context (D : Z -> Prop).

Abbreviation vchange g := (vstep (D g) (MaxGroupMembers cfg) (MaxPendingJoins cfg)).

(** A new group [g], owned by [who]. *)
Record created g (who : AccountId) s s' : Prop := {
  cr_id : g = NextGroupId s;
  cr_range : g + 1 <= u64_max;
  cr_next : NextGroupId s' = g + 1;
  cr_other : forall g', g' <> g -> view s' g' = view s g';
  cr_view : exists st m, view s' g = (view s g) <| v_mls := Some st |>
      <| v_members ::= <[who := m]> |> <| v_deposit := Some (who, GroupDeposit cfg) |> /\
    admin st = who /\ epoch st = 0 /\ member_count st = 1 /\ role m = Owner;
  cr_lists : members s g !! who = None -> lists_ok s -> lists_ok s';
  cr_deposit : GroupDepositOf s' = <[g := (who, GroupDeposit cfg)]> (GroupDepositOf s);
  cr_ledger : reserve who (GroupDeposit cfg) (ledger s) = Some (ledger s');
  cr_keys : KeyPackages s' = KeyPackages s /\ NextKeyPackageId s' = NextKeyPackageId s /\
    KeyPackageCount s' = KeyPackageCount s;
}.

(** A key package published or revoked by [who]. *)
Inductive keys_change (who : AccountId) s s' : Prop :=
| kc_publish blob
    (Hroom : get0 (KeyPackageCount s) who < MaxKeyPackagesPerUser cfg)
    (Hres : reserve who (KeyPackageDeposit cfg) (ledger s) = Some (ledger s'))
    (Hkp : KeyPackages s' = dset who (get0 (NextKeyPackageId s) who) blob (KeyPackages s))
    (Hnext : NextKeyPackageId s' =
      <[who := sat_add u64_max (get0 (NextKeyPackageId s) who) 1]> (NextKeyPackageId s))
    (Hcount : KeyPackageCount s' =
      <[who := sat_add u32_max (get0 (KeyPackageCount s) who) 1]> (KeyPackageCount s))
| kc_revoke kp
    (Hin : is_Some (dget (KeyPackages s) who kp))
    (Hled : ledger s' = (unreserve who (KeyPackageDeposit cfg) (ledger s)).1)
    (Hkp : KeyPackages s' = drem who kp (KeyPackages s))
    (Hnext : NextKeyPackageId s' = NextKeyPackageId s)
    (Hcount : KeyPackageCount s' =
      <[who := sat_sub (get0 (KeyPackageCount s) who) 1]> (KeyPackageCount s)).

Definition groups_same s s' : Prop :=
  (forall g, view s' g = view s g) /\ NextGroupId s' = NextGroupId s /\
  (lists_ok s -> lists_ok s').

Inductive change s s' : Prop :=
| ch_group g (Hm : moves g s s') (Hstep : vchange g (view s g) (view s' g))
| ch_create g who (Hc : created g who s s')
| ch_gone g (Hsome : is_Some (GroupMls s !! g)) (Hg : gone g s s')
| ch_keys who (Hsame : groups_same s s') (Hdep : GroupDepositOf s' = GroupDepositOf s)
    (Hk : keys_change who s s')
| ch_same (Hsame : groups_same s s') (Hmoney : money s' = money s).

Lemma rebind_loop_Ok env g who to l s s' :
  for_each l (rebind env g who to) s = (Ok tt, s') -> exists p, s' = s <| permission := p |>.
Proof.
  revert s. induction l as [| a l IH]; intros s; simpl.
  - intros [= <-]. exists (permission s). by destruct s.
  - intros ([] & s1 & Hb & Hl)%bind_Ok. apply IH in Hl as [p ->].
    unfold rebind, hook_added, hook_removed in Hb. m_inv; by eexists.
Qed.

(** A row at [g] exists only with the group. *)
Lemma row_group {V} s g (row : View -> gmap AccountId V) who :
  vok (view s g) -> is_Some (row (view s g) !! who) -> row empty_view = ∅ ->
  is_Some (GroupMls s !! g).
Proof.
  intros Hv Hrow Hemp. destruct (GroupMls s !! g) eqn:Hg; [eauto |].
  apply (vo_orphan _ _ _ Hv) in Hg. rewrite Hg, Hemp, lookup_empty in Hrow. by destruct Hrow.
Qed.

(** A write to a row the invariant says nothing about. *)
Lemma decor_change g s s' :
  is_Some (GroupMls s !! g) -> local g s s' -> GroupMembers s' = GroupMembers s ->
  UserGroups s' = UserGroups s -> same_core (view s g) (view s' g) -> change s s'.
Proof.
  intros Hsome Hl Hm Hug Hcore. apply (ch_group _ _ g); [| by apply vs_decor].
  split; [done |]. apply lists_same; [done |]. intros x who. unfold members. by rewrite Hm.
Qed.

Ltac decor g := apply (decor_change g); [try done | local_tac | done | done |
  split_and!; simpl; by view_simpl].

Lemma create_group_Ok env o cid suite public th tr s s' :
  create_group cfg env o cid suite public th tr s = (Ok tt, s') ->
  exists who, ensure_signed o = Some who /\ created (NextGroupId s) who s s'.
Proof.
  unfold create_group, deposit_event. intros Hrun. g_inv;
    match goal with Hs : ensure_signed _ = Some ?who, Hr : reserve _ _ _ = Some ?l,
        Hu : user_groups_add _ _ _ _ = _ |- _ =>
      exists who; split; [done |]; change (NextGroupId (with_ledger l s)) with (NextGroupId s) in *;
      set (g := NextGroupId s) in *; apply user_groups_add_Ok in Hu;
      change (user_groups _ who) with (user_groups s who) in Hu;
      destruct Hu as [[Hin ->] | [Hroom ->]] end.
  all: split; [done | done | done | intros g' Hne; by view_simpl | | | done | done | done].
  all: try (eexists _, _; split; [by view_simpl | done]).
  all: intros Hnone Hs; eapply (add_synced s); [exact Hnone | done | reflexivity |].
  1, 3: by left.
  all: by right.
Qed.

Ltac same_tac := split_and!; [done | done | by apply lists_same].

(** Rewriting the rows of existing members leaves the lists in step. *)
Lemma lists_rewrite s s' g who m :
  UserGroups s' = UserGroups s -> is_Some (members s g !! who) ->
  GroupMembers s' = dset g who m (GroupMembers s) -> lists_ok s -> lists_ok s'.
Proof.
  intros Hug Hsome Hm. apply lists_same; [done |]. intros x who'. unfold members in *. rewrite Hm.
  change (is_Some (dget (dset g who m (GroupMembers s)) x who') <->
    is_Some (dget (GroupMembers s) x who')).
  rewrite dget_dset. case_decide as Hd; [| done]. destruct Hd as [<- <-]. split; [done | by eauto].
Qed.

Lemma transfer_Ok env o g to s s' :
  transfer_ownership env o g to s = (Ok tt, s') ->
  moves g s s' /\ vchange g (view s g) (view s' g).
Proof.
  unfold transfer_ownership, deposit_event. intros Hrun. g_inv.
  match goal with Hl : for_each _ _ _ = _ |- _ => apply rebind_loop_Ok in Hl as [p ->] end.
  match goal with Ho : members s g !! admin ?st = Some ?old, Ht : members s g !! to = Some ?t |- _ =>
    split; [split; [local_tac |] | eapply (vs_transfer _ _ _ _ _ st to old t); try done; by view_simpl];
    intros Hs; apply (lists_rewrite (s <| GroupMembers ::= dset g (admin st) (old <| role := Admin |>) |>)
      _ g to (t <| role := Owner |>)); [done | | done |];
    [| by eapply (lists_rewrite s _ g (admin st)); [done | by eauto | reflexivity |] ] end.
  view_simpl. eauto.
Qed.

Lemma do_disband_change env g b s s' :
  do_disband env g s = (Ok b, s') -> is_Some (GroupMls s !! g) -> D g -> change s s'.
Proof.
  intros Hd [st Hst] Hdown. pose proof (disband_Ok _ _ _ _ _ _ Hd Hst) as Hb. destruct b.
  - by apply (ch_gone _ _ g).
  - destruct Hb as (Hm & [st' Hs] & _). eapply ch_group; [exact Hm |]. by eapply vs_shrink.
Qed.

(** The calls that tear group [g] down. *)
Definition tears_down (c : Call) (g : Z) : Prop := c = DisbandGroup g \/ c = ForceDisbandGroup g.

Lemma apply_call_change env o c s s' :
  (forall g, vok (view s g)) -> call_typed cfg c -> (forall g, tears_down c g -> D g) ->
  apply_call cfg env o c s = (Ok tt, s') -> change s s'.
Proof.
  intros Hok Hty Hd. destruct c; simpl in *; intros Hrun.
  - unfold publish_key_package, deposit_event in Hrun. g_inv.
    apply (ch_keys _ _ x); [same_tac | done |]. by eapply kc_publish.
  - unfold revoke_key_package, deposit_event in Hrun. g_inv.
    apply (ch_keys _ _ x); [same_tac | done |]. by eapply kc_revoke.
  - apply create_group_Ok in Hrun as (who & _ & Hc). by eapply ch_create.
  - destruct Hty as [Hty _]. apply commit_Ok in Hrun as (who & st & _ & _ & Hm & Hc & _ & _); [| done].
    eapply ch_group; [exact Hm |]. by eapply vs_commit.
  - unfold claim_welcome, deposit_event in Hrun. g_inv. decor group_id.
    by eapply (row_group s group_id v_welcome).
  - unfold disband_group in Hrun. g_inv. eapply do_disband_change; [done | done | apply Hd; by left].
  - unfold anchor_message_digest, deposit_event in Hrun. g_inv. decor group_id.
  - unfold request_join, deposit_event in Hrun. g_inv.
    eapply (ch_group _ _ group_id); [moves_tac |].
    eapply vs_request; [simpl; eauto | done | done | done | done |]. by view_simpl.
  - unfold cancel_join_request, deposit_event in Hrun. g_inv.
    match goal with Hj : clear_join_state _ _ _ = _ |- _ =>
      apply clear_join_state_Ok in Hj as (Hl & Hv & Hug & Hgm) end.
    eapply (ch_group _ _ group_id).
    + split; [destruct Hl; by split |]. apply lists_same; [done |]. simpl. unfold members.
      simpl. by rewrite Hgm.
    + eapply vs_cancel; [| exact Hv]. by eapply (row_group s group_id v_requests).
  - unfold approve_join, deposit_event in Hrun. g_inv.
    eapply (ch_group _ _ group_id); [moves_tac |].
    eapply vs_approve; [simpl; eauto | eassumption.. |]. by view_simpl.
  - apply transfer_Ok in Hrun as (Hm & Hs). by eapply ch_group.
  - unfold set_admin, deposit_event in Hrun. g_inv.
    eapply (ch_group _ _ group_id).
    + split; [local_tac |]. by eapply (lists_rewrite s _ group_id who); [done | by eauto | reflexivity].
    + eapply vs_set_admin; [eassumption .. |]. by view_simpl.
  - unfold set_group_profile, deposit_event in Hrun. g_inv. decor group_id.
    by eapply (row_group s group_id v_members); [| eauto |].
  - unfold set_group_nickname, deposit_event in Hrun. g_inv; decor group_id;
      by eapply (row_group s group_id v_members).
  - unfold ban_member, deposit_event in Hrun. g_inv.
    match goal with Hj : clear_join_state _ _ ?s1 = _ |- _ =>
      apply clear_join_state_Ok in Hj as (Hl & Hv & Hug & Hgm); set (u := s1) in * end.
    eapply (ch_group _ _ group_id).
    + apply (moves_trans _ _ u); [moves_tac |].
      split; [destruct Hl; by split |]. apply lists_same; [done |]. simpl. unfold members.
      simpl. by rewrite Hgm.
    + eapply (vs_ban _ _ _ _ _ who); [simpl; eauto |]. trans (clear_join who (view u group_id));
        [exact Hv |]. unfold u. by view_simpl.
  - unfold unban_member, deposit_event in Hrun. g_inv.
    eapply (ch_group _ _ group_id); [moves_tac |].
    eapply vs_unban; [simpl; eauto |]. by view_simpl.
  - unfold set_member_mute, deposit_event in Hrun. g_inv; decor group_id.
  - unfold set_group_mute_all, deposit_event in Hrun. g_inv; decor group_id.
  - unfold force_disband_group, deposit_event in Hrun. g_inv.
    + match goal with Hd : do_disband _ _ _ = _ |- _ =>
        eapply disband_Ok in Hd as [Hv Ho Hn Hl Hmon]; [| eassumption] end.
      apply (ch_gone _ _ group_id); [eauto |]. split; try done.
      intros Hs. eapply lists_same; [| | by apply Hl]; done.
    + eapply do_disband_change; [done | done | apply Hd; by right].
  - unfold set_group_frozen, deposit_event in Hrun. g_inv; decor group_id.
Qed.

(** * Becoming a member *)

(** Calls other than a commit and a creation never add a member row. *)
Definition adds_members (c : Call) : bool :=
  match c with Commit _ _ _ _ _ _ _ _ | CreateGroup _ _ _ _ _ => true | _ => false end.

Lemma members_same s s' g : GroupMembers s' = GroupMembers s -> members s' g = members s g.
Proof. unfold members. by intros ->. Qed.

(** Views that shrink or vanish at one group shrink everywhere. *)
Lemma disband_members env g b s s' st g' :
  do_disband env g s = (Ok b, s') -> GroupMls s !! g = Some st -> members s' g' ⊆ members s g'.
Proof.
  intros Hd Hst. pose proof (disband_Ok _ _ _ _ _ _ Hd Hst) as Hb.
  assert (v_members (view s' g') ⊆ v_members (view s g')) as Hsub; [| done].
  destruct b; destruct (decide (g' = g)) as [-> | Hne].
  - destruct Hb as [-> _ _ _ _]. apply map_empty_subseteq.
  - by rewrite (gn_other _ _ _ Hb).
  - by destruct Hb as (_ & [st' Hs] & _); apply (sh_members _ _ _ _ Hs).
  - destruct Hb as [[Hl _] _]. by rewrite (loc_view _ _ _ Hl).
Qed.

Lemma rewritten_row s s' g who m g' who' :
  is_Some (members s g !! who) -> GroupMembers s' = dset g who m (GroupMembers s) ->
  is_Some (members s' g' !! who') -> is_Some (members s g' !! who').
Proof.
  intros Hin Hm. unfold members in *. rewrite Hm.
  change (is_Some (dget (dset g who m (GroupMembers s)) g' who') ->
    is_Some (dget (GroupMembers s) g' who')).
  rewrite dget_dset. case_decide as Hd; [| done]. by destruct Hd as [<- <-].
Qed.

Lemma members_shrink env o c s s' g who :
  adds_members c = false -> apply_call cfg env o c s = (Ok tt, s') ->
  is_Some (members s' g !! who) -> is_Some (members s g !! who).
Proof.
  intros Hc Hrun. destruct c; simpl in *; try done.
  - unfold publish_key_package, deposit_event in Hrun. by g_inv.
  - unfold revoke_key_package, deposit_event in Hrun. by g_inv.
  - unfold claim_welcome, deposit_event in Hrun. by g_inv.
  - unfold disband_group in Hrun. g_inv. intros Hw.
    eapply lookup_weaken_is_Some; [exact Hw | by eapply disband_members].
  - unfold anchor_message_digest, deposit_event in Hrun. by g_inv.
  - unfold request_join, deposit_event in Hrun. by g_inv.
  - unfold cancel_join_request, deposit_event in Hrun. g_inv.
    match goal with Hj : clear_join_state _ _ _ = _ |- _ =>
      apply clear_join_state_Ok in Hj as (_ & _ & _ & Hgm) end.
    unfold members. simpl. by rewrite Hgm.
  - unfold approve_join, deposit_event in Hrun. by g_inv.
  - unfold transfer_ownership, deposit_event in Hrun. g_inv.
    match goal with Hl : for_each _ _ _ = _ |- _ => apply rebind_loop_Ok in Hl as [p ->] end.
    match goal with
    | Ho : members s ?x !! admin ?st = Some ?old, Ht : members s ?x !! to = Some ?t |- _ =>
      set (s1 := s <| GroupMembers ::= dset x (admin st) (old <| role := Admin |>) |>);
      intros Hw; apply (rewritten_row s s1 x (admin st) (old <| role := Admin |>)); [by eauto | done |];
      eapply (rewritten_row s1 _ x to (t <| role := Owner |>)); [| | exact Hw]; [| done]
    end.
    unfold s1. view_simpl. eauto.
  - unfold set_admin, deposit_event in Hrun. g_inv.
    eapply rewritten_row; [| reflexivity]. eauto.
  - unfold set_group_profile, deposit_event in Hrun. by g_inv.
  - unfold set_group_nickname, deposit_event in Hrun. by g_inv.
  - unfold ban_member, deposit_event in Hrun. g_inv.
    match goal with Hj : clear_join_state _ _ _ = _ |- _ =>
      apply clear_join_state_Ok in Hj as (_ & _ & _ & Hgm) end.
    unfold members. simpl. by rewrite Hgm.
  - unfold unban_member, deposit_event in Hrun. by g_inv.
  - unfold set_member_mute, deposit_event in Hrun. by g_inv.
  - unfold set_group_mute_all, deposit_event in Hrun. by g_inv.
  - unfold force_disband_group, deposit_event in Hrun. g_inv; intros Hw;
      match goal with Hd : do_disband _ _ _ = (_, ?x) |- _ =>
        eapply (lookup_weaken_is_Some (members x g)); [exact Hw | by eapply disband_members] end.
  - unfold set_group_frozen, deposit_event in Hrun. by g_inv.
Qed.
End Steps.
