(* ===== verification/GroupHooks.v ===== *)
(** What the calls of [pallet-chat-group] do to the authorization layer: a commit
    calls the hook once for every account it adds and once for every account it
    removes, a transfer of ownership rebinds every other member, a teardown call
    unbinds the members it evicts, and no other call touches the layer. *)

From S2P Require Import Prelude Frame ChatCommon ChatGroup GroupViews GroupChecks GroupSteps.
Import Group.

Section Hooks.
Context `{FrameSystem} {L P : Type} `{ReservableCurrency L} `{PrefixStorage}.
Context `{GroupChatHook P} `{PlatformMuteChecker P} (cfg : Config).
Implicit Types (s : State L P) (g : Z) (p : P).

Definition hooks_added (env : Env) g (l : list AccountId) (owner : AccountId) p : P :=
  foldl (fun p a => on_member_added env g a owner p) p l.

Definition hooks_removed (env : Env) g (l : list AccountId) (owner : AccountId) p : P :=
  foldl (fun p a => on_member_removed env g a owner p) p l.

Definition rebind_hook (env : Env) g (who to : AccountId) p (a : AccountId) : P :=
  if decide (a = to) then p
  else on_member_added env g a to
    (if decide (a <> who) then on_member_removed env g a who p else p).

Definition evict_hook (env : Env) g (owner : AccountId) p (a : AccountId) : P :=
  if decide (a <> owner) then on_member_removed env g a owner p else p.

(** A loop whose iterations each apply a function to the layer. *)
Lemma hook_loop {A} (h : P -> A -> P) l (body : A -> M (State L P) (DispatchError Error) unit) s s' :
  (forall a s1 s2, body a s1 = (Ok tt, s2) -> permission s2 = h (permission s1) a) ->
  for_each l body s = (Ok tt, s') -> permission s' = foldl h (permission s) l.
Proof.
  intros Hb. revert s. induction l as [| a l IH]; intros s; simpl.
  - by intros [= <-].
  - intros ([] & s1 & Ha & Hl)%bind_Ok. apply IH in Hl as ->. by apply Hb in Ha as ->.
Qed.

(** ** The helpers that leave the layer alone *)

Lemma user_groups_add_quiet who g : framed permission (user_groups_add (L:=L) (P:=P) cfg who g).
Proof. unfold user_groups_add. framed_tac. Qed.

Lemma clear_join_state_quiet g who : framed permission (clear_join_state (L:=L) (P:=P) g who).
Proof. unfold clear_join_state. framed_tac. Qed.

Lemma match_welcomes_quiet {T} (f : State L P -> T) a ws n : framed f (match_welcomes a ws n).
Proof.
  revert n. induction ws as [| [w b] ws IH]; intros n; simpl; [apply framed_ret |].
  case_decide; [| done]. apply framed_bind; [apply framed_ensure | done].
Qed.

Lemma distinct_from_quiet {T} (f : State L P -> T) l others : framed f (distinct_from l others).
Proof. induction l; simpl; framed_tac. done. Qed.

Ltac hooks_step :=
  first
    [ apply user_groups_add_quiet | apply clear_join_state_quiet | apply match_welcomes_quiet
    | apply distinct_from_quiet | framed_step ].
Ltac hooks_tac := cbv zeta; repeat (hooks_step; cbv zeta).

Lemma ensure_welcomes_quiet l ws : framed (permission (L:=L) (P:=P)) (ensure_welcomes_match_added l ws).
Proof. unfold ensure_welcomes_match_added. hooks_tac. Qed.

(** The calls that neither call the hook nor change who is in a group or owns it. *)
Definition touches_roster (c : Call) : bool :=
  match c with
  | CreateGroup _ _ _ _ _ | Commit _ _ _ _ _ _ _ _ | DisbandGroup _ | TransferOwnership _ _
  | SetAdmin _ _ _ | ForceDisbandGroup _ => true
  | _ => false
  end.

Definition layer_and_roster s := (permission s, GroupMls s, GroupMembers s).

Lemma quiet_call env o c :
  touches_roster c = false -> framed layer_and_roster (apply_call cfg env o c).
Proof.
  intros Hc. destruct c; try discriminate Hc; simpl;
    unfold publish_key_package, revoke_key_package, claim_welcome, anchor_message_digest,
      request_join, cancel_join_request, approve_join, set_group_profile, set_group_nickname,
      ban_member, unban_member, set_member_mute, set_group_mute_all, set_group_frozen,
      clear_join_state, note_mls_action, note_join_request, bounded_or, bounded, get_group,
      ensure_owner_or_admin, ensure_not_frozen, ensure_sender_not_platform_muted, deposit_event,
      reserve_deposit, unreserve_deposit;
    framed_tac.
Qed.

Lemma create_group_quiet env o cid suite public th tr :
  framed permission (create_group (L:=L) (P:=P) cfg env o cid suite public th tr).
Proof.
  unfold create_group, ensure_sender_not_platform_muted, bounded, reserve_deposit, deposit_event.
  hooks_tac.
Qed.

Lemma set_admin_quiet o g who on : framed permission (set_admin (L:=L) (P:=P) o g who on).
Proof. unfold set_admin, get_group, deposit_event. hooks_tac. Qed.

(** ** The calls that use the hook *)

Lemma add_member_hook env g st ne ja a s s' :
  add_member cfg env g st ne ja a s = (Ok tt, s') ->
  permission s' = on_member_added env g a (admin st) (permission s).
Proof.
  unfold add_member, hook_added, deposit_event. intros Hrun. m_inv.
  match goal with Hu : user_groups_add _ _ _ _ = _, Hj : clear_join_state _ _ _ = _ |- _ =>
    apply user_groups_add_quiet in Hu; apply clear_join_state_quiet in Hj end.
  simpl in *. congruence.
Qed.

Lemma remove_member_hook env g st ne a s s' :
  remove_member env g st ne a s = (Ok tt, s') ->
  permission s' = on_member_removed env g a (admin st) (permission s).
Proof. unfold remove_member, hook_removed, user_groups_remove, deposit_event. intros Hrun. by m_inv. Qed.

Lemma evict_member_hook env g adm a s s' :
  evict_member env g (Some adm) a s = (Ok tt, s') ->
  permission s' = evict_hook env g adm (permission s) a.
Proof.
  unfold evict_member, evict_hook, hook_removed, user_groups_remove. intros Hrun.
  m_inv; repeat case_decide; done.
Qed.

Lemma rebind_one env g who to a s s' :
  rebind env g who to a s = (Ok tt, s') ->
  permission s' = rebind_hook env g who to (permission s) a.
Proof.
  unfold rebind, rebind_hook, hook_added, hook_removed. intros Hrun.
  m_inv; repeat case_decide; try done.
Qed.

Lemma deliver_quiet g ws :
  framed permission (for_each (S:=State L P) ws (deliver_welcome cfg g)).
Proof. unfold deliver_welcome, bounded. framed_tac. Qed.

(** The commit: a hook call for each account added, then one for each removed. *)
Lemma commit_hooks env o g e blob th tr cid ws d s s' :
  commit cfg env o g e blob th tr cid ws d s = (Ok tt, s') ->
  exists st, GroupMls s !! g = Some st /\
    permission s' = hooks_removed env g (removed d) (admin st)
      (hooks_added env g (added d) (admin st) (permission s)).
Proof.
  unfold commit, deposit_event. intros Hrun. g_inv.
  match goal with Ha : for_each (added d) (add_member _ _ _ ?st ?ne ?ja) _ = _ |- _ =>
    apply (hook_loop (fun p a => on_member_added env g a (admin st) p)) in Ha;
      [| intros ? ? ?; apply add_member_hook] end.
  match goal with Hr : for_each (removed d) (remove_member _ _ ?st _) _ = _ |- _ =>
    apply (hook_loop (fun p a => on_member_removed env g a (admin st) p)) in Hr;
      [| intros ? ? ?; apply remove_member_hook] end.
  match goal with Hw : for_each ws _ _ = _ |- _ => apply deliver_quiet in Hw end.
  eexists. split; [done |]. unfold hooks_added, hooks_removed. simpl in *. congruence.
Qed.

(** A transfer of ownership: every member but the new owner is rebound. *)
Lemma transfer_hooks env o g to s s' :
  transfer_ownership env o g to s = (Ok tt, s') ->
  exists st old target, GroupMls s !! g = Some st /\ to <> admin st /\
    members s g !! admin st = Some old /\ members s g !! to = Some target /\
    let ms := <[to := target <| role := Owner |>]>
      (<[admin st := old <| role := Admin |>]> (members s g)) in
    view s' g = (view s g) <| v_mls := Some (st <| admin := to |>) |> <| v_members := ms |> /\
    permission s' = foldl (rebind_hook env g (admin st) to) (permission s) (iter_keys ms).
Proof.
  unfold transfer_ownership, deposit_event. intros Hrun. g_inv.
  match goal with Hl : for_each _ (rebind _ _ ?who _) ?s1 = _ |- _ =>
    pose proof (rebind_loop_Ok _ _ _ _ _ _ _ Hl) as [p ->];
    apply (hook_loop (rebind_hook env g who to)) in Hl;
      [| intros ? ? ?; apply rebind_one];
    match goal with Ho : members s g !! admin ?st = Some ?old, Ht : members s g !! to = Some ?t |- _ =>
      assert (members s1 g = <[to := t <| role := Owner |>]>
        (<[admin st := old <| role := Admin |>]> (members s g))) as Hms
        by (unfold members; simpl; by rewrite !prefix_dset, !decide_True by done);
      exists st, old, t end
  end.
  split_and!; try done.
  - unfold view, members. cbn -[prefix dset].
    by rewrite !prefix_dset, !decide_True, lookup_insert_eq by done.
  - rewrite <- Hms. done.
Qed.

Lemma evict_members_hook env g owner s s' :
  evict_members env g (Some owner) s = (Ok tt, s') ->
  permission s' = foldl (evict_hook env g owner) (permission s) (evicted s g).
Proof.
  unfold evict_members. intros Hrun.
  m_inv; match goal with Hl : for_each _ _ _ = _ |- _ =>
    apply (hook_loop (evict_hook env g owner)) in Hl; [done |] end;
    intros ? ? ?; apply evict_member_hook.
Qed.

Lemma clear_rows_quiet g : framed (permission (L:=L) (P:=P)) (clear_rows g).
Proof. intros s r s'. unfold clear_rows. repeat case_match. by intros [= <- <-]. Qed.

Lemma finish_disband_quiet g : framed (permission (L:=L) (P:=P)) (finish_disband g).
Proof. unfold finish_disband, unreserve_deposit, deposit_event. framed_tac. Qed.

(** A teardown call: the evicted members are unbound. *)
Lemma disband_hooks env g b s s' st :
  do_disband env g s = (Ok b, s') -> GroupMls s !! g = Some st ->
  permission s' = foldl (evict_hook env g (admin st)) (permission s) (evicted s g).
Proof.
  unfold do_disband, deposit_event. intros Hrun Hst. m_inv; simpl in *; rewrite Hst in *;
    match goal with He : evict_members _ _ _ _ = _, Hc : clear_rows _ _ = _ |- _ =>
      apply evict_members_hook in He; apply clear_rows_quiet in Hc end;
    try match goal with Hf : finish_disband _ _ = _ |- _ => apply finish_disband_quiet in Hf end;
    match goal with He : _ = foldl _ _ (evicted ?s1 g) |- _ =>
      change (evicted s1 g) with (evicted s g) in He end;
    simpl in *; congruence.
Qed.

End Hooks.
