(* ===== verification/GroupRegistry.v ===== *)
(** The storage of [pallet-chat-group] over all runs: every reachable state is
    well-formed, epochs only advance and the handshake log is never rewritten,
    and the ways an account becomes a member. *)

From S2P Require Import Prelude Frame ChatCommon ChatGroup GroupViews GroupChecks GroupSteps.
Import Group.

Section Registry.
Context `{FrameSystem} {L P : Type} `{ReservableCurrency L} `{PrefixStorage} `{!PrefixStorageLaws}.
Context `{GroupChatHook P} `{PlatformMuteChecker P} (cfg : Config).
Implicit Types (s : State L P) (g : Z).

(** Bounds are u32; a group can be created and can double in one commit without
    leaving that range. *)
Record config_ok : Prop := {
  cfg_members : 1 <= MaxGroupMembers cfg /\ 2 * MaxGroupMembers cfg <= u32_max;
  cfg_pending : 0 <= MaxPendingJoins cfg <= u32_max;
  cfg_user_groups : 0 <= MaxGroupsPerUser cfg;
  cfg_key_packages : 0 <= MaxKeyPackagesPerUser cfg <= u32_max;
}.

(** Every group's rows are well-formed, ids are handed out in order, and the
    users' lists are bounded and in step with the member tables. *)
Record registry_ok s : Prop := {
  ro_range : forall g, is_Some (GroupMls s !! g) -> 0 <= g < NextGroupId s;
  ro_next : 0 <= NextGroupId s;
  ro_views : forall g, view_ok (MaxGroupMembers cfg) (MaxPendingJoins cfg) (view s g);
  ro_lists : lists_ok cfg s;
}.

Context (Hcfg : config_ok).

Lemma vok_max : 0 <= MaxGroupMembers cfg /\ 2 * MaxGroupMembers cfg <= u32_max.
Proof. destruct (cfg_members Hcfg). lia. Qed.

Lemma vstep_some D max mp v v' :
  vstep D max mp v v' -> is_Some (v_mls v) /\ (is_Some (v_mls v') \/ v' = empty_view).
Proof.
  destruct 1 as [Hs Hsame | d st st' Hc | who b Hs ? ? ? ? -> | who Hs -> | who b Hs ? ? ? ->
    | who b Hs -> | who Hs -> | st who m on Hst ? ? -> | st to old target Hst ? ? ? ->
    | st st' _ Hs | Hs ->]; simpl; try (by auto).
  - destruct Hsame as [-> _]. auto.
  - destruct Hc. rewrite cm_before, cm_after. eauto.
  - split; [done | left]. unfold clear_join. by destruct (v_requests v !! who).
  - split; [done | left]. unfold clear_join. simpl. by destruct (v_requests v !! who).
  - destruct Hs. rewrite sh_before, sh_after. eauto.
Qed.

Lemma created_ok g who s s' : created cfg g who s s' -> registry_ok s -> registry_ok s'.
Proof.
  intros [-> Hrange Hnext Hother (st & m & Hv & Hadm & Hep & Hcnt & Hrole) Hlists _ _ _]
    [Hr Hn Hok Hl]. set (g := NextGroupId s) in *.
  assert (GroupMls s !! g = None) as Hfresh
    by (destruct (GroupMls s !! g) eqn:Hg; [| done]; specialize (Hr g ltac:(eauto)); lia).
  pose proof (vo_orphan _ _ _ (Hok g) Hfresh) as Hempty.
  assert (members s g = ∅) as Hmem by (by apply (f_equal v_members) in Hempty).
  split; [| lia | | apply Hlists; [by rewrite Hmem, lookup_empty | done]].
  - intros g' Hg'. rewrite Hnext. destruct (decide (g' = g)) as [-> | Hne]; [lia |].
    specialize (Hother g' Hne). apply (f_equal v_mls) in Hother. simpl in Hother.
    rewrite Hother in Hg'. specialize (Hr g' Hg'). lia.
  - intros g'. destruct (decide (g' = g)) as [-> | Hne]; [| by rewrite Hother].
    rewrite Hv, Hempty. pose proof (cfg_pending Hcfg). pose proof vok_max. destruct (cfg_members Hcfg).
    split; simpl; try done; try (intros ? [= <-]).
    + rewrite Hcnt, insert_empty, map_size_singleton. done.
    + lia.
    + intros st' w r [= <-] [[<- <-] | [_ Hw]]%lookup_insert_Some; [done |].
      by rewrite lookup_empty in Hw.
    + rewrite Hep. unfold u64_max. lia.
    + intros st' e [= <-] Hw. rewrite lookup_empty in Hw. by destruct Hw.
    + unfold pending_of. simpl. rewrite map_size_empty. lia.
Qed.

Lemma change_ok D s s' : change cfg D s s' -> registry_ok s -> registry_ok s'.
Proof.
  intros Hc Hs. pose proof Hs as [Hr Hn Hok Hl].
  destruct Hc as [g [[Hlv Hln _] Hm] Hstep | | g Hsome [Hv Ho Hnx Hlo _] | who (Hv & Hnx & Hlo) | (Hv & Hnx & Hlo)].
  - split; [| by rewrite Hln | | auto].
    + intros g' Hg'. rewrite Hln. destruct (decide (g' = g)) as [-> | Hne].
      * apply Hr. by apply (vstep_some _ _ _ _ _ Hstep).
      * apply Hr. pose proof (f_equal v_mls (Hlv g' Hne)) as He. simpl in He. by rewrite <- He.
    + intros g'. destruct (decide (g' = g)) as [-> | Hne]; [| by rewrite Hlv].
      eapply vstep_ok; [apply vok_max | apply Hcfg | done | done].
  - by eapply created_ok.
  - split; [| by rewrite Hnx | | auto].
    + intros g' Hg'. rewrite Hnx. destruct (decide (g' = g)) as [-> | Hne].
      * apply (f_equal v_mls) in Hv. simpl in Hv. rewrite Hv in Hg'. by destruct Hg'.
      * apply Hr. pose proof (f_equal v_mls (Ho g' Hne)) as He. simpl in He. by rewrite <- He.
    + intros g'. destruct (decide (g' = g)) as [-> | Hne]; [| by rewrite Ho].
      rewrite Hv. apply empty_view_ok. apply Hcfg.
  - split; [| by rewrite Hnx | | auto]; intros g'; [| by rewrite Hv].
    pose proof (f_equal v_mls (Hv g')) as He. simpl in He. rewrite He, Hnx. apply Hr.
  - split; [| by rewrite Hnx | | auto]; intros g'; [| by rewrite Hv].
    pose proof (f_equal v_mls (Hv g')) as He. simpl in He. rewrite He, Hnx. apply Hr.
Qed.

(** Every transition is a change or nothing. *)
Lemma group_step_change s s' : registry_ok s -> step cfg s s' -> s' = s \/ change cfg (fun _ => True) s s'.
Proof.
  intros Hs [env o c r _ Hty Hrun | p ->].
  - apply transactional_cases in Hrun as [([] & -> & Hrun) | (e & -> & ->)]; [| by left].
    right. by apply (apply_call_change cfg _ env o c); [apply Hs | | |].
  - right. apply ch_same; [| done]. split_and!; [done | done |]. by apply lists_same.
Qed.

Lemma step_registry s s' : registry_ok s -> step cfg s s' -> registry_ok s'.
Proof. intros Hs [-> | Hc]%group_step_change; [done | by eapply change_ok | done]. Qed.

Lemma genesis_registry (l : L) (p : P) : registry_ok (genesis l p).
Proof.
  split; simpl.
  - intros g [? Hg]. by rewrite lookup_empty in Hg.
  - done.
  - intros g. replace (view _ g) with empty_view; [apply empty_view_ok, Hcfg |].
    unfold view, members, empty_view. simpl. by rewrite !prefix_empty, !lookup_empty.
  - split; unfold user_groups; simpl.
    + intros who. rewrite lookup_empty. apply NoDup_nil_2.
    + intros who. rewrite lookup_empty. apply Hcfg.
    + intros g who. unfold members. simpl. rewrite lookup_empty, prefix_empty, lookup_empty. simpl.
      split; [by intros ?%elem_of_nil | by intros [? ?]].
Qed.

Lemma registry_reach l p s : rtc (step cfg) (genesis l p) s -> registry_ok s.
Proof.
  intros Hrun. eapply (rtc_invariant (step cfg) registry_ok); [| | exact Hrun].
  - intros s1 s2. apply step_registry.
  - apply genesis_registry.
Qed.

(** ** Key packages *)

(** The stored packages of an account are counted, bounded, and numbered below the next
    number, as long as an account has not used up all 2^64 of them. *)
Record keys_ok s (who : AccountId) : Prop := {
  ko_next : 0 <= get0 (NextKeyPackageId s) who;
  ko_bound : 0 <= get0 (KeyPackageCount s) who <= MaxKeyPackagesPerUser cfg;
  ko_count : get0 (NextKeyPackageId s) who < u64_max ->
    get0 (KeyPackageCount s) who = Z.of_nat (size (prefix (KeyPackages s) who));
  ko_fresh : get0 (NextKeyPackageId s) who < u64_max ->
    forall i, is_Some (dget (KeyPackages s) who i) -> i < get0 (NextKeyPackageId s) who;
}.

Definition key_tables s := (KeyPackages s, NextKeyPackageId s, KeyPackageCount s).

Lemma keys_same s s' : key_tables s' = key_tables s -> (forall who, keys_ok s who) -> forall who, keys_ok s' who.
Proof. unfold key_tables. intros [= Hk Hn Hc] Hok who. destruct (Hok who). split; rewrite ?Hk, ?Hn, ?Hc; done. Qed.

Lemma keys_change_ok who s s' : keys_change cfg who s s' -> (forall x, keys_ok s x) -> forall x, keys_ok s' x.
Proof.
  intros Hch Hok x. destruct (Hok x) as [Hn Hb Hc Hf]. pose proof (cfg_key_packages Hcfg).
  destruct Hch as [blob Hroom _ Hk Hnx Hct | kp Hin _ Hk Hnx Hct].
  - destruct (decide (who = x)) as [<- | Hne].
    + split; rewrite ?Hk, ?Hnx, ?Hct, ?get0_insert, ?decide_True, ?prefix_dset, ?decide_True by done.
      * unfold sat_add, u64_max in *. lia.
      * rewrite sat_add_exact by lia. lia.
      * unfold sat_add at 1. intros Hlt. rewrite sat_add_exact by lia. rewrite map_size_insert_None.
        -- rewrite Hc by lia. lia.
        -- destruct (prefix (KeyPackages s) who !! get0 (NextKeyPackageId s) who) eqn:Hp; [| done].
           specialize (Hf ltac:(lia) (get0 (NextKeyPackageId s) who)). unfold dget in Hf. rewrite Hp in Hf.
           specialize (Hf ltac:(by eexists)). lia.
      * unfold sat_add at 1. intros Hlt i. rewrite dget_dset, sat_add_exact by lia. case_decide as Hd; [lia |].
        intros Hi. specialize (Hf ltac:(lia) i Hi). lia.
    + split; rewrite ?Hk, ?Hnx, ?Hct, ?get0_insert, ?prefix_dset, ?decide_False by done; try done.
      intros Hlt i. rewrite dget_dset, decide_False by naive_solver. by apply Hf.
  - destruct (decide (who = x)) as [<- | Hne].
    + split; rewrite ?Hk, ?Hnx, ?Hct, ?get0_insert, ?decide_True, ?prefix_drem, ?decide_True by done.
      * done.
      * unfold sat_sub. lia.
      * intros Hlt. unfold dget in Hin. destruct Hin as [b Hin]. rewrite map_size_delete_Some, (Hc Hlt) by (by eexists). unfold sat_sub.
        assert (size (prefix (KeyPackages s) who) <> 0%nat); [| lia].
        intros Hz%map_size_empty_inv. by rewrite Hz, lookup_empty in Hin.
      * intros Hlt i. rewrite dget_drem. case_decide; [by intros [? ?] | by apply Hf].
    + split; rewrite ?Hk, ?Hnx, ?Hct, ?get0_insert, ?prefix_drem, ?decide_False by done; try done.
      intros Hlt i. rewrite dget_drem, decide_False by naive_solver. by apply Hf.
Qed.

Lemma change_keys D s s' : change cfg D s s' -> (forall who, keys_ok s who) -> forall who, keys_ok s' who.
Proof.
  intros Hc. destruct Hc as [g [[_ _ Hm] _] _ | g who [_ _ _ _ _ _ _ _ (Hk & Hn & Hct)] | g _ [_ _ _ _ (_ & Hk & Hn & Hct & _)]
    | who _ _ Hk | _ Hm].
  - apply keys_same. unfold money in Hm. by injection Hm as _ _ Hk Hn Hct; unfold key_tables; congruence.
  - apply keys_same. unfold key_tables. congruence.
  - apply keys_same. unfold key_tables. congruence.
  - by eapply keys_change_ok.
  - apply keys_same. unfold money in Hm. by injection Hm as _ _ Hk Hn Hct; unfold key_tables; congruence.
Qed.

Lemma keys_reach l p s : rtc (step cfg) (genesis l p) s -> forall who, keys_ok s who.
Proof.
  intros Hrun. enough (registry_ok s /\ forall who, keys_ok s who) as [_ Hk] by exact Hk. revert Hrun.
  apply (rtc_invariant (step cfg) (fun s => registry_ok s /\ forall who, keys_ok s who)).
  - intros s1 s2 [Hs Hk] Hstep. split; [by eapply step_registry |].
    apply group_step_change in Hstep as [-> | Hc]; [done | by eapply change_keys | done].
  - split; [apply genesis_registry |]. intros who. pose proof (cfg_key_packages Hcfg).
    split; simpl; rewrite ?get0_empty, ?prefix_empty, ?map_size_empty; try lia.
    intros _ i. unfold dget. rewrite prefix_empty, lookup_empty. by intros [? ?].
Qed.

(** ** Pending requests *)

(** A transition that does not tear group [g] down. *)
Definition step_keeping (g : Z) s s' : Prop :=
  (exists env o c r, env_ok env /\ call_typed cfg c /\ ~ tears_down c g /\ dispatch cfg env o c s = (r, s')) \/
  (exists p, s' = s <| permission := p |>).

Lemma step_keeping_step g s s' : step_keeping g s s' -> step cfg s s'.
Proof. intros [(env & o & c & r & ? & ? & _ & ?) | [p ->]]; [by eapply step_call | by eapply step_permission]. Qed.

Lemma change_counted g s s' :
  change cfg (fun x => x <> g) s s' -> registry_ok s -> counted (view s g) -> counted (view s' g).
Proof.
  intros Hc Hs Hg. destruct Hc as [g' [[Hlv _ _] _] Hstep | g' who Hcr | g' _ Hgone | who (Hv & _) | (Hv & _)];
    [| | | by rewrite Hv ..].
  - destruct (decide (g = g')) as [<- | Hne]; [| by rewrite Hlv].
    eapply vstep_counted; [apply Hcfg | | apply Hs | done].
    destruct Hstep; first [by eapply vs_decor | by eapply vs_commit | by eapply vs_request | by eapply vs_cancel
      | by eapply vs_approve | by eapply vs_ban | by eapply vs_unban | by eapply vs_set_admin
      | by eapply vs_transfer | by eapply vs_gone | done].
  - destruct (decide (g = g')) as [<- | Hne]; [| by rewrite (cr_other _ _ _ _ _ Hcr)].
    destruct (cr_view _ _ _ _ _ Hcr) as (st & m & -> & _). done.
  - destruct (decide (g = g')) as [<- | Hne]; [| by rewrite (gn_other _ _ _ _ Hgone)].
    by rewrite (gn_view _ _ _ _ Hgone).
Qed.

Lemma step_counted g s s' : registry_ok s -> step_keeping g s s' -> counted (view s g) -> counted (view s' g).
Proof.
  intros Hs [(env & o & c & r & _ & Hty & Hnot & Hrun) | [p ->]] Hg; [| done].
  apply transactional_cases in Hrun as [([] & -> & Hrun) | (e & -> & ->)]; [| done].
  eapply change_counted; [| done | done].
  apply (apply_call_change cfg _ env o c); [apply Hs | done | | done]. by intros g' Hd ->.
Qed.

Lemma counted_reach g l p s : rtc (step_keeping g) (genesis l p) s -> counted (view s g).
Proof.
  intros Hrun. enough (registry_ok s /\ counted (view s g)) as [_ Hk] by exact Hk. revert Hrun.
  apply (rtc_invariant (step_keeping g) (fun s => registry_ok s /\ counted (view s g))).
  - intros s1 s2 [Hs Hg] Hstep. split; [| by eapply step_counted].
    eapply step_registry; [done | by eapply step_keeping_step].
  - split; [apply genesis_registry |]. unfold counted, pending_of, view. simpl. by rewrite prefix_empty, lookup_empty.
Qed.

(** C2: Every reachable state of the group pallet is well-formed: a group's
    member count is the number of its member rows and within the bound, no row
    of any map outlives its group, only the owner's row has the owner's role,
    users' group lists are bounded, duplicate-free and list exactly the groups
    the user is a member of, the pending-request counter is within its bound and at least
    the number of requests, neither members nor banned accounts have a request or an
    approval, and an account's key packages are counted exactly, within the bound, unless
    it has used up every number a package can have. The pending-request counter of a
    group is exactly the number of its requests in every state reached without a call that
    tears this group down (an unfinished teardown drops requests and leaves the counter
    for its last call). *)
Theorem group_storage_invariant l p s : rtc (step cfg) (genesis l p) s ->
  registry_ok s /\ (forall who, keys_ok s who) /\
  forall g, rtc (step_keeping g) (genesis l p) s ->
    pending_of (view s g) = Z.of_nat (size (v_requests (view s g))).
Proof. intros Hrun. split_and!; [by eapply registry_reach | by eapply keys_reach | intros g Hg; symmetry; by eapply counted_reach]. Qed.

(** * Epochs and the handshake log *)

(** What later states keep of an earlier one: ids are not reused, a group's
    epoch does not go back, and its log has no new entry at or below the epoch it
    had. *)
Record evolves s s' : Prop := {
  ev_next : NextGroupId s <= NextGroupId s';
  ev_group : forall g st', g < NextGroupId s -> GroupMls s' !! g = Some st' ->
    epoch st' < u64_max -> exists st, GroupMls s !! g = Some st /\ epoch st <= epoch st' /\
      forall e b, e <= epoch st -> handshake_at_epoch s' g e = Some b ->
        handshake_at_epoch s g e = Some b;
}.

Lemma evolves_refl s : evolves s s.
Proof. split; [done |]. intros g st' _ Hst _. exists st'. split_and!; [done | lia | done]. Qed.

Lemma evolves_trans s1 s2 s3 : evolves s1 s2 -> evolves s2 s3 -> evolves s1 s3.
Proof.
  intros [Hn1 Hg1] [Hn2 Hg2]. split; [lia |]. intros g st3 Hg Hst3 Hmax.
  destruct (Hg2 g st3 ltac:(lia) Hst3 Hmax) as (st2 & Hst2 & He2 & Hl2).
  destruct (Hg1 g st2 Hg Hst2 ltac:(lia)) as (st1 & Hst1 & He1 & Hl1).
  exists st1. split_and!; [done | lia |]. intros e b He Hb. apply Hl1, Hl2; [done | lia | done].
Qed.

(** One change of a view. *)
Lemma vstep_evolves D max mp v v' st' :
  vstep D max mp v v' -> view_ok max mp v -> v_mls v' = Some st' -> epoch st' < u64_max ->
  exists st, v_mls v = Some st /\ epoch st <= epoch st' /\
    forall e b, e <= epoch st -> v_log v' !! e = Some b -> v_log v !! e = Some b.
Proof.
  intros Hstep Hv Hst' Hmax.
  assert ((v_mls v' = v_mls v /\ v_log v' = v_log v) ->
    exists st, v_mls v = Some st /\ epoch st <= epoch st' /\
      forall e b, e <= epoch st -> v_log v' !! e = Some b -> v_log v !! e = Some b) as Hsame.
  { intros [Hm Hl]. exists st'. rewrite <- Hm, Hl. split_and!; [done | lia | done]. }
  destruct Hstep as [Hs Hc | d st st1 Hc | | who Hs -> | | who b Hs -> | | | st to old target Hst ? ? ? Hv'
    | st st1 _ Hs | Hs Hv']; try (apply Hsame; by subst).
  - apply Hsame. by destruct Hc as (-> & _ & -> & _).
  - destruct Hc. rewrite cm_after in Hst'. simplify_eq.
    pose proof (vo_epoch _ _ _ Hv st cm_before).
    exists st. split_and!; [done | unfold sat_add in *; lia |]. intros e b He.
    destruct cm_log as [blob ->]. rewrite lookup_insert_ne; [done |].
    unfold sat_add in *. lia.
  - apply Hsame. by destruct (clear_join_fields who v) as (-> & _ & -> & _).
  - apply Hsame. by destruct (clear_join_fields who (v <| v_banned ::= <[who := b]> |>)) as (-> & _ & -> & _).
  - subst v'. simpl in Hst'. simplify_eq. exists st. by split_and!.
  - destruct Hs. rewrite sh_after in Hst'. simplify_eq. destruct sh_same as [_ ->].
    exists st. split_and!; [done | lia |]. intros e b _ Hb. by eapply lookup_weaken.
Qed.

Lemma change_evolves D s s' : registry_ok s -> change cfg D s s' -> evolves s s'.
Proof.
  intros Hs Hc. pose proof Hs as [Hr Hn Hok Hl].
  assert (forall g st', view s' g = view s g -> GroupMls s' !! g = Some st' ->
    exists st, GroupMls s !! g = Some st /\ epoch st <= epoch st' /\
      forall e b, e <= epoch st -> handshake_at_epoch s' g e = Some b ->
        handshake_at_epoch s g e = Some b) as Hsame.
  { intros g st' Hv Hst'. exists st'.
    pose proof (f_equal v_mls Hv) as Hm. pose proof (f_equal v_log Hv) as Hlog. simpl in *.
    rewrite <- Hm. split_and!; [done | lia |]. unfold handshake_at_epoch, dget. by rewrite Hlog. }
  destruct Hc as [g [[Hlv Hln _] _] Hstep | g who [-> _ Hnx Ho _ _ _ _ _] | g Hsome [Hv Ho Hnx _ _]
    | who (Hv & Hnx & _) | (Hv & Hnx & _)]; (split; [lia |]); intros g' st' Hlt Hst' Hmax.
  - destruct (decide (g' = g)) as [-> | Hne]; [| by apply Hsame; [apply Hlv |]].
    exact (vstep_evolves _ _ _ (view s g) (view s' g) st' Hstep (Hok g) Hst' Hmax).
  - apply Hsame; [| done]. apply Ho. lia.
  - destruct (decide (g' = g)) as [-> | Hne]; [| by apply Hsame; [apply Ho |]].
    apply (f_equal v_mls) in Hv. simpl in Hv. congruence.
  - by apply Hsame.
  - by apply Hsame.
Qed.

Lemma run_evolves s s' : registry_ok s -> rtc (step cfg) s s' -> evolves s s'.
Proof.
  intros Hs Hrun. induction Hrun as [| s1 s2 s3 Hstep _ IH]; [apply evolves_refl |].
  eapply evolves_trans; [| by apply IH, (step_registry s1)].
  apply group_step_change in Hstep as [-> | Hc]; [apply evolves_refl | by eapply (change_evolves (fun _ => True)) | done].
Qed.

(** C30: the epoch gate orders the commits of a group: once a commit on an epoch
    has been accepted, no commit on the same epoch is accepted in any later
    state, whoever sends it and whatever happened in between, and the blob the
    accepted one logged for the new epoch is never replaced by another. *)
Theorem commit_is_final l p s s1 s2 env o c1 g e blob th tr cid ws d :
  c1 = Commit g e blob th tr cid ws d -> e + 1 < u64_max -> call_typed cfg c1 ->
  rtc (step cfg) (genesis l p) s -> dispatch cfg env o c1 s = (Ok tt, s1) -> rtc (step cfg) s1 s2 ->
  (forall env' o' blob' th' tr' cid' ws' d', call_typed cfg (Commit g e blob' th' tr' cid' ws' d') ->
     (dispatch cfg env' o' (Commit g e blob' th' tr' cid' ws' d') s2).1 <> Ok tt) /\
  (forall st, GroupMls s2 !! g = Some st -> epoch st < u64_max ->
     handshake_at_epoch s2 g (e + 1) = None \/ handshake_at_epoch s2 g (e + 1) = Some blob).
Proof.
  intros -> He [Hty _] Hrun Hcall Hlater. apply registry_reach in Hrun as Hs.
  apply transactional_Ok, commit_Ok in Hcall as (who & st & _ & Hg & Hm & Hcm & Hlog & _);
    [| done].
  assert (registry_ok s1) as Hs1.
  { eapply (change_ok (fun _ => True) s); [| done]. eapply (ch_group _ _ _ _ g); [done | by eapply vs_commit]. }
  pose proof (run_evolves s1 s2 Hs1 Hlater) as [_ Hev].
  pose proof (vo_epoch _ _ _ (ro_views _ Hs g) st (cg_group _ _ _ _ _ _ _ _ Hg)) as Hrange.
  pose proof (cg_epoch _ _ _ _ _ _ _ _ Hg) as Hep.
  assert (GroupMls s1 !! g = Some (next_state st th tr cid d)) as Hg1
    by exact (cm_after _ _ _ _ _ _ Hcm).
  assert (epoch (next_state st th tr cid d) = e + 1) as Hnew.
  { unfold next_state. simpl. rewrite sat_add_exact; lia. }
  assert (g < NextGroupId s1) as Hlt by (apply (ro_range _ Hs1); eauto).
  split.
  - intros env' o' blob' th' tr' cid' ws' d' [Hty' _] Hok.
    destruct (dispatch _ _ _ _ s2) as [r s3] eqn:Hcall. simpl in Hok. subst r.
    apply transactional_Ok, commit_Ok in Hcall as (who' & st2 & _ & Hg2 & _); [| done].
    pose proof (cg_epoch _ _ _ _ _ _ _ _ Hg2) as Hep2.
    destruct (Hev g st2 Hlt (cg_group _ _ _ _ _ _ _ _ Hg2) ltac:(lia)) as (st1 & Hst1 & Hle & _).
    rewrite Hg1 in Hst1. injection Hst1 as <-. lia.
  - intros st2 Hst2 Hmax. destruct (Hev g st2 Hlt Hst2 Hmax) as (st1 & Hst1 & Hle & Hkeep).
    rewrite Hg1 in Hst1. injection Hst1 as <-.
    destruct (handshake_at_epoch s2 g (e + 1)) as [b |] eqn:Hb; [right | by left].
    apply Hkeep in Hb; [| lia]. unfold handshake_at_epoch, dget in Hb.
    change (v_log (view s1 g) !! (e + 1) = Some b) in Hb.
    rewrite Hlog, Hnew, lookup_insert_eq in Hb. congruence.
Qed.


(** * Becoming a member *)

(** C31: the only ways an account becomes a member of a group are to create it
    and to be added by a commit accepted on it, whose sender is then an owner or
    administrator, and for which the account has published a key package, is not
    banned and, in a private group, has an approved request. *)
Theorem members_join_by_commit env o c s s' g who :
  call_typed cfg c -> dispatch cfg env o c s = (Ok tt, s') ->
  members s g !! who = None -> is_Some (members s' g !! who) ->
  (exists cid suite public th tr, c = CreateGroup cid suite public th tr /\
     ensure_signed o = Some who /\ g = NextGroupId s) \/
  (exists e blob th tr cid ws d st by_ m, c = Commit g e blob th tr cid ws d /\ who ∈ added d /\
     ensure_signed o = Some by_ /\ members s g !! by_ = Some m /\ is_owner_or_admin m /\
     GroupMls s !! g = Some st /\ GroupFrozen s !! g = None /\ epoch st = e /\
     addable s g st who).
Proof.
  intros Hty Hrun%transactional_Ok Hnone Hsome.
  destruct (adds_members c) eqn:Hc.
  2: { apply (members_shrink cfg env o c s s' g who Hc Hrun) in Hsome. rewrite Hnone in Hsome. by destruct Hsome. }
  assert (view s' g <> view s g) as Hdiff.
  { intros Hv. apply (f_equal v_members) in Hv. simpl in Hv. rewrite Hv, Hnone in Hsome.
    by destruct Hsome. }
  destruct c as [| | cid suite public th tr | g' e blob th tr cid ws d | | | | | | | | | | | | | | | |];
    try done; simpl in Hrun.
  - left. exists cid, suite, public, th, tr. split; [done |].
    apply create_group_Ok in Hrun as (w & Hsig & Hcr).
    destruct (decide (g = NextGroupId s)) as [-> | Hne];
      [| by rewrite (cr_other _ _ _ _ _ Hcr) in Hdiff].
    destruct (cr_view _ _ _ _ _ Hcr) as (st & m & Hv & _). apply (f_equal v_members) in Hv.
    simpl in Hv. rewrite Hv in Hsome. apply lookup_insert_is_Some in Hsome as [-> | [_ Hw]]; [done |].
    rewrite Hnone in Hw. by destruct Hw.
  - right. destruct Hty as [Hty _]. apply commit_Ok in Hrun as (by_ & st & Hsig & Hg & [Hl _] & Hcm & _);
      [| done].
    destruct (decide (g = g')) as [<- | Hne]; [| by rewrite (loc_view _ _ _ Hl) in Hdiff].
    destruct Hg as [_ Hfr Hst Hep (m & Hm & Hrole) _ _ Hadd _ _].
    destruct (cm_members _ _ _ _ _ _ Hcm) as [j Hmem]. specialize (Hmem who).
    assert (who ∈ added d) as Hin.
    { change (v_members (view s' g) !! who) with (members s' g !! who) in Hmem.
      rewrite Hmem in Hsome. repeat case_decide; [by destruct Hsome | done |].
      simpl in Hsome. rewrite Hnone in Hsome. by destruct Hsome. }
    exists e, blob, th, tr, cid, ws, d, st, by_, m. split_and!; try done; [| by apply Hadd ..].
    apply Hrole. left. intros Hnil. rewrite Hnil in Hin. by apply elem_of_nil in Hin.
Qed.
End Registry.

(** * Concrete runs *)

Lemma group_test_config_ok : config_ok test_config.
Proof. split; simpl; unfold u32_max; lia. Qed.

Lemma trio_reach : rtc (step test_config) (genesis test_ledger tt) trio.
Proof. apply group_run_reach. refine (bool_decide_unpack _ _). by vm_compute. Qed.

Definition tears_downb (c : Call) (g : Z) : bool :=
  match c with DisbandGroup g' | ForceDisbandGroup g' => g' =? g | _ => false end.

#[local] Instance tears_down_dec c g : Decision (tears_down c g).
Proof.
  refine (cast_if (decide (tears_downb c g = true))); unfold tears_down; destruct c; simpl in *;
    rewrite ?Z.eqb_eq in *; intuition congruence.
Defined.

Lemma keeping_run_reach g s cs :
  Forall (fun x => group_run_ok x /\ ~ tears_down x.2 g) cs ->
  rtc (step_keeping test_config g) s (run_calls s cs).
Proof.
  intros Hok. revert s. induction Hok as [| [[b o] c] cs [[Hb Hty] Hd] Hok IH]; intros s; simpl; [constructor |].
  eapply rtc_l; [| apply IH]. left. exists (test_env b), o, c, (dispatch test_config (test_env b) o c s).1.
  split; [unfold env_ok, u64_max; simpl in *; lia |].
  split; [done |]. split; [done |]. by destruct (dispatch _ _ _ _ _).
Qed.

(** Account 1 opens a private group as well; two accounts ask to join it and one of them
    is banned. *)
Definition asking : list (Z * SimpleOrigin * Call) :=
  founding ++ [(9, SignedBy 1, CreateGroup [7] 1 false 11 12); (10, SignedBy 4, RequestJoin 1);
    (10, SignedBy 5, RequestJoin 1); (11, SignedBy 1, BanMember 1 5)].

Lemma group_storage_invariant_witness :
  let s := run_calls (genesis test_ledger tt) asking in
  member_count <$> GroupMls s !! 0 = Some 3 /\ get0 (KeyPackageCount s) 2%N = 1 /\
  (registry_ok test_config s /\ forall who, keys_ok test_config s who) /\
  v_pending (view s 1) = Some 1 /\ Z.of_nat (size (v_requests (view s 1))) = 1.
Proof.
  intros s. assert (rtc (step_keeping test_config 1) (genesis test_ledger tt) s) as Hk.
  { apply keeping_run_reach. refine (bool_decide_unpack _ _). by vm_compute. }
  assert (rtc (step test_config) (genesis test_ledger tt) s) as Hrun.
  { revert Hk. apply rtc_subrel. intros ? ?. apply step_keeping_step. }
  pose proof (group_storage_invariant test_config group_test_config_ok test_ledger tt s Hrun) as (Hr & Hkeys & Hp).
  split; [by vm_compute |]. split; [by vm_compute |]. split; [by split |].
  assert (v_pending (view s 1) = Some 1) as Hv by (by vm_compute). split; [done |].
  rewrite <- (Hp 1 Hk). unfold pending_of. by rewrite Hv.
Defined.

(** Two members race on epoch 1: the second commit is refused, also after the
    group has moved on. *)
Definition first_commit : Call := Commit 0 1 [6] 15 16 [8] [(4%N, [7])] (mkMemberDelta [4%N] []).

Lemma commit_is_final_witness :
  let s1 := (dispatch test_config (test_env 4) (SignedBy 1) first_commit trio).2 in
  let s2 := run_calls s1 [(5, SignedBy 4, Commit 0 2 [8] 1 1 [] [] (mkMemberDelta [] []))] in
  handshake_at_epoch s2 0 2 = Some [6] /\ handshake_at_epoch s2 0 3 = Some [8] /\
  (dispatch test_config (test_env 5) (SignedBy 2)
    (Commit 0 1 [9] 2 2 [] [] (mkMemberDelta [] [])) s2).1 <> Ok tt.
Proof.
  intros s1 s2. split; [by vm_compute |]. split; [by vm_compute |].
  refine (proj1 (commit_is_final test_config group_test_config_ok test_ledger tt trio s1 s2
    (test_env 4) (SignedBy 1) first_commit 0 1 [6] 15 16 [8] [(4%N, [7])] (mkMemberDelta [4%N] [])
    eq_refl _ _ trio_reach _ _) _ _ _ _ _ _ _ _ _).
  - done.
  - split; by vm_compute.
  - by vm_compute.
  - apply group_run_reach. refine (bool_decide_unpack _ _). by vm_compute.
  - split; by vm_compute.
Defined.

Lemma members_join_by_commit_witness :
  exists e blob th tr cid ws d st by_ m, first_commit = Commit 0 e blob th tr cid ws d /\
    4%N ∈ added d /\ Some 1%N = Some by_ /\ members trio 0 !! by_ = Some m /\ is_owner_or_admin m /\
    GroupMls trio !! 0 = Some st /\ GroupFrozen trio !! 0 = None /\ epoch st = e /\
    addable trio 0 st 4%N.
Proof.
  destruct (members_join_by_commit test_config (test_env 4) (SignedBy 1) first_commit trio
    (dispatch test_config (test_env 4) (SignedBy 1) first_commit trio).2 0 4%N)
    as [(? & ? & ? & ? & ? & [=] & _) | Hjoin]; [| | | | exact Hjoin].
  - split; by vm_compute.
  - by vm_compute.
  - by vm_compute.
  - vm_compute. by eexists.
Defined.
