(* ===== verification/GroupDisband.v ===== *)
(** Tearing a group of [pallet-chat-group] down, and the deposits: the calls of
    the owner finish within a bounded number of repetitions and leave nothing of
    the group, and what accounts have reserved is what the pallet's records say. *)

From S2P Require Import Prelude Frame ChatCommon ChatGroup GroupViews GroupChecks GroupSteps GroupRegistry.
Import Group.

Section Disband.
Context `{FrameSystem} {L P : Type} `{ReservableCurrency L} `{PrefixStorage} `{!PrefixStorageLaws, !FreshRowLaws}.
Context `{GroupChatHook P} `{PlatformMuteChecker P} (cfg : Config).
Implicit Types (s : State L P) (g : Z).

Lemma do_disband_total env g : total (do_disband (L:=L) (P:=P) env g).
Proof.
  unfold do_disband, evict_members, evict_member, user_groups_remove, hook_removed, finish_disband,
    unreserve_deposit, deposit_event.
  assert (total (clear_rows (L:=L) (P:=P) g)) as Hclear.
  { intros s. unfold clear_rows, clear_prefix.
    repeat destruct (clear_row _ _). by eexists _, _. }
  total_tac. done.
Qed.

(** The owner's call, [n] times. *)
Fixpoint disband_calls (n : nat) (env : Env) (o : Origin) g s : State L P :=
  match n with
  | O => s
  | S n' => disband_calls n' env o g (dispatch cfg env o (DisbandGroup g) s).2
  end.

Lemma disband_call env o g s st :
  GroupMls s !! g = Some st -> ensure_signed o = Some (admin st) ->
  exists s', dispatch cfg env o (DisbandGroup g) s = (Ok tt, s') /\
    (gone cfg g s s' \/ (moves cfg g s s' /\ (exists st', GroupMls s' !! g = Some st' /\ admin st' = admin st) /\
      (rows (view s' g) + limit <= rows (view s g))%nat)).
Proof.
  intros Hst Ho. destruct (do_disband_total env g s) as (b & s' & Hd).
  pose proof (disband_Ok cfg _ _ _ _ _ _ Hd Hst) as Hb. exists s'.
  assert (dispatch cfg env o (DisbandGroup g) s = (Ok tt, s')) as Hrun.
  { unfold dispatch, transactional. simpl. unfold disband_group, get_group. m_run.
    unfold bind. by rewrite Hd. }
  split; [done |]. destruct b; [by left | right].
  destruct Hb as (Hm & [st' [? Hst' _ _ [? _] _ _ _ _ _ _]] & Hr). split_and!; [done | | by apply Hr].
  exists st'. by split.
Qed.

(** Once the group is gone its former owner's call does nothing. *)
Lemma disband_calls_gone n env o g s :
  GroupMls s !! g = None -> disband_calls n env o g s = s.
Proof.
  intros Hg. induction n as [| n IH]; [done |]. simpl.
  replace (dispatch cfg env o (DisbandGroup g) s).2 with s; [done |].
  unfold dispatch, transactional. simpl.
  destruct (disband_group env o g s) as [[[] | e] s'] eqn:Hrun; [| done].
  unfold disband_group, get_group in Hrun. by m_inv.
Qed.

(** The owner can always tear a group down, one call in a block: after as many calls as
    there are full budgets in the stored entries, plus one, every row of the group is
    gone, other groups' rows are as they were, and the depositor has the
    creation deposit back. *)
Theorem disband_terminates n env o g s st :
  GroupMls s !! g = Some st -> ensure_signed o = Some (admin st) ->
  (rows (view s g) < n * MAX_DISBAND_ITEMS_PER_CALL)%nat ->
  let s' := disband_calls n env o g s in
  view s' g = empty_view /\ (forall g', g' <> g -> view s' g' = view s g') /\
  ledger s' = match GroupDepositOf s !! g with
              | Some (who, a) => (unreserve who a (ledger s)).1
              | None => ledger s
              end.
Proof.
  revert s st. fold limit. induction n as [| n IH]; intros s st Hst Ho Hrows; [lia |].
  destruct (disband_call env o g s st Hst Ho) as (s1 & Hcall & Hcases). simpl. rewrite Hcall. simpl.
  destruct Hcases as [[Hv Hother _ _ (_ & _ & _ & _ & Hled)] | ([Hl _] & (st1 & Hst1 & Hadm) & Hr)].
  - rewrite disband_calls_gone; [done |]. by apply (f_equal v_mls) in Hv.
  - destruct (IH s1 st1 Hst1) as (Hv & Hother & Hled); [congruence | lia |].
    destruct Hl as [Hlv _ Hmoney]. unfold money in Hmoney. injection Hmoney as El Ed _ _ _.
    split_and!; [done | | by rewrite Hled, El, Ed].
    intros g' Hne. by rewrite Hother, Hlv.
Qed.
End Disband.

(** * Deposits *)

Section Deposits.
Context `{FrameSystem} {L P : Type} `{ReservableCurrency L} `{!ReservableCurrencyLaws L}.
Context `{PrefixStorage} `{!PrefixStorageLaws} `{GroupChatHook P} `{PlatformMuteChecker P}.
Context (cfg : Config).
Implicit Types (s : State L P) (g : Z).

(** What the pallet's records say [x] has reserved. *)
Definition owed s (x : AccountId) : Z :=
  tally fst snd x (GroupDepositOf s) + KeyPackageDeposit cfg * get0 (KeyPackageCount s) x.

(** Amounts are non-negative, counts bound the stored packages, and reserves are
    those of the ledger [l] plus what is owed. *)
Record money_ok (l : L) s : Prop := {
  mo_amounts : map_Forall (fun _ d => 0 <= d.2) (GroupDepositOf s);
  mo_counts : forall x, Z.of_nat (size (prefix (KeyPackages s) x)) <= get0 (KeyPackageCount s) x
    <= MaxKeyPackagesPerUser cfg;
  mo_exact : forall x, reserved_balance x (ledger s) = reserved_balance x l + owed s x;
}.

Record deposits_config_ok : Prop := {
  dc_group : 0 <= GroupDeposit cfg;
  dc_key : 0 <= KeyPackageDeposit cfg;
  dc_count : 0 <= MaxKeyPackagesPerUser cfg <= u32_max;
}.

Context (l0 : L) (Hdc : deposits_config_ok).

Lemma money_same s s' : money s' = money s -> money_ok l0 s -> money_ok l0 s'.
Proof.
  unfold money. intros [= El Ed Ek _ Ec] [Ha Hc He].
  split; unfold owed; rewrite ?El, ?Ed, ?Ek, ?Ec; done.
Qed.

(** The amount of a record is part of what its owner owes. *)
Lemma owed_entry s g who a :
  money_ok l0 s -> GroupDepositOf s !! g = Some (who, a) ->
  0 <= a <= reserved_balance who (ledger s).
Proof.
  intros [Ha Hc He] Hg. split; [by apply (Ha g (who, a))|].
  pose proof (tally_elem_le fst snd who (GroupDepositOf s) g (who, a) Ha Hg eq_refl). simpl in *.
  rewrite He. unfold owed. pose proof (reserved_nonneg who l0). specialize (Hc who).
  pose proof (dc_key Hdc). nia.
Qed.

Lemma created_money g who s s' :
  GroupDepositOf s !! g = None -> created cfg g who s s' -> money_ok l0 s -> money_ok l0 s'.
Proof.
  intros Hnone [_ _ _ _ _ _ Hd Hl (Hk & _ & Hc)] [Ha Hcnt He].
  pose proof (dc_group Hdc). split.
  - rewrite Hd. apply map_Forall_insert_2; done.
  - intros x. rewrite Hk, Hc. apply Hcnt.
  - intros x. unfold owed. rewrite Hd, Hc, tally_insert, Hnone.
    rewrite (reserve_reserved who (GroupDeposit cfg) (ledger s)), He by done.
    unfold owed, charge. simpl. repeat case_decide; congruence || lia.
Qed.

Lemma refunded_money g s s' : refunded s s' g -> money_ok l0 s -> money_ok l0 s'.
Proof.
  intros (Hd & Hk & _ & Hc & Hl) Hs. pose proof Hs as [Ha Hcnt He]. split.
  - rewrite Hd. by apply map_Forall_delete.
  - intros x. rewrite Hk, Hc. apply Hcnt.
  - intros x. unfold owed. rewrite Hd, Hc, tally_delete, Hl. specialize (He x). unfold owed in He.
    destruct (GroupDepositOf s !! g) as [[who a] |] eqn:Hg; simpl; [| lia].
    rewrite unreserve_exact by (by eapply owed_entry).
    unfold charge. simpl. repeat case_decide; congruence || lia.
Qed.

Lemma keys_money who s s' :
  GroupDepositOf s' = GroupDepositOf s -> keys_change cfg who s s' -> money_ok l0 s -> money_ok l0 s'.
Proof.
  intros Hd Hk [Ha Hcnt He]. pose proof (dc_key Hdc). pose proof (dc_count Hdc).
  pose proof (Hcnt who) as Hw.
  destruct Hk as [blob Hroom Hres Hkp _ Hc | kp Hin Hled Hkp _ Hc].
  - rewrite sat_add_exact in Hc by lia. split; [by rewrite Hd | |].
    + intros x. rewrite Hkp, Hc, prefix_dset, get0_insert. case_decide as Hx; [| apply Hcnt].
      destruct Hx. rewrite map_size_insert. destruct (_ !! _); simpl; lia.
    + intros x. unfold owed. rewrite Hd, Hc, get0_insert.
      rewrite (reserve_reserved who (KeyPackageDeposit cfg) (ledger s)), He by done.
      unfold owed. repeat case_decide; subst; congruence || lia.
  - assert (1 <= get0 (KeyPackageCount s) who) as Hpos.
    { destruct Hin as [b Hin]. unfold dget in Hin.
      destruct (size (prefix (KeyPackages s) who)) eqn:Hsz; [| lia].
      apply map_size_empty_inv in Hsz. by rewrite Hsz, lookup_empty in Hin. }
    rewrite sat_sub_exact in Hc by lia.
    assert (KeyPackageDeposit cfg <= reserved_balance who (ledger s)) as Hle.
    { rewrite He. unfold owed. pose proof (reserved_nonneg who l0).
      assert (0 <= tally fst snd who (GroupDepositOf s)); [| nia].
      apply msum_nonneg. intros k v Hkv. unfold charge. case_decide; [by apply (Ha k) | lia]. }
    split; [by rewrite Hd | |].
    + intros x. rewrite Hkp, Hc, prefix_drem, get0_insert. case_decide as Hx; [| apply Hcnt].
      destruct Hx. unfold dget in Hin. rewrite map_size_delete_Some by done. lia.
    + intros x. unfold owed. rewrite Hd, Hc, get0_insert, Hled, unreserve_exact by lia.
      specialize (He x). unfold owed in He. repeat case_decide; subst; congruence || lia.
Qed.

Lemma change_money D s s' :
  registry_ok cfg s -> change cfg D s s' -> money_ok l0 s -> money_ok l0 s'.
Proof.
  intros Hreg [g [[_ _ Hm] _] _ | g who Hc | g _ Hg | who _ Hd Hk | _ Hm].
  - by apply money_same.
  - apply (created_money g who); [| done].
    pose proof (cr_id _ _ _ _ _ Hc) as ->.
    destruct (GroupMls s !! NextGroupId s) eqn:Hg.
    + pose proof (ro_range _ _ Hreg (NextGroupId s) ltac:(eauto)). lia.
    + by apply (vo_orphan _ _ _ (ro_views _ _ Hreg _)), (f_equal v_deposit) in Hg.
  - by eapply refunded_money, (gn_money _ _ _ _ Hg).
  - by eapply keys_money.
  - by apply money_same.
Qed.

(** In every reachable state each account has reserved exactly what it had
    at the start plus the creation deposits of the groups recorded under its
    name plus one key-package deposit for each package counted. *)
Theorem group_deposits_exact p s x :
  config_ok cfg -> rtc (step cfg) (genesis l0 p) s ->
  reserved_balance x (ledger s) = reserved_balance x l0 + owed s x.
Proof.
  intros Hcfg Hrun.
  assert (registry_ok cfg s /\ money_ok l0 s) as [_ [_ _ He]]; [| apply He].
  eapply (rtc_invariant (step cfg) (fun s => registry_ok cfg s /\ money_ok l0 s)); [| | exact Hrun].
  - intros s1 s2 [Hreg Hm] Hstep. split; [by eapply step_registry |].
    apply (group_step_change cfg) in Hstep as [-> | Hc]; [done | by eapply change_money | done].
  - split; [by apply genesis_registry |]. split; simpl.
    + apply map_Forall_empty.
    + intros y. rewrite prefix_empty, get0_empty, map_size_empty. destruct (dc_count Hdc). lia.
    + intros y. unfold owed. simpl. rewrite tally_empty, get0_empty. lia.
Qed.
End Deposits.

(** * Concrete runs *)

Lemma disband_terminates_witness :
  let s' := disband_calls test_config 1 (test_env 5) (SignedBy 1) 0 trio in
  rows (view trio 0) = 6%nat /\ view s' 0 = empty_view /\
  reserved_balance 1%N (ledger s') = 0.
Proof.
  intros s'. split; [by vm_compute |]. split; [| by vm_compute].
  assert (exists st, GroupMls trio !! 0 = Some st /\ admin st = 1%N) as (st & Hst & Hadm)
    by (vm_compute; by eexists).
  refine (proj1 (disband_terminates test_config 1 (test_env 5) (SignedBy 1) 0 trio st Hst _ _)).
  - simpl. by rewrite Hadm.
  - apply Nat.ltb_lt. by vm_compute.
Defined.

Lemma group_deposits_exact_witness :
  owed test_config trio 1 = 100 /\
  reserved_balance 1%N (ledger trio) = reserved_balance 1%N test_ledger + owed test_config trio 1.
Proof.
  split; [by vm_compute |].
  refine (group_deposits_exact test_config test_ledger _ tt trio 1%N group_test_config_ok trio_reach).
  split; by vm_compute.
Defined.
