(* ===== verification/GroupCommit.v ===== *)
(** The commit of [pallet-chat-group]: what its two quadratic validation loops
    decide, the exact effect of an accepted commit, and who cannot leave. *)

From S2P Require Import Prelude Frame ChatCommon ChatGroup GroupViews GroupChecks GroupSteps GroupRegistry.
Import Group.

Section Validation.
Context {L P : Type}.
Implicit Types (s : State L P).

(** How many of the Welcomes go to [acct]. *)
Definition addressed (acct : AccountId) (ws : list (AccountId * bytes)) : nat :=
  length (filter (fun w => w.1 = acct) ws).

(** [match_welcomes] counts them, and refuses an empty one among them. *)
Lemma match_welcomes_spec acct ws n s :
  n + Z.of_nat (length ws) <= u32_max ->
  match_welcomes acct ws n s =
    (if decide (Forall (fun w => w.1 = acct -> w.2 <> []) ws)
     then Ok (n + Z.of_nat (addressed acct ws)) else Err (Module WelcomeMismatch), s).
Proof.
  unfold addressed. revert n. induction ws as [| [a b] ws IH]; intros n Hn; simpl in *.
  - unfold ret. by rewrite Z.add_0_r.
  - rewrite filter_cons. simpl. destruct (decide (a = acct)) as [-> | Hne].
    + destruct (decide (b = [])) as [-> | Hb].
      * rewrite run_ensure_not by tauto. rewrite decide_False; [done |].
        intros [Hw _]%Forall_cons. by apply Hw.
      * rewrite run_ensure, sat_add_exact, IH by (done || lia).
        repeat case_decide; try (simpl; do 2 f_equal; lia);
          rewrite Forall_cons in *; tauto.
    + rewrite IH by lia.
      repeat case_decide; try done; rewrite Forall_cons in *; simpl in *; tauto.
Qed.

Lemma addressed_once a ws :
  NoDup ws.*1 -> addressed a ws = if decide (a ∈ ws.*1) then 1%nat else 0%nat.
Proof.
  unfold addressed. induction ws as [| [x b] ws IH]; [done |].
  rewrite fmap_cons. intros [Hx Hnd]%NoDup_cons. rewrite filter_cons. simpl in *.
  destruct (decide (x = a)) as [-> | Hne].
  - rewrite (decide_True (P := a ∈ _)) by left. simpl. rewrite IH, decide_False by done. done.
  - rewrite IH by done. repeat case_decide; rewrite elem_of_cons in *; intuition congruence.
Qed.

Lemma addressed_elem a ws : addressed a ws <> 0%nat -> a ∈ ws.*1.
Proof.
  unfold addressed. intros Hne. destruct (filter _ ws) as [| w l] eqn:Hf; [done |].
  assert (w ∈ filter (fun w => w.1 = a) ws) as [<- Hw]%list_elem_of_filter by (rewrite Hf; left).
  apply list_elem_of_fmap. eauto.
Qed.

Lemma welcomes_spec added ws s :
  NoDup added -> Z.of_nat (length ws) <= u32_max ->
  ensure_welcomes_match_added added ws s = (Ok tt, s) <->
  ws.*1 ≡ₚ added /\ Forall (fun w => w.2 <> []) ws.
Proof.
  intros Hnd Hlen. unfold ensure_welcomes_match_added. split.
  - intros Hrun. m_inv.
    rewrite for_each_ensure in Hrun. case_decide as Hall; simplify_eq.
    match goal with Hl : for_each added _ _ = _ |- _ =>
      apply (for_each_check (fun a => addressed a ws = 1%nat /\
        Forall (fun w => w.1 = a -> w.2 <> []) ws)) in Hl as [_ Hmatch] end.
    + assert (added ⊆+ ws.*1) as Hsub.
      { apply NoDup_submseteq; [done |]. intros a [Ha _]%Hmatch. apply addressed_elem. lia. }
      split.
      * symmetry. apply submseteq_length_Permutation; [done |]. rewrite length_fmap. lia.
      * rewrite Forall_forall in *. intros w Hw. destruct (Hmatch w.1 (Hall w Hw)) as [_ Hne].
        rewrite Forall_forall in Hne. by apply Hne.
    + intros a s1 _ Hrun. m_inv. rewrite match_welcomes_spec in * by lia.
      case_decide; simplify_eq. split; [done |]. split; [lia | done].
  - intros [Hperm Hne].
    assert (NoDup ws.*1) as Hnd' by (by rewrite Hperm).
    rewrite run_ensure by (rewrite <- Hperm; by rewrite length_fmap).
    rewrite (bind_eval _ _ s tt s).
    + rewrite for_each_ensure, decide_True; [done |]. apply Forall_forall. intros w Hw.
      rewrite <- Hperm. apply list_elem_of_fmap. eauto.
    + apply for_each_pass. intros a Ha. rewrite <- Hperm in Ha.
      rewrite (bind_eval _ _ s 1 s); [done |].
      rewrite match_welcomes_spec by lia. rewrite addressed_once, (decide_True (P := a ∈ _)) by done.
      rewrite decide_True; [done |]. rewrite Forall_forall in *. auto.
Qed.

(** C39: the nested loops that match Welcomes with added members accept exactly
    the lists that hold one non-empty Welcome for each added account and nothing
    else, and only read the state. *)
Theorem welcomes_are_bijective added ws s :
  NoDup added -> Z.of_nat (length ws) <= u32_max ->
  ensure_welcomes_match_added added ws s = (Ok tt, s) <->
  ws.*1 ≡ₚ added /\ Forall (fun w => w.2 <> []) ws.
Proof. apply welcomes_spec. Qed.

(** [distinct_from] decides that [l] has no duplicate and avoids [others]. *)
Lemma distinct_from_spec l others s :
  distinct_from l others s =
    (if decide (NoDup l /\ Forall (fun x => x ∉ others) l) then Ok tt
     else Err (Module BadMemberDelta), s).
Proof.
  induction l as [| x l IH]; [done |]. simpl. unfold bind.
  assert (forall k : list AccountId, Forall (fun y => x <> y) k <-> x ∉ k) as Hne.
  { intros k. rewrite Forall_forall. split; [intros Hk Hin; by apply (Hk x) |].
    intros Hk y Hy ->. done. }
  rewrite !(for_each_ensure (fun y => x <> y)).
  destruct (decide (Forall (fun y => x <> y) l)) as [H1 | H1],
    (decide (Forall (fun y => x <> y) others)) as [H2 | H2];
    rewrite Hne in H1, H2; try rewrite IH; repeat case_decide; try done;
    rewrite NoDup_cons, Forall_cons in *; tauto.
Qed.

(** The quadratic index loops over a delta accept it exactly when no account
    occurs twice in the two lists together, and refuse it with [BadMemberDelta]
    otherwise. *)
Theorem delta_check_is_nodup d s :
  ensure_member_delta_unique d s =
    (if decide (NoDup (added d ++ removed d)) then Ok tt else Err (Module BadMemberDelta), s).
Proof.
  unfold ensure_member_delta_unique, bind. rewrite distinct_from_spec.
  assert (NoDup (added d ++ removed d) <->
    (NoDup (added d) /\ Forall (fun x => x ∉ removed d) (added d)) /\ NoDup (removed d)) as Heq
    by (rewrite NoDup_app, Forall_forall; tauto).
  destruct (decide (NoDup (added d) /\ Forall (fun x => x ∉ removed d) (added d))) as [H1 | H1].
  - rewrite distinct_from_spec.
    assert (Forall (fun x => x ∉ []) (removed d)) by (apply Forall_forall; intros x _ ?%elem_of_nil; done).
    repeat case_decide; try done; rewrite Heq in *; tauto.
  - rewrite decide_False; [done |]. rewrite Heq. tauto.
Qed.
End Validation.

Section Effect.
Context `{FrameSystem} {L P : Type} `{ReservableCurrency L} `{PrefixStorage} `{!PrefixStorageLaws}.
Context `{GroupChatHook P} `{PlatformMuteChecker P} (cfg : Config).
Implicit Types (s : State L P) (g : Z).

(** The membership after a commit of [d]: added accounts are plain members that
    joined at the new epoch, removed ones are gone, the others keep their row. *)
Definition member_after (s s' : State L P) g (e : Z) (d : MemberDelta) (who : AccountId) : Prop :=
  if decide (who ∈ removed d) then members s' g !! who = None
  else if decide (who ∈ added d) then
    exists m, members s' g !! who = Some m /\ role m = Member /\ joined_epoch m = e
  else members s' g !! who = members s g !! who.

(** an accepted commit applies its delta to the member table exactly, moves
    the group to the next state with the anchors it carries, logs its blob under
    the new epoch, leaves every added member its Welcome, and changes no other
    group's storage. *)
Theorem commit_effect env o g e blob th tr cid ws d s s' :
  call_typed cfg (Commit g e blob th tr cid ws d) -> Z.of_nat (length ws) <= u32_max ->
  dispatch cfg env o (Commit g e blob th tr cid ws d) s = (Ok tt, s') ->
  exists st, GroupMls s !! g = Some st /\ epoch st = e /\
    let st' := next_state st th tr cid d in
    GroupMls s' !! g = Some st' /\
    (forall who, member_after s s' g (epoch st') d who) /\
    handshake_at_epoch s' g (epoch st') = Some blob /\
    (forall a b, (a, b) ∈ ws -> b <> [] /\ pending_welcome s' g a = Some b) /\
    (forall g', g' <> g -> view s' g' = view s g').
Proof.
  intros [Hty _] Hlen Hrun%transactional_Ok.
  apply commit_Ok in Hrun as (who & st & _ & Hg & [Hl _] & Hcm & Hlog & Hws & Hbox); [| done].
  exists st. split; [by destruct Hg |]. split; [by destruct Hg |].
  pose proof (cg_distinct _ _ _ _ _ _ _ _ Hg) as [Hadded _]%NoDup_app.
  assert (ws.*1 ≡ₚ added d /\ Forall (fun w => w.2 <> []) ws) as [Hperm Hne] 
    by (by apply (welcomes_spec _ _ s)).
  split_and!.
  - apply (cm_after _ _ _ _ _ _ Hcm).
  - intros a. destruct (cm_members _ _ _ _ _ _ Hcm) as [j Hm]. specialize (Hm a).
    unfold member_after. change (v_members (view s' g) !! a) with (members s' g !! a) in Hm.
    repeat case_decide; [done | by eauto | done].
  - unfold handshake_at_epoch, dget. change (v_log (view s' g) !! epoch (next_state st th tr cid d)
      = Some blob). by rewrite Hlog, lookup_insert_eq.
  - intros a b Hin. split; [by rewrite Forall_forall in Hne; apply (Hne (a, b)) |].
    apply Hbox; [by rewrite Hperm | done].
  - apply (loc_view _ _ _ Hl).
Qed.

(** No member of a group of three can leave alone: whatever else the commit
    carries, the two-member rule refuses it. *)
Theorem three_members_cannot_leave env o g e blob th tr cid ws who st s :
  1 <= MaxGroupMembers cfg ->
  GroupMls s !! g = Some st -> member_count st = 3 ->
  (dispatch cfg env o (Commit g e blob th tr cid ws (mkMemberDelta [] [who])) s).1 <> Ok tt.
Proof.
  intros Hmax Hst Hcount Hok. destruct (dispatch _ _ _ _ s) as [r s'] eqn:Hrun.
  simpl in Hok. subst r. apply transactional_Ok, commit_Ok in Hrun as (x & st1 & _ & Hg & _);
    [| unfold len; simpl; lia].
  destruct Hg as [_ _ Hst1 _ _ _ _ _ _ [_ Htwo]]. rewrite Hst in Hst1. simplify_eq.
  rewrite Hcount in Htwo. by apply Htwo.
Qed.
End Effect.

(** * Concrete runs *)

Lemma welcomes_are_bijective_witness :
  ensure_welcomes_match_added [2%N; 3%N] [(3%N, [5]); (2%N, [4])] trio = (Ok tt, trio).
Proof.
  apply (welcomes_are_bijective [2%N; 3%N]).
  - refine (bool_decide_unpack _ _). by vm_compute.
  - by vm_compute.
  - split; [apply Permutation_swap | refine (bool_decide_unpack _ _); by vm_compute].
Defined.

(** Account 4 joins the group of three. *)
Definition widening : Call :=
  Commit 0 1 [6] 15 16 [8] [(4%N, [7])] (mkMemberDelta [4%N] []).

Lemma commit_effect_witness :
  let s' := (dispatch test_config (test_env 4) (SignedBy 1) widening trio).2 in
  exists st, GroupMls trio !! 0 = Some st /\ epoch st = 1 /\
    let st' := next_state st 15 16 [8] (mkMemberDelta [4%N] []) in
    GroupMls s' !! 0 = Some st' /\
    (forall who, member_after trio s' 0 (epoch st') (mkMemberDelta [4%N] []) who) /\
    handshake_at_epoch s' 0 (epoch st') = Some [6] /\
    (forall a b, (a, b) ∈ [(4%N, [7])] -> b <> [] /\ pending_welcome s' 0 a = Some b) /\
    (forall g', g' <> 0 -> view s' g' = view trio g').
Proof.
  intros s'. apply (commit_effect test_config (test_env 4) (SignedBy 1) 0 1 [6] 15 16 [8]).
  - split; by vm_compute.
  - by vm_compute.
  - by vm_compute.
Defined.

Lemma three_members_cannot_leave_witness :
  (dispatch test_config (test_env 4) (SignedBy 2)
    (Commit 0 1 [6] 15 16 [8] [] (mkMemberDelta [] [2%N])) trio).1 <> Ok tt.
Proof.
  by eapply (three_members_cannot_leave test_config (test_env 4) (SignedBy 2) 0 1);
    [| vm_compute; reflexivity |].
Defined.
