(* ===== verification/GroupRefinement.v ===== *)
(** The contract of [pallet-chat-group] as a delivery service: per group an epoch, an
    owner and the roles of its members, and for every call who may make it, what it
    changes when it is accepted, and that it changes nothing when it is refused. The
    pallet implements it, call by call. *)

From S2P Require Import Prelude Frame ChatCommon ChatGroup GroupViews GroupChecks GroupSteps GroupRegistry.
Import Group.

(** What a client of the service sees of a group. *)
Record Roster : Type := mkRoster {
  at_epoch : Z;
  owner : AccountId;
  roles : gmap AccountId MemberRole;
}.

Definition Service : Type := Z -> option Roster.

Definition same_service (a a' : Service) : Prop := forall g, a' g = a g.

(** [a'] is [a] with the entry of [g] replaced. *)
Definition changes_at (g : Z) (r : option Roster) (a a' : Service) : Prop :=
  a' g = r /\ forall g', g' <> g -> a' g' = a g'.

(** The calls that concern the service; every other one leaves it alone. *)
Definition concerns_service (c : Call) : bool :=
  match c with
  | CreateGroup _ _ _ _ _ | Commit _ _ _ _ _ _ _ _ | DisbandGroup _ | ForceDisbandGroup _
  | TransferOwnership _ _ | SetAdmin _ _ _ => true
  | _ => false
  end.

(** Who may commit [d]: a member; to add anybody or to remove another, the owner or an
    administrator. Nobody removes the owner, who is among [removed d] in no case. *)
Definition may_commit (r : Roster) (who : AccountId) (d : MemberDelta) : Prop :=
  exists role_, roles r !! who = Some role_ /\
    (added d <> [] \/ Exists (fun a => a <> who) (removed d) -> role_ = Owner \/ role_ = Admin).

(** The roles after a commit: those added are plain members. *)
Definition committed_roles (r : Roster) (d : MemberDelta) (m : gmap AccountId MemberRole) : Prop :=
  forall who, m !! who = if decide (who ∈ removed d) then None
                         else if decide (who ∈ added d) then Some Member else roles r !! who.

Section Spec.
Context `{FrameSystem} (cfg : Config).

(** What a call sent by [o] with result [r] does to the service. *)
Inductive service_step (o : Origin) : Call -> outcome (DispatchError Error) unit -> Service -> Service -> Prop :=
| sv_refused c e a a' (Hsame : same_service a a') : service_step o c (Err e) a a'
| sv_idle c a a' (Hc : concerns_service c = false) (Hsame : same_service a a') : service_step o c (Ok tt) a a'
| sv_create g who cid suite public th tr a a' (Ho : ensure_signed o = Some who) (Hnew : a g = None)
    (Hc : changes_at g (Some (mkRoster 0 who {[ who := Owner ]})) a a') :
    service_step o (CreateGroup cid suite public th tr) (Ok tt) a a'
| sv_commit g e blob th tr cid ws d who r m a a' (Ho : ensure_signed o = Some who) (Hg : a g = Some r)
    (Hepoch : at_epoch r = e) (Hmay : may_commit r who d)
    (Hjoin : forall x, x ∈ added d -> roles r !! x = None)
    (Hleave : forall x, x ∈ removed d -> is_Some (roles r !! x) /\ x <> owner r)
    (Hroles : committed_roles r d m) (Hcap : Z.of_nat (size m) <= MaxGroupMembers cfg) (Htwo : size m <> 2%nat)
    (Hc : changes_at g (Some (mkRoster (sat_add u64_max e 1) (owner r) m)) a a') :
    service_step o (Commit g e blob th tr cid ws d) (Ok tt) a a'
| sv_shrink c g r m a a' (Hg : a g = Some r)
    (Ho : c = DisbandGroup g /\ ensure_signed o = Some (owner r) \/
          c = ForceDisbandGroup g /\ GovernanceOrigin cfg o = true)
    (Hsub : m ⊆ roles r) (Hc : changes_at g (Some (mkRoster (at_epoch r) (owner r) m)) a a') :
    service_step o c (Ok tt) a a'
| sv_remove c g r a a' (Hg : a g = Some r)
    (Ho : c = DisbandGroup g /\ ensure_signed o = Some (owner r) \/
          c = ForceDisbandGroup g /\ GovernanceOrigin cfg o = true)
    (Hc : changes_at g None a a') :
    service_step o c (Ok tt) a a'
| sv_transfer g to r a a' (Hg : a g = Some r) (Ho : ensure_signed o = Some (owner r)) (Hto : to <> owner r)
    (Hin : is_Some (roles r !! to)) (Hown : is_Some (roles r !! owner r))
    (Hc : changes_at g (Some (mkRoster (at_epoch r) to (<[to := Owner]> (<[owner r := Admin]> (roles r))))) a a') :
    service_step o (TransferOwnership g to) (Ok tt) a a'
| sv_set_admin g who on role_ r a a' (Hg : a g = Some r) (Ho : ensure_signed o = Some (owner r)) (Hne : who <> owner r)
    (Hrole : roles r !! who = Some role_) (Hnot : role_ <> Owner)
    (Hc : changes_at g (Some (mkRoster (at_epoch r) (owner r) (<[who := if (on : bool) then Admin else Member]> (roles r)))) a a') :
    service_step o (SetAdmin g who on) (Ok tt) a a'.
End Spec.

Section Refinement.
Context `{FrameSystem} {L P : Type} `{ReservableCurrency L} `{PrefixStorage} `{!PrefixStorageLaws}.
Context `{GroupChatHook P} `{PlatformMuteChecker P} (cfg : Config) (Hcfg : config_ok cfg).
Implicit Types (s : State L P) (g : Z).

(** The abstraction of a state. *)
Definition service_of s : Service := fun g =>
  (fun st => mkRoster (epoch st) (admin st) (role <$> members s g)) <$> GroupMls s !! g.

(** The same, from the view of the group. *)
Definition roster_of (v : View) : option Roster :=
  (fun st => mkRoster (epoch st) (admin st) (role <$> v_members v)) <$> v_mls v.

Lemma service_roster s g : service_of s g = roster_of (view s g).
Proof. done. Qed.

Lemma changes_at_local g r s s' :
  (forall g', g' <> g -> view s' g' = view s g') -> roster_of (view s' g) = r ->
  changes_at g r (service_of s) (service_of s').
Proof. intros Hl Hr. split; [done |]. intros g' Hne. by rewrite !service_roster, Hl. Qed.

(** ** Calls that do not concern it *)

Definition rosters s := (GroupMls s, GroupMembers s).

Lemma same_rosters s s' : rosters s' = rosters s -> same_service (service_of s) (service_of s').
Proof. intros [= Hg Hm] g. unfold service_of, members. by rewrite Hg, Hm. Qed.

Lemma idle_rosters env o c : concerns_service c = false -> framed rosters (apply_call cfg env o c).
Proof.
  destruct c; try done; intros _; simpl;
    unfold publish_key_package, revoke_key_package, claim_welcome, anchor_message_digest, request_join, cancel_join_request,
      approve_join, set_group_profile, set_group_nickname, ban_member, unban_member, set_member_mute, set_group_mute_all,
      set_group_frozen, clear_join_state, ensure_sender_not_platform_muted, ensure_not_frozen, ensure_owner_or_admin, get_group,
      note_mls_action, note_join_request, bounded, bounded_or, reserve_deposit, unreserve_deposit, deposit_event; cbv zeta;
    repeat (framed_step || case_match).
Qed.

(** ** Calls that do *)

Lemma committed_roles_ok d st st' v v' : committed (MaxGroupMembers cfg) d st st' v v' ->
  committed_roles (mkRoster (epoch st) (admin st) (role <$> v_members v)) d (role <$> v_members v').
Proof.
  intros Hc who. destruct (cm_members _ _ _ _ _ _ Hc) as [j Hm]. simpl. rewrite !lookup_fmap, Hm.
  by repeat case_decide.
Qed.

Lemma commit_service env o g e blob th tr cid ws d s s' :
  registry_ok cfg s -> len (added d) <= MaxGroupMembers cfg -> commit cfg env o g e blob th tr cid ws d s = (Ok tt, s') ->
  service_step cfg o (Commit g e blob th tr cid ws d) (Ok tt) (service_of s) (service_of s').
Proof.
  intros Hs Hty Hrun. apply commit_Ok in Hrun as (who & st & Ho & Hg & [[Hl _ _] _] & Hc & _ & _); [| done].
  pose proof (committed_ok _ _ (vok_max cfg Hcfg) _ _ _ _ _ Hc (ro_views _ _ Hs g)) as Hv'.
  pose proof (cm_after _ _ _ _ _ _ Hc) as Hafter. pose proof (vo_count _ _ _ Hv' _ Hafter) as Hcount.
  eapply (sv_commit _ _ _ _ _ _ _ _ _ _ who _ (role <$> v_members (view s' g))); [exact Ho | | | | | | | | |].
  - unfold service_of. by rewrite (cg_group _ _ _ _ _ _ _ _ Hg).
  - exact (cg_epoch _ _ _ _ _ _ _ _ Hg).
  - destruct (cg_member _ _ _ _ _ _ _ _ Hg) as (m & Hm & Hrole). exists (role m). simpl. rewrite lookup_fmap, Hm. done.
  - intros x Hx. simpl. rewrite lookup_fmap. destruct (cm_added _ _ _ _ _ _ Hc x Hx) as [Hn _]. simpl in Hn. by rewrite Hn.
  - intros x Hx. simpl. rewrite lookup_fmap, fmap_is_Some. exact (cm_removed _ _ _ _ _ _ Hc x Hx).
  - exact (committed_roles_ok _ _ _ _ _ Hc).
  - rewrite map_size_fmap, <- Hcount. exact (cm_cap _ _ _ _ _ _ Hc).
  - rewrite map_size_fmap. intros Htwo. apply (cm_not_two _ _ _ _ _ _ Hc). lia.
  - apply changes_at_local; [done |]. unfold roster_of. rewrite Hafter. simpl.
    by rewrite <- (cg_epoch _ _ _ _ _ _ _ _ Hg).
Qed.

Lemma create_service env o cid suite public th tr s s' :
  registry_ok cfg s -> create_group cfg env o cid suite public th tr s = (Ok tt, s') ->
  service_step cfg o (CreateGroup cid suite public th tr) (Ok tt) (service_of s) (service_of s').
Proof.
  intros Hs Hrun. apply create_group_Ok in Hrun as (who & Ho & Hc). set (g := NextGroupId s) in *.
  destruct (cr_view _ _ _ _ _ Hc) as (st & m & Hv & Hadm & Hep & _ & Hrole).
  assert (view s g = empty_view) as Hempty.
  { apply (vo_orphan _ _ _ (ro_views _ _ Hs g)). destruct (v_mls (view s g)) eqn:Hg; [| done].
    pose proof (ro_range _ _ Hs g (mk_is_Some _ _ Hg)). unfold g in *. lia. }
  apply (sv_create _ _ g who); [done | by rewrite service_roster, Hempty |].
  apply changes_at_local; [apply (cr_other _ _ _ _ _ Hc) |]. rewrite Hv, Hempty. unfold roster_of. simpl.
  by rewrite Hep, Hadm, fmap_insert, Hrole, fmap_empty.
Qed.

Lemma disband_service env o c g b s s' st :
  registry_ok cfg s -> GroupMls s !! g = Some st -> do_disband env g s = (Ok b, s') ->
  (c = DisbandGroup g /\ ensure_signed o = Some (admin st) \/ c = ForceDisbandGroup g /\ GovernanceOrigin cfg o = true) ->
  service_step cfg o c (Ok tt) (service_of s) (service_of s').
Proof.
  intros Hs Hst Hd Ho. pose proof (disband_Ok cfg _ _ _ _ _ _ Hd Hst) as Hb. destruct b.
  - eapply (sv_remove _ _ c g); [by unfold service_of; rewrite Hst | done |].
    apply changes_at_local; [apply (gn_other _ _ _ _ Hb) |]. by rewrite (gn_view _ _ _ _ Hb).
  - destruct Hb as ([[Hl _ _] _] & (st' & Hsh) & _). destruct Hsh, sh_same as [Hadm Hep].
    eapply (sv_shrink _ _ c g _ (role <$> v_members (view s' g))); [by unfold service_of; rewrite Hst | done | |].
    + simpl. by apply map_fmap_mono.
    + apply changes_at_local; [done |]. unfold roster_of. rewrite sh_after. simpl.
      by rewrite Hadm, Hep.
Qed.

Lemma transfer_service env o g to s s' :
  transfer_ownership env o g to s = (Ok tt, s') ->
  service_step cfg o (TransferOwnership g to) (Ok tt) (service_of s) (service_of s').
Proof.
  intros Hrun. pose proof (transfer_Ok cfg (fun _ => True) _ _ _ _ _ _ Hrun) as [[[Hl _ _] _] _].
  unfold transfer_ownership, deposit_event in Hrun. g_inv.
  match goal with Hl : for_each _ _ _ = _ |- _ => apply rebind_loop_Ok in Hl as [p ->] end.
  match goal with Hst : GroupMls s !! g = Some ?st |- _ => eapply (sv_transfer _ _ g to (mkRoster (epoch st) (admin st) (role <$> members s g))) end.
  all: simpl; try done.
  - unfold service_of. by match goal with Hst : GroupMls s !! g = Some _ |- _ => rewrite Hst end.
  - rewrite lookup_fmap, fmap_is_Some. eauto.
  - rewrite lookup_fmap, fmap_is_Some. eauto.
  - apply changes_at_local; [done |]. unfold roster_of, view, members. simpl.
    rewrite lookup_insert_eq, !prefix_dset, !decide_True by done. simpl. by rewrite !fmap_insert.
Qed.

Lemma set_admin_service o g who on s s' :
  set_admin o g who on s = (Ok tt, s') -> service_step cfg o (SetAdmin g who on) (Ok tt) (service_of s) (service_of s').
Proof.
  unfold set_admin, deposit_event. intros Hrun. g_inv.
  match goal with Hst : GroupMls s !! g = Some ?st, Hm : members s g !! who = Some ?m |- _ =>
    eapply (sv_set_admin _ _ g who on (role m) (mkRoster (epoch st) (admin st) (role <$> members s g))) end.
  all: simpl; try done.
  - unfold service_of. by match goal with Hst : GroupMls s !! g = Some _ |- _ => rewrite Hst end.
  - rewrite lookup_fmap. by match goal with Hm : members s g !! who = Some _ |- _ => rewrite Hm end.
  - apply changes_at_local.
    + intros g' Hne. unfold view, members. cbn -[prefix dset drem]. by rewrite prefix_dset, decide_False by congruence.
    + unfold roster_of, view, members. cbn -[prefix dset drem].
      match goal with Hst : GroupMls s !! g = Some _ |- _ => rewrite Hst end. simpl.
      rewrite prefix_dset, decide_True by done. rewrite fmap_insert. by destruct on.
Qed.

(** C1: The pallet implements the service, call by call. In every reachable state a call
    sent by [o] that ends with [r] takes the service exactly the step the service allows
    for that sender, that call and that result: a refused call leaves every group alone;
    a group begins with its creator as owner; a commit needs the group's epoch and a
    member, who must be the owner or an administrator to touch others, moves the group
    to the next epoch (the last one repeats) and exchanges exactly the accounts it lists;
    only the owner or the governance take a group down, only the owner hands it over or
    names administrators; and every other call leaves every group as it is. What else the
    chain does to the authorization layer is not seen by the service. *)
Theorem group_refines_service l p s :
  rtc (step cfg) (genesis l p) s ->
  (forall env o c r s', call_typed cfg c -> dispatch cfg env o c s = (r, s') ->
     service_step cfg o c r (service_of s) (service_of s')) /\
  (forall p', same_service (service_of s) (service_of (s <| permission := p' |>))).
Proof.
  intros Hrun. apply registry_reach in Hrun as Hs; [| done]. split; [| done]. intros env o c r s' Hty Hcall.
  apply transactional_cases in Hcall as [([] & -> & Hcall) | (e & -> & ->)]; [| by apply sv_refused].
  destruct (concerns_service c) eqn:Hc.
  - destruct c; try done; simpl in Hcall.
    + by eapply create_service.
    + destruct Hty as [Hty _]. by eapply commit_service.
    + unfold disband_group in Hcall. g_inv. eapply disband_service; [done | done | done | by left].
    + by eapply transfer_service.
    + by eapply set_admin_service.
    + unfold force_disband_group, deposit_event in Hcall. g_inv.
      * match goal with Hd : do_disband _ _ _ = (_, ?x) |- service_step _ _ ?c _ ?a _ =>
          change (service_step cfg o c (Ok tt) a (service_of x)) end.
        eapply disband_service; [done | done | done | by right].
      * eapply disband_service; [done | done | done | by right].
  - apply sv_idle; [done |]. apply same_rosters. by eapply idle_rosters.
Qed.
End Refinement.

Lemma group_refines_service_witness :
  let s' := (dispatch test_config (test_env 4) (SignedBy 1) first_commit trio).2 in
  service_of trio 0 = Some (mkRoster 1 1%N {[ 1%N := Owner; 2%N := Member; 3%N := Member ]}) /\
  service_of s' 0 = Some (mkRoster 2 1%N {[ 1%N := Owner; 2%N := Member; 3%N := Member; 4%N := Member ]}) /\
  service_step test_config (SignedBy 1) first_commit (Ok tt) (service_of trio) (service_of s').
Proof.
  intros s'. split; [by vm_compute |]. split; [by vm_compute |].
  refine (proj1 (group_refines_service test_config group_test_config_ok test_ledger tt trio trio_reach)
    (test_env 4) (SignedBy 1) first_commit (Ok tt) s' _ _).
  - split; by vm_compute.
  - by vm_compute.
Defined.
