(* ===== verification/ChatWiring.v ===== *)
(** The runtime's wiring of the group pallet to the permission pallet
    (src/runtime/src/configs/mod.rs): the two adapters as instances of the
    group's interfaces, and the two pallets running together. The permission
    pallet's scenes mirror the membership of the groups. *)

From S2P Require Import Prelude Frame ChatCommon ChatPermission ChatGroup.
From S2P Require Import GroupViews GroupChecks GroupSteps GroupHooks GroupRegistry.
Import Permission Group.

Module Wiring.

Definition chatgrp : bytes := literal "chatgrp ".

Section Runtime.
Context `{FrameSystem} {L : Type} `{ReservableCurrency L} `{PrefixStorage} `{!PrefixStorageLaws}.
Context (pcfg : Permission.Config) (gcfg : Group.Config).

Abbreviation Chat := Permission.State.

(** * The adapters *)

#[local] Instance GroupPlatformMuteCheck : Group.PlatformMuteChecker Chat := {|
  Group.is_platform_muted env who p := is_account_muted env p who;
|}.

#[local] Instance GroupChatAuthorizer : Group.GroupChatHook Chat := {|
  Group.on_member_added env group_id member counterparty p :=
    (grant_scene_from_hook pcfg env chatgrp member counterparty Group (Numeric group_id) None [] p).2;
  Group.on_member_removed env group_id member counterparty p :=
    (revoke_scene_from_hook chatgrp member counterparty Group (Numeric group_id) p).2;
|}.

Abbreviation System := (Group.State L Chat).

(** * The two pallets together *)

(** The scenes of the groups are granted by the group pallet alone: each pallet
    uses a source name of its own. *)
Definition foreign (op : Permission.ManagerOp) : Prop :=
  match op with
  | Permission.Grant src _ _ _ _ _ _ | Permission.GrantFromHook src _ _ _ _ _ _ => src <> chatgrp
  | _ => True
  end.

Inductive sys_step (s s' : System) : Prop :=
| sys_group env o c r (Henv : env_ok env) (Hty : Group.call_typed gcfg c)
    (Hcall : Group.dispatch gcfg env o c s = (r, s'))
| sys_chat_call env o c r p (Henv : env_ok env)
    (Hcall : Permission.dispatch pcfg env o c (Group.permission s) = (r, p))
    (Hs' : s' = s <| Group.permission := p |>)
| sys_chat_op env op r p (Henv : env_ok env) (Hty : Permission.op_typed op) (Hfor : foreign op)
    (Hop : Permission.apply_op pcfg env op (Group.permission s) = (r, p))
    (Hs' : s' = s <| Group.permission := p |>).

(** ** Scenes of a group *)

(** The pair holds the scene of group [g]. *)
Definition linked (p : Chat) (g : Z) (x y : AccountId) : Prop :=
  exists auth, auth ∈ authorizations p x y /\ same_key chatgrp Group (Numeric g) auth.

Lemma linked_comm p g x y : linked p g x y -> linked p g y x.
Proof. unfold linked. by rewrite Permission.authorizations_comm. Qed.

Lemma linked_pair p g x y a b : sorted_pair x y = sorted_pair a b -> linked p g x y -> linked p g a b.
Proof. unfold linked, authorizations. by intros ->. Qed.

Lemma numeric_key g h auth :
  same_key chatgrp Group (Numeric h) auth -> same_key chatgrp Group (Numeric g) auth -> h = g.
Proof. intros (_ & _ & Hh) (_ & _ & Hg). congruence. Qed.

(** The hook of an addition links at most the pair it is called for. *)
Lemma added_linked env g a b p h x y :
  linked (Group.on_member_added env g a b p) h x y ->
  linked p h x y \/ (h = g /\ sorted_pair x y = sorted_pair a b).
Proof.
  intros (auth & Hin & Hkey). simpl in Hin.
  destruct (Permission.hook_grant pcfg env chatgrp a b Group (Numeric g) p) as (Ho & Hnew & _).
  destruct (decide (sorted_pair x y = sorted_pair a b)) as [He | Hne].
  - unfold authorizations in Hin. rewrite He in Hin. apply Hnew in Hin as [Hin | ->].
    + left. eapply linked_pair; [symmetry; exact He |]. by exists auth.
    + right. split; [| done]. by apply (numeric_key g h) in Hkey.
  - left. exists auth. by rewrite <- Ho.
Qed.

(** The hook of a removal unlinks its pair. *)
Lemma removed_linked env g a b p h x y :
  Permission.config_ok pcfg -> Permission.inv pcfg p ->
  linked (Group.on_member_removed env g a b p) h x y ->
  linked p h x y /\ ~ (h = g /\ sorted_pair x y = sorted_pair a b).
Proof.
  intros Hcfg Hinv (auth & Hin & Hkey). simpl in Hin.
  destruct (Permission.authorizations_ok pcfg p a b Hcfg Hinv) as (Hnd & _ & _).
  destruct (Permission.hook_revoke chatgrp a b Group (Numeric g) p) as (Ho & Hout).
  specialize (Hout Hnd).
  destruct (decide (sorted_pair x y = sorted_pair a b)) as [He | Hne].
  - unfold authorizations in Hin. rewrite He in Hin. apply Hout in Hin as [Hin Hnot].
    split; [eapply linked_pair; [symmetry; exact He |]; by exists auth |]. by intros [-> _].
  - split; [exists auth; by rewrite <- Ho | tauto].
Qed.

(** ** Loops of hook calls *)

Context (Hpcfg : Permission.config_ok pcfg).
Abbreviation chat_ok := (Permission.inv pcfg).

(** One hook call keeps the permission pallet well-formed, unlinks the pairs
    [drops] and links at most those [adds]. *)
Definition hook_effect (h : Chat -> AccountId -> Chat)
    (drops adds : AccountId -> Z -> AccountId -> AccountId -> Prop) : Prop :=
  forall p a, chat_ok p -> chat_ok (h p a) /\ forall g x y, linked (h p a) g x y ->
    (linked p g x y /\ ~ drops a g x y) \/ adds a g x y.

Lemma hooks_fold h drops adds l p :
  hook_effect h drops adds -> chat_ok p ->
  chat_ok (foldl h p l) /\ forall g x y, linked (foldl h p l) g x y ->
    (linked p g x y /\ forall a, a ∈ l -> ~ drops a g x y) \/ exists a, a ∈ l /\ adds a g x y.
Proof.
  intros Hh. revert p. induction l as [| a l IH]; intros p Hp; simpl.
  - split; [done |]. intros g x y Hl. left. split; [done |]. by intros a ?%elem_of_nil.
  - destruct (Hh p a Hp) as [Hp1 Hl1]. destruct (IH _ Hp1) as [Hp2 Hl2]. split; [done |].
    intros g x y [[Hl Hd] | (b & Hb & Ha)]%Hl2; [| right; exists b; split; [by right | done]].
    apply Hl1 in Hl as [[Hl Hda] | Ha]; [left; split; [done |] | right; exists a; split; [by left | done]].
    by intros b [-> | Hb]%elem_of_cons; [| apply Hd].
Qed.

Definition at_pair (g : Z) (a b : AccountId) (h : Z) (x y : AccountId) : Prop :=
  h = g /\ sorted_pair x y = sorted_pair a b.

Definition nowhere (h : Z) (x y : AccountId) : Prop := False.

Lemma added_effect env g b : env_ok env ->
  hook_effect (fun p a => on_member_added env g a b p) (fun _ => nowhere) (fun a => at_pair g a b).
Proof.
  intros Henv p a Hp. split.
  - apply (Permission.auth_change_inv pcfg p); [done | done |].
    apply (Permission.op_auth_change pcfg env (GrantFromHook chatgrp a b Group (Numeric g) None [])
      (grant_scene_from_hook pcfg env chatgrp a b Group (Numeric g) None [] p).1); [done | done |].
    apply surjective_pairing.
  - intros h x y [Hl | Hl]%added_linked; [by left; split; [| intros []] | by right].
Qed.

Lemma removed_effect env g b : env_ok env ->
  hook_effect (fun p a => on_member_removed env g a b p) (fun a => at_pair g a b) (fun _ => nowhere).
Proof.
  intros Henv p a Hp. split.
  - apply (Permission.auth_change_inv pcfg p); [done | done |].
    apply (Permission.op_auth_change pcfg env (RevokeFromHook chatgrp a b Group (Numeric g))
      (revoke_scene_from_hook chatgrp a b Group (Numeric g) p).1); [done | done |].
    apply surjective_pairing.
  - intros h x y Hl%removed_linked; [by left | done | done].
Qed.

Lemma rebind_effect env g who to : env_ok env ->
  hook_effect (rebind_hook env g who to)
    (fun a h x y => a <> to /\ a <> who /\ at_pair g a who h x y)
    (fun a h x y => a <> to /\ at_pair g a to h x y).
Proof.
  intros Henv p a Hp. unfold rebind_hook. case_decide as Hto.
  { split; [done |]. intros h x y Hl. left. split; [done | tauto]. }
  set (q := if decide (a <> who) then on_member_removed env g a who p else p).
  assert (chat_ok q /\ forall h x y, linked q h x y ->
    linked p h x y /\ ~ (a <> who /\ at_pair g a who h x y)) as [Hq Hl1].
  { unfold q. case_decide as Hw.
    - destruct (removed_effect env g who Henv p a Hp) as [Hr Hl]. split; [done |].
      intros h x y [[? Hd] | []]%Hl. split; [done | tauto].
    - split; [done |]. intros h x y Hl. split; [done | tauto]. }
  destruct (added_effect env g to Henv q a Hq) as [Hr Hl2]. split; [done |].
  intros h x y [[Hl _] | Ha]%Hl2; [| by right]. apply Hl1 in Hl as [Hl Hd]. left. tauto.
Qed.

Lemma evict_effect env g owner : env_ok env ->
  hook_effect (evict_hook env g owner) (fun a h x y => a <> owner /\ at_pair g a owner h x y)
    (fun _ => nowhere).
Proof.
  intros Henv p a Hp. unfold evict_hook. case_decide as Ho.
  - destruct (removed_effect env g owner Henv p a Hp) as [Hr Hl]. split; [done |].
    intros h x y [[? Hd] | []]%Hl. left. split; [done | tauto].
  - split; [done |]. intros h x y Hl. left. split; [done | tauto].
Qed.

(** ** The mirror *)

(** [x] and [y] are the owner of group [g] and one of its members. *)
Definition paired (s : System) (g : Z) (x y : AccountId) : Prop :=
  exists st, GroupMls s !! g = Some st /\
    ((x = admin st /\ is_Some (members s g !! y)) \/ (y = admin st /\ is_Some (members s g !! x))).

Record system_ok (s : System) : Prop := {
  so_groups : registry_ok gcfg s;
  so_chat : chat_ok (permission s);
  so_mirror : forall g x y, x <> y -> linked (permission s) g x y -> paired s g x y;
}.

(** The views of the other groups, and the links of group [g], decide. *)
Lemma mirror_change g (s s' : System) :
  system_ok s ->
  (forall h, h <> g -> view s' h = view s h) ->
  (forall h x y, h <> g -> linked (permission s') h x y -> linked (permission s) h x y) ->
  (forall x y, x <> y -> linked (permission s') g x y -> paired s' g x y) ->
  forall h x y, x <> y -> linked (permission s') h x y -> paired s' h x y.
Proof.
  intros Hs Hv Hl Hg h x y Hxy Hh. destruct (decide (h = g)) as [-> | Hne]; [by apply Hg |].
  apply Hl, (so_mirror s Hs) in Hh as (st & Hst & Hp); [| done..].
  pose proof (f_equal v_mls (Hv h Hne)) as Hm. pose proof (f_equal v_members (Hv h Hne)) as Hr.
  simpl in Hm, Hr. exists st. by rewrite Hm, Hr.
Qed.

Lemma paired_intro (s : System) g st x y a :
  GroupMls s !! g = Some st -> is_Some (members s g !! a) ->
  sorted_pair x y = sorted_pair a (admin st) -> paired s g x y.
Proof.
  intros Hst Ha [[-> ->] | [-> ->]]%Permission.sorted_pair_inj; exists st; auto.
Qed.

Lemma paired_elim (s : System) g x y :
  x <> y -> paired s g x y -> exists st a, GroupMls s !! g = Some st /\ is_Some (members s g !! a) /\
    sorted_pair x y = sorted_pair a (admin st) /\ a <> admin st.
Proof.
  intros Hxy (st & Hst & [[-> Hm] | [-> Hm]]); exists st; [exists y | exists x]; split_and!;
    first [done | apply Permission.sorted_pair_comm | congruence].
Qed.

Lemma view_group (s : System) g v : view s g = v -> GroupMls s !! g = v_mls v /\ members s g = v_members v.
Proof. by intros <-. Qed.

Lemma commit_mirror env o g e blob th tr cid ws d (s s' : System) :
  env_ok env -> len (added d) <= MaxGroupMembers gcfg -> system_ok s ->
  commit gcfg env o g e blob th tr cid ws d s = (Ok tt, s') ->
  chat_ok (permission s') /\
  forall h x y, x <> y -> linked (permission s') h x y -> paired s' h x y.
Proof.
  intros Henv Hty Hs Hrun. pose proof (commit_hooks _ _ _ _ _ _ _ _ _ _ _ _ _ Hrun) as (st & Hst & Hp).
  apply commit_Ok in Hrun as (who & st1 & _ & _ & [Hloc _] & Hcm & _); [| done].
  pose proof (cm_before _ _ _ _ _ _ Hcm) as Hb. simpl in Hb. rewrite Hst in Hb. injection Hb as <-.
  destruct (hooks_fold _ _ _ (added d) (permission s)
    (added_effect env g (admin st) Henv) (so_chat s Hs)) as [Hok1 Hl1].
  destruct (hooks_fold _ _ _ (removed d) _ (removed_effect env g (admin st) Henv) Hok1) as [Hok2 Hl2].
  unfold hooks_removed, hooks_added in Hp. rewrite <- Hp in Hok2, Hl2. split; [done |].
  apply (mirror_change g s); [done | apply (loc_view _ _ _ Hloc) | |].
  - intros h x y Hne [[[[Hl _] | (a & _ & Hh & _)]%Hl1 _] | (a & _ & [])]%Hl2; done.
  - destruct (cm_members _ _ _ _ _ _ Hcm) as [j Hm]. pose proof (cm_after _ _ _ _ _ _ Hcm) as Hst'.
    simpl in Hst'. pose proof (cm_admin _ _ _ _ _ _ Hcm) as Hadm.
    pose proof (cm_distinct _ _ _ _ _ _ Hcm) as (_ & Hdis & _)%NoDup_app.
    assert (forall x y a, is_Some (members s g !! a) \/ a ∈ added d -> a ∉ removed d ->
      sorted_pair x y = sorted_pair a (admin st) -> paired s' g x y) as Hdone.
    { intros x y a Ha Hr Hxy. eapply (paired_intro _ _ _ _ _ a); [exact Hst' | | by rewrite Hadm].
      change (is_Some (v_members (view s' g) !! a)). rewrite Hm, decide_False by done.
      case_decide; [by eauto | by destruct Ha]. }
    intros x y Hxy [[Hl Hr] | (a & _ & [])]%Hl2. apply Hl1 in Hl as [[Hl _] | (a & Ha & _ & Hpair)].
    + apply (so_mirror s Hs) in Hl; [| done]. apply paired_elim in Hl as (st2 & a & Hst2 & Ha & Hpair & _);
        [| done]. rewrite Hst in Hst2. injection Hst2 as <-.
      apply (Hdone x y a); [by left | | done]. intros Hin. by apply (Hr a Hin).
    + apply (Hdone x y a); [by right | by apply Hdis | done].
Qed.

Lemma transfer_mirror env o g to (s s' : System) :
  env_ok env -> system_ok s -> transfer_ownership env o g to s = (Ok tt, s') ->
  chat_ok (permission s') /\
  forall h x y, x <> y -> linked (permission s') h x y -> paired s' h x y.
Proof.
  intros Henv Hs Hrun.
  pose proof (transfer_hooks _ _ _ _ _ _ Hrun) as (st & old & target & Hst & Hne & Hold & Hto & Hv & Hp).
  apply (transfer_Ok gcfg (fun _ => True)) in Hrun as [[Hloc _] _].
  set (ms := <[to := _]> _) in Hv, Hp.
  destruct (hooks_fold _ _ _ (iter_keys ms) (permission s)
    (rebind_effect env g (admin st) to Henv) (so_chat s Hs)) as [Hok Hl].
  rewrite <- Hp in Hok, Hl. split; [done |]. apply view_group in Hv as [Hmls Hms]. simpl in Hmls, Hms.
  assert (forall a, is_Some (ms !! a) <-> a ∈ iter_keys ms) as Hkeys by (intros a; apply iter_keys_elem).
  apply (mirror_change g s); [done | apply (loc_view _ _ _ Hloc) | |].
  - intros h x y Hh [[Hlh _] | (a & _ & _ & Hg & _)]%Hl; done.
  - assert (forall x y a, is_Some (ms !! a) -> sorted_pair x y = sorted_pair a to -> paired s' g x y)
      as Hdone by (intros x y a Ha Hxy; eapply (paired_intro _ _ _ _ _ a); [exact Hmls | by rewrite Hms | done]).
    intros x y Hxy [[Hlg Hd] | (a & Ha & _ & _ & Hpair)]%Hl; [| by apply (Hdone x y a); [apply Hkeys |]].
    apply (so_mirror s Hs) in Hlg; [| done].
    apply paired_elim in Hlg as (st2 & a & Hst2 & Ha & Hpair & Hadm); [| done].
    rewrite Hst in Hst2. injection Hst2 as <-. destruct (decide (a = to)) as [-> | Hato].
    + apply (Hdone x y (admin st)); [| rewrite Hpair; apply Permission.sorted_pair_comm].
      unfold ms. rewrite lookup_insert_ne, lookup_insert_eq by done. eauto.
    + exfalso. apply (Hd a); [| by split_and!]. apply Hkeys. unfold ms.
      by rewrite !lookup_insert_ne by done.
Qed.

Lemma disband_mirror env g b (s s' : System) :
  env_ok env -> is_Some (GroupMls s !! g) -> system_ok s -> do_disband env g s = (Ok b, s') ->
  chat_ok (permission s') /\
  forall h x y, x <> y -> linked (permission s') h x y -> paired s' h x y.
Proof.
  intros Henv [st Hst] Hs Hrun. pose proof (disband_hooks _ _ _ _ _ _ Hrun Hst) as Hp.
  destruct (hooks_fold _ _ _ (evicted s g) (permission s)
    (evict_effect env g (admin st) Henv) (so_chat s Hs)) as [Hok Hl].
  rewrite <- Hp in Hok, Hl. split; [done |].
  pose proof (disband_Ok gcfg _ _ _ _ _ _ Hrun Hst) as Hd.
  apply (do_disband_Ok gcfg) in Hrun as (s1 & ms & v1 & _ & Hv1 & Hms & Hs1 & Hb & Hend).
  assert (forall h, h <> g -> view s' h = view s h) as Hother
    by (destruct b; [apply (gn_other _ _ _ _ Hd) | apply (loc_view _ _ _ (proj1 (proj1 Hd)))]).
  apply (mirror_change g s); [done | done | |].
  - intros h x y _ [[Hlh _] | (a & _ & [])]%Hl; done.
  - intros x y Hxy [[Hlg Hev] | (a & _ & [])]%Hl.
    apply (so_mirror s Hs) in Hlg; [| done].
    apply paired_elim in Hlg as (st2 & a & Hst2 & [m Ha] & Hpair & Hadm); [| done].
    rewrite Hst in Hst2. injection Hst2 as <-.
    assert (ms !! a = Some m) as Hma by (rewrite Hms, decide_False; [done |]; intros Hin; by apply (Hev a Hin)).
    rewrite bool_decide_eq_true_2 in Hb by (intros Hemp; by rewrite Hemp, lookup_empty in Hma).
    simpl in Hb. subst b. destruct Hend as [_ Hv]. rewrite Hs1, Hv1 in Hv.
    apply view_group in Hv as [Hmls Hmem]. simpl in Hmls, Hmem. rewrite Hst in Hmls. simpl in Hmls.
    eapply (paired_intro _ _ _ _ _ a); [exact Hmls | rewrite Hmem; eauto | by case_decide].
Qed.

(** * The invariant of the two pallets *)

Context (Hgcfg : GroupRegistry.config_ok gcfg).

Lemma call_mirror env o c (s s' : System) :
  env_ok env -> call_typed gcfg c -> system_ok s -> Group.apply_call gcfg env o c s = (Ok tt, s') ->
  chat_ok (permission s') /\
  forall h x y, x <> y -> linked (permission s') h x y -> paired s' h x y.
Proof.
  intros Henv Hty Hs Hrun. destruct (touches_roster c) eqn:Hc.
  - destruct c; try discriminate Hc; simpl in Hrun.
    + pose proof (create_group_quiet _ _ _ _ _ _ _ _ _ _ _ Hrun) as Hp. rewrite Hp.
      split; [apply Hs |]. apply create_group_Ok in Hrun as (who & _ & Hcr).
      rewrite <- Hp. apply (mirror_change (NextGroupId s) s); [done | apply (cr_other _ _ _ _ _ Hcr) | |];
        rewrite Hp; [done |].
      intros x y Hxy Hl. apply (so_mirror s Hs) in Hl as (st & Hst & _); [| done].
      pose proof (ro_range _ _ (so_groups s Hs) (NextGroupId s) ltac:(eauto)). lia.
    + by eapply commit_mirror; [| apply Hty | |].
    + unfold disband_group in Hrun. g_inv. eapply disband_mirror; eauto.
    + by eapply transfer_mirror.
    + pose proof (set_admin_quiet _ _ _ _ _ _ _ Hrun) as Hp. rewrite Hp. split; [apply Hs |].
      unfold set_admin, deposit_event in Hrun. g_inv. simpl.
      intros h x y Hxy Hl. apply (so_mirror s Hs) in Hl; [| done].
      apply paired_elim in Hl as (st2 & a & Hst2 & Ha & Hpair & _); [| done].
      apply (paired_intro _ _ st2 _ _ a); [done | | done].
      unfold members. simpl. rewrite prefix_dset. case_decide as Hh; [| done]. subst h.
      rewrite lookup_insert. case_decide; [by eauto | done].
    + unfold force_disband_group, deposit_event in Hrun. g_inv;
        match goal with Hd : do_disband _ _ _ = _ |- _ =>
          eapply disband_mirror in Hd as [Hok Hl]; [| done | by eauto | done] end; [| done].
      split; [done |]. exact Hl.
  - pose proof (quiet_call gcfg env o c Hc _ _ _ Hrun) as Hq. injection Hq as Hp Hm Hr.
    rewrite Hp. split; [apply Hs |]. intros h x y Hxy (st & Hst & Hl)%(so_mirror s Hs); [| done].
    exists st. unfold members. by rewrite Hm, Hr.
Qed.

(** A pair's list rewritten without a new scene of a group links nothing. *)
Lemma relist_linked (p p' : Chat) a b l g x y :
  SceneAuthorizations p' = <[sorted_pair a b := l]> (SceneAuthorizations p) ->
  (forall auth, auth ∈ l -> same_key chatgrp Group (Numeric g) auth ->
     exists old, old ∈ authorizations p a b /\ auth_key old = auth_key auth) ->
  linked p' g x y -> linked p g x y.
Proof.
  intros Hp Hl (auth & Hin & Hkey). destruct (decide (sorted_pair x y = sorted_pair a b)) as [He | Hne].
  - unfold authorizations in Hin. rewrite He, Hp, lookup_insert_eq in Hin. simpl in Hin.
    destruct (Hl auth Hin Hkey) as (old & Hold & Hk). eapply linked_pair; [symmetry; exact He |].
    exists old. split; [done |]. apply same_key_auth_key. rewrite Hk. by apply same_key_auth_key.
  - exists auth. unfold authorizations in *. by rewrite Hp, lookup_insert_ne in Hin by done.
Qed.

Lemma grant_linked env src a b t i d meta r (p p' : Chat) g x y :
  src <> chatgrp -> grant_scene_authorization pcfg env src a b t i d meta p = (r, p') ->
  linked p' g x y -> linked p g x y.
Proof.
  intros Hsrc Hrun. destruct r as [[] | e]; [| by apply grant_Err in Hrun as ->].
  apply grant_Ok in Hrun as (_ & _ & Ha & _). eapply relist_linked; [exact Ha |].
  intros auth Hin (Hk & _). exists auth. split; [| done]. destruct (list_find _ _) as [[pos old] |].
  - apply list_elem_of_lookup in Hin as [k Hin].
    apply list_lookup_insert_Some in Hin as [(_ & <- & _) | [_ Hin]]; [done |].
    by eapply list_elem_of_lookup_2.
  - by apply elem_of_app in Hin as [Hin | ->%list_elem_of_singleton].
Qed.

Lemma revoke_linked src a b t i r (p p' : Chat) g x y :
  revoke_scene_authorization src a b t i p = (r, p') -> linked p' g x y -> linked p g x y.
Proof.
  intros Hrun. destruct r as [[] | e]; [| by apply revoke_Err in Hrun as ->].
  apply revoke_Ok in Hrun as (_ & pos & old & _ & Ha). eapply relist_linked; [exact Ha |].
  intros auth Hin _. exists auth. split; [| done].
  by eapply sublist_subseteq; [apply sublist_delete |].
Qed.

Lemma filter_linked (p p' : Chat) a b (Q : SceneAuthorization -> Prop) `{forall auth, Decision (Q auth)} g x y :
  SceneAuthorizations p' = <[sorted_pair a b := filter Q (authorizations p a b)]> (SceneAuthorizations p) ->
  linked p' g x y -> linked p g x y.
Proof.
  intros Hp. eapply relist_linked; [exact Hp |]. intros auth [_ Hin]%list_elem_of_filter _. by exists auth.
Qed.

(** No operation of another pallet links a pair to a group. *)
Lemma foreign_linked env op r (p p' : Chat) g x y :
  foreign op -> Permission.apply_op pcfg env op p = (r, p') -> linked p' g x y -> linked p g x y.
Proof.
  intros Hfor. destruct op; simpl in *.
  - by apply grant_linked.
  - by apply revoke_linked.
  - intros [= _ <-]. by eapply filter_linked.
  - intros Hrun. destruct r as [[] | e]; [| by apply extend_Err in Hrun as ->].
    apply extend_Ok in Hrun as (_ & pos & old & Hfind & Ha). eapply relist_linked; [exact Ha |].
    apply find_Some_key in Hfind as [Hpos _]. intros auth Hin _.
    apply list_elem_of_lookup in Hin as [k Hin].
    apply list_lookup_insert_Some in Hin as [(_ & <- & _) | [_ Hin]].
    + exists old. split; [by eapply list_elem_of_lookup_2 | done].
    + exists auth. split; [by eapply list_elem_of_lookup_2 | done].
  - intros [= _ <-]. by eapply filter_linked.
  - unfold grant_scene_from_hook, grant_bidirectional_scene_authorization, bind, attempt.
    destruct (grant_scene_authorization _ _ _ _ _ _ _ _ _ p) as [[[] | e] p1] eqn:Hrun; simpl;
      intros [= _ <-] Hl; by eapply grant_linked.
  - unfold revoke_scene_from_hook, bind, attempt.
    destruct (revoke_scene_authorization _ _ _ _ _ p) as [[[] | e] p1] eqn:Hrun; simpl;
      intros [= _ <-] Hl; by eapply revoke_linked.
Qed.

Lemma chat_call_links env o c :
  framed SceneAuthorizations (Permission.apply_call pcfg env o c).
Proof.
  destruct c; simpl; unfold set_permission_level, set_rejected_scene_types, bump_capability_epoch,
    force_mute_account, force_unmute_account, report, resolve_report, Permission.deposit_event;
    framed_tac.
Qed.

Lemma sys_step_ok s s' : system_ok s -> sys_step s s' -> system_ok s'.
Proof.
  intros Hs [env o c r Henv Hty Hcall | env o c r p Henv Hcall -> | env op r p Henv Hty Hfor Hop ->].
  - assert (registry_ok gcfg s') as Hreg
      by (eapply (step_registry gcfg); [done | apply Hs | by eapply Group.step_call]).
    apply transactional_cases in Hcall as [([] & -> & Hrun) | (e & -> & ->)]; [| done].
    by destruct (call_mirror env o c s s' Henv Hty Hs Hrun).
  - split; [eapply (step_registry gcfg); [done | apply Hs | by eapply Group.step_permission] | |].
    + eapply (Permission.step_inv pcfg); [done | apply Hs | by eapply Permission.step_call].
    + apply (framed_transactional _ _ (chat_call_links env o c)) in Hcall.
      intros g x y Hxy Hl. apply (so_mirror s Hs); [done |]. simpl in Hl.
      unfold linked, authorizations in *. by rewrite Hcall in Hl.
  - split; [eapply (step_registry gcfg); [done | apply Hs | by eapply Group.step_permission] | |].
    + eapply (Permission.step_inv pcfg); [done | apply Hs | by eapply Permission.step_op].
    + intros g x y Hxy Hl. apply (so_mirror s Hs); [done |]. by eapply foreign_linked.
Qed.

Lemma genesis_system_ok (l : L) : system_ok (Group.genesis l Permission.genesis).
Proof.
  split.
  - by apply genesis_registry.
  - by apply (permission_reachable_inv pcfg).
  - intros g x y _ (auth & Hin & _). simpl in Hin. unfold authorizations in Hin. simpl in Hin.
    rewrite lookup_empty in Hin. by apply elem_of_nil in Hin.
Qed.

(** C32: in every reachable state of the two pallets, if two accounts hold the
    scene of a group, the group exists, one of them owns it and the other is a
    member: nobody keeps the right to message the owner after leaving the group,
    after the ownership has moved, or after the group is gone. *)
Theorem group_scenes_mirror (l : L) s g x y :
  rtc sys_step (Group.genesis l Permission.genesis) s ->
  x <> y -> linked (permission s) g x y -> paired s g x y.
Proof.
  intros Hrun. apply so_mirror.
  eapply (rtc_invariant sys_step system_ok); [apply sys_step_ok | apply genesis_system_ok | exact Hrun].
Qed.

(** ** Joining opens the conversation with the owner *)

Lemma pair_owner a b o : sorted_pair a o = sorted_pair b o -> a = b.
Proof. by intros [[? _] | [-> ?]]%sorted_pair_inj. Qed.

(** Hook calls for other accounts leave the list of [a] and the owner alone. *)
Lemma added_others env g l o a (p : Chat) :
  a ∉ l -> authorizations (hooks_added env g l o p) a o = authorizations p a o.
Proof.
  revert p. induction l as [| b l IH]; intros p Ha; [done |]. apply not_elem_of_cons in Ha as [Hab Ha].
  simpl. rewrite IH by done.
  destruct (hook_grant pcfg env chatgrp b o Group (Numeric g) p) as (Ho & _). apply Ho.
  by intros He%pair_owner.
Qed.

Lemma removed_others env g l o a (p : Chat) :
  a ∉ l -> authorizations (hooks_removed env g l o p) a o = authorizations p a o.
Proof.
  revert p. induction l as [| b l IH]; intros p Ha; [done |]. apply not_elem_of_cons in Ha as [Hab Ha].
  simpl. rewrite IH by done.
  destruct (hook_revoke chatgrp b o Group (Numeric g) p) as (Ho & _). apply Ho.
  by intros He%pair_owner.
Qed.

Lemma hooks_added_split env g l1 a l2 o (p : Chat) :
  hooks_added env g (l1 ++ a :: l2) o p =
    hooks_added env g l2 o (on_member_added env g a o (hooks_added env g l1 o p)).
Proof. unfold hooks_added. by rewrite foldl_app. Qed.

Lemma hooks_added_entry env g l o a (p : Chat) :
  NoDup l -> a ∈ l -> len (authorizations p a o) < MaxScenesPerPair pcfg ->
  hook_entry env chatgrp Group (Numeric g) ∈ authorizations (hooks_added env g l o p) a o.
Proof.
  intros Hnd (l1 & l2 & ->)%list_elem_of_split Hroom.
  apply NoDup_app in Hnd as (_ & Hd & [Ha2 _]%NoDup_cons).
  assert (a ∉ l1) as Ha1 by (intros Hin; apply (Hd a Hin); by left).
  rewrite hooks_added_split, added_others by done.
  destruct (hook_grant pcfg env chatgrp a o Group (Numeric g) (hooks_added env g l1 o p)) as (_ & _ & Hin).
  apply Hin. by rewrite added_others.
Qed.

(** once a commit has been accepted, every account it added can exchange
    messages with the owner, in both directions and for as long as nothing else
    happens, unless the sender is muted, the receiver rejects group scenes or
    the pair already holds as many scenes as it may. *)
Theorem commit_opens_chat env env' o g e blob th tr cid ws d s s' st a x y :
  let c := Commit g e blob th tr cid ws d in
  call_typed gcfg c -> Group.dispatch gcfg env o c s = (Ok tt, s') ->
  GroupMls s !! g = Some st -> a ∈ added d ->
  len (authorizations (permission s) a (admin st)) < MaxScenesPerPair pcfg ->
  (x = a /\ y = admin st) \/ (x = admin st /\ y = a) ->
  is_account_muted env' (permission s') x = false ->
  Group ∉ rejected_scene_types (privacy_settings (permission s') y) ->
  can_send_message env' (permission s') x y = true.
Proof.
  intros c [Hty _] Hrun%transactional_Ok Hst Ha Hroom Hxy Hmute Hrej.
  pose proof (commit_hooks _ _ _ _ _ _ _ _ _ _ _ _ _ Hrun) as (st1 & Hst1 & Hp).
  rewrite Hst in Hst1. injection Hst1 as <-.
  apply commit_Ok in Hrun as (who & st2 & _ & _ & _ & Hcm & _); [| done].
  pose proof (cm_distinct _ _ _ _ _ _ Hcm) as (Hnd & Hdis & _)%NoDup_app.
  apply (check_scenes env'); [done |]. left. exists (hook_entry env chatgrp Group (Numeric g)).
  split; [| done].
  assert (hook_entry env chatgrp Group (Numeric g) ∈ authorizations (permission s') a (admin st)) as Hin
    by (rewrite Hp, removed_others by (by apply Hdis); by apply hooks_added_entry).
  destruct Hxy as [[-> ->] | [-> ->]]; [done | by rewrite authorizations_comm].
Qed.

End Runtime.

(** * Concrete runs *)

#[local] Existing Instance GroupPlatformMuteCheck.
#[local] Existing Instance GroupChatAuthorizer.

Abbreviation pcfg := Permission.test_config.
Abbreviation gcfg := Group.test_config.
Abbreviation mute := GroupPlatformMuteCheck.

(** The runtime's dispatch of a group call by its block and origin. *)
Definition group_call (x : Z * SimpleOrigin * Group.Call)
    (s : Group.State SimpleLedger Permission.State) : Group.State SimpleLedger Permission.State :=
  (Group.dispatch (H2:=GroupChatAuthorizer pcfg) gcfg (Group.test_env x.1.1) x.1.2 x.2 s).2.

Definition trio_chat : Group.State SimpleLedger Permission.State :=
  foldl (fun s x => group_call x s) (Group.genesis Group.test_ledger Permission.genesis) Group.founding.

Lemma wired_run_reach cs s :
  Forall group_run_ok cs -> rtc (sys_step pcfg gcfg) s (foldl (fun s x => group_call x s) s cs).
Proof.
  intros Hok. revert s. induction Hok as [| [[b o] c] cs [Hb Hty] Hok IH]; intros s; simpl;
    [constructor |].
  eapply rtc_l; [| apply IH]. unfold group_call. simpl.
  destruct (Group.dispatch _ _ _ _ s) as [r s1] eqn:Hrun.
  apply (sys_group pcfg gcfg _ _ (Group.test_env b) o c r); [| done | done].
  unfold env_ok, u64_max. simpl in *. lia.
Qed.

Lemma group_scenes_mirror_witness :
  linked (permission trio_chat) 0 1 2 /\ paired trio_chat 0 1 2.
Proof.
  assert (linked (permission trio_chat) 0 1 2) as Hl.
  { exists (hook_entry (Group.test_env 3) chatgrp Group (Numeric 0)).
    split; [| by split_and!]. vm_compute. by left. }
  split; [exact Hl |].
  refine (group_scenes_mirror pcfg gcfg permission_test_config_ok group_test_config_ok
    Group.test_ledger trio_chat 0 1 2 _ _ Hl).
  - apply wired_run_reach. refine (bool_decide_unpack _ _). by vm_compute.
  - done.
Defined.

(** Account 4 joins, and can then be reached by the owner. *)
Lemma commit_opens_chat_witness :
  let c := Commit 0 1 [6] 15 16 [8] [(4%N, [7])] (mkMemberDelta [4%N] []) in
  let s' := group_call (4, SignedBy 1, c) trio_chat in
  can_send_message (Permission.test_env 9) (permission trio_chat) 1 4 = false /\
  can_send_message (Permission.test_env 9) (permission s') 1 4 = true.
Proof.
  intros c s'. split; [by vm_compute |].
  eapply (commit_opens_chat pcfg gcfg (Group.test_env 4) (Permission.test_env 9) (SignedBy 1)
    0 1 [6] 15 16 [8] [(4%N, [7])] (mkMemberDelta [4%N] []) trio_chat s' _ 4%N 1%N 4%N).
  - by split.
  - by vm_compute.
  - by vm_compute.
  - by left.
  - by vm_compute.
  - by right.
  - by vm_compute.
  - refine (bool_decide_unpack _ _). by vm_compute.
Defined.

End Wiring.
