(* ===== verification/ChatCore.v ===== *)
(** [pallet-chat-core] (src/pallets/chat/core/src/lib.rs): the on-chain channel
    of system notifications, its sessions and read state, and the directory of
    eleven-digit chat ids. The data, every dispatchable, the notifier port and
    the reads. The theorems are in CoreStore.v (the storage invariant and the
    unread counter), CoreReading.v (the bounded scans) and CoreIds.v (the chat
    ids). *)

From S2P Require Import Prelude Frame ChatCommon.

Module Core.

(** [T::Hash], only stored and compared. *)
Abbreviation Hash := N (only parsing).
Abbreviation ChatUserId := Z (only parsing).

Definition MAX_SESSION_READ_SCAN : nat := 512.
Definition MAX_BATCH_READ : Z := 512.

Inductive UserStatus : Type := Online | Offline | Busy | Away | Invisible.

Record ProfileDisplaySettings : Type := mkDisplay {
  show_online_status : bool;
  show_last_active : bool;
}.

#[export] Instance eta_display : Settable ProfileDisplaySettings := fun d =>
  mkDisplay (show_online_status d) (show_last_active d).

Definition default_display : ProfileDisplaySettings := mkDisplay true true.

Record ChatUserProfile : Type := mkProfile {
  nickname : option bytes;
  avatar_cid : option bytes;
  signature : option bytes;
  status : UserStatus;
  privacy_settings : ProfileDisplaySettings;
  profile_created_at : Z;
  profile_last_active : Z;
}.

#[export] Instance eta_profile : Settable ChatUserProfile := fun p =>
  mkProfile (nickname p) (avatar_cid p) (signature p) (status p) (privacy_settings p)
    (profile_created_at p) (profile_last_active p).

Inductive MessageType : Type := Text | Image | File | Voice | System.

Record MessageMeta : Type := mkMessage {
  sender : AccountId;
  receiver : AccountId;
  sender_chat_id : option ChatUserId;
  receiver_chat_id : option ChatUserId;
  content_cid : bytes;
  session_id : Hash;
  msg_type : MessageType;
  sent_at : Z;
  is_read : bool;
  is_deleted_by_sender : bool;
  is_deleted_by_receiver : bool;
  is_recalled : bool;
}.

#[export] Instance eta_message : Settable MessageMeta := fun m =>
  mkMessage (sender m) (receiver m) (sender_chat_id m) (receiver_chat_id m) (content_cid m)
    (session_id m) (msg_type m) (sent_at m) (is_read m) (is_deleted_by_sender m)
    (is_deleted_by_receiver m) (is_recalled m).

Record Session : Type := mkSession {
  id : Hash;
  participants : list AccountId;
  last_message_id : Z;
  last_active : Z;
  created_at : Z;
  is_archived : bool;
}.

#[export] Instance eta_session : Settable Session := fun s =>
  mkSession (id s) (participants s) (last_message_id s) (last_active s) (created_at s)
    (is_archived s).

Inductive Event : Type :=
| MessageSent (msg_id : Z) (session_id : Hash) (sender receiver : AccountId)
    (sender_chat_id receiver_chat_id : option ChatUserId)
| MessageRead (msg_id : Z) (reader : AccountId)
| MessageDeleted (msg_id : Z) (deleter : AccountId)
| MessageRecalled (msg_id : Z) (session_id : Hash)
| SessionCreated (session_id : Hash) (participants : list AccountId)
| SessionMarkedAsRead (session_id : Hash) (user : AccountId)
| SessionArchived (session_id : Hash) (operator : AccountId)
| SessionMuteSet (session_id : Hash) (user : AccountId) (muted : bool)
| SessionPinSet (session_id : Hash) (user : AccountId) (pinned : bool)
| OldMessagesCleanedUp (count : Z)
| SystemNotifyFailed (recipient : AccountId)
| ChatUserCreated (account_id : AccountId) (chat_user_id : ChatUserId)
| ChatUserProfileUpdated (chat_user_id : ChatUserId)
| ChatUserStatusChanged (chat_user_id : ChatUserId) (new_status : Z)
| PrivacySettingsUpdated (chat_user_id : ChatUserId).

Inductive Error : Type :=
| CidTooLong | MessageNotFound | SessionNotFound | NotReceiver | NotAuthorized
| NotSessionParticipant | TooManyParticipants | InvalidCid | EmptyMessageList
| BatchReadListTooLong | ChatNotAuthorized | InvalidCleanupLimit | ChatUserIdGenerationFailed
| ChatUserAlreadyExists | ChatUserNotFound | NicknameTooLong | SignatureTooLong
| InvalidUserStatus | NotSender | AlreadyRecalled | RecallWindowExpired | HumanMessagesOffChain.

(** * Interfaces *)

(** [T::Hashing::hash_of] of a list of accounts. *)
Class SessionHashing : Type := { hash_of : list AccountId -> Hash }.

(** The digest is collision resistant: in the model, injective. *)
Class SessionHashingLaws `{SessionHashing} : Prop := {
  hash_of_inj : forall l1 l2, hash_of l1 = hash_of l2 -> l1 = l2;
}.

(** [hashed_key_for]: the order in which [Messages] is iterated. *)
Class MessageKeys : Type := { hashed_key_for : Z -> N }.

(** The permission pallet as this one sees it; [P] is its state. *)
Class ChatPermissionChecker (P : Type) : Type := {
  can_send_message (env : Env) (sender receiver : AccountId) (p : P) : bool;
}.

(** A key is stored under its digest followed by itself, so keys differ. *)
Class MessageKeysLaws `{MessageKeys} : Prop := {
  hashed_key_for_inj : forall a b, hashed_key_for a = hashed_key_for b -> a = b;
}.

Record Config `{FrameSystem} : Type := mkConfig {
  MaxCidLen : Z;
  MessageExpirationTime : Z;
  MessageRecallWindow : Z;
  Randomness : Env -> bytes -> bytes;
  MaxNicknameLength : Z;
  MaxSignatureLength : Z;
  SystemMessageOrigin : Origin -> option AccountId;
  SystemAccount : AccountId;
}.

Record State {P : Type} : Type := mkState {
  Messages : gmap Z MessageMeta;
  NextMessageId : Z;
  LastCleanupCursor : option Z;
  Sessions : gmap Hash Session;
  UserSessions : gmap AccountId (gmap Hash unit);
  SessionMessages : gmap Hash (gmap Z unit);
  SessionReadCursor : gmap AccountId (gmap Hash Z);
  UnreadCount : gmap (AccountId * Hash) Z;
  SessionMuted : gmap AccountId (gmap Hash unit);
  SessionPinned : gmap AccountId (gmap Hash Z);
  UsedChatUserIds : gmap ChatUserId bool;
  NextChatUserId : Z;
  AccountToChatUserId : gmap AccountId ChatUserId;
  ChatUserIdToAccount : gmap ChatUserId AccountId;
  ChatUserProfiles : gmap ChatUserId ChatUserProfile;
  permission : P;
  events : list Event;
}.
Arguments State : clear implicits.

#[export] Instance eta_state {P} : Settable (State P) := fun s =>
  mkState P (Messages s) (NextMessageId s) (LastCleanupCursor s) (Sessions s) (UserSessions s)
    (SessionMessages s) (SessionReadCursor s) (UnreadCount s) (SessionMuted s) (SessionPinned s)
    (UsedChatUserIds s) (NextChatUserId s) (AccountToChatUserId s) (ChatUserIdToAccount s)
    (ChatUserProfiles s) (permission s) (events s).

(** * Chat ids *)

(** [seed[off + i] ^= bs[i]] for every [i]. *)
Fixpoint xor_into (bs seed : bytes) : bytes :=
  match bs, seed with
  | b :: bs', x :: seed' => Z.lxor x b :: xor_into bs' seed'
  | _, _ => seed
  end.

Definition xor_at (off : nat) (bs seed : bytes) : bytes := take off seed ++ xor_into bs (drop off seed).

Definition MIN_ID : Z := 10000000000.
Definition MAX_ID : Z := 99999999999.
Definition MAX_RETRIES : nat := 100.

Definition generate_id_from_seed (seed : bytes) (min max : Z) : Z :=
  let random_u64 := of_le_bytes (take 8 seed) in
  let random_u64_2 := of_le_bytes (take 8 (drop 8 seed)) in
  let combined_random := (random_u64 + random_u64_2) mod (u64_max + 1) in
  min + combined_random mod (max - min + 1).

Section Pallet.
Context `{FrameSystem} {P : Type} `{SessionHashing} `{MessageKeys} `{PrefixStorage}.
Context `{ChatPermissionChecker P} (cfg : Config).

Abbreviation Call_ := (M (State P) (DispatchError Error) unit).
Abbreviation M_ := (M (State P) (DispatchError Error)).

Definition deposit_event (e : Event) : Call_ :=
  modify (fun s => s <| events ::= fun l => l ++ [e] |>).

Definition get_random_seed_for_chat (env : Env) (attempt nonce : Z) : bytes :=
  let random := take 32 (Randomness cfg env (literal "chat_user_id")) in
  let with_time := xor_at 0 (le_bytes 8 (unix_secs env)) random in
  let with_block := xor_at 8 (le_bytes 8 (block_number env)) with_time in
  let with_attempt := xor_at 16 [attempt] with_block in
  xor_at 17 (le_bytes 8 nonce) with_attempt.

Definition candidate (env : Env) (attempt nonce : Z) : ChatUserId :=
  generate_id_from_seed (get_random_seed_for_chat env attempt nonce) MIN_ID MAX_ID.

(** The [for attempt in 0..MAX_RETRIES] loop, [retries] iterations from its end. *)
Fixpoint try_candidates (env : Env) (nonce : Z) (retries : nat) : M_ ChatUserId :=
  match retries with
  | O => fail (Module ChatUserIdGenerationFailed)
  | S retries' =>
      let attempt := Z.of_nat (MAX_RETRIES - retries) in
      let candidate_id := candidate env attempt nonce in
      let! used := gets UsedChatUserIds in
      if decide (used !! candidate_id = None) then
        modify (fun s => s <| UsedChatUserIds ::= <[candidate_id := true]> |>) >>
        ret candidate_id
      else try_candidates env nonce retries'
  end.

Definition generate_chat_user_id (env : Env) : M_ ChatUserId :=
  let! nonce := gets NextChatUserId in
  modify (fun s => s <| NextChatUserId := sat_add u64_max nonce 1 |>) >>
  try_candidates env nonce MAX_RETRIES.

Definition default_profile (env : Env) : ChatUserProfile :=
  mkProfile None None None Online default_display (unix_secs env) (unix_secs env).

Definition get_or_create_chat_user_id (env : Env) (account : AccountId) : M_ ChatUserId :=
  let! ids := gets AccountToChatUserId in
  match ids !! account with
  | Some existing_id => ret existing_id
  | None =>
      let! new_id := generate_chat_user_id env in
      modify (fun s => s <| AccountToChatUserId ::= <[account := new_id]> |>) >>
      modify (fun s => s <| ChatUserIdToAccount ::= <[new_id := account]> |>) >>
      modify (fun s => s <| ChatUserProfiles ::= <[new_id := default_profile env]> |>) >>
      deposit_event (ChatUserCreated account new_id) >>
      ret new_id
  end.

(** * Sessions *)

(** [vec![a, b].sort()]. *)
Definition sorted_participants (user1 user2 : AccountId) : list AccountId :=
  if decide (user1 <= user2)%N then [user1; user2] else [user2; user1].

Definition get_session_id (account1 account2 : AccountId) : Hash :=
  hash_of (sorted_participants account1 account2).

Definition create_session (env : Env) (user1 user2 : AccountId) : M_ Hash :=
  let participants_ := sorted_participants user1 user2 in
  let session_id := hash_of participants_ in
  let! sessions := gets Sessions in
  if decide (is_Some (sessions !! session_id)) then ret session_id else
  let now := block_number env in
  ensure (length participants_ <= 2)%nat (Module TooManyParticipants) >>
  let session := mkSession session_id participants_ 0 now now false in
  modify (fun s => s <| Sessions ::= <[session_id := session]> |>) >>
  for_each participants_ (fun user =>
    modify (fun s => s <| UserSessions ::= dset user session_id tt |>)) >>
  deposit_event (SessionCreated session_id participants_) >>
  ret session_id.

Definition get_session (sid : Hash) : M_ Session :=
  let! sessions := gets Sessions in
  ok_or (sessions !! sid) (Module SessionNotFound).

Definition ensure_session_participant (who : AccountId) (sid : Hash) : Call_ :=
  let! session := get_session sid in
  ensure (who ∈ participants session) (Module NotSessionParticipant).

(** * Sending *)

Definition unread_down (n : Z) (who : AccountId) (sid : Hash) : Call_ :=
  modify (fun s => s <| UnreadCount ::= fun m => <[(who, sid) := sat_sub (get0 m (who, sid)) n]> m |>).

(** The session a message goes to: the caller's, when both are participants of
    it, or the one of the pair. *)
Definition target_session (env : Env) (from to : AccountId) (session_id_ : option Hash) : M_ Hash :=
  match session_id_ with
  | Some sid =>
      let! session := get_session sid in
      ensure (from ∈ participants session /\ to ∈ participants session)
        (Module NotSessionParticipant) >>
      ret sid
  | None => create_session env from to
  end.

Definition do_send (env : Env) (from to : AccountId) (content_cid_ : bytes) (type_ : MessageType)
    (session_id_ : option Hash) : Call_ :=
  match type_ with
  | System => ret tt
  | _ =>
      let! p := gets permission in
      ensure (can_send_message env from to p = true) (Module ChatNotAuthorized)
  end >>
  ensure (content_cid_ <> []) (Module InvalidCid) >>
  ensure (Z.of_nat (length content_cid_) <= MaxCidLen cfg) (Module CidTooLong) >>
  let! sender_chat_id_ := attempt (get_or_create_chat_user_id env from) in
  let! receiver_chat_id_ := attempt (get_or_create_chat_user_id env to) in
  let! sid := target_session env from to session_id_ in
  let! msg_id := gets NextMessageId in
  modify (fun s => s <| NextMessageId := sat_add u64_max msg_id 1 |>) >>
  let now := block_number env in
  let message := mkMessage from to sender_chat_id_ receiver_chat_id_ content_cid_ sid type_ now
    false false false false in
  modify (fun s => s <| Messages ::= <[msg_id := message]> |>) >>
  let! session := get_session sid in
  modify (fun s => s <| Sessions ::= <[sid :=
    session <| last_message_id := msg_id |> <| last_active := now |>]> |>) >>
  modify (fun s => s <| SessionMessages ::= dset sid msg_id tt |>) >>
  modify (fun s => s <| UnreadCount ::= fun m =>
    <[(to, sid) := sat_add u32_max (get0 m (to, sid)) 1]> m |>) >>
  deposit_event (MessageSent msg_id sid from to sender_chat_id_ receiver_chat_id_).

Definition send_message (env : Env) (origin : Origin) (to : AccountId) (content_cid_ : bytes)
    (msg_type_code : Z) (session_id_ : option Hash) : Call_ :=
  let! from := ok_or (SystemMessageOrigin cfg origin) BadOrigin in
  ensure (msg_type_code = 4) (Module HumanMessagesOffChain) >>
  do_send env from to content_cid_ System session_id_.

(** The port other pallets use; [notify_system_best_effort] turns a refusal into
    an event. *)
Definition notify (env : Env) (to : AccountId) (notice : bytes) : Call_ :=
  do_send env (SystemAccount cfg) to notice System None.

Definition notify_system_best_effort (env : Env) (to : AccountId) (notice : bytes) : Call_ :=
  let! result := attempt (notify env to notice) in
  match result with
  | Some _ => ret tt
  | None => deposit_event (SystemNotifyFailed to)
  end.

(** * Reading, deleting, recalling *)

Definition put_message (msg_id : Z) (msg : MessageMeta) : Call_ :=
  modify (fun s => s <| Messages ::= <[msg_id := msg]> |>).

Definition get_message_or (msg_id : Z) : M_ MessageMeta :=
  let! messages := gets Messages in
  ok_or (messages !! msg_id) (Module MessageNotFound).

Definition mark_as_read (origin : Origin) (msg_id : Z) : Call_ :=
  let! who := ok_or (ensure_signed origin) BadOrigin in
  let! msg := get_message_or msg_id in
  ensure (receiver msg = who) (Module NotReceiver) >>
  (if is_read msg then ret tt
   else unread_down 1 who (session_id msg) >> put_message msg_id (msg <| is_read := true |>)) >>
  deposit_event (MessageRead msg_id who).

Definition delete_message (origin : Origin) (msg_id : Z) : Call_ :=
  let! who := ok_or (ensure_signed origin) BadOrigin in
  let! msg := get_message_or msg_id in
  ensure (sender msg = who \/ receiver msg = who) (Module NotAuthorized) >>
  (if decide (sender msg = who) then put_message msg_id (msg <| is_deleted_by_sender := true |>)
   else
     (if negb (is_read msg) && negb (is_recalled msg) && negb (is_deleted_by_receiver msg)
      then unread_down 1 who (session_id msg) else ret tt) >>
     put_message msg_id (msg <| is_deleted_by_receiver := true |>)) >>
  deposit_event (MessageDeleted msg_id who).

Definition recall_message (env : Env) (origin : Origin) (msg_id : Z) : Call_ :=
  let! who := ok_or (ensure_signed origin) BadOrigin in
  let! msg := get_message_or msg_id in
  ensure (sender msg = who) (Module NotSender) >>
  ensure (is_recalled msg = false) (Module AlreadyRecalled) >>
  let elapsed := sat_sub (block_number env) (sent_at msg) in
  ensure (elapsed <= MessageRecallWindow cfg) (Module RecallWindowExpired) >>
  put_message msg_id (msg <| is_recalled := true |>) >>
  (if negb (is_read msg) then unread_down 1 (receiver msg) (session_id msg) else ret tt) >>
  deposit_event (MessageRecalled msg_id (session_id msg)).

Definition mark_one (who : AccountId) (msg_id : Z) : Call_ :=
  let! messages := gets Messages in
  match messages !! msg_id with
  | Some msg =>
      if decide (receiver msg = who /\ is_read msg = false) then
        put_message msg_id (msg <| is_read := true |>) >>
        unread_down 1 who (session_id msg) >>
        deposit_event (MessageRead msg_id who)
      else ret tt
  | None => ret tt
  end.

Definition mark_batch_as_read (origin : Origin) (message_ids : list Z) : Call_ :=
  let! who := ok_or (ensure_signed origin) BadOrigin in
  ensure (message_ids <> []) (Module EmptyMessageList) >>
  ensure (Z.of_nat (length message_ids) <= MAX_BATCH_READ) (Module BatchReadListTooLong) >>
  for_each message_ids (mark_one who).

(** Ascending and descending order of message ids. *)
Definition ascending (l : list Z) : list Z := merge_sort Z.le l.
Definition descending (l : list Z) : list Z := merge_sort Z.ge l.

Definition after_cursor (cursor : option Z) (msg_id : Z) : Prop :=
  match cursor with Some c => msg_id > c | None => True end.

#[export] Instance after_cursor_dec cursor msg_id : Decision (after_cursor cursor msg_id).
Proof. unfold after_cursor. destruct cursor; apply _. Defined.

(** The ids one call of [mark_session_as_read] looks at. *)
Definition read_candidates (s : State P) (sid : Hash) (cursor : option Z) : list Z :=
  take MAX_SESSION_READ_SCAN
    (ascending (filter (after_cursor cursor) (iter_keys (prefix (SessionMessages s) sid)))).

(** The loop over the candidates: how many it has marked. *)
Fixpoint mark_candidates (who : AccountId) (candidates : list Z) (marked : Z) : M_ Z :=
  match candidates with
  | [] => ret marked
  | msg_id :: rest =>
      let! messages := gets Messages in
      match messages !! msg_id with
      | Some msg =>
          if decide (receiver msg = who /\ is_read msg = false) then
            put_message msg_id (msg <| is_read := true |>) >>
            mark_candidates who rest (sat_add u32_max marked 1)
          else mark_candidates who rest marked
      | None => mark_candidates who rest marked
      end
  end.

Definition unread_of (s : State P) (who : AccountId) (sid : Hash) : Z :=
  get0 (UnreadCount s) (who, sid).

Definition drop_cursor (who : AccountId) (sid : Hash) : Call_ :=
  modify (fun s => s <| SessionReadCursor ::= drem who sid |>).

Definition move_cursor (who : AccountId) (sid : Hash) (candidates : list Z) : Call_ :=
  match last candidates with
  | None =>
      let! unread := gets (fun s => unread_of s who sid) in
      if decide (unread > 0) then drop_cursor who sid else ret tt
  | Some last_id =>
      modify (fun s => s <| SessionReadCursor ::= dset who sid last_id |>) >>
      let! unread := gets (fun s => unread_of s who sid) in
      if decide (unread = 0) then drop_cursor who sid else ret tt
  end.

Definition mark_session_as_read (origin : Origin) (sid : Hash) : Call_ :=
  let! who := ok_or (ensure_signed origin) BadOrigin in
  ensure_session_participant who sid >>
  let! candidates := gets (fun s => read_candidates s sid (dget (SessionReadCursor s) who sid)) in
  let! marked := mark_candidates who candidates 0 in
  unread_down marked who sid >>
  move_cursor who sid candidates >>
  deposit_event (SessionMarkedAsRead sid who).

(** * Session preferences *)

Definition archive_session (origin : Origin) (sid : Hash) : Call_ :=
  let! who := ok_or (ensure_signed origin) BadOrigin in
  let! session := get_session sid in
  ensure (who ∈ participants session) (Module NotSessionParticipant) >>
  modify (fun s => s <| Sessions ::= <[sid := session <| is_archived := true |>]> |>) >>
  deposit_event (SessionArchived sid who).

Definition set_session_muted (origin : Origin) (sid : Hash) (muted : bool) : Call_ :=
  let! who := ok_or (ensure_signed origin) BadOrigin in
  ensure_session_participant who sid >>
  (if muted then modify (fun s => s <| SessionMuted ::= dset who sid tt |>)
   else modify (fun s => s <| SessionMuted ::= drem who sid |>)) >>
  deposit_event (SessionMuteSet sid who muted).

Definition set_session_pinned (env : Env) (origin : Origin) (sid : Hash) (pinned : bool) : Call_ :=
  let! who := ok_or (ensure_signed origin) BadOrigin in
  ensure_session_participant who sid >>
  (if pinned then modify (fun s => s <| SessionPinned ::= dset who sid (block_number env) |>)
   else modify (fun s => s <| SessionPinned ::= drem who sid |>)) >>
  deposit_event (SessionPinSet sid who pinned).

(** * Cleaning up *)

Definition key_le (a b : Z) : Prop := (hashed_key_for a <= hashed_key_for b)%N.

#[export] Instance key_le_dec : RelDecision key_le.
Proof. unfold key_le. intros a b. apply _. Defined.

(** [Messages] in the order of its iterator, from the entry after [cursor]. *)
Definition messages_from (s : State P) (cursor : option Z) : list Z :=
  let keys := merge_sort key_le (map_to_list (Messages s)).*1 in
  match cursor with
  | Some last_id => filter (fun k => hashed_key_for last_id < hashed_key_for k)%N keys
  | None => keys
  end.

Definition collectable (env : Env) (msg : MessageMeta) : bool :=
  let age := sat_sub (block_number env) (sent_at msg) in
  let both_deleted := is_deleted_by_sender msg && is_deleted_by_receiver msg in
  let system_receiver_deleted :=
    bool_decide (sender msg = SystemAccount cfg) && is_deleted_by_receiver msg in
  bool_decide (age >= MessageExpirationTime cfg) && (both_deleted || system_receiver_deleted).

Definition remove_message (msg_id : Z) (sid : Hash) : Call_ :=
  modify (fun s => s <| Messages ::= delete msg_id |>) >>
  modify (fun s => s <| SessionMessages ::= drem sid msg_id |>).

Definition cleanup_old_messages (env : Env) (origin : Origin) (limit : Z) : Call_ :=
  ensure (ensure_root origin = true) BadOrigin >>
  ensure (limit > 0 /\ limit <= 1000) (Module InvalidCleanupLimit) >>
  let! s := gets (fun s => s) in
  let scanned := take (Z.to_nat limit) (messages_from s (LastCleanupCursor s)) in
  let messages_to_remove := omap (fun msg_id =>
    match Messages s !! msg_id with
    | Some msg => if collectable env msg then Some (msg_id, session_id msg) else None
    | None => None
    end) scanned in
  for_each messages_to_remove (fun r => remove_message r.1 r.2) >>
  (if decide (Z.of_nat (length scanned) >= limit)
   then modify (fun s => s <| LastCleanupCursor := last scanned |>)
   else modify (fun s => s <| LastCleanupCursor := None |>)) >>
  deposit_event (OldMessagesCleanedUp (Z.of_nat (length messages_to_remove))).

(** * The directory of chat users *)

Definition alter_profile (chat_user_id : ChatUserId) (f : ChatUserProfile -> ChatUserProfile) : Call_ :=
  modify (fun s => s <| ChatUserProfiles ::= alter f chat_user_id |>).

(** The length check and [try_into] of a bounded field. *)
Definition bounded_field (bound : Z) (e : Error) (b : option bytes) : Call_ :=
  match b with
  | Some b => ensure (Z.of_nat (length b) <= bound) (Module e)
  | None => ret tt
  end.

Definition register_chat_user (env : Env) (origin : Origin) (nickname_ : option bytes) : Call_ :=
  let! who := ok_or (ensure_signed origin) BadOrigin in
  let! ids := gets AccountToChatUserId in
  ensure (ids !! who = None) (Module ChatUserAlreadyExists) >>
  let! chat_user_id := get_or_create_chat_user_id env who in
  match nickname_ with
  | Some nick =>
      ensure (Z.of_nat (length nick) <= MaxNicknameLength cfg) (Module NicknameTooLong) >>
      alter_profile chat_user_id (fun p => p <| nickname := Some nick |>
        <| profile_last_active := unix_secs env |>)
  | None => ret tt
  end.

(** A provided field replaces the old one. *)
Definition or_keep (new old : option bytes) : option bytes :=
  match new with Some b => Some b | None => old end.

Definition update_chat_profile (env : Env) (origin : Origin)
    (nickname_ avatar_cid_ signature_ : option bytes) : Call_ :=
  let! who := ok_or (ensure_signed origin) BadOrigin in
  let! chat_user_id := get_or_create_chat_user_id env who in
  bounded_field (MaxNicknameLength cfg) NicknameTooLong nickname_ >>
  bounded_field (MaxCidLen cfg) CidTooLong avatar_cid_ >>
  bounded_field (MaxSignatureLength cfg) SignatureTooLong signature_ >>
  alter_profile chat_user_id (fun p => p <| nickname ::= or_keep nickname_ |>
    <| avatar_cid ::= or_keep avatar_cid_ |> <| signature ::= or_keep signature_ |>
    <| profile_last_active := unix_secs env |>) >>
  deposit_event (ChatUserProfileUpdated chat_user_id).

Definition status_of_code (code : Z) : option UserStatus :=
  if decide (code = 0) then Some Online else if decide (code = 1) then Some Offline
  else if decide (code = 2) then Some Busy else if decide (code = 3) then Some Away
  else if decide (code = 4) then Some Invisible else None.

Definition set_user_status (env : Env) (origin : Origin) (status_code : Z) : Call_ :=
  let! who := ok_or (ensure_signed origin) BadOrigin in
  let! new_status := ok_or (status_of_code status_code) (Module InvalidUserStatus) in
  let! chat_user_id := get_or_create_chat_user_id env who in
  alter_profile chat_user_id (fun p => p <| status := new_status |>
    <| profile_last_active := unix_secs env |>) >>
  deposit_event (ChatUserStatusChanged chat_user_id status_code).

Definition update_privacy_settings (env : Env) (origin : Origin)
    (show_online show_active : option bool) : Call_ :=
  let! who := ok_or (ensure_signed origin) BadOrigin in
  let! chat_user_id := get_or_create_chat_user_id env who in
  alter_profile chat_user_id (fun p =>
    p <| privacy_settings ::= fun d =>
           d <| show_online_status ::= fun b => default b show_online |>
             <| show_last_active ::= fun b => default b show_active |> |>
      <| profile_last_active := unix_secs env |>) >>
  deposit_event (PrivacySettingsUpdated chat_user_id).

(** * Reads *)

Definition get_message (s : State P) (message_id : Z) : option MessageMeta := Messages s !! message_id.

Definition list_messages_by_session (s : State P) (sid : Hash) (offset limit : Z) : list Z :=
  let messages := descending (iter_keys (prefix (SessionMessages s) sid)) in
  let total := Z.of_nat (length messages) in
  let limit_ := Z.to_nat (Z.min limit 100) in
  if decide (offset >= total) then [] else take limit_ (drop (Z.to_nat offset) messages).

Definition is_session_muted (s : State P) (user : AccountId) (sid : Hash) : bool :=
  bool_decide (is_Some (dget (SessionMuted s) user sid)).

Definition is_session_pinned (s : State P) (user : AccountId) (sid : Hash) : bool :=
  bool_decide (is_Some (dget (SessionPinned s) user sid)).

(** [sort_by(|a, b| b.1.cmp(&a.1))]. *)
Definition later (a b : Hash * Z) : Prop := a.2 >= b.2.

#[export] Instance later_dec : RelDecision later.
Proof. unfold later. intros a b. apply _. Defined.

Definition list_sessions (s : State P) (user : AccountId) : list Hash :=
  let session_ids := iter_keys (prefix (UserSessions s) user) in
  let pinned := omap (fun sid =>
    match Sessions s !! sid, dget (SessionPinned s) user sid with
    | Some _, Some pinned_at => Some (sid, pinned_at)
    | _, _ => None
    end) session_ids in
  let others := omap (fun sid =>
    match Sessions s !! sid, dget (SessionPinned s) user sid with
    | Some session, None => Some (sid, last_active session)
    | _, _ => None
    end) session_ids in
  (stable_sort later pinned ++ stable_sort later others).*1.

(** The u32 sum wraps in a release build. *)
Definition get_unread_count (s : State P) (user : AccountId) (session_id_ : option Hash) : Z :=
  match session_id_ with
  | Some sid => unread_of s user sid
  | None => foldr (fun sid acc => (unread_of s user sid + acc) mod (u32_max + 1)) 0
      (iter_keys (prefix (UserSessions s) user))
  end.

Definition get_account_by_chat_user_id (s : State P) (chat_user_id : ChatUserId) : option AccountId :=
  ChatUserIdToAccount s !! chat_user_id.

Definition get_chat_user_id_by_account (s : State P) (account : AccountId) : option ChatUserId :=
  AccountToChatUserId s !! account.

Definition get_chat_user_profile (s : State P) (chat_user_id : ChatUserId) : option ChatUserProfile :=
  ChatUserProfiles s !! chat_user_id.

(** * Transitions *)

Inductive Call : Type :=
| SendMessage (to : AccountId) (cid : bytes) (code : Z) (sid : option Hash)
| MarkAsRead (msg_id : Z)
| DeleteMessage (msg_id : Z)
| MarkBatchAsRead (ids : list Z)
| MarkSessionAsRead (sid : Hash)
| ArchiveSession (sid : Hash)
| CleanupOldMessages (limit : Z)
| RegisterChatUser (nick : option bytes)
| UpdateChatProfile (nick avatar sig : option bytes)
| SetUserStatus (code : Z)
| UpdatePrivacySettings (online active : option bool)
| RecallMessage (msg_id : Z)
| SetSessionMuted (sid : Hash) (muted : bool)
| SetSessionPinned (sid : Hash) (pinned : bool).

Definition apply_call (env : Env) (origin : Origin) (c : Call) : Call_ :=
  match c with
  | SendMessage to cid code sid => send_message env origin to cid code sid
  | MarkAsRead i => mark_as_read origin i
  | DeleteMessage i => delete_message origin i
  | MarkBatchAsRead l => mark_batch_as_read origin l
  | MarkSessionAsRead sid => mark_session_as_read origin sid
  | ArchiveSession sid => archive_session origin sid
  | CleanupOldMessages limit => cleanup_old_messages env origin limit
  | RegisterChatUser nick => register_chat_user env origin nick
  | UpdateChatProfile n a g => update_chat_profile env origin n a g
  | SetUserStatus code => set_user_status env origin code
  | UpdatePrivacySettings o a => update_privacy_settings env origin o a
  | RecallMessage i => recall_message env origin i
  | SetSessionMuted sid on => set_session_muted origin sid on
  | SetSessionPinned sid on => set_session_pinned env origin sid on
  end.

Definition dispatch (env : Env) (origin : Origin) (c : Call) : Call_ :=
  transactional (apply_call env origin c).

(** A call, a notice from another pallet, or a change of the permission pallet. *)
Inductive step (s s' : State P) : Prop :=
| step_call env origin c r (Henv : env_ok env) (Hcall : dispatch env origin c s = (r, s'))
| step_notify env to notice r (Henv : env_ok env)
    (Hrun : notify_system_best_effort env to notice s = (r, s'))
| step_permission p (Hp : s' = s <| permission := p |>).

Definition genesis (p : P) : State P :=
  mkState P ∅ 0 None ∅ ∅ ∅ ∅ ∅ ∅ ∅ ∅ 0 ∅ ∅ ∅ p [].

End Pallet.
(** * A concrete configuration *)

(** Injective numberings in place of the digests; nobody is asked for permission. *)
#[export] Instance simple_hashing : SessionHashing := {| hash_of l := Npos (encode l) |}.

#[export] Instance simple_hashing_laws : SessionHashingLaws.
Proof. split. intros l1 l2 [= He]. by apply encode_inj in He. Qed.

#[export] Instance simple_keys : MessageKeys := {| hashed_key_for k := Npos (encode k) |}.

#[export] Instance simple_keys_laws : MessageKeysLaws.
Proof. split. intros a b [= He]. by apply encode_inj in He. Qed.

#[export] Instance open_door : ChatPermissionChecker unit := {|
  can_send_message _ _ _ _ := true;
|}.

(** Root sends as the platform's account, 99; notices expire after 100 blocks. *)
Definition test_config : Config := {|
  MaxCidLen := 16;
  MessageExpirationTime := 100;
  MessageRecallWindow := 20;
  Randomness env subject := blake2_256 (subject ++ le_bytes 4 (block_number env));
  MaxNicknameLength := 16;
  MaxSignatureLength := 32;
  SystemMessageOrigin o := if ensure_root o then Some 99%N else None;
  SystemAccount := 99%N;
|}.

Definition test_env (block : Z) : Env := mkEnv block 0 (6 * block) [].

Definition run_one (x : Z * SimpleOrigin * Call) (s : State unit) : State unit :=
  (dispatch test_config (test_env x.1.1) x.1.2 x.2 s).2.

Definition run_calls (cs : list (Z * SimpleOrigin * Call)) (s : State unit) : State unit :=
  foldl (fun s x => run_one x s) s cs.

Definition core_run_ok (x : Z * SimpleOrigin * Call) : Prop := 0 <= x.1.1 <= u32_max.

#[export] Instance core_run_ok_dec x : Decision (core_run_ok x).
Proof. unfold core_run_ok. apply _. Defined.

Lemma core_run_reach cs s : Forall core_run_ok cs -> rtc (step test_config) s (run_calls cs s).
Proof.
  intros Hok. revert s. induction Hok as [| [[b o] c] cs Hb Hok IH]; intros s; [constructor |].
  eapply rtc_l; [| apply IH]. unfold run_one. simpl in *.
  destruct (dispatch _ _ _ _ s) as [r s1] eqn:Hrun.
  apply (step_call test_config _ _ (test_env b) o c r); [| done].
  unfold env_ok, core_run_ok, u32_max, u64_max in *. simpl in *. lia.
Qed.

(** Two notices to account 1. *)
Definition two_notices : State unit :=
  run_calls [(1, RootOrigin, SendMessage 1 [5] 4 None); (2, RootOrigin, SendMessage 1 [6] 4 None)]
    (genesis tt).

Definition notices_session : Hash := get_session_id 1 99.

Example two_notices_state :
  unread_of two_notices 1 notices_session = 2 /\ NextMessageId two_notices = 2 /\
  list_messages_by_session two_notices notices_session 0 100 = [1; 0] /\
  list_sessions two_notices 99 = [notices_session].
Proof. by vm_compute. Qed.

End Core.
