(* ===== verification/CoreStore.v ===== *)
(** The message store of [pallet-chat-core] over all runs: the indexes agree with
    the messages and the sessions, a message only reaches a session its two
    parties belong to, only system notices are stored, and the unread counter
    never exceeds the messages that are really unread. *)

From S2P Require Import Prelude Frame ChatCommon ChatCore.
Import Core.

(** What a message says and to whom, whatever has been done to it since. *)
Definition same_letter (m m' : MessageMeta) : Prop :=
  sender m' = sender m /\ receiver m' = receiver m /\ session_id m' = session_id m /\
  content_cid m' = content_cid m /\ msg_type m' = msg_type m /\ sent_at m' = sent_at m.

(** Whether the receiver still has to read it. *)
Definition pending (m : MessageMeta) : bool :=
  negb (is_read m) && negb (is_recalled m) && negb (is_deleted_by_receiver m).

Definition pending_for (who : AccountId) (sid : Hash) (_ : Z) (m : MessageMeta) : Z :=
  if decide (receiver m = who /\ session_id m = sid /\ pending m = true) then 1 else 0.

(** The messages of a session its receiver still has to read. *)
Definition pending_count (ms : gmap Z MessageMeta) (who : AccountId) (sid : Hash) : Z :=
  msum (pending_for who sid) ms.

(** The same messages, with other flags. *)
Definition reflagged (ms ms' : gmap Z MessageMeta) : Prop :=
  forall i, match ms !! i, ms' !! i with
            | Some m, Some m' => same_letter m m'
            | None, None => True
            | _, _ => False
            end.

Lemma same_letter_refl m : same_letter m m.
Proof. by split_and!. Qed.

Lemma reflagged_refl ms : reflagged ms ms.
Proof. intros i. destruct (ms !! i); [apply same_letter_refl | done]. Qed.

Lemma reflagged_trans m1 m2 m3 : reflagged m1 m2 -> reflagged m2 m3 -> reflagged m1 m3.
Proof.
  intros H12 H23 i. specialize (H12 i). specialize (H23 i).
  destruct (m1 !! i), (m2 !! i), (m3 !! i); try done.
  destruct H12 as (? & ? & ? & ? & ? & ?), H23 as (? & ? & ? & ? & ? & ?). split_and!; congruence.
Qed.

Lemma reflagged_insert ms i m m' : ms !! i = Some m -> same_letter m m' -> reflagged ms (<[i := m']> ms).
Proof.
  intros Hm Hs j. rewrite lookup_insert. case_decide as Hij; [subst; by rewrite Hm |].
  apply (reflagged_refl ms j).
Qed.

Lemma reflagged_some ms ms' i m' :
  reflagged ms ms' -> ms' !! i = Some m' -> exists m, ms !! i = Some m /\ same_letter m m'.
Proof. intros Hr Hm. specialize (Hr i). rewrite Hm in Hr. destruct (ms !! i); [eauto | done]. Qed.

Lemma reflagged_back ms ms' i m :
  reflagged ms ms' -> ms !! i = Some m -> exists m', ms' !! i = Some m' /\ same_letter m m'.
Proof. intros Hr Hm. specialize (Hr i). rewrite Hm in Hr. destruct (ms' !! i); [eauto | done]. Qed.

Lemma pending_for_bounds who sid i m : 0 <= pending_for who sid i m <= 1.
Proof. unfold pending_for. case_decide; lia. Qed.

Lemma pending_count_nonneg ms who sid : 0 <= pending_count ms who sid.
Proof. apply msum_nonneg. intros i m _. apply pending_for_bounds. Qed.

(** Rewriting one message, in terms of whether it counted before and after. *)
Lemma pending_count_insert ms i m m' who sid :
  ms !! i = Some m ->
  pending_count (<[i := m']> ms) who sid =
    pending_count ms who sid - pending_for who sid i m + pending_for who sid i m'.
Proof. intros Hm. unfold pending_count. rewrite msum_insert, Hm. simpl. lia. Qed.

Lemma pending_for_other who sid i m :
  (who, sid) <> (receiver m, session_id m) -> pending_for who sid i m = 0.
Proof. intros Hne. unfold pending_for. rewrite decide_False; [done |]. intros (<- & <- & _). done. Qed.

Lemma pending_for_self i m :
  pending_for (receiver m) (session_id m) i m = if pending m then 1 else 0.
Proof. unfold pending_for. destruct (pending m); [by rewrite decide_True | rewrite decide_False; [done | intros (_ & _ & ?); done]]. Qed.

Section Store.
Context `{FrameSystem} {P : Type} `{SessionHashing} `{!SessionHashingLaws} `{MessageKeys}.
Context `{PrefixStorage} `{!PrefixStorageLaws} `{ChatPermissionChecker P} (cfg : Config).
Implicit Types (s : State P).

(** What the store consists of. *)
Definition store s :=
  (Messages s, NextMessageId s, Sessions s, UserSessions s, SessionMessages s, UnreadCount s).

(** A message of the store: a system notice of legal size, both of whose
    parties are participants of its session. *)
Definition message_ok s (m : MessageMeta) : Prop :=
  msg_type m = System /\ content_cid m <> [] /\ Z.of_nat (length (content_cid m)) <= MaxCidLen cfg /\
  exists se, Sessions s !! session_id m = Some se /\
    sender m ∈ participants se /\ receiver m ∈ participants se.

Definition session_ok (sid : Hash) (se : Session) : Prop :=
  id se = sid /\ sid = hash_of (participants se) /\
  exists a b, participants se = sorted_participants a b.

Record store_ok s : Prop := {
  so_next : 0 <= NextMessageId s;
  so_ids : forall i, is_Some (Messages s !! i) -> 0 <= i < NextMessageId s;
  so_messages : forall i m, Messages s !! i = Some m -> message_ok s m;
  so_sessions : forall sid se, Sessions s !! sid = Some se -> session_ok sid se;
  so_users : forall who sid, is_Some (dget (UserSessions s) who sid) <->
    exists se, Sessions s !! sid = Some se /\ who ∈ participants se;
  so_index : forall sid i, is_Some (dget (SessionMessages s) sid i) <->
    exists m, Messages s !! i = Some m /\ session_id m = sid;
  so_unread : forall who sid, 0 <= unread_of s who sid <= pending_count (Messages s) who sid;
}.

Lemma store_same s s' : store s' = store s -> store_ok s -> store_ok s'.
Proof.
  intros [= Hm Hn Hs Hu Hi Hc] [H0' H1' H2' H3' H4' H5' H6'].
  split; unfold message_ok, unread_of in *; rewrite ?Hm, ?Hn, ?Hs, ?Hu, ?Hi, ?Hc; assumption.
Qed.

(** Sessions keep their participants. *)
Definition sessions_kept s s' : Prop :=
  forall sid, match Sessions s !! sid, Sessions s' !! sid with
              | Some se, Some se' => id se' = id se /\ participants se' = participants se
              | None, None => True
              | _, _ => False
              end.

(** Other flags on the same messages, as long as the counter stays below. *)
Lemma reflag_ok s s' :
  store_ok s -> reflagged (Messages s) (Messages s') -> NextMessageId s' = NextMessageId s ->
  Sessions s' = Sessions s -> UserSessions s' = UserSessions s ->
  SessionMessages s' = SessionMessages s ->
  (forall who sid, 0 <= unread_of s' who sid <= pending_count (Messages s') who sid) -> store_ok s'.
Proof.
  intros [Hnext Hids Hmsg Hses Husr Hidx _] Hr Hn Hs Hu Hi Hc.
  split; rewrite ?Hn, ?Hs, ?Hu; try done.
  - intros i [m' Hm']. apply (reflagged_some _ _ _ _ Hr) in Hm' as (m & Hm & _). apply Hids. eauto.
  - intros i m' Hm'. apply (reflagged_some _ _ _ _ Hr) in Hm' as (m & Hm & Hl).
    destruct Hl as (Hl1 & Hl2 & Hl3 & Hl4 & Hl5 & _). unfold message_ok. rewrite Hl1, Hl2, Hl3, Hl4, Hl5, Hs.
    by apply (Hmsg i).
  - intros sid i. rewrite Hi, Hidx. split; intros (m & Hm & Hsid).
    + apply (reflagged_back _ _ _ _ Hr) in Hm as (m' & Hm' & _ & _ & Hl & _). exists m'. by rewrite Hl.
    + apply (reflagged_some _ _ _ _ Hr) in Hm as (m' & Hm' & _ & _ & Hl & _). exists m'. by rewrite <- Hl.
Qed.

(** ** Chat ids leave the store alone *)

Lemma try_candidates_quiet env nonce n : framed store (try_candidates (P:=P) cfg env nonce n).
Proof. induction n as [| n IH]; simpl; framed_tac. exact IH. Qed.

Lemma get_or_create_quiet env who : framed store (get_or_create_chat_user_id (P:=P) cfg env who).
Proof.
  unfold get_or_create_chat_user_id, generate_chat_user_id, deposit_event.
  repeat first [apply try_candidates_quiet | framed_step; cbv zeta].
Qed.

Ltac quiet_tac := repeat first [apply get_or_create_quiet | framed_step; cbv zeta].

(** The calls that do not touch the store. *)
Definition touches_store (c : Call) : bool :=
  match c with
  | RegisterChatUser _ | UpdateChatProfile _ _ _ | SetUserStatus _ | UpdatePrivacySettings _ _
  | SetSessionMuted _ _ | SetSessionPinned _ _ => false
  | _ => true
  end.

Lemma core_quiet_call env o c : touches_store c = false -> framed store (apply_call cfg env o c).
Proof.
  intros Hc. destruct c; try discriminate Hc; simpl;
    unfold register_chat_user, update_chat_profile, set_user_status, update_privacy_settings,
      set_session_muted, set_session_pinned, ensure_session_participant, get_session, bounded_field,
      alter_profile, deposit_event; quiet_tac.
Qed.

(** ** Sessions *)

Lemma sorted_elem a b x : x ∈ sorted_participants a b <-> x = a \/ x = b.
Proof.
  unfold sorted_participants. case_decide; rewrite elem_of_cons, list_elem_of_singleton; tauto.
Qed.

(** [store] after a session of [parts] has been inserted. *)
Lemma user_index_insert (us : gmap AccountId (gmap Hash unit)) parts sid who h s1 s' :
  for_each parts (fun user => modify (E:=DispatchError Error)
    (fun s => s <| UserSessions ::= dset user sid tt |>)) s1 = (Ok tt, s') ->
  s' = s1 <| UserSessions := UserSessions s' |> /\
  (is_Some (dget (UserSessions s') who h) <->
   is_Some (dget (UserSessions s1) who h) \/ (who ∈ parts /\ h = sid)).
Proof.
  revert s1. induction parts as [| a parts IH]; intros s1; simpl.
  - intros [= <-]. split; [by destruct s1 |]. split; [by left |].
    intros [? | [?%elem_of_nil _]]; done.
  - intros (? & s2 & [_ ->]%modify_inv & Hl)%bind_Ok. apply IH in Hl as [-> Hl].
    split; [by destruct s1 |]. rewrite Hl. simpl. rewrite dget_dset, elem_of_cons.
    case_decide as Hd; [destruct Hd as [<- <-]; split; [by right; auto | by left; eauto] |].
    split; [tauto |]. intros [? | [[-> | ?] ->]]; tauto.
Qed.

(** The state [do_send] stores the message in: the session exists, both parties
    belong to it, and nothing else in the store has changed. *)
Record aimed s (from to : AccountId) (sid : Hash) s' : Prop := {
  am_ok : store_ok s -> store_ok s';
  am_session : store_ok s ->
    exists se, Sessions s' !! sid = Some se /\ from ∈ participants se /\ to ∈ participants se;
  am_same : (Messages s', NextMessageId s', SessionMessages s', UnreadCount s') =
    (Messages s, NextMessageId s, SessionMessages s, UnreadCount s);
}.

Lemma create_session_Ok env from to sid s s' :
  create_session env from to s = (Ok sid, s') -> aimed s from to sid s'.
Proof.
  unfold create_session, deposit_event. intros Hrun. m_inv.
  - match goal with Hs : is_Some _ |- _ => destruct Hs as [se Hse] end.
    split; [done | | done]. intros Hs. exists se. split; [done |].
    destruct (so_sessions s Hs _ _ Hse) as (_ & Hh & _). apply hash_of_inj in Hh. rewrite <- Hh.
    by rewrite !sorted_elem; auto.
  - match goal with Hl : for_each _ _ _ = (_, ?s3) |- _ =>
      pose proof (fun who h => user_index_insert ∅ _ _ who h _ _ Hl) as Hu; clear Hl; rename s3 into s1 end.
    set (sid := hash_of (sorted_participants from to)) in *.
    set (se := mkSession sid _ 0 _ _ false) in *.
    destruct (Hu 0%N 0%N) as [Hs1 _].
    assert (forall who h, is_Some (dget (UserSessions s1) who h) <->
      is_Some (dget (UserSessions s) who h) \/ (who ∈ sorted_participants from to /\ h = sid)) as Hidx
      by (intros who h; by destruct (Hu who h)).
    clear Hu. rewrite Hs1. destruct (Sessions s !! sid) as [old |] eqn:Hnew; [exfalso; eauto |].
    split; [| intros _; exists se; simpl; rewrite lookup_insert_eq, !sorted_elem; auto | done].
    intros [Hnext Hids Hmsg Hses Husr Hind Hun]. split; simpl; try done.
    + intros i m Hm. destruct (Hmsg i m Hm) as (Hty & Hne & Hlen & se' & Hse' & Hp).
      split_and!; [done.. |]. exists se'. split; [| done]. simpl. rewrite lookup_insert_ne; [done |].
      intros He. rewrite He in Hnew. congruence.
    + intros sid' se' [[<- <-] | [Hne Hse']]%lookup_insert_Some; [| by apply Hses].
      split_and!; [done | done |]. by exists from, to.
    + intros who h. rewrite Hidx, Husr. split.
      * intros [(se' & Hse' & Hw) | [Hw ->]].
        -- exists se'. split; [| done]. rewrite lookup_insert_ne; [done |]. intros <-. congruence.
        -- exists se. by rewrite lookup_insert_eq.
      * intros (se' & [[<- <-] | [Hne Hse']]%lookup_insert_Some & Hw); [by right |]. left. by exists se'.
Qed.

Lemma create_session_id env from to sid s s' :
  create_session env from to s = (Ok sid, s') -> sid = get_session_id from to.
Proof. unfold create_session. intros Hrun. by m_inv. Qed.

Lemma create_session_total env from to s :
  exists s', create_session env from to s = (Ok (get_session_id from to), s') /\
    is_Some (Sessions s' !! get_session_id from to).
Proof.
  unfold create_session, get_session_id, deposit_event.
  unfold bind at 1, gets. case_decide as Hd; [by exists s |].
  assert (length (sorted_participants from to) <= 2)%nat as Hlen
    by (unfold sorted_participants; case_decide; simpl; lia).
  rewrite run_ensure by done. rewrite run_modify.
  match goal with |- context [for_each ?l ?b] =>
    destruct (total_for_each l b (fun x => total_modify _)
      (s <| Sessions ::= <[hash_of l := mkSession (hash_of l) l 0 (block_number env) (block_number env) false]> |>))
      as ([] & s1 & Hl) end.
  rewrite (bind_eval _ _ _ _ _ Hl). eexists. split; [reflexivity |]. simpl.
  destruct (user_index_insert ∅ _ _ 0%N 0%N _ _ Hl) as [-> _]. simpl. rewrite lookup_insert_eq. eauto.
Qed.

Lemma target_session_Ok env from to o sid s s' :
  target_session env from to o s = (Ok sid, s') -> aimed s from to sid s'.
Proof.
  unfold target_session, get_session. intros Hrun. destruct o as [h |].
  - m_inv. split; [done | | done]. intros _.
    match goal with Hs : Sessions _ !! _ = Some ?se, Hp : _ ∈ _ /\ _ |- _ => exists se; tauto end.
  - by apply create_session_Ok in Hrun.
Qed.

(** ** Sending *)

Lemma send_ok s sid se i m se' :
  store_ok s -> NextMessageId s = i -> Sessions s !! sid = Some se ->
  message_ok s m -> session_id m = sid -> pending m = true ->
  id se' = id se -> participants se' = participants se ->
  i < u64_max ->
  store_ok (s <| NextMessageId := sat_add u64_max i 1 |> <| Messages ::= <[i := m]> |>
    <| Sessions ::= <[sid := se']> |> <| SessionMessages ::= dset sid i tt |>
    <| UnreadCount ::= fun c => <[(receiver m, sid) := sat_add u32_max (get0 c (receiver m, sid)) 1]> c |>).
Proof.
  intros [Hnext Hids Hmsg Hses Husr Hidx Hun] <- Hse Hm Hsid Hpend Hid Hparts Hlt.
  set (i := NextMessageId s) in *.
  assert (Messages s !! i = None) as Hfresh
    by (destruct (Messages s !! i) eqn:Hi; [specialize (Hids i ltac:(eauto)); lia | done]).
  assert (forall h x, Sessions s !! h = Some x -> exists x', <[sid := se']> (Sessions s) !! h = Some x' /\
    participants x' = participants x) as Hkept.
  { intros h x Hx. rewrite lookup_insert. case_decide as Hh; [subst; rewrite Hse in Hx; simplify_eq; eauto | eauto]. }
  assert (forall m', message_ok s m' -> msg_type m' = System /\ content_cid m' <> [] /\
    Z.of_nat (length (content_cid m')) <= MaxCidLen cfg /\ exists x,
    <[sid := se']> (Sessions s) !! session_id m' = Some x /\ sender m' ∈ participants x /\ receiver m' ∈ participants x)
    as Hmok.
  { intros m' (H1' & H2' & H3' & x & Hx & H4' & H5'). split_and!; [done.. |].
    destruct (Hkept _ _ Hx) as (x' & Hx' & Hp). exists x'. by rewrite Hp. }
  split; simpl.
  - rewrite sat_add_exact by lia. lia.
  - rewrite sat_add_exact by lia.
    intros j [m' [[<- _] | [_ Hj]]%lookup_insert_Some]; [lia |]. specialize (Hids j ltac:(eauto)). lia.
  - intros j m' [[_ <-] | [_ Hj]]%lookup_insert_Some; apply Hmok; [done | by eapply Hmsg].
  - intros h x [[<- <-] | [_ Hx]]%lookup_insert_Some; [| by apply Hses].
    destruct (Hses _ _ Hse) as (Hi1 & Hi2 & Hi3). unfold session_ok. by rewrite Hid, Hparts.
  - intros who h. rewrite Husr. split.
    + intros (x & Hx & Hw). destruct (Hkept _ _ Hx) as (x' & Hx' & Hp). exists x'. by rewrite Hp.
    + intros (x & [[<- <-] | [_ Hx]]%lookup_insert_Some & Hw); [exists se; by rewrite <- Hparts | by exists x].
  - intros h j. rewrite dget_dset. case_decide as Hd.
    + destruct Hd as [<- <-]. split; [| by eauto]. intros _. exists m. by rewrite lookup_insert_eq.
    + rewrite Hidx. split; intros (m' & Hm' & Hs').
      * exists m'. split; [| done]. rewrite lookup_insert_ne; [done |]. intros <-. congruence.
      * apply lookup_insert_Some in Hm' as [[Hij Hmm] | [_ Hm']]; [| by exists m'].
        exfalso. apply Hd. split; congruence.
  - intros who h. unfold unread_of, pending_count in *. simpl.
    rewrite msum_insert_new by done. rewrite get0_insert. specialize (Hun who h).
    pose proof (pending_for_bounds who h i m). case_decide as Hd.
    + injection Hd as <- <-. rewrite <- Hsid, pending_for_self, Hpend. rewrite Hsid.
      unfold sat_add, u32_max. lia.
    + lia.
Qed.

(** A notice that was sent. *)
Lemma do_send_Ok env from to cid o s s' :
  do_send cfg env from to cid System o s = (Ok tt, s') ->
  NextMessageId s' = sat_add u64_max (NextMessageId s) 1 /\
  (cid <> [] /\ Z.of_nat (length cid) <= MaxCidLen cfg) /\
  exists sid m, (o = None -> sid = get_session_id from to) /\ Messages s' = <[NextMessageId s := m]> (Messages s) /\
    sender m = from /\ receiver m = to /\ session_id m = sid /\ content_cid m = cid /\
    pending m = true /\ sent_at m = block_number env /\
    unread_of s' to sid = sat_add u32_max (unread_of s to sid) 1 /\
    (store_ok s -> NextMessageId s < u64_max -> store_ok s' /\ message_ok s' m).
Proof.
  unfold do_send, deposit_event, get_session. intros Hrun. m_inv.
  match goal with
  | Ha : attempt (get_or_create_chat_user_id _ _ from) s = (_, ?sa),
    Hb : attempt (get_or_create_chat_user_id _ _ to) ?sa = (_, ?sb),
    Ht : target_session _ _ _ _ ?sb = (Ok ?sid, ?s1), Hse : Sessions _ !! _ = Some ?se |- _ =>
      apply (framed_attempt _ _ (get_or_create_quiet env from)) in Ha;
      apply (framed_attempt _ _ (get_or_create_quiet env to)) in Hb; rewrite Ha in Hb;
      destruct (target_session_Ok _ _ _ _ _ _ _ Ht) as [Hok Hsess Hsame];
      assert (store_ok s -> store_ok sb) as Hsb by (by apply store_same);
      assert (Messages s1 = Messages s /\ NextMessageId s1 = NextMessageId s /\
        UnreadCount s1 = UnreadCount s) as (Em & En & Eu)
        by (unfold store in Hb; injection Hb as ?????; injection Hsame as ????; split_and!; congruence);
      simpl in Hse; rename s1 into u, se into old, sid into target
  end.
  simpl. rewrite En, Em. split; [done |]. split; [done |]. exists target. eexists.
  split; [by intros ->; eapply create_session_id |]. split; [reflexivity |].
  split_and!; try done.
  - unfold unread_of. simpl. by rewrite Eu, get0_insert, decide_True.
  - intros Hs Hlt. destruct (Hsess (Hsb Hs)) as (se & Hse & Hfrom & Hto).
    assert (se = old) as -> by congruence.
    set (m := mkMessage _ _ _ _ _ _ _ _ _ _ _ _).
    assert (message_ok u m) as Hm by (split_and!; [done.. | by exists old]).
    rewrite <- En in *. split.
    + set (touched := old <| last_message_id := NextMessageId u |> <| last_active := block_number env |>).
      pose proof (send_ok u (session_id m) old _ m touched (Hok (Hsb Hs)) eq_refl Hse Hm eq_refl
        eq_refl eq_refl eq_refl Hlt) as Hsent.
      eapply store_same; [| exact Hsent]. by rewrite <- Em.
    + destruct Hm as (? & ? & ? & _). split_and!; [done.. |]. simpl. rewrite lookup_insert_eq.
      eexists. split; [done | by split].
Qed.

(** ** Flags *)

(** One message gets other flags and the counter of its receiver goes down by
    [n], which is enough for what has stopped to be pending. *)
Lemma flag_ok s s' i m m' n :
  store_ok s -> Messages s !! i = Some m -> same_letter m m' -> 0 <= n ->
  (pending m' = true -> pending m = true) ->
  (pending m = true -> pending m' = false -> 1 <= n) ->
  Messages s' = <[i := m']> (Messages s) ->
  (NextMessageId s', Sessions s', UserSessions s', SessionMessages s') =
    (NextMessageId s, Sessions s, UserSessions s, SessionMessages s) ->
  UnreadCount s' = <[(receiver m, session_id m) :=
    sat_sub (unread_of s (receiver m) (session_id m)) n]> (UnreadCount s) ->
  store_ok s'.
Proof.
  intros Hs Hm Hl Hn Hback Hdown Em [= En Es Eu Ei] Ec.
  apply (reflag_ok s); [done | rewrite Em; by eapply reflagged_insert | done.. |].
  intros who sid. unfold unread_of at 1 2. rewrite Ec, Em, get0_insert.
  rewrite (pending_count_insert _ _ _ _ _ _ Hm). pose proof (so_unread s Hs who sid) as Hun.
  pose proof (pending_for_bounds who sid i m). pose proof (pending_for_bounds who sid i m').
  pose proof (pending_count_nonneg (<[i := m']> (Messages s)) who sid) as Hnn.
  rewrite (pending_count_insert _ _ _ _ _ _ Hm) in Hnn.
  destruct Hl as (_ & Hr & Hsid & _). case_decide as Hd.
  - injection Hd as <- <-.
    assert (pending_for (receiver m) (session_id m) i m' = if pending m' then 1 else 0) as Hm'
      by (rewrite <- Hr, <- Hsid; apply pending_for_self).
    rewrite Hm', pending_for_self in *. unfold unread_of in *.
    destruct (pending m) eqn:Hp, (pending m') eqn:Hp'; unfold sat_sub;
      try (specialize (Hdown eq_refl eq_refl)); try (specialize (Hback eq_refl)); try done; lia.
  - rewrite (pending_for_other _ _ _ m) by congruence.
    rewrite (pending_for_other _ _ _ m') by (rewrite Hr, Hsid; congruence). unfold unread_of in Hun. lia.
Qed.

(** The same without touching the counter. *)
Lemma flag_ok_still s s' i m m' :
  store_ok s -> Messages s !! i = Some m -> same_letter m m' ->
  pending m' = pending m -> Messages s' = <[i := m']> (Messages s) ->
  (NextMessageId s', Sessions s', UserSessions s', SessionMessages s', UnreadCount s') =
    (NextMessageId s, Sessions s, UserSessions s, SessionMessages s, UnreadCount s) ->
  store_ok s'.
Proof.
  intros Hs Hm Hl Hp Em [= En Es Eu Ei Ec].
  apply (reflag_ok s); [done | rewrite Em; by eapply reflagged_insert | done.. |].
  intros who sid. unfold unread_of. rewrite Ec, Em, (pending_count_insert _ _ _ _ _ _ Hm).
  pose proof (so_unread s Hs who sid) as Hun. destruct Hl as (_ & Hr & Hsid & _).
  unfold unread_of, pending_for in *. rewrite Hr, Hsid, Hp. lia.
Qed.

Definition read (m : MessageMeta) : MessageMeta := m <| is_read := true |>.
Definition recalled (m : MessageMeta) : MessageMeta := m <| is_recalled := true |>.
Definition deleted (m : MessageMeta) : MessageMeta := m <| is_deleted_by_receiver := true |>.
Definition hidden (m : MessageMeta) : MessageMeta := m <| is_deleted_by_sender := true |>.

Lemma pending_recalled m : pending (recalled m) = false.
Proof. unfold pending. simpl. by rewrite andb_false_r. Qed.

Lemma pending_deleted m : pending (deleted m) = false.
Proof. unfold pending. simpl. by rewrite andb_false_r. Qed.

Ltac flag f n :=
  match goal with Hs : store_ok ?s, Hm : Messages ?s !! ?i = Some ?m |- _ =>
    apply (flag_ok s _ i m (f m) n);
      [exact Hs | exact Hm | by split_and! | lia | | by intros; lia | reflexivity | reflexivity
      | try reflexivity] end.

Ltac flag_still f :=
  match goal with Hs : store_ok ?s, Hm : Messages ?s !! ?i = Some ?m |- _ =>
    apply (flag_ok_still s _ i m (f m)); [exact Hs | exact Hm | by split_and! | | reflexivity | done] end.

Lemma mark_as_read_store o i s s' :
  store_ok s -> mark_as_read o i s = (Ok tt, s') -> store_ok s'.
Proof.
  unfold mark_as_read, get_message_or, unread_down, put_message, deposit_event.
  intros Hs Hrun. m_inv; [by apply (store_same s) |]. by flag read 1.
Qed.

Lemma delete_message_store o i s s' :
  store_ok s -> delete_message o i s = (Ok tt, s') -> store_ok s'.
Proof.
  unfold delete_message, get_message_or, unread_down, put_message, deposit_event.
  intros Hs Hrun. m_inv.
  - by flag_still hidden.
  - match goal with Hor : sender _ = _ \/ receiver _ = _ |- _ => destruct Hor as [? | <-]; [done |] end.
    flag deleted 1. by rewrite pending_deleted.
  - flag_still deleted. rewrite pending_deleted. by unfold pending.
Qed.

Lemma recall_message_store env o i s s' :
  store_ok s -> recall_message cfg env o i s = (Ok tt, s') -> store_ok s'.
Proof.
  unfold recall_message, get_message_or, unread_down, put_message, deposit_event.
  intros Hs Hrun. m_inv; [flag recalled 1; by rewrite pending_recalled |].
  flag_still recalled. rewrite pending_recalled. unfold pending.
  match goal with Hr : negb (is_read _) = false |- _ => by rewrite Hr end.
Qed.

Lemma mark_one_store who i s r s' : store_ok s -> mark_one who i s = (r, s') -> store_ok s'.
Proof.
  unfold mark_one, put_message, unread_down, deposit_event, bind, gets, modify, ret.
  intros Hs. destruct (Messages s !! i) as [m |] eqn:Hm; [case_decide as Hc |]; intros [= <- <-]; try done.
  destruct Hc as [<- Hread]. by flag read 1.
Qed.

Lemma mark_batch_store o l s s' :
  store_ok s -> mark_batch_as_read o l s = (Ok tt, s') -> store_ok s'.
Proof.
  unfold mark_batch_as_read. intros Hs Hrun. m_inv.
  eapply (for_each_ind store_ok); [| exact Hs | exact Hrun].
  intros i s1 r s2 _. apply mark_one_store.
Qed.

(** ** Reading a session *)

(** Marking one candidate. *)
Lemma mark_candidates_step who i l k s k' s' :
  mark_candidates who (i :: l) k s = (Ok k', s') ->
  (exists m, Messages s !! i = Some m /\ receiver m = who /\ is_read m = false /\
     mark_candidates who l (sat_add u32_max k 1) (s <| Messages ::= <[i := read m]> |>) = (Ok k', s')) \/
  ((forall m, Messages s !! i = Some m -> receiver m = who -> is_read m = true) /\
   mark_candidates who l k s = (Ok k', s')).
Proof.
  simpl. unfold put_message, bind, gets, modify. destruct (Messages s !! i) as [m |] eqn:Hm.
  - case_decide as Hc; intros Hrun; [left; exists m; tauto |]. right. split; [| done].
    intros m' [= <-] Hw. destruct (is_read m); [done | tauto].
  - intros Hrun. right. by split.
Qed.

(** The loop only sets the read flag of messages to [who]; what stops to be
    pending is at most what it counts. *)
Lemma mark_candidates_store who sid l k s k' s' :
  mark_candidates who l k s = (Ok k', s') ->
  (forall i m, i ∈ l -> Messages s !! i = Some m -> session_id m = sid) ->
  0 <= k -> k + Z.of_nat (length l) <= u32_max ->
  s' = s <| Messages := Messages s' |> /\ reflagged (Messages s) (Messages s') /\ k <= k' /\
  forall u h, pending_count (Messages s) u h <=
    pending_count (Messages s') u h + (if decide ((u, h) = (who, sid)) then k' - k else 0).
Proof.
  revert k s. induction l as [| i l IH]; intros k s Hrun Hsid Hk Hlen.
  - injection Hrun as <- <-. split_and!; [by destruct s | apply reflagged_refl | lia |].
    intros u h. case_decide; lia.
  - simpl in Hlen. apply mark_candidates_step in Hrun as [(m & Hm & Hw & Hr & Hrun) | [_ Hrun]].
    + rewrite sat_add_exact in Hrun by lia. apply IH in Hrun as (Hs' & Hre & Hle & Hcnt); [| | lia | lia].
      * split_and!; [by rewrite Hs'; destruct s | | lia |].
        -- eapply reflagged_trans; [| exact Hre]. eapply reflagged_insert; [exact Hm | by split_and!].
        -- intros u h. specialize (Hcnt u h). simpl in Hcnt.
           rewrite (pending_count_insert _ _ _ _ _ _ Hm) in Hcnt.
           pose proof (pending_for_bounds u h i m).
           assert (pending_for u h i (read m) = 0) as Hz
             by (unfold pending_for; rewrite decide_False; [done | by intros (_ & _ & ?)]).
           case_decide as Hd; [lia |]. rewrite (pending_for_other u h i m) in Hcnt; [lia |].
           rewrite Hw, (Hsid i m); [done | by left | done].
      * intros j m' Hj Hm'. simpl in Hm'. apply lookup_insert_Some in Hm' as [[<- <-] | [_ Hm']].
        -- apply (Hsid i m); [by left | done].
        -- eapply Hsid; [by right | done].
    + apply IH in Hrun as (Hs' & Hre & Hle & Hcnt); [by split_and! | | done | lia].
      intros j m Hj. apply Hsid. by right.
Qed.

Lemma read_candidates_session s sid cursor i m :
  store_ok s -> i ∈ read_candidates s sid cursor -> Messages s !! i = Some m -> session_id m = sid.
Proof.
  intros Hs Hi Hm. unfold read_candidates, ascending in Hi. apply subseteq_take in Hi.
  rewrite merge_sort_Permutation in Hi. apply list_elem_of_filter in Hi as [_ Hi].
  apply iter_keys_elem in Hi. fold (dget (SessionMessages s) sid i) in Hi.
  apply (so_index s Hs) in Hi as (m' & Hm' & <-). congruence.
Qed.

Lemma read_candidates_length s sid cursor :
  (length (read_candidates s sid cursor) <= MAX_SESSION_READ_SCAN)%nat.
Proof. unfold read_candidates. rewrite length_take. lia. Qed.

Lemma move_cursor_quiet who sid l : framed store (move_cursor (P:=P) who sid l).
Proof. unfold move_cursor, drop_cursor. framed_tac. Qed.

Lemma mark_session_store o sid s s' :
  store_ok s -> mark_session_as_read o sid s = (Ok tt, s') -> store_ok s'.
Proof.
  unfold mark_session_as_read, ensure_session_participant, get_session, unread_down, deposit_event.
  intros Hs Hrun. m_inv.
  match goal with Hl : mark_candidates ?w ?l 0 s = (Ok ?k, ?s1), Hc : move_cursor _ _ _ ?s2 = (_, ?s3) |- _ =>
    pose proof (read_candidates_length s sid (dget (SessionReadCursor s) w sid)) as Hlen;
    apply (mark_candidates_store _ sid) in Hl as (Hs1 & Hre & Hk & Hcnt);
      [| by intros ? ?; apply read_candidates_session | lia | unfold MAX_SESSION_READ_SCAN, u32_max in *; lia];
    apply move_cursor_quiet in Hc; apply (store_same s2); [by rewrite <- Hc |];
    rename w into who, k into marked, s1 into u
  end.
  rewrite Hs1. apply (reflag_ok s); [done | done | done | done | done | done |].
  intros w h. unfold unread_of at 1 2. simpl. rewrite get0_insert.
  pose proof (so_unread s Hs w h) as Hun. specialize (Hcnt w h).
  pose proof (pending_count_nonneg (Messages u) w h). unfold unread_of in Hun.
  destruct (decide ((who, sid) = (w, h))) as [Hd | Hd].
  - injection Hd as <- <-. rewrite decide_True in Hcnt by done. rewrite Hs1. simpl. unfold sat_sub. lia.
  - rewrite decide_False in Hcnt by congruence. rewrite Hs1. simpl. lia.
Qed.

(** ** Removing *)

Lemma remove_ok s i sid :
  store_ok s -> (forall m, Messages s !! i = Some m -> pending m = false /\ session_id m = sid) ->
  store_ok (s <| Messages ::= delete i |> <| SessionMessages ::= drem sid i |>).
Proof.
  intros [Hnext Hids Hmsg Hses Husr Hidx Hun] Hi. split; simpl; try done.
  - intros j [m [_ Hm]%lookup_delete_Some]. apply Hids. eauto.
  - intros j m [_ Hm]%lookup_delete_Some. by apply (Hmsg j).
  - intros h j. rewrite dget_drem. case_decide as Hd.
    + destruct Hd as [<- <-]. split; [by intros [? ?] |].
      intros (m & Hm & _). by rewrite lookup_delete_eq in Hm.
    + rewrite Hidx. split; intros (m & Hm & Hs).
      * exists m. split; [| done]. rewrite lookup_delete_ne; [done |]. intros ->. apply Hd.
        by destruct (Hi m Hm) as [_ <-].
      * apply lookup_delete_Some in Hm as [_ Hm]. by exists m.
  - intros who h. specialize (Hun who h). unfold unread_of, pending_count in *. simpl.
    rewrite msum_delete. destruct (Messages s !! i) as [m |] eqn:Hm; simpl; [| lia].
    destruct (Hi m eq_refl) as [Hp _]. unfold pending_for at 2. rewrite decide_False; [lia |].
    intros (_ & _ & ?). congruence.
Qed.

Lemma collectable_pending env m : collectable cfg env m = true -> pending m = false.
Proof.
  unfold collectable, pending. intros [_ Hor]%andb_true_iff.
  assert (is_deleted_by_receiver m = true) as ->; [| by rewrite andb_false_r].
  apply orb_true_iff in Hor as [[_ ?]%andb_true_iff | [_ ?]%andb_true_iff]; done.
Qed.

Lemma remove_loop_store rs s r s' :
  store_ok s ->
  (forall x, x ∈ rs -> forall m, Messages s !! x.1 = Some m -> pending m = false /\ session_id m = x.2) ->
  for_each rs (fun x => remove_message x.1 x.2) s = (r, s') -> store_ok s'.
Proof.
  revert s. induction rs as [| x rs IH]; intros s Hs Hrs; simpl; [by intros [= <- <-] |].
  unfold remove_message, bind at 1, modify. simpl. intros Hrun. eapply IH; [| | exact Hrun].
  - by apply remove_ok; [| apply Hrs; left].
  - intros y Hy m Hm. simpl in Hm. apply lookup_delete_Some in Hm as [_ Hm].
    apply Hrs; [by right | done].
Qed.

Lemma cleanup_store env o limit s s' :
  store_ok s -> cleanup_old_messages cfg env o limit s = (Ok tt, s') -> store_ok s'.
Proof.
  unfold cleanup_old_messages, deposit_event. intros Hs Hrun. m_inv.
  all: match goal with Hl : for_each _ _ _ = (_, ?u) |- _ => apply (store_same u); [done |];
    eapply remove_loop_store; [exact Hs | | exact Hl] end.
  all: intros [i sid] (j & _ & Hj)%list_elem_of_omap m Hm; simpl in *.
  all: destruct (Messages s !! j) as [m' |] eqn:Hmj; [| done].
  all: destruct (collectable cfg env m') eqn:Hc; [| done]; simplify_eq.
  all: split; [by eapply collectable_pending | done].
Qed.

Lemma archive_store o sid s s' :
  store_ok s -> archive_session o sid s = (Ok tt, s') -> store_ok s'.
Proof.
  unfold archive_session, get_session, deposit_event. intros Hs Hrun. m_inv.
  match goal with Hse : Sessions s !! sid = Some ?se |- _ => rename se into old; rename Hse into Hold end.
  destruct Hs as [Hnext Hids Hmsg Hses Husr Hidx Hun]. split; simpl; try done.
  - intros i m Hm. destruct (Hmsg i m Hm) as (H1' & H2' & H3' & se & Hse & Hp).
    split_and!; [done.. |]. simpl. rewrite lookup_insert. case_decide as Hd; [| by exists se].
    eexists. split; [done |]. rewrite <- Hd in Hse. rewrite Hse in Hold. by simplify_eq.
  - intros h se [[<- <-] | [_ Hse]]%lookup_insert_Some; [| by apply Hses]. by apply (Hses sid old).
  - intros who h. rewrite Husr. split.
    + intros (se & Hse & Hw). rewrite lookup_insert. case_decide as Hd; [| by exists se].
      eexists. split; [done |]. rewrite <- Hd in Hse. rewrite Hse in Hold. by simplify_eq.
    + intros (se & [[<- <-] | [_ Hse]]%lookup_insert_Some & Hw); [by exists old | by exists se].
Qed.

(** * Reachable states *)

(** The store is well-formed until message identifiers run out. *)
Definition core_inv s : Prop :=
  0 <= NextMessageId s <= u64_max /\ (NextMessageId s < u64_max -> store_ok s).

Lemma core_inv_keep s s' :
  core_inv s -> NextMessageId s' = NextMessageId s -> (store_ok s -> store_ok s') -> core_inv s'.
Proof. intros [Hr Hs] Hn Hk. split; rewrite Hn; auto. Qed.

Lemma do_send_inv env from to cid o s s' :
  core_inv s -> do_send cfg env from to cid System o s = (Ok tt, s') -> core_inv s'.
Proof.
  intros [Hr Hs] (Hn & _ & sid & m & _ & _ & _ & _ & _ & _ & _ & _ & _ & Hok)%do_send_Ok.
  split; rewrite Hn; unfold sat_add; [lia |]. intros Hlt. apply Hok; [apply Hs |]; lia.
Qed.

Lemma next_id_kept env o c : match c with SendMessage _ _ _ _ => False | _ => True end ->
  framed (NextMessageId (P:=P)) (apply_call cfg env o c).
Proof.
  intros Hc. destruct (touches_store c) eqn:Ht.
  2: { intros s r s' Hrun. apply core_quiet_call in Hrun; [| done]. by injection Hrun. }
  destruct c; try done; simpl;
    unfold mark_as_read, delete_message, mark_batch_as_read, mark_one, mark_session_as_read,
      archive_session, cleanup_old_messages, recall_message, remove_message, get_message_or,
      put_message, unread_down, ensure_session_participant, get_session, move_cursor, drop_cursor,
      deposit_event; framed_tac.
  match goal with |- framed _ (mark_candidates ?w ?l ?k) => generalize w; generalize k; induction l end;
    intros; simpl; unfold put_message; framed_tac; done.
Qed.

Lemma call_inv env o c s s' :
  core_inv s -> apply_call cfg env o c s = (Ok tt, s') -> core_inv s'.
Proof.
  intros Hs Hrun. destruct c as [to cid code h | | | | | | | | | | | | | ] eqn:Hc.
  1: { simpl in Hrun. unfold send_message in Hrun. m_inv. by eapply do_send_inv. }
  all: pose proof (next_id_kept env o c ltac:(by rewrite Hc)) as Hn; rewrite Hc in Hn;
    apply (core_inv_keep s); [done | by apply (Hn _ _ _ Hrun) | intros Hok]; clear Hn;
    first [ by eapply store_same; [eapply core_quiet_call in Hrun |] | simpl in Hrun ].
  - by eapply mark_as_read_store.
  - by eapply delete_message_store.
  - by eapply mark_batch_store.
  - by eapply mark_session_store.
  - by eapply archive_store.
  - by eapply cleanup_store.
  - by eapply recall_message_store.
Qed.

(** ** Notices *)

(** A refused notice has been refused before anything was written. *)
Lemma notify_Err env to notice s e s' :
  notify cfg env to notice s = (Err e, s') ->
  s' = s /\ (notice = [] \/ MaxCidLen cfg < Z.of_nat (length notice)).
Proof.
  unfold notify, do_send. rewrite run_ret. intros Hrun.
  destruct (decide (notice = [])) as [Hemp | Hne].
  { unfold bind, ensure in Hrun. rewrite decide_False in Hrun by tauto. injection Hrun as _ <-. auto. }
  rewrite run_ensure in Hrun by done.
  destruct (decide (Z.of_nat (length notice) <= MaxCidLen cfg)) as [Hle | Hgt].
  2: { unfold bind, ensure in Hrun. rewrite decide_False in Hrun by done. injection Hrun as _ <-.
       split; [done | right; lia]. }
  rewrite run_ensure in Hrun by done. exfalso. revert Hrun. unfold bind at 1, attempt.
  destruct (get_or_create_chat_user_id cfg env _ s) as [[a | ?] s1]; simpl; unfold bind at 1, attempt;
    destruct (get_or_create_chat_user_id cfg env to s1) as [[b | ?] s2]; simpl;
    destruct (create_session_total env (SystemAccount cfg) to s2) as (s3 & Hc & se & Hse);
    unfold target_session; rewrite (bind_eval _ _ _ _ _ Hc);
    unfold get_session, put_message, deposit_event; rewrite run_gets, !run_modify, run_bind, run_gets;
    rewrite (run_ok_or _ _ _ _ se) by exact Hse; done.
Qed.

Lemma best_effort_inv env to notice s r s' :
  core_inv s -> notify_system_best_effort cfg env to notice s = (r, s') -> core_inv s'.
Proof.
  intros Hs. unfold notify_system_best_effort, attempt, bind.
  destruct (notify cfg env to notice s) as [[[] | e] s1] eqn:Hrun; simpl; intros [= <- <-].
  - by eapply do_send_inv.
  - apply notify_Err in Hrun as [-> _]. apply (core_inv_keep s); [done | done |].
    by apply store_same.
Qed.

Lemma core_step_inv s s' : core_inv s -> step cfg s s' -> core_inv s'.
Proof.
  intros Hs [env o c r _ Hcall | env to notice r _ Hrun | p ->].
  - apply transactional_cases in Hcall as [([] & -> & Hrun) | (e & -> & ->)]; [| done].
    by eapply call_inv.
  - by eapply best_effort_inv.
  - by apply (core_inv_keep s); [| | apply store_same].
Qed.

Lemma core_reach p s : rtc (step cfg) (genesis p) s -> core_inv s.
Proof.
  intros Hrun. eapply (rtc_invariant (step cfg) core_inv); [apply core_step_inv | | exact Hrun].
  split; [done |]. intros _. split; simpl; try done.
  - intros i [m Hm]. by rewrite lookup_empty in Hm.
  - intros who sid. unfold dget. rewrite prefix_empty, lookup_empty. split; [by intros [? ?] |].
    intros (se & Hse & _). by rewrite lookup_empty in Hse.
  - intros sid i. unfold dget. rewrite prefix_empty, lookup_empty. split; [by intros [? ?] |].
    intros (m & Hm & _). by rewrite lookup_empty in Hm.
Qed.

(** The two calls run forwards. *)
Lemma delete_run o i m s :
  Messages s !! i = Some m -> pending m = true -> sender m <> receiver m ->
  ensure_signed o = Some (receiver m) ->
  delete_message o i s = (Ok tt,
    s <| UnreadCount ::= fun c => <[(receiver m, session_id m) :=
           sat_sub (get0 c (receiver m, session_id m)) 1]> c |>
      <| Messages ::= <[i := deleted m]> |>
      <| events ::= fun l => l ++ [MessageDeleted i (receiver m)] |>).
Proof.
  intros Hm Hp Hne Ho. unfold pending in Hp.
  unfold delete_message, get_message_or, unread_down, put_message, deposit_event. m_run.
  by rewrite decide_False, Hp by done.
Qed.

Lemma read_run o i m s :
  Messages s !! i = Some m -> is_read m = false -> ensure_signed o = Some (receiver m) ->
  mark_as_read o i s = (Ok tt,
    s <| UnreadCount ::= fun c => <[(receiver m, session_id m) :=
           sat_sub (get0 c (receiver m, session_id m)) 1]> c |>
      <| Messages ::= <[i := read m]> |>
      <| events ::= fun l => l ++ [MessageRead i (receiver m)] |>).
Proof.
  intros Hm Hr Ho.
  unfold mark_as_read, get_message_or, unread_down, put_message, deposit_event. m_run.
  by rewrite Hr.
Qed.

(** * Properties *)

(** C36: as long as message identifiers have not run out, every stored message is
    a system notice of legal size in a session both its parties belong to, a
    session is stored under the digest of its sorted pair, the index of a
    session lists exactly its messages, the index of a user exactly the
    sessions the user takes part in, and every identifier is below the next. *)
Theorem core_store_consistent p s :
  rtc (step cfg) (genesis p) s -> NextMessageId s < u64_max -> store_ok s.
Proof. intros [_ Hs]%core_reach. exact Hs. Qed.

(** the unread counter of a session never promises more than there is: it
    is at most the number of messages the user has neither read nor deleted and
    whose sender has not recalled them. *)
Theorem unread_never_overcounts p s who sid :
  rtc (step cfg) (genesis p) s -> NextMessageId s < u64_max ->
  0 <= get_unread_count s who (Some sid) <= pending_count (Messages s) who sid.
Proof. intros [_ Hs]%core_reach Hlt. by apply so_unread, Hs. Qed.

(** It can promise less: reading a message one has deleted takes it off the
    counter a second time, so that another message that is still pending is no
    longer counted. *)
Theorem deleted_then_read_counts_twice env o i m s :
  Messages s !! i = Some m -> pending m = true -> sender m <> receiver m ->
  ensure_signed o = Some (receiver m) -> 2 <= unread_of s (receiver m) (session_id m) ->
  exists s1 s2,
    dispatch cfg env o (DeleteMessage i) s = (Ok tt, s1) /\
    dispatch cfg env o (MarkAsRead i) s1 = (Ok tt, s2) /\
    unread_of s2 (receiver m) (session_id m) = unread_of s (receiver m) (session_id m) - 2 /\
    pending_count (Messages s2) (receiver m) (session_id m) =
      pending_count (Messages s) (receiver m) (session_id m) - 1.
Proof.
  intros Hm Hp Hne Ho Hn. pose proof (delete_run o i m s Hm Hp Hne Ho) as Hdel.
  match type of Hdel with _ = (_, ?x) => set (s1 := x) in * end.
  assert (Messages s1 !! i = Some (deleted m)) as Hm1 by apply lookup_insert_eq.
  assert (is_read (deleted m) = false) as Hr
    by (change (is_read m = false); unfold pending in Hp; by destruct (is_read m)).
  pose proof (read_run o i (deleted m) s1 Hm1 Hr Ho) as Hread.
  match type of Hread with _ = (_, ?x) => exists s1, x end.
  split; [exact (transactional_run _ _ _ _ Hdel) |].
  split; [exact (transactional_run _ _ _ _ Hread) |]. split.
  - unfold s1, unread_of in *. simpl. rewrite !get0_insert, !decide_True by done.
    rewrite !sat_sub_exact by (rewrite ?sat_sub_exact by lia; lia). lia.
  - unfold s1. simpl. rewrite insert_insert_eq, (pending_count_insert _ _ _ _ _ _ Hm).
    rewrite pending_for_self, Hp. change (receiver m) with (receiver (read (deleted m))).
    change (session_id m) with (session_id (read (deleted m))). rewrite pending_for_self. simpl. lia.
Qed.

(** a notice another pallet sends is delivered or reported: when it is not
    empty and fits the bound, exactly one pending message from the platform's
    account with that content is added, in the session of the two; otherwise
    nothing but the failure event is written. *)
Theorem notify_delivers_or_reports env to notice s r s' :
  notify_system_best_effort cfg env to notice s = (r, s') ->
  r = Ok tt /\
  ((notice <> [] /\ Z.of_nat (length notice) <= MaxCidLen cfg /\
    exists m, Messages s' = <[NextMessageId s := m]> (Messages s) /\
      sender m = SystemAccount cfg /\ receiver m = to /\ content_cid m = notice /\ pending m = true /\
      session_id m = get_session_id (SystemAccount cfg) to /\ sent_at m = block_number env) \/
   ((notice = [] \/ MaxCidLen cfg < Z.of_nat (length notice)) /\
    s' = s <| events ::= fun l => l ++ [SystemNotifyFailed to] |>)).
Proof.
  unfold notify_system_best_effort, attempt, bind.
  destruct (notify cfg env to notice s) as [[[] | e] s1] eqn:Hrun; simpl; intros [= <- <-].
  - split; [done |]. left.
    apply do_send_Ok in Hrun as (_ & [Hne Hle] & sid & m & Hsid & Hm & Hf & Ht & Hs & Hc & Hp & Hb & _).
    split; [done |]. split; [done |]. exists m. split_and!; try done. by rewrite Hs, Hsid.
  - apply notify_Err in Hrun as [-> Hbad]. by split; [| right].
Qed.

End Store.

(** * Concrete runs *)

(** Account 1 deletes its first notice and reads it nevertheless. *)
Definition read_after_delete : State unit :=
  run_calls [(3, SignedBy 1, DeleteMessage 0); (4, SignedBy 1, MarkAsRead 0)] two_notices.

Lemma read_after_delete_reach : rtc (step test_config) (genesis tt) read_after_delete.
Proof.
  unfold read_after_delete, two_notices.
  etrans; apply core_run_reach; refine (bool_decide_unpack _ _); by vm_compute.
Qed.

Lemma core_store_consistent_witness : store_ok test_config read_after_delete.
Proof.
  apply (core_store_consistent test_config tt); [apply read_after_delete_reach | by vm_compute].
Defined.

Lemma unread_never_overcounts_witness :
  0 <= get_unread_count read_after_delete 1 (Some notices_session) <=
    pending_count (Messages read_after_delete) 1 notices_session /\
  pending_count (Messages read_after_delete) 1 notices_session = 1.
Proof.
  split; [| by vm_compute].
  apply (unread_never_overcounts test_config tt); [apply read_after_delete_reach | by vm_compute].
Defined.

Definition first_notice : MessageMeta :=
  default (mkMessage 99 1 None None [] 0 System 0 false false false false) (Messages two_notices !! 0).

Lemma deleted_then_read_counts_twice_witness :
  unread_of read_after_delete 1 notices_session = 0 /\
  exists s1 s2,
    dispatch test_config (test_env 3) (SignedBy 1) (DeleteMessage 0) two_notices = (Ok tt, s1) /\
    dispatch test_config (test_env 3) (SignedBy 1) (MarkAsRead 0) s1 = (Ok tt, s2) /\
    unread_of s2 (receiver first_notice) (session_id first_notice) =
      unread_of two_notices (receiver first_notice) (session_id first_notice) - 2 /\
    pending_count (Messages s2) (receiver first_notice) (session_id first_notice) =
      pending_count (Messages two_notices) (receiver first_notice) (session_id first_notice) - 1.
Proof.
  split; [by vm_compute |].
  apply (deleted_then_read_counts_twice test_config (test_env 3) (SignedBy 1) 0 first_notice two_notices);
    by vm_compute.
Defined.

Lemma notify_delivers_or_reports_witness :
  let x := notify_system_best_effort test_config (test_env 5) 1 [7] two_notices in
  x.1 = Ok tt /\
  (([7] <> [] /\ Z.of_nat (length [7]) <= MaxCidLen test_config /\
    exists m, Messages x.2 = <[NextMessageId two_notices := m]> (Messages two_notices) /\
      sender m = SystemAccount test_config /\ receiver m = 1%N /\ content_cid m = [7] /\
      pending m = true /\ session_id m = get_session_id (SystemAccount test_config) 1 /\
      sent_at m = block_number (test_env 5)) \/
   (([7] = [] \/ MaxCidLen test_config < Z.of_nat (length [7])) /\
    x.2 = two_notices <| events ::= fun l => l ++ [SystemNotifyFailed 1] |>)).
Proof.
  intros x. apply (notify_delivers_or_reports test_config (test_env 5) 1 [7] two_notices).
  unfold x. apply surjective_pairing.
Defined.
