(* ===== verification/CoreIds.v ===== *)
(** The eleven-digit chat ids of [pallet-chat-core] over all runs: who has one,
    what the directory says about it, and how often one can be handed out. The
    runtime's source of randomness for them is modelled at the end. *)

From S2P Require Import Prelude Frame ChatCommon ChatCore.
Import Core.

(** * Seeds *)

Lemma xor_into_length bs seed : length (xor_into bs seed) = length seed.
Proof. revert seed. induction bs as [| b bs IH]; intros [| x seed]; simpl; auto. Qed.

Lemma xor_at_take off bs seed n : (n <= off)%nat -> take n (xor_at off bs seed) = take n seed.
Proof.
  intros Hn. unfold xor_at. destruct (decide (off <= length seed)%nat) as [Hle | Hgt].
  - rewrite take_app_le by (rewrite length_take; lia). rewrite take_take. by f_equal; lia.
  - rewrite (drop_ge seed off) by lia. rewrite (take_ge seed off) by lia.
    destruct bs; simpl; by rewrite app_nil_r.
Qed.

Lemma generate_id_ext s1 s2 lo hi :
  take 16 s1 = take 16 s2 -> generate_id_from_seed s1 lo hi = generate_id_from_seed s2 lo hi.
Proof.
  intros Heq. unfold generate_id_from_seed.
  assert (forall s : bytes, take 8 s = take 8 (take 16 s)) as Ht by (intros s; by rewrite take_take).
  assert (forall s : bytes, take 8 (drop 8 s) = drop 8 (take 16 s)) as Hd
    by (intros s; by rewrite skipn_firstn_comm).
  by rewrite (Ht s1), (Ht s2), (Hd s1), (Hd s2), Heq.
Qed.

Lemma generate_id_range seed : MIN_ID <= generate_id_from_seed seed MIN_ID MAX_ID <= MAX_ID.
Proof.
  unfold generate_id_from_seed, MIN_ID, MAX_ID.
  match goal with |- context [?a mod (?hi - ?lo + 1)] => pose proof (Z.mod_pos_bound a (hi - lo + 1)) end.
  lia.
Qed.

(** The bytes the retry and the counter are mixed into are not the bytes the id
    is made from. *)
Lemma candidate_constant `{FrameSystem} (cfg : Config) env a n a' n' :
  candidate cfg env a n = candidate cfg env a' n'.
Proof.
  unfold candidate, get_random_seed_for_chat. apply generate_id_ext.
  by rewrite !(xor_at_take 17), !(xor_at_take 16) by lia.
Qed.

Section Ids.
Context `{FrameSystem} {P : Type} `{SessionHashing} `{MessageKeys} `{PrefixStorage}.
Context `{ChatPermissionChecker P} (cfg : Config).
Implicit Types (s : State P).

(** The directory. *)
Definition directory s :=
  (UsedChatUserIds s, AccountToChatUserId s, ChatUserIdToAccount s, ChatUserProfiles s).

Definition field_fits (bound : Z) (b : option bytes) : Prop :=
  match b with Some b => Z.of_nat (length b) <= bound | None => True end.

Definition profile_ok (p : ChatUserProfile) : Prop :=
  field_fits (MaxNicknameLength cfg) (nickname p) /\ field_fits (MaxCidLen cfg) (avatar_cid p) /\
  field_fits (MaxSignatureLength cfg) (signature p).

(** Accounts and ids correspond one to one, an id has eleven digits, and an id
    is used, owned and described or none of the three. *)
Record directory_ok s : Prop := {
  di_inverse : forall a i, AccountToChatUserId s !! a = Some i <-> ChatUserIdToAccount s !! i = Some a;
  di_range : forall i, is_Some (ChatUserIdToAccount s !! i) -> MIN_ID <= i <= MAX_ID;
  di_used : forall i, is_Some (UsedChatUserIds s !! i) <-> is_Some (ChatUserIdToAccount s !! i);
  di_profile : forall i, is_Some (ChatUserProfiles s !! i) <-> is_Some (ChatUserIdToAccount s !! i);
  di_fields : forall i p, ChatUserProfiles s !! i = Some p -> profile_ok p;
}.

Lemma directory_same s s' : directory s' = directory s -> directory_ok s -> directory_ok s'.
Proof.
  intros [= Hu Ha Hi Hp] [D1 D2 D3 D4 D5].
  split; rewrite ?Hu, ?Ha, ?Hi, ?Hp; assumption.
Qed.

(** What generating an id does to the directory. *)
Lemma try_candidates_cases env nonce n s r s' :
  try_candidates cfg env nonce n s = (r, s') ->
  (r = Err (Module ChatUserIdGenerationFailed) /\ s' = s) \/
  (exists a i, r = Ok i /\ i = candidate cfg env a nonce /\ UsedChatUserIds s !! i = None /\
    s' = s <| UsedChatUserIds ::= <[i := true]> |>).
Proof.
  induction n as [| n IH]; simpl; [intros [= <- <-]; auto |].
  unfold bind at 1, gets. case_decide as Hused; [| exact IH].
  intros [= <- <-]. right. eauto 10.
Qed.

Lemma try_candidates_used env nonce n s :
  is_Some (UsedChatUserIds s !! candidate cfg env 0 0) ->
  try_candidates cfg env nonce n s = (Err (Module ChatUserIdGenerationFailed), s).
Proof.
  intros [b Hb]. induction n as [| n IH]; [done |]. simpl. unfold bind at 1, gets.
  rewrite (candidate_constant cfg env _ nonce 0 0). case_decide as Hfree;
  [congruence | exact IH].
Qed.

(** What giving an account an id does. *)
Lemma get_or_create_cases env who s r s' :
  get_or_create_chat_user_id cfg env who s = (r, s') ->
  (exists i, r = Ok i /\ AccountToChatUserId s !! who = Some i /\ s' = s) \/
  (AccountToChatUserId s !! who = None /\ r = Err (Module ChatUserIdGenerationFailed) /\
   s' = s <| NextChatUserId := sat_add u64_max (NextChatUserId s) 1 |>) \/
  (exists i, AccountToChatUserId s !! who = None /\ r = Ok i /\ i = candidate cfg env 0 0 /\
   UsedChatUserIds s !! i = None /\
   directory s' = (<[i := true]> (UsedChatUserIds s), <[who := i]> (AccountToChatUserId s),
     <[i := who]> (ChatUserIdToAccount s), <[i := default_profile env]> (ChatUserProfiles s))).
Proof.
  unfold get_or_create_chat_user_id, generate_chat_user_id, deposit_event.
  unfold bind at 1, gets. destruct (AccountToChatUserId s !! who) as [i |] eqn:Hwho.
  { intros [= <- <-]. left. eauto. }
  rewrite run_bind. unfold bind at 1. rewrite run_bind, run_modify. unfold bind at 1.
  destruct (try_candidates _ _ _ _ _) as [[i | e] s1] eqn:Htry;
    apply try_candidates_cases in Htry as [[Hr ->] | (a & j & Hr & Hj & Hnew & ->)]; simplify_eq.
  - intros Hrun. simpl in Hrun. unfold bind, modify, ret in Hrun. injection Hrun as <- <-.
    right. right. rewrite (candidate_constant cfg env a _ 0 0) in *. eexists. by split_and!.
  - intros [= <- <-]. by right; left.
Qed.

Lemma directory_insert s s' who i env :
  directory_ok s -> AccountToChatUserId s !! who = None -> UsedChatUserIds s !! i = None ->
  MIN_ID <= i <= MAX_ID ->
  directory s' = (<[i := true]> (UsedChatUserIds s), <[who := i]> (AccountToChatUserId s),
     <[i := who]> (ChatUserIdToAccount s), <[i := default_profile env]> (ChatUserProfiles s)) ->
  directory_ok s'.
Proof.
  intros [D1 D2 D3 D4 D5] Hwho Hnew Hrange [= Hu Ha Hi Hp].
  assert (ChatUserIdToAccount s !! i = None) as Hfree.
  { apply eq_None_not_Some. rewrite <- D3, Hnew. by intros [? ?]. }
  assert (forall k (V W : Type) (m1 : gmap ChatUserId V) (m2 : gmap ChatUserId W) v w,
    (is_Some (m1 !! k) <-> is_Some (m2 !! k)) ->
    is_Some (<[i := v]> m1 !! k) <-> is_Some (<[i := w]> m2 !! k)) as Hdom.
  { intros k V W m1 m2 v w Hk. rewrite !lookup_insert. by case_decide. }
  split; rewrite ?Hu, ?Ha, ?Hi, ?Hp.
  - intros a j. rewrite !lookup_insert. specialize (D1 a j). repeat case_decide; subst; split; intros; simplify_eq; try tauto.
    + exfalso. assert (AccountToChatUserId s !! a = Some j) by tauto. congruence.
    + exfalso. assert (ChatUserIdToAccount s !! j = Some a) by tauto. congruence.
  - intros j [a [[<- _] | [_ Hj]]%lookup_insert_Some]; [done | apply D2; eauto].
  - intros j. by apply Hdom.
  - intros j. by apply Hdom.
  - intros j p [[_ <-] | [_ Hj]]%lookup_insert_Some; [by split_and! | by eapply D5].
Qed.

Lemma or_keep_fits bound new old :
  field_fits bound new -> field_fits bound old -> field_fits bound (or_keep new old).
Proof. by destruct new. Qed.

(** ** A property of the directory

    What giving out an id and rewriting a profile within the bounds keep, every
    step keeps. *)

Section Property.
Context (Q : State P -> Prop).
Hypothesis Q_same : forall s s', directory s' = directory s -> Q s -> Q s'.
Hypothesis Q_create : forall env who, kept Q (get_or_create_chat_user_id cfg env who).
Hypothesis Q_alter : forall i f, (forall p, profile_ok p -> profile_ok (f p)) ->
  kept Q (alter_profile i f).

Lemma bounded_field_kept {A} bound e b (k : unit -> M (State P) (DispatchError Error) A) :
  (field_fits bound b -> kept Q (k tt)) -> kept Q (bind (bounded_field bound e b) k).
Proof.
  intros Hk. unfold bounded_field. destruct b as [b |]; [by apply kept_ensure |].
  apply kept_bind; [apply kept_ret |]. intros []. by apply Hk.
Qed.

Ltac id_step := first
  [ apply Q_create | apply bounded_field_kept; intros ? | apply Q_alter
  | kept_step ltac:(intros ?; apply Q_same; reflexivity) ].
Ltac id_tac := cbv zeta; repeat (id_step; cbv zeta).

Lemma mark_candidates_kept who l n : kept Q (mark_candidates (P:=P) who l n).
Proof. revert n. induction l as [| i l IH]; intros n; simpl; unfold put_message; id_tac; apply IH. Qed.

Lemma do_send_kept env from to cid o : kept Q (do_send (P:=P) cfg env from to cid System o).
Proof. unfold do_send, target_session, create_session, get_session, deposit_event. id_tac. Qed.

Lemma core_call_kept env o c : kept Q (apply_call (P:=P) cfg env o c).
Proof.
  destruct c; simpl;
    unfold send_message, mark_as_read, delete_message, mark_batch_as_read, mark_one,
      mark_session_as_read, archive_session, cleanup_old_messages, recall_message, remove_message,
      register_chat_user, update_chat_profile, set_user_status, update_privacy_settings,
      set_session_muted, set_session_pinned, get_message_or, put_message, unread_down,
      ensure_session_participant, get_session, move_cursor, drop_cursor, deposit_event;
    repeat first [apply mark_candidates_kept | apply do_send_kept | id_step; cbv zeta].
  - by intros p (Hn & Ha & Hs).
  - intros p (Hn & Ha & Hs). split_and!; by apply or_keep_fits.
  - by intros p (Hn & Ha & Hs).
  - by intros p (Hn & Ha & Hs).
Qed.

Lemma core_step_kept s s' : Q s -> step cfg s s' -> Q s'.
Proof.
  intros Hs [env o c r _ Hcall | env to notice r _ Hrun | p ->].
  - revert Hs Hcall. apply kept_transactional, core_call_kept.
  - revert Hs Hrun. unfold notify_system_best_effort, notify, deposit_event.
    apply kept_bind; [apply kept_attempt, do_send_kept | intros ?; id_tac].
  - by apply (Q_same s).
Qed.

End Property.

(** ** The directory is well formed *)

Lemma get_or_create_kept env who : kept directory_ok (get_or_create_chat_user_id (P:=P) cfg env who).
Proof.
  intros s r s' Hs [(i & _ & _ & ->) | [(_ & _ & ->) | (i & Hwho & _ & -> & Hnew & Hd)]]%get_or_create_cases.
  - done.
  - by apply (directory_same s).
  - eapply directory_insert; [exact Hs | exact Hwho | exact Hnew | apply generate_id_range | exact Hd].
Qed.

(** A profile rewritten within the bounds. *)
Lemma alter_profile_kept i f :
  (forall p, profile_ok p -> profile_ok (f p)) -> kept directory_ok (alter_profile (P:=P) i f).
Proof.
  intros Hf. apply kept_modify. intros s [D1 D2 D3 D4 D5]. split; simpl; try done.
  - intros j. rewrite lookup_alter_is_Some. apply D4.
  - intros j p [(_ & q & Hq & ->) | [_ Hp]]%lookup_alter_Some; [eapply Hf | ]; eauto.
Qed.

Lemma directory_reach p s : rtc (step cfg) (genesis p) s -> directory_ok s.
Proof.
  apply (rtc_invariant (step cfg) directory_ok).
  - apply core_step_kept; [apply directory_same | apply get_or_create_kept | apply alter_profile_kept].
  - split; simpl; intros *; rewrite ?lookup_empty; try done; by intros [? ?].
Qed.

(** ** An id that is used stays used *)

Lemma used_stays i s s' :
  is_Some (UsedChatUserIds s !! i) -> rtc (step cfg) s s' -> is_Some (UsedChatUserIds s' !! i).
Proof.
  intros Hi. revert Hi. apply (rtc_invariant (step cfg) (fun s => is_Some (UsedChatUserIds s !! i))).
  apply core_step_kept.
  - by intros s1 s2 [= -> _ _ _].
  - intros env who s1 r s2 Hs1 Hrun.
    apply get_or_create_cases in Hrun as [(j & _ & _ & ->) | [(_ & _ & ->) | (j & _ & _ & _ & _ & Hd)]];
      [done | done |].
    injection Hd as -> _ _ _. rewrite lookup_insert. by case_decide; eauto.
  - intros j f _. by apply kept_modify.
Qed.

(** Registering, in terms of giving out the id. *)
Lemma register_created env o nick s s' who :
  ensure_signed o = Some who -> dispatch cfg env o (RegisterChatUser nick) s = (Ok tt, s') ->
  AccountToChatUserId s !! who = None /\
  AccountToChatUserId s' !! who = Some (candidate cfg env 0 0) /\
  is_Some (UsedChatUserIds s' !! candidate cfg env 0 0).
Proof.
  intros Ho Hrun%transactional_Ok. simpl in Hrun. unfold register_chat_user, alter_profile in Hrun. m_inv.
  all: match goal with Hg : get_or_create_chat_user_id _ _ _ _ = _ |- _ =>
    apply get_or_create_cases in Hg as [(j & _ & ? & _) | [(_ & ? & _) | (j & Hw & Hj & Hi & _ & Hd)]];
      [congruence | congruence |] end.
  all: simplify_eq; injection Hd as Eu Ea _ _; simpl; rewrite ?Eu, ?Ea, !lookup_insert_eq; by eauto.
Qed.

(** * Properties *)

(** Account and chat id correspond one to one in every reachable state, an id
    has eleven digits, an id is used exactly when it has an owner and exactly
    when it has a profile, and the texts of a profile are within their bounds. *)
Theorem chat_ids_bijective p s a i :
  rtc (step cfg) (genesis p) s ->
  (get_chat_user_id_by_account s a = Some i <-> get_account_by_chat_user_id s i = Some a) /\
  (get_account_by_chat_user_id s i = Some a ->
   10 ^ 10 <= i < 10 ^ 11 /\ is_Some (UsedChatUserIds s !! i) /\
   exists pr, get_chat_user_profile s i = Some pr /\ profile_ok pr) /\
  (is_Some (get_chat_user_profile s i) -> is_Some (get_account_by_chat_user_id s i)).
Proof.
  intros Hs%directory_reach. split; [apply di_inverse, Hs |]. split.
  - intros Ha. assert (is_Some (ChatUserIdToAccount s !! i)) as Hi by eauto. split_and!.
    + pose proof (di_range s Hs i Hi). unfold MIN_ID, MAX_ID in *. lia.
    + pose proof (di_range s Hs i Hi). unfold MIN_ID, MAX_ID in *. lia.
    + by apply (di_used s Hs).
    + apply (di_profile s Hs) in Hi as [pr Hpr]. exists pr. split; [done |]. by eapply di_fields.
  - apply (di_profile s Hs).
Qed.

(** one new chat id per block. Once an account has registered in a block,
    whatever happens afterwards, the registration of any other account in the
    same block is refused: the retry number and the counter that are meant to
    separate the attempts only reach bytes of the seed the id does not depend
    on. *)
Theorem one_chat_id_per_block env o1 o2 a b nick1 nick2 s s1 s2 :
  ensure_signed o1 = Some a -> ensure_signed o2 = Some b ->
  dispatch cfg env o1 (RegisterChatUser nick1) s = (Ok tt, s1) ->
  rtc (step cfg) s1 s2 -> AccountToChatUserId s2 !! b = None ->
  dispatch cfg env o2 (RegisterChatUser nick2) s2 = (Err (Module ChatUserIdGenerationFailed), s2).
Proof.
  intros Ho1 Ho2 Hreg Hrun Hb.
  destruct (register_created _ _ _ _ _ _ Ho1 Hreg) as (_ & _ & Hused).
  pose proof (used_stays _ _ _ Hused Hrun) as Hused2.
  unfold dispatch, transactional. simpl. unfold register_chat_user. m_run.
  unfold get_or_create_chat_user_id, generate_chat_user_id. m_run. rewrite Hb. m_run.
  unfold bind at 1. by rewrite try_candidates_used.
Qed.

End Ids.

(** * The runtime's randomness *)

Module RuntimeRandomness.

(** [frame_system] keeps the hashes of recent blocks: [block_hash n] in the block
    of [env], and the hash of its parent. *)
Section Collective.
Context `{HostCrypto} (block_hash : Env -> Z -> bytes) (parent_hash : Env -> bytes).

Definition CollectiveFlipRandomness (env : Env) (subject : bytes) : bytes :=
  let blocks_to_collect := Z.to_nat (Z.min (sat_sub (block_number env) 1) 81) in
  let history := concat (map (fun i => block_hash env (sat_sub (block_number env) (Z.of_nat i)))
    (seq 1 blocks_to_collect)) in
  blake2_256 (subject ++ le_bytes 4 (block_number env) ++ history ++ parent_hash env).

End Collective.
End RuntimeRandomness.

(** * Concrete runs *)

(** The platform's values, with the randomness of the runtime over block hashes
    that spell the block number. *)
Definition id_config : Config := {|
  MaxCidLen := 96;
  MessageExpirationTime := 100;
  MessageRecallWindow := 20;
  Randomness := RuntimeRandomness.CollectiveFlipRandomness (fun _ n => le_bytes 32 n)
    (fun env => le_bytes 32 (block_number env - 1));
  MaxNicknameLength := 64;
  MaxSignatureLength := 256;
  SystemMessageOrigin o := if ensure_root o then Some 99%N else None;
  SystemAccount := 99%N;
|}.

Definition registered : State unit :=
  (dispatch id_config (test_env 7) (SignedBy 1) (RegisterChatUser (Some [65])) (genesis tt)).2.

Lemma registered_ok :
  dispatch id_config (test_env 7) (SignedBy 1) (RegisterChatUser (Some [65])) (genesis tt) =
    (Ok tt, registered).
Proof. by vm_compute. Qed.

Lemma registered_reach : rtc (step id_config) (genesis tt) registered.
Proof.
  apply rtc_once. apply (step_call id_config _ _ (test_env 7) (SignedBy 1) (RegisterChatUser (Some [65])) (Ok tt));
    [| exact registered_ok].
  unfold env_ok, u32_max, u64_max. simpl. lia.
Qed.

Lemma chat_ids_bijective_witness :
  let i := candidate id_config (test_env 7) 0 0 in
  get_account_by_chat_user_id registered i = Some 1%N /\
  (get_chat_user_id_by_account registered 1 = Some i <-> get_account_by_chat_user_id registered i = Some 1%N) /\
  (get_account_by_chat_user_id registered i = Some 1%N ->
   10 ^ 10 <= i < 10 ^ 11 /\ is_Some (UsedChatUserIds registered !! i) /\
   exists pr, get_chat_user_profile registered i = Some pr /\ profile_ok id_config pr) /\
  (is_Some (get_chat_user_profile registered i) -> is_Some (get_account_by_chat_user_id registered i)).
Proof.
  intros i. split; [by vm_compute |].
  apply (chat_ids_bijective id_config tt registered 1%N i registered_reach).
Defined.

(** The second registration of block 7 is refused, the same in block 8 is not. *)
Lemma one_chat_id_per_block_witness :
  dispatch id_config (test_env 7) (SignedBy 2) (RegisterChatUser None) registered =
    (Err (Module ChatUserIdGenerationFailed), registered) /\
  (dispatch id_config (test_env 8) (SignedBy 2) (RegisterChatUser None) registered).1 = Ok tt.
Proof.
  split; [| by vm_compute].
  apply (one_chat_id_per_block id_config (test_env 7) (SignedBy 1) (SignedBy 2) 1 2 (Some [65]) None
    (genesis tt) registered registered); [done | done | exact registered_ok | constructor | by vm_compute].
Defined.
