(* ===== verification/CoreReading.v ===== *)
(** The bounded scans of [pallet-chat-core] reach the end: repeating
    [mark_session_as_read] reads a whole session, and repeating
    [cleanup_old_messages] collects exactly what can be collected, each within a
    number of calls the size of the table gives. *)

From S2P Require Import Prelude Frame ChatCommon ChatCore CoreStore.
Import Core.

(** * Sweeps

    A call looks at [limit] more entries and keeps a cursor. The entries behind
    the cursor are settled when the sweep began at the front; a sweep that did
    not starts over at the end of the table. *)

Section Sweep.
Context {S : Type} (call : S -> S) (J behind finished : S -> Prop) (left : S -> nat).
Context (limit whole : nat).
Hypothesis sweep_inv : forall s, J s -> J (call s).
Hypothesis sweep_finished : forall s, J s -> finished s -> finished (call s).
Hypothesis sweep_settled : forall s, J s -> behind s ->
  finished (call s) \/ (behind (call s) /\ (left (call s) <= left s - limit)%nat /\ (0 < left s)%nat).
Hypothesis sweep_restart : forall s, J s ->
  finished (call s) \/ (behind (call s) /\ (left (call s) <= whole)%nat) \/
  ((left (call s) <= left s - limit)%nat /\ (0 < left s)%nat).

Lemma iter_call_S n s : Nat.iter (Datatypes.S n) call s = Nat.iter n call (call s).
Proof. induction n as [| n IH]; [done |]. simpl in *. by rewrite IH. Qed.

Lemma iter_call_inv n s : J s -> J (Nat.iter n call s).
Proof. induction n; simpl; auto. Qed.

Lemma iter_call_finished n s : J s -> finished s -> finished (Nat.iter n call s).
Proof. intros Hs Hf. induction n; simpl; auto using iter_call_inv. Qed.

Lemma settled_sweep k s :
  J s -> behind s -> (left s <= limit * k)%nat -> finished (Nat.iter (k + 1) call s).
Proof.
  revert s. induction k as [| k IH]; intros s Hs Hb Hle;
    rewrite Nat.add_1_r, iter_call_S;
    destruct (sweep_settled s Hs Hb) as [Hf | (Hb' & Hl & Hpos)].
  - by apply iter_call_finished; [apply sweep_inv |].
  - lia.
  - by apply iter_call_finished; [apply sweep_inv |].
  - rewrite <- (Nat.add_1_r k). apply IH; [by apply sweep_inv | done | lia].
Qed.

Lemma sweep_completes k s n :
  J s -> (left s <= limit * k)%nat -> (whole <= limit * k)%nat -> (2 * k + 2 <= n)%nat ->
  finished (Nat.iter n call s).
Proof.
  intros Hs Hle Hwhole Hn.
  assert (forall j s, J s -> (left s <= limit * j)%nat -> (j <= k)%nat ->
    finished (Nat.iter (j + k + 2) call s)) as Hrestart.
  { clear s Hs Hle. induction j as [| j IH]; intros s Hs Hle Hj.
    all: assert (forall t, J t -> behind t -> (left t <= whole)%nat -> finished (Nat.iter (k + 1) call t))
      as Hsettled by (intros t Ht Hb Hl; apply settled_sweep; [done | done | lia]).
    all: pose proof (sweep_inv s Hs) as Hs'.
    all: match goal with |- finished (Nat.iter ?m _ _) => replace m with (Datatypes.S (m - 1)) by lia end.
    all: rewrite iter_call_S.
    all: destruct (sweep_restart s Hs) as [Hf | [[Hb Hl] | [Hl Hpos]]];
      [by apply iter_call_finished | |].
    - replace (0 + k + 2 - 1)%nat with (k + 1)%nat by lia. by apply Hsettled.
    - lia.
    - replace (Datatypes.S j + k + 2 - 1)%nat with (Datatypes.S j + (k + 1))%nat by lia.
      rewrite Nat.iter_add. apply iter_call_finished; [by apply iter_call_inv | by apply Hsettled].
    - replace (Datatypes.S j + k + 2 - 1)%nat with (j + k + 2)%nat by lia.
      apply IH; [done | lia | lia]. }
  replace n with (n - (2 * k + 2) + (k + k + 2))%nat by lia. rewrite Nat.iter_add.
  apply iter_call_finished; [by apply iter_call_inv |]. by apply Hrestart.
Qed.
End Sweep.

(** Cutting a sorted list after its first [n] elements. *)
Section Cut.
Context {A : Type} (R : relation A) `{!Reflexive R, !AntiSymm (=) R}.

Lemma sorted_take_last l n x y :
  StronglySorted R l -> NoDup l -> last (take n l) = Some x -> y ∈ l -> (y ∈ take n l <-> R y x).
Proof.
  intros Hs Hnd Hx Hy. apply last_Some in Hx as [l1 Hl1].
  rewrite <- (take_drop n l), Hl1 in Hs, Hy, Hnd. rewrite Hl1.
  split.
  - intros [Hy1 | ->%list_elem_of_singleton]%elem_of_app; [| done].
    apply StronglySorted_app_1_l in Hs. eapply StronglySorted_app_1_elem_of; [exact Hs | done |].
    by apply list_elem_of_singleton.
  - intros Hyx. apply elem_of_app in Hy as [Hy | Hy]; [done |].
    assert (R x y) as Hxy.
    { eapply StronglySorted_app_1_elem_of; [exact Hs | | done]. apply elem_of_app. right. by left. }
    rewrite (anti_symm R y x Hyx Hxy). apply elem_of_app. right. by left.
Qed.

Lemma sorted_after_last l l' n x :
  StronglySorted R l -> NoDup l -> last (take n l) = Some x ->
  NoDup l' -> (forall y, y ∈ l' -> y ∈ l /\ ~ R y x) -> (length l' <= length l - n)%nat.
Proof.
  intros Hs Hnd Hx Hnd' Hl'. rewrite <- length_drop.
  apply submseteq_length, NoDup_submseteq; [done |]. intros y Hy.
  destruct (Hl' y Hy) as [Hin Hny]. rewrite <- (take_drop n l) in Hin.
  apply elem_of_app in Hin as [Hin |]; [| done]. exfalso. apply Hny.
  apply (sorted_take_last l n x y); [done.. | | done]. by apply subseteq_take in Hin.
Qed.
End Cut.

(** * Collecting *)

Section Collecting.
Context `{FrameSystem} {P : Type} `{SessionHashing} `{MessageKeys} `{!MessageKeysLaws}.
Context `{PrefixStorage} `{ChatPermissionChecker P} (cfg : Config).
Context (env : Env) (root : Origin) (Hroot : ensure_root root = true) (limit : Z).
Hypothesis limit_range : 0 < limit <= 1000.
Implicit Types (s : State P).

#[local] Instance key_le_refl : Reflexive key_le.
Proof. intros a. unfold key_le. lia. Qed.

#[local] Instance key_le_trans : Transitive key_le.
Proof. intros a b c. unfold key_le. lia. Qed.

#[local] Instance key_le_total : Total key_le.
Proof. intros a b. unfold key_le. lia. Qed.

#[local] Instance key_le_anti_symm : AntiSymm (=) key_le.
Proof. intros a b Hab Hba. unfold key_le in *. apply hashed_key_for_inj. lia. Qed.

(** What a sweep from the front leaves of the messages. *)
Definition kept_messages (ms : gmap Z MessageMeta) : gmap Z MessageMeta :=
  filter (fun im => collectable cfg env im.2 = false) ms.

Definition sweep_call s : State P := (dispatch cfg env root (CleanupOldMessages limit) s).2.

(** The entries one call looks at. *)
Definition scanned s : list Z := take (Z.to_nat limit) (messages_from s (LastCleanupCursor s)).

Lemma messages_from_elem s cursor i :
  i ∈ messages_from s cursor <->
  is_Some (Messages s !! i) /\ (forall c, cursor = Some c -> ~ key_le i c).
Proof.
  assert (i ∈ merge_sort key_le (map_to_list (Messages s)).*1 <-> is_Some (Messages s !! i)) as Hk.
  { rewrite merge_sort_Permutation, list_elem_of_fmap. split.
    - intros ([j m] & -> & Hj%elem_of_map_to_list). eauto.
    - intros [m Hm]. exists (i, m). by rewrite elem_of_map_to_list. }
  unfold messages_from, key_le. destruct cursor as [c |].
  - rewrite list_elem_of_filter, Hk. split.
    + intros [Hlt Hi]. split; [done |]. intros c' [= <-]. lia.
    + intros [Hi Hc]. split; [specialize (Hc c eq_refl); lia | done].
  - rewrite Hk. by split; [| intros [? _]].
Qed.

Lemma messages_from_sorted s cursor :
  StronglySorted key_le (messages_from s cursor) /\ NoDup (messages_from s cursor).
Proof.
  assert (NoDup (merge_sort key_le (map_to_list (Messages s)).*1)) as Hnd
    by (rewrite merge_sort_Permutation; apply NoDup_fst_map_to_list).
  pose proof (StronglySorted_merge_sort key_le (map_to_list (Messages s)).*1) as Hs.
  unfold messages_from. destruct cursor as [c |]; [| by split; [apply Hs |]].
  split; [| by apply NoDup_filter].
  induction Hs as [| x l Hs IH Hx]; [constructor |]. apply NoDup_cons in Hnd as [_ Hnd].
  rewrite filter_cons. case_decide; [| by apply IH]. constructor; [by apply IH |].
  apply Forall_forall. intros y [_ Hy]%list_elem_of_filter. by eapply Forall_forall in Hx.
Qed.

Lemma remove_loop_messages rs s s' r i :
  for_each rs (fun x => remove_message (P:=P) x.1 x.2) s = (r, s') ->
  Messages s' !! i = if decide (i ∈ rs.*1) then None else Messages s !! i.
Proof.
  revert s. induction rs as [| x rs IH]; intros s.
  - intros [= <- <-]. rewrite decide_False; [done |]. by intros Hi%elem_of_nil.
  - cbn [for_each]. unfold remove_message, bind at 1, modify. simpl. intros ->%IH.
    simpl.
    change (list_fmap _ _ fst rs) with rs.*1. rewrite lookup_delete. destruct (decide (i ∈ rs.*1)) as [Hin | Hin].
    + rewrite decide_True; [done |]. by right.
    + case_decide as Hx; [subst; rewrite decide_True; [done | by left] |].
      rewrite decide_False; [done |]. by intros [-> | ?]%elem_of_cons.
Qed.

(** One call: it drops what can be collected among the entries it looks at, and
    moves the cursor to the last of them, or back to the front when the table
    ended before the budget did. *)
Lemma sweep_call_effect s :
  (forall i, Messages (sweep_call s) !! i =
     match Messages s !! i with
     | Some m => if decide (i ∈ scanned s /\ collectable cfg env m = true) then None else Some m
     | None => None
     end) /\
  LastCleanupCursor (sweep_call s) =
    (if decide (Z.of_nat (length (scanned s)) >= limit) then last (scanned s) else None).
Proof.
  unfold sweep_call, dispatch, transactional. simpl. unfold cleanup_old_messages, deposit_event. m_run.
  fold (scanned s).
  match goal with |- context [for_each ?l ?b] =>
    destruct (total_for_each l b ltac:(intros ?; unfold remove_message; total_tac) s) as ([] & s1 & Hl);
    set (rs := l) in * end.
  rewrite (bind_eval _ _ _ _ _ Hl).
  assert (forall i, Messages s1 !! i =
     match Messages s !! i with
     | Some m => if decide (i ∈ scanned s /\ collectable cfg env m = true) then None else Some m
     | None => None
     end) as Hm.
  { intros i. rewrite (remove_loop_messages _ _ _ _ _ Hl).
    assert (i ∈ rs.*1 <-> exists m, i ∈ scanned s /\ Messages s !! i = Some m /\ collectable cfg env m = true) as Hrs.
    { unfold rs. rewrite list_elem_of_fmap. split.
      - intros ([j sid] & -> & (k & Hk & Hj)%list_elem_of_omap). simpl.
        destruct (Messages s !! k) as [m |] eqn:Hm; [| done].
        destruct (collectable cfg env m) eqn:Hc; [| done]. simplify_eq. eauto.
      - intros (m & Hi & Hm & Hc). exists (i, session_id m). split; [done |].
        apply list_elem_of_omap. exists i. by rewrite Hm, Hc. }
    destruct (Messages s !! i) as [m |] eqn:Hm; [| by case_decide].
    case_decide as Hd; rewrite Hrs in Hd.
    - rewrite decide_True; [done |]. destruct Hd as (m' & ? & [= <-] & ?). done.
    - rewrite decide_False; [done |]. intros [? ?]. apply Hd. eauto. }
  case_decide; simpl; split; done.
Qed.

Definition behind_cursor s : Prop := forall i m,
  Messages s !! i = Some m -> i ∉ messages_from s (LastCleanupCursor s) -> collectable cfg env m = false.

Definition all_collected s : Prop := forall i m, Messages s !! i = Some m -> collectable cfg env m = false.

Definition ahead s : nat := length (messages_from s (LastCleanupCursor s)).

Lemma sweep_call_kept s : kept_messages (Messages (sweep_call s)) = kept_messages (Messages s).
Proof.
  apply map_eq. intros i. apply option_eq. intros m. unfold kept_messages.
  rewrite !map_lookup_filter_Some. simpl. destruct (sweep_call_effect s) as [-> _].
  destruct (Messages s !! i) as [m' |]; [| done]. case_decide as Hd; [| done].
  split; [by intros [? _] |]. intros [[= ->] Hc]. destruct Hd. congruence.
Qed.

Lemma sweep_call_subset s i m : Messages (sweep_call s) !! i = Some m ->
  Messages s !! i = Some m /\ (i ∈ scanned s -> collectable cfg env m = false).
Proof.
  destruct (sweep_call_effect s) as [-> _]. destruct (Messages s !! i) as [m' |]; [| done].
  case_decide as Hd; [done |]. intros [= ->]. split; [done |]. intros Hi.
  apply not_true_iff_false. tauto.
Qed.

(** The cursor moved on: what is left comes after the entries looked at. *)
Lemma sweep_call_ahead s x :
  LastCleanupCursor (sweep_call s) = Some x -> last (scanned s) = Some x ->
  (ahead (sweep_call s) <= ahead s - Z.to_nat limit)%nat /\ (0 < ahead s)%nat.
Proof.
  intros Hc Hx. destruct (messages_from_sorted s (LastCleanupCursor s)) as [Hs Hnd].
  unfold ahead. rewrite Hc. split.
  - apply (sorted_after_last key_le _ _ _ x Hs Hnd Hx); [apply messages_from_sorted |].
    intros y Hy. apply messages_from_elem in Hy as [[m Hm] Hyx]. split; [| by apply Hyx].
    apply sweep_call_subset in Hm as [Hm _]. apply messages_from_elem. split; [eauto |].
    intros c Hcur Hyc. apply (Hyx x eq_refl). etrans; [exact Hyc |].
    assert (x ∈ scanned s) as Hin by (apply last_Some in Hx as [l ->]; apply elem_of_app; right; by left).
    apply subseteq_take, messages_from_elem in Hin as [_ Hin].
    destruct (key_le_total c x) as [? | Hxc]; [done |]. by destruct (Hin c Hcur).
  - unfold scanned in Hx. destruct (messages_from s _); [by rewrite take_nil in Hx | simpl; lia].
Qed.

Lemma scanned_short s :
  ~ Z.of_nat (length (scanned s)) >= limit -> scanned s = messages_from s (LastCleanupCursor s).
Proof. unfold scanned. rewrite length_take. intros Hlt. apply take_ge. lia. Qed.

Lemma scanned_last s :
  Z.of_nat (length (scanned s)) >= limit -> exists x, last (scanned s) = Some x.
Proof. intros Hge. destruct (scanned s) as [| y l] using rev_ind; [simpl in Hge; lia |]. eexists. apply last_snoc. Qed.

Lemma collecting_settled s : behind_cursor s ->
  all_collected (sweep_call s) \/
  (behind_cursor (sweep_call s) /\ (ahead (sweep_call s) <= ahead s - Z.to_nat limit)%nat /\ (0 < ahead s)%nat).
Proof.
  intros Hb. destruct (sweep_call_effect s) as [_ Hc]. destruct (messages_from_sorted s (LastCleanupCursor s)) as [Hs Hnd].
  case_decide as Hge.
  - right. destruct (scanned_last s Hge) as [x Hx]. rewrite Hx in Hc.
    split; [| by eapply sweep_call_ahead].
    intros i m Hm Hi. destruct (sweep_call_subset s i m Hm) as [Hm0 Hscan].
    destruct (decide (i ∈ messages_from s (LastCleanupCursor s))) as [Hin | Hout]; [| by eapply Hb].
    apply Hscan. apply (sorted_take_last key_le _ _ x i Hs Hnd Hx Hin).
    destruct (decide (key_le i x)) as [| Hn]; [done |]. exfalso. apply Hi, messages_from_elem.
    split; [eauto |]. rewrite Hc. by intros c [= <-].
  - left. intros i m Hm. apply sweep_call_subset in Hm as [Hm Hscan]. rewrite (scanned_short s Hge) in Hscan.
    destruct (decide (i ∈ messages_from s (LastCleanupCursor s))); [auto | by eapply Hb].
Qed.

Lemma collecting_restart whole s : (size (Messages s) <= whole)%nat ->
  all_collected (sweep_call s) \/
  (behind_cursor (sweep_call s) /\ (ahead (sweep_call s) <= whole)%nat) \/
  ((ahead (sweep_call s) <= ahead s - Z.to_nat limit)%nat /\ (0 < ahead s)%nat).
Proof.
  intros Hsize. destruct (sweep_call_effect s) as [_ Hc]. case_decide as Hge; right.
  - right. destruct (scanned_last s Hge) as [x Hx]. rewrite Hx in Hc. by eapply sweep_call_ahead.
  - left. split.
    + intros i m Hm Hi. exfalso. apply Hi. rewrite Hc. apply messages_from_elem. by eauto.
    + unfold ahead. rewrite Hc. unfold messages_from.
      rewrite merge_sort_Permutation, length_fmap, length_map_to_list. etrans; [| exact Hsize].
      apply map_subseteq_size, map_subseteq_spec. intros i m Hm. by apply sweep_call_subset in Hm as [? _].
Qed.

(** C38: garbage collection finishes. With [N] messages stored, calling
    [cleanup_old_messages] with a budget of [limit] entries [2 * k + 2] times,
    where [k] is at least [N / limit], leaves exactly the messages that cannot be
    collected, wherever the cursor stood at the start. *)
Theorem collecting_completes s k n :
  Z.of_nat (size (Messages s)) <= limit * Z.of_nat k -> (2 * k + 2 <= n)%nat ->
  Messages (Nat.iter n sweep_call s) = kept_messages (Messages s).
Proof.
  intros Hsize Hn.
  set (J := fun t : State P => kept_messages (Messages t) = kept_messages (Messages s) /\
    (size (Messages t) <= size (Messages s))%nat).
  assert (forall t, (size (Messages (sweep_call t)) <= size (Messages t))%nat) as Hshrink.
  { intros t. apply map_subseteq_size, map_subseteq_spec. intros i m Hm.
    by apply sweep_call_subset in Hm as [? _]. }
  assert (forall t, J t -> J (sweep_call t)) as Hinv.
  { intros t [Hk Ht]. split; [by rewrite sweep_call_kept | by etrans; [apply Hshrink |]]. }
  assert (J s) as Hs by done.
  assert (size (Messages s) <= Z.to_nat limit * k)%nat as Hbound
    by (apply Nat2Z.inj_le; rewrite Nat2Z.inj_mul, Z2Nat.id by lia; exact Hsize).
  assert (all_collected (Nat.iter n sweep_call s)) as Hdone.
  { apply (sweep_completes sweep_call J behind_cursor all_collected ahead (Z.to_nat limit)
      (size (Messages s))) with k; [exact Hinv | | | | exact Hs | | exact Hbound | exact Hn].
    - intros t _ Ht i m [Hm _]%sweep_call_subset. by eapply Ht.
    - intros t _. apply collecting_settled.
    - intros t [_ Ht]. by apply collecting_restart.
    - etrans; [| exact Hbound]. unfold ahead.
      etrans; [| apply Nat.eq_le_incl, length_map_to_list].
      rewrite <- (length_fmap fst). apply submseteq_length, NoDup_submseteq; [apply messages_from_sorted |].
      intros i [[m Hm] _]%messages_from_elem. apply list_elem_of_fmap. exists (i, m).
      by rewrite elem_of_map_to_list. }
  destruct (iter_call_inv sweep_call J Hinv n s Hs) as [<- _].
  apply map_eq. intros i. apply option_eq. intros m. unfold kept_messages.
  rewrite map_lookup_filter_Some. split; [| by intros [? _]]. intros Hm. split; [done | by eapply Hdone].
Qed.

End Collecting.

(** * Reading a session *)

Section Reading.
Context `{FrameSystem} {P : Type} `{SessionHashing} `{!SessionHashingLaws} `{MessageKeys}.
Context `{PrefixStorage} `{!PrefixStorageLaws} `{ChatPermissionChecker P} (cfg : Config).
Context (env : Env) (origin : Origin) (who : AccountId) (sid : Hash).
Hypothesis signed : ensure_signed origin = Some who.
Implicit Types (s : State P).

#[local] Instance ascending_refl : Reflexive Z.le.
Proof. intros a. lia. Qed.

#[local] Instance ascending_trans : Transitive Z.le.
Proof. intros a b c. lia. Qed.

#[local] Instance ascending_total : Total Z.le.
Proof. intros a b. lia. Qed.

#[local] Instance ascending_anti_symm : AntiSymm (=) Z.le.
Proof. intros a b. lia. Qed.

(** The messages of the session [who] has not marked as read. *)
Definition unread_for (_ : Z) (m : MessageMeta) : Z :=
  if decide (receiver m = who /\ session_id m = sid /\ is_read m = false) then 1 else 0.

Definition unread_messages s : Z := msum unread_for (Messages s).

Definition read_call s : State P := (dispatch cfg env origin (MarkSessionAsRead sid) s).2.

Definition looked_at s : list Z := read_candidates s sid (dget (SessionReadCursor s) who sid).

(** The messages of the session after the cursor. *)
Definition to_look_at s : list Z :=
  ascending (filter (after_cursor (dget (SessionReadCursor s) who sid))
    (iter_keys (prefix (SessionMessages s) sid))).

(** [m] after a loop over [l]. *)
Definition marked (l : list Z) (i : Z) (m : MessageMeta) : MessageMeta :=
  if decide (i ∈ l /\ receiver m = who) then read m else m.

Lemma read_id m : is_read m = true -> read m = m.
Proof. intros Hr. unfold read. destruct m. simpl in *. by rewrite Hr. Qed.

Lemma unread_for_read i m : unread_for i (read m) = 0.
Proof. unfold unread_for. rewrite decide_False; [done |]. by intros (_ & _ & ?). Qed.

Lemma unread_for_bounds i m : 0 <= unread_for i m <= 1.
Proof. unfold unread_for. case_decide; lia. Qed.

Lemma unread_nonneg s : 0 <= unread_messages s.
Proof. apply msum_nonneg. intros i m _. apply unread_for_bounds. Qed.

Lemma unread_zero s : unread_messages s = 0 <-> forall i m, Messages s !! i = Some m ->
  session_id m = sid -> receiver m = who -> is_read m = true.
Proof.
  split.
  - intros Hz i m Hm Hsid Hw. apply not_false_iff_true. intros Hr.
    assert (1 <= unread_messages s); [| lia].
    replace 1 with (unread_for i m) by (unfold unread_for; by rewrite decide_True).
    apply (msum_elem_le unread_for (Messages s) i m); [| done]. intros j m' _. apply unread_for_bounds.
  - intros Hall. unfold unread_messages. rewrite (msum_ext _ (fun _ _ => 0)).
    + induction (Messages s) as [| i m ms Hi IH] using map_ind; [apply msum_empty |].
      rewrite msum_insert_new by done. rewrite IH; [done |]. intros j m' Hj. apply (Hall j).
      rewrite lookup_insert_ne; [done | congruence].
    + intros i m Hm. unfold unread_for. rewrite decide_False; [done |].
      intros (Hw & Hsid & Hr). rewrite (Hall i m Hm Hsid Hw) in Hr. done.
Qed.

(** The loop marks the candidates addressed to [who] and counts those it has
    changed. *)
Lemma mark_candidates_effect l k s :
  (forall i m, i ∈ l -> Messages s !! i = Some m -> session_id m = sid) ->
  0 <= k -> k + Z.of_nat (length l) <= u32_max ->
  exists k' s', mark_candidates who l k s = (Ok k', s') /\ s' = s <| Messages := Messages s' |> /\
    (forall i, Messages s' !! i = marked l i <$> Messages s !! i) /\
    k' = k + (unread_messages s - unread_messages s').
Proof.
  revert k s. induction l as [| i l IH]; intros k s Hsid Hk Hlen.
  - exists k, s. split_and!; [done | by destruct s | | lia]. intros i.
    destruct (Messages s !! i) as [m |]; [| done]. symmetry. apply (f_equal Some). unfold marked.
    rewrite decide_False; [done |]. by intros [?%elem_of_nil _].
  - simpl in Hlen. cbn [mark_candidates]. unfold put_message.
    assert ((exists m, Messages s !! i = Some m /\ receiver m = who /\ is_read m = false) \/
      ~ (exists m, Messages s !! i = Some m /\ receiver m = who /\ is_read m = false))
      as [(m & Hm & Hw & Hr) | Hno].
    { destruct (Messages s !! i) as [m |]; [| right; by intros (? & ? & _)].
      destruct (decide (receiver m = who /\ is_read m = false)); [left; eauto | right].
      by intros (? & [= <-] & ?). }
    + m_run. rewrite Hm, decide_True by done. m_run. rewrite sat_add_exact by lia.
      change (<[i := m <| is_read := true |>]>) with (<[i := read m]> : gmap Z MessageMeta -> _).
      set (s1 := s <| Messages ::= <[i := read m]> |>).
      destruct (IH (k + 1) s1) as (k' & s' & Hrun & Hs' & Hms & Hk'); [| lia | lia |].
      { intros j m' Hj Hm'. unfold s1 in Hm'. simpl in Hm'.
        apply lookup_insert_Some in Hm' as [[<- <-] | [_ Hm']];
          [change (session_id m = sid); apply (Hsid i); [by left | done] |].
        eapply Hsid; [by right | done]. }
      exists k', s'. split_and!; [done | by rewrite Hs' | |].
      * intros j. rewrite Hms. unfold s1. simpl. rewrite lookup_insert. case_decide as Hij.
        -- subst j. rewrite Hm. simpl. f_equal. unfold marked. simpl. rewrite (decide_True (P:=i ∈ i :: l /\ _)).
           ++ case_decide; [by apply read_id | done].
           ++ split; [by left | done].
        -- destruct (Messages s !! j) as [mj |]; [| done]. simpl. f_equal. unfold marked.
           assert (j ∈ i :: l <-> j ∈ l) as Ej by (rewrite elem_of_cons; split; [intros [-> |] |]; tauto).
           repeat case_decide; tauto.
      * assert (unread_messages s1 = unread_messages s - 1) as E1; [| lia].
        unfold unread_messages, s1. simpl. rewrite msum_insert, Hm. simpl.
        rewrite unread_for_read.
        unfold unread_for at 2. rewrite decide_True; [lia |]. split_and!; [done | | done].
        apply (Hsid i); [by left | done].
    + destruct (IH k s) as (k' & s' & Hrun & Hs' & Hms & Hk'); [| lia | lia |].
      { intros j m' Hj. apply Hsid. by right. }
      exists k', s'. split_and!; [| done | | done].
      * m_run. destruct (Messages s !! i) as [m |] eqn:Hm; [| done].
        rewrite decide_False; [done |]. intros [? ?]. apply Hno. by exists m.
      * intros j. rewrite Hms. destruct (Messages s !! j) as [mj |] eqn:Hj; [| done]. simpl. f_equal.
        unfold marked. destruct (decide (j ∈ l /\ _)) as [Hd | Hd].
        -- rewrite decide_True; [done |]. destruct Hd. split; [by right | done].
        -- case_decide as Hd'; [| done]. destruct Hd' as [[-> | ?]%elem_of_cons Hw]; [| tauto].
           symmetry. apply read_id. apply not_false_iff_true. intros Hr. apply Hno. eauto.
Qed.

(** A reader of the session whose counter is exact. *)
Record reading s : Prop := {
  rd_store : store_ok cfg s;
  rd_member : exists se, Sessions s !! sid = Some se /\ who ∈ participants se;
  rd_exact : unread_of s who sid = unread_messages s;
}.

(** One call. *)
Lemma read_call_effect s : reading s ->
  dispatch cfg env origin (MarkSessionAsRead sid) s = (Ok tt, read_call s) /\
  (forall i, Messages (read_call s) !! i = marked (looked_at s) i <$> Messages s !! i) /\
  SessionMessages (read_call s) = SessionMessages s /\ Sessions (read_call s) = Sessions s /\
  unread_of (read_call s) who sid = unread_messages (read_call s) /\
  dget (SessionReadCursor (read_call s)) who sid =
    match last (looked_at s) with
    | None => if decide (unread_messages (read_call s) > 0) then None
              else dget (SessionReadCursor s) who sid
    | Some x => if decide (unread_messages (read_call s) = 0) then None else Some x
    end.
Proof.
  intros [Hst (se & Hse & Hmem) Hex].
  destruct (mark_candidates_effect (looked_at s) 0 s) as (k & s1 & Hmark & Hs1 & Hms & Hk).
  { intros i m. by apply (read_candidates_session cfg). }
  { done. }
  { pose proof (read_candidates_length s sid (dget (SessionReadCursor s) who sid)).
    unfold looked_at, MAX_SESSION_READ_SCAN, u32_max in *. lia. }
  pose proof (unread_nonneg s1) as Hnn.
  assert ((UnreadCount s1, SessionMessages s1, Sessions s1, SessionReadCursor s1) =
    (UnreadCount s, SessionMessages s, Sessions s, SessionReadCursor s)) as [= Ec Ei Es Er]
    by (by rewrite Hs1).
  set (s2 := s1 <| UnreadCount ::= fun m => <[(who, sid) := sat_sub (get0 m (who, sid)) k]> m |>).
  assert (unread_of s2 who sid = unread_messages s1) as Hun.
  { unfold s2, unread_of in *. simpl. rewrite get0_insert, decide_True by done.
    rewrite Ec, sat_sub_exact; lia. }
  assert (exists s3, move_cursor who sid (looked_at s) s2 = (Ok tt, s3) /\
    s3 = s2 <| SessionReadCursor := SessionReadCursor s3 |> /\
    dget (SessionReadCursor s3) who sid =
      match last (looked_at s) with
      | None => if decide (unread_messages s1 > 0) then None else dget (SessionReadCursor s) who sid
      | Some x => if decide (unread_messages s1 = 0) then None else Some x
      end) as (s3 & Hmove & Hs3 & Hcur).
  { rewrite <- Hun. unfold move_cursor, drop_cursor. destruct (last (looked_at s)) as [x |]; m_run.
    - change (unread_of (s2 <| SessionReadCursor ::= dset who sid x |>) who sid) with (unread_of s2 who sid).
      case_decide; eexists; (split; [reflexivity |]); (split; [done |]); simpl.
      + rewrite dget_drem, decide_True by done. done.
      + rewrite dget_dset, decide_True by done. done.
    - case_decide; eexists; (split; [reflexivity |]); (split; [by destruct s2 |]); simpl.
      + rewrite dget_drem, decide_True by done. done.
      + unfold s2. simpl. by rewrite Er. }
  set (s4 := s3 <| events ::= fun l => l ++ [SessionMarkedAsRead sid who] |>).
  assert (dispatch cfg env origin (MarkSessionAsRead sid) s = (Ok tt, s4)) as Hrun.
  { apply transactional_run. simpl.
    unfold mark_session_as_read, ensure_session_participant, get_session, unread_down, deposit_event.
    m_run. fold (looked_at s). rewrite (bind_eval _ _ _ _ _ Hmark). m_run.
    fold s2. by rewrite (bind_eval _ _ _ _ _ Hmove). }
  assert (read_call s = s4) as E by (unfold read_call; by rewrite Hrun).
  rewrite E. split; [exact Hrun |]. clear E Hrun Hmove.
  assert (unread_messages s4 = unread_messages s1) as Eu by (unfold s4; rewrite Hs3; done).
  rewrite Eu. unfold s4. simpl. rewrite Hcur. split_and!; try (rewrite Hs3; unfold s2; simpl).
  - exact Hms.
  - exact Ei.
  - exact Es.
  - exact Hun.
  - done.
Qed.

Definition read_behind s : Prop := forall i m,
  Messages s !! i = Some m -> session_id m = sid -> receiver m = who -> i ∉ to_look_at s -> is_read m = true.

Definition all_read s : Prop := forall i m,
  Messages s !! i = Some m -> session_id m = sid -> receiver m = who -> is_read m = true.

Lemma to_look_at_elem s i : i ∈ to_look_at s <->
  is_Some (dget (SessionMessages s) sid i) /\
  (forall c, dget (SessionReadCursor s) who sid = Some c -> ~ i <= c).
Proof.
  unfold to_look_at, ascending. rewrite merge_sort_Permutation, list_elem_of_filter.
  rewrite <- iter_keys_elem. unfold after_cursor. fold (dget (SessionMessages s) sid i).
  destruct (dget (SessionReadCursor s) who sid) as [c |].
  - split; [intros [Hc Hi]; split; [done | intros c' [= <-]; lia] |].
    intros [Hi Hc]. specialize (Hc c eq_refl). split; [lia | done].
  - by split; [intros [_ ?] | intros [? _]].
Qed.

Lemma to_look_at_sorted s : StronglySorted Z.le (to_look_at s) /\ NoDup (to_look_at s).
Proof.
  unfold to_look_at, ascending. split; [apply (StronglySorted_merge_sort Z.le) |].
  rewrite merge_sort_Permutation. apply NoDup_filter. rewrite iter_keys_spec. apply NoDup_fst_map_to_list.
Qed.

Lemma looked_at_take s : looked_at s = take MAX_SESSION_READ_SCAN (to_look_at s).
Proof. done. Qed.

Lemma reading_call s : reading s -> reading (read_call s).
Proof.
  intros Hs. destruct (read_call_effect s Hs) as (Hrun & _ & _ & Hse & Hex & _).
  destruct Hs as [Hst Hmem _]. split; [| by rewrite Hse | done].
  apply (mark_session_store cfg origin sid s); [done |]. by apply transactional_Ok in Hrun.
Qed.

(** What a call does to a message of the reader. *)
Lemma read_call_message s i m' : reading s ->
  Messages (read_call s) !! i = Some m' -> session_id m' = sid -> receiver m' = who ->
  exists m, Messages s !! i = Some m /\ session_id m = sid /\ receiver m = who /\
    (is_read m = true -> is_read m' = true) /\ (i ∈ looked_at s -> is_read m' = true).
Proof.
  intros Hs Hm. destruct (read_call_effect s Hs) as (_ & Hms & _). rewrite Hms in Hm.
  destruct (Messages s !! i) as [m |]; [| done]. injection Hm as <-. unfold marked.
  case_decide as Hd; intros Hsid Hw; exists m; split_and!; try done. intros Hi. tauto.
Qed.

Lemma all_read_call s : reading s -> all_read s -> all_read (read_call s).
Proof.
  intros Hs Hall i m' Hm Hsid Hw.
  destruct (read_call_message s i m' Hs Hm Hsid Hw) as (m & Hm0 & Hsid0 & Hw0 & Hr & _).
  by apply Hr, (Hall i).
Qed.

(** With the counter exact, nothing is unread exactly when everything is read. *)
Lemma all_read_zero s : all_read s <-> unread_messages s = 0.
Proof. unfold all_read. rewrite unread_zero. split; intros Hall i m; apply (Hall i m). Qed.

(** The call ended at [x]: what is left comes after the entries looked at. *)
Lemma read_call_ahead s x : reading s ->
  last (looked_at s) = Some x -> dget (SessionReadCursor (read_call s)) who sid = Some x ->
  (length (to_look_at (read_call s)) <= length (to_look_at s) - MAX_SESSION_READ_SCAN)%nat /\
  (0 < length (to_look_at s))%nat.
Proof.
  intros Hs Hx Hc. destruct (to_look_at_sorted s) as [Hsort Hnd]. rewrite looked_at_take in Hx. split.
  - apply (sorted_after_last Z.le _ _ _ x Hsort Hnd Hx); [apply to_look_at_sorted |].
    intros y [Hin Hyx]%to_look_at_elem.
    destruct (read_call_effect s Hs) as (_ & _ & Hidx & _). rewrite Hidx in Hin.
    specialize (Hyx x Hc). split; [| done]. apply to_look_at_elem. split; [done |].
    intros c Hcur Hyc. apply Hyx. etrans; [exact Hyc |].
    assert (x ∈ take MAX_SESSION_READ_SCAN (to_look_at s)) as Hin'
      by (apply last_Some in Hx as [l ->]; apply elem_of_app; right; by left).
    apply subseteq_take, to_look_at_elem in Hin' as [_ Hxc]. specialize (Hxc c Hcur). lia.
  - destruct (to_look_at s); [by rewrite take_nil in Hx | simpl; lia].
Qed.

(** The last entry looked at settles everything up to it. *)
Lemma read_behind_call s x : reading s -> read_behind s ->
  last (looked_at s) = Some x -> dget (SessionReadCursor (read_call s)) who sid = Some x ->
  read_behind (read_call s).
Proof.
  intros Hs Hb Hx Hc i m' Hm Hsid Hw Hi.
  destruct (read_call_message s i m' Hs Hm Hsid Hw) as (m & Hm0 & Hsid0 & Hw0 & Hr & Hlook).
  destruct (to_look_at_sorted s) as [Hsort Hnd].
  destruct (decide (i ∈ to_look_at s)) as [Hin | Hout]; [| by apply Hr, (Hb i)].
  apply Hlook. rewrite looked_at_take in *.
  apply (sorted_take_last Z.le _ _ x i Hsort Hnd Hx Hin).
  destruct (decide (i <= x)) as [| Hn]; [done |]. exfalso. apply Hi, to_look_at_elem.
  destruct (read_call_effect s Hs) as (_ & _ & -> & _). apply to_look_at_elem in Hin as [Hin _].
  split; [done |]. rewrite Hc. by intros c [= <-].
Qed.

Lemma reading_settled s : reading s -> read_behind s ->
  all_read (read_call s) \/
  (read_behind (read_call s) /\
   (length (to_look_at (read_call s)) <= length (to_look_at s) - MAX_SESSION_READ_SCAN)%nat /\
   (0 < length (to_look_at s))%nat).
Proof.
  intros Hs Hb. destruct (read_call_effect s Hs) as (_ & _ & _ & _ & _ & Hc).
  destruct (last (looked_at s)) as [x |] eqn:Hx.
  - case_decide as Hz; [left; by apply all_read_zero | right].
    split; [by eapply read_behind_call | by eapply read_call_ahead].
  - left. intros i m' Hm Hsid Hw.
    destruct (read_call_message s i m' Hs Hm Hsid Hw) as (m & Hm0 & Hsid0 & Hw0 & Hr & _).
    apply Hr, (Hb i); [done.. |]. apply last_None in Hx. rewrite looked_at_take in Hx.
    destruct (to_look_at s); [apply not_elem_of_nil | done].
Qed.

Lemma reading_restart whole s : reading s -> (size (prefix (SessionMessages s) sid) <= whole)%nat ->
  all_read (read_call s) \/
  (read_behind (read_call s) /\ (length (to_look_at (read_call s)) <= whole)%nat) \/
  ((length (to_look_at (read_call s)) <= length (to_look_at s) - MAX_SESSION_READ_SCAN)%nat /\
   (0 < length (to_look_at s))%nat).
Proof.
  intros Hs Hwhole. destruct (read_call_effect s Hs) as (_ & _ & Hidx & Hses & Hex & Hc).
  destruct (last (looked_at s)) as [x |] eqn:Hx.
  - case_decide as Hz; [left; by apply all_read_zero | right; right]. by eapply read_call_ahead.
  - case_decide as Hz; [right; left | left].
    + split.
      * intros i m' Hm Hsid Hw Hi. exfalso. apply Hi, to_look_at_elem. rewrite Hc. split; [| done].
        apply (so_index cfg _ (rd_store _ (reading_call s Hs))). by exists m'.
      * unfold to_look_at, ascending. rewrite merge_sort_Permutation, Hc. simpl.
        etrans; [apply length_filter |]. rewrite iter_keys_spec, length_fmap, length_map_to_list.
        by rewrite Hidx.
    + apply all_read_zero. pose proof (unread_nonneg (read_call s)). lia.
Qed.

(** C37: a session can be read to its end. For a participant whose unread counter
    counts exactly the messages not marked as read, with [N] messages in the
    session, [2 * k + 2] calls of [mark_session_as_read], where [k] is at least
    [N / 512], mark every message to the participant as read and bring the
    counter to zero, wherever the cursor stood at the start. *)
Theorem session_reads_complete s k n :
  reading s -> (size (prefix (SessionMessages s) sid) <= 512 * k)%nat -> (2 * k + 2 <= n)%nat ->
  all_read (Nat.iter n read_call s) /\ unread_of (Nat.iter n read_call s) who sid = 0.
Proof.
  intros Hs Hsize Hn.
  set (J := fun t => reading t /\ SessionMessages t = SessionMessages s).
  assert (forall t, J t -> J (read_call t)) as Hinv.
  { intros t [Ht Hi]. split; [by apply reading_call |].
    destruct (read_call_effect t Ht) as (_ & _ & -> & _). done. }
  assert (J s) as HJ by done.
  assert (all_read (Nat.iter n read_call s)) as Hdone.
  { apply (sweep_completes read_call J read_behind all_read (fun t => length (to_look_at t))
      MAX_SESSION_READ_SCAN (size (prefix (SessionMessages s) sid))) with k;
      [exact Hinv | | | | exact HJ | | exact Hsize | exact Hn].
    - intros t [Ht _]. by apply all_read_call.
    - intros t [Ht _]. by apply reading_settled.
    - intros t [Ht Hi]. apply reading_restart; [done | by rewrite Hi].
    - etrans; [| exact Hsize]. unfold to_look_at, ascending. rewrite merge_sort_Permutation.
      etrans; [apply length_filter |]. by rewrite iter_keys_spec, length_fmap, length_map_to_list. }
  split; [done |]. destruct (iter_call_inv read_call J Hinv n s HJ) as [Hrd _].
  rewrite (rd_exact _ Hrd). by apply all_read_zero.
Qed.
End Reading.

(** * Concrete runs *)

(** Account 1 has deleted its first notice; 200 blocks later it can be collected. *)
Definition one_deleted : State unit := run_calls [(3, SignedBy 1, DeleteMessage 0)] two_notices.

Lemma collecting_completes_witness :
  Messages (Nat.iter 6 (sweep_call test_config (test_env 200) RootOrigin 1) one_deleted) =
    kept_messages test_config (test_env 200) (Messages one_deleted) /\
  size (Messages one_deleted) = 2%nat /\
  size (kept_messages test_config (test_env 200) (Messages one_deleted)) = 1%nat.
Proof.
  split; [| by split; vm_compute].
  apply (collecting_completes test_config (test_env 200) RootOrigin) with (limit := 1) (k := 2%nat);
    [done | done | by vm_compute | lia].
Defined.

Lemma two_notices_reading : reading test_config 1 notices_session two_notices.
Proof.
  split; [| | by vm_compute].
  - apply (core_reach test_config tt); [| by vm_compute].
    apply core_run_reach. refine (bool_decide_unpack _ _). by vm_compute.
  - exists (default (mkSession 0 [] 0 0 0 false) (Sessions two_notices !! notices_session)).
    split; [by vm_compute |]. refine (bool_decide_unpack _ _). by vm_compute.
Qed.

Lemma session_reads_complete_witness :
  unread_of two_notices 1 notices_session = 2 /\
  all_read 1 notices_session
    (Nat.iter 4 (read_call test_config (test_env 3) (SignedBy 1) notices_session) two_notices) /\
  unread_of (Nat.iter 4 (read_call test_config (test_env 3) (SignedBy 1) notices_session) two_notices)
    1 notices_session = 0.
Proof.
  split; [by vm_compute |].
  apply (session_reads_complete test_config (test_env 3) (SignedBy 1) 1 notices_session) with (k := 1%nat);
    [done | exact two_notices_reading | apply Nat.leb_le; by vm_compute | lia].
Defined.
