(* ===== verification/Escrow.v ===== *)
(** [pallet-dispute-escrow] (src/pallets/dispute/escrow/src/lib.rs): funds held
    for a deal until it is released, refunded, split or expires, with a dispute
    state in between. The trait operations other pallets call, the dispatchables
    and the block hook are one definition each; the theorems on them are in
    EscrowSolvency, EscrowStates and EscrowExpiry. *)

From S2P Require Import Prelude Frame ChatCommon.

Module EscrowPallet.

Definition STATE_LOCKED : Z := 0.
Definition STATE_DISPUTED : Z := 1.
Definition STATE_CLOSED : Z := 3.

Inductive ExpiryAction : Type :=
| ReleaseAll (to : AccountId)
| RefundAll (to : AccountId)
| Noop.

Inductive Event : Type :=
| EvLocked (id : Z) (payer : AccountId) (amount : Z)
| Transferred (id : Z) (to : AccountId) (amount remaining : Z)
| Released (id : Z) (to : AccountId) (amount : Z)
| Refunded (id : Z) (to : AccountId) (amount : Z)
| PartialRefunded (id : Z) (to : AccountId) (amount remaining : Z)
| PartialReleased (id : Z) (to : AccountId) (amount remaining : Z)
| Disputed (id reason : Z) (detail : bytes) (at_ : Z)
| DecisionApplied (id decision : Z)
| ExpiryScheduled (id at_ : Z)
| Expired (id action : Z)
| PartialSplit (id : Z) (release_to : AccountId) (release_amount : Z)
    (refund_to : AccountId) (refund_amount : Z)
| PauseToggled (paused : bool)
| ForceAction (id action : Z) (to : AccountId) (amount : Z)
| Cleaned (ids : list Z).

(** Calls of the [EscrowObserver], which is another pallet's code: they are
    recorded in order. *)
Inductive Notice : Type :=
| OnReleased (id : Z) (to : AccountId) (amount : Z)
| OnRefunded (id : Z) (to : AccountId) (amount : Z)
| OnExpired (id action : Z)
| OnDisputed (id : Z)
| OnForceAction (id action : Z).

Inductive Error : Type :=
| Insufficient
| NoLock
| DisputeActive
| AlreadyClosed
| GloballyPaused
| ExpiringAtFull
| NotInDispute.

(** [sp_runtime::Permill]: [mul_floor parts x] is the floor of [x] times
    [parts] millionths. *)
Class PermillOps : Type := { mul_floor (parts x : Z) : Z }.

Class PermillLaws `{PermillOps} : Prop := {
  mul_floor_spec : forall parts x, 0 <= parts <= 1000000 -> 0 <= x ->
    mul_floor parts x = x * parts / 1000000;
}.

Record State {L : Type} : Type := mkState {
  Locked : gmap Z Z;
  Paused : bool;
  LockStateOf : gmap Z Z;
  ExpiryOf : gmap Z Z;
  ExpiringAt : gmap Z (list Z);
  DisputedAt : gmap Z Z;
  PayerOf : gmap Z AccountId;
  ledger : L;
  events : list Event;
  notices : list Notice;
}.
Arguments State L : clear implicits.

#[export] Instance eta_state {L} : Settable (State L) := fun s =>
  mkState L (Locked s) (Paused s) (LockStateOf s) (ExpiryOf s) (ExpiringAt s) (DisputedAt s)
    (PayerOf s) (ledger s) (events s) (notices s).

(** The runtime's [DefaultExpiryPolicy]: refund whoever paid first. *)
Definition default_on_expire {L} (s : State L) (id : Z) : option ExpiryAction :=
  match PayerOf s !! id with
  | Some payer => Some (RefundAll payer)
  | None => Some Noop
  end.

(** [on_expire] is [Config::ExpiryPolicy]; [None] stands for its error. *)
Record Config `{FrameSystem} {L : Type} : Type := mkConfig {
  escrow_account : AccountId;
  AuthorizedOrigin : Origin -> bool;
  AdminOrigin : Origin -> bool;
  MaxExpiringPerBlock : Z;
  on_expire : State L -> Z -> option ExpiryAction;
  MaxDisputeDuration : Z;
}.
Arguments Config {_} L.

Section Pallet.
Context `{FrameSystem} {L : Type} `{TransferCurrency L} `{PermillOps} (cfg : Config L).

Abbreviation Call_ := (M (State L) (DispatchError Error) unit).

Definition deposit_event (e : Event) : Call_ :=
  modify (fun s => s <| events ::= fun l => l ++ [e] |>).

Definition notify (n : Notice) : Call_ :=
  modify (fun s => s <| notices ::= fun l => l ++ [n] |>).

Definition ensure_not_paused : Call_ :=
  let! paused := gets Paused in
  ensure (paused = false) (Module GloballyPaused).

Definition ensure_auth (origin : Origin) : Call_ :=
  if ensure_root origin then ret tt
  else ensure (AuthorizedOrigin cfg origin = true) BadOrigin.

(** [T::Currency::transfer(..).map_err(|_| err)?]. *)
Definition pay (from to : AccountId) (amount : Z) (existence : ExistenceRequirement) (err : Error)
    : Call_ :=
  let! l := gets ledger in
  let! l' := ok_or (transfer from to amount existence l) (Module err) in
  modify (fun s => s <| ledger := l' |>).

Definition lock_state (s : State L) (id : Z) : Z := get0 (LockStateOf s) id.

Definition amount_of (s : State L) (id : Z) : Z := get0 (Locked s) id.

(** * Expiry tables *)

(** The target blocks are tried in order; a full one is skipped. *)
Fixpoint try_targets (id : Z) (targets : list Z) : M (State L) (DispatchError Error) bool :=
  match targets with
  | [] => ret false
  | target :: rest =>
      let! ids := gets (fun s => default [] (ExpiringAt s !! target)) in
      if decide (Z.of_nat (length ids) < MaxExpiringPerBlock cfg) then
        modify (fun s => s <| ExpiringAt ::= <[target := ids ++ [id]]> |>) >>
        modify (fun s => s <| ExpiryOf ::= <[id := target]> |>) >>
        ret true
      else try_targets id rest
  end.

Definition try_schedule_expiry_at (id at_ : Z) : M (State L) (DispatchError Error) bool :=
  try_targets id ((fun offset => sat_add u32_max at_ (Z.of_nat offset)) <$> seq 0 10).

Definition unschedule (id : Z) (s : State L) : State L :=
  match ExpiryOf s !! id with
  | None => s
  | Some at_ =>
      let ids := default [] (ExpiringAt s !! at_) in
      s <| ExpiryOf ::= delete id |>
        <| ExpiringAt ::= <[at_ :=
             match list_find (fun x => x = id) ids with
             | Some (pos, _) => swap_remove pos ids
             | None => ids
             end]> |>
  end.

Definition remove_expiry_schedule (id : Z) : Call_ := modify (unschedule id).

(** * The Escrow trait *)

Definition do_set_disputed (env : Env) (id reason : Z) (detail : bytes) : Call_ :=
  let! cur := gets (fun s => amount_of s id) in
  ensure (cur <> 0) (Module NoLock) >>
  let! state := gets (fun s => lock_state s id) in
  ensure (state <> STATE_CLOSED) (Module AlreadyClosed) >>
  ensure (state <> STATE_DISPUTED) (Module DisputeActive) >>
  modify (fun s => s <| LockStateOf ::= <[id := STATE_DISPUTED]> |>) >>
  let now := block_number env in
  modify (fun s => s <| DisputedAt ::= <[id := now]> |>) >>
  let! expiry := gets ExpiryOf in
  match expiry !! id with
  | None =>
      let timeout_at := sat_add u32_max now (MaxDisputeDuration cfg) in
      let! _ := try_schedule_expiry_at id timeout_at in ret tt
  | Some _ => ret tt
  end >>
  deposit_event (Disputed id reason detail now) >>
  notify (OnDisputed id).

(** Not disputed and not closed. *)
Definition ensure_open (id : Z) : Call_ :=
  let! state := gets (fun s => lock_state s id) in
  ensure (state <> STATE_DISPUTED) (Module DisputeActive) >>
  ensure (state <> STATE_CLOSED) (Module AlreadyClosed).

Definition lock_from (payer : AccountId) (id amount : Z) : Call_ :=
  ensure (amount <> 0) (Module Insufficient) >>
  let! state := gets (fun s => lock_state s id) in
  ensure (state <> STATE_CLOSED) (Module AlreadyClosed) >>
  ensure (state <> STATE_DISPUTED) (Module DisputeActive) >>
  pay payer (escrow_account cfg) amount KeepAlive Insufficient >>
  let! cur := gets (fun s => amount_of s id) in
  modify (fun s => s <| Locked ::= <[id := sat_add u128_max cur amount]> |>) >>
  let! payers := gets PayerOf in
  match payers !! id with
  | None => modify (fun s => s <| PayerOf ::= <[id := payer]> |>)
  | Some _ => ret tt
  end >>
  deposit_event (EvLocked id payer amount).

(** The last withdrawal may empty the held account. *)
Definition existence_of (remaining : Z) : ExistenceRequirement :=
  if decide (remaining = 0) then AllowDeath else KeepAlive.

Definition transfer_from_escrow (id : Z) (to : AccountId) (amount : Z) : Call_ :=
  ensure_open id >>
  let! cur := gets (fun s => amount_of s id) in
  ensure (cur <> 0) (Module NoLock) >>
  ensure (amount <= cur) (Module Insufficient) >>
  let new := sat_sub cur amount in
  modify (fun s => s <| Locked ::= <[id := new]> |>) >>
  pay (escrow_account cfg) to amount (existence_of new) NoLock >>
  (if decide (new = 0) then modify (fun s => s <| Locked ::= delete id |>) else ret tt) >>
  deposit_event (Transferred id to amount new).

(** [Locked::take]: the entry is removed, its amount returned. *)
Definition take_locked (id : Z) : M (State L) (DispatchError Error) Z :=
  let! amount := gets (fun s => amount_of s id) in
  modify (fun s => s <| Locked ::= delete id |>) >>
  ret amount.

Definition close (id : Z) : Call_ :=
  modify (fun s => s <| LockStateOf ::= <[id := STATE_CLOSED]> |>) >>
  remove_expiry_schedule id.

(** [release_all] and [refund_all] differ in the event and the notice only. *)
Definition settle_all (event : Z -> AccountId -> Z -> Event) (notice : Z -> AccountId -> Z -> Notice)
    (id : Z) (to : AccountId) : Call_ :=
  ensure_open id >>
  let! amount := take_locked id in
  ensure (amount <> 0) (Module NoLock) >>
  pay (escrow_account cfg) to amount AllowDeath NoLock >>
  close id >>
  deposit_event (event id to amount) >>
  notify (notice id to amount).

Definition release_all : Z -> AccountId -> Call_ := settle_all Released OnReleased.
Definition refund_all : Z -> AccountId -> Call_ := settle_all Refunded OnRefunded.

(** So do [refund_partial] and [release_partial]. *)
Definition settle_partial (event : Z -> AccountId -> Z -> Z -> Event)
    (notice : Z -> AccountId -> Z -> Notice) (id : Z) (to : AccountId) (amount : Z) : Call_ :=
  ensure (amount <> 0) (Module Insufficient) >>
  ensure_open id >>
  let! cur := gets (fun s => amount_of s id) in
  ensure (cur <> 0) (Module NoLock) >>
  ensure (amount <= cur) (Module Insufficient) >>
  let new := sat_sub cur amount in
  modify (fun s => s <| Locked ::= <[id := new]> |>) >>
  pay (escrow_account cfg) to amount (existence_of new) NoLock >>
  (if decide (new = 0)
   then modify (fun s => s <| Locked ::= delete id |>) >> close id
   else ret tt) >>
  deposit_event (event id to amount new) >>
  notify (notice id to amount).

Definition refund_partial : Z -> AccountId -> Z -> Call_ :=
  settle_partial PartialRefunded OnRefunded.
Definition release_partial : Z -> AccountId -> Z -> Call_ :=
  settle_partial PartialReleased OnReleased.

Definition set_disputed (env : Env) (id : Z) : Call_ := do_set_disputed env id 0 [].

Definition set_resolved (id : Z) : Call_ :=
  let! state := gets (fun s => lock_state s id) in
  ensure (state = STATE_DISPUTED) (Module NotInDispute) >>
  modify (fun s => s <| LockStateOf ::= <[id := STATE_LOCKED]> |>) >>
  modify (fun s => s <| DisputedAt ::= delete id |>).

(** The payments of a split: zero shares are skipped, the last one may empty the
    held account. *)
Definition pay_shares (release_to refund_to : AccountId) (release_amount refund_amount : Z)
    : Call_ :=
  let escrow := escrow_account cfg in
  if decide (release_amount <> 0 /\ refund_amount <> 0) then
    pay escrow release_to release_amount (existence_of refund_amount) Insufficient >>
    pay escrow refund_to refund_amount AllowDeath Insufficient
  else if decide (release_amount <> 0) then
    pay escrow release_to release_amount AllowDeath Insufficient
  else if decide (refund_amount <> 0) then
    pay escrow refund_to refund_amount AllowDeath Insufficient
  else ret tt.

(** [bps] is a [u16] of basis points. *)
Definition split_partial (id : Z) (release_to refund_to : AccountId) (bps : Z) : Call_ :=
  ensure (bps <= 10000) (Module Insufficient) >>
  ensure_open id >>
  let! total := take_locked id in
  ensure (total <> 0) (Module NoLock) >>
  let release_amount := mul_floor (bps * 100) total in
  let refund_amount := sat_sub total release_amount in
  pay_shares release_to refund_to release_amount refund_amount >>
  close id >>
  deposit_event (PartialSplit id release_to release_amount refund_to refund_amount) >>
  (if decide (release_amount <> 0) then notify (OnReleased id release_to release_amount)
   else ret tt) >>
  (if decide (refund_amount <> 0) then notify (OnRefunded id refund_to refund_amount)
   else ret tt).

(** * Dispatchables *)

Definition lock (origin : Origin) (id : Z) (payer : AccountId) (amount : Z) : Call_ :=
  ensure_auth origin >> ensure_not_paused >> lock_from payer id amount.

Definition release (origin : Origin) (id : Z) (to : AccountId) : Call_ :=
  ensure_auth origin >> ensure_not_paused >> release_all id to.

Definition refund (origin : Origin) (id : Z) (to : AccountId) : Call_ :=
  ensure_auth origin >> ensure_not_paused >> refund_all id to.

(** The payments of [release_split], in order, starting from [cur]; the amount
    still locked is returned. *)
Fixpoint pay_entries (id : Z) (cur : Z) (entries : list (AccountId * Z))
    : M (State L) (DispatchError Error) Z :=
  match entries with
  | [] => ret cur
  | (to, amt) :: rest =>
      if decide (amt = 0) then pay_entries id cur rest else
      let cur := sat_sub cur amt in
      modify (fun s => s <| Locked ::= <[id := cur]> |>) >>
      pay (escrow_account cfg) to amt (existence_of cur) NoLock >>
      deposit_event (Transferred id to amt cur) >>
      notify (OnReleased id to amt) >>
      pay_entries id cur rest
  end.

Definition release_split (origin : Origin) (id : Z) (entries : list (AccountId * Z)) : Call_ :=
  ensure_auth origin >> ensure_not_paused >>
  ensure_open id >>
  let! cur := gets (fun s => amount_of s id) in
  ensure (cur <> 0) (Module NoLock) >>
  let sum := foldl (fun acc e => sat_add u128_max acc e.2) 0 entries in
  ensure (sum <= cur) (Module Insufficient) >>
  let! cur := pay_entries id cur entries in
  if decide (cur = 0)
  then modify (fun s => s <| Locked ::= delete id |>) >> close id
  else ret tt.

Definition dispute (env : Env) (origin : Origin) (id reason : Z) (detail : bytes) : Call_ :=
  ensure_auth origin >> do_set_disputed env id reason detail.

(** A decision first takes the lock out of the dispute, then settles it. *)
Definition leave_dispute (id : Z) : Call_ :=
  let! state := gets (fun s => lock_state s id) in
  ensure (state = STATE_DISPUTED) (Module NotInDispute) >>
  modify (fun s => s <| LockStateOf ::= <[id := STATE_LOCKED]> |>) >>
  modify (fun s => s <| DisputedAt ::= delete id |>) >>
  remove_expiry_schedule id.

Definition apply_decision_release_all (origin : Origin) (id : Z) (to : AccountId) : Call_ :=
  ensure_auth origin >> leave_dispute id >> release_all id to >>
  deposit_event (DecisionApplied id 0).

Definition apply_decision_refund_all (origin : Origin) (id : Z) (to : AccountId) : Call_ :=
  ensure_auth origin >> leave_dispute id >> refund_all id to >>
  deposit_event (DecisionApplied id 1).

Definition apply_decision_partial_bps (origin : Origin) (id : Z) (release_to refund_to : AccountId)
    (bps : Z) : Call_ :=
  ensure_auth origin >>
  let! state := gets (fun s => lock_state s id) in
  ensure (state = STATE_DISPUTED) (Module NotInDispute) >>
  ensure (bps <= 10000) (Module Insufficient) >>
  leave_dispute id >>
  split_partial id release_to refund_to bps >>
  deposit_event (DecisionApplied id 2).

Definition set_pause (origin : Origin) (paused : bool) : Call_ :=
  ensure (AdminOrigin cfg origin = true) BadOrigin >>
  modify (fun s => s <| Paused := paused |>) >>
  deposit_event (PauseToggled paused).

Definition schedule_expiry (origin : Origin) (id at_ : Z) : Call_ :=
  ensure_auth origin >>
  let! state := gets (fun s => lock_state s id) in
  ensure (state <> STATE_CLOSED) (Module AlreadyClosed) >>
  let! cur := gets (fun s => amount_of s id) in
  ensure (cur <> 0) (Module NoLock) >>
  if decide (state = STATE_DISPUTED) then ret tt else
  remove_expiry_schedule id >>
  modify (fun s => s <| ExpiryOf ::= <[id := at_]> |>) >>
  let! ids := gets (fun s => default [] (ExpiringAt s !! at_)) in
  ensure (Z.of_nat (length ids) < MaxExpiringPerBlock cfg) (Module ExpiringAtFull) >>
  modify (fun s => s <| ExpiringAt ::= <[at_ := ids ++ [id]]> |>) >>
  deposit_event (ExpiryScheduled id at_).

Definition cancel_expiry (origin : Origin) (id : Z) : Call_ :=
  ensure_auth origin >> remove_expiry_schedule id.

(** [force_release] and [force_refund]: the administrator settles a lock in any
    state. *)
Definition force_settle (action : Z) (origin : Origin) (id : Z) (to : AccountId) : Call_ :=
  ensure (AdminOrigin cfg origin = true) BadOrigin >>
  let! amount := take_locked id in
  ensure (amount <> 0) (Module NoLock) >>
  pay (escrow_account cfg) to amount AllowDeath NoLock >>
  modify (fun s => s <| LockStateOf ::= <[id := STATE_CLOSED]> |>) >>
  modify (fun s => s <| DisputedAt ::= delete id |>) >>
  remove_expiry_schedule id >>
  deposit_event (ForceAction id action to amount) >>
  notify (OnForceAction id action).

Definition force_release : Origin -> Z -> AccountId -> Call_ := force_settle 0.
Definition force_refund : Origin -> Z -> AccountId -> Call_ := force_settle 1.

(** Closed and empty entries are forgotten; the identifiers cleaned are
    returned. *)
Fixpoint clean_ids (ids : list Z) : M (State L) (DispatchError Error) (list Z) :=
  match ids with
  | [] => ret []
  | id :: rest =>
      let! state := gets (fun s => lock_state s id) in
      let! cur := gets (fun s => amount_of s id) in
      if decide (state <> STATE_CLOSED) then clean_ids rest
      else if decide (cur <> 0) then clean_ids rest
      else
        remove_expiry_schedule id >>
        modify (fun s => s <| Locked ::= delete id |> <| LockStateOf ::= delete id |>
                           <| DisputedAt ::= delete id |> <| PayerOf ::= delete id |>) >>
        let! cleaned := clean_ids rest in
        ret (id :: cleaned)
  end.

Definition cleanup_closed (origin : Origin) (ids : list Z) : Call_ :=
  let! _ := ok_or (ensure_signed origin) BadOrigin in
  let! cleaned := clean_ids ids in
  if decide (cleaned <> []) then deposit_event (Cleaned cleaned) else ret tt.

(** * The block hook *)

(** What the hook does with a lock that is not, or no longer, disputed. It is
    not a dispatchable: what a failed settlement wrote stays. *)
Definition expire_lock (id : Z) : Call_ :=
  let! action := gets (fun s => on_expire cfg s id) in
  match action with
  | Some (ReleaseAll to) =>
      let! settled := attempt (release_all id to) in
      match settled with
      | Some _ => deposit_event (Expired id 0) >> notify (OnExpired id 0)
      | None => ret tt
      end
  | Some (RefundAll to) =>
      let! settled := attempt (refund_all id to) in
      match settled with
      | Some _ => deposit_event (Expired id 1) >> notify (OnExpired id 1)
      | None => ret tt
      end
  | _ => deposit_event (Expired id 2) >> notify (OnExpired id 2)
  end >>
  modify (fun s => s <| ExpiryOf ::= delete id |>).

Definition process_expiring (n id : Z) : Call_ :=
  let! state := gets (fun s => lock_state s id) in
  let! disputed_at := gets (fun s => DisputedAt s !! id) in
  let timed_out :=
    match disputed_at with
    | Some at_ => bool_decide (n >= sat_add u32_max at_ (MaxDisputeDuration cfg))
    | None => true
    end in
  if decide (state = STATE_DISPUTED) then
    if timed_out then
      modify (fun s => s <| LockStateOf ::= <[id := STATE_LOCKED]> |>) >>
      modify (fun s => s <| DisputedAt ::= delete id |>) >>
      expire_lock id
    else
      let! ok := try_schedule_expiry_at id (sat_add u32_max n 14400) in
      if (ok : bool) then ret tt else modify (fun s => s <| ExpiryOf ::= delete id |>)
  else expire_lock id.

Definition on_initialize (n : Z) : Call_ :=
  let! expiring_ids := gets (fun s => default [] (ExpiringAt s !! n)) in
  modify (fun s => s <| ExpiringAt ::= delete n |>) >>
  for_each expiring_ids (process_expiring n).

(** * Transitions *)

Inductive Call : Type :=
| CLock (id : Z) (payer : AccountId) (amount : Z)
| CRelease (id : Z) (to : AccountId)
| CRefund (id : Z) (to : AccountId)
| CReleaseSplit (id : Z) (entries : list (AccountId * Z))
| CDispute (id reason : Z) (detail : bytes)
| CDecisionReleaseAll (id : Z) (to : AccountId)
| CDecisionRefundAll (id : Z) (to : AccountId)
| CDecisionPartialBps (id : Z) (release_to refund_to : AccountId) (bps : Z)
| CSetPause (paused : bool)
| CScheduleExpiry (id at_ : Z)
| CCancelExpiry (id : Z)
| CForceRelease (id : Z) (to : AccountId)
| CForceRefund (id : Z) (to : AccountId)
| CCleanupClosed (ids : list Z).

(** What other pallets do through the trait, inside their own dispatchables. *)
Inductive TraitOp : Type :=
| TLockFrom (payer : AccountId) (id amount : Z)
| TTransferFromEscrow (id : Z) (to : AccountId) (amount : Z)
| TReleaseAll (id : Z) (to : AccountId)
| TRefundAll (id : Z) (to : AccountId)
| TRefundPartial (id : Z) (to : AccountId) (amount : Z)
| TReleasePartial (id : Z) (to : AccountId) (amount : Z)
| TSplitPartial (id : Z) (release_to refund_to : AccountId) (bps : Z)
| TSetDisputed (id : Z)
| TSetResolved (id : Z).

Definition apply_call (env : Env) (origin : Origin) (c : Call) : Call_ :=
  match c with
  | CLock id payer amount => lock origin id payer amount
  | CRelease id to => release origin id to
  | CRefund id to => refund origin id to
  | CReleaseSplit id entries => release_split origin id entries
  | CDispute id reason detail => dispute env origin id reason detail
  | CDecisionReleaseAll id to => apply_decision_release_all origin id to
  | CDecisionRefundAll id to => apply_decision_refund_all origin id to
  | CDecisionPartialBps id a b bps => apply_decision_partial_bps origin id a b bps
  | CSetPause paused => set_pause origin paused
  | CScheduleExpiry id at_ => schedule_expiry origin id at_
  | CCancelExpiry id => cancel_expiry origin id
  | CForceRelease id to => force_release origin id to
  | CForceRefund id to => force_refund origin id to
  | CCleanupClosed ids => cleanup_closed origin ids
  end.

Definition apply_op (env : Env) (op : TraitOp) : Call_ :=
  match op with
  | TLockFrom payer id amount => lock_from payer id amount
  | TTransferFromEscrow id to amount => transfer_from_escrow id to amount
  | TReleaseAll id to => release_all id to
  | TRefundAll id to => refund_all id to
  | TRefundPartial id to amount => refund_partial id to amount
  | TReleasePartial id to amount => release_partial id to amount
  | TSplitPartial id a b bps => split_partial id a b bps
  | TSetDisputed id => set_disputed env id
  | TSetResolved id => set_resolved id
  end.

(** Amounts are u128, basis points u16. *)
Definition amount_typed (a : Z) : Prop := 0 <= a <= u128_max.

Definition call_typed (c : Call) : Prop :=
  match c with
  | CLock _ _ a => amount_typed a
  | CReleaseSplit _ entries => Forall (fun e => amount_typed e.2) entries
  | CDecisionPartialBps _ _ _ bps => 0 <= bps <= 65535
  | _ => True
  end.

Definition op_typed (op : TraitOp) : Prop :=
  match op with
  | TLockFrom _ _ a | TTransferFromEscrow _ _ a | TRefundPartial _ _ a | TReleasePartial _ _ a =>
      amount_typed a
  | TSplitPartial _ _ _ bps => 0 <= bps <= 65535
  | _ => True
  end.

(** The account a call charges. *)
Definition call_payer (c : Call) : option AccountId :=
  match c with CLock _ payer _ => Some payer | _ => None end.

Definition op_payer (op : TraitOp) : option AccountId :=
  match op with TLockFrom payer _ _ => Some payer | _ => None end.

(** A dispatchable, a trait operation inside another pallet's dispatchable, the
    block hook, or anything else that moves balances, which never takes from the
    held account: nobody has its key. The held account is never named as a
    payer. *)
Inductive step (s s' : State L) : Prop :=
| step_call env origin c r (Hty : call_typed c)
    (Hpayer : call_payer c <> Some (escrow_account cfg))
    (Hcall : transactional (apply_call env origin c) s = (r, s'))
| step_op env op r (Hty : op_typed op)
    (Hpayer : op_payer op <> Some (escrow_account cfg))
    (Hop : transactional (apply_op env op) s = (r, s'))
| step_block n r (Hblock : on_initialize n s = (r, s'))
| step_other l (Hl : balance (escrow_account cfg) (ledger s) <= balance (escrow_account cfg) l)
    (Hs' : s' = s <| ledger := l |>).

(** * Inversion of the helpers *)

Lemma pay_Ok from to a ex err s u s' :
  pay from to a ex err s = (Ok u, s') ->
  exists l', transfer from to a ex (ledger s) = Some l' /\ s' = s <| ledger := l' |>.
Proof. unfold pay. intros Hrun. m_inv. eauto. Qed.

Lemma pay_Err from to a ex err s e s' : pay from to a ex err s = (Err e, s') -> s' = s.
Proof. unfold pay. intros Hrun. by m_err. Qed.

(** What [pay_shares] does to the ledger. *)
Definition shares_paid (a b : AccountId) (ra rb : Z) (l l' : L) : Prop :=
  let escrow := escrow_account cfg in
  (ra <> 0 /\ rb <> 0 /\ exists l1, transfer escrow a ra KeepAlive l = Some l1 /\
     transfer escrow b rb AllowDeath l1 = Some l') \/
  (ra <> 0 /\ rb = 0 /\ transfer escrow a ra AllowDeath l = Some l') \/
  (ra = 0 /\ rb <> 0 /\ transfer escrow b rb AllowDeath l = Some l') \/
  (ra = 0 /\ rb = 0 /\ l' = l).

Lemma pay_shares_Ok a b ra rb s u s' :
  pay_shares a b ra rb s = (Ok u, s') ->
  exists l', s' = s <| ledger := l' |> /\ shares_paid a b ra rb (ledger s) l'.
Proof.
  unfold pay_shares, pay, shares_paid, existence_of. intros Hrun. case_decide as Hb.
  - rewrite (decide_False (P := rb = 0)) in Hrun by tauto. m_inv.
    eexists. split; [reflexivity |]. left. destruct Hb. eauto 10.
  - assert (forall z, ~ z <> 0 -> z = 0) as Hz by (intros; lia).
    m_inv; [eexists; split; [reflexivity |].. |].
    + right; left. split_and!; [done | apply Hz; tauto | done].
    + right; right; left. split_and!; [apply Hz; tauto | done..].
    + exists (ledger s). split; [by destruct s |]. right; right; right.
      split_and!; [apply Hz; tauto.. | done].
Qed.

Lemma ensure_open_Ok id s u s' :
  ensure_open id s = (Ok u, s') ->
  s' = s /\ lock_state s id <> STATE_DISPUTED /\ lock_state s id <> STATE_CLOSED.
Proof. unfold ensure_open. intros Hrun. by m_inv. Qed.

Lemma ensure_open_Err id s e s' : ensure_open id s = (Err e, s') -> s' = s.
Proof. unfold ensure_open. intros Hrun. by m_err. Qed.

Lemma ensure_auth_Ok o s u s' : ensure_auth o s = (Ok u, s') -> s' = s.
Proof. unfold ensure_auth. intros Hrun. by m_inv. Qed.

Lemma ensure_not_paused_Ok s u s' :
  ensure_not_paused s = (Ok u, s') -> s' = s /\ Paused s = false.
Proof. unfold ensure_not_paused. intros Hrun. by m_inv. Qed.

Lemma take_locked_inv id s r s' :
  take_locked id s = (r, s') -> r = Ok (amount_of s id) /\ s' = s <| Locked ::= delete id |>.
Proof. by intros [= <- <-]. Qed.

(** Removing an expiry touches the two expiry tables only. *)
Lemma Locked_unschedule id s : Locked (unschedule id s) = Locked s.
Proof. unfold unschedule. by destruct (ExpiryOf s !! id). Qed.
Lemma ledger_unschedule id s : ledger (unschedule id s) = ledger s.
Proof. unfold unschedule. by destruct (ExpiryOf s !! id). Qed.
Lemma LockStateOf_unschedule id s : LockStateOf (unschedule id s) = LockStateOf s.
Proof. unfold unschedule. by destruct (ExpiryOf s !! id). Qed.
Lemma DisputedAt_unschedule id s : DisputedAt (unschedule id s) = DisputedAt s.
Proof. unfold unschedule. by destruct (ExpiryOf s !! id). Qed.
Lemma PayerOf_unschedule id s : PayerOf (unschedule id s) = PayerOf s.
Proof. unfold unschedule. by destruct (ExpiryOf s !! id). Qed.

(** So does trying to add one. *)
Lemma try_targets_frame id targets s r s' :
  try_targets id targets s = (r, s') ->
  Locked s' = Locked s /\ Paused s' = Paused s /\ LockStateOf s' = LockStateOf s /\
  DisputedAt s' = DisputedAt s /\ PayerOf s' = PayerOf s /\ ledger s' = ledger s.
Proof.
  revert s. induction targets as [| t targets IH]; intros s; simpl; [by intros [= <- <-] |].
  unfold bind, gets; simpl. case_decide; [by intros [= <- <-] | apply IH].
Qed.

End Pallet.

Ltac e_step :=
  first
    [ m_step
    | match goal with
      | H : pay _ _ _ _ _ _ = (Ok _, _) |- _ => apply pay_Ok in H as (? & ? & ?)
      | H : pay_shares _ _ _ _ _ _ = (Ok _, _) |- _ => apply pay_shares_Ok in H as (? & ? & ?)
      | H : ensure_open _ _ = (Ok _, _) |- _ => apply ensure_open_Ok in H as (? & ? & ?)
      | H : ensure_auth _ _ _ = (Ok _, _) |- _ => apply ensure_auth_Ok in H
      | H : ensure_not_paused _ = (Ok _, _) |- _ => apply ensure_not_paused_Ok in H as [? ?]
      | H : take_locked _ _ = _ |- _ => apply take_locked_inv in H as [? ?]
      end; simplify_eq ].
Ltac e_inv := repeat e_step.

Create Rewrite HintDb escrow.
#[export] Hint Rewrite @Locked_unschedule @ledger_unschedule @LockStateOf_unschedule
  @DisputedAt_unschedule @PayerOf_unschedule : escrow.

(** Reads the fields of an updated state. *)
Ltac e_simpl := repeat (progress (simpl; autorewrite with escrow)).

Ltac e_err_step :=
  first
    [ e_step
    | match goal with
      | H : pay _ _ _ _ _ _ = (Err _, _) |- _ => apply pay_Err in H
      | H : ensure_open _ _ = (Err _, _) |- _ => apply ensure_open_Err in H
      end; simplify_eq
    | m_err_step ].
Ltac e_err := repeat e_err_step.

(** ** Entering and leaving a dispute *)

Section Disputing.
Context `{FrameSystem} {L : Type} `{TransferCurrency L} `{PermillOps} (cfg : Config L).
Implicit Types (s : State L).

Lemma leave_dispute_Ok id s u s' :
  leave_dispute id s = (Ok u, s') ->
  lock_state s id = STATE_DISPUTED /\
  s' = unschedule id (s <| LockStateOf ::= <[id := STATE_LOCKED]> |> <| DisputedAt ::= delete id |>).
Proof. unfold leave_dispute, remove_expiry_schedule. intros Hrun. by m_inv. Qed.

Lemma do_set_disputed_frame env id reason detail s s' :
  do_set_disputed cfg env id reason detail s = (Ok tt, s') ->
  Locked s' = Locked s /\ ledger s' = ledger s /\ PayerOf s' = PayerOf s /\
  LockStateOf s' = <[id := STATE_DISPUTED]> (LockStateOf s) /\
  DisputedAt s' = <[id := block_number env]> (DisputedAt s) /\
  amount_of s id <> 0 /\ lock_state s id <> STATE_CLOSED.
Proof.
  unfold do_set_disputed, deposit_event, notify, try_schedule_expiry_at. intros Hrun.
  e_inv; simpl; [done |].
  match goal with Ht : try_targets _ _ _ _ = _ |- _ =>
    apply try_targets_frame in Ht as (-> & _ & -> & -> & -> & ->) end. done.
Qed.
End Disputing.

(** Storage at genesis. *)
Definition genesis {L} (l : L) : State L := mkState L ∅ false ∅ ∅ ∅ ∅ ∅ l [] [].

(** * Concrete configuration *)

(** Floor of the share. *)
#[export] Instance floor_permill : PermillOps := {| mul_floor parts x := x * parts / 1000000 |}.

#[export] Instance floor_permill_laws : PermillLaws.
Proof. by split. Qed.

(** Account 9 holds the funds; the signer 7 is the authorized pallet, root the
    administrator; expired locks go back to whoever paid. *)
Definition test_config : Config SimpleBank := {|
  escrow_account := 9%N;
  AuthorizedOrigin o := bool_decide ((o : SimpleOrigin) = SignedBy 7);
  AdminOrigin o := ensure_root o;
  MaxExpiringPerBlock := 2;
  on_expire := default_on_expire;
  MaxDisputeDuration := 100;
|}.

Definition test_env (block : Z) : Env := mkEnv block 0 0 [].

(** A run: dispatchables by the authorized signer, blocks, and payments outside
    the pallet. *)
Inductive Action : Type :=
| ACall (c : Call)
| AOp (op : TraitOp)
| ABlock (n : Z)
| APay (from to : AccountId) (v : Z).

Definition act (s : State SimpleBank) (a : Action) : State SimpleBank :=
  match a with
  | ACall c => (transactional (apply_call test_config (test_env 5) (SignedBy 7) c) s).2
  | AOp op => (transactional (apply_op test_config (test_env 5) op) s).2
  | ABlock n => (on_initialize test_config n s).2
  | APay from to v =>
      match transfer from to v AllowDeath (ledger s) with
      | Some l => s <| ledger := l |>
      | None => s
      end
  end.

Definition run (s : State SimpleBank) (acts : list Action) : State SimpleBank := foldl act s acts.

Definition action_ok (a : Action) : Prop :=
  match a with
  | ACall c => call_typed c /\ call_payer c <> Some 9%N
  | AOp op => op_typed op /\ op_payer op <> Some 9%N
  | ABlock _ => True
  | APay from to v => from <> 9%N /\ from <> to /\ 0 <= v
  end.

#[export] Instance action_ok_dec a : Decision (action_ok a).
Proof.
  destruct a as [c | op | n | from to v]; cbn [action_ok]; [| | apply _ ..].
  - destruct c; simpl; unfold amount_typed; apply _.
  - destruct op; simpl; unfold amount_typed; apply _.
Defined.

Lemma run_reach s acts : Forall action_ok acts -> rtc (step test_config) s (run s acts).
Proof.
  intros Hok. revert s. induction Hok as [| a acts Ha Hok IH]; intros s; simpl; [constructor |].
  eapply rtc_l; [| apply IH]. destruct a as [c | op | n | from to v]; cbn [act action_ok] in *.
  - destruct Ha as [Hty Hp].
    apply (step_call test_config _ _ (test_env 5) (SignedBy 7) c
      (transactional (apply_call test_config (test_env 5) (SignedBy 7) c) s).1); [done.. |].
    by destruct (transactional _ _).
  - destruct Ha as [Hty Hp].
    apply (step_op test_config _ _ (test_env 5) op
      (transactional (apply_op test_config (test_env 5) op) s).1); [done.. |].
    by destruct (transactional _ _).
  - apply (step_block test_config _ _ n (on_initialize test_config n s).1).
    by destruct (on_initialize _ _ _).
  - destruct Ha as (Hne & Hft & Hv).
    destruct (transfer from to v AllowDeath (ledger s)) as [l |] eqn:Ht.
    + apply (step_other test_config _ _ l); [| done]. change (escrow_account test_config) with 9%N.
      destruct (decide (9%N = to)) as [<- | Hto].
      * rewrite (transfer_to _ _ _ _ _ _ Hft Hv Ht). lia.
      * by rewrite (transfer_other _ _ _ _ _ _ 9%N (not_eq_sym Hne) Hto Ht).
    + apply (step_other test_config _ _ (ledger s)); [done |]. by destruct s.
Qed.

End EscrowPallet.
