(* ===== verification/EscrowSolvency.v ===== *)
(** The money of [pallet-dispute-escrow]: the held account always covers the
    locks, a split pays exact shares, and how both fail when the account was
    not endowed or a payment of the block hook is refused. *)

From S2P Require Import Prelude Frame ChatCommon Escrow.
Import EscrowPallet.

(** * Solvency *)

Section Solvency.
Context `{FrameSystem} {L : Type} `{TransferCurrency L} `{!TransferCurrencyLaws L}
  `{PermillOps} `{!PermillLaws} (cfg : Config L).
Implicit Types (k : gmap Z Z) (l : L) (s : State L).

(** The held account has the locks, the minimum balance and [b] more. *)
Definition surplus (b : Z) k l : Prop :=
  map_Forall (fun _ a => 0 <= a) k /\
  minimum_balance + b <= balance (escrow_account cfg) l - msum (fun _ a => a) k.

Definition funded s : Prop := surplus 0 (Locked s) (ledger s).

Definition total_locked s : Z := msum (fun _ a => a) (Locked s).

Lemma surplus_get b k l id : surplus b k l -> 0 <= get0 k id.
Proof.
  intros [Hpos _]. unfold get0. destruct (k !! id) as [a |] eqn:Ha; simpl; [| lia].
  by eapply Hpos.
Qed.

Lemma surplus_weaken b b' k l : surplus b k l -> b' <= b -> surplus b' k l.
Proof. intros [? ?] ?. split; [done | lia]. Qed.

Lemma surplus_take b k l id : surplus b k l -> surplus (b + get0 k id) (delete id k) l.
Proof.
  intros [Hpos Hb]. split; [by apply map_Forall_delete |].
  rewrite msum_delete. unfold get0. destruct (k !! id); simpl in *; lia.
Qed.

Lemma surplus_reduce b k l id new :
  surplus b k l -> 0 <= new -> surplus (b + get0 k id - new) (<[id := new]> k) l.
Proof.
  intros [Hpos Hb] Hnew. split; [by apply map_Forall_insert_2 |].
  rewrite msum_insert. unfold get0. destruct (k !! id); simpl in *; lia.
Qed.

Lemma surplus_pay b k l to a ex l' :
  surplus b k l -> 0 <= a <= b -> transfer (escrow_account cfg) to a ex l = Some l' ->
  surplus (b - a) k l'.
Proof.
  intros [Hpos Hb] Ha Ht. split; [done |].
  assert (0 <= msum (fun _ a => a) k) by (by apply msum_nonneg).
  destruct (decide (escrow_account cfg = to)) as [<- | Hne].
  - rewrite (transfer_self _ _ _ _ _ _ Ht). lia.
  - destruct (transfer_from _ _ _ _ _ _ Hne (proj1 Ha) Ht) as [_ [-> | (_ & ? & _)]]; lia.
Qed.

Lemma surplus_deposit b k l id payer a l' :
  surplus b k l -> payer <> escrow_account cfg -> 0 <= a ->
  transfer payer (escrow_account cfg) a KeepAlive l = Some l' ->
  surplus b (<[id := sat_add u128_max (get0 k id) a]> k) l'.
Proof.
  intros Hs Hne Ha Ht. pose proof (surplus_get b k l id Hs). destruct Hs as [Hpos Hb].
  assert (0 <= sat_add u128_max (get0 k id) a <= get0 k id + a).
  { unfold sat_add, u128_max. lia. }
  split; [apply map_Forall_insert_2; [lia | done] |].
  rewrite (transfer_to _ _ _ _ _ _ Hne Ha Ht), msum_insert.
  unfold get0 in *. destruct (k !! id); simpl in *; lia.
Qed.

Lemma surplus_delete b k l id : surplus b k l -> surplus b (delete id k) l.
Proof.
  intros Hs. pose proof (surplus_get b k l id Hs).
  eapply surplus_weaken; [by apply surplus_take | lia].
Qed.

(** [id] keeps [new] of what it had and the rest is paid out. *)
Lemma surplus_withdraw k l id a to ex l' :
  surplus 0 k l -> 0 <= a <= get0 k id -> transfer (escrow_account cfg) to a ex l = Some l' ->
  surplus 0 (<[id := sat_sub (get0 k id) a]> k) l'.
Proof.
  intros Hs Ha Ht. rewrite sat_sub_exact by lia.
  apply (surplus_reduce _ _ _ id (get0 k id - a)) in Hs; [| lia].
  eapply surplus_pay in Ht; [| exact Hs | lia]. eapply surplus_weaken; [done | lia].
Qed.

Lemma surplus_settle k l id to ex l' :
  surplus 0 k l -> transfer (escrow_account cfg) to (get0 k id) ex l = Some l' ->
  surplus 0 (delete id k) l'.
Proof.
  intros Hs Ht. pose proof (surplus_get 0 k l id Hs). apply (surplus_take _ _ _ id) in Hs.
  eapply surplus_pay in Ht; [| exact Hs | lia]. eapply surplus_weaken; [done | lia].
Qed.

(** [funded] reads two fields only. *)
Lemma funded_same s s' : Locked s' = Locked s -> ledger s' = ledger s -> funded s -> funded s'.
Proof. unfold funded. by intros -> ->. Qed.

Lemma settle_all_funded ev nt id to s r s' :
  settle_all cfg ev nt id to s = (r, s') -> funded s -> funded s'.
Proof.
  unfold settle_all, close, remove_expiry_schedule, deposit_event, notify. intros Hrun Hf.
  destruct r as [[] | e].
  - e_inv. unfold funded. e_simpl. by eapply surplus_settle.
  - e_err; try done; by apply (surplus_delete 0 (Locked s)).
Qed.

Lemma settle_partial_funded ev nt id to a s s' :
  amount_typed a -> settle_partial cfg ev nt id to a s = (Ok tt, s') -> funded s -> funded s'.
Proof.
  unfold settle_partial, close, remove_expiry_schedule, deposit_event, notify, amount_typed.
  intros Ha Hrun Hf. e_inv; unfold funded; e_simpl;
    match goal with Ht : transfer _ _ _ _ _ = Some _ |- _ =>
      apply (surplus_withdraw (Locked s) _ id) in Ht; [| done | unfold amount_of in *; lia] end;
    first [done | by apply surplus_delete].
Qed.

Lemma transfer_from_escrow_funded id to a s s' :
  amount_typed a -> transfer_from_escrow cfg id to a s = (Ok tt, s') -> funded s -> funded s'.
Proof.
  unfold transfer_from_escrow, deposit_event, amount_typed. intros Ha Hrun Hf.
  e_inv; unfold funded; e_simpl;
    match goal with Ht : transfer _ _ _ _ _ = Some _ |- _ =>
      apply (surplus_withdraw (Locked s) _ id) in Ht; [| done | unfold amount_of in *; lia] end;
    first [done | by apply surplus_delete].
Qed.

Lemma lock_from_funded payer id a s s' :
  amount_typed a -> payer <> escrow_account cfg ->
  lock_from cfg payer id a s = (Ok tt, s') -> funded s -> funded s'.
Proof.
  unfold lock_from, deposit_event, amount_typed. intros Ha Hne Hrun Hf.
  e_inv; unfold funded; e_simpl; eapply surplus_deposit; try done; lia.
Qed.

Lemma mul_floor_bounds bps total :
  0 <= bps <= 10000 -> 0 <= total -> 0 <= mul_floor (bps * 100) total <= total.
Proof.
  intros Hb Ht. rewrite mul_floor_spec by lia. split; [apply Z.div_pos; nia |].
  apply Z.div_le_upper_bound; nia.
Qed.

Lemma basis_points bps total : bps <= 10000 -> 0 <= bps -> 0 <= total ->
  mul_floor (bps * 100) total = total * bps / 10000.
Proof.
  intros. rewrite mul_floor_spec by lia.
  replace (total * (bps * 100)) with (total * bps * 100) by lia.
  change 1000000 with (10000 * 100). by rewrite Z.div_mul_cancel_r by lia.
Qed.

(** A payment out of a funded account moves exactly its amount. *)
Lemma pay_exact b k l to a ex l' x :
  surplus b k l -> 0 <= a <= b -> to <> escrow_account cfg ->
  transfer (escrow_account cfg) to a ex l = Some l' ->
  balance x l' = balance x l + (if decide (x = to) then a else 0)
    - (if decide (x = escrow_account cfg) then a else 0).
Proof.
  intros [Hpos Hb] Ha Hne Ht.
  assert (0 <= msum (fun _ a => a) k) by (by apply msum_nonneg).
  destruct (decide (x = to)) as [-> | Hto]; [| destruct (decide (x = escrow_account cfg)) as [-> | Hesc]].
  - rewrite decide_False by done.
    rewrite (transfer_to _ _ _ _ _ _ (not_eq_sym Hne) (proj1 Ha) Ht). lia.
  - destruct (transfer_from _ _ _ _ _ _ (not_eq_sym Hne) (proj1 Ha) Ht)
      as [_ [-> | (_ & ? & _)]]; lia.
  - rewrite (transfer_other _ _ _ _ _ _ x Hesc Hto Ht). lia.
Qed.

Lemma shares_surplus k l a b ra rb l' :
  surplus (ra + rb) k l -> 0 <= ra -> 0 <= rb -> shares_paid cfg a b ra rb l l' -> surplus 0 k l'.
Proof.
  intros Hs Ha Hb [(_ & _ & l1 & Ht1 & Ht2) | [(_ & -> & Ht1) | [(-> & _ & Ht1) | (-> & -> & ->)]]].
  - eapply surplus_pay in Ht1; [| exact Hs | lia]. eapply surplus_pay in Ht2; [| exact Ht1 | lia].
    eapply surplus_weaken; [done | lia].
  - eapply surplus_pay in Ht1; [| exact Hs | lia]. eapply surplus_weaken; [done | lia].
  - eapply surplus_pay in Ht1; [| exact Hs | lia]. eapply surplus_weaken; [done | lia].
  - done.
Qed.

Lemma shares_exact k l a b ra rb l' x :
  surplus (ra + rb) k l -> 0 <= ra -> 0 <= rb -> shares_paid cfg a b ra rb l l' ->
  a <> escrow_account cfg -> b <> escrow_account cfg ->
  balance x l' = balance x l + (if decide (x = a) then ra else 0)
    + (if decide (x = b) then rb else 0)
    - (if decide (x = escrow_account cfg) then ra + rb else 0).
Proof.
  intros Hs Ha Hb Hpaid Hna Hnb.
  destruct Hpaid as [(_ & _ & l1 & Ht1 & Ht2) | [(_ & -> & Ht1) | [(-> & _ & Ht1) | (-> & -> & ->)]]].
  - pose proof (surplus_pay _ _ _ _ _ _ _ Hs ltac:(split; [exact Ha | lia]) Ht1) as Hs1.
    apply (pay_exact (ra + rb - ra) k l1 b rb _ l' x) in Ht2; [| exact Hs1 | lia | done].
    apply (pay_exact (ra + rb) k l a ra _ l1 x) in Ht1; [| exact Hs | lia | done].
    repeat case_decide; lia.
  - apply (pay_exact (ra + 0) k l a ra _ l' x) in Ht1; [| exact Hs | lia | done]. repeat case_decide; lia.
  - apply (pay_exact (0 + rb) k l b rb _ l' x) in Ht1; [| exact Hs | lia | done]. repeat case_decide; lia.
  - repeat case_decide; lia.
Qed.

(** A successful split: the ledger paid the shares of what was locked. *)
Lemma split_partial_Ok id a b bps s s' :
  funded s -> 0 <= bps -> split_partial cfg id a b bps s = (Ok tt, s') ->
  let total := amount_of s id in
  let released := total * bps / 10000 in
  bps <= 10000 /\ 0 <= released <= total /\
  surplus (released + (total - released)) (delete id (Locked s)) (ledger s) /\
  shares_paid cfg a b released (total - released) (ledger s) (ledger s') /\
  Locked s' = delete id (Locked s) /\ lock_state s' id = STATE_CLOSED.
Proof.
  unfold split_partial, close, remove_expiry_schedule, deposit_event, notify.
  intros Hf Hbps Hrun.
  pose proof (surplus_get 0 _ _ id Hf) as Hpos. apply (surplus_take _ _ _ id) in Hf.
  assert (bps <= 10000) as Hle by (apply bind_Ok in Hrun as (? & ? & [? _]%ensure_Ok & _); done).
  assert (mul_floor (bps * 100) (amount_of s id) = amount_of s id * bps / 10000) as Hmul
    by (by apply basis_points).
  pose proof (mul_floor_bounds bps (amount_of s id) (conj Hbps Hle) Hpos) as Hrel.
  rewrite Hmul in Hrel. fold (amount_of s id) in Hf.
  set (released := amount_of s id * bps / 10000) in *.
  split; [done |]. split; [done |].
  split; [eapply surplus_weaken; [exact Hf | lia] |].
  e_inv; rewrite ?Hmul, ?sat_sub_exact in * by lia; e_simpl;
    (split; [done |]; split; [done |]); unfold lock_state; e_simpl;
    by rewrite get0_insert, decide_True.
Qed.

Lemma split_partial_funded id a b bps s s' :
  0 <= bps -> split_partial cfg id a b bps s = (Ok tt, s') -> funded s -> funded s'.
Proof.
  intros Hbps Hrun Hf.
  destruct (split_partial_Ok _ _ _ _ _ _ Hf Hbps Hrun) as (_ & ? & Hs & Hpaid & Hk & _).
  unfold funded. rewrite Hk. eapply shares_surplus; [exact Hs | lia | lia | done].
Qed.

(** A lock is below the type's maximum: the held account could not hold it and
    the minimum balance otherwise. *)
Lemma funded_lt_max s id : funded s -> get0 (Locked s) id < u128_max.
Proof.
  intros Hf. pose proof (surplus_get 0 _ _ id Hf). destruct Hf as [Hpos Hb].
  pose proof (balance_max (escrow_account cfg) (ledger s)). pose proof minimum_balance_pos.
  assert (get0 (Locked s) id <= msum (fun _ a => a) (Locked s)); [| lia].
  unfold get0. destruct (Locked s !! id) as [a |] eqn:Ha; simpl.
  - by apply (msum_elem_le (fun _ a => a) _ id).
  - by apply msum_nonneg.
Qed.

Lemma foldl_sat_add (entries : list (AccountId * Z)) acc :
  0 <= acc -> Forall (fun e => 0 <= e.2) entries ->
  foldl (fun acc e => sat_add u128_max acc e.2) acc entries < u128_max ->
  foldl (fun acc e => sat_add u128_max acc e.2) acc entries =
    foldl (fun acc e => acc + e.2) acc entries /\
  acc <= foldl (fun acc e => sat_add u128_max acc e.2) acc entries.
Proof.
  intros Hacc Hall. revert acc Hacc. induction Hall as [| [to a] entries Ha Hall IH];
    intros acc Hacc; simpl in *; [lia |]. intros Hlt.
  assert (0 <= sat_add u128_max acc a) as Hs by (unfold sat_add, u128_max; lia).
  destruct (IH _ Hs Hlt) as [Heq Hle].
  assert (sat_add u128_max acc a = acc + a) as Hexact by (unfold sat_add in *; lia).
  rewrite Hexact in *. lia.
Qed.

Lemma foldl_add (entries : list (AccountId * Z)) acc :
  foldl (fun acc e => acc + e.2) acc entries =
    acc + foldr (fun e sum => e.2 + sum) 0 entries.
Proof. revert acc. induction entries as [| [to a] l IH]; intros acc; simpl; [lia |]. rewrite IH. lia. Qed.

Lemma pay_entries_funded id cur entries s cur' s' :
  funded s -> cur = get0 (Locked s) id -> Forall (fun e => 0 <= e.2) entries ->
  foldr (fun e sum => e.2 + sum) 0 entries <= cur ->
  pay_entries cfg id cur entries s = (Ok cur', s') ->
  funded s' /\ cur' = get0 (Locked s') id.
Proof.
  intros Hf Hcur Hall. revert cur s Hf Hcur.
  induction Hall as [| [to a] entries Ha Hall IH]; intros cur s Hf Hcur Hsum Hrun; simpl in *.
  - by m_inv.
  - assert (0 <= foldr (fun (e : AccountId * Z) sum => e.2 + sum) 0 entries)
      by (clear -Hall; induction Hall; simpl in *; lia).
    destruct (decide (a = 0)) as [-> | Hne]; [by eapply IH in Hrun |].
    unfold deposit_event, notify in Hrun. e_inv. simpl in *.
    eapply IH in Hrun; [done | | by e_simpl; unfold get0; rewrite lookup_insert_eq |].
    + unfold funded. e_simpl. by eapply surplus_withdraw; [| lia |].
    + rewrite sat_sub_exact; lia.
Qed.

Lemma release_split_funded o id entries s s' :
  Forall (fun e => amount_typed e.2) entries ->
  release_split cfg o id entries s = (Ok tt, s') -> funded s -> funded s'.
Proof.
  unfold release_split, close, remove_expiry_schedule. intros Hty Hrun Hf.
  assert (Forall (fun e : AccountId * Z => 0 <= e.2) entries) as Hpos
    by (eapply Forall_impl; [done | by intros e []]).
  pose proof (funded_lt_max s id Hf) as Hmax.
  e_inv; unfold amount_of in *;
    match goal with He : pay_entries _ _ _ _ _ = (Ok ?c, ?s1) |- _ =>
      assert (funded s1) as Hf1 by
        (destruct (foldl_sat_add entries 0 ltac:(done) Hpos ltac:(lia)) as [Heq _];
         rewrite Heq, foldl_add in *;
         eapply pay_entries_funded; [exact Hf | reflexivity | done | | exact He]; lia)
    end; [| done].
  unfold funded. e_simpl. by apply surplus_delete.
Qed.

Lemma leave_dispute_funded id s u s' :
  leave_dispute id s = (Ok u, s') -> funded s -> funded s'.
Proof. intros [_ ->]%leave_dispute_Ok. apply funded_same; by e_simpl. Qed.

Lemma force_settle_funded action o id to s s' :
  force_settle cfg action o id to s = (Ok tt, s') -> funded s -> funded s'.
Proof.
  unfold force_settle, remove_expiry_schedule, deposit_event, notify. intros Hrun Hf.
  e_inv. unfold funded. e_simpl. by eapply surplus_settle.
Qed.

Lemma clean_ids_funded ids s r s' : clean_ids ids s = (r, s') -> funded s -> funded s'.
Proof.
  revert s r s'. induction ids as [| id ids IH]; intros s r s'; simpl; [by intros [= _ <-] |].
  unfold bind at 1 2, gets. simpl.
  case_decide; [by apply IH |]. case_decide; [by apply IH |].
  unfold bind, remove_expiry_schedule, modify. simpl.
  destruct (clean_ids ids _) as [[l | e] s1] eqn:Hrest; intros [= _ <-] Hf;
    (eapply IH; [exact Hrest |]); unfold funded; e_simpl; by apply surplus_delete.
Qed.

Lemma expire_lock_funded id s r s' : expire_lock cfg id s = (r, s') -> funded s -> funded s'.
Proof.
  unfold expire_lock, release_all, refund_all, deposit_event, notify, bind, gets, attempt, ret,
    modify; simpl.
  destruct (on_expire cfg s id) as [[to | to |] |]; intros Hrun Hf;
    try (by simplify_eq; unfold funded; e_simpl).
  all: destruct (settle_all _ _ _ _ _ s) as [[u | e] s1] eqn:Hs;
    pose proof (settle_all_funded _ _ _ _ _ _ _ Hs Hf); by simplify_eq.
Qed.

Lemma process_expiring_funded n id s r s' :
  process_expiring cfg n id s = (r, s') -> funded s -> funded s'.
Proof.
  unfold process_expiring, try_schedule_expiry_at. rewrite !run_gets.
  case_decide; [| apply expire_lock_funded]. intros Hrun Hf.
  match type of Hrun with (if ?b then _ else _) _ = _ => destruct b end.
  - rewrite !run_modify in Hrun. eapply expire_lock_funded; [exact Hrun |]. done.
  - unfold bind in Hrun. destruct (try_targets _ _ _ s) as [[b | e] s1] eqn:Ht;
      apply try_targets_frame in Ht as (Hk & _ & _ & _ & _ & Hl);
      assert (funded s1) as Hf1 by (by eapply funded_same); [destruct b |]; unfold ret, modify in Hrun; by simplify_eq/=.
Qed.

Lemma on_initialize_funded n s r s' :
  on_initialize cfg n s = (r, s') -> funded s -> funded s'.
Proof.
  unfold on_initialize. rewrite run_gets, run_modify. intros Hrun Hf.
  eapply (for_each_ind funded); [| | exact Hrun]; [| done].
  intros id s1 r1 s2 _ Hf1 Hp. by eapply process_expiring_funded.
Qed.

Lemma call_funded env o c s s' :
  call_typed c -> call_payer c <> Some (escrow_account cfg) ->
  apply_call cfg env o c s = (Ok tt, s') -> funded s -> funded s'.
Proof.
  intros Hty Hpayer Hrun Hf. destruct c; simpl in *;
    unfold lock, release, refund, dispute, apply_decision_release_all, apply_decision_refund_all,
      apply_decision_partial_bps, set_pause, schedule_expiry, cancel_expiry, force_release,
      force_refund, cleanup_closed, remove_expiry_schedule, deposit_event in Hrun;
    try (by eapply release_split_funded); try (by eapply force_settle_funded);
    e_inv; try (by unfold funded; e_simpl); try done;
    repeat match goal with
    | Hd : leave_dispute _ _ = _ |- _ => apply leave_dispute_funded in Hd; [| done]
    | Hr : release_all _ _ _ _ = _ |- _ => apply settle_all_funded in Hr; [| done]
    | Hr : refund_all _ _ _ _ = _ |- _ => apply settle_all_funded in Hr; [| done]
    | Hr : clean_ids _ _ = _ |- _ => apply clean_ids_funded in Hr; [| done]
    end; try done.
  - eapply lock_from_funded; [exact Hty | | exact Hrun | done]. congruence.
  - by apply do_set_disputed_frame in Hrun as (? & ? & _); eapply funded_same.
  - match goal with Hs : split_partial _ _ _ _ _ _ = _ |- _ =>
      eapply split_partial_funded in Hs; [| | done]; [by unfold funded in *; e_simpl | lia] end.
Qed.

Lemma op_funded env op s s' :
  op_typed op -> op_payer op <> Some (escrow_account cfg) ->
  apply_op cfg env op s = (Ok tt, s') -> funded s -> funded s'.
Proof.
  intros Hty Hpayer Hrun Hf. destruct op; simpl in *.
  - eapply lock_from_funded; [exact Hty | | exact Hrun | done]. congruence.
  - by eapply transfer_from_escrow_funded.
  - by eapply settle_all_funded.
  - by eapply settle_all_funded.
  - by eapply settle_partial_funded.
  - by eapply settle_partial_funded.
  - eapply split_partial_funded; [| exact Hrun | done]. lia.
  - by apply do_set_disputed_frame in Hrun as (? & ? & _); eapply funded_same.
  - unfold set_resolved in Hrun. by e_inv.
Qed.

Lemma step_funded s s' : step cfg s s' -> funded s -> funded s'.
Proof.
  intros [env o c r Hty Hp Hcall | env op r Hty Hp Hop | n r Hblock | l Hl ->] Hf.
  - apply transactional_cases in Hcall as [([] & -> & Hrun) | (e & -> & ->)]; [| done].
    by eapply call_funded.
  - apply transactional_cases in Hop as [([] & -> & Hrun) | (e & -> & ->)]; [| done].
    by eapply op_funded.
  - by eapply on_initialize_funded.
  - destruct Hf as [Hpos Hb]. split; [done |]. simpl. lia.
Qed.


(** a split pays the receiver of the released share exactly the floor of
    the locked amount times the basis points, the other one exactly the rest,
    takes exactly the locked amount from the held account, touches nobody else,
    and leaves the identifier closed and empty. *)
Theorem split_exact id release_to refund_to bps s s' x :
  funded s -> 0 <= bps ->
  release_to <> escrow_account cfg -> refund_to <> escrow_account cfg ->
  split_partial cfg id release_to refund_to bps s = (Ok tt, s') ->
  let total := amount_of s id in
  let released := total * bps / 10000 in
  balance x (ledger s') = balance x (ledger s)
    + (if decide (x = release_to) then released else 0)
    + (if decide (x = refund_to) then total - released else 0)
    - (if decide (x = escrow_account cfg) then total else 0) /\
  amount_of s' id = 0 /\ lock_state s' id = STATE_CLOSED.
Proof.
  intros Hf Hbps Hne1 Hne2 Hrun total released.
  destruct (split_partial_Ok _ _ _ _ _ _ Hf Hbps Hrun) as (_ & ? & Hs & Hpaid & Hk & Hst).
  split_and!; [| unfold amount_of, get0; by rewrite Hk, lookup_delete_eq | done].
  rewrite (shares_exact _ _ _ _ _ _ _ x Hs ltac:(lia) ltac:(lia) Hpaid Hne1 Hne2).
  subst released total. repeat case_decide; lia.
Qed.
End Solvency.

(** * When the account is not endowed, and when a payment fails *)

Section Stranded.
Context `{FrameSystem} {L : Type} `{TransferCurrency L} `{PermillOps} (cfg : Config L).
Implicit Types (s : State L).

(** The currency refuses to pay [id] out to [to]. *)
Definition payout_refused s id (to : AccountId) : Prop :=
  transfer (escrow_account cfg) to (amount_of s id) AllowDeath (ledger s) = None.

(** A settlement the currency refuses, outside a transaction. *)
Lemma settle_all_refused ev nt id to s :
  lock_state s id = STATE_LOCKED -> amount_of s id <> 0 ->
  payout_refused s id to ->
  settle_all cfg ev nt id to s = (Err (Module NoLock), s <| Locked ::= delete id |>).
Proof.
  intros Hst Ham Hfail. unfold payout_refused in Hfail. unfold settle_all, ensure_open, take_locked, pay.
  assert (lock_state s id <> STATE_DISPUTED) by (by rewrite Hst).
  assert (lock_state s id <> STATE_CLOSED) by (by rewrite Hst).
  by m_run.
Qed.

Lemma settle_all_empty ev nt id to s :
  amount_of s id = 0 -> (settle_all cfg ev nt id to s).1 <> Ok tt.
Proof.
  intros Ham Hok. destruct (settle_all _ _ _ _ _ s) as [res s2] eqn:Hrun. simpl in Hok. subst.
  unfold settle_all in Hrun. by e_inv.
Qed.

Lemma transactional_fst {S E A} (m : M S E A) (s : S) : (transactional m s).1 = (m s).1.
Proof. unfold transactional. by destruct (m s) as [[? | ?] ?]. Qed.

(** The block hook takes the lock out of the books before it pays and is
    not rolled back. When the refund of the only identifier expiring in a block
    is refused by the currency, the block leaves the balances as they were,
    nothing locked and the state not closed, and from then on neither the
    authorized pallet nor the administrator can pay it out. *)
Theorem failed_expiry_strands_funds n id to s r s' :
  ExpiringAt s !! n = Some [id] -> lock_state s id = STATE_LOCKED -> amount_of s id <> 0 ->
  (forall s1, PayerOf s1 = PayerOf s -> on_expire cfg s1 id = Some (RefundAll to)) ->
  payout_refused s id to ->
  on_initialize cfg n s = (r, s') ->
  ledger s' = ledger s /\ amount_of s' id = 0 /\ lock_state s' id = STATE_LOCKED /\
  (forall o to', (transactional (release cfg o id to') s').1 <> Ok tt /\
     (transactional (refund cfg o id to') s').1 <> Ok tt) /\
  (forall action o to', (transactional (force_settle cfg action o id to') s').1 <> Ok tt).
Proof.
  intros Hlist Hst Ham Hpol Hfail Hrun.
  assert (ledger s' = ledger s /\ amount_of s' id = 0 /\ lock_state s' id = STATE_LOCKED)
    as (Hl & Ha & Hs).
  { unfold on_initialize in Hrun. rewrite run_gets, run_modify, Hlist in Hrun. simpl in Hrun.
    match type of Hrun with _ ?st = _ => set (s0 := st) in Hrun end.
    assert (lock_state s0 id <> STATE_DISPUTED) by (change (lock_state s id <> 1); by rewrite Hst).
    unfold process_expiring, expire_lock, refund_all in Hrun.
    rewrite run_bind, run_gets, run_bind, run_gets, decide_False in Hrun by done.
    rewrite !run_bind, run_gets in Hrun. cbv beta in Hrun. rewrite (Hpol s0 eq_refl) in Hrun.
    unfold attempt, bind, ret, modify in Hrun.
    rewrite (settle_all_refused _ _ id to s0 Hst Ham Hfail) in Hrun. simplify_eq/=.
    split_and!; [done | | done]. unfold amount_of, get0. simpl. by rewrite lookup_delete_eq. }
  split_and!; [done.. | |].
  - intros o to'. rewrite !transactional_fst. unfold release, refund.
    split; intros Hok; destruct (bind _ _ s') as [res s2] eqn:Hr; simpl in Hok; subst; e_inv;
      eapply settle_all_empty; [exact Ha | | exact Ha |];
      unfold release_all, refund_all in *; by rewrite Hr.
  - intros action o to'. rewrite transactional_fst. unfold force_settle. intros Hok.
    destruct (bind _ _ s') as [res s2] eqn:Hr; simpl in Hok; subst. by e_inv.
Qed.
End Stranded.

(** * Concrete runs *)

(** The held account is endowed with 5, the minimum. *)
Definition endowed : SimpleBank := {[ 9%N := 5%N; 1%N := 20%N; 2%N := 50%N ]}.
Definition unendowed : SimpleBank := {[ 1%N := 20%N; 2%N := 50%N ]}.

Definition deal : list Action :=
  [ACall (CLock 70 1 10); ACall (CLock 71 2 30); ACall (CDispute 71 1 []);
   ACall (CDecisionPartialBps 71 1 2 3333)].

Lemma deal_ok : Forall action_ok deal.
Proof. refine (bool_decide_unpack _ _). by vm_compute. Qed.


Lemma split_exact_witness :
  let s := run (genesis endowed) (take 2 deal) in
  let s' := (split_partial test_config 71 1 2 3333 s).2 in
  balance 1%N (ledger s) = 10 /\ balance 1%N (ledger s') = 19 /\ amount_of s' 71 = 0.
Proof.
  intros s s'. split; [by vm_compute |]. split; [by vm_compute |].
  refine (proj1 (proj2 (split_exact test_config 71 1 2 3333 s s' 1%N _ _ _ _ _)));
    [| lia | done | done | by vm_compute].
  split; [| by vm_compute]. by apply (bool_decide_unpack (map_Forall _ _)); vm_compute.
Defined.

(** Without the endowment the minimum balance rule breaks solvency: two
    deals are locked, the larger one is released with [AllowDeath], what is left
    of the smaller one is below the minimum balance and the account is removed
    with it. The smaller deal is still on the books and cannot be paid. *)
Theorem unendowed_account_loses_locks :
  exists acts, Forall action_ok acts /\
    let s := run (genesis unendowed) acts in
    amount_of s 71 = 3 /\ lock_state s 71 = STATE_LOCKED /\ balance 9%N (ledger s) = 0 /\
    (release test_config (SignedBy 7) 71 2 s).1 = Err (Module NoLock).
Proof.
  exists [ACall (CLock 70 1 10); ACall (CLock 71 2 3); ACall (CRelease 70 2)].
  split; [refine (bool_decide_unpack _ _) |]; by vm_compute.
Qed.

(** Account 1 locks 3 of its 20 until block 50, then spends the rest. *)
Definition stranding : State SimpleBank :=
  run (genesis endowed) [ACall (CLock 70 1 3); ACall (CScheduleExpiry 70 50); APay 1 2 17].

Lemma failed_expiry_strands_funds_witness :
  let s' := (on_initialize test_config 50 stranding).2 in
  amount_of stranding 70 = 3 /\ balance 9%N (ledger s') = 8 /\ amount_of s' 70 = 0.
Proof.
  split; [by vm_compute |]. split; [by vm_compute |].
  refine (proj1 (proj2 (failed_expiry_strands_funds test_config 50 70 1%N stranding _ _ _ _ _ _ _ _)));
    try (by vm_compute).
  intros s1 Hp. unfold on_expire, test_config, default_on_expire. rewrite Hp. by vm_compute.
Defined.
