(* ===== verification/EscrowStates.v ===== *)
(** The lock states of [pallet-dispute-escrow]: the three states and what holds
    in each, and that a dispute freezes the funds until it is settled. *)

From S2P Require Import Prelude Frame ChatCommon Escrow.
Import EscrowPallet.

(** * Lock states *)

Section LockStates.
Context `{FrameSystem} {L : Type} `{TransferCurrency L} `{PermillOps} (cfg : Config L).
Implicit Types (s : State L).

(** [closed] identifiers hold nothing; disputed ones hold something and have the
    block the dispute began at, which others do not. *)
Definition lock_ok (state locked : Z) (disputed_at : option Z) : Prop :=
  (state = STATE_LOCKED /\ disputed_at = None) \/
  (state = STATE_DISPUTED /\ locked <> 0 /\ is_Some disputed_at) \/
  (state = STATE_CLOSED /\ locked = 0 /\ disputed_at = None).

Definition states_ok s : Prop :=
  forall id, lock_ok (lock_state s id) (amount_of s id) (DisputedAt s !! id).

Lemma states_ok_same s s' :
  Locked s' = Locked s -> LockStateOf s' = LockStateOf s -> DisputedAt s' = DisputedAt s ->
  states_ok s -> states_ok s'.
Proof. unfold states_ok, lock_state, amount_of. by intros -> -> ->. Qed.

(** One identifier's entry is rewritten. *)
Lemma states_ok_at id s s' :
  (forall id', id' <> id ->
    lock_state s' id' = lock_state s id' /\ amount_of s' id' = amount_of s id' /\
    DisputedAt s' !! id' = DisputedAt s !! id') ->
  lock_ok (lock_state s' id) (amount_of s' id) (DisputedAt s' !! id) ->
  states_ok s -> states_ok s'.
Proof.
  intros Hother Hid Hs id'. destruct (decide (id' = id)) as [-> | Hne]; [done |].
  destruct (Hother id' Hne) as (-> & -> & ->). apply Hs.
Qed.

Lemma open_entry s id :
  states_ok s -> lock_state s id <> STATE_DISPUTED -> lock_state s id <> STATE_CLOSED ->
  lock_state s id = STATE_LOCKED /\ DisputedAt s !! id = None.
Proof. intros Hs. destruct (Hs id) as [? | [[? _] | [? _]]]; done. Qed.

(** Reduces [states_ok] after an operation on [id] to [id]'s own entry. *)
Ltac at_entry i :=
  match goal with
  | Hs : states_ok ?s |- states_ok _ =>
      apply (states_ok_at i s);
      [ let id' := fresh "id'" in let Hne := fresh "Hne" in
        intros id' Hne; unfold lock_state, amount_of; e_simpl; rewrite ?get0_insert;
        unfold get0; rewrite ?lookup_delete_ne, ?lookup_insert_ne by done;
        rewrite ?decide_False by done; done
      | unfold lock_state, amount_of; e_simpl; rewrite ?get0_insert; unfold get0;
        rewrite ?lookup_delete_eq, ?lookup_insert_eq, ?decide_True by done
      | exact Hs ]
  end.

Lemma settle_all_states ev nt id to s r s' :
  settle_all cfg ev nt id to s = (r, s') -> states_ok s -> states_ok s'.
Proof.
  unfold settle_all, close, remove_expiry_schedule, deposit_event, notify. intros Hrun Hs.
  destruct r as [[] | e].
  - e_inv. destruct (open_entry s id) as [? ?]; [done.. |].
    at_entry id. right; right. done.
  - e_err; try done; destruct (open_entry s id) as [? ?]; try done; at_entry id; by left.
Qed.

Lemma settle_partial_states ev nt id to a s s' :
  settle_partial cfg ev nt id to a s = (Ok tt, s') -> states_ok s -> states_ok s'.
Proof.
  unfold settle_partial, close, remove_expiry_schedule, deposit_event, notify. intros Hrun Hs.
  e_inv; destruct (open_entry s id) as [? ?]; try done; at_entry id; [by right; right | by left].
Qed.

Lemma transfer_from_escrow_states id to a s s' :
  transfer_from_escrow cfg id to a s = (Ok tt, s') -> states_ok s -> states_ok s'.
Proof.
  unfold transfer_from_escrow, deposit_event. intros Hrun Hs.
  e_inv; destruct (open_entry s id) as [? ?]; try done; at_entry id; by left.
Qed.

Lemma lock_from_states payer id a s s' :
  lock_from cfg payer id a s = (Ok tt, s') -> states_ok s -> states_ok s'.
Proof.
  unfold lock_from, deposit_event. intros Hrun Hs.
  e_inv; destruct (open_entry s id) as [? ?]; try done; at_entry id; by left.
Qed.

Lemma split_partial_states id a b bps s s' :
  split_partial cfg id a b bps s = (Ok tt, s') -> states_ok s -> states_ok s'.
Proof.
  unfold split_partial, close, remove_expiry_schedule, deposit_event, notify. intros Hrun Hs.
  e_inv; destruct (open_entry s id) as [? ?]; try done; at_entry id; by right; right.
Qed.

Lemma force_settle_states action o id to s s' :
  force_settle cfg action o id to s = (Ok tt, s') -> states_ok s -> states_ok s'.
Proof.
  unfold force_settle, remove_expiry_schedule, deposit_event, notify. intros Hrun Hs.
  e_inv. at_entry id. by right; right.
Qed.

Lemma leave_dispute_states id s u s' :
  leave_dispute id s = (Ok u, s') -> states_ok s -> states_ok s'.
Proof. intros [_ ->]%leave_dispute_Ok Hs. at_entry id. by left. Qed.

Lemma do_set_disputed_states env id reason detail s s' :
  do_set_disputed cfg env id reason detail s = (Ok tt, s') -> states_ok s -> states_ok s'.
Proof.
  intros (Hk & _ & _ & Hst & Hd & Hne & Hcl)%do_set_disputed_frame Hs.
  apply (states_ok_at id s); [| | done]; unfold lock_state, amount_of in *; rewrite Hk, Hst, Hd.
  - intros id' Hid. rewrite get0_insert, decide_False, lookup_insert_ne by done. done.
  - rewrite get0_insert, decide_True, lookup_insert_eq by done. right; left. eauto.
Qed.

Lemma pay_entries_frame id cur entries s cur' s' :
  pay_entries cfg id cur entries s = (Ok cur', s') ->
  LockStateOf s' = LockStateOf s /\ DisputedAt s' = DisputedAt s /\
  forall id', id' <> id -> amount_of s' id' = amount_of s id'.
Proof.
  revert cur s. induction entries as [| [to a] entries IH]; intros cur s Hrun; simpl in *.
  - by m_inv.
  - case_decide; [by eapply IH |]. unfold deposit_event, notify in Hrun. e_inv.
    apply IH in Hrun as (-> & -> & Ha). e_simpl. split_and!; [done.. |].
    intros id' Hne. rewrite Ha by done. unfold amount_of. e_simpl.
    by rewrite get0_insert, decide_False.
Qed.

Lemma release_split_states o id entries s s' :
  release_split cfg o id entries s = (Ok tt, s') -> states_ok s -> states_ok s'.
Proof.
  unfold release_split, close, remove_expiry_schedule. intros Hrun Hs.
  e_inv; destruct (open_entry s id) as [Hst Hd]; try done;
    match goal with Hp : pay_entries _ _ _ _ _ = _ |- _ =>
      apply pay_entries_frame in Hp as (Hl & Hda & Ha) end;
    unfold lock_state, amount_of in *;
    (apply (states_ok_at id s); [| | done]); unfold lock_state, amount_of; e_simpl;
    rewrite ?Hl, ?Hda.
  - intros id' Hne. rewrite get0_insert, decide_False by done. split_and!; [done | | done].
    rewrite <- Ha by done. unfold get0. by rewrite lookup_delete_ne.
  - right; right. rewrite get0_insert, decide_True by done. unfold get0.
    by rewrite lookup_delete_eq.
  - intros id' Hne. by rewrite Ha.
  - left. done.
Qed.

Lemma clean_ids_states ids s r s' : clean_ids ids s = (r, s') -> states_ok s -> states_ok s'.
Proof.
  revert s r s'. induction ids as [| id ids IH]; intros s r s'; simpl; [by intros [= _ <-] |].
  unfold bind at 1 2, gets. simpl.
  case_decide; [by apply IH |]. case_decide; [by apply IH |].
  unfold bind, remove_expiry_schedule, modify. simpl.
  destruct (clean_ids ids _) as [[l | e] s1] eqn:Hrest; intros [= _ <-] Hs;
    (eapply IH; [exact Hrest |]); at_entry id; by left.
Qed.

Lemma expire_lock_states id s r s' : expire_lock cfg id s = (r, s') -> states_ok s -> states_ok s'.
Proof.
  unfold expire_lock, release_all, refund_all, deposit_event, notify, bind, gets, attempt, ret,
    modify; simpl.
  destruct (on_expire cfg s id) as [[to | to |] |]; intros Hrun Hs;
    try (by simplify_eq; eapply states_ok_same; [.. | exact Hs]).
  all: destruct (settle_all _ _ _ _ _ s) as [[u | e] s1] eqn:Hset;
    pose proof (settle_all_states _ _ _ _ _ _ _ Hset Hs); simplify_eq;
    by eapply states_ok_same; [.. | eassumption].
Qed.

Lemma process_expiring_states n id s r s' :
  process_expiring cfg n id s = (r, s') -> states_ok s -> states_ok s'.
Proof.
  unfold process_expiring, try_schedule_expiry_at. rewrite !run_gets.
  case_decide; [| apply expire_lock_states]. intros Hrun Hs.
  match type of Hrun with (if ?b then _ else _) _ = _ => destruct b end.
  - rewrite !run_modify in Hrun. eapply expire_lock_states; [exact Hrun |].
    at_entry id. by left.
  - unfold bind in Hrun. destruct (try_targets _ _ _ s) as [[b | e] s1] eqn:Ht;
      apply try_targets_frame in Ht as (Hk & _ & Hst & Hda & _ & _);
      assert (states_ok s1) by (by eapply states_ok_same);
      [destruct b |]; unfold ret, modify in Hrun; simplify_eq/=; done.
Qed.

Lemma on_initialize_states n s r s' :
  on_initialize cfg n s = (r, s') -> states_ok s -> states_ok s'.
Proof.
  unfold on_initialize. rewrite run_gets, run_modify. intros Hrun Hs.
  eapply (for_each_ind states_ok); [| | exact Hrun].
  - intros id s1 r1 s2 _ Hs1 Hp. by eapply process_expiring_states.
  - by eapply states_ok_same; [.. | exact Hs].
Qed.

Lemma call_states env o c s s' :
  apply_call cfg env o c s = (Ok tt, s') -> states_ok s -> states_ok s'.
Proof.
  intros Hrun Hs. destruct c; simpl in *;
    unfold lock, release, refund, dispute, apply_decision_release_all, apply_decision_refund_all,
      apply_decision_partial_bps, set_pause, schedule_expiry, cancel_expiry, force_release,
      force_refund, cleanup_closed, remove_expiry_schedule, deposit_event in Hrun;
    try (by eapply release_split_states); try (by eapply force_settle_states);
    e_inv;
    repeat match goal with
    | Hd : leave_dispute _ _ = _ |- _ => apply leave_dispute_states in Hd; [| done]
    | Hr : release_all _ _ _ _ = _ |- _ => apply settle_all_states in Hr; [| done]
    | Hr : refund_all _ _ _ _ = _ |- _ => apply settle_all_states in Hr; [| done]
    | Hr : clean_ids _ _ = _ |- _ => apply clean_ids_states in Hr; [| done]
    | Hr : split_partial _ _ _ _ _ _ = _ |- _ => apply split_partial_states in Hr; [| done]
    | Hr : lock_from _ _ _ _ _ = _ |- _ => apply lock_from_states in Hr; [| done]
    | Hr : do_set_disputed _ _ _ _ _ _ = _ |- _ => apply do_set_disputed_states in Hr; [| done]
    end; try done; eapply states_ok_same; [.. | eassumption]; by e_simpl.
Qed.

Lemma op_states env op s s' :
  apply_op cfg env op s = (Ok tt, s') -> states_ok s -> states_ok s'.
Proof.
  intros Hrun Hs. destruct op; simpl in *.
  - by eapply lock_from_states.
  - by eapply transfer_from_escrow_states.
  - by eapply settle_all_states.
  - by eapply settle_all_states.
  - by eapply settle_partial_states.
  - by eapply settle_partial_states.
  - by eapply split_partial_states.
  - by eapply do_set_disputed_states.
  - unfold set_resolved in Hrun. e_inv. at_entry id. by left.
Qed.

Lemma step_states s s' : step cfg s s' -> states_ok s -> states_ok s'.
Proof.
  intros [env o c r Hty Hp Hcall | env op r Hty Hp Hop | n r Hblock | l Hl ->] Hs.
  - apply transactional_cases in Hcall as [([] & -> & Hrun) | (e & -> & ->)]; [| done].
    by eapply call_states.
  - apply transactional_cases in Hop as [([] & -> & Hrun) | (e & -> & ->)]; [| done].
    by eapply op_states.
  - by eapply on_initialize_states.
  - done.
Qed.

(** in every reachable state each identifier is in one of three states, a
    closed one has nothing locked (so nothing can be paid twice), and the
    dispute table has an entry exactly for the disputed ones, which still hold
    their funds. *)
Theorem lock_states_consistent l s : rtc (step cfg) (genesis l) s -> states_ok s.
Proof.
  intros Hrun. eapply (rtc_invariant (step cfg) states_ok); [| | exact Hrun].
  - intros s1 s2 Hs Hstep. by eapply step_states.
  - intros id. left. done.
Qed.
End LockStates.

(** * Disputes *)

Section Disputes.
Context `{FrameSystem} {L : Type} `{TransferCurrency L} `{PermillOps} (cfg : Config L).
Implicit Types (s : State L).

(** [id] is disputed since block [since] and holds [a]. *)
Definition frozen (id a since : Z) s : Prop :=
  lock_state s id = STATE_DISPUTED /\ amount_of s id = a /\ DisputedAt s !! id = Some since.

Lemma frozen_same id a since s s' :
  Locked s' = Locked s -> LockStateOf s' = LockStateOf s -> DisputedAt s' = DisputedAt s ->
  frozen id a since s -> frozen id a since s'.
Proof. unfold frozen, lock_state, amount_of. by intros -> -> ->. Qed.

Lemma frozen_ne id a since s id' :
  frozen id a since s -> lock_state s id' <> STATE_DISPUTED -> id <> id'.
Proof. by intros [? _] Hne <-. Qed.

(** After an operation on another identifier. *)
Ltac elsewhere :=
  match goal with
  | Hf : frozen ?i _ _ ?s |- frozen ?i _ _ _ =>
      destruct Hf as (? & ? & ?); unfold frozen, lock_state, amount_of in *; e_simpl;
      rewrite ?get0_insert, ?decide_False by done; unfold get0 in *;
      rewrite ?lookup_delete_ne, ?lookup_insert_ne by done; done
  end.

Lemma settle_all_frozen id a since ev nt id' to s r s' :
  settle_all cfg ev nt id' to s = (r, s') -> frozen id a since s -> frozen id a since s'.
Proof.
  unfold settle_all, close, remove_expiry_schedule, deposit_event, notify. intros Hrun Hf.
  destruct r as [[] | e].
  - e_inv. pose proof (frozen_ne id a since s id' Hf ltac:(done)). elsewhere.
  - e_err; try done; pose proof (frozen_ne id a since s id' Hf ltac:(done)); elsewhere.
Qed.

Lemma settle_partial_frozen id a since ev nt id' to v s s' :
  settle_partial cfg ev nt id' to v s = (Ok tt, s') ->
  frozen id a since s -> frozen id a since s'.
Proof.
  unfold settle_partial, close, remove_expiry_schedule, deposit_event, notify. intros Hrun Hf.
  e_inv; pose proof (frozen_ne id a since s id' Hf ltac:(done)); elsewhere.
Qed.

Lemma transfer_from_escrow_frozen id a since id' to v s s' :
  transfer_from_escrow cfg id' to v s = (Ok tt, s') ->
  frozen id a since s -> frozen id a since s'.
Proof.
  unfold transfer_from_escrow, deposit_event. intros Hrun Hf.
  e_inv; pose proof (frozen_ne id a since s id' Hf ltac:(done)); elsewhere.
Qed.

Lemma lock_from_frozen id a since payer id' v s s' :
  lock_from cfg payer id' v s = (Ok tt, s') -> frozen id a since s -> frozen id a since s'.
Proof.
  unfold lock_from, deposit_event. intros Hrun Hf.
  e_inv; pose proof (frozen_ne id a since s id' Hf ltac:(done)); elsewhere.
Qed.

Lemma split_partial_frozen id a since id' x y bps s s' :
  split_partial cfg id' x y bps s = (Ok tt, s') -> frozen id a since s -> frozen id a since s'.
Proof.
  unfold split_partial, close, remove_expiry_schedule, deposit_event, notify. intros Hrun Hf.
  e_inv; pose proof (frozen_ne id a since s id' Hf ltac:(done)); elsewhere.
Qed.

Lemma release_split_frozen id a since o id' entries s s' :
  release_split cfg o id' entries s = (Ok tt, s') -> frozen id a since s -> frozen id a since s'.
Proof.
  unfold release_split, close, remove_expiry_schedule. intros Hrun Hf.
  e_inv; pose proof (frozen_ne id a since s id' Hf ltac:(done)) as Hne;
    match goal with Hp : pay_entries _ _ _ _ _ = (_, ?s1) |- _ =>
      apply pay_entries_frame in Hp as (Hl & Hda & Ha);
      assert (frozen id a since s1) as Hf1
        by (destruct Hf as (? & ? & ?); unfold frozen, lock_state;
            by rewrite Hl, Hda, (Ha id Hne)) end; [| done].
  clear Hf. elsewhere.
Qed.

Lemma force_settle_frozen id a since action o id' to s s' :
  id <> id' -> force_settle cfg action o id' to s = (Ok tt, s') ->
  frozen id a since s -> frozen id a since s'.
Proof.
  unfold force_settle, remove_expiry_schedule, deposit_event, notify. intros Hne Hrun Hf.
  e_inv. elsewhere.
Qed.

Lemma leave_dispute_frozen id a since id' s u s' :
  id <> id' -> leave_dispute id' s = (Ok u, s') ->
  frozen id a since s -> frozen id a since s'.
Proof. intros Hne [_ ->]%leave_dispute_Ok Hf. elsewhere. Qed.

Lemma do_set_disputed_frozen id a since env id' reason detail s s' :
  do_set_disputed cfg env id' reason detail s = (Ok tt, s') ->
  frozen id a since s -> frozen id a since s'.
Proof.
  intros Hrun Hf. assert (lock_state s id' <> STATE_DISPUTED) as Hd'.
  { unfold do_set_disputed in Hrun. by e_inv. }
  pose proof (frozen_ne id a since s id' Hf Hd').
  apply do_set_disputed_frame in Hrun as (Hk & _ & _ & Hst & Hda & _).
  destruct Hf as (? & ? & ?). unfold frozen, lock_state, amount_of in *.
  by rewrite Hk, Hst, Hda, get0_insert, decide_False, lookup_insert_ne by done.
Qed.

Lemma clean_ids_frozen id a since ids s r s' :
  clean_ids ids s = (r, s') -> frozen id a since s -> frozen id a since s'.
Proof.
  revert s r s'. induction ids as [| id' ids IH]; intros s r s'; simpl; [by intros [= _ <-] |].
  unfold bind at 1 2, gets. simpl.
  destruct (decide (lock_state s id' <> STATE_CLOSED)) as [| Hcl]; [by apply IH |].
  case_decide; [by apply IH |].
  unfold bind, remove_expiry_schedule, modify. simpl. intros Hrun Hf.
  assert (id <> id') by (intros <-; destruct Hf as [Hd _]; rewrite Hd in Hcl; by apply Hcl).
  destruct (clean_ids ids _) as [[l | e] s1] eqn:Hrest; injection Hrun as _ <-;
    (eapply IH; [exact Hrest |]); elsewhere.
Qed.

Lemma expire_lock_frozen id a since id' s r s' :
  expire_lock cfg id' s = (r, s') -> frozen id a since s -> frozen id a since s'.
Proof.
  unfold expire_lock, release_all, refund_all, deposit_event, notify, bind, gets, attempt, ret,
    modify; simpl.
  destruct (on_expire cfg s id') as [[to | to |] |]; intros Hrun Hf;
    try (by simplify_eq; eapply frozen_same; [.. | exact Hf]).
  all: destruct (settle_all _ _ _ _ _ s) as [[u | e] s1] eqn:Hset;
    pose proof (settle_all_frozen id a since _ _ _ _ _ _ _ Hset Hf); simplify_eq;
    by eapply frozen_same; [.. | eassumption].
Qed.

Lemma process_expiring_frozen id a since n id' s r s' :
  n < sat_add u32_max since (MaxDisputeDuration cfg) ->
  process_expiring cfg n id' s = (r, s') -> frozen id a since s -> frozen id a since s'.
Proof.
  intros Hn. unfold process_expiring, try_schedule_expiry_at. rewrite !run_gets.
  case_decide as Hdis; [| apply expire_lock_frozen]. intros Hrun Hf.
  match type of Hrun with (if ?b then _ else _) _ = _ => destruct b eqn:Hout end.
  - rewrite !run_modify in Hrun. eapply expire_lock_frozen; [exact Hrun |].
    assert (id <> id').
    { intros <-. destruct Hf as (_ & _ & Hda). rewrite Hda in Hout.
      apply bool_decide_eq_true in Hout. lia. }
    elsewhere.
  - unfold bind in Hrun. destruct (try_targets _ _ _ s) as [[b | e] s1] eqn:Ht;
      apply try_targets_frame in Ht as (Hk & _ & Hst & Hda & _ & _);
      assert (frozen id a since s1) by (by eapply frozen_same);
      [destruct b |]; unfold ret, modify in Hrun; simplify_eq/=; done.
Qed.

(** The dispatchables that end the dispute of an identifier: a decision, or the
    administrator. *)
Definition call_settles (c : Call) : option Z :=
  match c with
  | CDecisionReleaseAll id _ | CDecisionRefundAll id _ | CDecisionPartialBps id _ _ _
  | CForceRelease id _ | CForceRefund id _ => Some id
  | _ => None
  end.

Definition op_settles (op : TraitOp) : option Z :=
  match op with TSetResolved id => Some id | _ => None end.

Lemma call_frozen id a since env o c s s' :
  call_settles c <> Some id -> apply_call cfg env o c s = (Ok tt, s') ->
  frozen id a since s -> frozen id a since s'.
Proof.
  intros Hset Hrun Hf. destruct c; simpl in *;
    unfold lock, release, refund, dispute, apply_decision_release_all, apply_decision_refund_all,
      apply_decision_partial_bps, set_pause, schedule_expiry, cancel_expiry, force_release,
      force_refund, cleanup_closed, remove_expiry_schedule, deposit_event in Hrun;
    try (by eapply release_split_frozen);
    try (by apply (force_settle_frozen id a since) in Hrun; [| congruence |]);
    e_inv;
    repeat match goal with
    | Hd : leave_dispute _ _ = _ |- _ => apply (leave_dispute_frozen id a since) in Hd; [| congruence | done]
    | Hr : release_all _ _ _ _ = _ |- _ => apply (settle_all_frozen id a since) in Hr; [| done]
    | Hr : refund_all _ _ _ _ = _ |- _ => apply (settle_all_frozen id a since) in Hr; [| done]
    | Hr : clean_ids _ _ = _ |- _ => apply (clean_ids_frozen id a since) in Hr; [| done]
    | Hr : split_partial _ _ _ _ _ _ = _ |- _ => apply (split_partial_frozen id a since) in Hr; [| done]
    | Hr : lock_from _ _ _ _ _ = _ |- _ => apply (lock_from_frozen id a since) in Hr; [| done]
    | Hr : do_set_disputed _ _ _ _ _ _ = _ |- _ =>
        apply (do_set_disputed_frozen id a since) in Hr; [| done]
    end; try done; eapply frozen_same; [.. | eassumption]; by e_simpl.
Qed.

Lemma op_frozen id a since env op s s' :
  op_settles op <> Some id -> apply_op cfg env op s = (Ok tt, s') ->
  frozen id a since s -> frozen id a since s'.
Proof.
  intros Hset Hrun Hf. destruct op; simpl in *.
  - by eapply lock_from_frozen.
  - by eapply transfer_from_escrow_frozen.
  - by eapply settle_all_frozen.
  - by eapply settle_all_frozen.
  - by eapply settle_partial_frozen.
  - by eapply settle_partial_frozen.
  - by eapply split_partial_frozen.
  - by eapply do_set_disputed_frozen.
  - unfold set_resolved in Hrun. e_inv. assert (id <> id0) by congruence. elsewhere.
Qed.

(** C4: while an identifier is disputed its funds do not move and it stays
    disputed, whatever is called on it or on others, until a decision, the
    administrator or the pallet that resolved the dispute settles it; a block
    does not end the dispute before its maximum duration has passed either. *)
Theorem dispute_freezes_funds id a since s r s' :
  frozen id a since s ->
  (exists env o c, call_settles c <> Some id /\
     transactional (apply_call cfg env o c) s = (r, s')) \/
  (exists env op, op_settles op <> Some id /\
     transactional (apply_op cfg env op) s = (r, s')) \/
  (exists n, n < sat_add u32_max since (MaxDisputeDuration cfg) /\
     on_initialize cfg n s = (r, s')) ->
  frozen id a since s'.
Proof.
  intros Hf [(env & o & c & Hset & Hrun) | [(env & op & Hset & Hrun) | (n & Hn & Hrun)]].
  - apply transactional_cases in Hrun as [([] & -> & Hrun) | (e & -> & ->)]; [| done].
    by eapply call_frozen.
  - apply transactional_cases in Hrun as [([] & -> & Hrun) | (e & -> & ->)]; [| done].
    by eapply op_frozen.
  - unfold on_initialize in Hrun. rewrite run_gets, run_modify in Hrun.
    eapply (for_each_ind (frozen id a since)); [| | exact Hrun].
    + intros id' s1 r1 s2 _ Hs1 Hp. by eapply process_expiring_frozen.
    + by eapply frozen_same; [.. | exact Hf].
Qed.
End Disputes.

(** * Concrete runs *)

(** Deal 70 is disputed at block 5 and its expiry is block 50; deal 71 is paid. *)
Definition disputing : list Action :=
  [ACall (CLock 70 1 10); ACall (CLock 71 2 30); ACall (CScheduleExpiry 70 50);
   ACall (CDispute 70 1 []); ACall (CRelease 71 1)].

Definition disputing_bank : SimpleBank := {[ 9%N := 5%N; 1%N := 20%N; 2%N := 50%N ]}.

Definition disputed_state : State SimpleBank := run (genesis disputing_bank) disputing.

Lemma lock_states_consistent_witness :
  lock_state disputed_state 71 = STATE_CLOSED /\ states_ok disputed_state.
Proof.
  split; [by vm_compute |].
  apply (lock_states_consistent test_config disputing_bank), run_reach.
  refine (bool_decide_unpack _ _). by vm_compute.
Defined.

(** Neither an attempt to refund it nor the block of its expiry touches it. *)
Lemma dispute_freezes_funds_witness :
  frozen 70 10 5 (act disputed_state (ACall (CCancelExpiry 70))) /\
  frozen 70 10 5 (act disputed_state (AOp (TReleaseAll 71 2))) /\
  frozen 70 10 5 (act disputed_state (ABlock 50)).
Proof.
  assert (frozen 70 10 5 disputed_state) as Hf by (split_and!; by vm_compute).
  split_and!.
  - eapply (dispute_freezes_funds test_config 70 10 5 disputed_state _ _ Hf). left.
    exists (test_env 5), (SignedBy 7), (CCancelExpiry 70).
    split; [done |]. apply surjective_pairing.
  - eapply (dispute_freezes_funds test_config 70 10 5 disputed_state _ _ Hf). right. left.
    exists (test_env 5), (TReleaseAll 71 2). split; [done |]. apply surjective_pairing.
  - eapply (dispute_freezes_funds test_config 70 10 5 disputed_state _ _ Hf). right. right.
    exists 50. split; [by vm_compute |]. apply surjective_pairing.
Defined.
