(* ===== verification/EscrowExpiry.v ===== *)
(** The expiry tables of [pallet-dispute-escrow]: [ExpiryOf] and [ExpiringAt]
    are inverse to each other, through every call and through the block hook. *)

From S2P Require Import Prelude Frame ChatCommon Escrow.
Import EscrowPallet.

(** * The expiry tables *)

Section Expiry.
Context `{FrameSystem} {L : Type} `{TransferCurrency L} `{PermillOps} (cfg : Config L).
Implicit Types (s : State L) (E : gmap Z Z) (A : gmap Z (list Z)).

Definition ids_at A (at_ : Z) : list Z := default [] (A !! at_).

(** [E] is [ExpiryOf], [A] is [ExpiringAt], [rem] the identifiers of block [n]
    the hook has taken out of [A] and not treated yet: apart from those the two
    tables are inverse to each other. *)
Record index_ok (n : Z) (rem : list Z) E A : Prop := {
  idx_listed : forall id at_, id ∈ ids_at A at_ -> E !! id = Some at_;
  idx_nodup : forall at_, NoDup (ids_at A at_);
  idx_bound : forall at_, Z.of_nat (length (ids_at A at_)) <= MaxExpiringPerBlock cfg;
  idx_known : forall id at_, E !! id = Some at_ -> id ∈ ids_at A at_ \/ (at_ = n /\ id ∈ rem);
  idx_rem : forall id, id ∈ rem -> E !! id = Some n /\ forall at_, id ∉ ids_at A at_;
  idx_rem_nodup : NoDup rem;
}.

Lemma ids_at_insert A t l at_ :
  ids_at (<[t := l]> A) at_ = if decide (t = at_) then l else ids_at A at_.
Proof. unfold ids_at. rewrite lookup_insert. by case_decide. Qed.

(** The hook forgets the first identifier it holds. *)
Lemma index_drop n id rem E A :
  index_ok n (id :: rem) E A -> index_ok n rem (delete id E) A.
Proof.
  intros [Hl Hn Hb Hk Hr Hnd]. apply NoDup_cons in Hnd as [Hid Hnd].
  destruct (Hr id ltac:(left)) as [_ Hnone]. split; try done.
  - intros id' at_ Hin. rewrite lookup_delete_ne; [by apply Hl |]. intros <-. by eapply Hnone.
  - intros id' at_ [Hne He]%lookup_delete_Some.
    destruct (Hk id' at_ He) as [? | [? [? | ?]%elem_of_cons]]; [by left | done | by right].
  - intros id' Hin. destruct (Hr id' ltac:(by right)) as [He ?]. split; [| done].
    rewrite lookup_delete_ne; [done |]. by intros <-.
Qed.

(** A new entry for an identifier that has none. *)
Lemma index_schedule n id t rem E A :
  index_ok n rem E A -> E !! id = None ->
  Z.of_nat (length (ids_at A t)) < MaxExpiringPerBlock cfg ->
  index_ok n rem (<[id := t]> E) (<[t := ids_at A t ++ [id]]> A).
Proof.
  intros [Hl Hn Hb Hk Hr Hnd] Hnone Hroom.
  assert (forall at_, id ∉ ids_at A at_) as Hfresh
    by (intros at_ Hin; apply Hl in Hin; congruence).
  split; try done.
  - intros id' at_. rewrite ids_at_insert. case_decide; subst.
    + intros [Hin | ->%list_elem_of_singleton]%elem_of_app; [| by rewrite lookup_insert_eq].
      rewrite lookup_insert_ne; [by apply Hl |]. intros <-. by eapply Hfresh.
    + intros Hin. rewrite lookup_insert_ne; [by apply Hl |]. intros <-. by eapply Hfresh.
  - intros at_. rewrite ids_at_insert. case_decide; [| done]. subst.
    apply NoDup_app. split; [done |]. split; [| apply NoDup_singleton].
    intros x Hx ->%list_elem_of_singleton. by eapply Hfresh.
  - intros at_. rewrite ids_at_insert. case_decide; [| done]. rewrite length_app. simpl. lia.
  - intros id' at_. rewrite lookup_insert, ids_at_insert. case_decide; subst.
    + intros [= ->]. left. rewrite decide_True by done. apply elem_of_app. right. left.
    + intros He. destruct (Hk id' at_ He); [left | by right].
      case_decide; subst; [by apply elem_of_app; left | done].
  - intros id' Hin. destruct (Hr id' Hin) as [He Hnot].
    assert (id <> id') by congruence. split; [by rewrite lookup_insert_ne |].
    intros at_. rewrite ids_at_insert. case_decide; [| done]. subst.
    intros [Hin' | ->%list_elem_of_singleton]%elem_of_app; [by eapply Hnot | done].
Qed.

(** [unschedule] on the two tables. *)
Lemma unschedule_tables id s :
  ExpiryOf (unschedule id s) = delete id (ExpiryOf s) /\
  forall at_, ids_at (ExpiringAt (unschedule id s)) at_ =
    match list_find (fun x => x = id) (ids_at (ExpiringAt s) at_) with
    | Some (pos, _) =>
        if decide (ExpiryOf s !! id = Some at_)
        then swap_remove pos (ids_at (ExpiringAt s) at_) else ids_at (ExpiringAt s) at_
    | None => ids_at (ExpiringAt s) at_
    end.
Proof.
  unfold unschedule. destruct (ExpiryOf s !! id) as [t |] eqn:Ht; simpl.
  - split; [done |]. intros at_. rewrite ids_at_insert. fold (ids_at (ExpiringAt s) t).
    destruct (decide (t = at_)) as [<- | Hne]; destruct (list_find _ _) as [[pos x] |];
      repeat case_decide; congruence || done.
  - split; [by rewrite delete_id |]. intros at_.
    destruct (list_find _ _) as [[pos x] |]; done.
Qed.

Definition idx (n : Z) (rem : list Z) s : Prop := index_ok n rem (ExpiryOf s) (ExpiringAt s).

Lemma index_ext n rem E A A' :
  (forall at_, ids_at A' at_ = ids_at A at_) -> index_ok n rem E A -> index_ok n rem E A'.
Proof.
  intros Heq [Hl Hn Hb Hk Hr Hnd].
  split; intros *; rewrite ?Heq; eauto.
  intros Hin. destruct (Hr id Hin) as [? Hnot]. split; [done |]. intros at_. by rewrite Heq.
Qed.

Lemma idx_same n rem s s' :
  ExpiryOf s' = ExpiryOf s -> ExpiringAt s' = ExpiringAt s -> idx n rem s -> idx n rem s'.
Proof. unfold idx. by intros -> ->. Qed.

(** The lists after [unschedule]: the identifier is gone, the others stay. *)
Lemma unschedule_ids n rem id s at_ :
  idx n rem s ->
  let l := ids_at (ExpiringAt s) at_ in
  let l' := ids_at (ExpiringAt (unschedule id s)) at_ in
  NoDup l' /\ (id ∉ l') /\ (length l' <= length l)%nat /\
  (forall id', id' <> id -> id' ∈ l' <-> id' ∈ l).
Proof.
  intros [Hl Hn _ _ _ _]. destruct (unschedule_tables id s) as [_ ->]. simpl.
  specialize (Hn at_). set (l := ids_at _ at_) in *.
  destruct (list_find (fun x => x = id) l) as [[pos x] |] eqn:Hfind.
  - apply list_find_Some in Hfind as (Hpos & -> & _).
    rewrite decide_True by (apply Hl; by eapply list_elem_of_lookup_2).
    pose proof (swap_remove_Permutation _ _ _ Hpos) as Hperm.
    set (l' := swap_remove pos l) in *. clearbody l'.
    rewrite Hperm in Hn. apply NoDup_cons in Hn as [Hnot Hn].
    split_and!; [done | done | rewrite Hperm; simpl; lia |].
    intros id' Hne. rewrite Hperm, elem_of_cons. split; [by right | by intros [-> | ?]].
  - apply list_find_None in Hfind. rewrite Forall_forall in Hfind.
    split_and!; [done | by intros ?%Hfind | done | done].
Qed.

Lemma unschedule_idx n rem id s : idx n rem s -> id ∉ rem -> idx n rem (unschedule id s).
Proof.
  intros Hi Hid. pose proof (fun at_ => unschedule_ids n rem id s at_ Hi) as Hids.
  destruct (unschedule_tables id s) as [HE _]. unfold idx. rewrite HE.
  destruct Hi as [Hl Hn Hb Hk Hr Hnd].
  split; intros *; try destruct (Hids at_) as (Hnd' & Hnot & Hlen & Hin); try done.
  - intros Hin'. assert (id0 <> id) by (by intros ->).
    rewrite lookup_delete_ne by done. apply Hl, Hin; done.
  - specialize (Hb at_). lia.
  - intros [Hne He]%lookup_delete_Some. destruct (Hk _ _ He); [left | by right].
    by apply Hin.
  - intros Hrem. destruct (Hr _ Hrem) as [He Hnone]. assert (id0 <> id) by (by intros ->).
    rewrite lookup_delete_ne by done. split; [done |]. intros at_ Hin'.
    destruct (Hids at_) as (_ & _ & _ & Hin). by apply (Hnone at_), Hin.
Qed.

Lemma unschedule_none id s : ExpiryOf (unschedule id s) !! id = None.
Proof. destruct (unschedule_tables id s) as [-> _]. apply lookup_delete_eq. Qed.

(** For the identifier the hook holds, [unschedule] leaves the lists alone. *)
Lemma unschedule_held n id rem s :
  idx n (id :: rem) s -> idx n rem (unschedule id s).
Proof.
  intros Hi. destruct (unschedule_tables id s) as [HE HA]. unfold idx. rewrite HE.
  eapply index_ext; [| eapply index_drop; exact Hi].
  intros at_. rewrite HA.
  destruct (list_find _ _) as [[pos x] |] eqn:Hfind; [| done].
  apply list_find_Some in Hfind as (Hpos & -> & _).
  exfalso. eapply (idx_rem _ _ _ _ Hi id); [left |]. by eapply list_elem_of_lookup_2.
Qed.

Lemma try_targets_cases id targets s r s' :
  try_targets cfg id targets s = (r, s') ->
  (r = Ok false /\ s' = s) \/
  (r = Ok true /\ exists t,
    Z.of_nat (length (ids_at (ExpiringAt s) t)) < MaxExpiringPerBlock cfg /\
    s' = s <| ExpiringAt ::= <[t := ids_at (ExpiringAt s) t ++ [id]]> |>
           <| ExpiryOf ::= <[id := t]> |>).
Proof.
  induction targets as [| t targets IH]; simpl; [by intros [= <- <-]; left |].
  rewrite run_gets. case_decide; [| done]. intros [= <- <-]. right. eauto.
Qed.

Lemma try_targets_idx n rem id targets s r s' :
  try_targets cfg id targets s = (r, s') -> idx n rem s -> ExpiryOf s !! id = None ->
  exists b, r = Ok b /\ idx n rem s' /\ (b = false -> s' = s).
Proof.
  intros [[-> ->] | [-> (t & Hroom & ->)]]%try_targets_cases Hi Hnone; [eauto |].
  exists true. split_and!; [done | | done]. by apply (index_schedule n id t rem).
Qed.

(** Peels an update off: the tables are those of the state before, or of the
    state before with an identifier unscheduled. *)
Ltac idx_peel :=
  match goal with
  | |- idx ?n ?rem ?s' =>
      match s' with
      | context [unschedule ?i ?X] =>
          apply (idx_same n rem (unschedule i X)); [reflexivity | reflexivity |];
          apply unschedule_idx; [| first [done | apply not_elem_of_nil]]
      end
  end.
Ltac idx_done := eapply idx_same; [.. | eassumption]; reflexivity.

Lemma settle_all_idx n rem ev nt id to s s' :
  id ∉ rem -> settle_all cfg ev nt id to s = (Ok tt, s') -> idx n rem s -> idx n rem s'.
Proof.
  unfold settle_all, close, remove_expiry_schedule, deposit_event, notify. intros Hid Hrun Hi.
  e_inv. idx_peel. idx_done.
Qed.

Lemma settle_partial_idx n ev nt id to a s s' :
  settle_partial cfg ev nt id to a s = (Ok tt, s') -> idx n [] s -> idx n [] s'.
Proof.
  unfold settle_partial, close, remove_expiry_schedule, deposit_event, notify. intros Hrun Hi.
  e_inv; [idx_peel; idx_done | idx_done].
Qed.

Lemma transfer_from_escrow_idx n id to a s s' :
  transfer_from_escrow cfg id to a s = (Ok tt, s') -> idx n [] s -> idx n [] s'.
Proof. unfold transfer_from_escrow, deposit_event. intros Hrun Hi. e_inv; idx_done. Qed.

Lemma lock_from_idx n payer id a s s' :
  lock_from cfg payer id a s = (Ok tt, s') -> idx n [] s -> idx n [] s'.
Proof. unfold lock_from, deposit_event. intros Hrun Hi. e_inv; idx_done. Qed.

Lemma split_partial_idx n id a b bps s s' :
  split_partial cfg id a b bps s = (Ok tt, s') -> idx n [] s -> idx n [] s'.
Proof.
  unfold split_partial, close, remove_expiry_schedule, deposit_event, notify. intros Hrun Hi.
  e_inv; idx_peel; idx_done.
Qed.

Lemma pay_entries_tables id cur entries s cur' s' :
  pay_entries cfg id cur entries s = (Ok cur', s') ->
  ExpiryOf s' = ExpiryOf s /\ ExpiringAt s' = ExpiringAt s.
Proof.
  revert cur s. induction entries as [| [to a] entries IH]; intros cur s Hrun; simpl in *.
  - by m_inv.
  - case_decide; [by eapply IH |]. unfold deposit_event, notify in Hrun. e_inv.
    by apply IH in Hrun.
Qed.

Lemma release_split_idx n o id entries s s' :
  release_split cfg o id entries s = (Ok tt, s') -> idx n [] s -> idx n [] s'.
Proof.
  unfold release_split, close, remove_expiry_schedule. intros Hrun Hi.
  e_inv; match goal with Hp : pay_entries _ _ _ _ _ = (_, ?s1) |- _ =>
    apply pay_entries_tables in Hp as [? ?];
    assert (idx n [] s1) by (by eapply idx_same) end; [idx_peel; idx_done | done].
Qed.

Lemma force_settle_idx n action o id to s s' :
  force_settle cfg action o id to s = (Ok tt, s') -> idx n [] s -> idx n [] s'.
Proof.
  unfold force_settle, remove_expiry_schedule, deposit_event, notify. intros Hrun Hi.
  e_inv. idx_peel. idx_done.
Qed.

Lemma leave_dispute_idx n id s u s' :
  leave_dispute id s = (Ok u, s') -> idx n [] s -> idx n [] s'.
Proof. intros [_ ->]%leave_dispute_Ok Hi. idx_peel. idx_done. Qed.

Lemma clean_ids_idx n ids s r s' : clean_ids ids s = (r, s') -> idx n [] s -> idx n [] s'.
Proof.
  revert s r s'. induction ids as [| id ids IH]; intros s r s'; simpl; [by intros [= _ <-] |].
  unfold bind at 1 2, gets. simpl.
  case_decide; [by apply IH |]. case_decide; [by apply IH |].
  unfold bind, remove_expiry_schedule, modify. simpl. intros Hrun Hi.
  destruct (clean_ids ids _) as [[l | e] s1] eqn:Hrest; injection Hrun as _ <-;
    (eapply IH; [exact Hrest |]); idx_peel; done.
Qed.

Lemma do_set_disputed_idx n env id reason detail s s' :
  do_set_disputed cfg env id reason detail s = (Ok tt, s') -> idx n [] s -> idx n [] s'.
Proof.
  unfold do_set_disputed, deposit_event, notify, try_schedule_expiry_at. intros Hrun Hi.
  e_inv; [idx_done |].
  match goal with Ht : try_targets _ _ _ _ = _ |- _ =>
    apply (try_targets_idx n []) in Ht as (b & _ & Hi' & _) end; [clear Hi; idx_done | idx_done | done].
Qed.

Lemma schedule_expiry_idx n o id at_ s s' :
  schedule_expiry cfg o id at_ s = (Ok tt, s') -> idx n [] s -> idx n [] s'.
Proof.
  unfold schedule_expiry, remove_expiry_schedule, deposit_event. intros Hrun Hi.
  e_inv; [done |]. apply (unschedule_idx _ _ id) in Hi; [| apply not_elem_of_nil].
  simpl in *.
  match goal with Hlen : _ < MaxExpiringPerBlock _ |- _ =>
    apply (index_schedule n id at_ [] _ _ Hi (unschedule_none id s) Hlen) end.
Qed.

Lemma settle_all_Err_tables ev nt id to s e s' :
  settle_all cfg ev nt id to s = (Err e, s') ->
  ExpiryOf s' = ExpiryOf s /\ ExpiringAt s' = ExpiringAt s.
Proof.
  unfold settle_all, close, remove_expiry_schedule, deposit_event, notify. intros Hrun.
  by e_err.
Qed.

Lemma settle_all_held n id rem ev nt to s r s' :
  settle_all cfg ev nt id to s = (r, s') -> idx n (id :: rem) s ->
  idx n rem (s' <| ExpiryOf ::= delete id |>).
Proof.
  intros Hrun Hi. destruct r as [[] | e].
  - unfold settle_all, close, remove_expiry_schedule, deposit_event, notify in Hrun. e_inv.
    match goal with |- context [unschedule id ?X] =>
      apply (idx_same n rem (unschedule id X)); [simpl | reflexivity |] end.
    + by rewrite delete_id by apply unschedule_none.
    + by apply unschedule_held.
  - apply settle_all_Err_tables in Hrun as [HE HA]. unfold idx. simpl. rewrite HE, HA.
    by apply index_drop.
Qed.

Lemma expire_lock_held n id rem s r s' :
  expire_lock cfg id s = (r, s') -> idx n (id :: rem) s -> idx n rem s'.
Proof.
  unfold expire_lock, release_all, refund_all, deposit_event, notify, bind, gets, attempt, ret,
    modify; simpl.
  destruct (on_expire cfg s id) as [[to | to |] |]; intros Hrun Hi;
    try (by simplify_eq; apply index_drop in Hi).
  all: destruct (settle_all _ _ _ _ _ s) as [[u | e] s1] eqn:Hset;
    pose proof (settle_all_held _ _ _ _ _ _ _ _ _ Hset Hi); by simplify_eq.
Qed.

Lemma process_expiring_held n id rem s r s' :
  process_expiring cfg n id s = (r, s') -> idx n (id :: rem) s -> idx n rem s'.
Proof.
  unfold process_expiring, try_schedule_expiry_at. rewrite !run_gets.
  case_decide; [| apply expire_lock_held]. intros Hrun Hi.
  match type of Hrun with (if ?b then _ else _) _ = _ => destruct b end.
  - rewrite !run_modify in Hrun. by eapply expire_lock_held.
  - apply index_drop in Hi. unfold bind in Hrun.
    destruct (try_targets _ _ _ s) as [r1 s1] eqn:Ht.
    apply try_targets_cases in Ht as [[-> ->] | [-> (t & Hroom & ->)]];
      unfold ret, modify in Hrun; simplify_eq/=; [done |].
    apply (index_schedule n id t rem) in Hi; [| apply lookup_delete_eq | done].
    by rewrite insert_delete_eq in Hi.
Qed.

(** The hook never stops at an error: every failure inside it is swallowed. *)
Lemma expire_lock_total id s : exists s', expire_lock cfg id s = (Ok tt, s').
Proof.
  unfold expire_lock, release_all, refund_all, deposit_event, notify, bind, gets, attempt, ret,
    modify; simpl.
  destruct (on_expire cfg s id) as [[to | to |] |]; eauto;
    destruct (settle_all _ _ _ _ _ s) as [[u | e] s1]; eauto.
Qed.

Lemma process_expiring_total n id s : exists s', process_expiring cfg n id s = (Ok tt, s').
Proof.
  unfold process_expiring, try_schedule_expiry_at. rewrite !run_gets.
  case_decide; [| apply expire_lock_total].
  match goal with |- context [if ?b then _ else _] => destruct b end.
  - rewrite !run_modify. apply expire_lock_total.
  - unfold bind. destruct (try_targets _ _ _ s) as [r1 s1] eqn:Ht.
    apply try_targets_cases in Ht as [[-> _] | [-> _]]; eauto.
Qed.

Lemma idx_any n m s : idx n [] s -> idx m [] s.
Proof.
  intros [Hl Hn Hb Hk _ Hnd]. split; try done.
  - intros id at_ He. left. by destruct (Hk id at_ He) as [? | [_ ?%elem_of_nil]].
  - by intros id ?%elem_of_nil.
Qed.

Lemma on_initialize_idx n s r s' :
  on_initialize cfg n s = (r, s') -> idx 0 [] s -> idx 0 [] s'.
Proof.
  unfold on_initialize. rewrite run_gets, run_modify. fold (ids_at (ExpiringAt s) n).
  intros Hrun Hi.
  assert (idx n (ids_at (ExpiringAt s) n) (s <| ExpiringAt ::= delete n |>)) as Hheld.
  { destruct Hi as [Hl Hn Hb Hk _ _].
    assert (forall at_, ids_at (delete n (ExpiringAt s)) at_ =
      if decide (n = at_) then [] else ids_at (ExpiringAt s) at_) as Hids.
    { intros at_. unfold ids_at. rewrite lookup_delete. by case_decide. }
    split; simpl; [intros *; rewrite ?Hids .. | done]; try case_decide; subst; eauto.
    - by intros ?%elem_of_nil.
    - constructor.
    - simpl. specialize (Hb at_). lia.
    - intros He. destruct (Hk _ _ He) as [? | [_ ?%elem_of_nil]]; [by right | done].
    - intros He. destruct (Hk _ _ He) as [? | [_ ?%elem_of_nil]]; [by left | done].
    - intros Hin. split; [by apply Hl |]. intros at_. rewrite Hids. case_decide as Hne.
      + apply not_elem_of_nil.
      + intros Hin'. apply Hl in Hin, Hin'. congruence. }
  assert (forall ids s, idx n ids s -> for_each ids (process_expiring cfg n) s = (r, s') ->
    idx n [] s') as Hloop.
  { clear. induction ids as [| id ids IH]; intros s Hi; simpl; [by intros [= _ <-] |].
    destruct (process_expiring_total n id s) as [s1 Hp]. rewrite (bind_eval _ _ _ _ _ Hp).
    apply IH. by eapply process_expiring_held. }
  eapply idx_any, Hloop; [exact Hheld | exact Hrun].
Qed.

Lemma call_idx env o c s s' :
  apply_call cfg env o c s = (Ok tt, s') -> idx 0 [] s -> idx 0 [] s'.
Proof.
  intros Hrun Hi. destruct c; simpl in *;
    unfold lock, release, refund, dispute, apply_decision_release_all, apply_decision_refund_all,
      apply_decision_partial_bps, set_pause, cancel_expiry, force_release, force_refund,
      cleanup_closed, remove_expiry_schedule, deposit_event in Hrun;
    try (by eapply release_split_idx); try (by eapply force_settle_idx);
    try (by eapply schedule_expiry_idx);
    e_inv;
    repeat match goal with
    | Hd : leave_dispute _ _ = _ |- _ => eapply leave_dispute_idx in Hd; [| eassumption]
    | Hr : release_all _ _ _ _ = _ |- _ =>
        eapply settle_all_idx in Hr; [| apply not_elem_of_nil | eassumption]
    | Hr : refund_all _ _ _ _ = _ |- _ =>
        eapply settle_all_idx in Hr; [| apply not_elem_of_nil | eassumption]
    | Hr : clean_ids _ _ = _ |- _ => eapply clean_ids_idx in Hr; [| eassumption]
    | Hr : split_partial _ _ _ _ _ _ = _ |- _ => eapply split_partial_idx in Hr; [| eassumption]
    | Hr : lock_from _ _ _ _ _ = _ |- _ => eapply lock_from_idx in Hr; [| eassumption]
    | Hr : do_set_disputed _ _ _ _ _ _ = _ |- _ =>
        eapply do_set_disputed_idx in Hr; [| eassumption]
    end; try done; first [idx_done | apply unschedule_idx; [done | apply not_elem_of_nil]].
Qed.

Lemma op_idx env op s s' :
  apply_op cfg env op s = (Ok tt, s') -> idx 0 [] s -> idx 0 [] s'.
Proof.
  intros Hrun Hi. destruct op; simpl in *.
  - by eapply lock_from_idx.
  - by eapply transfer_from_escrow_idx.
  - eapply settle_all_idx; [apply not_elem_of_nil | done..].
  - eapply settle_all_idx; [apply not_elem_of_nil | done..].
  - by eapply settle_partial_idx.
  - by eapply settle_partial_idx.
  - by eapply split_partial_idx.
  - by eapply do_set_disputed_idx.
  - unfold set_resolved in Hrun. e_inv. idx_done.
Qed.

Lemma step_idx s s' : step cfg s s' -> idx 0 [] s -> idx 0 [] s'.
Proof.
  intros [env o c r Hty Hp Hcall | env op r Hty Hp Hop | n r Hblock | l Hl ->] Hi.
  - apply transactional_cases in Hcall as [([] & -> & Hrun) | (e & -> & ->)]; [| done].
    by eapply call_idx.
  - apply transactional_cases in Hop as [([] & -> & Hrun) | (e & -> & ->)]; [| done].
    by eapply op_idx.
  - by eapply on_initialize_idx.
  - done.
Qed.

(** C35: the two expiry tables are inverse to each other in every reachable
    state: an identifier is listed at a block exactly when its expiry is that
    block, it is listed once, and no block lists more than the bound; so no
    expiry is lost and none fires twice. *)
Theorem expiry_tables_inverse l s :
  0 <= MaxExpiringPerBlock cfg -> rtc (step cfg) (genesis l) s ->
  (forall id at_, id ∈ ids_at (ExpiringAt s) at_ <-> ExpiryOf s !! id = Some at_) /\
  (forall at_, NoDup (ids_at (ExpiringAt s) at_) /\
     Z.of_nat (length (ids_at (ExpiringAt s) at_)) <= MaxExpiringPerBlock cfg).
Proof.
  intros Hmax Hrun. assert (idx 0 [] s) as [Hl Hn Hb Hk _ _].
  { eapply (rtc_invariant (step cfg) (idx 0 [])); [| | exact Hrun].
    - intros s1 s2 Hi Hstep. by eapply step_idx.
    - split; simpl; intros *; unfold ids_at; rewrite ?lookup_empty; simpl;
        first [done | apply NoDup_nil_2 | by intros ?%elem_of_nil]. }
  split; [| done]. intros id at_. split; [apply Hl |].
  intros He. by destruct (Hk id at_ He) as [? | [_ ?%elem_of_nil]].
Qed.
End Expiry.

(** * A concrete run *)

(** Two deals expire in block 50, one of them is rescheduled to block 60. *)
Definition scheduling : State SimpleBank :=
  run (genesis {[ 9%N := 5%N; 1%N := 40%N ]})
    [ACall (CLock 70 1 10); ACall (CLock 71 1 10); ACall (CScheduleExpiry 70 50);
     ACall (CScheduleExpiry 71 50); ACall (CScheduleExpiry 70 60)].

Lemma expiry_tables_inverse_witness :
  ids_at (ExpiringAt scheduling) 50 = [71] /\ ExpiryOf scheduling !! 70 = Some 60 /\
  forall id at_, id ∈ ids_at (ExpiringAt scheduling) at_ <-> ExpiryOf scheduling !! id = Some at_.
Proof.
  split; [by vm_compute |]. split; [by vm_compute |].
  refine (proj1 (expiry_tables_inverse test_config _ scheduling _ (run_reach _ _ _))); [done |].
  refine (bool_decide_unpack _ _). by vm_compute.
Defined.
