(* ===== verification/Arbitration.v ===== *)
(** [pallet-dispute-arbitration] (src/pallets/dispute/arbitration/src): disputes
    about a deal whose money is in escrow, with a deposit of each side, and
    complaints, a state machine from filing to a decision and its appeals. The
    functions of lib.rs, dispute.rs, complaint.rs, cleanup.rs and state_machine.rs are
    definitions of their names; the theorems are in ArbitrationRules.v and
    ArbitrationEscrow.v. *)

From S2P Require Import Prelude Frame Escrow.

(** * What the pallet asks of others *)

(** [HoldReason]: why an amount is on hold. *)
Inductive HoldReason : Type := DisputeInitiator | DisputeRespondent | ComplaintDeposit.

#[export] Instance hold_reason_eq_dec : EqDecision HoldReason.
Proof. solve_decision. Defined.

Inductive Decision : Type := Release | Refund | Partial (bps : Z).

(** The fungible holds, the escrow, the router of decisions, evidence, prices, pins,
    CID locks and notices; [X] is the state behind them. Holds fail without effect;
    pins, unlocks and notices are best effort, so only what they leave matters; the
    router may have acted before it fails. *)
Class ArbitrationPorts (X : Type) : Type := {
  on_hold (r : HoldReason) (who : AccountId) (x : X) : Z;
  hold (r : HoldReason) (who : AccountId) (amount : Z) (x : X) : option X;
  (** [exact] is [Precision::Exact], otherwise as much as is held. *)
  release_hold (r : HoldReason) (who : AccountId) (amount : Z) (exact : bool) (x : X) : option X;
  (** [Precision::BestEffort], [Restriction::Free]; [force] is [Fortitude::Force]. *)
  transfer_on_hold (r : HoldReason) (from to : AccountId) (amount : Z) (force : bool) (x : X) : option X;
  escrow_account_of : AccountId;
  escrow_amount_of (id : Z) (x : X) : Z;
  can_dispute (domain : bytes) (who : AccountId) (id : Z) (x : X) : bool;
  apply_decision (domain : bytes) (id : Z) (d : Decision) (x : X) : bool * X;
  get_counterparty (domain : bytes) (initiator : AccountId) (id : Z) (x : X) : option AccountId;
  get_order_amount (domain : bytes) (id : Z) (x : X) : option Z;
  evidence_exists (id : Z) (x : X) : bool;
  get_nex_to_usd_rate (x : X) : option Z;
  pin (who : AccountId) (id : Z) (cid : bytes) (x : X) : X;
  lock_cid (cid_hash : N) (reason : bytes) (x : X) : option X;
  unlock_cid (cid_hash : N) (reason : bytes) (x : X) : X;
  send_notice (to : AccountId) (notice : bytes) (x : X) : X;
}.
Arguments escrow_account_of X {_}.

(** An amount at one account for one reason. *)
Definition at_hold (r : HoldReason) (who : AccountId) (v : Z) (r' : HoldReason) (y : AccountId) : Z :=
  if decide (r' = r /\ y = who) then v else 0.

(** The documented contract: exact amounts on hold, and what else runs leaves them
    alone; a transfer or release that is not exact takes what there is. *)
Class ArbitrationPortsLaws (X : Type) `{ArbitrationPorts X} : Prop := {
  on_hold_nonneg : forall r y x, 0 <= on_hold r y x;
  hold_held : forall r who v x x' r' y, 0 <= v -> hold r who v x = Some x' ->
    on_hold r' y x' = on_hold r' y x + at_hold r who v r' y;
  release_held : forall r who v ex x x' r' y, 0 <= v -> release_hold r who v ex x = Some x' ->
    on_hold r' y x' = on_hold r' y x - at_hold r who (Z.min v (on_hold r who x)) r' y;
  hold_elsewhere : forall r who v x x' r' y, hold r who v x = Some x' -> r' <> r -> on_hold r' y x' = on_hold r' y x;
  release_elsewhere : forall r who v ex x x' r' y, release_hold r who v ex x = Some x' -> r' <> r ->
    on_hold r' y x' = on_hold r' y x;
  transfer_elsewhere : forall r from to v f x x' r' y, transfer_on_hold r from to v f x = Some x' -> r' <> r ->
    on_hold r' y x' = on_hold r' y x;
  release_exact : forall r who v x x', release_hold r who v true x = Some x' -> v <= on_hold r who x;
  transfer_held : forall r from to v f x x' r' y, 0 <= v -> transfer_on_hold r from to v f x = Some x' ->
    on_hold r' y x' = on_hold r' y x - at_hold r from (Z.min v (on_hold r from x)) r' y;
  release_succeeds : forall r who v x, v <= on_hold r who x -> is_Some (release_hold r who v true x);
  order_amount_unsigned : forall d id x v, get_order_amount d id x = Some v -> 0 <= v;
  decision_held : forall d id dec x r y, on_hold r y (apply_decision d id dec x).2 = on_hold r y x;
  pin_held : forall who id cid x r y, on_hold r y (pin who id cid x) = on_hold r y x;
  lock_cid_held : forall h reason x x' r y, lock_cid h reason x = Some x' -> on_hold r y x' = on_hold r y x;
  unlock_cid_held : forall h reason x r y, on_hold r y (unlock_cid h reason x) = on_hold r y x;
  notice_held : forall to n x r y, on_hold r y (send_notice to n x) = on_hold r y x;
}.

Module Arbitration.

(** * State machine (state_machine.rs, types.rs) *)

Inductive ComplaintStatus : Type :=
| Submitted | Responded | Mediating | Arbitrating | ResolvedComplainantWin | ResolvedRespondentWin
| ResolvedSettlement | Withdrawn | Expired | Appealed.

#[export] Instance complaint_status_eq_dec : EqDecision ComplaintStatus.
Proof. solve_decision. Defined.

Definition is_resolved (st : ComplaintStatus) : bool :=
  match st with
  | ResolvedComplainantWin | ResolvedRespondentWin | ResolvedSettlement | Withdrawn | Expired => true
  | _ => false
  end.

Definition is_active (st : ComplaintStatus) : bool :=
  match st with
  | Submitted | Responded | Mediating | Arbitrating | Appealed => true
  | _ => false
  end.

Definition can_transition (from to : ComplaintStatus) : bool :=
  match from, to with
  | Submitted, (Responded | Withdrawn | Expired | Arbitrating) => true
  | Responded, (Withdrawn | Mediating | Arbitrating | ResolvedSettlement | Expired) => true
  | Mediating, (Arbitrating | ResolvedSettlement | Expired) => true
  | Arbitrating, (ResolvedComplainantWin | ResolvedRespondentWin | Expired) => true
  | (ResolvedComplainantWin | ResolvedRespondentWin), Appealed => true
  | Appealed, (ResolvedComplainantWin | ResolvedRespondentWin) => true
  | _, _ => false
  end.

Definition ENTITY_ORDER : bytes := literal "entorder".
Definition OTC_ORDER : bytes := literal "otc_ord_".
Definition MAKER : bytes := literal "maker___".
Definition NFT_TRADE : bytes := literal "nft_trd_".
Definition SWAP : bytes := literal "swap____".
Definition MEMBER : bytes := literal "member__".
Definition ADS : bytes := literal "ads_____".
Definition TOKNSALE : bytes := literal "toknsale".
Definition OTHER : bytes := literal "other___".

Inductive ComplaintType : Type :=
| EntityOrderNotDeliver | EntityOrderFalseClaim | EntityOrderFraud | EntityOrderQuality
| OtcSellerNotDeliver | OtcBuyerFalseClaim | OtcTradeFraud | OtcPriceDispute
| MakerCreditDefault | MakerMaliciousOperation | MakerFalseQuote
| NftSellerNotDeliver | NftCounterfeit | NftTradeFraud | NftAuctionDispute
| SwapMakerNotComplete | SwapVerificationTimeout | SwapFraud
| MemberBenefitNotProvided | MemberServiceQuality
| AdsReceiptDispute | AdsFraudClick | AdsSettlementDispute
| TokenSaleNotDeliver | TokenSaleTermsViolation
| OtherComplaint.

#[export] Instance complaint_type_eq_dec : EqDecision ComplaintType.
Proof. solve_decision. Defined.

Definition complaint_domain (t : ComplaintType) : bytes :=
  match t with
  | EntityOrderNotDeliver | EntityOrderFalseClaim | EntityOrderFraud | EntityOrderQuality => ENTITY_ORDER
  | OtcSellerNotDeliver | OtcBuyerFalseClaim | OtcTradeFraud | OtcPriceDispute => OTC_ORDER
  | MakerCreditDefault | MakerMaliciousOperation | MakerFalseQuote => MAKER
  | NftSellerNotDeliver | NftCounterfeit | NftTradeFraud | NftAuctionDispute => NFT_TRADE
  | SwapMakerNotComplete | SwapVerificationTimeout | SwapFraud => SWAP
  | MemberBenefitNotProvided | MemberServiceQuality => MEMBER
  | AdsReceiptDispute | AdsFraudClick | AdsSettlementDispute => ADS
  | TokenSaleNotDeliver | TokenSaleTermsViolation => TOKNSALE
  | OtherComplaint => OTHER
  end.

Definition penalty_rate (t : ComplaintType) : Z :=
  match t with
  | OtcTradeFraud | EntityOrderFraud => 8000
  | MakerMaliciousOperation | AdsFraudClick => 5000
  | _ => 3000
  end.

Definition triggers_permanent_ban (t : ComplaintType) : bool :=
  match t with OtcTradeFraud | EntityOrderFraud => true | _ => false end.

(** * Data and storage *)

Record Complaint : Type := mkComplaint {
  domain : bytes;
  object_id : Z;
  complaint_type : ComplaintType;
  complainant : AccountId;
  respondent : AccountId;
  details_cid : bytes;
  response_cid : option bytes;
  amount : option Z;
  status : ComplaintStatus;
  created_at : Z;
  response_deadline : Z;
  settlement_cid : option bytes;
  resolution_cid : option bytes;
  appeal_cid : option bytes;
  appellant : option AccountId;
  updated_at : Z;
}.

#[export] Instance eta_complaint : Settable Complaint := fun c =>
  mkComplaint (domain c) (object_id c) (complaint_type c) (complainant c) (respondent c) (details_cid c)
    (response_cid c) (amount c) (status c) (created_at c) (response_deadline c) (settlement_cid c)
    (resolution_cid c) (appeal_cid c) (appellant c) (updated_at c).

Record TwoWayDepositRecord : Type := mkDeposits {
  initiator : AccountId;
  initiator_deposit : Z;
  dispute_respondent : AccountId;
  respondent_deposit : option Z;
  dispute_deadline : Z;
  has_responded : bool;
}.

#[export] Instance eta_deposits : Settable TwoWayDepositRecord := fun d =>
  mkDeposits (initiator d) (initiator_deposit d) (dispute_respondent d) (respondent_deposit d)
    (dispute_deadline d) (has_responded d).

Record ArchivedDispute : Type := mkArchivedDispute {
  ad_domain : bytes; ad_object_id : Z; ad_decision : Z; ad_partial_bps : Z; completed_at : Z; ad_year_month : Z;
}.

Record ArchivedComplaint : Type := mkArchivedComplaint {
  ac_id : Z; ac_domain : bytes; ac_object_id : Z; ac_decision : Z; resolved_at : Z; ac_year_month : Z;
}.

Record ArbitrationPermanentStats : Type := mkStats {
  total_disputes : Z; release_count : Z; refund_count : Z; partial_count : Z;
}.

#[export] Instance eta_stats : Settable ArbitrationPermanentStats := fun st =>
  mkStats (total_disputes st) (release_count st) (refund_count st) (partial_count st).

Record DomainStatistics : Type := mkDomainStats {
  total_complaints : Z; resolved_count : Z; complainant_wins : Z; respondent_wins : Z; settlements : Z;
  expired_count : Z;
}.

#[export] Instance eta_domain_stats : Settable DomainStatistics := fun st =>
  mkDomainStats (total_complaints st) (resolved_count st) (complainant_wins st) (respondent_wins st)
    (settlements st) (expired_count st).

Definition no_stats : DomainStatistics := mkDomainStats 0 0 0 0 0 0.

Inductive Event : Type :=
| EvArbitrated (d : bytes) (id decision : Z) (bps : option Z)
| EvDisputeWithDepositInitiated (d : bytes) (id : Z) (initiator_ respondent_ : AccountId) (deposit deadline : Z)
| EvRespondentDepositLocked (d : bytes) (id : Z) (respondent_ : AccountId) (deposit : Z)
| EvDepositProcessed (d : bytes) (id : Z) (account : AccountId) (released slashed : Z)
| EvComplaintFiled (id : Z) (d : bytes) (object : Z) (complainant_ respondent_ : AccountId) (t : ComplaintType)
| EvComplaintResponded (id : Z) (respondent_ : AccountId)
| EvComplaintWithdrawn (id : Z)
| EvComplaintSettled (id : Z)
| EvComplaintEscalated (id : Z)
| EvComplaintResolved (id decision : Z)
| EvComplaintExpired (id : Z)
| EvComplaintArchived (id : Z)
| EvComplaintAutoEscalated (id : Z)
| EvDefaultJudgment (d : bytes) (id : Z) (initiator_ : AccountId)
| EvComplaintEvidenceSupplemented (id : Z) (who : AccountId) (cid : bytes)
| EvDisputeSettled (d : bytes) (id : Z)
| EvComplaintMediationStarted (id : Z)
| EvDisputeDismissed (d : bytes) (id : Z)
| EvComplaintDismissed (id : Z)
| EvPausedStateChanged (paused : bool)
| EvDisputeForceClosed (d : bytes) (id : Z)
| EvComplaintForceClosed (id : Z)
| EvDomainPenaltyRateUpdated (d : bytes) (rate : option Z)
| EvAppealFiled (id : Z) (appellant_ : AccountId)
| EvAppealResolved (id decision : Z)
| EvAccountBanRequested (d : bytes) (object : Z) (account : AccountId)
| EvDepositOperationFailed (id operation amount_ : Z).

Inductive Error : Type :=
| AlreadyDisputed | NotDisputed | InsufficientDeposit | AlreadyResponded | ResponseDeadlinePassed
| CounterpartyNotFound | ComplaintNotFound | NotAuthorized | InvalidComplaintType | InvalidState
| TooManyComplaints | TooManyActiveComplaints | EvidenceNotFound | ResponseDeadlineNotReached
| SettlementNotConfirmed | ModulePaused | InvalidPenaltyRate | Deprecated | CooldownActive
| AppealWindowClosed | CannotAppeal | InvalidDecisionCode
(** the error of a router or of the CID locks, passed on *)
| PortRefused.

Record Config `{FrameSystem} : Type := mkConfig {
  MaxEvidence : Z;
  DecisionOrigin : Origin -> bool;
  DepositRatioBps : Z;
  ResponseDeadline : Z;
  RejectedSlashBps : Z;
  PartialSlashBps : Z;
  MinComplaintDeposit : Z;
  ComplaintDepositUsd : Z;
  ComplaintSlashBps : Z;
  TreasuryAccount : AccountId;
  ArchiveTtlBlocks : Z;
  ComplaintArchiveDelayBlocks : Z;
  ComplaintMaxLifetimeBlocks : Z;
  AppealWindowBlocks : Z;
  AutoEscalateBlocks : Z;
  MaxActivePerUser : Z;
}.

Record State {X : Type} : Type := mkState {
  Disputed : gset (bytes * Z);
  EvidenceIds : gmap (bytes * Z) (list Z);
  LockedCidHashes : gmap (bytes * Z) (list N);
  TwoWayDeposits : gmap (bytes * Z) TwoWayDepositRecord;
  NextArchivedId : Z;
  ArchivedDisputes : gmap Z ArchivedDispute;
  ArbitrationStats : ArbitrationPermanentStats;
  PendingArbitrationDisputes : gset (bytes * Z);
  NextComplaintId : Z;
  Complaints : gmap Z Complaint;
  ArchivedComplaints : gmap Z ArchivedComplaint;
  ComplaintDeposits : gmap Z Z;
  DomainStats : gmap bytes DomainStatistics;
  PendingArbitrationComplaints : gset Z;
  ActiveComplaintCount : gmap AccountId Z;
  ComplaintEvidenceCids : gmap Z (list bytes);
  ComplaintCooldown : gmap (bytes * Z) Z;
  ArchiveDisputeCleanupCursor : Z;
  ArchiveComplaintCleanupCursor : Z;
  ComplaintArchiveCursor : Z;
  ComplaintExpiryCursor : Z;
  AutoEscalateCursor : Z;
  Paused : bool;
  DomainPenaltyRates : gmap bytes Z;
  others : X;
  events : list Event;
}.
Arguments State : clear implicits.

#[export] Instance eta_arbitration {X} : Settable (State X) := fun s =>
  mkState X (Disputed s) (EvidenceIds s) (LockedCidHashes s) (TwoWayDeposits s) (NextArchivedId s)
    (ArchivedDisputes s) (ArbitrationStats s) (PendingArbitrationDisputes s) (NextComplaintId s) (Complaints s)
    (ArchivedComplaints s) (ComplaintDeposits s) (DomainStats s) (PendingArbitrationComplaints s)
    (ActiveComplaintCount s) (ComplaintEvidenceCids s) (ComplaintCooldown s) (ArchiveDisputeCleanupCursor s)
    (ArchiveComplaintCleanupCursor s) (ComplaintArchiveCursor s) (ComplaintExpiryCursor s) (AutoEscalateCursor s)
    (Paused s) (DomainPenaltyRates s) (others s) (events s).

Section Pallet.
Context `{FrameSystem} {X : Type} `{ArbitrationPorts X} `{EscrowPallet.PermillOps} (cfg : Config).
Implicit Types (s : State X).

Abbreviation M_ := (M (State X) (DispatchError Error)).
Abbreviation Call_ := (M (State X) (DispatchError Error) unit).

Definition deposit_event (e : Event) : Call_ :=
  modify (fun s => s <| events ::= fun l => l ++ [e] |>).

Definition signed (origin : Origin) : M_ AccountId := ok_or (ensure_signed origin) BadOrigin.

Definition ensure_decision (origin : Origin) : Call_ := ensure (DecisionOrigin cfg origin = true) BadOrigin.

Definition ensure_not_paused : Call_ :=
  let! paused := gets Paused in
  ensure (paused = false) (Module ModulePaused).

(** Block numbers are u32: the code's [+] wraps around. *)
Definition after (now span : Z) : Z := (now + span) mod (u32_max + 1).

(** [Permill::from_parts(bps * 100).mul_floor(amount)]. *)
Definition share_of (bps amount : Z) : Z  := EscrowPallet.mul_floor (Z.min 1000000 (bps * 100)) amount.

(** An operation of another pallet; [err] is what its failure becomes. *)
Definition with_port (op : X -> option X) (err : DispatchError Error) : Call_ :=
  let! x := gets others in
  let! x' := ok_or (op x) err in
  modify (fun s => s <| others := x' |>).

(** One whose failure is not looked at. *)
Definition best_effort (op : X -> X) : Call_ := modify (fun s => s <| others ::= op |>).

Definition pin_cid (who : AccountId) (id : Z) (cid : bytes) : Call_ := best_effort (pin who id cid).

Definition notify (to : AccountId) (notice : bytes) : Call_ := best_effort (send_notice to notice).

(** [Router::apply_decision(..)?]: what the router did before failing stays. *)
Definition route (d : bytes) (id : Z) (decision : Decision) : Call_ :=
  let! result := gets (fun s => apply_decision d id decision (others s)) in
  modify (fun s => s <| others := result.2 |>) >>
  ensure (result.1 = true) (Module PortRefused).

(** ** Notices (dispute.rs) *)

(** The digits of a u64, at most twenty. *)
Fixpoint digits (fuel : nat) (n : Z) : bytes :=
  match fuel with
  | O => []
  | S fuel' => if decide (n > 0) then digits fuel' (n / 10) ++ [48 + n mod 10] else []
  end.

Definition u64_ascii (n : Z) : bytes := if decide (n = 0) then [48] else digits 20 n.

(** [domain] up to its first zero byte. *)
Fixpoint domain_tag (d : bytes) : bytes :=
  match d with
  | [] => []
  | b :: d' => if decide (b = 0) then [] else b :: domain_tag d'
  end.

(** [b'0' + e] on u8. *)
Definition extra_bytes (extra : option Z) : bytes :=
  match extra with Some e => [58; (48 + e) mod 256] | None => [] end.

Definition notice_dispute (kind d : bytes) (id : Z) (extra : option Z) : bytes :=
  kind ++ [58] ++ domain_tag d ++ [58] ++ u64_ascii id ++ extra_bytes extra.

Definition notice_complaint (kind : bytes) (id : Z) (extra : option Z) : bytes :=
  kind ++ [58] ++ u64_ascii id ++ extra_bytes extra.

Definition build_lock_reason (d : bytes) (id : Z) : bytes := literal "arb:" ++ d ++ [58] ++ le_bytes 8 id.

(** ** Deposits of disputes (dispute.rs) *)

Definition get_escrow_account : M_ AccountId := ret (escrow_account_of X).

Definition release_deposit (account : AccountId) (amount_ : Z) (reason : HoldReason) (d : bytes) (id : Z) : Call_ :=
  with_port (release_hold reason account amount_ true) CurrencyError >>
  deposit_event (EvDepositProcessed d id account amount_ 0).

Definition slash_and_release (account : AccountId) (amount_ slash_bps : Z) (reason : HoldReason)
    (treasury : AccountId) (d : bytes) (id : Z) : Call_ :=
  let slash_amount := share_of slash_bps amount_ in
  let release_amount := sat_sub amount_ slash_amount in
  (if decide (slash_amount = 0) then ret tt
   else with_port (transfer_on_hold reason account treasury slash_amount true) CurrencyError) >>
  (if decide (release_amount = 0) then ret tt
   else with_port (release_hold reason account release_amount true) CurrencyError) >>
  deposit_event (EvDepositProcessed d id account release_amount slash_amount).

(** What a decision does to the deposit of a respondent, when there is one. *)
Definition with_respondent (r : TwoWayDepositRecord) (k : Z -> Call_) : Call_ :=
  match respondent_deposit r with Some v => k v | None => ret tt end.

Definition handle_deposits_on_arbitration (d : bytes) (id : Z) (decision : Decision) : Call_ :=
  let! deposits := gets TwoWayDeposits in
  match deposits !! (d, id) with
  | None => ret tt
  | Some r =>
      modify (fun s => s <| TwoWayDeposits ::= delete (d, id) |>) >>
      let! escrow := get_escrow_account in
      let slash bps reason v := slash_and_release escrow v bps reason (TreasuryAccount cfg) d id in
      let give_back reason v := release_deposit escrow v reason d id in
      match decision with
      | Release =>
          slash (RejectedSlashBps cfg) DisputeInitiator (initiator_deposit r) >>
          with_respondent r (give_back DisputeRespondent)
      | Refund =>
          give_back DisputeInitiator (initiator_deposit r) >>
          with_respondent r (slash (RejectedSlashBps cfg) DisputeRespondent)
      | Partial _ =>
          slash (PartialSlashBps cfg) DisputeInitiator (initiator_deposit r) >>
          with_respondent r (slash (PartialSlashBps cfg) DisputeRespondent)
      end
  end.

Definition lock_evidence_cid (d : bytes) (id : Z) (cid_hash : N) : Call_ :=
  with_port (lock_cid cid_hash (build_lock_reason d id)) (Module PortRefused) >>
  let! hashes := gets LockedCidHashes in
  let l := default [] (hashes !! (d, id)) in
  ensure (Z.of_nat (length l) < MaxEvidence cfg) (Module TooManyComplaints) >>
  modify (fun s => s <| LockedCidHashes ::= <[(d, id) := l ++ [cid_hash]]> |>).

Definition unlock_all_evidence_cids (d : bytes) (id : Z) : Call_ :=
  let! hashes := gets LockedCidHashes in
  modify (fun s => s <| LockedCidHashes ::= delete (d, id) |>) >>
  for_each (default [] (hashes !! (d, id))) (fun h => best_effort (unlock_cid h (build_lock_reason d id))).

(** [pallet_storage_lifecycle::block_to_year_month] of a u32 block; the month is
    counted in thirty days from January 2024. *)
Definition block_to_year_month (block blocks_per_day : Z) : Z :=
  if decide (blocks_per_day = 0) then 2401
  else
    let months := block / blocks_per_day / 30 in
    let year := (24 + (months / 12) mod 65536) mod 65536 in
    (year * 100 mod 65536 + (months mod 12 + 1)) mod 65536.

Definition count_decision (decision : Z) (st : ArbitrationPermanentStats) : ArbitrationPermanentStats :=
  let st := st <| total_disputes ::= fun n => sat_add u64_max n 1 |> in
  match decision with
  | 0 => st <| release_count ::= fun n => sat_add u64_max n 1 |>
  | 1 => st <| refund_count ::= fun n => sat_add u64_max n 1 |>
  | _ => st <| partial_count ::= fun n => sat_add u64_max n 1 |>
  end.

Definition archive_and_cleanup (env : Env) (d : bytes) (id decision partial_bps : Z) : Call_ :=
  let now := block_number env in
  let archived := mkArchivedDispute d id decision partial_bps now (block_to_year_month now 14400) in
  let! archived_id := gets NextArchivedId in
  modify (fun s => s <| ArchivedDisputes ::= <[archived_id := archived]> |>) >>
  modify (fun s => s <| NextArchivedId := sat_add u64_max archived_id 1 |>) >>
  modify (fun s => s <| ArbitrationStats ::= count_decision decision |>) >>
  modify (fun s => s <| Disputed ::= fun m => m ∖ {[(d, id)]} |>) >>
  modify (fun s => s <| EvidenceIds ::= delete (d, id) |>) >>
  modify (fun s => s <| TwoWayDeposits ::= delete (d, id) |>).

(** ** Deposits of complaints (complaint.rs) *)

(** [ComplaintDeposits::take]. *)
Definition take_deposit (id : Z) : M_ (option Z) :=
  let! deposits := gets ComplaintDeposits in
  modify (fun s => s <| ComplaintDeposits ::= delete id |>) >>
  ret (deposits !! id).

(** A hold operation whose failure is only reported. *)
Definition or_report (op : X -> option X) (report fallback : Call_) : Call_ :=
  let! x := gets others in
  match op x with
  | Some x' => modify (fun s => s <| others := x' |>)
  | None => report >> fallback
  end.

Definition slash_bps_of s (d : bytes) (t : ComplaintType) : Z :=
  let type_rate := penalty_rate t in
  let rate := if decide (type_rate > 0) then type_rate else ComplaintSlashBps cfg in
  Z.min (default rate (DomainPenaltyRates s !! d)) 10000.

Definition slash_complaint_deposit (id : Z) (from to : AccountId) (d : bytes) (t : ComplaintType) : Call_ :=
  let! taken := take_deposit id in
  match taken with
  | None => ret tt
  | Some deposit =>
      let! bps := gets (fun s => slash_bps_of s d t) in
      let slash_amount := share_of bps deposit in
      let return_amount := sat_sub deposit slash_amount in
      (if decide (slash_amount = 0) then ret tt
       else or_report (transfer_on_hold ComplaintDeposit from to slash_amount false)
              (deposit_event (EvDepositOperationFailed id 0 slash_amount))
              (or_report (release_hold ComplaintDeposit from slash_amount false) (ret tt) (ret tt))) >>
      (if decide (return_amount = 0) then ret tt
       else or_report (release_hold ComplaintDeposit from return_amount false)
              (deposit_event (EvDepositOperationFailed id 1 return_amount)) (ret tt))
  end.

Definition refund_complaint_deposit (id : Z) (to : AccountId) : Call_ :=
  let! taken := take_deposit id in
  match taken with
  | None => ret tt
  | Some deposit =>
      or_report (release_hold ComplaintDeposit to deposit false)
        (deposit_event (EvDepositOperationFailed id 2 deposit)) (ret tt)
  end.

Definition decrement_active_count (who : AccountId) : Call_ :=
  modify (fun s => s <| ActiveComplaintCount ::= fun m => <[who := sat_sub (get0 m who) 1]> m |>).

Definition increment_active_count (who : AccountId) : Call_ :=
  modify (fun s => s <| ActiveComplaintCount ::= fun m => <[who := sat_add u32_max (get0 m who) 1]> m |>).

Definition update_domain (d : bytes) (f : DomainStatistics -> DomainStatistics) : Call_ :=
  modify (fun s => s <| DomainStats ::= fun m => <[d := f (default no_stats (m !! d))]> m |>).

Definition one_more (n : Z) : Z := sat_add u64_max n 1.

(** * Disputes *)

Definition ensure_disputed (d : bytes) (id : Z) : Call_ :=
  let! disputed := gets Disputed in
  ensure ((d, id) ∈ disputed) (Module NotDisputed).

Definition get_deposits (d : bytes) (id : Z) : M_ TwoWayDepositRecord :=
  let! deposits := gets TwoWayDeposits in
  ok_or (deposits !! (d, id)) (Module NotDisputed).

Definition ensure_evidence (evidence_id : Z) : Call_ :=
  let! x := gets others in
  ensure (evidence_exists evidence_id x = true) (Module EvidenceNotFound).

Definition push_evidence (d : bytes) (id evidence_id : Z) : Call_ :=
  let! evidence := gets (fun s => default [] (EvidenceIds s !! (d, id))) in
  ensure (Z.of_nat (length evidence) < MaxEvidence cfg) (Module AlreadyDisputed) >>
  modify (fun s => s <| EvidenceIds ::= <[(d, id) := evidence ++ [evidence_id]]> |>).

Definition no_longer_pending (d : bytes) (id : Z) : Call_ :=
  modify (fun s => s <| PendingArbitrationDisputes ::= fun m => m ∖ {[(d, id)]} |>).

Definition decision_of (code : Z) (bps : option Z) : option Decision :=
  match code, bps with
  | 0, _ => Some Release
  | 1, _ => Some Refund
  | 2, Some p => Some (Partial (Z.min p 10000))
  | 2, None => Some (Partial (Z.min (PartialSlashBps cfg) 10000))
  | _, _ => None
  end.

Definition code_of (d : Decision) : Z * option Z :=
  match d with Release => (0, None) | Refund => (1, None) | Partial p => (2, Some p) end.

(** The money, the deposits, the evidence and the archive of a decided dispute. *)
Definition close_dispute (env : Env) (d : bytes) (id : Z) (decision : Decision) (code bps : Z) : Call_ :=
  route d id decision >>
  handle_deposits_on_arbitration d id decision >>
  unlock_all_evidence_cids d id >>
  no_longer_pending d id >>
  archive_and_cleanup env d id code bps.

Definition dispute (origin : Origin) : Call_ := signed origin >> fail (Module Deprecated).
Definition dispute_with_evidence_id (origin : Origin) : Call_ := signed origin >> fail (Module Deprecated).

Definition arbitrate (env : Env) (origin : Origin) (d : bytes) (id decision_code : Z) (bps : option Z) : Call_ :=
  ensure_decision origin >>
  ensure_disputed d id >>
  let! parties := gets (fun s => TwoWayDeposits s !! (d, id)) in
  let! decision := ok_or (decision_of decision_code bps) (Module InvalidDecisionCode) in
  let out := code_of decision in
  close_dispute env d id decision out.1 (default 0 out.2) >>
  deposit_event (EvArbitrated d id out.1 out.2) >>
  match parties with
  | Some r =>
      let notice := notice_dispute (literal "dispute:arbitrated") d id (Some decision_code) in
      notify (initiator r) notice >> notify (dispute_respondent r) notice
  | None => ret tt
  end.

Definition append_evidence_id (origin : Origin) (d : bytes) (id evidence_id : Z) : Call_ :=
  ensure_not_paused >>
  let! who := signed origin in
  ensure_disputed d id >>
  let! x := gets others in
  ensure (can_dispute d who id x = true) (Module NotAuthorized) >>
  ensure_evidence evidence_id >>
  push_evidence d id evidence_id.

(** Both sides' deposits are put on hold on the account of the escrow. *)
Definition hold_deposit (id amount_ : Z) (reason : HoldReason) : Call_ :=
  let! x := gets others in
  ensure (escrow_amount_of id x >= amount_) (Module InsufficientDeposit) >>
  let! escrow := get_escrow_account in
  with_port (hold reason escrow amount_) (Module InsufficientDeposit).

Definition dispute_with_two_way_deposit (env : Env) (origin : Origin) (d : bytes) (id evidence_id : Z) : Call_ :=
  ensure_not_paused >>
  let! who := signed origin in
  let! s := gets (fun s => s) in
  ensure (can_dispute d who id (others s) = true) (Module NotDisputed) >>
  ensure ((d, id) ∉ Disputed s) (Module AlreadyDisputed) >>
  ensure_evidence evidence_id >>
  let! order_amount := ok_or (get_order_amount d id (others s)) (Module CounterpartyNotFound) in
  let deposit := share_of (DepositRatioBps cfg) order_amount in
  hold_deposit id deposit DisputeInitiator >>
  let! x := gets others in
  let! other := ok_or (get_counterparty d who id x) (Module CounterpartyNotFound) in
  ensure (who <> other) (Module NotAuthorized) >>
  let deadline := after (block_number env) (ResponseDeadline cfg) in
  modify (fun s => s <| Disputed ::= union {[(d, id)]} |>) >>
  modify (fun s => s <| TwoWayDeposits ::= <[(d, id) := mkDeposits who deposit other None deadline false]> |>) >>
  push_evidence d id evidence_id >>
  modify (fun s => s <| PendingArbitrationDisputes ::= union {[(d, id)]} |>) >>
  notify other (notice_dispute (literal "dispute:opened") d id None) >>
  deposit_event (EvDisputeWithDepositInitiated d id who other deposit deadline).

Definition respond_to_dispute (env : Env) (origin : Origin) (d : bytes) (id counter_evidence_id : Z) : Call_ :=
  ensure_not_paused >>
  let! who := signed origin in
  let! r := get_deposits d id in
  ensure (dispute_respondent r = who) (Module NotDisputed) >>
  ensure (has_responded r = false) (Module AlreadyResponded) >>
  ensure (block_number env <= dispute_deadline r) (Module ResponseDeadlinePassed) >>
  ensure_evidence counter_evidence_id >>
  let deposit := initiator_deposit r in
  hold_deposit id deposit DisputeRespondent >>
  modify (fun s => s <| TwoWayDeposits ::=
    <[(d, id) := r <| respondent_deposit := Some deposit |> <| has_responded := true |>]> |>) >>
  push_evidence d id counter_evidence_id >>
  deposit_event (EvRespondentDepositLocked d id who deposit) >>
  notify (initiator r) (notice_dispute (literal "dispute:responded") d id None).

Definition request_default_judgment (env : Env) (origin : Origin) (d : bytes) (id : Z) : Call_ :=
  ensure_not_paused >>
  let! who := signed origin in
  let! r := get_deposits d id in
  ensure (initiator r = who) (Module NotAuthorized) >>
  ensure (has_responded r = false) (Module AlreadyResponded) >>
  ensure (block_number env > dispute_deadline r) (Module ResponseDeadlineNotReached) >>
  close_dispute env d id Refund 1 0 >>
  deposit_event (EvDefaultJudgment d id who) >>
  notify (dispute_respondent r) (notice_dispute (literal "dispute:default") d id None).

Definition settle_dispute (origin : Origin) (d : bytes) (id : Z) : Call_ :=
  ensure_not_paused >>
  let! who := signed origin in
  ensure_disputed d id >>
  let! r := get_deposits d id in
  ensure (initiator r = who \/ dispute_respondent r = who) (Module NotAuthorized) >>
  ensure (has_responded r = true) (Module SettlementNotConfirmed) >>
  let! escrow := get_escrow_account in
  release_deposit escrow (initiator_deposit r) DisputeInitiator d id >>
  with_respondent r (fun v => release_deposit escrow v DisputeRespondent d id) >>
  unlock_all_evidence_cids d id >>
  no_longer_pending d id >>
  modify (fun s => s <| Disputed ::= fun m => m ∖ {[(d, id)]} |>) >>
  modify (fun s => s <| EvidenceIds ::= delete (d, id) |>) >>
  modify (fun s => s <| TwoWayDeposits ::= delete (d, id) |>) >>
  attempt (route d id Release) >>
  deposit_event (EvDisputeSettled d id).

Definition dismiss_dispute (env : Env) (origin : Origin) (d : bytes) (id : Z) : Call_ :=
  ensure_decision origin >>
  ensure_disputed d id >>
  close_dispute env d id Release 0 0 >>
  deposit_event (EvDisputeDismissed d id).

(** A deposit given back, or the failure reported. *)
Definition try_release (account : AccountId) (amount_ : Z) (reason : HoldReason) (d : bytes) (id operation : Z) : Call_ :=
  let! done_ := attempt (release_deposit account amount_ reason d id) in
  match done_ with
  | Some _ => ret tt
  | None => deposit_event (EvDepositOperationFailed id operation amount_)
  end.

Definition force_close_dispute (origin : Origin) (d : bytes) (id : Z) : Call_ :=
  ensure_decision origin >>
  ensure_disputed d id >>
  let! deposits := gets TwoWayDeposits in
  modify (fun s => s <| TwoWayDeposits ::= delete (d, id) |>) >>
  match deposits !! (d, id) with
  | Some r =>
      let! escrow := get_escrow_account in
      try_release escrow (initiator_deposit r) DisputeInitiator d id 0 >>
      with_respondent r (fun v => try_release escrow v DisputeRespondent d id 1)
  | None => ret tt
  end >>
  attempt (unlock_all_evidence_cids d id) >>
  no_longer_pending d id >>
  modify (fun s => s <| Disputed ::= fun m => m ∖ {[(d, id)]} |>) >>
  modify (fun s => s <| EvidenceIds ::= delete (d, id) |>) >>
  deposit_event (EvDisputeForceClosed d id).

(** * Complaints *)

(** The deposit of a complaint at the current price, at least the minimum. *)
Definition base_deposit s : Z :=
  match get_nex_to_usd_rate (others s) with
  | Some price =>
      if decide (price > 0) then
        let required := Z.min u128_max (ComplaintDepositUsd cfg * 1000000) / price in
        if decide (required > MinComplaintDeposit cfg) then required else MinComplaintDeposit cfg
      else MinComplaintDeposit cfg
  | None => MinComplaintDeposit cfg
  end.

Definition get_complaint (id : Z) : M_ Complaint :=
  let! complaints := gets Complaints in
  ok_or (complaints !! id) (Module ComplaintNotFound).

Definition put_complaint (id : Z) (c : Complaint) : Call_ :=
  modify (fun s => s <| Complaints ::= <[id := c]> |>).

Definition ensure_transition (c : Complaint) (to : ComplaintStatus) : Call_ :=
  ensure (can_transition (status c) to = true) (Module InvalidState).

Definition moved (c : Complaint) (to : ComplaintStatus) (now : Z) : Complaint :=
  c <| status := to |> <| updated_at := now |>.

Definition set_pending (id : Z) : Call_ := modify (fun s => s <| PendingArbitrationComplaints ::= union {[id]} |>).
Definition unset_pending (id : Z) : Call_ :=
  modify (fun s => s <| PendingArbitrationComplaints ::= fun m => m ∖ {[id]} |>).

Definition cool_down (now : Z) (c : Complaint) : Call_ :=
  modify (fun s => s <| ComplaintCooldown ::= <[(domain c, object_id c) := after now (ResponseDeadline cfg)]> |>).

Definition file_complaint (env : Env) (origin : Origin) (d : bytes) (object : Z) (t : ComplaintType)
    (details : bytes) (amount_ : option Z) : Call_ :=
  ensure_not_paused >>
  let! who := signed origin in
  let! s := gets (fun s => s) in
  ensure (can_dispute d who object (others s) = true) (Module NotAuthorized) >>
  let! other := ok_or (get_counterparty d who object (others s)) (Module CounterpartyNotFound) in
  ensure (who <> other) (Module NotAuthorized) >>
  ensure (complaint_domain t = d \/ t = OtherComplaint) (Module InvalidComplaintType) >>
  let now := block_number env in
  match ComplaintCooldown s !! (d, object) with
  | Some cooldown_until => ensure (now >= cooldown_until) (Module CooldownActive)
  | None => ret tt
  end >>
  ensure (get0 (ActiveComplaintCount s) who < MaxActivePerUser cfg) (Module TooManyActiveComplaints) >>
  let deposit := base_deposit s in
  with_port (hold ComplaintDeposit who deposit) (Module InsufficientDeposit) >>
  let! id := gets NextComplaintId in
  modify (fun s => s <| NextComplaintId := sat_add u64_max id 1 |>) >>
  modify (fun s => s <| ComplaintDeposits ::= <[id := deposit]> |>) >>
  put_complaint id (mkComplaint d object t who other details None amount_ Submitted now
    (after now (ResponseDeadline cfg)) None None None None now) >>
  increment_active_count who >>
  pin_cid who id details >>
  update_domain d (fun st => st <| total_complaints ::= one_more |>) >>
  notify other (notice_complaint (literal "complaint:filed") id None) >>
  deposit_event (EvComplaintFiled id d object who other t).

Definition respond_to_complaint (env : Env) (origin : Origin) (id : Z) (response : bytes) : Call_ :=
  ensure_not_paused >>
  let! who := signed origin in
  let! c := get_complaint id in
  ensure (respondent c = who) (Module NotAuthorized) >>
  ensure_transition c Responded >>
  ensure (block_number env <= response_deadline c) (Module ResponseDeadlinePassed) >>
  pin_cid who id response >>
  deposit_event (EvComplaintResponded id who) >>
  put_complaint id (moved (c <| response_cid := Some response |>) Responded (block_number env)).

Definition withdraw_complaint (env : Env) (origin : Origin) (id : Z) : Call_ :=
  ensure_not_paused >>
  let! who := signed origin in
  let! c := get_complaint id in
  ensure (complainant c = who) (Module NotAuthorized) >>
  ensure_transition c Withdrawn >>
  refund_complaint_deposit id (complainant c) >>
  decrement_active_count (complainant c) >>
  deposit_event (EvComplaintWithdrawn id) >>
  put_complaint id (moved c Withdrawn (block_number env)).

Definition settle_complaint (env : Env) (origin : Origin) (id : Z) (settlement : bytes) : Call_ :=
  ensure_not_paused >>
  let! who := signed origin in
  let! c := get_complaint id in
  ensure (complainant c = who) (Module NotAuthorized) >>
  ensure_transition c ResolvedSettlement >>
  pin_cid who id settlement >>
  refund_complaint_deposit id (complainant c) >>
  decrement_active_count (complainant c) >>
  update_domain (domain c) (fun st => st <| resolved_count ::= one_more |> <| settlements ::= one_more |>) >>
  cool_down (block_number env) c >>
  deposit_event (EvComplaintSettled id) >>
  put_complaint id (moved (c <| settlement_cid := Some settlement |>) ResolvedSettlement (block_number env)).

Definition escalate_to_arbitration (env : Env) (origin : Origin) (id : Z) : Call_ :=
  ensure_not_paused >>
  let! who := signed origin in
  let! c := get_complaint id in
  ensure (complainant c = who \/ respondent c = who) (Module NotAuthorized) >>
  ensure_transition c Arbitrating >>
  (if decide (status c = Submitted)
   then ensure (block_number env > response_deadline c) (Module ResponseDeadlineNotReached) else ret tt) >>
  set_pending id >>
  deposit_event (EvComplaintEscalated id) >>
  put_complaint id (moved c Arbitrating (block_number env)).

(** What a code means to the router, as a status, and in the statistics. *)
Definition router_decision (code : Z) (partial_bps : option Z) : Decision :=
  match code with
  | 0 => Refund
  | 1 => Release
  | _ => Partial (Z.min (default (PartialSlashBps cfg) partial_bps) 10000)
  end.

Definition resolved_status (code : Z) : ComplaintStatus :=
  match code with 1 => ResolvedRespondentWin | _ => ResolvedComplainantWin end.

Definition count_resolution (code : Z) (st : DomainStatistics) : DomainStatistics :=
  let st := st <| resolved_count ::= one_more |> in
  match code with
  | 1 => st <| respondent_wins ::= one_more |>
  | _ => st <| complainant_wins ::= one_more |>
  end.

Definition notify_both (c : Complaint) (notice : bytes) : Call_ :=
  notify (complainant c) notice >> notify (respondent c) notice.

Definition resolve_complaint (env : Env) (origin : Origin) (id decision : Z) (reason : bytes)
    (partial_bps : option Z) : Call_ :=
  ensure_decision origin >>
  let! c := get_complaint id in
  ensure (status c = Arbitrating) (Module InvalidState) >>
  route (domain c) (object_id c) (router_decision decision partial_bps) >>
  pin_cid (complainant c) id reason >>
  (if decide (decision = 1)
   then slash_complaint_deposit id (complainant c) (respondent c) (domain c) (complaint_type c)
   else refund_complaint_deposit id (complainant c)) >>
  (if decide (decision = 0 /\ triggers_permanent_ban (complaint_type c) = true)
   then deposit_event (EvAccountBanRequested (domain c) (object_id c) (respondent c)) else ret tt) >>
  unset_pending id >>
  decrement_active_count (complainant c) >>
  update_domain (domain c) (count_resolution decision) >>
  cool_down (block_number env) c >>
  deposit_event (EvComplaintResolved id decision) >>
  notify_both c (notice_complaint (literal "complaint:resolved") id (Some decision)) >>
  put_complaint id
    (moved (c <| resolution_cid := Some reason |>) (resolved_status decision) (block_number env)).

Definition push_cid (id : Z) (who : AccountId) (cid : bytes) : Call_ :=
  let! cids := gets (fun s => default [] (ComplaintEvidenceCids s !! id)) in
  ensure (Z.of_nat (length cids) < MaxEvidence cfg) (Module TooManyComplaints) >>
  modify (fun s => s <| ComplaintEvidenceCids ::= <[id := cids ++ [cid]]> |>) >>
  deposit_event (EvComplaintEvidenceSupplemented id who cid).

Definition supplement_complaint_evidence (origin : Origin) (id : Z) (cid : bytes) : Call_ :=
  ensure_not_paused >>
  let! who := signed origin in
  let! c := get_complaint id in
  ensure (complainant c = who) (Module NotAuthorized) >>
  ensure (is_active (status c) = true) (Module InvalidState) >>
  push_cid id who cid.

Definition supplement_response_evidence (origin : Origin) (id : Z) (cid : bytes) : Call_ :=
  ensure_not_paused >>
  let! who := signed origin in
  let! c := get_complaint id in
  ensure (respondent c = who) (Module NotAuthorized) >>
  ensure (status c ∈ [Responded; Mediating; Arbitrating; Appealed]) (Module InvalidState) >>
  push_cid id who cid.

Definition start_mediation (env : Env) (origin : Origin) (id : Z) : Call_ :=
  ensure_decision origin >>
  let! c := get_complaint id in
  ensure_transition c Mediating >>
  deposit_event (EvComplaintMediationStarted id) >>
  put_complaint id (moved c Mediating (block_number env)).

Definition dismiss_complaint (env : Env) (origin : Origin) (id : Z) : Call_ :=
  ensure_decision origin >>
  let! c := get_complaint id in
  ensure (is_resolved (status c) = false) (Module InvalidState) >>
  slash_complaint_deposit id (complainant c) (respondent c) (domain c) (complaint_type c) >>
  unset_pending id >>
  decrement_active_count (complainant c) >>
  update_domain (domain c) (fun st => st <| resolved_count ::= one_more |> <| respondent_wins ::= one_more |>) >>
  deposit_event (EvComplaintDismissed id) >>
  put_complaint id (moved c ResolvedRespondentWin (block_number env)).

Definition set_paused (origin : Origin) (paused : bool) : Call_ :=
  ensure_decision origin >>
  modify (fun s => s <| Paused := paused |>) >>
  deposit_event (EvPausedStateChanged paused).

Definition force_close_complaint (env : Env) (origin : Origin) (id : Z) : Call_ :=
  ensure_decision origin >>
  let! c := get_complaint id in
  ensure (is_resolved (status c) = false) (Module InvalidState) >>
  refund_complaint_deposit id (complainant c) >>
  unset_pending id >>
  decrement_active_count (complainant c) >>
  deposit_event (EvComplaintForceClosed id) >>
  put_complaint id (moved c Withdrawn (block_number env)).

Definition set_domain_penalty_rate (origin : Origin) (d : bytes) (rate_bps : option Z) : Call_ :=
  ensure_decision origin >>
  match rate_bps with
  | Some rate =>
      ensure (rate <= 10000) (Module InvalidPenaltyRate) >>
      modify (fun s => s <| DomainPenaltyRates ::= <[d := rate]> |>)
  | None => modify (fun s => s <| DomainPenaltyRates ::= delete d |>)
  end >>
  deposit_event (EvDomainPenaltyRateUpdated d rate_bps).

(** ** Appeals *)

Definition loser (c : Complaint) : option AccountId :=
  match status c with
  | ResolvedComplainantWin => Some (respondent c)
  | ResolvedRespondentWin => Some (complainant c)
  | _ => None
  end.

Definition appeal (env : Env) (origin : Origin) (id : Z) (cid : bytes) : Call_ :=
  ensure_not_paused >>
  let! who := signed origin in
  let! c := get_complaint id in
  ensure (loser c = Some who) (Module CannotAppeal) >>
  ensure_transition c Appealed >>
  let now := block_number env in
  ensure (sat_sub now (updated_at c) <= AppealWindowBlocks cfg) (Module AppealWindowClosed) >>
  let! s := gets (fun s => s) in
  ensure (ComplaintDeposits s !! id = None) (Module InvalidState) >>
  let deposit := Z.min u128_max (base_deposit s * 2) in
  with_port (hold ComplaintDeposit who deposit) (Module InsufficientDeposit) >>
  modify (fun s => s <| ComplaintDeposits ::= <[id := deposit]> |>) >>
  pin_cid who id cid >>
  increment_active_count (complainant c) >>
  set_pending id >>
  deposit_event (EvAppealFiled id who) >>
  put_complaint id (moved (c <| appeal_cid := Some cid |> <| appellant := Some who |>) Appealed now).

(** The status an appeal ends with; not the one the statistics count. *)
Definition appeal_status (code : Z) : ComplaintStatus :=
  match code with 0 => ResolvedComplainantWin | _ => ResolvedRespondentWin end.

Definition appeal_succeeded (code : Z) (by_respondent : bool) : bool :=
  match code, by_respondent with 0, false => true | 1, true => true | _, _ => false end.

Definition resolve_appeal (env : Env) (origin : Origin) (id decision : Z) (reason : bytes) : Call_ :=
  ensure_decision origin >>
  let! c := get_complaint id in
  ensure (status c = Appealed) (Module InvalidState) >>
  let! by_ := ok_or (appellant c) (Module InvalidState) in
  pin_cid (complainant c) id reason >>
  let by_respondent := bool_decide (by_ = respondent c) in
  (if appeal_succeeded decision by_respondent then refund_complaint_deposit id by_
   else slash_complaint_deposit id by_ (if by_respondent then complainant c else respondent c)
          (domain c) (complaint_type c)) >>
  unset_pending id >>
  decrement_active_count (complainant c) >>
  update_domain (domain c) (count_resolution decision) >>
  deposit_event (EvAppealResolved id decision) >>
  notify_both c (notice_complaint (literal "complaint:appeal_resolved") id (Some decision)) >>
  put_complaint id
    (moved (c <| resolution_cid := Some reason |>) (appeal_status decision) (block_number env)).

(** * Sweeps (cleanup.rs)

    Each looks at the ids from its cursor on, until it has acted on enough of them or
    there are no more; then the cursor goes back to the start. *)

Fixpoint scan (visit : Z -> M_ bool) (max_count : Z) (ids : list Z) (count cursor : Z) : M_ (Z * Z) :=
  match ids with
  | [] => ret (count, cursor)
  | id :: rest =>
      if decide (count < max_count) then
        let! hit := visit id in
        scan visit max_count rest (if hit : bool then count + 1 else count) (id + 1)
      else ret (count, cursor)
  end.

Definition final_cursor (cursor max_id : Z) : Z := if decide (cursor >= max_id /\ max_id > 0) then 0 else cursor.

Definition sweep (visit : Z -> M_ bool) (max_count cursor max_id : Z) (put_cursor : Z -> Call_) : M_ Z :=
  let! result := scan visit max_count (seqZ cursor (max_id - cursor)) 0 cursor in
  put_cursor (final_cursor result.2 max_id) >>
  ret result.1.

Definition should_expire (now : Z) (c : Complaint) : bool :=
  if decide (status c = Submitted) then bool_decide (now > response_deadline c)
  else if is_active (status c)
  then bool_decide (sat_sub now (created_at c) >= ComplaintMaxLifetimeBlocks cfg)
  else false.

(** What happens to a complaint, if it exists and the condition holds. *)
Definition visit_complaint (cond : Complaint -> bool) (act : Complaint -> Call_) (id : Z) : M_ bool :=
  let! complaints := gets Complaints in
  match complaints !! id with
  | Some c => if cond c then act c >> ret true else ret false
  | None => ret false
  end.

Definition expire_one (now id : Z) : M_ bool :=
  visit_complaint (should_expire now) (fun c =>
    refund_complaint_deposit id (complainant c) >>
    put_complaint id (moved c Expired now) >>
    update_domain (domain c) (fun st => st <| resolved_count ::= one_more |> <| expired_count ::= one_more |>) >>
    decrement_active_count (complainant c) >>
    unset_pending id >>
    deposit_event (EvComplaintExpired id)) id.

Definition expire_old_complaints (env : Env) (max_count : Z) : M_ Z :=
  let! s := gets (fun s => s) in
  sweep (expire_one (block_number env)) max_count (ComplaintExpiryCursor s) (NextComplaintId s)
    (fun c => modify (fun s => s <| ComplaintExpiryCursor := c |>)).

Definition escalate_one (now id : Z) : M_ bool :=
  visit_complaint (fun c => bool_decide (status c = Responded /\ sat_sub now (updated_at c) >= AutoEscalateBlocks cfg))
    (fun c =>
      put_complaint id (moved c Arbitrating now) >>
      set_pending id >>
      deposit_event (EvComplaintAutoEscalated id)) id.

Definition auto_escalate_stale_complaints (env : Env) (max_count : Z) : M_ Z :=
  let! s := gets (fun s => s) in
  sweep (escalate_one (block_number env)) max_count (AutoEscalateCursor s) (NextComplaintId s)
    (fun c => modify (fun s => s <| AutoEscalateCursor := c |>)).

Definition can_archive (now : Z) (c : Complaint) : bool :=
  is_resolved (status c) &&
  bool_decide (sat_sub now (updated_at c) >= ComplaintArchiveDelayBlocks cfg) &&
  bool_decide (sat_sub now (updated_at c) >= AppealWindowBlocks cfg).

Definition archive_code (st : ComplaintStatus) : Z :=
  match st with
  | ResolvedComplainantWin => 0
  | ResolvedRespondentWin => 1
  | ResolvedSettlement => 2
  | Withdrawn => 3
  | Expired => 4
  | _ => 2
  end.

Definition archive_one (now id : Z) : M_ bool :=
  visit_complaint (can_archive now) (fun c =>
    modify (fun s => s <| ArchivedComplaints ::= <[id := mkArchivedComplaint id (domain c) (object_id c)
      (archive_code (status c)) now (block_to_year_month now 14400)]> |>) >>
    modify (fun s => s <| Complaints ::= delete id |>) >>
    modify (fun s => s <| ComplaintEvidenceCids ::= delete id |>) >>
    modify (fun s => s <| ComplaintCooldown ::= delete (domain c, object_id c) |>) >>
    deposit_event (EvComplaintArchived id)) id.

Definition archive_old_complaints (env : Env) (max_count : Z) : M_ Z :=
  let! s := gets (fun s => s) in
  sweep (archive_one (block_number env)) max_count (ComplaintArchiveCursor s) (NextComplaintId s)
    (fun c => modify (fun s => s <| ComplaintArchiveCursor := c |>)).

Definition clean_dispute (now id : Z) : M_ bool :=
  let! archive := gets ArchivedDisputes in
  match archive !! id with
  | Some a =>
      if decide (sat_sub now (completed_at a) > ArchiveTtlBlocks cfg)
      then modify (fun s => s <| ArchivedDisputes ::= delete id |>) >> ret true else ret false
  | None => ret false
  end.

Definition cleanup_old_archived_disputes (now max_per_call : Z) : M_ Z :=
  if decide (ArchiveTtlBlocks cfg = 0) then ret 0 else
  let! s := gets (fun s => s) in
  sweep (clean_dispute now) max_per_call (ArchiveDisputeCleanupCursor s) (NextArchivedId s)
    (fun c => modify (fun s => s <| ArchiveDisputeCleanupCursor := c |>)).

Definition clean_complaint (now id : Z) : M_ bool :=
  let! archive := gets ArchivedComplaints in
  match archive !! id with
  | Some a =>
      if decide (sat_sub now (resolved_at a) > ArchiveTtlBlocks cfg)
      then modify (fun s => s <| ArchivedComplaints ::= delete id |>) >> ret true else ret false
  | None => ret false
  end.

Definition cleanup_old_archived_complaints (now max_per_call : Z) : M_ Z :=
  if decide (ArchiveTtlBlocks cfg = 0) then ret 0 else
  let! s := gets (fun s => s) in
  sweep (clean_complaint now) max_per_call (ArchiveComplaintCleanupCursor s) (NextComplaintId s)
    (fun c => modify (fun s => s <| ArchiveComplaintCleanupCursor := c |>)).

(** ** The hook: five sweeps, each while the rest of the weight pays for it *)

(** The reference time and the proof size. *)
Definition Weight : Type := Z * Z.
Definition weight_add (a b : Weight) : Weight := (sat_add u64_max a.1 b.1, sat_add u64_max a.2 b.2).
Definition weight_sub (a b : Weight) : Weight := (sat_sub a.1 b.1, sat_sub a.2 b.2).
Definition weight_mul (a : Weight) (n : Z) : Weight := (Z.min u64_max (a.1 * n), Z.min u64_max (a.2 * n)).

Definition per_item_write : Weight := (25000000, 2000).
Definition per_item_read : Weight := (10000000, 1000).
Definition cursor_overhead : Weight := (5000000, 500).

Definition batch_weight (scanned processed : Z) : Weight :=
  weight_add (weight_add cursor_overhead (weight_mul per_item_read scanned)) (weight_mul per_item_write processed).

Definition stage (limit : Z) (work : Z -> M_ Z) (remaining used : Weight) : M_ Weight :=
  if decide ((weight_sub remaining used).1 > (batch_weight limit limit).1) then
    let! processed := work limit in
    ret (weight_add used (batch_weight limit processed))
  else ret used.

Definition on_idle (env : Env) (remaining : Weight) : M_ Weight :=
  let now := block_number env in
  let! used := stage 5 (expire_old_complaints env) remaining (0, 0) in
  let! used := stage 3 (auto_escalate_stale_complaints env) remaining used in
  let! used := stage 10 (archive_old_complaints env) remaining used in
  let! used := stage 5 (cleanup_old_archived_disputes now) remaining used in
  stage 5 (cleanup_old_archived_complaints now) remaining used.

(** * Reads *)

Definition MAX_API_SCAN : Z := 10000.

(** The complaints among the first ten thousand ids; a summary has some of the fields of
    the complaint and no others. *)
Definition scanned s : list (Z * Complaint) :=
  omap (fun id => c ← Complaints s !! id; Some (id, c)) (seqZ 0 (Z.min (NextComplaintId s) MAX_API_SCAN)).

Definition api_get_complaints_by_status s (st : ComplaintStatus) (offset limit : Z) : list (Z * Complaint) :=
  take (Z.to_nat (Z.min limit 100)) (drop (Z.to_nat offset) (filter (fun x => status x.2 = st) (scanned s))).

Definition api_get_user_complaints s (account : AccountId) : list Z :=
  (filter (fun x => is_active (status x.2) = true /\ (complainant x.2 = account \/ respondent x.2 = account))
    (scanned s)).*1.

Definition api_get_complaint_detail s (id : Z) : option (Complaint * option Z * list bytes) :=
  c ← Complaints s !! id; Some (c, ComplaintDeposits s !! id, default [] (ComplaintEvidenceCids s !! id)).

(** * Steps *)

Inductive Call : Type :=
| CDispute | CDisputeWithEvidence
| CArbitrate (d : bytes) (id decision_code : Z) (bps : option Z)
| CAppendEvidence (d : bytes) (id evidence_id : Z)
| COpen (d : bytes) (id evidence_id : Z)
| CRespondDispute (d : bytes) (id evidence_id : Z)
| CFile (d : bytes) (object : Z) (t : ComplaintType) (details : bytes) (amount_ : option Z)
| CRespond (id : Z) (response : bytes)
| CWithdraw (id : Z)
| CSettle (id : Z) (settlement : bytes)
| CEscalate (id : Z)
| CResolve (id decision : Z) (reason : bytes) (partial_bps : option Z)
| CDefaultJudgment (d : bytes) (id : Z)
| CSupplement (id : Z) (cid : bytes)
| CSupplementResponse (id : Z) (cid : bytes)
| CSettleDispute (d : bytes) (id : Z)
| CMediate (id : Z)
| CDismissDispute (d : bytes) (id : Z)
| CDismiss (id : Z)
| CSetPaused (paused : bool)
| CForceCloseDispute (d : bytes) (id : Z)
| CForceClose (id : Z)
| CSetPenalty (d : bytes) (rate : option Z)
| CAppeal (id : Z) (cid : bytes)
| CResolveAppeal (id decision : Z) (reason : bytes).

Definition apply_call (env : Env) (origin : Origin) (c : Call) : Call_ :=
  match c with
  | CDispute => dispute origin
  | CDisputeWithEvidence => dispute_with_evidence_id origin
  | CArbitrate d id code bps => arbitrate env origin d id code bps
  | CAppendEvidence d id ev => append_evidence_id origin d id ev
  | COpen d id ev => dispute_with_two_way_deposit env origin d id ev
  | CRespondDispute d id ev => respond_to_dispute env origin d id ev
  | CFile d object t details a => file_complaint env origin d object t details a
  | CRespond id cid => respond_to_complaint env origin id cid
  | CWithdraw id => withdraw_complaint env origin id
  | CSettle id cid => settle_complaint env origin id cid
  | CEscalate id => escalate_to_arbitration env origin id
  | CResolve id dec reason bps => resolve_complaint env origin id dec reason bps
  | CDefaultJudgment d id => request_default_judgment env origin d id
  | CSupplement id cid => supplement_complaint_evidence origin id cid
  | CSupplementResponse id cid => supplement_response_evidence origin id cid
  | CSettleDispute d id => settle_dispute origin d id
  | CMediate id => start_mediation env origin id
  | CDismissDispute d id => dismiss_dispute env origin d id
  | CDismiss id => dismiss_complaint env origin id
  | CSetPaused p => set_paused origin p
  | CForceCloseDispute d id => force_close_dispute origin d id
  | CForceClose id => force_close_complaint env origin id
  | CSetPenalty d rate => set_domain_penalty_rate origin d rate
  | CAppeal id cid => appeal env origin id cid
  | CResolveAppeal id dec reason => resolve_appeal env origin id dec reason
  end.

Definition dispatch (env : Env) (origin : Origin) (c : Call) : Call_ := transactional (apply_call env origin c).

(** Before the first dispute. *)
Definition genesis (x : X) : State X :=
  mkState X ∅ ∅ ∅ ∅ 0 ∅ (mkStats 0 0 0 0) ∅ 0 ∅ ∅ ∅ ∅ ∅ ∅ ∅ ∅ 0 0 0 0 0 false ∅ x [].

End Pallet.

(** * Concrete parameters *)

(** Balances, holds, and deals with a buyer, a seller and an amount; pins and locks do
    nothing, notices are kept. *)
Record SimplePorts : Type := mkPorts {
  free : gmap AccountId N;
  holds : gmap (N * AccountId) N;
  deals : gmap Z (AccountId * AccountId * N);
  notices : list (AccountId * bytes);
}.

Definition reason_index (r : HoldReason) : N :=
  match r with DisputeInitiator => 0 | DisputeRespondent => 1 | ComplaintDeposit => 2 end.

Definition held_of (r : HoldReason) (who : AccountId) (p : SimplePorts) : N :=
  default 0%N (holds p !! (reason_index r, who)).

Definition put_held (r : HoldReason) (who : AccountId) (v : N) (p : SimplePorts) : SimplePorts :=
  mkPorts (free p) (<[(reason_index r, who) := v]> (holds p)) (deals p) (notices p).

Definition put_free (who : AccountId) (v : N) (p : SimplePorts) : SimplePorts :=
  mkPorts (<[who := v]> (free p)) (holds p) (deals p) (notices p).

Definition free_of (who : AccountId) (p : SimplePorts) : N := default 0%N (free p !! who).

(** Takes up to [v] off hold and pays it to [to]. *)
Definition unhold (r : HoldReason) (who to : AccountId) (v : Z) (exact : bool) (p : SimplePorts) : option SimplePorts :=
  let taken := N.min (Z.to_N v) (held_of r who p) in
  if exact && negb (bool_decide (v <= Z.of_N (held_of r who p))) then None
  else Some (put_held r who (held_of r who p - taken) (put_free to (free_of to p + taken) p)).

#[export] Instance simple_ports : ArbitrationPorts SimplePorts := {
  on_hold r who p := Z.of_N (held_of r who p);
  hold r who v p :=
    if decide (v <= Z.of_N (free_of who p))
    then Some (put_held r who (held_of r who p + Z.to_N v) (put_free who (free_of who p - Z.to_N v) p)) else None;
  release_hold r who v ex p := unhold r who who v ex p;
  transfer_on_hold r from to v _ p := unhold r from to v false p;
  escrow_account_of := 100%N;
  escrow_amount_of id p := match deals p !! id with Some (_, _, v) => Z.of_N v | None => 0 end;
  can_dispute _ who id p :=
    match deals p !! id with Some (buyer, seller, _) => bool_decide (who = buyer \/ who = seller) | None => false end;
  apply_decision _ _ _ p := (true, p);
  get_counterparty _ who id p :=
    match deals p !! id with
    | Some (buyer, seller, _) => if decide (who = buyer) then Some seller else if decide (who = seller) then Some buyer else None
    | None => None
    end;
  get_order_amount _ id p := match deals p !! id with Some (_, _, v) => Some (Z.of_N v) | None => None end;
  evidence_exists _ _ := true;
  get_nex_to_usd_rate _ := None;
  pin _ _ _ p := p;
  lock_cid _ _ p := Some p;
  unlock_cid _ _ p := p;
  send_notice to n p := mkPorts (free p) (holds p) (deals p) (notices p ++ [(to, n)]);
}.

Lemma held_put r who v r' y p :
  held_of r' y (put_held r who v p) = if decide (r' = r /\ y = who) then v else held_of r' y p.
Proof.
  unfold held_of, put_held; simpl. rewrite lookup_insert.
  repeat case_decide; simplify_eq; try done; exfalso; intuition congruence || (destruct r, r'; simplify_eq; tauto).
Qed.

#[export] Instance simple_ports_laws : ArbitrationPortsLaws SimplePorts.
Proof.
  assert (forall r who to v ex p p' r' y, unhold r who to v ex p = Some p' ->
    held_of r' y p' = if decide (r' = r /\ y = who) then (held_of r who p - N.min (Z.to_N v) (held_of r who p))%N
      else held_of r' y p) as Hun.
  { unfold unhold. intros r who to v ex p p' r' y Hp. case_match; [done |]. injection Hp as <-. by rewrite held_put. }
  split; simpl; try done.
  - lia.
  - intros r who v p p' r' y Hv. case_decide; [intros [= <-] | done]. rewrite held_put. unfold at_hold.
    case_decide as Hk; [destruct Hk; subst; lia | unfold held_of; simpl; lia].
  - intros r who v ex p p' r' y Hv Hp. rewrite (Hun _ _ _ _ _ _ _ _ _ Hp). unfold at_hold.
    case_decide as Hk; [destruct Hk; subst; lia | lia].
  - intros r who v p p' r' y. case_decide; [intros [= <-] Hr | done]. rewrite held_put, decide_False by tauto. done.
  - intros r who v ex p p' r' y Hp Hr. rewrite (Hun _ _ _ _ _ _ _ _ _ Hp), decide_False by tauto. done.
  - intros r from to v f p p' r' y Hp Hr. rewrite (Hun _ _ _ _ _ _ _ _ _ Hp), decide_False by tauto. done.
  - intros r who v p p'. unfold unhold. simpl. case_bool_decide; [done |]. done.
  - intros r from to v f p p' r' y Hv Hp. rewrite (Hun _ _ _ _ _ _ _ _ _ Hp). unfold at_hold.
    case_decide as Hk; [destruct Hk; subst; lia | lia].
  - intros r who v p Hv. unfold unhold. simpl. rewrite bool_decide_true by done. eauto.
  - intros _ id p v. destruct (deals p !! id) as [[[? ?] n] |]; [intros [= <-]; lia | done].
  - congruence.
Qed.
End Arbitration.
