(* ===== verification/ArbitrationRules.v ===== *)
(** The rules complaints live by: every call moves a complaint along its state
    machine, or is one of three that step outside it; counters, pending lists and
    deposits always agree with the complaints; and what is on hold covers the
    recorded deposits as long as nobody closes a respondent's appeal by force. *)

From S2P Require Import Prelude Frame Escrow Arbitration.

Create HintDb ports.

Module ArbitrationRules.
Import Arbitration.

(** * What a step does to complaints *)

(** The statuses that wait for the committee. *)
Definition awaits (st : ComplaintStatus) : bool := match st with Arbitrating | Appealed => true | _ => false end.

(** Whose deposit a complaint holds. *)
Definition holder (c : Complaint) : AccountId :=
  match status c with Appealed => default (complainant c) (appellant c) | _ => complainant c end.

Definition same_parties (c c' : Complaint) : Prop :=
  complainant c' = complainant c /\ respondent c' = respondent c /\ domain c' = domain c /\
  object_id c' = object_id c /\ complaint_type c' = complaint_type c /\ created_at c' = created_at c.

(** The moves outside the state machine: the committee closes or dismisses what it
    likes, and an appeal runs out of time. *)
Definition override (from to : ComplaintStatus) : bool :=
  match from, to with
  | (Submitted | Responded | Mediating | Arbitrating | Appealed), (Withdrawn | ResolvedRespondentWin) => true
  | Appealed, Expired => true
  | _, _ => false
  end.

Definition at_account (who : AccountId) (v : Z) (x : AccountId) : Z := if decide (x = who) then v else 0.

Section Rules.
Context `{FrameSystem} {X : Type} `{ArbitrationPorts X} `{!ArbitrationPortsLaws X}.
Context `{EscrowPallet.PermillLaws} (cfg : Config).
Implicit Types (s : State X) (c : Complaint).

Definition deposit_of s (id : Z) : Z := default 0 (ComplaintDeposits s !! id).
Definition complaint_hold s (x : AccountId) : Z := on_hold ComplaintDeposit x (others s).

(** The parameters are unsigned numbers of the runtime. *)
Record cfg_ok : Prop := {
  cfg_deposit : 0 <= MinComplaintDeposit cfg;
  cfg_slash : 0 <= ComplaintSlashBps cfg;
  cfg_active : 0 <= MaxActivePerUser cfg <= u32_max;
  cfg_ratio : 0 <= DepositRatioBps cfg;
  cfg_rejected : 0 <= RejectedSlashBps cfg;
  cfg_partial : 0 <= PartialSlashBps cfg;
}.

(** Complaint [id] goes from [c] to [c']; its deposit appears, stays or goes with
    its being active, and the lists and counters follow. When [fair], what is on hold
    loses no more than the deposit of the one who made it. *)
Record moves (fair : Prop) (id : Z) (c c' : Complaint) s s' : Prop := {
  mv_from : Complaints s !! id = Some c;
  mv_to : Complaints s' = <[id := c']> (Complaints s);
  mv_next : NextComplaintId s' = NextComplaintId s;
  mv_parties : same_parties c c';
  mv_status : can_transition (status c) (status c') = true \/ override (status c) (status c') = true;
  mv_appellant : status c' = Appealed -> appellant c' = Some (complainant c') \/ appellant c' = Some (respondent c');
  mv_others : forall j, j <> id -> ComplaintDeposits s' !! j = ComplaintDeposits s !! j;
  mv_deposit : is_Some (ComplaintDeposits s' !! id) <-> is_active (status c') = true;
  mv_amount : 0 <= deposit_of s' id;
  mv_pending : forall j, j ∈ PendingArbitrationComplaints s' <->
    (if decide (j = id) then awaits (status c') = true else j ∈ PendingArbitrationComplaints s);
  mv_count : forall x, get0 (ActiveComplaintCount s') x = get0 (ActiveComplaintCount s) x +
    at_account (complainant c) (Z.b2z (is_active (status c')) - Z.b2z (is_active (status c))) x;
  mv_hold : fair -> forall x, complaint_hold s x + at_account (holder c') (deposit_of s' id) x -
    at_account (holder c) (deposit_of s id) x <= complaint_hold s' x;
  mv_rates : DomainPenaltyRates s' = DomainPenaltyRates s;
}.

(** What is true of every complaint and its records. *)
Record consistent s : Prop := {
  cn_next : 0 <= NextComplaintId s;
  cn_ids : forall id c, Complaints s !! id = Some c -> 0 <= id < NextComplaintId s;
  cn_parties : forall id c, Complaints s !! id = Some c -> complainant c <> respondent c;
  cn_appellant : forall id c, Complaints s !! id = Some c -> status c = Appealed ->
    appellant c = Some (complainant c) \/ appellant c = Some (respondent c);
  cn_deposits : forall id, is_Some (ComplaintDeposits s !! id) <->
    exists c, Complaints s !! id = Some c /\ is_active (status c) = true;
  cn_amounts : forall id d, ComplaintDeposits s !! id = Some d -> 0 <= d;
  cn_pending : forall id, id ∈ PendingArbitrationComplaints s <->
    exists c, Complaints s !! id = Some c /\ awaits (status c) = true;
  cn_count : forall x, get0 (ActiveComplaintCount s) x =
    msum (fun _ c => at_account (complainant c) (Z.b2z (is_active (status c))) x) (Complaints s);
  cn_rates : forall d r, DomainPenaltyRates s !! d = Some r -> 0 <= r;
}.

(** ** Paying deposits back *)

Definition rest s :=
  (NextComplaintId s, Complaints s, PendingArbitrationComplaints s, ActiveComplaintCount s, DomainPenaltyRates s,
   (Disputed s, TwoWayDeposits s, PendingArbitrationDisputes s)).

Record paid_back (id : Z) (who : AccountId) s s' : Prop := {
  pb_rest : rest s' = rest s;
  pb_deposits : ComplaintDeposits s' = delete id (ComplaintDeposits s);
  pb_hold : forall x, complaint_hold s x - at_account who (deposit_of s id) x <= complaint_hold s' x;
  pb_other : forall r x, r <> ComplaintDeposit -> on_hold r x (others s') = on_hold r x (others s);
}.

Lemma at_hold_account r who v y : at_hold r who v r y = at_account who v y.
Proof. unfold at_hold, at_account. repeat case_decide; tauto. Qed.

Lemma at_hold_other r who v r' y : r' <> r -> at_hold r who v r' y = 0.
Proof. intros Hne. unfold at_hold. rewrite decide_False; [done | tauto]. Qed.

(** What is on hold at [who] for complaints goes down by at most [v]; nothing else
    that matters changes. *)
Record costs (who : AccountId) (v : Z) s s' : Prop := {
  co_rest : rest s' = rest s;
  co_deposits : ComplaintDeposits s' = ComplaintDeposits s;
  co_hold : forall x, complaint_hold s x - at_account who v x <= complaint_hold s' x;
  co_other : forall r x, r <> ComplaintDeposit -> on_hold r x (others s') = on_hold r x (others s);
}.

Lemma costs_free who v s : 0 <= v -> costs who v s s.
Proof. intros Hv. split; try done. intros x. unfold at_account. case_decide; lia. Qed.

Lemma costs_trans who v w s s1 s2 : costs who v s s1 -> costs who w s1 s2 -> costs who (v + w) s s2.
Proof.
  intros [E1 E2 E3 E4] [G1 G2 G3 G4]. split; [congruence.. | |].
  - intros x. specialize (E3 x). specialize (G3 x). unfold at_account in *. case_decide; lia.
  - intros r x Hr. by rewrite G4, E4.
Qed.

Lemma costs_event who v e s u s' : 0 <= v -> deposit_event (X:=X) e s = (Ok u, s') -> costs who v s s'.
Proof. intros Hv [= _ <-]. destruct (costs_free who v s Hv) as [E1 E2 E3 E4]. by split. Qed.

(** A hold operation whose failure is only reported. *)
Lemma or_report_costs who v (op : X -> option X) report fallback s u s' :
  (forall x x', op x = Some x' -> (forall y, on_hold ComplaintDeposit y x - at_account who v y <= on_hold ComplaintDeposit y x') /\
    forall r y, r <> ComplaintDeposit -> on_hold r y x' = on_hold r y x) ->
  (forall u1 s1, (report >> fallback) s = (Ok u1, s1) -> costs who v s s1) ->
  or_report op report fallback s = (Ok u, s') -> costs who v s s'.
Proof.
  intros Hop Hrep Hr. unfold or_report in Hr. apply bind_Ok in Hr as (x0 & s1 & Hg & Hr).
  apply gets_inv in Hg as [[= ->] ->]. destruct (op (others s)) as [x' |] eqn:Hx; [| by eapply Hrep].
  apply modify_inv in Hr as [_ ->]. destruct (Hop _ _ Hx). by split.
Qed.

Lemma release_takes who v x x' :
  0 <= v -> release_hold ComplaintDeposit who v false x = Some x' ->
  (forall y, on_hold ComplaintDeposit y x - at_account who v y <= on_hold ComplaintDeposit y x') /\
  forall r y, r <> ComplaintDeposit -> on_hold r y x' = on_hold r y x.
Proof.
  intros Hv Hx. split; intros.
  - rewrite (release_held _ _ _ _ _ _ ComplaintDeposit y Hv Hx), at_hold_account. unfold at_account. case_decide; lia.
  - rewrite (release_held _ _ _ _ _ _ r y Hv Hx), at_hold_other by done. lia.
Qed.

Lemma transfer_takes who to v x x' :
  0 <= v -> transfer_on_hold ComplaintDeposit who to v false x = Some x' ->
  (forall y, on_hold ComplaintDeposit y x - at_account who v y <= on_hold ComplaintDeposit y x') /\
  forall r y, r <> ComplaintDeposit -> on_hold r y x' = on_hold r y x.
Proof.
  intros Hv Hx. split; intros.
  - rewrite (transfer_held _ _ _ _ _ _ _ ComplaintDeposit y Hv Hx), at_hold_account. unfold at_account. case_decide; lia.
  - rewrite (transfer_held _ _ _ _ _ _ _ r y Hv Hx), at_hold_other by done. lia.
Qed.

Lemma reported_release who v e s u s' :
  0 <= v -> or_report (release_hold ComplaintDeposit who v false) (deposit_event e) (ret tt) s = (Ok u, s') ->
  costs who v s s'.
Proof.
  intros Hv. apply or_report_costs; [intros x x'; by apply release_takes |]. intros u1 s1 Hr. m_inv.
  by eapply costs_event.
Qed.

Lemma silent_release who v s u s' :
  0 <= v -> or_report (release_hold ComplaintDeposit who v false) (ret tt) (ret tt) s = (Ok u, s') ->
  costs who v s s'.
Proof.
  intros Hv. apply or_report_costs; [intros x x'; by apply release_takes |]. intros u1 s1 Hr. m_inv. by apply costs_free.
Qed.

Lemma take_deposit_run id s :
  take_deposit id s = (Ok (ComplaintDeposits s !! id), s <| ComplaintDeposits ::= delete id |>).
Proof. done. Qed.

(** What follows the removal of the record. *)
Lemma paid_after id who s s' :
  costs who (deposit_of s id) (s <| ComplaintDeposits ::= delete id |>) s' -> paid_back id who s s'.
Proof. intros [Hr Hd Hh Ho]. split; [exact Hr | exact Hd | exact Hh | exact Ho]. Qed.

Lemma refund_paid id who s u s' :
  consistent s -> refund_complaint_deposit id who s = (Ok u, s') -> paid_back id who s s'.
Proof.
  intros Hs Hr. unfold refund_complaint_deposit in Hr. rewrite (bind_eval _ _ _ _ _ (take_deposit_run id s)) in Hr.
  apply paid_after. unfold deposit_of. destruct (ComplaintDeposits s !! id) as [d |] eqn:Hd.
  - eapply reported_release; [by eapply cn_amounts | exact Hr].
  - apply ret_inv in Hr as [_ ->]. by apply costs_free.
Qed.

Lemma share_bounds bps v : 0 <= bps -> 0 <= v -> 0 <= share_of bps v <= v.
Proof.
  intros Hb Hv. unfold share_of. rewrite EscrowPallet.mul_floor_spec by lia.
  split; [apply Z.div_pos; nia |]. apply Z.div_le_upper_bound; nia.
Qed.

Lemma slash_bps_nonneg s d t : cfg_ok -> consistent s -> 0 <= slash_bps_of cfg s d t.
Proof.
  intros Hc Hs. unfold slash_bps_of. pose proof (cfg_slash Hc).
  assert (0 <= default (if decide (penalty_rate t > 0) then penalty_rate t else ComplaintSlashBps cfg)
    (DomainPenaltyRates s !! d)); [| lia].
  destruct (DomainPenaltyRates s !! d) as [r |] eqn:Hr; simpl; [by eapply cn_rates | case_decide; lia].
Qed.

Lemma slash_paid id who to d t s u s' :
  cfg_ok -> consistent s -> slash_complaint_deposit cfg id who to d t s = (Ok u, s') -> paid_back id who s s'.
Proof.
  intros Hc Hs Hr. unfold slash_complaint_deposit in Hr. rewrite (bind_eval _ _ _ _ _ (take_deposit_run id s)) in Hr.
  apply paid_after. unfold deposit_of. destruct (ComplaintDeposits s !! id) as [v |] eqn:Hd;
    [| apply ret_inv in Hr as [_ ->]; by apply costs_free].
  apply bind_Ok in Hr as (bps & s1 & Hg & Hr). apply gets_inv in Hg as [[= Hbps] ->].
  assert (0 <= bps) as Hb by (rewrite Hbps; by apply (slash_bps_nonneg s)). clear Hbps.
  destruct (share_bounds bps v Hb (cn_amounts _ Hs _ _ Hd)) as [Hs0 Hsv].
  set (cut := share_of bps v) in *. simpl.
  apply bind_Ok in Hr as ([] & s1 & Hcut & Hr). replace v with (cut + sat_sub v cut) by (unfold sat_sub; lia).
  apply (costs_trans _ _ _ _ s1).
  - destruct (decide (cut = 0)); [apply ret_inv in Hcut as [_ ->]; by apply costs_free |].
    eapply or_report_costs, Hcut; [intros x x'; by apply transfer_takes |]. intros u1 s2 Hf.
    apply bind_Ok in Hf as (u2 & s3 & He & Hf). apply (silent_release _ _ _ _ _ Hs0) in Hf.
    replace cut with (0 + cut) by lia. eapply costs_trans; [by eapply costs_event | exact Hf].
  - destruct (decide (sat_sub v cut = 0)); [apply ret_inv in Hr as [_ ->]; apply costs_free; unfold sat_sub; lia |].
    eapply reported_release; [unfold sat_sub; lia | exact Hr].
Qed.

(** ** Moves of a complaint *)

Lemma active_counted s id c :
  consistent s -> Complaints s !! id = Some c -> is_active (status c) = true ->
  1 <= get0 (ActiveComplaintCount s) (complainant c).
Proof.
  intros Hs Hc Ha. rewrite (cn_count _ Hs).
  etrans; [| apply (msum_elem_le (fun _ c' => at_account (complainant c') (Z.b2z (is_active (status c'))) (complainant c))
    _ id c); [| done]].
  - unfold at_account. by rewrite decide_True, Ha.
  - intros k v _. unfold at_account, Z.b2z. repeat case_match; lia.
Qed.

(** A complaint that ends: its deposit is paid out and it is no longer counted. *)
Lemma moves_close (fair : Prop) id c c' who s s1 s' :
  consistent s -> Complaints s !! id = Some c ->
  is_active (status c) = true -> is_active (status c') = false -> same_parties c c' ->
  can_transition (status c) (status c') = true \/ override (status c) (status c') = true ->
  paid_back id who s s1 -> (fair -> who = holder c) ->
  Complaints s' = <[id := c']> (Complaints s1) -> NextComplaintId s' = NextComplaintId s1 ->
  ComplaintDeposits s' = ComplaintDeposits s1 ->
  (PendingArbitrationComplaints s' = PendingArbitrationComplaints s1 ∖ {[id]} \/
   (PendingArbitrationComplaints s' = PendingArbitrationComplaints s1 /\ awaits (status c) = false)) ->
  ActiveComplaintCount s' =
    <[complainant c := sat_sub (get0 (ActiveComplaintCount s1) (complainant c)) 1]> (ActiveComplaintCount s1) ->
  (forall x, complaint_hold s' x = complaint_hold s1 x) -> DomainPenaltyRates s' = DomainPenaltyRates s1 ->
  moves fair id c c' s s'.
Proof.
  intros Hs Hc Ha Ha' Hp Hst Hpaid Hfair Ec En Ed Epend Ecount Eh Erates.
  pose proof (pb_rest _ _ _ _ Hpaid) as [= Rn Rc Rp Ra Rr _ _ _]. rewrite Rc in Ec. rewrite Rn in En. rewrite Rp in Epend.
  rewrite Ra in Ecount. rewrite Rr in Erates. clear Rn Rc Rp Ra Rr.
  assert (deposit_of s' id = 0) as Hz.
  { unfold deposit_of. by rewrite Ed, (pb_deposits _ _ _ _ Hpaid), lookup_delete_eq. }
  split; try done.
  - intros Hap. rewrite Hap in Ha'. done.
  - intros j Hj. rewrite Ed, (pb_deposits _ _ _ _ Hpaid). by rewrite lookup_delete_ne.
  - rewrite Ed, (pb_deposits _ _ _ _ Hpaid), lookup_delete_eq, Ha'. split; [by intros [? ?] | done].
  - by rewrite Hz.
  - intros j. assert (awaits (status c') = false) as Haw by (destruct (status c'); done).
    destruct Epend as [-> | [-> Hno]].
    + case_decide as Hj; [subst; rewrite Haw; set_solver | set_solver].
    + case_decide as Hj; [subst j | done]. rewrite Haw. split; [| done]. intros Hin.
      apply (cn_pending _ Hs) in Hin as (c1 & Hc1 & Haw1). congruence.
  - intros x. pose proof (active_counted _ _ _ Hs Hc Ha). rewrite Ecount, get0_insert, Ha, Ha'. unfold at_account, sat_sub.
    repeat case_decide; simplify_eq; simpl; lia.
  - intros Hf x. rewrite Eh, Hz, <- (Hfair Hf). pose proof (pb_hold _ _ _ _ Hpaid x). unfold at_account in *.
    repeat case_decide; lia.
Qed.

(** A complaint that stays active, with its deposit. *)
Lemma moves_keep (fair : Prop) id c c' s s' :
  consistent s -> Complaints s !! id = Some c ->
  is_active (status c) = true -> is_active (status c') = true -> status c <> Appealed -> status c' <> Appealed ->
  same_parties c c' -> can_transition (status c) (status c') = true ->
  Complaints s' = <[id := c']> (Complaints s) -> NextComplaintId s' = NextComplaintId s ->
  ComplaintDeposits s' = ComplaintDeposits s ->
  (PendingArbitrationComplaints s' = {[id]} ∪ PendingArbitrationComplaints s /\ awaits (status c') = true \/
   PendingArbitrationComplaints s' = PendingArbitrationComplaints s /\ awaits (status c') = awaits (status c)) ->
  ActiveComplaintCount s' = ActiveComplaintCount s ->
  (forall x, complaint_hold s' x = complaint_hold s x) -> DomainPenaltyRates s' = DomainPenaltyRates s ->
  moves fair id c c' s s'.
Proof.
  intros Hs Hc Ha Ha' Hna Hna' Hp Hst Ec En Ed Epend Ecount Eh Erates.
  assert (holder c' = holder c) as Hh.
  { destruct Hp as (Hp & _). unfold holder. destruct (status c), (status c'); done. }
  split; try done.
  - by left.
  - intros j _. by rewrite Ed.
  - rewrite Ed, Ha'. split; [done |]. intros _. apply (cn_deposits _ Hs). eauto.
  - unfold deposit_of. rewrite Ed. destruct (ComplaintDeposits s !! id) eqn:Hd; simpl; [by eapply cn_amounts | lia].
  - intros j. destruct Epend as [[-> Haw] | [-> Haw]].
    + case_decide; [subst; rewrite Haw; set_solver | set_solver].
    + case_decide as Hj; [subst j; rewrite Haw | done]. rewrite (cn_pending _ Hs). split; [| eauto].
      intros (c1 & Hc1 & Haw1). congruence.
  - intros x. rewrite Ecount, Ha, Ha'. unfold at_account. case_decide; lia.
  - intros _ x. rewrite Eh, Hh. unfold deposit_of. rewrite Ed. lia.
Qed.

(** A move keeps the records consistent. *)
Lemma moves_consistent (fair : Prop) id c c' s s' :
  consistent s -> moves fair id c c' s s' -> consistent s'.
Proof.
  intros Hs [Hc Hc' Hn (Hp1 & Hp2 & _) _ Hap Ho Hd Ham Hpend Hcount _ Hr].
  assert (forall j cj, Complaints s' !! j = Some cj -> (j = id /\ cj = c') \/ (j <> id /\ Complaints s !! j = Some cj))
    as Hget.
  { intros j cj Hj. rewrite Hc', lookup_insert in Hj. case_decide; [left | right]; subst; [| done].
    by injection Hj. }
  assert (forall (Q : Complaint -> Prop) j, j <> id ->
    (exists cj, Complaints s' !! j = Some cj /\ Q cj) <-> (exists cj, Complaints s !! j = Some cj /\ Q cj)) as Hsame.
  { intros Q j Hj. by rewrite Hc', lookup_insert_ne by done. }
  assert (forall Q : Complaint -> Prop, (exists cj, Complaints s' !! id = Some cj /\ Q cj) <-> Q c') as Hown.
  { intros Q. rewrite Hc', lookup_insert_eq. split; [by intros (? & [= <-] & ?) | eauto]. }
  split.
  - rewrite Hn. apply (cn_next _ Hs).
  - intros j cj [[-> ->] | [_ Hj]]%Hget; rewrite Hn; by eapply cn_ids.
  - intros j cj [[-> ->] | [_ Hj]]%Hget; [rewrite Hp1, Hp2 |]; by eapply cn_parties.
  - intros j cj [[-> ->] | [_ Hj]]%Hget; [done | by eapply cn_appellant].
  - intros j. destruct (decide (j = id)) as [-> | Hj].
    + by rewrite (Hown (fun c => is_active (status c) = true)).
    + rewrite Ho by done. rewrite (Hsame (fun c => is_active (status c) = true) j Hj). apply (cn_deposits _ Hs).
  - intros j d Hj. destruct (decide (j = id)) as [-> | Hne].
    + unfold deposit_of in Ham. by rewrite Hj in Ham.
    + rewrite Ho in Hj by done. by eapply cn_amounts.
  - intros j. rewrite Hpend. case_decide as Hj; [subst j | ].
    + by rewrite (Hown (fun c => awaits (status c) = true)).
    + rewrite (Hsame (fun c => awaits (status c) = true) j Hj). apply (cn_pending _ Hs).
  - intros x. rewrite Hcount, (cn_count _ Hs), Hc'.
    rewrite (msum_insert (fun _ c => at_account (complainant c) (Z.b2z (is_active (status c))) x)), Hc. simpl.
    rewrite Hp1. unfold at_account. case_decide; lia.
  - rewrite Hr. apply (cn_rates _ Hs).
Qed.

(** Follows a successful call down to its guards and its writes; payments of
    deposits stay. *)
Ltac arb_unfold Hr :=
  repeat (progress unfold ensure_not_paused, signed, ensure_decision, get_complaint, ensure_transition, put_complaint,
    decrement_active_count, increment_active_count, update_domain, cool_down, set_pending, unset_pending, pin_cid, notify,
    notify_both, best_effort, deposit_event, with_port, route in Hr).

Ltac arb_inv Hr := arb_unfold Hr; m_inv; simpl in *.

(** The goals that only compare a write with the records before it. *)
Ltac hold_same :=
  let x := fresh in intros x; unfold complaint_hold; simpl;
  rewrite ?pin_held, ?notice_held, ?decision_held, ?pin_held; done.

Ltac move_goal := simpl in *; first [ eassumption | reflexivity | by repeat split | by left | by right | hold_same | congruence ].

(** The complaint a call read, and its status. *)
Ltac by_status :=
  match goal with Hc : Complaints ?s !! ?id = Some ?c |- exists c c', _ =>
    exists c; eexists;
    match goal with |- moves _ _ _ ?c' _ ?s' =>
      assert (Complaints s' = <[id := c']> (Complaints s)) as Hput by reflexivity end;
    destruct (status c) eqn:Hst; simpl in *; try discriminate end.

Lemma respond_moves env origin id cid s u s' :
  consistent s -> respond_to_complaint env origin id cid s = (Ok u, s') ->
  exists c c', moves True id c c' s s'.
Proof.
  intros Hs Hr. unfold respond_to_complaint in Hr. arb_inv Hr. by_status.
  eapply moves_keep; simpl; rewrite ?Hst; move_goal.
Qed.

(** The records a payment starts from are those of the state the call started with. *)
Lemma paid_from id who s a s1 :
  rest a = rest s -> ComplaintDeposits a = ComplaintDeposits s ->
  (forall r x, on_hold r x (others a) = on_hold r x (others s)) -> paid_back id who a s1 -> paid_back id who s s1.
Proof.
  intros Hr Hd Hh [Pr Pd Ph Po]. split; [congruence.. | |].
  - intros x. specialize (Ph x). unfold complaint_hold, deposit_of in *. by rewrite Hd, Hh in Ph.
  - intros r x Hne. by rewrite Po, Hh.
Qed.

Lemma consistent_same s a : rest a = rest s -> ComplaintDeposits a = ComplaintDeposits s -> consistent s -> consistent a.
Proof.
  intros [= Rn Rc Rp Ra Rr _ _ _] Hd [C1 C2 C3 C4 C5 C6 C7 C8 C9].
  split; rewrite ?Rn, ?Rc, ?Rp, ?Ra, ?Rr, ?Hd; try done.
Qed.

Ltac ports_same := intros; unfold complaint_hold; simpl;
  rewrite ?pin_held, ?notice_held, ?decision_held, ?notice_held, ?pin_held, ?decision_held; done.

(** Turns the run of a payment into what it did. *)
Ltac pay :=
  match goal with
  | Hcons : consistent ?s, Hr : refund_complaint_deposit ?id ?who ?a = (Ok _, ?b) |- _ =>
      assert (paid_back id who s b) as Hpaid by
        (eapply (paid_from id who s a); [reflexivity | reflexivity | ports_same |];
         eapply refund_paid, Hr; eapply (consistent_same s), Hcons; reflexivity); clear Hr
  | Hcfg : cfg_ok, Hcons : consistent ?s, Hr : slash_complaint_deposit cfg ?id ?who _ _ _ ?a = (Ok _, ?b) |- _ =>
      assert (paid_back id who s b) as Hpaid by
        (eapply (paid_from id who s a); [reflexivity | reflexivity | ports_same |];
         eapply (slash_paid _ _ _ _ _ _ _ _ Hcfg), Hr; eapply (consistent_same s), Hcons; reflexivity); clear Hr
  end.

(** A call that ends complaint [c], once its payment is turned. *)
Ltac close_goal :=
  unfold holder; simpl; try match goal with Hst : status _ = _ |- _ => rewrite ?Hst end;
  first [ eassumption | reflexivity | done | by repeat split | by left | by right | ports_same | congruence ].

Ltac close_with :=
  pay;
  match goal with Hc : Complaints ?s !! ?id = Some ?c, Hpaid : paid_back ?id _ ?s ?s1 |- _ =>
    exists c; eexists;
    match goal with |- moves _ _ _ ?c' _ ?s' =>
      assert (Complaints s' = <[id := c']> (Complaints s1)) by reflexivity;
      destruct (status c) eqn:Hst; simpl in *; try discriminate;
      eapply (moves_close _ id c c' _ s s1 s') end end;
  try close_goal.

Lemma withdraw_moves env origin id s u s' :
  consistent s -> withdraw_complaint env origin id s = (Ok u, s') -> exists c c', moves True id c c' s s'.
Proof.
  intros Hs Hr. unfold withdraw_complaint in Hr. arb_inv Hr. close_with. 
Qed.

Lemma settle_moves env origin id cid s u s' :
  consistent s -> settle_complaint cfg env origin id cid s = (Ok u, s') -> exists c c', moves True id c c' s s'.
Proof. intros Hs Hr. unfold settle_complaint in Hr. arb_inv Hr. close_with. Qed.

Lemma escalate_moves env origin id s u s' :
  consistent s -> escalate_to_arbitration env origin id s = (Ok u, s') -> exists c c', moves True id c c' s s'.
Proof.
  intros Hs Hr. unfold escalate_to_arbitration in Hr. arb_inv Hr; by_status;
    (eapply moves_keep; simpl; rewrite ?Hst; move_goal).
Qed.

Lemma mediation_moves env origin id s u s' :
  consistent s -> start_mediation cfg env origin id s = (Ok u, s') -> exists c c', moves True id c c' s s'.
Proof.
  intros Hs Hr. unfold start_mediation in Hr. arb_inv Hr. by_status. eapply moves_keep; simpl; rewrite ?Hst; move_goal.
Qed.

(** What a decision ends with. *)
Definition decided (st : ComplaintStatus) : Prop := st = ResolvedComplainantWin \/ st = ResolvedRespondentWin.

Lemma resolved_decided code : decided (resolved_status code).
Proof. unfold decided, resolved_status. repeat case_match; tauto. Qed.

Lemma appeal_decided code : decided (appeal_status code).
Proof. unfold decided, appeal_status. repeat case_match; tauto. Qed.

Ltac decided_goal Hst H := simpl; rewrite ?Hst; destruct H as [-> | ->]; simpl; auto.

Lemma resolve_moves env origin id dec reason bps s u s' :
  cfg_ok -> consistent s -> resolve_complaint cfg env origin id dec reason bps s = (Ok u, s') ->
  exists c c', moves True id c c' s s'.
Proof.
  intros Hcfg Hs Hr. unfold resolve_complaint in Hr. arb_inv Hr; close_with;
    decided_goal Hst (resolved_decided dec).
Qed.

Lemma dismiss_moves env origin id s u s' :
  cfg_ok -> consistent s -> dismiss_complaint cfg env origin id s = (Ok u, s') ->
  exists c c', moves (complainant c = holder c) id c c' s s'.
Proof. intros Hcfg Hs Hr. unfold dismiss_complaint in Hr. arb_inv Hr. close_with. Qed.

Lemma force_close_moves env origin id s u s' :
  consistent s -> force_close_complaint cfg env origin id s = (Ok u, s') ->
  exists c c', moves (complainant c = holder c) id c c' s s'.
Proof. intros Hs Hr. unfold force_close_complaint in Hr. arb_inv Hr. close_with. Qed.

Lemma resolve_appeal_moves env origin id dec reason s u s' :
  cfg_ok -> consistent s -> resolve_appeal cfg env origin id dec reason s = (Ok u, s') ->
  exists c c', moves True id c c' s s'.
Proof.
  intros Hcfg Hs Hr. unfold resolve_appeal in Hr. arb_inv Hr; close_with;
    try decided_goal Hst (appeal_decided dec).
  all: unfold holder; rewrite Hst; match goal with Ha : appellant _ = Some _ |- _ => by rewrite Ha end.
Qed.

(** ** New deposits *)

Lemma base_deposit_nonneg s : cfg_ok -> 0 <= base_deposit cfg s.
Proof. intros Hc. pose proof (cfg_deposit Hc). unfold base_deposit. repeat case_match; lia. Qed.

(** There are no more active complaints of an account than ids were given out. *)
Lemma count_le s x : consistent s -> 0 <= get0 (ActiveComplaintCount s) x <= NextComplaintId s.
Proof.
  intros Hs. rewrite (cn_count _ Hs). split.
  { apply msum_nonneg. intros k c _. unfold at_account, Z.b2z. repeat case_match; lia. }
  transitivity (Z.of_nat (size (Complaints s))).
  - rewrite <- msum_const. apply msum_mono. intros k c _. unfold at_account, Z.b2z. repeat case_match; lia.
  - rewrite <- size_dom. transitivity (Z.of_nat (size (list_to_set (seqZ 0 (NextComplaintId s)) : gset Z))).
    + apply inj_le, subseteq_size. intros id (c & Hc)%elem_of_dom. apply elem_of_list_to_set, elem_of_seqZ.
      pose proof (cn_ids _ Hs _ _ Hc). lia.
    + pose proof (cn_next _ Hs). rewrite size_list_to_set by apply NoDup_seqZ. rewrite length_seqZ. lia.
Qed.

Lemma one_more_active s x :
  consistent s -> NextComplaintId s < u32_max ->
  sat_add u32_max (get0 (ActiveComplaintCount s) x) 1 = get0 (ActiveComplaintCount s) x + 1.
Proof. intros Hs Hn. pose proof (count_le s x Hs). apply sat_add_exact. lia. Qed.

(** What a new deposit puts on hold. *)
Lemma new_hold who v x x' y :
  0 <= v -> hold ComplaintDeposit who v x = Some x' ->
  on_hold ComplaintDeposit y x' = on_hold ComplaintDeposit y x + at_account who v y.
Proof. intros Hv Hx. by rewrite (hold_held _ _ _ _ _ _ _ Hv Hx), at_hold_account. Qed.

(** The loser holds the appeal's deposit, twice the base. *)
Lemma appeal_moves env origin id cid s u s' :
  cfg_ok -> consistent s -> NextComplaintId s < u32_max -> appeal cfg env origin id cid s = (Ok u, s') ->
  exists c c', moves True id c c' s s'.
Proof.
  intros Hcfg Hs Hn Hr. unfold appeal in Hr. arb_inv Hr. rewrite one_more_active by done.
  pose proof (base_deposit_nonneg s Hcfg) as Hb. set (v := u128_max `min` (base_deposit cfg s * 2)) in *.
  assert (0 <= v) as Hv by (unfold v, u128_max; lia). clearbody v.
  match goal with Hc : Complaints s !! id = Some ?c, Hh : hold _ ?who _ _ = _, Hl : loser ?c = _ |- _ =>
    rename c into c0, Hc into Hget, Hh into Hheld;
    assert (status c0 <> Appealed /\ is_active (status c0) = false /\ (who = complainant c0 \/ who = respondent c0))
      as (Hna & Hina & Hwho) by (unfold loser in Hl; destruct (status c0); simplify_eq; auto) end.
  eexists c0, _. split; simpl; try close_goal.
  - intros _. by destruct Hwho as [-> | ->]; [left | right].
  - intros j Hj. by rewrite lookup_insert_ne.
  - rewrite lookup_insert_eq. done.
  - unfold deposit_of; simpl. by rewrite lookup_insert_eq.
  - intros j. case_decide; set_solver.
  - intros x. rewrite get0_insert, Hina. unfold at_account. repeat case_decide; simplify_eq; simpl; lia.
  - intros _ x. unfold complaint_hold, deposit_of, holder; simpl. rewrite lookup_insert_eq, pin_held; simpl.
    rewrite (new_hold _ _ _ _ _ Hv Hheld).
    match goal with Hd : ComplaintDeposits s !! id = None |- _ => rewrite Hd end. simpl.
    unfold at_account. repeat case_decide; lia.
Qed.

(** ** Filing *)

(** A new complaint, with the next id. *)
Record files c s s' : Prop := {
  fl_complaints : Complaints s' = <[NextComplaintId s := c]> (Complaints s);
  fl_next : NextComplaintId s' = NextComplaintId s + 1;
  fl_status : status c = Submitted;
  fl_parties : complainant c <> respondent c;
  fl_deposits : ComplaintDeposits s' = <[NextComplaintId s := deposit_of s' (NextComplaintId s)]> (ComplaintDeposits s);
  fl_amount : 0 <= deposit_of s' (NextComplaintId s);
  fl_pending : PendingArbitrationComplaints s' = PendingArbitrationComplaints s;
  fl_count : forall x, get0 (ActiveComplaintCount s') x = get0 (ActiveComplaintCount s) x + at_account (complainant c) 1 x;
  fl_hold : forall x, complaint_hold s' x =
    complaint_hold s x + at_account (complainant c) (deposit_of s' (NextComplaintId s)) x;
  fl_rates : DomainPenaltyRates s' = DomainPenaltyRates s;
}.

Lemma file_files env origin d object t details am s u s' :
  cfg_ok -> consistent s -> NextComplaintId s < u32_max ->
  file_complaint cfg env origin d object t details am s = (Ok u, s') -> exists c, files c s s'.
Proof.
  intros Hcfg Hs Hn Hr. pose proof (base_deposit_nonneg s Hcfg) as Hv. pose proof (cn_next _ Hs) as H0n.
  assert (sat_add u64_max (NextComplaintId s) 1 = NextComplaintId s + 1) as Hnext
    by (apply sat_add_exact; unfold u32_max, u64_max in *; lia).
  unfold file_complaint in Hr. arb_inv Hr; rewrite ?Hnext, one_more_active by done.
  all: match goal with Hh : hold _ ?who _ _ = _ |- _ => rename Hh into Hheld end.
  all: eexists; split; simpl; try close_goal.
  all: unfold deposit_of; simpl; rewrite ?lookup_insert_eq; simpl; try done.
  all: intros y.
  1,3: rewrite get0_insert; unfold at_account; repeat case_decide; simplify_eq; simpl; lia.
  all: unfold complaint_hold; simpl; by rewrite notice_held, pin_held, (new_hold _ _ _ _ _ Hv Hheld).
Qed.

(** A resolved complaint leaves for the archive. *)
Record forgets (id : Z) c s s' : Prop := {
  fg_from : Complaints s !! id = Some c;
  fg_status : is_active (status c) = false;
  fg_complaints : Complaints s' = delete id (Complaints s);
  fg_next : NextComplaintId s' = NextComplaintId s;
  fg_deposits : ComplaintDeposits s' = ComplaintDeposits s;
  fg_pending : PendingArbitrationComplaints s' = PendingArbitrationComplaints s;
  fg_count : ActiveComplaintCount s' = ActiveComplaintCount s;
  fg_hold : forall x, complaint_hold s' x = complaint_hold s x;
  fg_rates : DomainPenaltyRates s' = DomainPenaltyRates s;
}.

(** The records of complaints stay; what is on hold for them does not fall. *)
Record same_records s s' : Prop := {
  sm_next : NextComplaintId s' = NextComplaintId s;
  sm_complaints : Complaints s' = Complaints s;
  sm_deposits : ComplaintDeposits s' = ComplaintDeposits s;
  sm_pending : PendingArbitrationComplaints s' = PendingArbitrationComplaints s;
  sm_count : ActiveComplaintCount s' = ActiveComplaintCount s;
  sm_hold : forall x, complaint_hold s x <= complaint_hold s' x;
  sm_rates : forall d r, DomainPenaltyRates s' !! d = Some r -> DomainPenaltyRates s !! d = Some r \/ 0 <= r;
}.

(** Everything a step can do to complaints. *)
Inductive evolves (fair : Z -> Complaint -> Prop) s s' : Prop :=
| Moves id c c' : moves (fair id c) id c c' s s' -> evolves fair s s'
| Files c : files c s s' -> evolves fair s s'
| Forgets id c : forgets id c s s' -> evolves fair s s'
| Keeps : same_records s s' -> evolves fair s s'.

Lemma same_records_refl s : same_records s s.
Proof. split; try done. intros. by left. Qed.

Lemma same_consistent s s' : same_records s s' -> consistent s -> consistent s'.
Proof.
  intros [Rn Rc Rd Rp Ra _ Rr] [C1 C2 C3 C4 C5 C6 C7 C8 C9].
  split; rewrite ?Rn, ?Rc, ?Rd, ?Rp, ?Ra; try done. intros d r [Hr | Hr]%Rr; [by eapply C9 | done].
Qed.

Lemma files_consistent c s s' : files c s s' -> consistent s -> consistent s'.
Proof.
  intros [Fc Fn Fs Fp Fd Fa Fpend Fcount _ Fr] Hs. pose proof (cn_next _ Hs) as H0n.
  remember (NextComplaintId s) as n eqn:En.
  assert (Complaints s !! n = None) as Hfresh.
  { apply eq_None_not_Some. intros [c1 Hc1]. pose proof (cn_ids _ Hs _ _ Hc1). lia. }
  assert (forall Q : Complaint -> Prop, forall j, (exists cj, Complaints s' !! j = Some cj /\ Q cj) <->
    if decide (j = n) then Q c else exists cj, Complaints s !! j = Some cj /\ Q cj) as Hex.
  { intros Q j. rewrite Fc, lookup_insert. case_decide; rewrite ?decide_True, ?decide_False by congruence; [| done].
    split; [by intros (? & [= <-] & ?) | eauto]. }
  assert (forall j cj, Complaints s' !! j = Some cj -> (j = n /\ cj = c) \/ Complaints s !! j = Some cj) as Hget.
  { intros j cj. rewrite Fc, lookup_insert. case_decide; [intros [= <-]; subst; by left | by right]. }
  split.
  - rewrite Fn. lia.
  - intros j cj [[-> ->] | Hj]%Hget; rewrite Fn; [lia |]. pose proof (cn_ids _ Hs _ _ Hj). lia.
  - intros j cj [[-> ->] | Hj]%Hget; [done | by eapply cn_parties].
  - intros j cj [[-> ->] | Hj]%Hget; [by rewrite Fs | by eapply cn_appellant].
  - intros j. rewrite (Hex (fun c => is_active (status c) = true)), Fd, lookup_insert.
    case_decide; [subst; rewrite decide_True, Fs by done; done | rewrite decide_False by congruence; apply (cn_deposits _ Hs)].
  - intros j d. rewrite Fd, lookup_insert. case_decide; [intros [= <-]; exact Fa | by apply (cn_amounts _ Hs)].
  - intros j. rewrite (Hex (fun c => awaits (status c) = true)), Fpend, (cn_pending _ Hs). case_decide; [subst | done].
    rewrite Fs, Hfresh. split; [by intros (? & ? & _) | done].
  - intros x. rewrite Fcount, (cn_count _ Hs), Fc, msum_insert_new by done. rewrite Fs. simpl. lia.
  - rewrite Fr. apply (cn_rates _ Hs).
Qed.

Lemma forgets_consistent id c s s' : forgets id c s s' -> consistent s -> consistent s'.
Proof.
  intros [Gf Gs Gc Gn Gd Gp Ga _ Gr] Hs.
  assert (forall j cj, Complaints s' !! j = Some cj -> Complaints s !! j = Some cj) as Hget.
  { intros j cj. rewrite Gc. by intros [_ ?]%lookup_delete_Some. }
  assert (forall Q : Complaint -> Prop, ~ Q c -> forall j, (exists cj, Complaints s' !! j = Some cj /\ Q cj) <->
    exists cj, Complaints s !! j = Some cj /\ Q cj) as Hex.
  { intros Q Hq j. split; [intros (cj & Hj%Hget & ?); eauto |]. intros (cj & Hj & Hqj). exists cj. split; [| done].
    rewrite Gc, lookup_delete_ne; [done |]. intros <-. congruence. }
  split.
  - rewrite Gn. apply (cn_next _ Hs).
  - intros j cj Hj%Hget. rewrite Gn. by eapply cn_ids.
  - intros j cj Hj%Hget. by eapply cn_parties.
  - intros j cj Hj%Hget. by eapply cn_appellant.
  - intros j. rewrite (Hex (fun c => is_active (status c) = true)), Gd by congruence. apply (cn_deposits _ Hs).
  - rewrite Gd. apply (cn_amounts _ Hs).
  - intros j. rewrite (Hex (fun c => awaits (status c) = true)), Gp by (by destruct (status c)). apply (cn_pending _ Hs).
  - intros x. rewrite Ga, (cn_count _ Hs), Gc, msum_delete, Gf. simpl. rewrite Gs. unfold at_account.
    case_decide; simpl; lia.
  - rewrite Gr. apply (cn_rates _ Hs).
Qed.

Lemma evolves_consistent fair s s' : evolves fair s s' -> consistent s -> consistent s'.
Proof.
  intros [id c c' Hm | c Hf | id c Hg | Hk] Hs.
  - by eapply moves_consistent.
  - by eapply files_consistent.
  - by eapply forgets_consistent.
  - by eapply same_consistent.
Qed.

(** ** Deposits are on hold *)

(** What is recorded as the deposits of an account is on hold there. *)
Definition covered s : Prop := forall x,
  msum (fun id c => at_account (holder c) (deposit_of s id) x) (Complaints s) <= complaint_hold s x.

Lemma deposit_of_nonneg s id : consistent s -> 0 <= deposit_of s id.
Proof. intros Hs. unfold deposit_of. destruct (ComplaintDeposits s !! id) eqn:Hd; simpl; [by eapply cn_amounts | lia]. Qed.

Lemma deposit_of_ne s s' j : ComplaintDeposits s' !! j = ComplaintDeposits s !! j -> deposit_of s' j = deposit_of s j.
Proof. unfold deposit_of. by intros ->. Qed.

Lemma moves_covered id c c' s s' : moves True id c c' s s' -> covered s -> covered s'.
Proof.
  intros [Hc Hc' _ _ _ _ Ho _ _ _ _ Hh _] Hcov x. specialize (Hcov x). specialize (Hh I x).
  rewrite (msum_delete_some _ _ _ _ Hc) in Hcov. rewrite Hc', <- insert_delete_eq, msum_insert_new by apply lookup_delete_eq.
  rewrite (msum_ext _ (fun id c => at_account (holder c) (deposit_of s id) x) (delete id (Complaints s))); [lia |].
  intros j cj [Hj _]%lookup_delete_Some. by rewrite (deposit_of_ne _ _ _ (Ho j (not_eq_sym Hj))).
Qed.

Lemma files_covered c s s' : files c s s' -> consistent s -> covered s -> covered s'.
Proof.
  intros [Fc _ Fs _ Fd _ _ _ Fh _] Hs Hcov x. specialize (Hcov x). rewrite Fh, Fc, msum_insert_new.
  - rewrite (msum_ext _ (fun id c => at_account (holder c) (deposit_of s id) x) (Complaints s)).
    + unfold holder at 1. rewrite Fs. lia.
    + intros j cj Hj. rewrite (deposit_of_ne s s'); [done |]. rewrite Fd, lookup_insert_ne; [done |].
      pose proof (cn_ids _ Hs _ _ Hj). lia.
  - apply eq_None_not_Some. intros [c1 Hc1]. pose proof (cn_ids _ Hs _ _ Hc1). lia.
Qed.

Lemma forgets_covered id c s s' : forgets id c s s' -> consistent s -> covered s -> covered s'.
Proof.
  intros [Gf _ Gc _ Gd _ _ Gh _] Hs Hcov x. specialize (Hcov x). rewrite Gh, Gc.
  rewrite (msum_delete_some _ _ _ _ Gf) in Hcov. pose proof (deposit_of_nonneg s id Hs).
  unfold deposit_of in *. rewrite Gd. unfold at_account in Hcov at 1. case_decide; lia.
Qed.

Lemma same_covered s s' : same_records s s' -> covered s -> covered s'.
Proof.
  intros [_ Rc Rd _ _ Rh _] Hcov x. specialize (Hcov x). specialize (Rh x). unfold deposit_of in *. rewrite Rc, Rd. lia.
Qed.

(** ** The life of a complaint *)

Definition arrow (from to : ComplaintStatus) : Prop := can_transition from to = true \/ override from to = true.

(** Every complaint of [s'] is one of [s] further along its way, or is new. *)
Record linked s s' : Prop := {
  ln_next : NextComplaintId s <= NextComplaintId s';
  ln_life : forall id c', Complaints s' !! id = Some c' -> NextComplaintId s <= id \/
    exists c, Complaints s !! id = Some c /\ same_parties c c' /\ rtc arrow (status c) (status c');
}.

Lemma linked_refl s : linked s s.
Proof. split; [done |]. intros id c Hc. right. exists c. by repeat split. Qed.

Lemma linked_trans s1 s2 s3 : linked s1 s2 -> linked s2 s3 -> linked s1 s3.
Proof.
  intros [N1 L1] [N2 L2]. split; [lia |]. intros id c3 [Hid | (c2 & Hc2 & (?&?&?&?&?&?) & P2)]%L2; [left; lia |].
  apply L1 in Hc2 as [Hid | (c1 & Hc1 & (?&?&?&?&?&?) & P1)]; [by left | right]. exists c1.
  split; [done |]. split; [repeat split; congruence | by etrans].
Qed.

Lemma evolves_linked fair s s' : evolves fair s s' -> linked s s'.
Proof.
  assert (forall id c, Complaints s !! id = Some c ->
    exists c0, Complaints s !! id = Some c0 /\ same_parties c0 c /\ rtc arrow (status c0) (status c)) as Hsame.
  { intros id c Hc. exists c. by repeat split. }
  intros [id c c' Hm | c Hf | id c Hg | Hk]; split.
  - by rewrite (mv_next _ _ _ _ _ _ Hm).
  - intros j cj. rewrite (mv_to _ _ _ _ _ _ Hm), lookup_insert. case_decide as Hj; [| by right; apply Hsame].
    intros [= <-]. right. exists c. subst j. split; [by eapply mv_from |]. split; [by eapply mv_parties |].
    eapply rtc_once, mv_status, Hm.
  - rewrite (fl_next _ _ _ Hf). lia.
  - intros j cj. rewrite (fl_complaints _ _ _ Hf), lookup_insert. case_decide; [left; lia | by right; apply Hsame].
  - by rewrite (fg_next _ _ _ _ Hg).
  - intros j cj. rewrite (fg_complaints _ _ _ _ Hg). intros [_ Hj]%lookup_delete_Some. right. by apply Hsame.
  - by rewrite (sm_next _ _ Hk).
  - intros j cj. rewrite (sm_complaints _ _ Hk). right. by apply Hsame.
Qed.

(** ** What leaves complaints alone *)

Section Quiet.
Context (s : State X).
Abbreviation alone := (kept (same_records s)).

(** An operation elsewhere that leaves the holds of complaints. *)
Definition quiet (op : X -> option X) : Prop := forall x x' y, op x = Some x' ->
  on_hold ComplaintDeposit y x' = on_hold ComplaintDeposit y x.

Lemma alone_others (t : State X) x' : (forall y, on_hold ComplaintDeposit y x' = on_hold ComplaintDeposit y (others t)) ->
  same_records s t -> same_records s (t <| others := x' |>).
Proof.
  intros Hq [Rn Rc Rd Rp Ra Rh Rr]. split; try done. intros x. unfold complaint_hold in *. simpl. by rewrite Hq.
Qed.

Lemma alone_port op err : quiet op -> alone (with_port op err).
Proof.
  intros Hq t r t' Ht Hr. unfold with_port, bind, gets, ok_or in Hr.
  destruct (op (others t)) as [x' |] eqn:Hop; [| by apply fail_inv in Hr as [_ ->]].
  injection Hr as _ <-. apply alone_others; [| done]. intros y. by apply (Hq (others t)).
Qed.

Lemma alone_effort op : (forall x y, on_hold ComplaintDeposit y (op x) = on_hold ComplaintDeposit y x) -> alone (best_effort op).
Proof. intros Hq. apply kept_modify. intros t. apply alone_others. intros y. apply Hq. Qed.

Lemma alone_route d id dec : alone (route d id dec).
Proof.
  unfold route. apply kept_gets_bind. intros t r t' Ht Hr.
  assert (same_records s (t <| others := (apply_decision d id dec (others t)).2 |>)) as Hs'.
  { apply alone_others; [| done]. intros y. apply decision_held. }
  unfold bind, modify, ensure in Hr. case_decide; simpl in Hr; by injection Hr as _ <-.
Qed.

Lemma quiet_hold r who v : r <> ComplaintDeposit -> quiet (hold r who v).
Proof. intros Hr x x' y Hx. eapply hold_elsewhere; [exact Hx | congruence]. Qed.

Lemma quiet_release r who v ex : r <> ComplaintDeposit -> quiet (release_hold r who v ex).
Proof. intros Hr x x' y Hx. eapply release_elsewhere; [exact Hx | congruence]. Qed.

Lemma quiet_transfer r from to v f : r <> ComplaintDeposit -> quiet (transfer_on_hold r from to v f).
Proof. intros Hr x x' y Hx. eapply transfer_elsewhere; [exact Hx | congruence]. Qed.

Lemma quiet_lock h reason : quiet (lock_cid h reason).
Proof. intros x x' y. apply lock_cid_held. Qed.

Ltac alone_write := intros ? [? ? ? ? ? ? ?]; by split.

Ltac alone_step :=
  first
    [ apply alone_port; first [apply quiet_lock | apply quiet_hold | apply quiet_release | apply quiet_transfer]; done
    | apply alone_effort; intros; first [apply pin_held | apply notice_held | apply unlock_cid_held]
    | apply alone_route
    | kept_step alone_write ].
Ltac alone_tac := cbv zeta; repeat (alone_step; cbv zeta).

Ltac unfold_calls := unfold signed, ensure_not_paused, ensure_decision, ensure_disputed, get_deposits, ensure_evidence,
  get_complaint, deposit_event, notify, notify_both, pin_cid, no_longer_pending, get_escrow_account in *.

Lemma alone_slash account v bps r to d id : r <> ComplaintDeposit -> alone (slash_and_release account v bps r to d id).
Proof. intros Hr. unfold slash_and_release. unfold_calls. alone_tac. Qed.

Lemma alone_release account v r d id : r <> ComplaintDeposit -> alone (release_deposit account v r d id).
Proof. intros Hr. unfold release_deposit. unfold_calls. alone_tac. Qed.

Lemma alone_push d id ev : alone (push_evidence cfg d id ev).
Proof. unfold push_evidence. alone_tac. Qed.

Lemma alone_close env d id dec code bps : alone (close_dispute cfg env d id dec code bps).
Proof.
  unfold close_dispute, handle_deposits_on_arbitration, unlock_all_evidence_cids, archive_and_cleanup, with_respondent.
  unfold_calls. alone_tac; first [by apply alone_slash | by apply alone_release].
Qed.

Ltac alone_call :=
  unfold_calls; cbv zeta;
  repeat (first [apply alone_close | apply alone_push | by apply alone_slash | by apply alone_release | alone_step]; cbv zeta).

Lemma alone_open env origin d id ev : alone (dispute_with_two_way_deposit cfg env origin d id ev).
Proof. unfold dispute_with_two_way_deposit, hold_deposit. alone_call. Qed.

Lemma alone_respond env origin d id ev : alone (respond_to_dispute cfg env origin d id ev).
Proof. unfold respond_to_dispute, hold_deposit. alone_call. Qed.

Lemma alone_settle origin d id : alone (settle_dispute origin d id).
Proof. unfold settle_dispute, with_respondent, unlock_all_evidence_cids. alone_call. Qed.

Lemma alone_force_close origin d id : alone (force_close_dispute cfg origin d id).
Proof. unfold force_close_dispute, try_release, with_respondent, unlock_all_evidence_cids. alone_call. Qed.

Lemma alone_penalty origin d rate : (forall r, rate = Some r -> 0 <= r) -> alone (set_domain_penalty_rate cfg origin d rate).
Proof.
  intros Hr. unfold set_domain_penalty_rate. unfold_calls. alone_tac.
  - apply kept_modify. intros t [Rn Rc Rd Rp Ra Rh Rr]. split; try done. intros d' r'. simpl. rewrite lookup_insert. case_decide.
    + intros [= <-]. right. by apply Hr.
    + apply Rr.
  - apply kept_modify. intros t [Rn Rc Rd Rp Ra Rh Rr]. split; try done. intros d' r' Hd. simpl in Hd.
    apply lookup_delete_Some in Hd as [_ Hd]. by apply Rr.
Qed.

(** Calls that move a complaint. *)
Definition moving (c : Call) : bool :=
  match c with
  | CFile _ _ _ _ _ | CRespond _ _ | CWithdraw _ | CSettle _ _ | CEscalate _ | CResolve _ _ _ _ | CMediate _
  | CDismiss _ | CForceClose _ | CAppeal _ _ | CResolveAppeal _ _ _ => true
  | _ => false
  end.

(** A rate is unsigned. *)
Definition typed (c : Call) : Prop := match c with CSetPenalty _ (Some r) => 0 <= r | _ => True end.

Lemma alone_others_calls env origin call :
  moving call = false -> typed call -> alone (apply_call cfg env origin call).
Proof.
  intros Hm Ht. destruct call; try discriminate; simpl.
  - unfold dispute. alone_call.
  - unfold dispute_with_evidence_id. alone_call.
  - unfold arbitrate. alone_call.
  - unfold append_evidence_id. alone_call.
  - apply alone_open.
  - apply alone_respond.
  - unfold request_default_judgment. alone_call.
  - unfold supplement_complaint_evidence, push_cid. alone_call.
  - unfold supplement_response_evidence, push_cid. alone_call.
  - apply alone_settle.
  - unfold dismiss_dispute. alone_call.
  - unfold set_paused. alone_call.
  - apply alone_force_close.
  - apply alone_penalty. by intros r ->.
Qed.
End Quiet.

(** ** Calls *)

(** The calls of the committee that pay the complainant whoever holds the deposit. *)
Definition blunt_on (call : Call) (id : Z) : bool :=
  match call with CDismiss id' | CForceClose id' => bool_decide (id' = id) | _ => false end.

Definition pays_holder (c : Complaint) : Prop := complainant c = holder c.

Lemma moves_weaken (P Q : Prop) id c c' s s' : (Q -> P) -> moves P id c c' s s' -> moves Q id c c' s s'.
Proof. intros Hpq [? ? ? ? ? ? ? ? ? ? ? Hh ?]. split; try done. intros Hq. by apply Hh, Hpq. Qed.

Lemma moves_evolves (fair : Z -> Complaint -> Prop) id s s' : (exists c c', moves True id c c' s s') -> evolves fair s s'.
Proof. intros (c & c' & Hm). apply (Moves _ _ _ id c c'). by eapply moves_weaken, Hm. Qed.

Lemma blunt_evolves call id s s' :
  blunt_on call id = true -> (exists c c', moves (complainant c = holder c) id c c' s s') ->
  evolves (fun id c => blunt_on call id = true -> pays_holder c) s s'.
Proof. intros Hb (c & c' & Hm). apply (Moves _ _ _ id c c'). eapply moves_weaken, Hm. intros Hp. by apply Hp. Qed.

Lemma dispatch_evolves env origin call s r s' :
  cfg_ok -> typed call -> NextComplaintId s < u32_max -> consistent s -> dispatch cfg env origin call s = (r, s') ->
  evolves (fun id c => blunt_on call id = true -> pays_holder c) s s'.
Proof.
  intros Hcfg Ht Hn Hs Hr. apply transactional_cases in Hr as [([] & -> & Hr) | (e & -> & ->)];
    [| apply Keeps, same_records_refl].
  destruct (moving call) eqn:Hm.
  2: { apply Keeps. eapply (alone_others_calls s); [exact Hm | exact Ht | apply same_records_refl | exact Hr]. }
  destruct call; try discriminate; simpl in Hr.
  - apply file_files in Hr as [c Hc]; [by eapply Files | done..].
  - eapply moves_evolves, respond_moves, Hr. done.
  - eapply moves_evolves, withdraw_moves, Hr. done.
  - eapply moves_evolves, settle_moves, Hr. done.
  - eapply moves_evolves, escalate_moves, Hr. done.
  - eapply moves_evolves, resolve_moves, Hr; done.
  - eapply moves_evolves, mediation_moves, Hr. done.
  - eapply (blunt_evolves (CDismiss id)), dismiss_moves, Hr; [by apply bool_decide_eq_true | done..].
  - eapply (blunt_evolves (CForceClose id)), force_close_moves, Hr; [by apply bool_decide_eq_true | done].
  - eapply moves_evolves, appeal_moves, Hr; done.
  - eapply moves_evolves, resolve_appeal_moves, Hr; done.
Qed.

(** ** Sweeps *)

(** What a sweep does to one id. *)
Ltac visit_inv Hr :=
  unfold visit_complaint in Hr; rewrite run_gets in Hr;
  match type of Hr with context [Complaints ?s !! ?id] => destruct (Complaints s !! id) as [c |] eqn:Hget end;
  [| apply ret_inv in Hr as [-> ->]; try apply Keeps, same_records_refl];
  [match type of Hr with (if ?b then _ else _) _ = _ => destruct b eqn:Hcond end;
   [| apply ret_inv in Hr as [-> ->]; try apply Keeps, same_records_refl] | ..].

Lemma refund_runs id who s : exists s1, refund_complaint_deposit id who s = (Ok tt, s1).
Proof.
  unfold refund_complaint_deposit. rewrite (bind_eval _ _ _ _ _ (take_deposit_run id s)).
  destruct (ComplaintDeposits s !! id); [| by eexists]. unfold or_report. rewrite run_gets. case_match; by eexists.
Qed.

(** Every complaint about to expire is one whose complainant holds its deposit. *)
Definition calm (now : Z) s : Prop := forall id c,
  Complaints s !! id = Some c -> should_expire cfg now c = true -> pays_holder c.

Lemma expire_evolves now id s r s' :
  consistent s -> expire_one cfg now id s = (r, s') ->
  evolves (fun _ c => should_expire cfg now c = true -> pays_holder c) s s' /\ (calm now s -> calm now s').
Proof.
  intros Hs Hr. unfold expire_one in Hr. visit_inv Hr; [| split; [apply Keeps, same_records_refl | done]..].
  destruct (refund_runs id (complainant c) s) as [s1 Hpay]. rewrite !run_bind, (bind_eval _ _ _ _ _ Hpay) in Hr.
  injection Hr as <- <-.
  assert (is_active (status c) = true) as Ha
    by (unfold should_expire in Hcond; destruct (status c); simpl in Hcond; first [done | by case_decide]).
  pay. split.
  - apply (Moves _ _ _ id c (moved c Expired now)).
    eapply (moves_close _ id c (moved c Expired now) _ s s1); try close_goal.
    + destruct (status c); try done; [left | left | left | left | right]; done.
    + intros Hp. apply Hp, Hcond.
  - intros Hcalm j cj. simpl. pose proof (pb_rest _ _ _ _ Hpaid) as [= _ -> _ _ _ _ _ _]. rewrite lookup_insert.
    case_decide; [intros [= <-] | by apply Hcalm]. done.
Qed.

Lemma escalate_evolves fair now id s r s' :
  consistent s -> escalate_one cfg now id s = (r, s') -> evolves fair s s'.
Proof.
  intros Hs Hr. unfold escalate_one in Hr. visit_inv Hr. apply bool_decide_eq_true in Hcond as [Hst _].
  injection Hr as <- <-. apply (Moves _ _ _ id c (moved c Arbitrating now)).
  eapply moves_keep; simpl; rewrite ?Hst; move_goal.
Qed.

Lemma archive_evolves fair now id s r s' :
  archive_one cfg now id s = (r, s') -> evolves fair s s'.
Proof.
  intros Hr. unfold archive_one in Hr. visit_inv Hr. injection Hr as <- <-.
  apply (Forgets _ _ _ id c). split; try done. unfold can_archive in Hcond. by destruct (status c).
Qed.

Lemma clean_dispute_alone s now id : kept (same_records s) (clean_dispute cfg now id).
Proof. unfold clean_dispute. repeat kept_step ltac:(intros ? [? ? ? ? ? ? ?]; by split). Qed.

Lemma clean_complaint_alone s now id : kept (same_records s) (clean_complaint cfg now id).
Proof. unfold clean_complaint. repeat kept_step ltac:(intros ? [? ? ? ? ? ? ?]; by split). Qed.

Section Swept.
Context (P : State X -> Prop).

Lemma scan_kept visit max_count ids count cursor :
  (forall id, kept P (visit id)) -> kept P (scan visit max_count ids count cursor).
Proof.
  intros Hv. revert count cursor. induction ids as [| id ids IH]; intros count cursor; simpl; [apply kept_ret |].
  case_decide; [| apply kept_ret]. apply kept_bind; [apply Hv | intros []; apply IH].
Qed.

Lemma sweep_kept visit max_count cursor max_id put_cursor :
  (forall id, kept P (visit id)) -> (forall z, kept P (put_cursor z)) ->
  kept P (sweep visit max_count cursor max_id put_cursor).
Proof.
  intros Hv Hc. unfold sweep. apply kept_bind; [by apply scan_kept |]. intros result.
  apply kept_bind; [apply Hc | intros _; apply kept_ret].
Qed.

Lemma stage_kept limit work remaining used : kept P (work limit) -> kept P (stage limit work remaining used).
Proof.
  intros Hw. unfold stage. case_decide; [| apply kept_ret]. apply kept_bind; [done | intros; apply kept_ret].
Qed.
End Swept.

(** ** Runs *)

(** A step is careful when it closes no appeal of a respondent by force or by age,
    and nobody else touches what is on hold for complaints. *)
Section Steps.
Context (careful : bool).

Inductive step : State X -> State X -> Prop :=
| step_call env origin call r s s' :
    typed call -> NextComplaintId s < u32_max ->
    (careful = true -> forall id c, Complaints s !! id = Some c -> blunt_on call id = true -> pays_holder c) ->
    dispatch cfg env origin call s = (r, s') -> step s s'
| step_idle env w r s s' :
    (careful = true -> calm (block_number env) s) -> on_idle cfg env w s = (r, s') -> step s s'
| step_outside s x' :
    (careful = true -> forall y, complaint_hold s y <= on_hold ComplaintDeposit y x') -> step s (s <| others := x' |>).

(** What every step keeps, from a state on. *)
Record sound (s0 s : State X) : Prop := {
  so_consistent : consistent s;
  so_linked : linked s0 s;
  so_covered : careful = true -> covered s;
}.

Lemma evolves_sound fair s0 s s' :
  (careful = true -> forall id c, Complaints s !! id = Some c -> fair id c) ->
  evolves fair s s' -> sound s0 s -> sound s0 s'.
Proof.
  intros Hfair He [Hs Hl Hc]. pose proof (evolves_linked _ _ _ He). pose proof (evolves_consistent _ _ _ He Hs).
  split; [done | by eapply linked_trans |]. intros Hca. specialize (Hc Hca). specialize (Hfair Hca).
  destruct He as [id c c' Hm | c Hf | id c Hg | Hk].
  - eapply moves_covered, Hc. eapply moves_weaken, Hm. intros _. eapply Hfair, mv_from, Hm.
  - by eapply files_covered.
  - by eapply forgets_covered.
  - by eapply same_covered.
Qed.

Lemma alone_sound {A} s0 (m : M (State X) (DispatchError Error) A) :
  (forall s, kept (same_records s) m) -> kept (sound s0) m.
Proof.
  intros Hm s r s' Hs Hr. eapply (evolves_sound (fun _ _ => True)), Hs; [done |].
  apply Keeps. eapply Hm, Hr. apply same_records_refl.
Qed.

Lemma move_cursor_alone s (f : State X -> State X) :
  (forall t, same_records t (f t)) -> kept (same_records s) (modify (E:=DispatchError Error) f).
Proof.
  intros Hf. apply kept_modify. intros t [Rn Rc Rd Rp Ra Rh Rr]. destruct (Hf t) as [Qn Qc Qd Qp Qa Qh Qr].
  split; try congruence.
  - intros x. specialize (Rh x). specialize (Qh x). lia.
  - intros d r Hd. apply Qr in Hd as [Hd | Hd]; [by apply Rr | by right].
Qed.

Lemma alone_sweep s0 visit max_count cursor max_id (put : Z -> State X -> State X) :
  (forall z t, same_records t (put z t)) -> (forall id, kept (sound s0) (visit id)) ->
  kept (sound s0) (sweep visit max_count cursor max_id (fun z => modify (put z))).
Proof.
  intros Hput Hv. apply sweep_kept; [done |]. intros z. apply alone_sound. intros s. by apply move_cursor_alone.
Qed.

Ltac cursor_only := intros z t; split; try done; intros; by left.

Lemma expire_stage s0 env limit s r s' :
  (careful = true -> calm (block_number env) s) -> sound s0 s ->
  expire_old_complaints cfg env limit s = (r, s') -> sound s0 s'.
Proof.
  intros Hcalm Hs Hr.
  assert (kept (fun t => sound s0 t /\ (careful = true -> calm (block_number env) t))
    (expire_old_complaints cfg env limit)) as Hk; [| by apply (Hk s r s')].
  unfold expire_old_complaints. apply kept_bind; [apply kept_gets | intros t0]. apply sweep_kept.
  - intros id t r1 t' [Ht Hc] Hx. destruct (expire_evolves _ _ _ _ _ (so_consistent _ _ Ht) Hx) as [He Hk].
    split; [| tauto]. eapply evolves_sound, Ht; [| exact He]. intros Hca id1 c1 Hc1 Hexp. exact (Hc Hca id1 c1 Hc1 Hexp).
  - intros z. apply kept_modify. intros t [Ht Hc]. split; [| done].
    eapply (evolves_sound (fun _ _ => True)), Ht; [done |]. apply Keeps. split; try done. intros; by left.
Qed.

Lemma escalate_stage s0 env limit : kept (sound s0) (auto_escalate_stale_complaints cfg env limit).
Proof.
  apply kept_bind; [apply kept_gets | intros t0]. apply alone_sweep; [cursor_only |]. intros id t r t' Ht Hr.
  eapply (evolves_sound (fun _ _ => True)), Ht; [done |]. eapply escalate_evolves, Hr. apply (so_consistent _ _ Ht).
Qed.

Lemma archive_stage s0 env limit : kept (sound s0) (archive_old_complaints cfg env limit).
Proof.
  apply kept_bind; [apply kept_gets | intros t0]. apply alone_sweep; [cursor_only |]. intros id t r t' Ht Hr.
  eapply (evolves_sound (fun _ _ => True)), Ht; [done |]. by eapply archive_evolves.
Qed.

Lemma clean_stages s0 now limit :
  kept (sound s0) (cleanup_old_archived_disputes cfg now limit) /\
  kept (sound s0) (cleanup_old_archived_complaints cfg now limit).
Proof.
  split; (unfold cleanup_old_archived_disputes, cleanup_old_archived_complaints; case_decide; [apply kept_ret |];
    apply kept_bind; [apply kept_gets | intros t0]; apply alone_sweep; [cursor_only |]; intros id; apply alone_sound).
  - intros s. apply clean_dispute_alone.
  - intros s. apply clean_complaint_alone.
Qed.

Lemma on_idle_sound s0 env w s r s' :
  (careful = true -> calm (block_number env) s) -> sound s0 s -> on_idle cfg env w s = (r, s') -> sound s0 s'.
Proof.
  intros Hcalm Hs Hr. destruct (clean_stages s0 (block_number env) 5).
  unfold on_idle in Hr. unfold bind in Hr at 1.
  destruct (stage 5 (expire_old_complaints cfg env) w (0, 0) s) as [[used | e] s1] eqn:H1s.
  all: assert (sound s0 s1) as Hs1.
  1,3: unfold stage in H1s; case_decide; [| by apply ret_inv in H1s as [_ ->]]; unfold bind in H1s;
    destruct (expire_old_complaints cfg env 5 s) as [[n | e1] s2] eqn:Hx; simpl in H1s; injection H1s as _ <-;
    by eapply expire_stage.
  - revert Hr. apply kept_bind with (P := sound s0); [apply stage_kept, escalate_stage | intros u1 | done].
    apply kept_bind; [apply stage_kept, archive_stage | intros u2].
    apply kept_bind; [by apply stage_kept | intros u3]. by apply stage_kept.
  - by injection Hr as _ <-.
Qed.

Lemma step_keeps_records s0 s s' : cfg_ok -> step s s' -> sound s0 s -> sound s0 s'.
Proof.
  intros Hcfg Hstep Hs. destruct Hstep as [env origin call r s s' Ht Hn Hf Hr | env w r s s' Hc Hr | s x' Hx].
  - eapply evolves_sound, Hs; [| eapply dispatch_evolves, Hr; try done; apply (so_consistent _ _ Hs)].
    intros Hca id c Hc Hb. exact (Hf Hca id c Hc Hb).
  - by eapply on_idle_sound.
  - destruct Hs as [Hs Hl Hc]. split.
    + by destruct Hs.
    + destruct Hl. by split.
    + intros Hca y. specialize (Hc Hca y). specialize (Hx Hca y). unfold complaint_hold, deposit_of in *; simpl in *. lia.
Qed.

Lemma genesis_consistent x : consistent (genesis x).
Proof.
  split; simpl; try done.
  - intros id. rewrite lookup_empty. split; [by intros [? ?] | by intros (? & ? & _)].
  - intros id. split; [by intros ?%elem_of_empty | by intros (? & ? & _)].
Qed.

Lemma records_at_genesis x : sound (genesis x) (genesis x).
Proof.
  split; [apply genesis_consistent | apply linked_refl |]. intros _ y. simpl. rewrite msum_empty. apply on_hold_nonneg.
Qed.
End Steps.

Lemma run_sound careful s0 s s' : cfg_ok -> sound careful s0 s -> rtc (step careful) s s' -> sound careful s0 s'.
Proof.
  intros Hcfg Hs Hrun. apply (rtc_invariant (step careful) (sound careful s0)) with s; [| done | exact Hrun].
  intros a b Ha Hab. by eapply step_keeps_records.
Qed.

Lemma refund_elsewhere id who s u s' y :
  consistent s -> refund_complaint_deposit id who s = (Ok u, s') -> y <> who -> complaint_hold s' y = complaint_hold s y.
Proof.
  intros Hs Hr Hy. unfold refund_complaint_deposit in Hr. rewrite (bind_eval _ _ _ _ _ (take_deposit_run id s)) in Hr.
  destruct (ComplaintDeposits s !! id) as [d |] eqn:Hd; [| by apply ret_inv in Hr as [_ ->]].
  unfold or_report, deposit_event in Hr. m_inv; [| done]. unfold complaint_hold; simpl in *.
  match goal with Hx : release_hold _ _ _ _ _ = Some _ |- _ =>
    rewrite (release_held _ _ _ _ _ _ _ _ (cn_amounts _ Hs _ _ Hd) Hx), at_hold_account end.
  unfold at_account. rewrite decide_False by done. lia.
Qed.

(** * Properties *)

(** C21: At any point of any run - calls, blocks and whatever else happens around the
    pallet - the records of complaints agree: ids were given out once, a deposit is
    recorded exactly while the complaint is active, the list of complaints awaiting a
    decision holds exactly those in arbitration or appeal, and the number of active
    complaints of every account is exact, so that neither can ever block or admit a
    complaint wrongly. *)
Theorem complaints_stay_consistent careful x s :
  cfg_ok -> rtc (step careful) (genesis x) s -> consistent s.
Proof.
  intros Hcfg Hrun. eapply so_consistent, run_sound, Hrun; [done | apply records_at_genesis].
Qed.

(** C20: In careful runs - no appeal of a respondent is closed by force or by age - the
    amount on hold for complaints at every account covers all the deposits recorded as
    that account's: the complainant's, or the appellant's during an appeal. *)
Theorem deposits_stay_on_hold x s :
  cfg_ok -> rtc (step true) (genesis x) s -> forall who,
  msum (fun id c => at_account (holder c) (deposit_of s id) who) (Complaints s) <= on_hold ComplaintDeposit who (others s).
Proof.
  intros Hcfg Hrun. eapply so_covered; [| reflexivity]. eapply run_sound, Hrun; [done | apply records_at_genesis].
Qed.

(** The statuses nothing leads out of. *)
Definition terminal (st : ComplaintStatus) : bool :=
  match st with ResolvedSettlement | Withdrawn | Expired => true | _ => false end.

Lemma terminal_stays st st' : terminal st = true -> rtc arrow st st' -> st' = st.
Proof.
  intros Ht Hp. destruct Hp as [| st1 st2 st3 [Ha | Ha] _]; [done | |]; destruct st1, st2; discriminate.
Qed.

(** Whatever happens between two moments of a run, a complaint that exists at the
    second and whose id was given out by the first existed at the first, has the same
    parties, subject and type, and got from one status to the other along transitions
    of the state machine or the two ways round it (closed by the committee, expired in
    appeal); once settled, withdrawn or expired it never changes status again. *)
Theorem complaints_move_along careful x s s' id c' :
  cfg_ok -> rtc (step careful) (genesis x) s -> rtc (step careful) s s' ->
  Complaints s' !! id = Some c' -> id < NextComplaintId s ->
  exists c, Complaints s !! id = Some c /\ same_parties c c' /\ rtc arrow (status c) (status c') /\
    (terminal (status c) = true -> status c' = status c).
Proof.
  intros Hcfg Hreach Hrun Hget Hid.
  assert (sound careful s s) as Hs.
  { destruct (run_sound careful _ _ _ Hcfg (records_at_genesis careful x) Hreach) as [Hc _ Hv].
    split; [done | apply linked_refl | done]. }
  destruct (ln_life _ _ (so_linked _ _ _ (run_sound _ _ _ _ Hcfg Hs Hrun)) _ _ Hget) as [Hnew | (c & Hc & Hp & Hpath)]; [lia |].
  exists c. split_and!; try done. intros Ht. by apply terminal_stays.
Qed.

(** When the committee force-closes a complaint under a respondent's appeal, the
    record of the appeal's deposit is deleted and the complaint is withdrawn for good,
    but what the respondent has on hold does not fall: the deposit is released at the
    complainant, who does not hold it. *)
Theorem forced_close_strands_appeal env origin id c s s' :
  consistent s -> Complaints s !! id = Some c -> status c = Appealed -> appellant c = Some (respondent c) ->
  dispatch cfg env origin (CForceClose id) s = (Ok tt, s') ->
  Complaints s' !! id = Some (moved c Withdrawn (block_number env)) /\ ComplaintDeposits s' !! id = None /\
  complaint_hold s' (respondent c) = complaint_hold s (respondent c).
Proof.
  intros Hs Hget Hst Happ Hr%transactional_Ok. simpl in Hr. unfold force_close_complaint in Hr. arb_inv Hr.
  match goal with Hx : refund_complaint_deposit _ _ _ = _ |- _ => pose proof Hx as Hrefund end.
  pay. pose proof (pb_rest _ _ _ _ Hpaid) as [= _ Hc _ _ _ _ _ _].
  split_and!; simpl.
  - by rewrite lookup_insert_eq.
  - by rewrite (pb_deposits _ _ _ _ Hpaid), lookup_delete_eq.
  - match goal with Hx : refund_complaint_deposit _ _ _ = (_, ?t) |- _ => eapply (refund_elsewhere _ _ s _ t _ Hs Hx) end.
    apply not_eq_sym. by eapply cn_parties.
Qed.
End Rules.

(** * A concrete run

    Account 9 decides. Accounts 1 and 2 made deal 7: account 1 complains, account 2
    answers, the complaint goes to arbitration and is decided for account 1; account 2
    appeals. *)

#[export] Existing Instances EscrowPallet.floor_permill EscrowPallet.floor_permill_laws.

Definition arb_cfg : Config := {|
  MaxEvidence := 10;
  DecisionOrigin o := ensure_root (o : SimpleOrigin);
  DepositRatioBps := 1500;
  ResponseDeadline := 100;
  RejectedSlashBps := 3000;
  PartialSlashBps := 1500;
  MinComplaintDeposit := 100;
  ComplaintDepositUsd := 1000000;
  ComplaintSlashBps := 5000;
  TreasuryAccount := 50%N;
  ArchiveTtlBlocks := 1000;
  ComplaintArchiveDelayBlocks := 200;
  ComplaintMaxLifetimeBlocks := 500;
  AppealWindowBlocks := 50;
  AutoEscalateBlocks := 100;
  MaxActivePerUser := 5;
|}.

Lemma arb_cfg_ok : cfg_ok arb_cfg.
Proof. by split. Qed.

Definition arb_env (n : Z) : Env := mkEnv n 0 0 [].

Definition arb_genesis : State SimplePorts :=
  genesis (mkPorts {[1%N := 1000%N; 2%N := 1000%N; 100%N := 5000%N]} ∅ {[7 := (1%N, 2%N, 1000%N)]} []).

Definition arb_calls : list (Env * SimpleOrigin * Call) :=
  [(arb_env 1, SignedBy 1%N, CFile ENTITY_ORDER 7 EntityOrderQuality [1] (Some 500));
   (arb_env 2, SignedBy 2%N, CRespond 0 [2]);
   (arb_env 3, SignedBy 1%N, CEscalate 0);
   (arb_env 4, RootOrigin, CResolve 0 0 [3] None);
   (arb_env 5, SignedBy 2%N, CAppeal 0 [4])].

Definition arb_play (calls : list (Env * SimpleOrigin * Call)) s : State SimplePorts :=
  foldl (fun s c => (dispatch arb_cfg c.1.1 c.1.2 c.2 s).2) s calls.

Fixpoint playable (calls : list (Env * SimpleOrigin * Call)) (s : State SimplePorts) : Prop :=
  match calls with
  | [] => True
  | c :: rest => typed c.2 /\ NextComplaintId s < u32_max /\ (forall id, blunt_on c.2 id = false) /\
      playable rest (dispatch arb_cfg c.1.1 c.1.2 c.2 s).2
  end.

Lemma arb_play_steps careful calls s : playable calls s -> rtc (step arb_cfg careful) s (arb_play calls s).
Proof.
  revert s. induction calls as [| [[env o] c] calls IH]; intros s; simpl; [done |]. intros (Ht & Hn & Hb & Hrest).
  eapply rtc_l, IH, Hrest. eapply (step_call arb_cfg careful env o c); [exact Ht | exact Hn | | by apply surjective_pairing].
  intros _ id c1 _ Hc. simpl in Hb. by rewrite Hb in Hc.
Qed.

Definition arb_filed := arb_play (take 1 arb_calls) arb_genesis.
Definition arb_appealed := arb_play (drop 1 arb_calls) arb_filed.

Example arb_appealed_state :
  (status <$> Complaints arb_appealed !! 0, appellant <$> Complaints arb_appealed !! 0,
   ComplaintDeposits arb_appealed !! 0, on_hold ComplaintDeposit 1%N (others arb_appealed),
   on_hold ComplaintDeposit 2%N (others arb_appealed)) = (Some Appealed, Some (Some 2%N), Some 200, 0, 200).
Proof. vm_compute. reflexivity. Qed.

Lemma arb_playable : playable (take 1 arb_calls) arb_genesis /\ playable (drop 1 arb_calls) arb_filed.
Proof. vm_compute. repeat split. Qed.

Lemma arb_filed_reached careful : rtc (step arb_cfg careful) arb_genesis arb_filed.
Proof. unfold arb_filed. exact (arb_play_steps careful (take 1 arb_calls) arb_genesis (proj1 arb_playable)). Qed.

Lemma arb_filed_appealed careful : rtc (step arb_cfg careful) arb_filed arb_appealed.
Proof. unfold arb_appealed. exact (arb_play_steps careful (drop 1 arb_calls) arb_filed (proj2 arb_playable)). Qed.

Lemma arb_appealed_reached careful : rtc (step arb_cfg careful) arb_genesis arb_appealed.
Proof. etrans; [apply arb_filed_reached | apply arb_filed_appealed]. Qed.

Lemma complaints_stay_consistent_witness : consistent arb_appealed.
Proof. exact (complaints_stay_consistent arb_cfg false _ _ arb_cfg_ok (arb_appealed_reached false)). Defined.

Lemma deposits_stay_on_hold_witness :
  msum (fun id c => at_account (holder c) (deposit_of arb_appealed id) 2%N) (Complaints arb_appealed) <=
    on_hold ComplaintDeposit 2%N (others arb_appealed).
Proof. exact (deposits_stay_on_hold arb_cfg _ _ arb_cfg_ok (arb_appealed_reached true) 2%N). Defined.

(** The complaint of [arb_calls] after them. *)
Definition arb_complaint : Complaint :=
  default (mkComplaint [] 0 OtherComplaint 0%N 0%N [] None None Expired 0 0 None None None None 0)
    (Complaints arb_appealed !! 0).

Lemma arb_complaint_get : Complaints arb_appealed !! 0 = Some arb_complaint.
Proof. vm_compute. reflexivity. Qed.

Lemma complaints_move_along_witness :
  exists c, Complaints arb_filed !! 0 = Some c /\ same_parties c arb_complaint /\
    rtc arrow (status c) (status arb_complaint) /\ (terminal (status c) = true -> status arb_complaint = status c).
Proof.
  apply (complaints_move_along arb_cfg false _ arb_filed arb_appealed 0 arb_complaint arb_cfg_ok
    (arb_filed_reached false) (arb_filed_appealed false) arb_complaint_get).
  vm_compute. reflexivity.
Defined.

Definition arb_closed := (dispatch arb_cfg (arb_env 6) RootOrigin (CForceClose 0) arb_appealed).2.

Lemma arb_appealed_consistent : consistent arb_appealed.
Proof. eapply so_consistent, (run_sound arb_cfg false), arb_appealed_reached; [apply arb_cfg_ok | apply records_at_genesis]. Qed.

Lemma arb_appealed_status : status arb_complaint = Appealed.
Proof. vm_compute. reflexivity. Qed.

Lemma arb_appellant : appellant arb_complaint = Some (respondent arb_complaint).
Proof. vm_compute. reflexivity. Qed.

Lemma arb_closed_runs : dispatch arb_cfg (arb_env 6) RootOrigin (CForceClose 0) arb_appealed = (Ok tt, arb_closed).
Proof. unfold arb_closed. apply returns. vm_compute. reflexivity. Qed.

Lemma forced_close_strands_appeal_witness :
  Complaints arb_closed !! 0 = Some (moved arb_complaint Withdrawn (block_number (arb_env 6))) /\ ComplaintDeposits arb_closed !! 0 = None /\
  complaint_hold arb_closed (respondent arb_complaint) = complaint_hold arb_appealed (respondent arb_complaint).
Proof.
  exact (forced_close_strands_appeal arb_cfg (arb_env 6) RootOrigin 0 arb_complaint arb_appealed arb_closed
    arb_appealed_consistent arb_complaint_get arb_appealed_status arb_appellant arb_closed_runs).
Defined.
End ArbitrationRules.
