(* ===== verification/ArbitrationDisputes.v ===== *)
(** Disputes about deals in escrow: the tables of open disputes always agree with each
    other; both sides' deposits stay on hold at the escrow's account until the dispute
    is closed; how a decision closes one; and what one party can do alone. *)

From S2P Require Import Prelude Frame Escrow Arbitration ArbitrationRules.

Module ArbitrationDisputes.
Import Arbitration.

Section Disputes.
Context `{FrameSystem} {X : Type} `{ArbitrationPorts X} `{!ArbitrationPortsLaws X}.
Context `{EscrowPallet.PermillLaws} (cfg : Config).
Implicit Types (s : State X) (k : bytes * Z).

Abbreviation Call_ := (M (State X) (DispatchError Error) unit).

(** * What is true of open disputes *)

Definition tables_of s := (Disputed s, TwoWayDeposits s, PendingArbitrationDisputes s, EvidenceIds s).

(** What is on hold at the escrow's account for one side. *)
Definition held_at_escrow (r : HoldReason) s : Z := on_hold r (escrow_account_of X) (others s).

Definition responded_with (r : TwoWayDepositRecord) : Z := default 0 (respondent_deposit r).

(** An open dispute: two different parties; the answer is recorded with its deposit,
    which is as much as the initiator's. *)
Definition fair_record (r : TwoWayDepositRecord) : Prop :=
  initiator r <> dispute_respondent r /\ 0 <= initiator_deposit r /\
  respondent_deposit r = if has_responded r then Some (initiator_deposit r) else None.

Record tables_agree s : Prop := {
  ta_deposits : forall k, k ∈ Disputed s <-> is_Some (TwoWayDeposits s !! k);
  ta_pending : forall k, k ∈ PendingArbitrationDisputes s <-> k ∈ Disputed s;
  ta_evidence : forall k, is_Some (EvidenceIds s !! k) <-> k ∈ Disputed s;
  ta_evidence_size : forall k l, EvidenceIds s !! k = Some l -> (0 < length l)%nat /\ Z.of_nat (length l) <= MaxEvidence cfg;
  ta_records : forall k r, TwoWayDeposits s !! k = Some r -> fair_record r;
}.

(** What is on hold covers the deposits of all open disputes. *)
Record backed s : Prop := {
  bk_initiators : msum (fun _ r => initiator_deposit r) (TwoWayDeposits s) <= held_at_escrow DisputeInitiator s;
  bk_respondents : msum (fun _ r => responded_with r) (TwoWayDeposits s) <= held_at_escrow DisputeRespondent s;
}.

Record sound s : Prop := { sd_tables : tables_agree s; sd_backed : backed s }.

(** * Payments *)

(** Takes at most [v] of what is on hold for [r]. *)
Record takes (r : HoldReason) (v : Z) s s' : Prop := {
  tk_tables : tables_of s' = tables_of s;
  tk_own : held_at_escrow r s - v <= held_at_escrow r s';
  tk_other : forall r', r' <> r -> held_at_escrow r' s' = held_at_escrow r' s;
}.

Lemma takes_nothing r v s : 0 <= v -> takes r v s s.
Proof. intros Hv. split; try done. lia. Qed.

Lemma takes_trans r v w s s1 s2 : takes r v s s1 -> takes r w s1 s2 -> takes r (v + w) s s2.
Proof.
  intros [T1 O1 E1] [T2 O2 E2]. split; [congruence | lia |]. intros r' Hr. by rewrite E2, E1.
Qed.

Lemma released r who v ex err s u s' :
  0 <= v -> with_port (release_hold r who v ex) err s = (Ok u, s') -> takes r v s s'.
Proof.
  intros Hv Hr. unfold with_port in Hr. m_inv.
  match goal with Hx : release_hold _ _ _ _ _ = _ |- _ => rename Hx into Hheld end.
  split; [done | |]; unfold held_at_escrow; simpl.
  - rewrite (release_held _ _ _ _ _ _ r (escrow_account_of X) Hv Hheld). unfold at_hold. case_decide; lia.
  - intros r' Hr'. by rewrite (release_elsewhere _ _ _ _ _ _ _ _ Hheld Hr').
Qed.

Lemma transferred r from to v f err s u s' :
  0 <= v -> with_port (transfer_on_hold r from to v f) err s = (Ok u, s') -> takes r v s s'.
Proof.
  intros Hv Hr. unfold with_port in Hr. m_inv.
  match goal with Hx : transfer_on_hold _ _ _ _ _ _ = _ |- _ => rename Hx into Hheld end.
  split; [done | |]; unfold held_at_escrow; simpl.
  - rewrite (transfer_held _ _ _ _ _ _ _ r (escrow_account_of X) Hv Hheld). unfold at_hold. case_decide; lia.
  - intros r' Hr'. by rewrite (transfer_elsewhere _ _ _ _ _ _ _ _ _ Hheld Hr').
Qed.

Lemma deposit_released who v r d id s u s' :
  0 <= v -> release_deposit who v r d id s = (Ok u, s') -> takes r v s s'.
Proof.
  intros Hv Hr. unfold release_deposit, deposit_event in Hr. m_inv.
  match goal with Hx : with_port _ _ _ = _ |- _ => apply released in Hx as [T O E]; [by split | done] end.
Qed.

Lemma deposit_slashed who v bps r to d id s u s' :
  0 <= bps -> 0 <= v -> slash_and_release who v bps r to d id s = (Ok u, s') -> takes r v s s'.
Proof.
  intros Hb Hv Hr. destruct (ArbitrationRules.share_bounds bps v Hb Hv) as [Hs0 Hsv].
  unfold slash_and_release in Hr. set (cut := share_of bps v) in *.
  apply bind_Ok in Hr as ([] & s1 & Hcut & Hr). apply bind_Ok in Hr as ([] & s2 & Hrel & Hr).
  assert (takes r cut s s1) as Hc.
  { destruct (decide (cut = 0)); [apply ret_inv in Hcut as [_ ->]; by apply takes_nothing | by eapply transferred]. }
  assert (takes r (sat_sub v cut) s1 s2) as Hl.
  { assert (0 <= sat_sub v cut) by (unfold sat_sub; lia).
    destruct (decide (sat_sub v cut = 0)); [apply ret_inv in Hrel as [_ ->]; by apply takes_nothing | by eapply released]. }
  injection Hr as _ <-. replace v with (cut + sat_sub v cut) by (unfold sat_sub; lia).
  destruct (takes_trans _ _ _ _ _ _ Hc Hl). by split.
Qed.

(** * Closing a dispute *)

(** What the record of [k] says is on hold for each side. *)
Definition due_initiator s k : Z := default 0 (initiator_deposit <$> TwoWayDeposits s !! k).
Definition due_respondent s k : Z := default 0 (responded_with <$> TwoWayDeposits s !! k).

(** Both deposits of [k] go, and what remains on hold is what was not theirs. *)
Record pays_out k s s' : Prop := {
  po_initiator : held_at_escrow DisputeInitiator s - due_initiator s k <= held_at_escrow DisputeInitiator s';
  po_respondent : held_at_escrow DisputeRespondent s - due_respondent s k <= held_at_escrow DisputeRespondent s';
}.

Record closes k s s' : Prop := {
  cl_disputed : Disputed s' = Disputed s ∖ {[k]};
  cl_deposits : TwoWayDeposits s' = delete k (TwoWayDeposits s);
  cl_pending : PendingArbitrationDisputes s' = PendingArbitrationDisputes s ∖ {[k]};
  cl_evidence : EvidenceIds s' = delete k (EvidenceIds s);
  cl_pays : pays_out k s s';
}.

Lemma closes_sound k s s' : closes k s s' -> sound s -> sound s'.
Proof.
  intros [Cd Ct Cp Ce [Pi Pr]] [[Td Tp Te Tn Tr] [Bi Br]]. split; split.
  - intros j. rewrite Cd, Ct, elem_of_difference, elem_of_singleton, Td. destruct (decide (j = k)) as [-> | Hj].
    + rewrite lookup_delete_eq. split; [tauto | by intros [? ?]].
    + rewrite lookup_delete_ne by done. tauto.
  - intros j. rewrite Cd, Cp, !elem_of_difference, Tp. done.
  - intros j. rewrite Cd, Ce, elem_of_difference, elem_of_singleton. destruct (decide (j = k)) as [-> | Hj].
    + rewrite lookup_delete_eq. split; [by intros [? ?] | tauto].
    + rewrite lookup_delete_ne, Te by done. tauto.
  - intros j l. rewrite Ce. intros [_ Hl]%lookup_delete_Some. by eapply Tn.
  - intros j r. rewrite Ct. intros [_ Hr]%lookup_delete_Some. by eapply Tr.
  - rewrite Ct, msum_delete. unfold due_initiator in Pi. destruct (TwoWayDeposits s !! k); simpl in *; lia.
  - rewrite Ct, msum_delete. unfold due_respondent in Pr. destruct (TwoWayDeposits s !! k); simpl in *; lia.
Qed.

(** Taking both deposits, one after the other. *)
Lemma takes_both k r s s0 s1 s2 : TwoWayDeposits s !! k = Some r -> others s0 = others s ->
  takes DisputeInitiator (initiator_deposit r) s0 s1 -> takes DisputeRespondent (responded_with r) s1 s2 -> pays_out k s s2.
Proof.
  intros Hk H0s [_ O1 E1] [_ O2 E2]. specialize (E1 DisputeRespondent). specialize (E2 DisputeInitiator).
  unfold held_at_escrow in *. rewrite H0s in *.
  split; unfold due_initiator, due_respondent, held_at_escrow; rewrite Hk; simpl; [rewrite E2 | rewrite <- E1]; done || lia.
Qed.

(** The respondent's part, when there is one. *)
Lemma respondent_part r (op : Z -> Call_) s u s' :
  fair_record r ->
  (forall v s1 u1 s2, 0 <= v -> op v s1 = (Ok u1, s2) -> takes DisputeRespondent v s1 s2) ->
  with_respondent r op s = (Ok u, s') -> takes DisputeRespondent (responded_with r) s s'.
Proof.
  intros (_ & H0i & Hr) Hop Hrun. unfold with_respondent, responded_with in *. rewrite Hr in *.
  destruct (has_responded r); [by eapply Hop | apply ret_inv in Hrun as [_ ->]; by apply takes_nothing].
Qed.

(** What leaves open disputes and their deposits alone. *)
Record still s s' : Prop := {
  st_tables : tables_of s' = tables_of s;
  st_held : forall r, r <> ComplaintDeposit -> held_at_escrow r s' = held_at_escrow r s;
}.

Lemma still_refl s : still s s.
Proof. by split. Qed.

Lemma still_others s t x' :
  (forall r y, r <> ComplaintDeposit -> on_hold r y x' = on_hold r y (others t)) -> still s t -> still s (t <| others := x' |>).
Proof. intros Hq [Ht Hh]. split; [done |]. intros r Hr. unfold held_at_escrow in *. simpl. by rewrite Hq, Hh. Qed.

Lemma still_effort s op : (forall r x y, on_hold r y (op x) = on_hold r y x) -> kept (still s) (best_effort op).
Proof. intros Hq. apply kept_modify. intros t. apply still_others. intros r y _. apply Hq. Qed.

Lemma still_route s d id dec : kept (still s) (route d id dec).
Proof.
  unfold route. apply kept_gets_bind. intros t r t' Ht Hr.
  assert (still s (t <| others := (apply_decision d id dec (others t)).2 |>)) as Hs'.
  { apply still_others; [| done]. intros r1 y _. apply decision_held. }
  unfold bind, modify, ensure in Hr. case_decide; simpl in Hr; by injection Hr as _ <-.
Qed.

Ltac still_step :=
  first
    [ apply still_effort; intros; first [apply pin_held | apply notice_held | apply unlock_cid_held]
    | apply still_route
    | kept_step ltac:(intros ? [? ?]; by split) ].
Ltac still_tac := cbv zeta; repeat (still_step; cbv zeta).

Lemma still_unlock s d id : kept (still s) (unlock_all_evidence_cids d id).
Proof. unfold unlock_all_evidence_cids. still_tac. Qed.

Ltac pay_goal :=
  first [eapply deposit_slashed; [| | eassumption]; done | eapply deposit_released; [| eassumption]; done].

(** The deposits at a decision. *)
Lemma deposits_handled d id dec s u s' :
  ArbitrationRules.cfg_ok cfg -> tables_agree s -> handle_deposits_on_arbitration cfg d id dec s = (Ok u, s') ->
  tables_of s' = (Disputed s, delete (d, id) (TwoWayDeposits s), PendingArbitrationDisputes s, EvidenceIds s) /\
  pays_out (d, id) s s'.
Proof.
  intros Hcfg Ht Hr. unfold handle_deposits_on_arbitration in Hr. rewrite run_gets in Hr.
  destruct (TwoWayDeposits s !! (d, id)) as [r |] eqn:Hk.
  2: { apply ret_inv in Hr as [_ ->]. rewrite delete_id by done. split; [done |].
       split; unfold due_initiator, due_respondent; rewrite Hk; simpl; lia. }
  rewrite run_modify in Hr. set (s0 := s <| TwoWayDeposits ::= delete (d, id) |>) in *.
  pose proof (ta_records _ Ht _ _ Hk) as Hfair. destruct (Hfair) as (_ & H0i & _).
  pose proof (ArbitrationRules.cfg_rejected _ Hcfg). pose proof (ArbitrationRules.cfg_partial _ Hcfg).
  unfold get_escrow_account in Hr. rewrite run_ret in Hr. cbv zeta in Hr.
  assert (exists s1, takes DisputeInitiator (initiator_deposit r) s0 s1 /\
    takes DisputeRespondent (responded_with r) s1 s') as (s1 & H1t & H2t).
  { destruct dec; apply bind_Ok in Hr as ([] & s1 & Hi & Hr); exists s1; (split;
      [pay_goal | eapply respondent_part; [done | | exact Hr]; intros; cbv beta in *; pay_goal]). }
  split.
  - rewrite (tk_tables _ _ _ _ H2t), (tk_tables _ _ _ _ H1t). done.
  - by apply (takes_both _ r s s0 s1).
Qed.

(** After the deposits, whatever is left alone changes nothing in the balance. *)
Lemma pays_still k s s1 s2 : pays_out k s s1 -> still s1 s2 -> pays_out k s s2.
Proof. intros [Pi Pr] [_ Hh]. split; rewrite Hh by done; done. Qed.

Lemma still_pays k s s1 s2 : still s s1 -> pays_out k s1 s2 -> pays_out k s s2.
Proof.
  intros [[= _ Ht _ _] Hh] [Pi Pr]. unfold due_initiator, due_respondent in *. rewrite Ht in *. rewrite !Hh in * by done. done.
Qed.

Lemma close_closes env d id dec code bps s u s' :
  ArbitrationRules.cfg_ok cfg -> tables_agree s -> close_dispute cfg env d id dec code bps s = (Ok u, s') ->
  closes (d, id) s s'.
Proof.
  intros Hcfg Ht Hr. unfold close_dispute in Hr.
  apply bind_Ok in Hr as ([] & s1 & H1r & Hr). apply bind_Ok in Hr as ([] & s2 & H2r & Hr).
  apply bind_Ok in Hr as ([] & s3 & H3r & Hr).
  assert (still s s1) as Hs1 by (eapply still_route; [apply still_refl | exact H1r]).
  assert (still s2 s3) as Hs3 by (eapply still_unlock; [apply still_refl | exact H3r]).
  assert (tables_agree s1) as Ht1.
  { destruct Hs1 as [[= Td Tt Tp Te] _], Ht as [A1 A2 A3 A4 A5]. split; rewrite ?Td, ?Tt, ?Tp, ?Te; done. }
  destruct (deposits_handled _ _ _ _ _ _ Hcfg Ht1 H2r) as [Htab Hpay].
  assert (pays_out (d, id) s s3) as Hp3 by (eapply still_pays; [exact Hs1 |]; eapply pays_still; [exact Hpay | exact Hs3]).
  pose proof (st_tables _ _ Hs1) as [= Td Tt Tp Te]. pose proof (st_tables _ _ Hs3) as Htab3.
  rewrite Htab, Td, Tt, Tp, Te in Htab3. injection Htab3 as Ud Ut Up Ue.
  unfold no_longer_pending, archive_and_cleanup in Hr. m_inv.
  split; simpl; rewrite ?Ud, ?Ut, ?Up, ?Ue; try done.
  - by rewrite delete_delete_eq.
  - destruct Hp3. by split.
Qed.

(** Follows a successful call down to its guards and writes. *)
Ltac dispute_inv Hr :=
  repeat (progress unfold ensure_not_paused, signed, ensure_decision, ensure_disputed, get_deposits, ensure_evidence,
    no_longer_pending, get_escrow_account, push_evidence, hold_deposit, notify, best_effort, deposit_event in Hr);
  m_inv; simpl in *.

(** ** The calls *)

Lemma still_sound s s' : still s s' -> sound s -> sound s'.
Proof.
  intros [[= Td Tt Tp Te] Hh] [[A1 A2 A3 A4 A5] [B1 B2]].
  split; split; rewrite ?Td, ?Tt, ?Tp, ?Te, ?Hh; done.
Qed.

(** The tables of [k] are cleared after its deposits were paid. *)
Lemma cleared k s s1 s2 s' :
  tables_of s1 = tables_of s -> pays_out k s s1 ->
  tables_of s2 = (Disputed s1 ∖ {[k]}, delete k (TwoWayDeposits s1), PendingArbitrationDisputes s1 ∖ {[k]},
    delete k (EvidenceIds s1)) ->
  others s2 = others s1 -> still s2 s' -> closes k s s'.
Proof.
  intros [= Rd Rt Rp Re] [Pi Pr] [= Td Tt Tp Te] Ho [[= Ud Ut Up Ue] Hh].
  split; [congruence.. |]. unfold held_at_escrow in *.
  split; unfold held_at_escrow; rewrite Hh, Ho by done; done.
Qed.

Lemma settle_closes origin d id s u s' :
  tables_agree s -> settle_dispute origin d id s = (Ok u, s') -> closes (d, id) s s'.
Proof.
  intros Ht Hr. unfold settle_dispute in Hr. dispute_inv Hr.
  match goal with Hk : TwoWayDeposits s !! _ = Some ?x, Hi : release_deposit _ _ _ _ _ _ = (_, ?a),
      Hp : with_respondent _ _ _ = (_, ?b), Hu : unlock_all_evidence_cids _ _ _ = (_, ?c), Ha : attempt _ ?m = (_, ?e) |- _ =>
    rename x into r, Hk into Hget; pose proof (ta_records _ Ht _ _ Hget) as Hfair;
    assert (takes DisputeInitiator (initiator_deposit r) s a) as Hi' by (destruct Hfair as (_ & ? & _); pay_goal);
    assert (takes DisputeRespondent (responded_with r) a b) as Hp'
      by (eapply respondent_part; [done | | exact Hp]; intros; cbv beta in *; pay_goal);
    assert (still b c) as Hc' by (eapply still_unlock; [apply still_refl | exact Hu]);
    assert (still m e) as He' by (eapply (kept_attempt (still m)); [apply still_route | apply still_refl | exact Ha]);
    apply (cleared _ s c m) end.
  - rewrite (st_tables _ _ Hc'), (tk_tables _ _ _ _ Hp'), (tk_tables _ _ _ _ Hi'). done.
  - eapply pays_still, Hc'. by eapply takes_both.
  - done.
  - done.
  - destruct He'. by split.
Qed.

(** A release that may fail takes no more. *)
Lemma try_takes who v r d id op s u s' :
  0 <= v -> try_release who v r d id op s = (Ok u, s') -> takes r v s s'.
Proof.
  intros Hv Hr. unfold try_release in Hr. apply bind_Ok in Hr as (res & s1 & Ha & Hr).
  assert (takes r v s s1) as Ht.
  { apply attempt_inv in Ha as [(? & [= ->] & Ha) | (e & [= ->] & Ha)]; [by eapply deposit_released |].
    unfold release_deposit, with_port, deposit_event in Ha. m_err; by apply takes_nothing. }
  unfold deposit_event in Hr. m_inv; [done |]. destruct Ht. by split.
Qed.

Lemma still_try_unlock m d id x s' : attempt (unlock_all_evidence_cids d id) m = (Ok x, s') -> still m s'.
Proof. intros Ha. eapply (kept_attempt (still m)); [apply still_unlock | apply still_refl | exact Ha]. Qed.

Lemma force_close_closes origin d id s u s' :
  tables_agree s -> force_close_dispute cfg origin d id s = (Ok u, s') -> closes (d, id) s s'.
Proof.
  intros Ht Hr. unfold force_close_dispute in Hr. dispute_inv Hr.
  - match goal with Hk : TwoWayDeposits s !! _ = Some ?x, Hi : try_release _ _ _ _ _ _ ?m = (_, ?a),
        Hp : with_respondent _ _ _ = (_, ?b), Hu : attempt _ _ = (_, ?e) |- _ =>
      rename x into r, Hk into Hget; pose proof (ta_records _ Ht _ _ Hget) as Hfair;
      assert (takes DisputeInitiator (initiator_deposit r) m a) as Hi' by (destruct Hfair as (_ & ? & _); by eapply try_takes);
      assert (takes DisputeRespondent (responded_with r) a b) as Hp'
        by (eapply respondent_part; [done | | exact Hp]; intros; cbv beta in *; by eapply try_takes);
      apply still_try_unlock in Hu as [Htab Hh];
      assert (pays_out (d, id) s e) as [Pi Pr]
        by (eapply (pays_still _ _ b); [by apply (takes_both _ r s m a) | by split]);
      rewrite (tk_tables _ _ _ _ Hp'), (tk_tables _ _ _ _ Hi') in Htab; injection Htab as Td Tt Tp Te end.
    split; simpl; try congruence. by split.
  - match goal with Hu : attempt _ _ = (_, ?e) |- _ => apply still_try_unlock in Hu as [[= Td Tt Tp Te] Hh] end.
    split; simpl; try congruence.
    split; unfold due_initiator, due_respondent, held_at_escrow in *; simpl; rewrite Hh by done;
      match goal with Hk : TwoWayDeposits s !! _ = None |- _ => rewrite Hk end; simpl; lia.
Qed.

(** * Opening and answering *)

(** What a new hold adds. *)
Lemma newly_held r v s x' : 0 <= v -> hold r (escrow_account_of X) v (others s) = Some x' ->
  on_hold r (escrow_account_of X) x' = held_at_escrow r s + v /\
  forall r', r' <> r -> on_hold r' (escrow_account_of X) x' = held_at_escrow r' s.
Proof.
  intros Hv Hx. split.
  - rewrite (hold_held _ _ _ _ _ r (escrow_account_of X) Hv Hx). unfold at_hold. by rewrite decide_True.
  - intros r' Hr. by rewrite (hold_elsewhere _ _ _ _ _ r' (escrow_account_of X) Hx Hr).
Qed.

(** The record of [k] becomes [r], with one more piece of evidence. *)
Record opens k (r : TwoWayDepositRecord) s s' : Prop := {
  op_disputed : Disputed s' = {[k]} ∪ Disputed s;
  op_deposits : TwoWayDeposits s' = <[k := r]> (TwoWayDeposits s);
  op_pending : PendingArbitrationDisputes s' = {[k]} ∪ PendingArbitrationDisputes s;
  op_evidence : exists ev, EvidenceIds s' = <[k := default [] (EvidenceIds s !! k) ++ [ev]]> (EvidenceIds s);
  op_room : Z.of_nat (length (default [] (EvidenceIds s !! k))) < MaxEvidence cfg;
  op_fair : fair_record r;
  op_initiator : held_at_escrow DisputeInitiator s' =
    held_at_escrow DisputeInitiator s + initiator_deposit r - due_initiator s k;
  op_respondent : held_at_escrow DisputeRespondent s' =
    held_at_escrow DisputeRespondent s + responded_with r - due_respondent s k;
}.

Lemma opens_sound k r s s' : opens k r s s' -> sound s -> sound s'.
Proof.
  intros [Od Ot Op [ev Oe] Om Of Oi Or] [[Td Tp Te Tn Tr] [Bi Br]]. split; split.
  - intros j. rewrite Od, Ot, elem_of_union, elem_of_singleton, lookup_insert. case_decide as Hj; [subst j |].
    + split; [eauto | by left].
    + rewrite Td. split; [intros [-> | ?]; done | by right].
  - intros j. rewrite Od, Op, !elem_of_union, Tp. done.
  - intros j. rewrite Od, Oe, elem_of_union, elem_of_singleton, lookup_insert. case_decide as Hj; [subst j |].
    + split; [by left | eauto].
    + rewrite Te. split; [by right | intros [-> | ?]; done].
  - intros j l. rewrite Oe, lookup_insert. case_decide as Hj; [intros [= <-]; subst j; rewrite length_app; simpl; lia |].
    apply Tn.
  - intros j rj. rewrite Ot, lookup_insert. case_decide; [by intros [= <-] | apply Tr].
  - rewrite Ot, msum_insert, Oi. unfold due_initiator. destruct (TwoWayDeposits s !! k); simpl; lia.
  - rewrite Ot, msum_insert, Or. unfold due_respondent. destruct (TwoWayDeposits s !! k); simpl; lia.
Qed.

Lemma open_opens env origin d id ev s u s' :
  ArbitrationRules.cfg_ok cfg -> tables_agree s -> dispute_with_two_way_deposit cfg env origin d id ev s = (Ok u, s') ->
  exists r, opens (d, id) r s s'.
Proof.
  intros Hcfg Ht Hr. unfold dispute_with_two_way_deposit in Hr. dispute_inv Hr. unfold with_port in *. m_inv. simpl in *.
  match goal with Ha : get_order_amount _ _ _ = Some ?v, Hh : hold _ _ (share_of ?b ?v) _ = Some _,
      Hn : (d, id) ∉ Disputed s |- _ =>
    pose proof (order_amount_unsigned _ _ _ _ Ha) as Hv; rename Hh into Hheld, Hn into Hnew;
    pose proof (ArbitrationRules.share_bounds b v (ArbitrationRules.cfg_ratio _ Hcfg) Hv) as [Hs0 _] end.
  destruct (newly_held _ _ _ _ Hs0 Hheld) as [Hown Hother].
  assert (TwoWayDeposits s !! (d, id) = None) as Hnone
    by (apply eq_None_not_Some; by rewrite <- (ta_deposits _ Ht)).
  eexists. split; simpl; [done.. | by eexists | done | by split | |];
    unfold held_at_escrow, due_initiator, due_respondent, responded_with in *; simpl;
    rewrite Hnone, notice_held; simpl; [rewrite Hown; lia | rewrite Hother by done; lia].
Qed.

Lemma respond_opens env origin d id ev s u s' :
  ArbitrationRules.cfg_ok cfg -> tables_agree s -> respond_to_dispute cfg env origin d id ev s = (Ok u, s') ->
  exists r, opens (d, id) r s s'.
Proof.
  intros Hcfg Ht Hr. unfold respond_to_dispute in Hr. dispute_inv Hr. unfold with_port in *. m_inv. simpl in *.
  match goal with Hk : TwoWayDeposits s !! _ = Some ?x, Hh : hold _ _ _ _ = Some _, Hn : has_responded ?x = false |- _ =>
    rename x into r, Hk into Hget, Hh into Hheld, Hn into Hnew end.
  pose proof (ta_records _ Ht _ _ Hget) as (Hne & H0i & Hresp). rewrite Hnew in Hresp.
  destruct (newly_held _ _ _ _ H0i Hheld) as [Hown Hother].
  assert ((d, id) ∈ Disputed s) as Hin by (apply (ta_deposits _ Ht); eauto).
  pose proof (proj2 (ta_pending _ Ht _) Hin) as Hpend.
  eexists. split; simpl; [set_solver | done | set_solver | by eexists | done | by split | |];
    unfold held_at_escrow, due_initiator, due_respondent, responded_with in *; simpl;
    rewrite Hget, notice_held; simpl; [rewrite Hother by done; lia | rewrite Hown, Hresp; simpl; lia].
Qed.

Lemma append_sound origin d id ev s u s' :
  sound s -> append_evidence_id cfg origin d id ev s = (Ok u, s') -> sound s'.
Proof.
  intros [Ht Hb] Hr. unfold append_evidence_id in Hr. dispute_inv Hr. split; [| by destruct Hb].
  destruct Ht as [Td Tp Te Tn Tr]. split; simpl; try done.
  - intros j. rewrite lookup_insert. case_decide; [subst; split; [done | eauto] | apply Te].
  - intros j l. rewrite lookup_insert. case_decide; [intros [= <-]; rewrite length_app; simpl; lia | apply Tn].
Qed.

(** * Complaints and sweeps leave disputes alone *)

(** An operation on the holds of complaints. *)
Definition complaint_op (op : X -> option X) : Prop := forall x x' r y, op x = Some x' -> r <> ComplaintDeposit ->
  on_hold r y x' = on_hold r y x.

Lemma complaint_op_hold who v : complaint_op (hold ComplaintDeposit who v).
Proof. intros x x' r y Hx Hr. by eapply hold_elsewhere. Qed.

Lemma complaint_op_release who v ex : complaint_op (release_hold ComplaintDeposit who v ex).
Proof. intros x x' r y Hx Hr. by eapply release_elsewhere. Qed.

Lemma complaint_op_transfer from to v f : complaint_op (transfer_on_hold ComplaintDeposit from to v f).
Proof. intros x x' r y Hx Hr. by eapply transfer_elsewhere. Qed.

Lemma still_port s op err : complaint_op op -> kept (still s) (with_port op err).
Proof.
  intros Hq t r t' Ht Hr. unfold with_port, bind, gets, ok_or in Hr.
  destruct (op (others t)) as [x' |] eqn:Hop; [| by apply fail_inv in Hr as [_ ->]].
  injection Hr as _ <-. apply still_others; [| done]. intros r1 y Hr1. by apply (Hq (others t)).
Qed.

Lemma still_report s op (report fallback : Call_) :
  complaint_op op -> kept (still s) report -> kept (still s) fallback -> kept (still s) (or_report op report fallback).
Proof.
  intros Hq Hrep Hfall. unfold or_report. apply kept_gets_bind. intros t r t' Ht Hr.
  destruct (op (others t)) as [x' |] eqn:Hop.
  - injection Hr as _ <-. apply still_others; [| done]. intros r1 y Hr1. by apply (Hq (others t)).
  - revert Hr. by apply kept_bind with (P := still s).
Qed.

Ltac complaint_step :=
  first
    [ apply still_port; first [apply complaint_op_hold | apply complaint_op_release | apply complaint_op_transfer]
    | apply still_report; [first [apply complaint_op_hold | apply complaint_op_release | apply complaint_op_transfer] | |]
    | still_step ].
Ltac complaint_call :=
  unfold slash_complaint_deposit, refund_complaint_deposit, take_deposit, deposit_event, pin_cid, notify, notify_both,
    signed, ensure_not_paused, ensure_decision, get_complaint, ensure_transition;
  cbv zeta; repeat (complaint_step; cbv zeta).

(** The calls about disputes. *)
Definition about_dispute (call : Call) : bool :=
  match call with
  | CArbitrate _ _ _ _ | CAppendEvidence _ _ _ | COpen _ _ _ | CRespondDispute _ _ _ | CDefaultJudgment _ _
  | CSettleDispute _ _ | CDismissDispute _ _ | CForceCloseDispute _ _ => true
  | _ => false
  end.

Lemma complaint_calls_still s env origin call : about_dispute call = false -> kept (still s) (apply_call cfg env origin call).
Proof.
  intros Hc. destruct call; try discriminate; simpl.
  all: try (unfold dispute, dispute_with_evidence_id, respond_to_complaint, withdraw_complaint, escalate_to_arbitration,
    start_mediation, force_close_complaint, set_paused, set_domain_penalty_rate; complaint_call; fail).
Qed.

(** A decided call of a dispute. *)
Lemma dispute_call_sound env origin call s u s' :
  ArbitrationRules.cfg_ok cfg -> about_dispute call = true -> sound s -> apply_call cfg env origin call s = (Ok u, s') -> sound s'.
Proof.
  intros Hcfg Hc Hs Hr. pose proof (sd_tables _ Hs) as Ht. destruct call as [| | d id code bps | d id ev | d id ev | d id ev
    | | | | | | | d id | | | d id | | d id | | | d id | | | |]; try discriminate; simpl in Hr.
  - unfold arbitrate in Hr. dispute_inv Hr;
      match goal with Hx : close_dispute _ _ _ _ _ _ _ _ = (_, ?a) |- _ => apply close_closes in Hx; [| done..];
        apply (still_sound a); [split; [done |]; intros; unfold held_at_escrow; simpl; by rewrite ?notice_held | by eapply closes_sound] end.
  - by eapply append_sound.
  - apply open_opens in Hr as [r Hr]; [by eapply opens_sound | done..].
  - apply respond_opens in Hr as [r Hr]; [by eapply opens_sound | done..].
  - unfold request_default_judgment in Hr. dispute_inv Hr.
    match goal with Hx : close_dispute _ _ _ _ _ _ _ _ = (_, ?a) |- _ => apply close_closes in Hx; [| done..];
      apply (still_sound a); [split; [done |]; intros; unfold held_at_escrow; simpl; by rewrite ?notice_held | by eapply closes_sound] end.
  - eapply closes_sound, Hs. by eapply settle_closes.
  - unfold dismiss_dispute in Hr. dispute_inv Hr.
    match goal with Hx : close_dispute _ _ _ _ _ _ _ _ = (_, ?a) |- _ => apply close_closes in Hx; [| done..];
      apply (still_sound a); [by split | by eapply closes_sound] end.
  - eapply closes_sound, Hs. by eapply force_close_closes.
Qed.

Lemma on_idle_still s env w : kept (still s) (on_idle cfg env w).
Proof.
  unfold on_idle, expire_old_complaints, auto_escalate_stale_complaints, archive_old_complaints,
    cleanup_old_archived_disputes, cleanup_old_archived_complaints.
  repeat (first [ apply ArbitrationRules.stage_kept
    | apply ArbitrationRules.sweep_kept; [intros ? | intros ?; apply kept_modify; intros ? [? ?]; by split]
    | apply kept_bind; [| intros ?] | case_decide | apply kept_ret | apply kept_gets ]; cbv zeta).
  all: unfold expire_one, escalate_one, archive_one, clean_dispute, clean_complaint, visit_complaint; complaint_call.
Qed.

(** * Runs *)

(** Calls, blocks, and whatever happens elsewhere that leaves the deposits of disputes
    on hold. *)
Inductive step : State X -> State X -> Prop :=
| step_call env origin call r s s' : dispatch cfg env origin call s = (r, s') -> step s s'
| step_idle env w r s s' : on_idle cfg env w s = (r, s') -> step s s'
| step_outside s x' :
    (forall r, r <> ComplaintDeposit -> held_at_escrow r s <= on_hold r (escrow_account_of X) x') ->
    step s (s <| others := x' |>).

Lemma dispute_step_sound s s' : ArbitrationRules.cfg_ok cfg -> step s s' -> sound s -> sound s'.
Proof.
  intros Hcfg Hstep Hs. destruct Hstep as [env origin call r s s' Hr | env w r s s' Hr | s x' Hx].
  - apply transactional_cases in Hr as [([] & -> & Hr) | (e & -> & ->)]; [| done].
    destruct (about_dispute call) eqn:Hc; [by eapply dispute_call_sound |].
    eapply still_sound, Hs. by eapply (complaint_calls_still s), Hr.
  - eapply still_sound, Hs. by eapply (on_idle_still s), Hr.
  - destruct Hs as [Ht [Bi Br]]. split; [by destruct Ht |].
    split; simpl; (etrans; [eassumption | by apply Hx]).
Qed.

Lemma dispute_genesis_sound x : sound (genesis x).
Proof.
  split; split; simpl.
  - intros k. rewrite lookup_empty. split; [by intros ?%elem_of_empty | by intros [? ?]].
  - done.
  - intros k. rewrite lookup_empty. split; [by intros [? ?] | by intros ?%elem_of_empty].
  - by intros k l ?.
  - by intros k r ?.
  - apply on_hold_nonneg.
  - apply on_hold_nonneg.
Qed.

Lemma dispute_run_sound x s : ArbitrationRules.cfg_ok cfg -> rtc step (genesis x) s -> sound s.
Proof.
  intros Hcfg. apply (rtc_invariant step sound); [intros a b Ha Hab; by eapply dispute_step_sound | apply dispute_genesis_sound].
Qed.

(** C18: In every reachable state an open dispute is in all the tables of disputes or in
    none, with between one and the largest number of pieces of evidence, between two
    different parties, its answer recorded exactly when the respondent's deposit is,
    and of the same amount; and what is on hold at the escrow's account covers the
    deposits of all the open disputes, for each side. *)
Theorem disputes_agree_and_are_backed x s :
  ArbitrationRules.cfg_ok cfg -> rtc step (genesis x) s ->
  tables_agree s /\
  msum (fun _ r => initiator_deposit r) (TwoWayDeposits s) <= held_at_escrow DisputeInitiator s /\
  msum (fun _ r => responded_with r) (TwoWayDeposits s) <= held_at_escrow DisputeRespondent s.
Proof. intros Hcfg Hrun. by destruct (dispute_run_sound x s Hcfg Hrun) as [Ht [Bi Br]]. Qed.

(** The deposits of a dispute are there to be released. *)
Lemma deposit_there s k r : sound s -> TwoWayDeposits s !! k = Some r ->
  initiator_deposit r <= held_at_escrow DisputeInitiator s /\ responded_with r <= held_at_escrow DisputeRespondent s.
Proof.
  intros [Ht [Bi Br]] Hk.
  assert (forall k1 r1, TwoWayDeposits s !! k1 = Some r1 -> 0 <= initiator_deposit r1 /\ 0 <= responded_with r1) as Hpos.
  { intros k1 r1 Hk1. destruct (ta_records _ Ht _ _ Hk1) as (_ & H0i & Hr). split; [done |].
    unfold responded_with. rewrite Hr. case_match; simpl; lia. }
  split; (etrans; [| eassumption]).
  - apply (msum_elem_le (fun _ r => initiator_deposit r) _ k r); [intros k1 r1 Hk1; apply (Hpos _ _ Hk1) | exact Hk].
  - apply (msum_elem_le (fun _ r => responded_with r) _ k r); [intros k1 r1 Hk1; apply (Hpos _ _ Hk1) | exact Hk].
Qed.

Lemma release_deposit_runs v r d id s : v <= held_at_escrow r s ->
  exists s1, release_deposit (escrow_account_of X) v r d id s = (Ok tt, s1).
Proof.
  intros Hv. destruct (release_succeeds r (escrow_account_of X) v (others s) Hv) as [x' Hx].
  unfold release_deposit, with_port, deposit_event. rewrite run_bind, run_gets, run_bind, (run_ok_or _ _ _ _ _ Hx), run_modify.
  by eexists.
Qed.

Lemma unlock_runs d id s : exists s1, unlock_all_evidence_cids d id s = (Ok tt, s1).
Proof.
  unfold unlock_all_evidence_cids. rewrite run_gets, run_modify.
  generalize (s <| LockedCidHashes ::= delete (d, id) |>). induction (default [] (LockedCidHashes s !! (d, id))) as [| h l IH];
    intros t; [by eexists |]. simpl. unfold best_effort. rewrite run_modify. apply IH.
Qed.

(** Once the other side has answered, either party to a dispute settles it alone, at
    any time and for its own benefit: in any reachable state of an unpaused pallet the
    call by the respondent succeeds, closes the dispute, and asks the router to release
    the money of the deal, whatever the initiator wants. *)
Theorem respondent_settles_alone x s origin d id r :
  ArbitrationRules.cfg_ok cfg -> rtc step (genesis x) s -> Paused s = false ->
  TwoWayDeposits s !! (d, id) = Some r -> has_responded r = true -> ensure_signed origin = Some (dispute_respondent r) ->
  exists s' x1, settle_dispute origin d id s = (Ok tt, s') /\ ~ (d, id) ∈ Disputed s' /\
    others s' = (apply_decision d id Release x1).2.
Proof.
  intros Hcfg Hrun Hp Hk Hresp Hwho. pose proof (dispute_run_sound x s Hcfg Hrun) as Hs.
  assert ((d, id) ∈ Disputed s) as Hin by (apply (ta_deposits _ (sd_tables _ Hs)); eauto).
  destruct (deposit_there _ _ _ Hs Hk) as [Hi Hr], (ta_records _ (sd_tables _ Hs) _ _ Hk) as (_ & H0i & Hdep).
  rewrite Hresp in Hdep.
  unfold settle_dispute, ensure_not_paused, signed, ensure_disputed, get_deposits, get_escrow_account.
  rewrite run_bind, run_gets, run_ensure, (run_ok_or _ _ _ _ _ Hwho), run_bind, run_gets, run_ensure, run_bind, run_gets,
    (run_ok_or _ _ _ _ _ Hk), run_ensure, run_ensure, run_ret by (first [done | by right]).
  destruct (release_deposit_runs _ _ d id _ Hi) as [s1 Hrel]. rewrite (bind_eval _ _ _ _ _ Hrel).
  pose proof (deposit_released _ _ _ _ _ _ _ _ H0i Hrel) as [_ _ Ho1].
  unfold with_respondent. unfold responded_with in Hr. rewrite Hdep in *. simpl in Hr.
  rewrite <- (Ho1 DisputeRespondent) in Hr by done. destruct (release_deposit_runs _ _ d id _ Hr) as [s2 Hrel2].
  rewrite (bind_eval _ _ _ _ _ Hrel2). destruct (unlock_runs d id s2) as [s3 Hun]. rewrite (bind_eval _ _ _ _ _ Hun).
  unfold no_longer_pending, deposit_event. rewrite !run_modify.
  match goal with |- context [bind (attempt (route d id Release)) _ ?s4] =>
    assert (exists s5 ok, attempt (route d id Release) s4 = (Ok ok, s5) /\
      Disputed s5 = Disputed s4 /\ others s5 = (apply_decision d id Release (others s4)).2) as (s5 & ok & Hroute & Hd5 & Hx5)
  end.
  { unfold attempt, route. rewrite run_gets, run_modify. unfold ensure. case_decide; by eexists _, _. }
  rewrite (bind_eval _ _ _ _ _ Hroute). eexists _, _. split; [reflexivity |]. simpl. rewrite Hd5, Hx5. simpl.
  split; [set_solver | reflexivity].
Qed.

(** The archive is written once, at the end. *)
Definition archive_of s := (NextArchivedId s, ArchivedDisputes s).

Lemma archive_framed d id dec : framed archive_of (route (X:=X) d id dec) /\
  framed archive_of (handle_deposits_on_arbitration cfg d id dec) /\ framed archive_of (unlock_all_evidence_cids (X:=X) d id).
Proof.
  split_and!; unfold route, handle_deposits_on_arbitration, slash_and_release, release_deposit, with_respondent, with_port,
    get_escrow_account, deposit_event, unlock_all_evidence_cids, best_effort; framed_tac.
Qed.

Lemma close_archives env d id dec code bps s u s' :
  close_dispute cfg env d id dec code bps s = (Ok u, s') ->
  ArchivedDisputes s' !! NextArchivedId s = Some (mkArchivedDispute d id code bps (block_number env)
    (block_to_year_month (block_number env) 14400)).
Proof.
  intros Hr. unfold close_dispute in Hr.
  apply bind_Ok in Hr as ([] & s1 & H1r & Hr). apply bind_Ok in Hr as ([] & s2 & H2r & Hr).
  apply bind_Ok in Hr as ([] & s3 & H3r & Hr).
  destruct (archive_framed d id dec) as (F1 & F2 & F3).
  apply F1 in H1r as [= N1 A1]. apply F2 in H2r as [= N2 A2]. apply F3 in H3r as [= N3 A3].
  unfold no_longer_pending, archive_and_cleanup in Hr. m_inv. simpl. rewrite N3, N2, N1. by rewrite lookup_insert_eq.
Qed.

(** C19: A decision is made once: when the call that decides an open dispute succeeds, its
    code stood for a decision, that decision is what the archive keeps, the dispute is in
    none of the tables any more, no more than its deposits went off hold, and every later
    call to decide it is refused without effect. *)
Theorem arbitration_decides_once x s env origin d id code bps s' :
  ArbitrationRules.cfg_ok cfg -> rtc step (genesis x) s ->
  dispatch cfg env origin (CArbitrate d id code bps) s = (Ok tt, s') ->
  exists dec, decision_of cfg code bps = Some dec /\
    ArchivedDisputes s' !! NextArchivedId s = Some (mkArchivedDispute d id (code_of dec).1 (default 0 (code_of dec).2)
      (block_number env) (block_to_year_month (block_number env) 14400)) /\
    closes (d, id) s s' /\
    forall env' origin' code' bps', DecisionOrigin cfg origin' = true ->
      dispatch cfg env' origin' (CArbitrate d id code' bps') s' = (Err (Module NotDisputed), s').
Proof.
  intros Hcfg Hrun Hr%transactional_Ok. pose proof (dispute_run_sound x s Hcfg Hrun) as [Ht _]. simpl in Hr.
  unfold arbitrate in Hr. dispute_inv Hr.
  all: match goal with Hd : decision_of _ _ _ = Some ?dec, Hx : close_dispute _ _ _ _ _ _ _ _ = (_, ?a) |- _ =>
    exists dec; pose proof (close_archives _ _ _ _ _ _ _ _ _ Hx) as Harch; apply close_closes in Hx as [Cd Ct Cp Ce [Pi Pr]]; [| done..] end.
  all: split_and!; [done | done | split; try done; split; unfold held_at_escrow in *; simpl; by rewrite ?notice_held |].
  all: intros env' origin' code' bps' Ho; unfold dispatch, transactional, apply_call, arbitrate, ensure_decision, ensure_disputed;
    rewrite run_ensure, run_bind, run_gets by done; simpl; rewrite Cd, run_ensure_not by set_solver; done.
Qed.
End Disputes.

(** * A concrete run

    Account 1 disputes deal 7; account 2 answers. *)

#[local] Existing Instances EscrowPallet.floor_permill EscrowPallet.floor_permill_laws.

Definition dispute_calls : list (Env * SimpleOrigin * Call) :=
  [(ArbitrationRules.arb_env 1, SignedBy 1%N, COpen ENTITY_ORDER 7 1);
   (ArbitrationRules.arb_env 2, SignedBy 2%N, CRespondDispute ENTITY_ORDER 7 2)].

Definition answered : State SimplePorts := ArbitrationRules.arb_play dispute_calls ArbitrationRules.arb_genesis.

Lemma dispute_play_steps calls (s : State SimplePorts) :
  rtc (step ArbitrationRules.arb_cfg) s (ArbitrationRules.arb_play calls s).
Proof.
  revert s. induction calls as [| [[env o] c] calls IH]; intros s; simpl; [done |].
  eapply rtc_l, IH. eapply (step_call ArbitrationRules.arb_cfg env o c). apply surjective_pairing.
Qed.

Lemma answered_reached : rtc (step ArbitrationRules.arb_cfg) ArbitrationRules.arb_genesis answered.
Proof. unfold answered. apply dispute_play_steps. Qed.

Definition answered_record : TwoWayDepositRecord := mkDeposits 1%N 150 2%N (Some 150) 101 true.

Lemma answered_get : TwoWayDeposits answered !! (ENTITY_ORDER, 7) = Some answered_record.
Proof. vm_compute. reflexivity. Qed.

Lemma answered_unpaused : Paused answered = false.
Proof. vm_compute. reflexivity. Qed.

Lemma disputes_agree_and_are_backed_witness :
  tables_agree ArbitrationRules.arb_cfg answered /\
  msum (fun _ r => initiator_deposit r) (TwoWayDeposits answered) <= held_at_escrow DisputeInitiator answered /\
  msum (fun _ r => responded_with r) (TwoWayDeposits answered) <= held_at_escrow DisputeRespondent answered.
Proof.
  exact (disputes_agree_and_are_backed ArbitrationRules.arb_cfg _ answered ArbitrationRules.arb_cfg_ok answered_reached).
Defined.

Lemma respondent_settles_alone_witness :
  exists s' x1, settle_dispute (SignedBy 2%N : SimpleOrigin) ENTITY_ORDER 7 answered = (Ok tt, s') /\
    ~ (ENTITY_ORDER, 7) ∈ Disputed s' /\ others s' = (apply_decision ENTITY_ORDER 7 Release x1).2.
Proof.
  exact (respondent_settles_alone ArbitrationRules.arb_cfg _ answered (SignedBy 2%N : SimpleOrigin) ENTITY_ORDER 7 answered_record
    ArbitrationRules.arb_cfg_ok answered_reached answered_unpaused answered_get eq_refl eq_refl).
Defined.

Definition arbitrated : State SimplePorts :=
  (dispatch ArbitrationRules.arb_cfg (ArbitrationRules.arb_env 3) RootOrigin (CArbitrate ENTITY_ORDER 7 2 (Some 4000)) answered).2.

Lemma arbitrated_runs :
  dispatch ArbitrationRules.arb_cfg (ArbitrationRules.arb_env 3) RootOrigin (CArbitrate ENTITY_ORDER 7 2 (Some 4000)) answered =
  (Ok tt, arbitrated).
Proof. unfold arbitrated. apply returns. vm_compute. reflexivity. Qed.

Lemma arbitration_decides_once_witness :
  exists dec, decision_of ArbitrationRules.arb_cfg 2 (Some 4000) = Some dec /\
    ArchivedDisputes arbitrated !! NextArchivedId answered = Some (mkArchivedDispute ENTITY_ORDER 7 (code_of dec).1
      (default 0 (code_of dec).2) (block_number (ArbitrationRules.arb_env 3))
      (block_to_year_month (block_number (ArbitrationRules.arb_env 3)) 14400)) /\
    closes (ENTITY_ORDER, 7) answered arbitrated /\
    forall env' origin' code' bps', DecisionOrigin ArbitrationRules.arb_cfg origin' = true ->
      dispatch ArbitrationRules.arb_cfg env' origin' (CArbitrate ENTITY_ORDER 7 code' bps') arbitrated =
        (Err (Module NotDisputed), arbitrated).
Proof.
  exact (arbitration_decides_once ArbitrationRules.arb_cfg _ answered (ArbitrationRules.arb_env 3) RootOrigin ENTITY_ORDER 7 2
    (Some 4000) arbitrated ArbitrationRules.arb_cfg_ok answered_reached arbitrated_runs).
Defined.
End ArbitrationDisputes.
