(* ===== verification/HoldCurrency.v ===== *)
(** Currencies with amounts on hold: the operations of [fungible::MutateHold] the
    arbitration pallet uses, beside the transfers of Frame.v, their documented laws, and a
    bank that satisfies them. *)

From S2P Require Import Prelude Frame Escrow Arbitration.

Module Holding.

(** * Money on hold beside free balances *)

(** [fungible::MutateHold]: what is on hold is not free. *)
Class HoldCurrency (L : Type) `{TransferCurrency L} : Type := {
  held (r : HoldReason) (who : AccountId) (l : L) : Z;
  hold_funds (r : HoldReason) (who : AccountId) (v : Z) (l : L) : option L;
  release_funds (r : HoldReason) (who : AccountId) (v : Z) (exact : bool) (l : L) : option L;
  transfer_held_funds (r : HoldReason) (from to : AccountId) (v : Z) (force : bool) (l : L) : option L;
}.

Definition at_account (who : AccountId) (v : Z) (x : AccountId) : Z := if decide (x = who) then v else 0.

Class HoldCurrencyLaws (L : Type) `{HoldCurrency L} : Prop := {
  held_nonneg : forall r x l, 0 <= held r x l;
  transfer_keeps_held : forall a b v ex l l' r x, transfer a b v ex l = Some l' -> held r x l' = held r x l;
  hold_funds_held : forall r who v l l' r' x, 0 <= v -> hold_funds r who v l = Some l' ->
    held r' x l' = held r' x l + at_hold r who v r' x;
  hold_funds_elsewhere : forall r who v l l' r' x, hold_funds r who v l = Some l' -> r' <> r -> held r' x l' = held r' x l;
  hold_funds_balance : forall r who v l l' x, 0 <= v -> hold_funds r who v l = Some l' ->
    balance x l' = balance x l - at_account who v x;
  release_funds_held : forall r who v ex l l' r' x, 0 <= v -> release_funds r who v ex l = Some l' ->
    held r' x l' = held r' x l - at_hold r who (Z.min v (held r who l)) r' x;
  release_funds_elsewhere : forall r who v ex l l' r' x, release_funds r who v ex l = Some l' -> r' <> r ->
    held r' x l' = held r' x l;
  release_funds_balance : forall r who v ex l l' x, 0 <= v -> release_funds r who v ex l = Some l' ->
    balance x l' = balance x l + at_account who (Z.min v (held r who l)) x;
  release_funds_exact : forall r who v l l', release_funds r who v true l = Some l' -> v <= held r who l;
  release_funds_succeeds : forall r who v l, v <= held r who l -> is_Some (release_funds r who v true l);
  transfer_held_held : forall r from to v f l l' r' x, 0 <= v -> transfer_held_funds r from to v f l = Some l' ->
    held r' x l' = held r' x l - at_hold r from (Z.min v (held r from l)) r' x;
  transfer_held_elsewhere : forall r from to v f l l' r' x, transfer_held_funds r from to v f l = Some l' -> r' <> r ->
    held r' x l' = held r' x l;
  transfer_held_balance : forall r from to v f l l' x, 0 <= v -> transfer_held_funds r from to v f l = Some l' ->
    balance x l' = balance x l + at_account to (Z.min v (held r from l)) x;
}.

(** * A concrete bank with holds

    Per account the free balance and one amount on hold for each reason, which together
    never exceed a u128. *)

Record Purse : Type := mkPurse { cash : Z; hold_of : HoldReason -> Z }.

Definition total_of (p : Purse) : Z :=
  cash p + hold_of p DisputeInitiator + hold_of p DisputeRespondent + hold_of p ComplaintDeposit.

Definition valid (p : Purse) : Prop :=
  0 <= cash p /\ (forall r, 0 <= hold_of p r) /\ total_of p <= u128_max.

Definition empty_purse : Purse := mkPurse 0 (fun _ => 0).

Definition validb (p : Purse) : bool :=
  bool_decide (0 <= cash p /\ 0 <= hold_of p DisputeInitiator /\ 0 <= hold_of p DisputeRespondent /\
    0 <= hold_of p ComplaintDeposit /\ total_of p <= u128_max).

(** Bad entries count as empty. *)
Definition purse (l : gmap AccountId Purse) (x : AccountId) : Purse :=
  let p := default empty_purse (l !! x) in if validb p then p else empty_purse.

Definition put_purse (x : AccountId) (p : Purse) (l : gmap AccountId Purse) : gmap AccountId Purse := <[x := p]> l.

Definition change (p : Purse) (dc : Z) (r : HoldReason) (dh : Z) : Purse :=
  mkPurse (cash p + dc) (fun r' => if decide (r' = r) then hold_of p r + dh else hold_of p r').

Definition paying (p : Purse) (dc : Z) : Purse := mkPurse (cash p + dc) (hold_of p).

Lemma validb_spec p : validb p = true <-> valid p.
Proof.
  unfold validb, valid. rewrite bool_decide_eq_true. split; [intros (?&?&?&?&?); split_and!; [done | intros [] | done]; done |].
  intros (? & Hr & ?). split_and!; try done; apply Hr.
Qed.

Lemma purse_valid l x : valid (purse l x).
Proof.
  unfold purse. destruct (validb _) eqn:Hv; [by apply validb_spec |]. split_and!; [done | intros []; done | done].
Qed.

Lemma purse_put l x p y : valid p -> purse (put_purse x p l) y = if decide (x = y) then p else purse l y.
Proof.
  intros Hp. unfold purse, put_purse. rewrite lookup_insert. case_decide; [| done]. simpl.
  apply validb_spec in Hp. by rewrite Hp.
Qed.

#[export] Instance hold_bank : TransferCurrency (gmap AccountId Purse) := {|
  balance x l := cash (purse l x);
  minimum_balance := 5;
  transfer from to v ex l :=
    let rest := cash (purse l from) - v in
    if decide (from = to \/ v = 0) then Some l
    else if decide (v < 0 \/ rest < 0 \/ cash (purse l to) + v < 5 \/ total_of (purse l to) + v > u128_max) then None
    else if decide (5 <= rest) then
      Some (put_purse to (paying (purse l to) v) (put_purse from (paying (purse l from) (- v)) l))
    else match ex with
         | AllowDeath => Some (put_purse to (paying (purse l to) v) (put_purse from (paying (purse l from) (- cash (purse l from))) l))
         | KeepAlive => None
         end;
|}.

Lemma paying_valid p dc : valid p -> 0 <= cash p + dc -> total_of p + dc <= u128_max -> valid (paying p dc).
Proof. intros (Hc & Hh & Ht) H1 H2. unfold valid, paying, total_of in *. simpl in *. split_and!; [lia | done | lia]. Qed.

Lemma hold_bank_transfer a b v ex l l' :
  transfer a b v ex l = Some l' ->
  ((a = b \/ v = 0) /\ l' = l) \/
  (a <> b /\ v <= cash (purse l a) /\ exists r,
    (r = cash (purse l a) - v \/ (ex = AllowDeath /\ cash (purse l a) - v < 5 /\ r = 0)) /\
    forall x, cash (purse l' x) = (if decide (b = x) then cash (purse l b) + v else if decide (a = x) then r else cash (purse l x)) /\
      hold_of (purse l' x) = hold_of (purse l x)).
Proof.
  pose proof (purse_valid l a) as Ha. pose proof (purse_valid l b) as Hb.
  simpl. case_decide as Hnop; [intros [= <-]; auto |].
  case_decide as Hbad; [done |]. intros Hl'. right. split; [intros ->; apply Hnop; by left | split; [lia |]].
  assert (a <> b) as Hab by tauto.
  assert (forall dc, 0 <= cash (purse l a) + dc -> dc <= 0 -> forall x,
    cash (purse (put_purse b (paying (purse l b) v) (put_purse a (paying (purse l a) dc) l)) x) =
      (if decide (b = x) then cash (purse l b) + v else if decide (a = x) then cash (purse l a) + dc else cash (purse l x)) /\
    hold_of (purse (put_purse b (paying (purse l b) v) (put_purse a (paying (purse l a) dc) l)) x) = hold_of (purse l x)) as Hput.
  { intros dc Hdc Hneg x. rewrite !purse_put.
    - repeat case_decide; subst; done.
    - apply paying_valid; [done | done |]. destruct Ha as (_ & _ & ?). lia.
    - apply paying_valid; [done | destruct Hb; lia | lia]. }
  case_decide; [| destruct ex; [done |]]; injection Hl' as <-.
  - exists (cash (purse l a) - v). split; [auto |]. intros x. destruct (Hput (- v)) with (x := x) as [-> ->]; [lia.. |].
    split; [| done]. by rewrite Z.add_opp_r.
  - exists 0. split; [right; split_and!; [done | lia | done] |]. intros x.
    destruct (Hput (- cash (purse l a))) with (x := x) as [-> ->]; [destruct Ha; lia.. |]. split; [| done].
    by rewrite Z.add_opp_diag_r.
Qed.

#[export] Instance hold_bank_laws : TransferCurrencyLaws (gmap AccountId Purse).
Proof.
  split.
  - intros x l. apply (purse_valid l x).
  - intros x l. destruct (purse_valid l x) as (_ & Hh & Ht). simpl. unfold total_of in Ht.
    pose proof (Hh DisputeInitiator). pose proof (Hh DisputeRespondent). pose proof (Hh ComplaintDeposit). lia.
  - done.
  - intros a v ex l l' x [[_ ->] | [? _]]%hold_bank_transfer; done.
  - intros a b v ex l l' Hne Hv [[[? | ->] ->] | (_ & _ & r & _ & Hx)]%hold_bank_transfer; simpl; [done | lia |].
    rewrite (proj1 (Hx b)), decide_True by done. done.
  - intros a b v ex l l' x Ha Hb [[_ ->] | (_ & _ & r & _ & Hx)]%hold_bank_transfer; [done |].
    simpl. by rewrite (proj1 (Hx x)), !decide_False.
  - intros a b v ex l l' Hne Hv Ht. pose proof (purse_valid l a) as [Hc _]. simpl.
    apply hold_bank_transfer in Ht as [[[? | ->] ->] | (_ & Hle & r & Hr & Hx)]; [done | lia |].
    rewrite (proj1 (Hx a)), decide_False, decide_True by done. split; [done |].
    destruct Hr as [-> | Hr]; [by left | by right].
Qed.

(** Moves [v] between the free balance of [who] and what it has on hold. *)
Definition shift (r : HoldReason) (who : AccountId) (v : Z) (l : gmap AccountId Purse) : gmap AccountId Purse :=
  put_purse who (change (purse l who) (- v) r v) l.

Definition take_held (r : HoldReason) (from to : AccountId) (v : Z) (l : gmap AccountId Purse) : option (gmap AccountId Purse) :=
  let taken := Z.min v (hold_of (purse l from) r) in
  if decide (from = to) then Some (shift r from (- taken) l)
  else if decide (total_of (purse l to) + taken > u128_max) then None
  else Some (put_purse to (paying (purse l to) taken) (put_purse from (change (purse l from) 0 r (- taken)) l)).

#[export] Instance hold_bank_holds : HoldCurrency (gmap AccountId Purse) := {|
  held r who l := hold_of (purse l who) r;
  hold_funds r who v l := if decide (0 <= v <= cash (purse l who)) then Some (shift r who v l) else None;
  release_funds r who v ex l :=
    if decide (v < 0) then Some l
    else if decide (ex = true /\ v > hold_of (purse l who) r) then None
    else Some (shift r who (- Z.min v (hold_of (purse l who) r)) l);
  transfer_held_funds r from to v f l := if decide (v < 0) then None else take_held r from to v l;
|}.

Lemma change_valid p dc r dh : valid p -> 0 <= cash p + dc -> 0 <= hold_of p r + dh -> dc + dh <= 0 -> valid (change p dc r dh).
Proof.
  intros (Hc & Hh & Ht) H1 H2 H3. unfold valid, change, total_of in *. simpl in *.
  split_and!; [done | intros r'; case_decide; [done | apply Hh] | destruct r; simpl; lia].
Qed.

Lemma shift_purse r who v l x : - hold_of (purse l who) r <= v <= cash (purse l who) ->
  cash (purse (shift r who v l) x) = cash (purse l x) - at_account who v x /\
  forall r', hold_of (purse (shift r who v l) x) r' = hold_of (purse l x) r' + at_hold r who v r' x.
Proof.
  intros Hv. unfold shift, at_account, at_hold. rewrite purse_put by (apply change_valid; [apply purse_valid | lia..]).
  split; [repeat case_decide; subst; simpl; try done; lia |]. intros r'.
  repeat case_decide; simplify_eq; simpl; repeat case_decide; simplify_eq; try lia; tauto || naive_solver lia.
Qed.

Lemma take_held_purse r from to v l l' x : 0 <= v -> take_held r from to v l = Some l' ->
  let taken := Z.min v (hold_of (purse l from) r) in
  cash (purse l' x) = cash (purse l x) + at_account to taken x /\
  forall r', hold_of (purse l' x) r' = hold_of (purse l x) r' - at_hold r from taken r' x.
Proof.
  intros Hv. destruct (purse_valid l from) as (Hc & Hh & Ht). pose proof (Hh r) as Hhr. unfold take_held. cbv zeta.
  set (taken := Z.min v (hold_of (purse l from) r)). assert (0 <= taken <= hold_of (purse l from) r) as Htk by (unfold taken; lia).
  case_decide as Heq; [intros [= <-]; subst to |].
  { destruct (shift_purse r from (- taken) l x) as [Hx Hr]; [lia |]. rewrite Hx. split; [unfold at_account; case_decide; lia |].
    intros r'. rewrite Hr. unfold at_hold. case_decide; lia. }
  case_decide; [done |]. intros [= <-].
  rewrite purse_put; [rewrite purse_put |].
  - unfold at_account, at_hold. split; [repeat case_decide; simplify_eq; simpl; lia |]. intros r'.
    repeat case_decide; simplify_eq; simpl; repeat case_decide; simplify_eq; try lia; tauto || naive_solver lia.
  - apply change_valid; [apply purse_valid | lia..].
  - apply paying_valid; [apply purse_valid | destruct (purse_valid l to); lia | lia].
Qed.

#[export] Instance hold_bank_holds_laws : HoldCurrencyLaws (gmap AccountId Purse).
Proof.
  split; simpl.
  - intros r x l. apply (purse_valid l x).
  - intros a b v ex l l' r x [[_ ->] | (_ & _ & r1 & _ & Hx)]%hold_bank_transfer; [done |]. by rewrite (proj2 (Hx x)).
  - intros r who v l l' r' x Hv. case_decide; [intros [= <-] | done].
    pose proof (proj1 (proj2 (purse_valid l who)) r). apply shift_purse. lia.
  - intros r who v l l' r' x. case_decide; [intros [= <-] Hr | done]. pose proof (proj1 (proj2 (purse_valid l who)) r).
    rewrite (proj2 (shift_purse r who v l x ltac:(lia))). unfold at_hold. rewrite decide_False by tauto. lia.
  - intros r who v l l' x Hv. case_decide; [intros [= <-] | done].
    pose proof (proj1 (proj2 (purse_valid l who)) r). apply shift_purse. lia.
  - intros r who v ex l l' r' x Hv. rewrite decide_False by lia. case_decide; [done |]. intros [= <-].
    pose proof (proj1 (proj2 (purse_valid l who)) r). pose proof (proj1 (purse_valid l who)).
    rewrite (proj2 (shift_purse r who (- Z.min v (hold_of (purse l who) r)) l x ltac:(lia))). unfold at_hold. case_decide; lia.
  - intros r who v ex l l' r' x. case_decide; [by intros [= <-] |]. case_decide; [done |]. intros [= <-] Hr.
    pose proof (proj1 (proj2 (purse_valid l who)) r). pose proof (proj1 (purse_valid l who)).
    rewrite (proj2 (shift_purse r who (- Z.min v (hold_of (purse l who) r)) l x ltac:(lia))). unfold at_hold. rewrite decide_False by tauto. lia.
  - intros r who v ex l l' x Hv. rewrite decide_False by lia. case_decide; [done |]. intros [= <-].
    pose proof (proj1 (proj2 (purse_valid l who)) r). pose proof (proj1 (purse_valid l who)).
    rewrite (proj1 (shift_purse r who (- Z.min v (hold_of (purse l who) r)) l x ltac:(lia))). unfold at_account. case_decide; lia.
  - intros r who v l l'. pose proof (proj1 (proj2 (purse_valid l who)) r). case_decide; [intros; lia |]. case_decide; [done | lia].
  - intros r who v l Hv. case_decide; [eauto |]. rewrite decide_False by lia. eauto.
  - intros r from to v f l l' r' x Hv. rewrite decide_False by lia. intros Ht. by apply (take_held_purse _ _ _ _ _ _ x Hv Ht).
  - intros r from to v f l l' r' x. case_decide; [done |]. intros Ht Hr.
    rewrite (proj2 (take_held_purse r from to v l l' x ltac:(lia) Ht)). unfold at_hold. rewrite decide_False by tauto. lia.
  - intros r from to v f l l' x Hv. rewrite decide_False by lia. intros Ht. by apply (take_held_purse _ _ _ _ _ _ x Hv Ht).
Qed.
End Holding.
