(* ===== verification/ArbitrationEscrow.v ===== *)
(** Arbitration over the escrow pallet, as the runtime connects them
    (src/runtime/src/configs/mod.rs): the router turns a decision on an order into a
    release, a refund or a split of what the escrow has locked for it. The composition
    satisfies the laws the arbitration pallet assumes, and shows who pays for a slash. *)

From S2P Require Import Prelude Frame Escrow EscrowSolvency Arbitration HoldCurrency ArbitrationRules ArbitrationDisputes.

Module ArbitrationEscrow.
Import Arbitration Holding.
#[local] Existing Instance EscrowPallet.eta_state.

(** What the order pallet answers ([OrderProvider]), and the other ports; [W] is the
    state behind them. *)
Class OrderQueries (W : Type) : Type := {
  order_buyer (id : Z) (w : W) : option AccountId;
  order_seller (id : Z) (w : W) : option AccountId;
  order_amount (id : Z) (w : W) : option Z;
  order_can_dispute (id : Z) (who : AccountId) (w : W) : bool;
  world_evidence_exists (id : Z) (w : W) : bool;
  world_rate (w : W) : option Z;
  world_pin (who : AccountId) (id : Z) (cid : bytes) (w : W) : W;
  world_lock_cid (cid_hash : N) (reason : bytes) (w : W) : option W;
  world_unlock_cid (cid_hash : N) (reason : bytes) (w : W) : W;
  world_notice (to : AccountId) (notice : bytes) (w : W) : W;
}.

Class OrderQueriesLaws (W : Type) `{OrderQueries W} : Prop := {
  order_amount_nonneg : forall id w v, order_amount id w = Some v -> 0 <= v;
}.

Section Runtime.
Context `{FrameSystem} {L W : Type} `{HoldCurrency L} `{OrderQueries W} `{EscrowPallet.PermillOps}.
Context (ecfg : EscrowPallet.Config L) (treasury : AccountId) (other_amount : Z).

(** The state of the escrow pallet and of the world. *)
Definition Joint : Type := EscrowPallet.State L * W.

Definition with_ledger (op : L -> option L) (j : Joint) : option Joint :=
  match op (EscrowPallet.ledger j.1) with
  | Some l => Some (j.1 <| EscrowPallet.ledger := l |>, j.2)
  | None => None
  end.

(** ** [UnifiedArbitrationRouter] *)

Definition router_can_dispute (d : bytes) (who : AccountId) (id : Z) (j : Joint) : bool :=
  if decide (d = ENTITY_ORDER) then order_can_dispute id who j.2 else false.

(** [set_resolved] may fail; the settlement decides. *)
Definition settle_order (id : Z) (buyer seller : AccountId) (dec : Decision) :
    M (EscrowPallet.State L) (DispatchError EscrowPallet.Error) unit :=
  attempt (EscrowPallet.set_resolved id) >>
  match dec with
  | Release => EscrowPallet.release_all ecfg id seller
  | Refund => EscrowPallet.refund_all ecfg id buyer
  | Partial bps => EscrowPallet.split_partial ecfg id seller buyer bps
  end.

Definition router_apply_decision (d : bytes) (id : Z) (dec : Decision) (j : Joint) : bool * Joint :=
  if decide (d = ENTITY_ORDER) then
    match order_buyer id j.2, order_seller id j.2 with
    | Some buyer, Some seller =>
        match settle_order id buyer seller dec j.1 with
        | (Ok _, e) => (true, (e, j.2))
        | (Err _, e) => (false, (e, j.2))
        end
    | _, _ => (false, j)
    end
  else (true, j).

Definition router_get_counterparty (d : bytes) (initiator : AccountId) (id : Z) (j : Joint) : option AccountId :=
  if decide (d = ENTITY_ORDER) then
    buyer ← order_buyer id j.2;
    seller ← order_seller id j.2;
    if decide (initiator = buyer) then Some seller
    else if decide (initiator = seller) then Some buyer else None
  else Some treasury.

Definition router_get_order_amount (d : bytes) (id : Z) (j : Joint) : option Z :=
  if decide (d = ENTITY_ORDER) then order_amount id j.2 else Some other_amount.

#[export] Instance joint_ports : ArbitrationPorts Joint := {
  on_hold r who j := held r who (EscrowPallet.ledger j.1);
  hold r who v := with_ledger (hold_funds r who v);
  release_hold r who v ex := with_ledger (release_funds r who v ex);
  transfer_on_hold r from to v f := with_ledger (transfer_held_funds r from to v f);
  escrow_account_of := EscrowPallet.escrow_account ecfg;
  escrow_amount_of id j := EscrowPallet.amount_of j.1 id;
  can_dispute := router_can_dispute;
  apply_decision := router_apply_decision;
  get_counterparty := router_get_counterparty;
  get_order_amount := router_get_order_amount;
  evidence_exists id j := world_evidence_exists id j.2;
  get_nex_to_usd_rate j := world_rate j.2;
  pin who id cid j := (j.1, world_pin who id cid j.2);
  lock_cid h reason j := match world_lock_cid h reason j.2 with Some w => Some (j.1, w) | None => None end;
  unlock_cid h reason j := (j.1, world_unlock_cid h reason j.2);
  send_notice to n j := (j.1, world_notice to n j.2);
}.

(** ** The laws hold *)

Context `{!HoldCurrencyLaws L, !OrderQueriesLaws W} (Hother : 0 <= other_amount).

(** The escrow pallet only transfers, and a transfer leaves what is on hold. *)
Definition holds_as (l : L) (e : EscrowPallet.State L) : Prop :=
  forall r x, held r x (EscrowPallet.ledger e) = held r x l.

Lemma pay_holds l from to v ex err : kept (holds_as l) (EscrowPallet.pay from to v ex err).
Proof.
  unfold EscrowPallet.pay. apply kept_gets_bind. intros e res e' Hl Hr. unfold bind, ok_or in Hr.
  destruct (transfer from to v ex (EscrowPallet.ledger e)) as [l' |] eqn:Ht.
  - injection Hr as _ <-. intros r x. simpl. by rewrite (transfer_keeps_held _ _ _ _ _ _ _ _ Ht).
  - by injection Hr as _ <-.
Qed.

Ltac holds_tac := repeat first [ apply pay_holds | kept_step ltac:(intros ? Hq; exact Hq) ].

Lemma unschedule_holds l id : kept (holds_as l) (EscrowPallet.remove_expiry_schedule id).
Proof.
  apply kept_modify. intros e He r x. rewrite <- (He r x). unfold EscrowPallet.unschedule. by case_match.
Qed.

Lemma settle_order_holds l id buyer seller dec : kept (holds_as l) (settle_order id buyer seller dec).
Proof.
  unfold settle_order, EscrowPallet.set_resolved, EscrowPallet.release_all, EscrowPallet.refund_all, EscrowPallet.settle_all,
    EscrowPallet.split_partial, EscrowPallet.pay_shares, EscrowPallet.take_locked, EscrowPallet.ensure_open, EscrowPallet.close,
    EscrowPallet.deposit_event, EscrowPallet.notify.
  repeat first [ apply pay_holds | apply unschedule_holds | kept_step ltac:(intros ? Hq; exact Hq) ].
Qed.

Lemma with_ledger_inv op j j' : with_ledger op j = Some j' ->
  exists l, op (EscrowPallet.ledger j.1) = Some l /\ EscrowPallet.ledger j'.1 = l /\ j'.2 = j.2 /\
    EscrowPallet.Locked j'.1 = EscrowPallet.Locked j.1.
Proof. unfold with_ledger. case_match; [intros [= <-]; eauto | done]. Qed.

#[export] Instance joint_ports_laws : ArbitrationPortsLaws Joint.
Proof.
  split; simpl.
  - intros. apply held_nonneg.
  - intros r who v j j' r' y Hv (l & Hl & -> & _)%with_ledger_inv. by apply hold_funds_held.
  - intros r who v ex j j' r' y Hv (l & Hl & -> & _)%with_ledger_inv. by eapply release_funds_held.
  - intros r who v j j' r' y (l & Hl & -> & _)%with_ledger_inv Hr. by eapply hold_funds_elsewhere.
  - intros r who v ex j j' r' y (l & Hl & -> & _)%with_ledger_inv Hr. by eapply release_funds_elsewhere.
  - intros r from to v f j j' r' y (l & Hl & -> & _)%with_ledger_inv Hr. by eapply transfer_held_elsewhere.
  - intros r who v j j' (l & Hl & _)%with_ledger_inv. by eapply release_funds_exact.
  - intros r from to v f j j' r' y Hv (l & Hl & -> & _)%with_ledger_inv. by eapply transfer_held_held.
  - intros r who v j Hv. destruct (release_funds_succeeds r who v _ Hv) as [l Hl]. unfold with_ledger. rewrite Hl. eauto.
  - intros d id j v. unfold router_get_order_amount. case_decide; [apply order_amount_nonneg | by intros [= <-]].
  - intros d id dec j r y. unfold router_apply_decision. case_decide; [| done].
    destruct (order_buyer id j.2) as [buyer |]; [| done]. destruct (order_seller id j.2) as [seller |]; [| done].
    pose proof (settle_order_holds (EscrowPallet.ledger j.1) id buyer seller dec j.1) as Hs.
    destruct (settle_order id buyer seller dec j.1) as [[? | ?] e]; simpl; by eapply Hs.
  - done.
  - intros h reason j j' r y. case_match; [by intros [= <-] | done].
  - done.
  - done.
Qed.

(** * Who pays for a slash *)

Context `{!TransferCurrencyLaws L, !EscrowPallet.PermillLaws}.

(** What the escrow's account has, on hold for a dispute or not, beyond what is locked. *)
Definition surplus (j : Joint) : Z :=
  let escrow := EscrowPallet.escrow_account ecfg in
  balance escrow (EscrowPallet.ledger j.1) + held DisputeInitiator escrow (EscrowPallet.ledger j.1) +
  held DisputeRespondent escrow (EscrowPallet.ledger j.1) - total_locked j.1.

Abbreviation escrow := (EscrowPallet.escrow_account ecfg).

(** A release pays out what it takes off the books, or loses the dust with it. *)
Lemma release_all_surplus id to e w u e' :
  0 <= EscrowPallet.amount_of e id -> to <> escrow ->
  EscrowPallet.release_all ecfg id to e = (Ok u, e') -> surplus (e', w) <= surplus (e, w).
Proof.
  intros Hpos Hto Hr.
  unfold EscrowPallet.release_all, EscrowPallet.settle_all, EscrowPallet.ensure_open, EscrowPallet.take_locked,
    EscrowPallet.pay, EscrowPallet.close, EscrowPallet.remove_expiry_schedule, EscrowPallet.deposit_event,
    EscrowPallet.notify in Hr. m_inv. simpl in *.
  match goal with Hp : transfer escrow to _ _ _ = Some _, Hn : EscrowPallet.amount_of e id <> 0 |- _ =>
    rename Hp into Hpaid, Hn into Hsome end.
  assert (forall r x, held r x _ = held r x _) as Hheld by (intros r x; exact (transfer_keeps_held _ _ _ _ _ _ r x Hpaid)).
  destruct (transfer_from _ _ _ _ _ _ (not_eq_sym Hto) Hpos Hpaid) as [Hle Hrest].
  unfold surplus, total_locked, EscrowPallet.unschedule, EscrowPallet.amount_of, get0 in *. simpl in *.
  destruct (EscrowPallet.Locked e !! id) as [v |] eqn:Hv; [| done]. simpl in *.
  case_match; simpl; rewrite !Hheld, msum_delete, Hv; simpl; lia.
Qed.

Lemma set_resolved_surplus id e res e' w : attempt (EscrowPallet.set_resolved id) e = (res, e') ->
  surplus (e', w) = surplus (e, w) /\ EscrowPallet.Locked e' = EscrowPallet.Locked e.
Proof.
  unfold EscrowPallet.set_resolved. intros [(? & _ & Hr) | (? & _ & Hr)]%attempt_inv; [m_inv | m_err]; done.
Qed.

(** The operations on deposits: releasing one keeps the surplus, slashing one loses it. *)
Lemma release_surplus r v ex j j' :
  r <> ComplaintDeposit -> 0 <= v -> with_ledger (release_funds r escrow v ex) j = Some j' -> surplus j' = surplus j.
Proof.
  intros Hr Hv (l & Hl & Hj & _ & Hk)%with_ledger_inv. unfold surplus, total_locked. rewrite Hj, Hk.
  rewrite (release_funds_balance _ _ _ _ _ _ _ Hv Hl), !(release_funds_held _ _ _ _ _ _ _ _ Hv Hl).
  unfold at_account, at_hold. rewrite decide_True by done. destruct r; repeat case_decide; try tauto; try lia;
    naive_solver lia.
Qed.

Lemma slash_surplus r to v f j j' :
  r <> ComplaintDeposit -> 0 <= v -> to <> escrow -> with_ledger (transfer_held_funds r escrow to v f) j = Some j' ->
  v <= held r escrow (EscrowPallet.ledger j.1) -> surplus j' = surplus j - v.
Proof.
  intros Hr Hv Hto (l & Hl & Hj & _ & Hk)%with_ledger_inv Hheld. unfold surplus, total_locked. rewrite Hj, Hk.
  rewrite (transfer_held_balance _ _ _ _ _ _ _ _ Hv Hl), !(transfer_held_held _ _ _ _ _ _ _ _ _ Hv Hl).
  unfold at_account, at_hold. rewrite decide_False by congruence. rewrite Z.min_l by done.
  destruct r; repeat case_decide; try tauto; try lia; naive_solver lia.
Qed.

(** ** The deposits of a dispute *)

Context (acfg : Config).
Implicit Types (s : State Joint).

Lemma port_run op err s u s' : with_port op err s = (Ok u, s') ->
  exists j, op (others s) = Some j /\ others s' = j /\ TwoWayDeposits s' = TwoWayDeposits s.
Proof. unfold with_port. intros Hr. m_inv. eauto. Qed.

Lemma release_deposit_surplus v r d id s u s' :
  r <> ComplaintDeposit -> 0 <= v -> release_deposit (X:=Joint) escrow v r d id s = (Ok u, s') ->
  surplus (others s') = surplus (others s).
Proof.
  intros Hr Hv Hrun. unfold release_deposit, deposit_event in Hrun. m_inv. simpl.
  match goal with Hp : with_port _ _ _ = _ |- _ => apply port_run in Hp as (j & Hj & -> & _) end.
  eapply release_surplus, Hj; done.
Qed.

Lemma slash_surplus_run v bps r d id s u s' :
  r <> ComplaintDeposit -> 0 <= bps -> 0 <= v -> TreasuryAccount acfg <> escrow ->
  v <= held r escrow (EscrowPallet.ledger (others s).1) ->
  slash_and_release (X:=Joint) escrow v bps r (TreasuryAccount acfg) d id s = (Ok u, s') ->
  surplus (others s') = surplus (others s) - share_of bps v.
Proof.
  intros Hr Hb Hv Ht Hheld Hrun. destruct (ArbitrationRules.share_bounds bps v Hb Hv) as [Hs0 Hsv].
  unfold slash_and_release in Hrun. apply bind_Ok in Hrun as ([] & s1 & Hcut & Hrun).
  apply bind_Ok in Hrun as ([] & s2 & Hrel & Hrun). injection Hrun as _ <-. simpl.
  assert (surplus (others s1) = surplus (others s) - share_of bps v) as <-.
  { destruct (decide (share_of bps v = 0)) as [Hz | Hz]; [apply ret_inv in Hcut as [_ ->]; lia |].
    apply port_run in Hcut as (j & Hj & -> & _). eapply slash_surplus; [exact Hr | done | exact Ht | exact Hj | lia]. }
  destruct (decide (sat_sub v (share_of bps v) = 0)); [by apply ret_inv in Hrel as [_ ->] |].
  apply port_run in Hrel as (j & Hj & -> & _). eapply release_surplus, Hj; [done | unfold sat_sub; lia].
Qed.

(** The router pays the seller out of what is locked. *)
Lemma route_release_surplus id seller s u s' :
  0 <= EscrowPallet.amount_of (others s).1 id -> order_seller id (others s).2 = Some seller -> seller <> escrow ->
  route (X:=Joint) ENTITY_ORDER id Release s = (Ok u, s') -> surplus (others s') <= surplus (others s).
Proof.
  intros Hpos Hseller Hne Hr. unfold route in Hr. m_inv. simpl.
  match goal with Hok : (router_apply_decision _ _ _ _).1 = true |- _ => rename Hok into Hrouted end.
  revert Hrouted. unfold router_apply_decision. rewrite decide_True by done. rewrite Hseller.
  destruct (order_buyer id (others s).2) as [buyer |]; [| done].
  destruct (settle_order id buyer seller Release (others s).1) as [[v | err] e] eqn:Hs; [intros _; simpl | done].
  unfold settle_order in Hs. apply bind_Ok in Hs as (ok & e1 & Hres & Hrel).
  apply (set_resolved_surplus _ _ _ _ (others s).2) in Hres as [Hsame Hlocked].
  etrans; [eapply (release_all_surplus id seller e1); [| exact Hne | exact Hrel] |].
  - unfold EscrowPallet.amount_of in *. by rewrite Hlocked.
  - rewrite Hsame. destruct (others s). simpl. lia.
Qed.

(** Pins, locks and notices concern the world only. *)
Definition same_escrow s s' : Prop := (others s').1 = (others s).1.

Lemma same_escrow_surplus s s' : same_escrow s s' -> surplus (others s') = surplus (others s).
Proof. unfold same_escrow, surplus. by intros ->. Qed.

Lemma unlock_same d id s : kept (same_escrow s) (unlock_all_evidence_cids (X:=Joint) d id).
Proof. unfold unlock_all_evidence_cids, best_effort. repeat kept_step ltac:(intros ? Hq; exact Hq). Qed.

Lemma archive_same env d id code bps s : kept (same_escrow s) (no_longer_pending (X:=Joint) d id >> archive_and_cleanup env d id code bps).
Proof. unfold no_longer_pending, archive_and_cleanup. repeat (kept_step ltac:(intros ? Hq; exact Hq); cbv zeta). Qed.

Lemma respondent_release_surplus r d id s u s' : ArbitrationDisputes.fair_record r ->
  with_respondent (X:=Joint) r (fun v => release_deposit escrow v DisputeRespondent d id) s = (Ok u, s') ->
  surplus (others s') = surplus (others s).
Proof.
  intros (_ & H0i & Hresp) Hr. unfold with_respondent in Hr. rewrite Hresp in Hr.
  destruct (has_responded r); [by eapply release_deposit_surplus, Hr | by apply ret_inv in Hr as [_ ->]].
Qed.

Lemma close_release_surplus env id code bps r seller s u s' :
  ArbitrationRules.cfg_ok acfg -> ArbitrationDisputes.sound acfg s -> TwoWayDeposits s !! (ENTITY_ORDER, id) = Some r ->
  0 <= EscrowPallet.amount_of (others s).1 id -> order_seller id (others s).2 = Some seller ->
  seller <> escrow -> TreasuryAccount acfg <> escrow ->
  close_dispute (X:=Joint) acfg env ENTITY_ORDER id Release code bps s = (Ok u, s') ->
  surplus (others s') <= surplus (others s) - share_of (RejectedSlashBps acfg) (initiator_deposit r).
Proof.
  intros Hcfg Hsound Hk Hpos Hseller Hne Ht Hr. destruct (ArbitrationDisputes.deposit_there _ _ _ _ Hsound Hk) as [Hi _].
  pose proof (ArbitrationDisputes.ta_records _ _ (ArbitrationDisputes.sd_tables _ _ Hsound) _ _ Hk) as Hfair.
  unfold close_dispute in Hr.
  apply bind_Ok in Hr as ([] & s1 & H1r & Hr). apply bind_Ok in Hr as ([] & s2 & H2r & Hr).
  apply bind_Ok in Hr as ([] & s3 & H3r & Hr).
  pose proof (route_release_surplus _ _ _ _ _ Hpos Hseller Hne H1r) as Hroute.
  destruct (ArbitrationDisputes.still_route s ENTITY_ORDER id Release s _ s1 (ArbitrationDisputes.still_refl s) H1r)
    as [[= _ Htab _ _] Hstill].
  apply (unlock_same _ _ s2) in H3r; [| done]. apply (archive_same _ _ _ _ _ s3) in Hr; [| done].
  rewrite (same_escrow_surplus _ _ Hr), (same_escrow_surplus _ _ H3r). etrans; [| apply Z.sub_le_mono_r, Hroute].
  unfold handle_deposits_on_arbitration in H2r. rewrite run_gets, Htab, Hk, run_modify in H2r.
  unfold get_escrow_account in H2r. rewrite run_ret in H2r. cbv zeta in H2r.
  apply bind_Ok in H2r as ([] & s4 & Hslash & Hresp).
  rewrite (respondent_release_surplus _ _ _ _ _ _ Hfair Hresp).
  eapply slash_surplus_run in Hslash as ->; [simpl; lia | done | apply (ArbitrationRules.cfg_rejected _ Hcfg) |
    apply Hfair | done |].
  specialize (Hstill DisputeInitiator ltac:(done)). unfold ArbitrationDisputes.held_at_escrow in *. simpl in *. lia.
Qed.

(** C17: A verdict for the seller is paid by everybody whose money is in escrow: beside
    the price, which leaves together with its entry in the books, the escrow's account
    loses the slashed share of the initiator's deposit - that deposit was put on hold on
    the escrow's own account, never on the initiator's - so what the account has
    beyond everything locked falls by that share at least. *)
Theorem verdict_for_seller_costs_escrow x s env origin id bps r seller s' :
  ArbitrationRules.cfg_ok acfg -> rtc (ArbitrationDisputes.step acfg) (genesis (x : Joint)) s ->
  TwoWayDeposits s !! (ENTITY_ORDER, id) = Some r -> 0 <= EscrowPallet.amount_of (others s).1 id ->
  order_seller id (others s).2 = Some seller -> seller <> escrow -> TreasuryAccount acfg <> escrow ->
  dispatch acfg env origin (CArbitrate ENTITY_ORDER id 0 bps) s = (Ok tt, s') ->
  surplus (others s') <= surplus (others s) - share_of (RejectedSlashBps acfg) (initiator_deposit r).
Proof.
  intros Hcfg Hrun Hk Hpos Hseller Hne Ht Hr%transactional_Ok. simpl in Hr. unfold arbitrate, decision_of, ensure_decision,
    ensure_disputed, deposit_event, notify, best_effort in Hr. m_inv;
    match goal with Hx : close_dispute _ _ _ _ _ _ _ _ = (_, ?a) |- _ =>
      eapply close_release_surplus in Hx; [| done | by eapply ArbitrationDisputes.dispute_run_sound | done..];
      etrans; [| exact Hx] end; done.
Qed.
End Runtime.

(** * A concrete run

    The escrow's account 9 holds 1000 for order 7 and 500 for order 8, and the minimum
    balance of 5. Account 1 disputes order 7; the verdict is for the seller, account 2. *)

#[local] Existing Instances EscrowPallet.floor_permill EscrowPallet.floor_permill_laws.

(** Order 7, between accounts 1 and 2. *)
#[export] Instance simple_orders : OrderQueries unit := {
  order_buyer id _ := if decide (id = 7) then Some 1%N else None;
  order_seller id _ := if decide (id = 7) then Some 2%N else None;
  order_amount id _ := if decide (id = 7) then Some 1000 else None;
  order_can_dispute id who _ := bool_decide (id = 7 /\ (who = 1%N \/ who = 2%N));
  world_evidence_exists _ _ := true;
  world_rate _ := None;
  world_pin _ _ _ w := w;
  world_lock_cid _ _ w := Some w;
  world_unlock_cid _ _ w := w;
  world_notice _ _ w := w;
}.

#[export] Instance simple_orders_laws : OrderQueriesLaws unit.
Proof. split. simpl. intros id w v. case_decide; [by intros [= <-] | done]. Qed.

Definition bank : Type := gmap AccountId Purse.

Definition joint_escrow : EscrowPallet.Config bank := {|
  EscrowPallet.escrow_account := 9%N;
  EscrowPallet.AuthorizedOrigin o := bool_decide ((o : SimpleOrigin) = SignedBy 7);
  EscrowPallet.AdminOrigin o := ensure_root o;
  EscrowPallet.MaxExpiringPerBlock := 2;
  EscrowPallet.on_expire := EscrowPallet.default_on_expire;
  EscrowPallet.MaxDisputeDuration := 100;
|}.

Definition purse_with (v : Z) : Purse := mkPurse v (fun _ => 0).

Definition joint_start : Joint (L:=bank) (W:=unit) :=
  let e := EscrowPallet.genesis ({[9%N := purse_with 5; 1%N := purse_with 2000; 2%N := purse_with 100; 3%N := purse_with 2000;
    50%N := purse_with 100]} : bank) in
  let e := (EscrowPallet.lock_from joint_escrow 1%N 7 1000 e).2 in
  ((EscrowPallet.lock_from joint_escrow 3%N 8 500 e).2, tt).

#[local] Instance joint_demo_ports : ArbitrationPorts (Joint (L:=bank) (W:=unit)) := joint_ports joint_escrow 50%N 10.

Definition joint_opened : State (Joint (L:=bank) (W:=unit)) :=
  (dispatch ArbitrationRules.arb_cfg (ArbitrationRules.arb_env 1) (SignedBy 1%N) (COpen ENTITY_ORDER 7 1) (genesis joint_start)).2.

Definition joint_decided : State (Joint (L:=bank) (W:=unit)) :=
  (dispatch ArbitrationRules.arb_cfg (ArbitrationRules.arb_env 2) RootOrigin (CArbitrate ENTITY_ORDER 7 0 None) joint_opened).2.

(** After the verdict 460 are left for the 500 of order 8. *)
Example joint_shortfall :
  (surplus joint_escrow joint_start, surplus joint_escrow (others joint_opened), surplus joint_escrow (others joint_decided),
   balance 9%N (EscrowPallet.ledger (others joint_decided).1), EscrowPallet.amount_of (others joint_decided).1 8) =
  (5, 5, -40, 460, 500).
Proof. vm_compute. reflexivity. Qed.

Lemma joint_opened_reached : rtc (ArbitrationDisputes.step ArbitrationRules.arb_cfg) (genesis joint_start) joint_opened.
Proof.
  apply rtc_once. unfold joint_opened.
  eapply (ArbitrationDisputes.step_call ArbitrationRules.arb_cfg). apply surjective_pairing.
Qed.

Definition joint_record : TwoWayDepositRecord := mkDeposits 1%N 150 2%N None 101 false.

Lemma joint_record_get : TwoWayDeposits joint_opened !! (ENTITY_ORDER, 7) = Some joint_record.
Proof. vm_compute. reflexivity. Qed.

Lemma joint_amount : 0 <= EscrowPallet.amount_of (others joint_opened).1 7.
Proof. by vm_compute. Qed.

Lemma joint_seller : order_seller 7 (others joint_opened).2 = Some 2%N.
Proof. done. Qed.

Lemma joint_decides :
  dispatch ArbitrationRules.arb_cfg (ArbitrationRules.arb_env 2) RootOrigin (CArbitrate ENTITY_ORDER 7 0 None) joint_opened =
  (Ok tt, joint_decided).
Proof. unfold joint_decided. apply returns. vm_compute. reflexivity. Qed.

Lemma verdict_for_seller_costs_escrow_witness :
  surplus joint_escrow (others joint_decided) <= surplus joint_escrow (others joint_opened) -
    share_of (RejectedSlashBps ArbitrationRules.arb_cfg) (initiator_deposit joint_record).
Proof.
  refine (verdict_for_seller_costs_escrow joint_escrow 50%N 10 _ ArbitrationRules.arb_cfg joint_start joint_opened
    (ArbitrationRules.arb_env 2) RootOrigin 7 None joint_record 2%N joint_decided ArbitrationRules.arb_cfg_ok
    joint_opened_reached joint_record_get joint_amount joint_seller _ _ joint_decides); done.
Defined.
End ArbitrationEscrow.
