(* ===== verification/EntityPorts.v ===== *)
(** What the entity pallets promise each other
    (src/pallets/entity/common/src/traits): the registry of entities, their
    tokens, disclosure and identity checks. Each trait is a class over the state
    of the pallet behind it, the laws its clients use in a second class, with a
    small instance for concrete runs at the end. *)

From S2P Require Import Prelude Frame.

(** [EntityProvider], [DisclosureProvider], [KycProvider] and [PricingProvider]:
    what the market asks of the pallets that keep entities; [W] is their state. *)
Class EntityQueries (W : Type) : Type := {
  entity_exists (entity_id : Z) (w : W) : bool;
  is_entity_active (entity_id : Z) (w : W) : bool;
  entity_owner (entity_id : Z) (w : W) : option AccountId;
  is_entity_locked (entity_id : Z) (w : W) : bool;
  can_insider_trade (entity_id : Z) (who : AccountId) (w : W) : bool;
  is_penalty_active (entity_id : Z) (w : W) : bool;
  kyc_level (entity_id : Z) (who : AccountId) (w : W) : Z;
  get_nex_usdt_price (w : W) : Z;
}.

(** [EntityTokenProvider]: the part about holdings and reservations. [token_reserved]
    is the storage item behind them, which only the laws mention. *)
Class EntityTokens (T : Type) : Type := {
  is_token_enabled (entity_id : Z) (t : T) : bool;
  token_balance (entity_id : Z) (who : AccountId) (t : T) : Z;
  token_reserved (entity_id : Z) (who : AccountId) (t : T) : Z;
  token_reserve (entity_id : Z) (who : AccountId) (amount : Z) (t : T) : option T;
  token_unreserve (entity_id : Z) (who : AccountId) (amount : Z) (t : T) : T * Z;
  token_repatriate (entity_id : Z) (from to : AccountId) (amount : Z) (t : T) : option (T * Z);
}.

Class EntityTokensLaws (T : Type) `{EntityTokens T} : Prop := {
  token_reserved_nonneg : forall e x t, 0 <= token_reserved e x t;
  token_reserve_reserved : forall e who a t t' e' x, 0 <= a -> token_reserve e who a t = Some t' ->
    token_reserved e' x t' = token_reserved e' x t + (if decide (e' = e /\ x = who) then a else 0);
  token_reserve_balance : forall e who a t t' e' x, 0 <= a -> token_reserve e who a t = Some t' ->
    token_balance e' x t' = token_balance e' x t;
  token_unreserve_reserved : forall e who a t e' x, 0 <= a ->
    token_reserved e' x (token_unreserve e who a t).1 =
      token_reserved e' x t -
      (if decide (e' = e /\ x = who) then Z.min a (token_reserved e who t) else 0);
  token_unreserve_balance : forall e who a t e' x, 0 <= a ->
    token_balance e' x (token_unreserve e who a t).1 = token_balance e' x t;
  token_repatriate_moved : forall e a b v t t' moved, a <> b -> 0 <= v ->
    token_repatriate e a b v t = Some (t', moved) -> moved = Z.min v (token_reserved e a t);
  token_repatriate_reserved : forall e a b v t t' moved e' x, a <> b -> 0 <= v ->
    token_repatriate e a b v t = Some (t', moved) ->
    token_reserved e' x t' = token_reserved e' x t -
      (if decide (e' = e /\ x = a) then Z.min v (token_reserved e a t) else 0);
  token_repatriate_balance : forall e a b v t t' moved e' x, a <> b -> 0 <= v ->
    token_repatriate e a b v t = Some (t', moved) ->
    token_balance e' x t' = token_balance e' x t +
      (if decide (e' = e /\ x = b) then Z.min v (token_reserved e a t) else 0) -
      (if decide (e' = e /\ x = a) then Z.min v (token_reserved e a t) else 0);
}.

(** * Concrete instances *)

(** One owner for every entity, nothing restricted. *)
Record SimpleWorld : Type := mkSimpleWorld { sw_owner : AccountId }.

#[export] Instance simple_queries : EntityQueries SimpleWorld := {|
  entity_exists _ _ := true;
  is_entity_active _ _ := true;
  entity_owner _ w := Some (sw_owner w);
  is_entity_locked _ _ := false;
  can_insider_trade _ _ _ := true;
  is_penalty_active _ _ := false;
  kyc_level _ _ _ := 0;
  get_nex_usdt_price _ := 1000000;
|}.

(** Holdings and what is reserved of them. *)
Abbreviation SimpleTokens := (gmap (Z * AccountId) (N * N)).

Definition st_get (t : SimpleTokens) (e : Z) (x : AccountId) : N * N := default (0%N, 0%N) (t !! (e, x)).

#[export] Instance simple_tokens : EntityTokens SimpleTokens := {|
  is_token_enabled _ _ := true;
  token_balance e x t := Z.of_N (st_get t e x).1;
  token_reserved e x t := Z.of_N (st_get t e x).2;
  token_reserve e who a t :=
    let '(b, r) := st_get t e who in
    if decide (0 < a <= Z.of_N b - Z.of_N r) then Some (<[(e, who) := (b, (r + Z.to_N a)%N)]> t) else None;
  token_unreserve e who a t :=
    let '(b, r) := st_get t e who in
    let actual := N.min (Z.to_N a) r in
    (<[(e, who) := (b, (r - actual)%N)]> t, Z.of_N actual);
  token_repatriate e from to a t :=
    let '(b1, r1) := st_get t e from in
    let actual := N.min (Z.to_N a) r1 in
    if decide (actual <= b1)%N then
      let t1 := <[(e, from) := ((b1 - actual)%N, (r1 - actual)%N)]> t in
      let '(b2, r2) := st_get t1 e to in
      Some (<[(e, to) := ((b2 + actual)%N, r2)]> t1, Z.of_N actual)
    else None;
|}.

Lemma st_get_insert t e x v e' x' :
  st_get (<[(e, x) := v]> t) e' x' = if decide (e' = e /\ x' = x) then v else st_get t e' x'.
Proof.
  unfold st_get. rewrite lookup_insert. destruct (decide ((e, x) = (e', x'))) as [[= -> ->] | Hne].
  - by rewrite decide_True.
  - rewrite decide_False; [done |]. intros [-> ->]. done.
Qed.

#[export] Instance simple_tokens_laws : EntityTokensLaws SimpleTokens.
Proof.
  split; simpl; intros *; [lia | ..].
  1-2: intros Hv; destruct (st_get t e who) as [b r] eqn:Hwho; case_decide; intros [= <-];
    rewrite st_get_insert; case_decide as Hd; try (destruct Hd; subst; rewrite Hwho); simpl; lia.
  1-2: intros Hv; destruct (st_get t e who) as [b r] eqn:Hwho; simpl; rewrite st_get_insert;
    case_decide as Hd; try (destruct Hd; subst; rewrite Hwho); simpl; lia.
  all: intros Hne Hv; destruct (st_get t e a) as [b1 r1] eqn:Ha; case_decide; [| done];
    rewrite st_get_insert, decide_False by (intros [_ ?]; congruence);
    destruct (st_get t e b) as [b2 r2] eqn:Hb; intros [= <- <-]; simpl;
    rewrite ?st_get_insert; repeat case_decide;
    repeat match goal with Hd : _ /\ _ |- _ => destruct Hd end; subst; rewrite ?Ha, ?Hb; simpl;
    try done; try tauto; lia.
Qed.
