(* ===== verification/EntityMarket.v ===== *)
(** [pallet-entity-market] (src/pallets/entity/market/src): the order market on
    which the tokens of an entity are traded for the native currency. This file
    holds the data and storage (lib.rs), the price oracle (oracle.rs), the entry
    checks (risk.rs), the views of the book (orderbook.rs) and the matching
    engine (engine.rs); the calls are in MarketCalls.v. The theorems are in
    MarketFunds.v, MarketMatching.v and MarketOracle.v. *)

From S2P Require Import Prelude Frame EntityPorts.

Module Market.

Definition u16_max : Z := 65535.

(** [saturating_mul] of an unsigned type whose largest value is [top]. *)
Definition sat_mul (top a b : Z) : Z := Z.min top (a * b).

Inductive OrderSide : Type := Buy | Sell.

#[export] Instance order_side_eq_dec : EqDecision OrderSide.
Proof. solve_decision. Defined.

Inductive OrderType : Type := Limit | MarketOrder | ImmediateOrCancel | FillOrKill | PostOnly.

Inductive OrderStatus : Type := Open | PartiallyFilled | Filled | Cancelled | Expired.

#[export] Instance order_status_eq_dec : EqDecision OrderStatus.
Proof. solve_decision. Defined.

Record TradeOrder : Type := mkOrder {
  order_id : Z;
  entity_id : Z;
  maker : AccountId;
  side : OrderSide;
  order_type : OrderType;
  token_amount : Z;
  filled_amount : Z;
  price : Z;
  status : OrderStatus;
  created_at : Z;
  expires_at : Z;
}.

#[export] Instance eta_order : Settable TradeOrder := fun o =>
  mkOrder (order_id o) (entity_id o) (maker o) (side o) (order_type o) (token_amount o)
    (filled_amount o) (price o) (status o) (created_at o) (expires_at o).

Record MarketConfig : Type := mkMarketConfig {
  nex_enabled : bool;
  min_order_amount : Z;
  order_ttl : Z;
  paused : bool;
}.

#[export] Instance eta_market_config : Settable MarketConfig := fun c =>
  mkMarketConfig (nex_enabled c) (min_order_amount c) (order_ttl c) (paused c).

Definition default_market_config : MarketConfig := mkMarketConfig false 0 0 false.

Record MarketStats : Type := mkStats {
  total_orders : Z;
  total_trades : Z;
  total_volume_nex : Z;
}.

#[export] Instance eta_stats : Settable MarketStats := fun m =>
  mkStats (total_orders m) (total_trades m) (total_volume_nex m).

Definition default_stats : MarketStats := mkStats 0 0 0.

Record PriceLevel : Type := mkLevel {
  level_price : Z;
  total_amount : Z;
  order_count : Z;
}.

Record OrderBookDepth : Type := mkDepth {
  depth_entity : Z;
  asks : list PriceLevel;
  bids : list PriceLevel;
  best_ask : option Z;
  best_bid : option Z;
  spread : option Z;
  depth_block : Z;
}.

Record MarketSummary : Type := mkSummary {
  summary_ask : option Z;
  summary_bid : option Z;
  summary_last_price : option Z;
  total_ask_amount : Z;
  total_bid_amount : Z;
}.

Record PriceSnapshot : Type := mkSnapshot {
  cumulative_price : Z;
  snapshot_block : Z;
}.

Record TwapAccumulator : Type := mkTwap {
  current_cumulative : Z;
  current_block : Z;
  last_price : Z;
  trade_count : Z;
  first_trade_block : Z;
  hour_prev : PriceSnapshot;
  hour_curr : PriceSnapshot;
  day_prev : PriceSnapshot;
  day_curr : PriceSnapshot;
  week_prev : PriceSnapshot;
  week_curr : PriceSnapshot;
}.

#[export] Instance eta_twap : Settable TwapAccumulator := fun a =>
  mkTwap (current_cumulative a) (current_block a) (last_price a) (trade_count a)
    (first_trade_block a) (hour_prev a) (hour_curr a) (day_prev a) (day_curr a) (week_prev a)
    (week_curr a).

Inductive TwapPeriod : Type := OneHour | OneDay | OneWeek.

Record PriceProtectionConfig : Type := mkProtection {
  enabled : bool;
  max_price_deviation : Z;
  max_slippage : Z;
  circuit_breaker_threshold : Z;
  min_trades_for_twap : Z;
  circuit_breaker_active : bool;
  circuit_breaker_until : Z;
  initial_price : option Z;
}.

#[export] Instance eta_protection : Settable PriceProtectionConfig := fun c =>
  mkProtection (enabled c) (max_price_deviation c) (max_slippage c) (circuit_breaker_threshold c)
    (min_trades_for_twap c) (circuit_breaker_active c) (circuit_breaker_until c) (initial_price c).

Definition default_protection : PriceProtectionConfig :=
  mkProtection true 2000 500 5000 100 false 0 None.

Record TradeRecord : Type := mkTrade {
  trade_id : Z;
  trade_order : Z;
  trade_entity : Z;
  trade_maker : AccountId;
  trade_taker : AccountId;
  trade_side : OrderSide;
  trade_amount : Z;
  trade_price : Z;
  trade_nex : Z;
  trade_block : Z;
}.

Record DailyStats : Type := mkDaily {
  open_price : Z;
  high_price : Z;
  low_price : Z;
  close_price : Z;
  volume_nex : Z;
  daily_trades : Z;
  period_start : Z;
}.

Definition default_daily : DailyStats := mkDaily 0 0 0 0 0 0 0.

Inductive MarketStatus : Type := Active | Closed.

#[export] Instance market_status_eq_dec : EqDecision MarketStatus.
Proof. solve_decision. Defined.

Inductive Event : Type :=
| OrderCreated (order_id entity_id : Z) (maker : AccountId) (side : OrderSide) (token_amount price : Z)
| OrderFilled (order_id entity_id : Z) (maker taker : AccountId) (filled_amount total_next : Z)
| OrderCancelled (order_id entity_id : Z)
| MarketConfigured (entity_id : Z)
| MarketOrderExecuted (entity_id : Z) (trader : AccountId) (side : OrderSide) (filled_amount total_next : Z)
| TwapUpdated (entity_id new_price : Z) (twap_1h twap_24h twap_7d : option Z)
| CircuitBreakerTriggered (entity_id current_price twap_7d deviation_bps until_block : Z)
| CircuitBreakerLifted (entity_id : Z)
| PriceProtectionConfigured (entity_id : Z) (enabled : bool) (max_deviation max_slippage : Z)
| InitialPriceSet (entity_id initial_price : Z)
| MarketPausedEvent (entity_id : Z)
| MarketResumedEvent (entity_id : Z)
| OrderForceCancelled (order_id : Z)
| OrderModified (order_id new_price new_amount : Z)
| ExpiredOrdersCleaned (entity_id count : Z) (cleaner : AccountId)
| GlobalMarketPauseToggled (paused : bool)
| BatchOrdersCancelled (cancelled_count failed_count : Z)
| TradeExecuted (trade : TradeRecord)
| KycRequirementSet (entity_id min_kyc_level : Z)
| MarketClosed (entity_id orders_cancelled : Z)
| AllEntityOrdersCancelled (entity_id : Z) (user : AccountId) (cancelled_count : Z)
| MarketForceClosed (entity_id orders_cancelled : Z)
| ExpiredOrdersAutoCleaned (count : Z).

Inductive Error : Type :=
| EntityNotFound | NotEntityOwner | TokenNotEnabled | MarketNotEnabled | OrderNotFound
| NotOrderOwner | OrderClosed | InsufficientBalance | InsufficientTokenBalance | AmountTooSmall
| AmountExceedsAvailable | ZeroPrice | OrderBookFull | UserOrdersFull | CannotTakeOwnOrder
| ArithmeticOverflow | OrderSideMismatch | NoOrdersAvailable | SlippageExceeded
| PriceDeviationTooHigh | MarketCircuitBreakerActive | InsufficientTwapData | InvalidBasisPoints
| EntityNotActive | OrderTtlTooShort | InsiderTradingRestricted | EntityLocked | MarketPaused
| GlobalMarketPausedError | OrderAmountBelowMinimum | CircuitBreakerNotActive
| ModifyAmountExceedsOriginal | InvalidOrderStatus | TooManyOrders | InsufficientKycLevel
| MarketAlreadyClosed | FokNotFullyFillable | PostOnlyWouldMatch | InitialPriceAlreadySet
| MarketNotPaused | DisclosurePenaltyRestricted | InitialPriceNotSet
(** refusals of the token pallet and of the governance port, [DispatchError::Other] *)
| TokenRefused | GovernanceRefused.

Record Config : Type := mkConfig {
  DefaultOrderTTL : Z;
  BlocksPerHour : Z;
  BlocksPerDay : Z;
  BlocksPerWeek : Z;
  CircuitBreakerDuration : Z;
  MaxTradeHistoryPerUser : Z;
  MaxOrderHistoryPerUser : Z;
  MaxOrderBookSize : Z;
}.

(** Storage, with the states of the currency, the token pallet and the pallets
    that answer queries. *)
Record State {L T W : Type} : Type := mkState {
  NextOrderId : Z;
  Orders : gmap Z TradeOrder;
  EntitySellOrders : gmap Z (list Z);
  EntityBuyOrders : gmap Z (list Z);
  UserOrders : gmap AccountId (list Z);
  MarketConfigs : gmap Z MarketConfig;
  MarketStatsStorage : gmap Z MarketStats;
  BestAsk : gmap Z Z;
  BestBid : gmap Z Z;
  LastTradePrice : gmap Z Z;
  GlobalMarketPaused : bool;
  TwapAccumulators : gmap Z TwapAccumulator;
  PriceProtection : gmap Z PriceProtectionConfig;
  NextTradeId : Z;
  TradeRecords : gmap Z TradeRecord;
  UserTradeHistory : gmap AccountId (list Z);
  EntityTradeHistory : gmap Z (list Z);
  UserOrderHistory : gmap AccountId (list Z);
  EntityDailyStats : gmap Z DailyStats;
  MarketKycRequirement : gmap Z Z;
  OnIdleCursor : Z;
  MarketStatusStorage : gmap Z MarketStatus;
  GlobalStats : MarketStats;
  currency : L;
  tokens : T;
  world : W;
  events : list Event;
}.
Arguments State : clear implicits.

#[export] Instance eta_market_state {L T W} : Settable (State L T W) := fun s =>
  mkState L T W (NextOrderId s) (Orders s) (EntitySellOrders s) (EntityBuyOrders s) (UserOrders s)
    (MarketConfigs s) (MarketStatsStorage s) (BestAsk s) (BestBid s) (LastTradePrice s)
    (GlobalMarketPaused s) (TwapAccumulators s) (PriceProtection s) (NextTradeId s) (TradeRecords s)
    (UserTradeHistory s) (EntityTradeHistory s) (UserOrderHistory s) (EntityDailyStats s)
    (MarketKycRequirement s) (OnIdleCursor s) (MarketStatusStorage s) (GlobalStats s) (currency s)
    (tokens s) (world s) (events s).

(** ** Orders *)

(** Open or partially filled. *)
Definition is_live (o : TradeOrder) : bool :=
  bool_decide (status o = Open \/ status o = PartiallyFilled).

Definition unfilled (o : TradeOrder) : Z := sat_sub (token_amount o) (filled_amount o).

(** What a trade costs: [checked_mul] on u128. *)
Definition calculate_total_next (amount price_ : Z) : option Z :=
  if decide (amount * price_ <= u128_max) then Some (amount * price_) else None.

(** A history kept as a ring: the oldest entry goes when [bound] is reached, and
    [try_push] on a vector of capacity [cap]. *)
Definition ring_push (bound cap id : Z) (l : list Z) : list Z :=
  let l' := if decide (Z.of_nat (length l) >= bound) then tail l else l in
  if decide (Z.of_nat (length l') < cap) then l' ++ [id] else l'.

(** [retain(|&x| x != id)]. *)
Definition without (id : Z) (l : list Z) : list Z := filter (fun x => x <> id) l.

Definition ids_of {K} `{Countable K} (m : gmap K (list Z)) (k : K) : list Z := default [] (m !! k).

Section Pallet.
Context `{FrameSystem} {L T W : Type}.
Context `{RepatriatingCurrency L} `{EntityTokens T} `{EntityQueries W} (cfg : Config).
Implicit Types (s : State L T W).

Abbreviation M_ := (M (State L T W) (DispatchError Error)).
Abbreviation Call_ := (M (State L T W) (DispatchError Error) unit).

Definition deposit_event (e : Event) : Call_ :=
  modify (fun s => s <| events ::= fun l => l ++ [e] |>).

(** * The price oracle (oracle.rs) *)

Definition genesis_accumulator (now price_ : Z) : TwapAccumulator :=
  let snapshot := mkSnapshot 0 now in
  mkTwap 0 now price_ 0 0 snapshot snapshot snapshot snapshot snapshot snapshot.

(** The price a trade enters the average with. *)
Definition filtered_price (acc : TwapAccumulator) (trade_price_ : Z) : Z :=
  if decide (trade_count acc > 0 /\ last_price acc <> 0) then
    let max_deviation := last_price acc in
    let deviation := if decide (trade_price_ > last_price acc) then sat_sub trade_price_ (last_price acc)
                     else sat_sub (last_price acc) trade_price_ in
    if decide (deviation > max_deviation) then
      if decide (trade_price_ > last_price acc) then sat_mul u128_max (last_price acc) 3 / 2
      else last_price acc / 2
    else trade_price_
  else trade_price_.

(** What the last price has added since the last update. *)
Definition accumulate (acc : TwapAccumulator) (now : Z) : Z :=
  let blocks_elapsed := sat_sub now (current_block acc) in
  if decide (blocks_elapsed > 0) then
    sat_add u128_max (current_cumulative acc) (sat_mul u128_max (last_price acc) blocks_elapsed)
  else current_cumulative acc.

(** One period's pair of checkpoints, moved on when the newer one is a period old. *)
Definition rotate (now period : Z) (new : PriceSnapshot) (pc : PriceSnapshot * PriceSnapshot)
    : PriceSnapshot * PriceSnapshot :=
  if decide (sat_sub now (snapshot_block pc.2) >= period) then (pc.2, new) else pc.

Definition update_accumulator (now trade_price_ : Z) (maybe_acc : option TwapAccumulator) : TwapAccumulator :=
  let acc := default (genesis_accumulator now trade_price_) maybe_acc in
  let filtered := filtered_price acc trade_price_ in
  let cumulative := accumulate acc now in
  let first := if decide (first_trade_block acc = 0) then Z.max now 1 else first_trade_block acc in
  let new := mkSnapshot cumulative now in
  let hour := rotate now (BlocksPerHour cfg) new (hour_prev acc, hour_curr acc) in
  let day := rotate now (BlocksPerDay cfg) new (day_prev acc, day_curr acc) in
  let week := rotate now (BlocksPerWeek cfg) new (week_prev acc, week_curr acc) in
  mkTwap cumulative now filtered (sat_add u64_max (trade_count acc) 1) first
    hour.1 hour.2 day.1 day.2 week.1 week.2.

Definition update_twap_accumulator (env : Env) (e trade_price_ : Z) : Call_ :=
  modify (fun s => s <| TwapAccumulators ::= fun m =>
    <[e := update_accumulator (block_number env) trade_price_ (m !! e)]> m |>).

(** The average of an accumulator over a period, as of block [now]. *)
Definition twap_of (now : Z) (acc : TwapAccumulator) (period : TwapPeriod) : Z :=
  let '(prev, curr, period_blocks) :=
    match period with
    | OneHour => (hour_prev acc, hour_curr acc, BlocksPerHour cfg)
    | OneDay => (day_prev acc, day_curr acc, BlocksPerDay cfg)
    | OneWeek => (week_prev acc, week_curr acc, BlocksPerWeek cfg)
    end in
  let snapshot := if decide (sat_sub now (snapshot_block curr) >= period_blocks) then curr else prev in
  let blocks_since_update := sat_sub now (current_block acc) in
  let cumulative := sat_add u128_max (current_cumulative acc)
    (sat_mul u128_max (last_price acc) blocks_since_update) in
  let block_diff := sat_sub now (snapshot_block snapshot) in
  if decide (block_diff = 0) then last_price acc
  else sat_sub cumulative (cumulative_price snapshot) / block_diff.

Definition calculate_twap (env : Env) s (e : Z) (period : TwapPeriod) : option Z :=
  (fun acc => twap_of (block_number env) acc period) <$> TwapAccumulators s !! e.

Definition is_twap_data_sufficient (acc : TwapAccumulator) (now : Z) (c : PriceProtectionConfig) : bool :=
  if decide (trade_count acc < min_trades_for_twap c) then false
  else if decide (first_trade_block acc = 0) then false
  else bool_decide (sat_sub now (first_trade_block acc) >= BlocksPerHour cfg).

(** The deviation of a price from a reference in basis points: the product of two
    u128 wraps around, the quotient is capped at the largest u16. *)
Definition deviation_bps (price_ reference : Z) : Z :=
  let diff := if decide (price_ > reference) then price_ - reference else reference - price_ in
  Z.min ((diff * 10000) mod (u128_max + 1) / reference) u16_max.

Definition disarm (e : Z) : Call_ :=
  modify (fun s => s <| PriceProtection ::= alter (fun c =>
    c <| circuit_breaker_active := false |> <| circuit_breaker_until := 0 |>) e |>).

Definition protection_of s (e : Z) : PriceProtectionConfig := default default_protection (PriceProtection s !! e).

Definition reference_price (env : Env) s (e : Z) (c : PriceProtectionConfig) : option Z :=
  match TwapAccumulators s !! e with
  | Some acc => if is_twap_data_sufficient acc (block_number env) c then calculate_twap env s e OneHour
                else initial_price c
  | None => initial_price c
  end.

Definition check_price_deviation (env : Env) (e price_ : Z) : Call_ :=
  let! c := gets (fun s => protection_of s e) in
  if negb (enabled c) then ret tt else
  (if circuit_breaker_active c then
     if decide (block_number env < circuit_breaker_until c) then fail (Module MarketCircuitBreakerActive)
     else disarm e >> deposit_event (CircuitBreakerLifted e)
   else ret tt) >>
  let! reference := gets (fun s => reference_price env s e c) in
  match reference with
  | None => ret tt
  | Some ref_price =>
      if decide (ref_price = 0) then ret tt else
      ensure (deviation_bps price_ ref_price <= max_price_deviation c) (Module PriceDeviationTooHigh)
  end.

Definition check_circuit_breaker (env : Env) (e current_price : Z) : Call_ :=
  let! s := gets (fun s => s) in
  match PriceProtection s !! e with
  | None => ret tt
  | Some c =>
      if negb (enabled c) then ret tt else
      match calculate_twap env s e OneWeek with
      | None => ret tt
      | Some twap_7d =>
          if decide (twap_7d = 0) then ret tt else
          let deviation := deviation_bps current_price twap_7d in
          if decide (deviation > circuit_breaker_threshold c) then
            let until_block := sat_add u32_max (block_number env) (CircuitBreakerDuration cfg) in
            modify (fun s => s <| PriceProtection ::= alter (fun c =>
              c <| circuit_breaker_active := true |> <| circuit_breaker_until := until_block |>) e |>) >>
            deposit_event (CircuitBreakerTriggered e current_price twap_7d deviation until_block)
          else ret tt
      end
  end.

Definition update_last_trade_price (e price_ : Z) : Call_ :=
  modify (fun s => s <| LastTradePrice ::= <[e := price_]> |>).

Definition on_trade_completed (env : Env) (e price_ : Z) : Call_ :=
  update_twap_accumulator env e price_ >>
  update_last_trade_price e price_ >>
  let! s := gets (fun s => s) in
  deposit_event (TwapUpdated e price_ (calculate_twap env s e OneHour) (calculate_twap env s e OneDay)
    (calculate_twap env s e OneWeek)) >>
  check_circuit_breaker env e price_.

(** * Entry checks (risk.rs) *)

Definition config_of s (e : Z) : MarketConfig := default default_market_config (MarketConfigs s !! e).

Definition market_status s (e : Z) : MarketStatus := default Active (MarketStatusStorage s !! e).

Definition ensure_price_anchor_exists (e : Z) : Call_ :=
  let! s := gets (fun s => s) in
  if decide (is_Some (LastTradePrice s !! e)) then ret tt
  else ensure (is_Some (PriceProtection s !! e ≫= initial_price)) (Module InitialPriceNotSet).

Definition ensure_market_enabled (e : Z) : Call_ :=
  let! s := gets (fun s => s) in
  ensure (GlobalMarketPaused s = false) (Module GlobalMarketPausedError) >>
  ensure (entity_exists e (world s) = true) (Module EntityNotFound) >>
  ensure (is_entity_active e (world s) = true) (Module EntityNotActive) >>
  ensure (is_token_enabled e (tokens s) = true) (Module TokenNotEnabled) >>
  ensure (market_status s e <> Closed) (Module MarketAlreadyClosed) >>
  ensure (nex_enabled (config_of s e) = true) (Module MarketNotEnabled) >>
  ensure (paused (config_of s e) = false) (Module MarketPaused) >>
  ensure_price_anchor_exists e.

Definition ensure_circuit_breaker_inactive (env : Env) (e : Z) : Call_ :=
  let! s := gets (fun s => s) in
  match PriceProtection s !! e with
  | Some c =>
      if enabled c && circuit_breaker_active c then
        ensure (circuit_breaker_until c <= block_number env) (Module MarketCircuitBreakerActive) >>
        disarm e >>
        deposit_event (CircuitBreakerLifted e)
      else ret tt
  | None => ret tt
  end.

Definition ensure_kyc_requirement (e : Z) (who : AccountId) : Call_ :=
  let! s := gets (fun s => s) in
  let min_level := get0 (MarketKycRequirement s) e in
  if decide (min_level > 0) then
    ensure (kyc_level e who (world s) >= min_level) (Module InsufficientKycLevel)
  else ret tt.

(** * The book (orderbook.rs, engine.rs) *)

Definition book s (side_ : OrderSide) (e : Z) : list Z :=
  match side_ with
  | Sell => ids_of (EntitySellOrders s) e
  | Buy => ids_of (EntityBuyOrders s) e
  end.

(** Live and not expired. *)
Definition matchable (now : Z) (o : TradeOrder) : bool := is_live o && bool_decide (now <= expires_at o).

Definition listed (env : Env) s (side_ : OrderSide) (e : Z) : list TradeOrder :=
  filter (fun o => matchable (block_number env) o = true) (omap (fun i => Orders s !! i) (book s side_ e)).

Definition get_sell_orders (env : Env) s (e : Z) : list TradeOrder := listed env s Sell e.
Definition get_buy_orders (env : Env) s (e : Z) : list TradeOrder := listed env s Buy e.

Definition get_user_orders s (user : AccountId) : list TradeOrder :=
  omap (fun i => Orders s !! i) (ids_of (UserOrders s) user).

(** The best price first. *)
Definition better (side_ : OrderSide) (a b : TradeOrder) : Prop :=
  match side_ with Sell => price a <= price b | Buy => price b <= price a end.

#[export] Instance better_dec side_ : RelDecision (better side_).
Proof. unfold better. intros a b. destruct side_; apply _. Defined.

Definition get_sorted_orders (env : Env) s (e : Z) (side_ : OrderSide) : list TradeOrder :=
  stable_sort (better side_) (listed env s side_ e).

Definition opposite (side_ : OrderSide) : OrderSide := match side_ with Buy => Sell | Sell => Buy end.

Definition lowest (l : list Z) : option Z :=
  match l with [] => None | x :: l' => Some (foldr Z.min x l') end.
Definition highest (l : list Z) : option Z :=
  match l with [] => None | x :: l' => Some (foldr Z.max x l') end.

Definition calculate_best_ask (env : Env) s (e : Z) : option Z := lowest (price <$> listed env s Sell e).
Definition calculate_best_bid (env : Env) s (e : Z) : option Z := highest (price <$> listed env s Buy e).

Definition update_best_prices (env : Env) (e : Z) : Call_ :=
  modify (fun s => s <| BestAsk ::= partial_alter (fun _ => calculate_best_ask env s e) e |>) >>
  modify (fun s => s <| BestBid ::= partial_alter (fun _ => calculate_best_bid env s e) e |>).

Definition get_best_prices (env : Env) s (e : Z) : option Z * option Z :=
  (calculate_best_ask env s e, calculate_best_bid env s e).

Definition spread_of (ask bid : option Z) : option Z :=
  match ask, bid with
  | Some a, Some b => if decide (a > b) then Some (sat_sub a b) else None
  | _, _ => None
  end.

Definition get_spread (env : Env) s (e : Z) : option Z :=
  spread_of (calculate_best_ask env s e) (calculate_best_bid env s e).

(** Insertion into the tree keyed by price: one level per price, ascending. *)
Fixpoint add_level (price_ amount : Z) (levels : list PriceLevel) : list PriceLevel :=
  match levels with
  | [] => [mkLevel price_ (sat_add u128_max 0 amount) (sat_add u32_max 0 1)]
  | l :: rest =>
      if decide (price_ = level_price l) then
        mkLevel price_ (sat_add u128_max (total_amount l) amount) (sat_add u32_max (order_count l) 1) :: rest
      else if decide (price_ < level_price l) then
        mkLevel price_ (sat_add u128_max 0 amount) (sat_add u32_max 0 1) :: levels
      else l :: add_level price_ amount rest
  end.

Definition aggregate_price_levels (env : Env) s (e : Z) (side_ : OrderSide) (max_levels : Z) : list PriceLevel :=
  let levels := foldl (fun levels o =>
    if decide (unfilled o = 0) then levels else add_level (price o) (unfilled o) levels) []
    (get_sorted_orders env s e side_) in
  take (Z.to_nat max_levels) (match side_ with Buy => reverse levels | Sell => levels end).

Definition get_order_book_depth (env : Env) s (e depth : Z) : OrderBookDepth :=
  let asks_ := aggregate_price_levels env s e Sell depth in
  let bids_ := aggregate_price_levels env s e Buy depth in
  let ask := level_price <$> head asks_ in
  let bid := level_price <$> head bids_ in
  mkDepth e asks_ bids_ ask bid (spread_of ask bid) (block_number env).

Definition total_unfilled (orders : list TradeOrder) : Z :=
  foldl (fun acc o => sat_add u128_max acc (unfilled o)) 0 orders.

Definition get_market_summary (env : Env) s (e : Z) : MarketSummary :=
  mkSummary (calculate_best_ask env s e) (calculate_best_bid env s e) (LastTradePrice s !! e)
    (total_unfilled (listed env s Sell e)) (total_unfilled (listed env s Buy e)).

Definition get_order_book_snapshot (env : Env) s (e : Z) : list (Z * Z) * list (Z * Z) :=
  let depth := get_order_book_depth env s e 20 in
  (map (fun l => (level_price l, total_amount l)) (asks depth),
   map (fun l => (level_price l, total_amount l)) (bids depth)).

(** [iter().rev().skip(page * page_size).take(page_size)]; the product wraps. *)
Definition page_of (history : list Z) (page page_size : Z) : list Z :=
  take (Z.to_nat page_size) (drop (Z.to_nat ((page * page_size) mod (u32_max + 1))) (reverse history)).

Definition get_user_trade_history s (user : AccountId) (page page_size : Z) : list TradeRecord :=
  omap (fun i => TradeRecords s !! i) (page_of (ids_of (UserTradeHistory s) user) page page_size).

Definition get_entity_trade_history s (e page page_size : Z) : list TradeRecord :=
  omap (fun i => TradeRecords s !! i) (page_of (ids_of (EntityTradeHistory s) e) page page_size).

Definition get_user_order_history s (user : AccountId) (page page_size : Z) : list TradeOrder :=
  omap (fun i => Orders s !! i) (page_of (ids_of (UserOrderHistory s) user) page page_size).

(** * The engine (engine.rs) *)

(** ** Money *)

Definition calculate_total (amount price_ : Z) : M_ Z :=
  ok_or (calculate_total_next amount price_) (Module ArithmeticOverflow).

Definition currency_reserve (who : AccountId) (amount : Z) : Call_ :=
  let! l := gets currency in
  let! l' := ok_or (reserve who amount l) (Module InsufficientBalance) in
  modify (fun s => s <| currency := l' |>).

Definition currency_unreserve (who : AccountId) (amount : Z) : Call_ :=
  modify (fun s => s <| currency ::= fun l => (unreserve who amount l).1 |>).

Definition currency_repatriate (from to : AccountId) (amount : Z) : Call_ :=
  let! l := gets currency in
  let! moved := ok_or (repatriate_reserved from to amount l) CurrencyError in
  modify (fun s => s <| currency := moved.1 |>).

Definition currency_transfer (from to : AccountId) (amount : Z) : Call_ :=
  let! l := gets currency in
  let! l' := ok_or (transfer_free from to amount l) CurrencyError in
  modify (fun s => s <| currency := l' |>).

Definition reserve_tokens (e : Z) (who : AccountId) (amount : Z) : Call_ :=
  let! t := gets tokens in
  let! t' := ok_or (token_reserve e who amount t) (Module TokenRefused) in
  modify (fun s => s <| tokens := t' |>).

Definition unreserve_tokens (e : Z) (who : AccountId) (amount : Z) : Call_ :=
  modify (fun s => s <| tokens ::= fun t => (token_unreserve e who amount t).1 |>).

Definition repatriate_tokens (e : Z) (from to : AccountId) (amount : Z) : Call_ :=
  let! t := gets tokens in
  let! moved := ok_or (token_repatriate e from to amount t) (Module TokenRefused) in
  modify (fun s => s <| tokens := moved.1 |>).

(** Giving back what an order still locks: the tokens of a sell order, the price
    of a buy order unless it overflows. *)
Definition release (e : Z) (side_ : OrderSide) (who : AccountId) (amount price_ : Z) : Call_ :=
  match side_ with
  | Sell => unreserve_tokens e who amount
  | Buy => match calculate_total_next amount price_ with
           | Some refund => currency_unreserve who refund
           | None => ret tt
           end
  end.

(** The same, skipping what is zero. *)
Definition release_nonzero (e : Z) (side_ : OrderSide) (who : AccountId) (amount price_ : Z) : Call_ :=
  if decide (amount = 0) then ret tt else
  match side_ with
  | Sell => unreserve_tokens e who amount
  | Buy => match calculate_total_next amount price_ with
           | Some refund => if decide (refund = 0) then ret tt else currency_unreserve who refund
           | None => ret tt
           end
  end.

(** ** Records *)

Definition daily_after (now blocks_per_day price_ nex : Z) (d : DailyStats) : DailyStats :=
  let d' :=
    if decide (sat_sub now (period_start d) >= blocks_per_day) then
      mkDaily price_ price_ price_ price_ 0 0 now
    else
      mkDaily (if decide (open_price d = 0) then price_ else open_price d)
        (Z.max (high_price d) price_)
        (if decide (low_price d = 0 \/ price_ < low_price d) then price_ else low_price d)
        price_ (volume_nex d) (daily_trades d) (period_start d) in
  mkDaily (open_price d') (high_price d') (low_price d') (close_price d')
    (sat_add u128_max (volume_nex d') nex) (sat_add u32_max (daily_trades d') 1) (period_start d').

Definition update_daily_stats (env : Env) (e price_ nex : Z) : Call_ :=
  modify (fun s => s <| EntityDailyStats ::= fun m =>
    <[e := daily_after (block_number env) (BlocksPerDay cfg) price_ nex (default default_daily (m !! e))]> m |>).

Definition record_trade (env : Env) (order_id_ e : Z) (maker_ taker : AccountId) (side_ : OrderSide)
    (amount price_ nex : Z) : Call_ :=
  let! trade_id_ := gets NextTradeId in
  modify (fun s => s <| NextTradeId := sat_add u64_max trade_id_ 1 |>) >>
  let record := mkTrade trade_id_ order_id_ e maker_ taker side_ amount price_ nex (block_number env) in
  modify (fun s => s <| TradeRecords ::= <[trade_id_ := record]> |>) >>
  modify (fun s => s <| UserTradeHistory ::= fun m =>
    <[maker_ := ring_push (MaxTradeHistoryPerUser cfg) 200 trade_id_ (ids_of m maker_)]> m |>) >>
  modify (fun s => s <| UserTradeHistory ::= fun m =>
    <[taker := ring_push (MaxTradeHistoryPerUser cfg) 200 trade_id_ (ids_of m taker)]> m |>) >>
  modify (fun s => s <| EntityTradeHistory ::= fun m =>
    <[e := ring_push 500 500 trade_id_ (ids_of m e)]> m |>) >>
  update_daily_stats env e price_ nex >>
  deposit_event (TradeExecuted record).

Definition add_to_order_history (who : AccountId) (id : Z) : Call_ :=
  modify (fun s => s <| UserOrderHistory ::= fun m =>
    <[who := ring_push (MaxOrderHistoryPerUser cfg) 200 id (ids_of m who)]> m |>).

Definition count_trade (nex : Z) (m : MarketStats) : MarketStats :=
  m <| total_trades ::= fun n => sat_add u64_max n 1 |>
    <| total_volume_nex ::= fun v => sat_add u128_max v nex |>.

Definition update_trade_stats (e nex : Z) : Call_ :=
  modify (fun s => s <| MarketStatsStorage ::= fun m =>
    <[e := count_trade nex (default default_stats (m !! e))]> m |>) >>
  modify (fun s => s <| GlobalStats ::= count_trade nex |>).

(** ** Orders entering and leaving the book *)

Definition put_order (id : Z) (o : TradeOrder) : Call_ :=
  modify (fun s => s <| Orders ::= <[id := o]> |>).

Definition remove_from_order_book (e id : Z) (side_ : OrderSide) : Call_ :=
  match side_ with
  | Sell => modify (fun s => s <| EntitySellOrders ::= fun m => <[e := without id (ids_of m e)]> m |>)
  | Buy => modify (fun s => s <| EntityBuyOrders ::= fun m => <[e := without id (ids_of m e)]> m |>)
  end.

Definition remove_from_user (who : AccountId) (id : Z) : Call_ :=
  modify (fun s => s <| UserOrders ::= fun m => <[who := without id (ids_of m who)]> m |>).

(** The end of a live order: its status, the two indexes, the history. [e] and
    [side_] say which book it is taken from. *)
Definition retire (id : Z) (o : TradeOrder) (st : OrderStatus) (e : Z) (side_ : OrderSide) : Call_ :=
  put_order id (o <| status := st |>) >>
  remove_from_order_book e id side_ >>
  remove_from_user (maker o) id >>
  add_to_order_history (maker o) id.

(** A loop that counts. *)
Fixpoint count_each {A} (l : list A) (body : A -> M_ Z) : M_ Z :=
  match l with
  | [] => ret 0
  | x :: l' => let! n := body x in let! m := count_each l' body in ret (n + m)
  end.

(** One order of a book that is emptied; whether it was live. *)
Definition cancel_listed (e : Z) (side_ : OrderSide) (id : Z) : M_ Z :=
  let! orders := gets Orders in
  match orders !! id with
  | Some o =>
      if is_live o then
        release e side_ (maker o) (unfilled o) (price o) >>
        put_order id (o <| status := Cancelled |>) >>
        remove_from_user (maker o) id >>
        add_to_order_history (maker o) id >>
        ret 1
      else ret 0
  | None => ret 0
  end.

Definition clear_book (e : Z) (side_ : OrderSide) : Call_ :=
  match side_ with
  | Sell => modify (fun s => s <| EntitySellOrders ::= <[e := []]> |>)
  | Buy => modify (fun s => s <| EntityBuyOrders ::= <[e := []]> |>)
  end.

Definition do_cancel_all_entity_orders (env : Env) (e : Z) : M_ Z :=
  let! sell_ids := gets (fun s => book s Sell e) in
  let! n := count_each sell_ids (cancel_listed e Sell) in
  clear_book e Sell >>
  let! buy_ids := gets (fun s => book s Buy e) in
  let! m := count_each buy_ids (cancel_listed e Buy) in
  clear_book e Buy >>
  update_best_prices env e >>
  ret (n + m).

Definition push_to_book (e id : Z) (side_ : OrderSide) : Call_ :=
  let! ids := gets (fun s => book s side_ e) in
  ensure (Z.of_nat (length ids) < MaxOrderBookSize cfg) (Module OrderBookFull) >>
  match side_ with
  | Sell => modify (fun s => s <| EntitySellOrders ::= <[e := ids ++ [id]]> |>)
  | Buy => modify (fun s => s <| EntityBuyOrders ::= <[e := ids ++ [id]]> |>)
  end.

Definition push_to_user (who : AccountId) (id : Z) : Call_ :=
  let! ids := gets (fun s => ids_of (UserOrders s) who) in
  ensure (Z.of_nat (length ids) < 100) (Module UserOrdersFull) >>
  modify (fun s => s <| UserOrders ::= <[who := ids ++ [id]]> |>).

Definition do_create_order (env : Env) (e : Z) (maker_ : AccountId) (side_ : OrderSide) (type_ : OrderType)
    (amount price_ : Z) : M_ Z :=
  let! id := gets NextOrderId in
  modify (fun s => s <| NextOrderId := sat_add u64_max id 1 |>) >>
  let now := block_number env in
  let! c := gets (fun s => config_of s e) in
  let ttl := if decide (order_ttl c > 0) then order_ttl c else DefaultOrderTTL cfg in
  let order := mkOrder id e maker_ side_ type_ amount 0 price_ Open now (sat_add u32_max now ttl) in
  put_order id order >>
  push_to_book e id side_ >>
  push_to_user maker_ id >>
  modify (fun s => s <| MarketStatsStorage ::= fun m =>
    <[e := (default default_stats (m !! e)) <| total_orders ::= fun n => sat_add u64_max n 1 |>]> m |>) >>
  ret id.

(** ** Matching *)

(** An order whose filled amount has just grown: it leaves the book when nothing
    is left of it. *)
Definition finish_fill (id : Z) (o : TradeOrder) (e : Z) : Call_ :=
  let! final :=
    (if decide (filled_amount o >= token_amount o) then
       remove_from_order_book e id (side o) >>
       remove_from_user (maker o) id >>
       add_to_order_history (maker o) id >>
       ret (o <| status := Filled |>)
     else ret (o <| status := PartiallyFilled |>)) in
  put_order id final.

Definition update_order_fill (o : TradeOrder) (e fill : Z) : Call_ :=
  finish_fill (order_id o) (o <| filled_amount ::= fun f => sat_add u128_max f fill |>) e.

(** What follows the transfers of a fill, in each of the three matching loops. *)
Definition book_fill (env : Env) (o : TradeOrder) (e : Z) (taker : AccountId) (taker_side : OrderSide)
    (fill nex : Z) : Call_ :=
  update_order_fill o e fill >>
  update_trade_stats e nex >>
  record_trade env (order_id o) e (maker o) taker taker_side fill (price o) nex >>
  deposit_event (OrderFilled (order_id o) e (maker o) taker fill nex) >>
  on_trade_completed env e (price o).

(** Whether a limit price accepts the price of a resting order. *)
Definition price_ok (taker_side : OrderSide) (limit : Z) (o : TradeOrder) : Prop :=
  match taker_side with Sell => limit <= price o | Buy => price o <= limit end.

#[export] Instance price_ok_dec taker_side limit o : Decision (price_ok taker_side limit o).
Proof. unfold price_ok. destruct taker_side; apply _. Defined.

(** How much the resting orders would fill; [total] is what the ones before did. *)
Fixpoint fillable (side_ : OrderSide) (price_ : Z) (exclude : AccountId) (orders : list TradeOrder)
    (total : Z) : Z :=
  match orders with
  | [] => total
  | o :: rest =>
      if decide (price_ok side_ price_ o) then
        if decide (maker o = exclude) then fillable side_ price_ exclude rest total
        else fillable side_ price_ exclude rest (sat_add u128_max total (unfilled o))
      else total
  end.

Definition check_fillable_amount (env : Env) s (e : Z) (side_ : OrderSide) (price_ : Z)
    (exclude : AccountId) : Z :=
  fillable side_ price_ exclude (get_sorted_orders env s e (opposite side_)) 0.

(** The two transfers of a fill whose payer and seller both have reserved. *)
Definition cross_transfers (e : Z) (taker maker_ : AccountId) (taker_side : OrderSide) (fill nex : Z) : Call_ :=
  match taker_side with
  | Sell => currency_repatriate maker_ taker nex >> repatriate_tokens e taker maker_ fill
  | Buy => currency_repatriate taker maker_ nex >> repatriate_tokens e maker_ taker fill
  end.

(** The loop of [do_cross_match]: [filled] and [nex] are what was traded so far. *)
Fixpoint cross (env : Env) (taker : AccountId) (e : Z) (taker_side : OrderSide) (limit : Z)
    (orders : list TradeOrder) (remaining filled nex : Z) : M_ (Z * Z) :=
  match orders with
  | [] => ret (filled, nex)
  | o :: rest =>
      if decide (remaining = 0) then ret (filled, nex)
      else if decide (price_ok taker_side limit o) then
        if decide (maker o = taker) then cross env taker e taker_side limit rest remaining filled nex
        else
          let fill := Z.min remaining (unfilled o) in
          if decide (fill = 0) then cross env taker e taker_side limit rest remaining filled nex
          else
            let! cost := calculate_total fill (price o) in
            cross_transfers e taker (maker o) taker_side fill cost >>
            book_fill env o e taker taker_side fill cost >>
            cross env taker e taker_side limit rest (sat_sub remaining fill)
              (sat_add u128_max filled fill) (sat_add u128_max nex cost)
      else ret (filled, nex)
  end.

Definition do_cross_match (env : Env) (taker : AccountId) (e : Z) (taker_side : OrderSide)
    (limit remaining : Z) : M_ (Z * Z) :=
  let! orders := gets (fun s => get_sorted_orders env s e (opposite taker_side)) in
  cross env taker e taker_side limit orders remaining 0 0.

(** How much of an order a budget buys: what to fill and its cost, or nothing.
    The outer option is the overflow of the product. *)
Definition within_budget (budget spent fill cost price_ : Z) : option (option (Z * Z)) :=
  if decide (sat_add u128_max spent cost > budget) then
    let budget_left := sat_sub budget spent in
    if decide (budget_left = 0) then Some None
    else if decide (price_ = 0) then Some None
    else
      let affordable := budget_left / price_ in
      if decide (affordable = 0) then Some None
      else
        let partial := Z.min affordable fill in
        (fun partial_cost => Some (partial, partial_cost)) <$> calculate_total_next partial price_
  else Some (Some (fill, cost)).

Fixpoint market_buy_loop (env : Env) (buyer : AccountId) (e max_cost : Z) (orders : list TradeOrder)
    (remaining filled spent : Z) : M_ (Z * Z) :=
  match orders with
  | [] => ret (filled, spent)
  | o :: rest =>
      if decide (remaining = 0) then ret (filled, spent)
      else if decide (maker o = buyer) then market_buy_loop env buyer e max_cost rest remaining filled spent
      else
        let fill0 := Z.min remaining (unfilled o) in
        let! cost0 := calculate_total fill0 (price o) in
        let! part := ok_or (within_budget max_cost spent fill0 cost0 (price o)) (Module ArithmeticOverflow) in
        match part with
        | None => ret (filled, spent)
        | Some (fill, cost) =>
            if decide (fill = 0) then ret (filled, spent)
            else
              currency_transfer buyer (maker o) cost >>
              repatriate_tokens e (maker o) buyer fill >>
              book_fill env o e buyer Buy fill cost >>
              market_buy_loop env buyer e max_cost rest (sat_sub remaining fill)
                (sat_add u128_max filled fill) (sat_add u128_max spent cost)
        end
  end.

Definition refresh_if_filled (env : Env) (e : Z) (result : Z * Z) : M_ (Z * Z) :=
  (if decide (result.1 = 0) then ret tt else update_best_prices env e) >> ret result.

Definition do_market_buy (env : Env) (buyer : AccountId) (e remaining max_cost : Z)
    (sell_orders : list TradeOrder) : M_ (Z * Z) :=
  let! result := market_buy_loop env buyer e max_cost sell_orders remaining 0 0 in
  refresh_if_filled env e result.

Fixpoint market_sell_loop (env : Env) (seller : AccountId) (e min_receive : Z) (orders : list TradeOrder)
    (remaining filled received : Z) : M_ (Z * Z) :=
  match orders with
  | [] => ret (filled, received)
  | o :: rest =>
      if decide (remaining = 0) then ret (filled, received)
      else if decide (maker o = seller) then
        market_sell_loop env seller e min_receive rest remaining filled received
      else
        let fill := Z.min remaining (unfilled o) in
        let! gross := calculate_total fill (price o) in
        ensure (~ (sat_sub remaining fill = 0 /\ sat_add u128_max received gross < min_receive))
          (Module SlippageExceeded) >>
        currency_repatriate (maker o) seller gross >>
        reserve_tokens e seller fill >>
        repatriate_tokens e seller (maker o) fill >>
        book_fill env o e seller Sell fill gross >>
        market_sell_loop env seller e min_receive rest (sat_sub remaining fill)
          (sat_add u128_max filled fill) (sat_add u128_max received gross)
  end.

Definition do_market_sell (env : Env) (seller : AccountId) (e remaining min_receive : Z)
    (buy_orders : list TradeOrder) : M_ (Z * Z) :=
  let! result := market_sell_loop env seller e min_receive buy_orders remaining 0 0 in
  refresh_if_filled env e result.

End Pallet.
End Market.
