(* ===== verification/MarketCalls.v ===== *)
(** The calls of [pallet-entity-market] (src/pallets/entity/market/src/lib.rs):
    the dispatchables, the sweep of expired orders at the end of a block, the
    prices the pallet tells other pallets and the operations governance runs, as
    one type of calls and one dispatcher. *)

From S2P Require Import Prelude Frame EntityPorts EntityMarket.

Module MarketCalls.
Import Market.

(** The two dimensions of a weight. *)
Record Weight : Type := mkWeight { ref_time : Z; proof_size : Z }.

Definition weight_sub (a b : Weight) : Weight :=
  mkWeight (sat_sub (ref_time a) (ref_time b)) (sat_sub (proof_size a) (proof_size b)).

Definition weight_add (a b : Weight) : Weight :=
  mkWeight (sat_add u64_max (ref_time a) (ref_time b)) (sat_add u64_max (proof_size a) (proof_size b)).

Section Pallet.
Context `{FrameSystem} {L T W : Type}.
Context `{RepatriatingCurrency L} `{EntityTokens T} `{EntityQueries W} (cfg : Config).
Implicit Types (s : State L T W).

Abbreviation M_ := (M (State L T W) (DispatchError Error)).
Abbreviation Call_ := (M (State L T W) (DispatchError Error) unit).

(** * What every trade checks first *)

Definition ensure_trader_allowed (e : Z) (who : AccountId) : Call_ :=
  let! s := gets (fun s => s) in
  ensure (can_insider_trade e who (world s) = true) (Module InsiderTradingRestricted) >>
  ensure (is_penalty_active e (world s) = false) (Module DisclosurePenaltyRestricted).

Definition ensure_min_amount (e amount : Z) : Call_ :=
  let! c := gets (fun s => config_of s e) in
  if decide (min_order_amount c > 0)
  then ensure (amount >= min_order_amount c) (Module OrderAmountBelowMinimum)
  else ret tt.

(** The checks of the calls that name a price: lines 1215 to 1248, repeated in each. *)
Definition admit_order (env : Env) (e : Z) (who : AccountId) (amount price_ : Z) : Call_ :=
  ensure_market_enabled e >>
  ensure_kyc_requirement e who >>
  ensure_trader_allowed e who >>
  ensure (price_ <> 0) (Module ZeroPrice) >>
  ensure (amount <> 0) (Module AmountTooSmall) >>
  ensure_min_amount e amount >>
  check_price_deviation cfg env e price_.

Definition ensure_tokens (e : Z) (who : AccountId) (amount : Z) : Call_ :=
  let! t := gets tokens in
  ensure (token_balance e who t >= amount) (Module InsufficientTokenBalance).

(** What an order locks before it is matched. *)
Definition lock_for (e : Z) (side_ : OrderSide) (who : AccountId) (amount price_ : Z) : Call_ :=
  match side_ with
  | Sell => ensure_tokens e who amount >> reserve_tokens e who amount
  | Buy => let! total := calculate_total amount price_ in currency_reserve who total
  end.

Definition signed (origin : Origin) : M_ AccountId := ok_or (ensure_signed origin) BadOrigin.
Definition root (origin : Origin) : Call_ := ensure (ensure_root origin = true) BadOrigin.

(** * Orders *)

Definition place_sell_order (env : Env) (origin : Origin) (e amount price_ : Z) : Call_ :=
  let! who := signed origin in
  admit_order env e who amount price_ >>
  lock_for e Sell who amount price_ >>
  let! crossed := do_cross_match cfg env who e Sell price_ amount in
  let remaining := sat_sub amount crossed.1 in
  (if decide (remaining = 0) then ret tt else
     let! id := do_create_order cfg env e who Sell Limit remaining price_ in
     deposit_event (OrderCreated id e who Sell remaining price_)) >>
  update_best_prices env e.

Definition place_buy_order (env : Env) (origin : Origin) (e amount price_ : Z) : Call_ :=
  let! who := signed origin in
  admit_order env e who amount price_ >>
  let! total := calculate_total amount price_ in
  currency_reserve who total >>
  let! crossed := do_cross_match cfg env who e Buy price_ amount in
  let remaining := sat_sub amount crossed.1 in
  let! for_remaining := calculate_total remaining price_ in
  let excess := sat_sub (sat_sub total crossed.2) for_remaining in
  (if decide (excess = 0) then ret tt else currency_unreserve who excess) >>
  (if decide (remaining = 0) then ret tt else
     let! id := do_create_order cfg env e who Buy Limit remaining price_ in
     deposit_event (OrderCreated id e who Buy remaining price_)) >>
  update_best_prices env e.

(** The transfers of [take_order]. *)
Definition take_transfers (o : TradeOrder) (who : AccountId) (fill total : Z) : Call_ :=
  match side o with
  | Sell =>
      currency_transfer who (maker o) total >>
      repatriate_tokens (entity_id o) (maker o) who fill
  | Buy =>
      ensure_tokens (entity_id o) who fill >>
      currency_repatriate (maker o) who total >>
      reserve_tokens (entity_id o) who fill >>
      repatriate_tokens (entity_id o) who (maker o) fill
  end.

Definition take_order (env : Env) (origin : Origin) (id : Z) (amount : option Z) : Call_ :=
  let! who := signed origin in
  let! orders := gets Orders in
  let! o := ok_or (orders !! id) (Module OrderNotFound) in
  ensure_market_enabled (entity_id o) >>
  ensure_circuit_breaker_inactive env (entity_id o) >>
  ensure_kyc_requirement (entity_id o) who >>
  ensure (is_live o = true) (Module OrderClosed) >>
  ensure (block_number env <= expires_at o) (Module OrderClosed) >>
  ensure (maker o <> who) (Module CannotTakeOwnOrder) >>
  ensure_trader_allowed (entity_id o) who >>
  ensure (filled_amount o <= token_amount o) (Module ArithmeticOverflow) >>
  let available := token_amount o - filled_amount o in
  let fill := Z.min (default available amount) available in
  ensure (fill <> 0) (Module AmountTooSmall) >>
  let! total := calculate_total fill (price o) in
  take_transfers o who fill total >>
  ensure (filled_amount o + fill <= u128_max) (Module ArithmeticOverflow) >>
  finish_fill cfg id (o <| filled_amount := filled_amount o + fill |>) (entity_id o) >>
  update_trade_stats (entity_id o) total >>
  record_trade cfg env id (entity_id o) (maker o) who (opposite (side o)) fill (price o) total >>
  update_best_prices env (entity_id o) >>
  on_trade_completed cfg env (entity_id o) (price o) >>
  deposit_event (OrderFilled id (entity_id o) (maker o) who fill total).

Definition cancel_order (env : Env) (origin : Origin) (id : Z) : Call_ :=
  let! who := signed origin in
  let! orders := gets Orders in
  let! o := ok_or (orders !! id) (Module OrderNotFound) in
  ensure (maker o = who) (Module NotOrderOwner) >>
  ensure (is_live o = true) (Module OrderClosed) >>
  ensure (filled_amount o <= token_amount o) (Module ArithmeticOverflow) >>
  let rest := token_amount o - filled_amount o in
  match side o with
  | Sell => unreserve_tokens (entity_id o) who rest
  | Buy => let! refund := calculate_total rest (price o) in currency_unreserve who refund
  end >>
  retire cfg id o Cancelled (entity_id o) (side o) >>
  update_best_prices env (entity_id o) >>
  deposit_event (OrderCancelled id (entity_id o)).

(** * Owner and governance settings *)

Definition ensure_exists (e : Z) : Call_ :=
  let! s := gets (fun s => s) in
  ensure (entity_exists e (world s) = true) (Module EntityNotFound).

(** The owner of an entity that is not locked. *)
Definition ensure_owner (e : Z) (who : AccountId) : Call_ :=
  let! s := gets (fun s => s) in
  let! owner := ok_or (entity_owner e (world s)) (Module EntityNotFound) in
  ensure (owner = who) (Module NotEntityOwner) >>
  ensure (is_entity_locked e (world s) = false) (Module EntityLocked).

(** The variant of the pausing calls, for which a missing owner is a wrong owner. *)
Definition ensure_owner_eq (e : Z) (who : AccountId) : Call_ :=
  let! s := gets (fun s => s) in
  ensure (entity_owner e (world s) = Some who) (Module NotEntityOwner) >>
  ensure (is_entity_locked e (world s) = false) (Module EntityLocked).

Definition ensure_not_closed (e : Z) : Call_ :=
  let! s := gets (fun s => s) in
  ensure (market_status s e <> Closed) (Module MarketAlreadyClosed).

Definition set_config (e : Z) (enabled_ : bool) (min_amount ttl : Z) : Call_ :=
  modify (fun s => s <| MarketConfigs ::= <[e := (config_of s e)
    <| nex_enabled := enabled_ |> <| min_order_amount := min_amount |> <| order_ttl := ttl |>]> |>).

(** Disabling a market that was enabled empties it. *)
Definition apply_config (env : Env) (e : Z) (enabled_ : bool) (min_amount ttl : Z) : Call_ :=
  ensure_not_closed e >>
  ensure (ttl >= 10) (Module OrderTtlTooShort) >>
  let! was_enabled := gets (fun s => nex_enabled (config_of s e)) in
  set_config e enabled_ min_amount ttl >>
  (if was_enabled && negb enabled_
   then do_cancel_all_entity_orders cfg env e >> ret tt else ret tt) >>
  deposit_event (MarketConfigured e).

Definition configure_market (env : Env) (origin : Origin) (e : Z) (enabled_ : bool) (min_amount ttl : Z) : Call_ :=
  let! who := signed origin in
  ensure_exists e >> ensure_owner e who >> apply_config env e enabled_ min_amount ttl.

Definition governance_configure_market (env : Env) (origin : Origin) (e : Z) (enabled_ : bool)
    (min_amount ttl : Z) : Call_ :=
  root origin >> ensure_exists e >> apply_config env e enabled_ min_amount ttl.

Definition ensure_basis_points (deviation slippage threshold : Z) : Call_ :=
  ensure (deviation <= 10000) (Module InvalidBasisPoints) >>
  ensure (slippage <= 10000) (Module InvalidBasisPoints) >>
  ensure (threshold <= 10000) (Module InvalidBasisPoints).

Definition apply_protection (e : Z) (enabled_ : bool) (deviation slippage threshold min_trades : Z) : Call_ :=
  ensure_basis_points deviation slippage threshold >>
  modify (fun s => s <| PriceProtection ::= <[e := (protection_of s e)
    <| enabled := enabled_ |> <| max_price_deviation := deviation |> <| max_slippage := slippage |>
    <| circuit_breaker_threshold := threshold |> <| min_trades_for_twap := min_trades |>]> |>) >>
  deposit_event (PriceProtectionConfigured e enabled_ deviation slippage).

Definition configure_price_protection (origin : Origin) (e : Z) (enabled_ : bool)
    (deviation slippage threshold min_trades : Z) : Call_ :=
  let! who := signed origin in
  ensure_owner e who >> apply_protection e enabled_ deviation slippage threshold min_trades.

Definition governance_configure_price_protection (origin : Origin) (e : Z) (enabled_ : bool)
    (deviation slippage threshold min_trades : Z) : Call_ :=
  root origin >> ensure_exists e >> apply_protection e enabled_ deviation slippage threshold min_trades.

Definition lift_circuit_breaker (env : Env) (origin : Origin) (e : Z) : Call_ :=
  let! who := signed origin in
  ensure_owner e who >>
  let! c := gets (fun s => protection_of s e) in
  ensure (circuit_breaker_active c = true) (Module CircuitBreakerNotActive) >>
  ensure (block_number env >= circuit_breaker_until c) (Module MarketCircuitBreakerActive) >>
  disarm e >>
  deposit_event (CircuitBreakerLifted e).

Definition force_lift_circuit_breaker (origin : Origin) (e : Z) : Call_ :=
  root origin >>
  ensure_exists e >>
  let! c := gets (fun s => protection_of s e) in
  ensure (circuit_breaker_active c = true) (Module CircuitBreakerNotActive) >>
  disarm e >>
  deposit_event (CircuitBreakerLifted e).

(** The accumulator an initial price leaves: a new one, or the old one carried
    on to this block with a new last price. *)
Definition seed_accumulator (now price_ : Z) (maybe_acc : option TwapAccumulator) : TwapAccumulator :=
  match maybe_acc with
  | None => genesis_accumulator now price_
  | Some acc => acc <| current_cumulative := accumulate acc now |> <| last_price := price_ |>
                    <| current_block := now |>
  end.

Definition set_initial_price (env : Env) (origin : Origin) (e price_ : Z) : Call_ :=
  let! who := signed origin in
  ensure_owner e who >>
  ensure (price_ <> 0) (Module ZeroPrice) >>
  let! acc := gets (fun s => TwapAccumulators s !! e) in
  match acc with
  | Some a => ensure (trade_count a = 0) (Module InitialPriceAlreadySet)
  | None => ret tt
  end >>
  modify (fun s => s <| PriceProtection ::= <[e := (protection_of s e) <| initial_price := Some price_ |>]> |>) >>
  modify (fun s => s <| TwapAccumulators ::= fun m =>
    <[e := seed_accumulator (block_number env) price_ (m !! e)]> m |>) >>
  deposit_event (InitialPriceSet e price_).

Definition pause_config (e : Z) (from to : bool) (missing wrong : DispatchError Error) : Call_ :=
  let! configs := gets MarketConfigs in
  let! c := ok_or (configs !! e) missing in
  ensure (paused c = from) wrong >>
  modify (fun s => s <| MarketConfigs ::= <[e := c <| paused := to |>]> |>).

Definition pause_market (origin : Origin) (e : Z) : Call_ :=
  let! who := signed origin in
  ensure_exists e >> ensure_owner_eq e who >>
  pause_config e false true (Module MarketNotEnabled) (Module MarketPaused) >>
  deposit_event (MarketPausedEvent e).

Definition resume_market (origin : Origin) (e : Z) : Call_ :=
  let! who := signed origin in
  ensure_exists e >> ensure_owner_eq e who >>
  pause_config e true false (Module MarketNotEnabled) (Module MarketNotPaused) >>
  deposit_event (MarketResumedEvent e).

Definition global_market_pause (origin : Origin) (paused_ : bool) : Call_ :=
  root origin >>
  modify (fun s => s <| GlobalMarketPaused := paused_ |>) >>
  deposit_event (GlobalMarketPauseToggled paused_).

Definition set_kyc_requirement (origin : Origin) (e min_kyc_level : Z) : Call_ :=
  let! who := signed origin in
  ensure_exists e >> ensure_owner e who >>
  modify (fun s => s <| MarketKycRequirement ::= <[e := min_kyc_level]> |>) >>
  deposit_event (KycRequirementSet e min_kyc_level).

Definition empty_and_close (env : Env) (e : Z) : M_ Z :=
  ensure_not_closed e >>
  let! cancelled := do_cancel_all_entity_orders cfg env e in
  modify (fun s => s <| MarketStatusStorage ::= <[e := Closed]> |>) >>
  ret cancelled.

Definition close_market (env : Env) (origin : Origin) (e : Z) : Call_ :=
  let! who := signed origin in
  ensure_exists e >> ensure_owner e who >>
  let! cancelled := empty_and_close env e in
  deposit_event (MarketClosed e cancelled).

Definition force_close_market (env : Env) (origin : Origin) (e : Z) : Call_ :=
  root origin >> ensure_exists e >>
  let! cancelled := empty_and_close env e in
  deposit_event (MarketForceClosed e cancelled).

(** * Market orders *)

Definition admit_market_order (env : Env) (e : Z) (who : AccountId) : Call_ :=
  ensure_market_enabled e >>
  ensure_circuit_breaker_inactive env e >>
  ensure_kyc_requirement e who >>
  ensure_trader_allowed e who.

Definition market_buy (env : Env) (origin : Origin) (e amount max_cost : Z) : Call_ :=
  let! who := signed origin in
  admit_market_order env e who >>
  ensure (amount <> 0) (Module AmountTooSmall) >>
  ensure (max_cost <> 0) (Module ZeroPrice) >>
  ensure_min_amount e amount >>
  let! orders := gets (fun s => get_sorted_orders env s e Sell) in
  ensure (orders <> []) (Module NoOrdersAvailable) >>
  let! result := do_market_buy cfg env who e amount max_cost orders in
  ensure (result.1 <> 0) (Module AmountTooSmall) >>
  deposit_event (MarketOrderExecuted e who Buy result.1 result.2).

Definition market_sell (env : Env) (origin : Origin) (e amount min_receive : Z) : Call_ :=
  let! who := signed origin in
  admit_market_order env e who >>
  ensure (amount <> 0) (Module AmountTooSmall) >>
  ensure_min_amount e amount >>
  ensure_tokens e who amount >>
  let! orders := gets (fun s => get_sorted_orders env s e Buy) in
  ensure (orders <> []) (Module NoOrdersAvailable) >>
  let! result := do_market_sell cfg env who e amount min_receive orders in
  ensure (result.1 <> 0) (Module AmountTooSmall) >>
  ensure (result.2 >= min_receive) (Module SlippageExceeded) >>
  deposit_event (MarketOrderExecuted e who Sell result.1 result.2).

(** What an order that does not rest gives back after matching. *)
Definition give_back (e : Z) (side_ : OrderSide) (who : AccountId) (amount price_ : Z)
    (crossed : Z * Z) : Call_ :=
  match side_ with
  | Sell =>
      let rest := sat_sub amount crossed.1 in
      if decide (rest = 0) then ret tt else unreserve_tokens e who rest
  | Buy =>
      let! total := calculate_total amount price_ in
      let excess := sat_sub total crossed.2 in
      if decide (excess = 0) then ret tt else currency_unreserve who excess
  end.

Definition place_ioc_order (env : Env) (origin : Origin) (e : Z) (side_ : OrderSide) (amount price_ : Z) : Call_ :=
  let! who := signed origin in
  admit_order env e who amount price_ >>
  lock_for e side_ who amount price_ >>
  let! crossed := do_cross_match cfg env who e side_ price_ amount in
  give_back e side_ who amount price_ crossed >>
  update_best_prices env e >>
  deposit_event (MarketOrderExecuted e who side_ crossed.1 crossed.2).

Definition place_fok_order (env : Env) (origin : Origin) (e : Z) (side_ : OrderSide) (amount price_ : Z) : Call_ :=
  let! who := signed origin in
  admit_order env e who amount price_ >>
  let! available := gets (fun s => check_fillable_amount env s e side_ price_ who) in
  ensure (available >= amount) (Module FokNotFullyFillable) >>
  lock_for e side_ who amount price_ >>
  let! crossed := do_cross_match cfg env who e side_ price_ amount in
  give_back e side_ who amount price_ crossed >>
  update_best_prices env e >>
  deposit_event (MarketOrderExecuted e who side_ crossed.1 crossed.2).

Definition would_match (env : Env) s (e : Z) (side_ : OrderSide) (price_ : Z) : bool :=
  match side_ with
  | Buy => match calculate_best_ask env s e with Some ask => bool_decide (price_ >= ask) | None => false end
  | Sell => match calculate_best_bid env s e with Some bid => bool_decide (price_ <= bid) | None => false end
  end.

Definition place_post_only_order (env : Env) (origin : Origin) (e : Z) (side_ : OrderSide)
    (amount price_ : Z) : Call_ :=
  let! who := signed origin in
  admit_order env e who amount price_ >>
  let! matches_now := gets (fun s => would_match env s e side_ price_) in
  ensure (matches_now = false) (Module PostOnlyWouldMatch) >>
  lock_for e side_ who amount price_ >>
  let! id := do_create_order cfg env e who side_ PostOnly amount price_ in
  update_best_prices env e >>
  deposit_event (OrderCreated id e who side_ amount price_).

(** * Cancelling *)

Definition force_cancel_order (env : Env) (origin : Origin) (id : Z) : Call_ :=
  root origin >>
  let! orders := gets Orders in
  let! o := ok_or (orders !! id) (Module OrderNotFound) in
  ensure (is_live o = true) (Module InvalidOrderStatus) >>
  release_nonzero (entity_id o) (side o) (maker o) (unfilled o) (price o) >>
  retire cfg id o Cancelled (entity_id o) (side o) >>
  update_best_prices env (entity_id o) >>
  deposit_event (OrderForceCancelled id).

Definition push_new (x : Z) (l : list Z) : list Z := if decide (x ∈ l) then l else l ++ [x].

(** The loop of [batch_cancel_orders]: cancelled, failed, the entities touched. *)
Fixpoint batch_cancel (who : AccountId) (ids : list Z) (cancelled failed : Z) (affected : list Z)
    : M_ (Z * Z * list Z) :=
  match ids with
  | [] => ret (cancelled, failed, affected)
  | id :: rest =>
      let! orders := gets Orders in
      match orders !! id with
      | Some o =>
          if decide (maker o <> who \/ is_live o = false)
          then batch_cancel who rest cancelled (failed + 1) affected
          else
            release_nonzero (entity_id o) (side o) (maker o) (unfilled o) (price o) >>
            retire cfg id o Cancelled (entity_id o) (side o) >>
            batch_cancel who rest (cancelled + 1) failed (push_new (entity_id o) affected)
      | None => batch_cancel who rest cancelled (failed + 1) affected
      end
  end.

Definition batch_cancel_orders (env : Env) (origin : Origin) (ids : list Z) : Call_ :=
  let! who := signed origin in
  let! result := batch_cancel who ids 0 0 [] in
  let '(cancelled, failed, affected) := result in
  for_each affected (update_best_prices env) >>
  deposit_event (BatchOrdersCancelled cancelled failed).

(** The loop over one book in [cleanup_expired_orders]; the number cleaned. *)
Fixpoint clean_listed (now e : Z) (side_ : OrderSide) (max_count : Z) (ids : list Z) (cleaned : Z) : M_ Z :=
  match ids with
  | [] => ret cleaned
  | id :: rest =>
      if decide (cleaned >= max_count) then ret cleaned else
      let! orders := gets Orders in
      match orders !! id with
      | Some o =>
          if decide (now > expires_at o /\ is_live o = true) then
            release_nonzero (entity_id o) side_ (maker o) (unfilled o) (price o) >>
            retire cfg id o Expired e side_ >>
            clean_listed now e side_ max_count rest (cleaned + 1)
          else clean_listed now e side_ max_count rest cleaned
      | None => clean_listed now e side_ max_count rest cleaned
      end
  end.

Definition cleanup_expired_orders (env : Env) (origin : Origin) (e max_count : Z) : Call_ :=
  let! who := signed origin in
  ensure (max_count > 0 /\ max_count <= 100) (Module TooManyOrders) >>
  let! sell_ids := gets (fun s => book s Sell e) in
  let! n := clean_listed (block_number env) e Sell max_count sell_ids 0 in
  let! buy_ids := gets (fun s => book s Buy e) in
  let! cleaned := clean_listed (block_number env) e Buy max_count buy_ids n in
  (if decide (cleaned > 0) then update_best_prices env e else ret tt) >>
  deposit_event (ExpiredOrdersCleaned e cleaned who).

(** The loop of [cancel_all_entity_orders]. *)
Definition cancel_own (e : Z) (who : AccountId) (id : Z) : M_ Z :=
  let! orders := gets Orders in
  match orders !! id with
  | Some o =>
      if is_live o then
        release e (side o) who (unfilled o) (price o) >>
        put_order id (o <| status := Cancelled |>) >>
        remove_from_order_book e id (side o) >>
        add_to_order_history cfg who id >>
        ret 1
      else ret 0
  | None => ret 0
  end.

(** Whether an id is of an order of this entity. *)
Definition of_entity (orders : gmap Z TradeOrder) (e id : Z) : bool :=
  match orders !! id with Some o => bool_decide (entity_id o = e) | None => false end.

Definition cancel_all_entity_orders (env : Env) (origin : Origin) (e : Z) : Call_ :=
  let! who := signed origin in
  ensure_exists e >>
  let! s := gets (fun s => s) in
  let! cancelled := count_each (filter (fun id => of_entity (Orders s) e id = true) (ids_of (UserOrders s) who))
    (cancel_own e who) in
  modify (fun s => s <| UserOrders ::= fun m =>
    <[who := filter (fun id => of_entity (Orders s) e id = false) (ids_of m who)]> m |>) >>
  update_best_prices env e >>
  deposit_event (AllEntityOrdersCancelled e who cancelled).

(** ** Modifying *)

(** What a smaller amount gives back, at the old price. *)
Definition shrink_lock (o : TradeOrder) (who : AccountId) (new_amount : Z) : Call_ :=
  let diff := sat_sub (token_amount o) new_amount in
  if decide (diff = 0) then ret tt else
  match side o with
  | Sell => unreserve_tokens (entity_id o) who diff
  | Buy =>
      let! refund := calculate_total diff (price o) in
      if decide (refund = 0) then ret tt else currency_unreserve who refund
  end.

(** The difference a new price makes to what a buy order locks. *)
Definition reprice_lock (o : TradeOrder) (who : AccountId) (new_price new_amount : Z) : Call_ :=
  if decide (new_price <> price o /\ side o = Buy) then
    let! old_total := calculate_total new_amount (price o) in
    let! new_total := calculate_total new_amount new_price in
    if decide (new_total > old_total) then currency_reserve who (sat_sub new_total old_total)
    else currency_unreserve who (sat_sub old_total new_total)
  else ret tt.

Definition modify_order (env : Env) (origin : Origin) (id new_price new_amount : Z) : Call_ :=
  let! who := signed origin in
  let! orders := gets Orders in
  let! o := ok_or (orders !! id) (Module OrderNotFound) in
  ensure (maker o = who) (Module NotOrderOwner) >>
  ensure (status o = Open) (Module InvalidOrderStatus) >>
  ensure (new_price <> 0) (Module ZeroPrice) >>
  ensure (new_amount <> 0) (Module AmountTooSmall) >>
  ensure_market_enabled (entity_id o) >>
  ensure_trader_allowed (entity_id o) who >>
  ensure_min_amount (entity_id o) new_amount >>
  ensure (new_amount <= token_amount o) (Module ModifyAmountExceedsOriginal) >>
  (if decide (new_price = price o) then ret tt else check_price_deviation cfg env (entity_id o) new_price) >>
  shrink_lock o who new_amount >>
  reprice_lock o who new_price new_amount >>
  put_order id (o <| price := new_price |> <| token_amount := new_amount |>) >>
  update_best_prices env (entity_id o) >>
  deposit_event (OrderModified id new_price new_amount).

(** * The sweep at the end of a block *)

Definition base_weight : Weight := mkWeight 5000 64.
Definition per_order_weight : Weight := mkWeight 30000 512.

(** The loop over a range of ids, while the budget lasts. *)
Fixpoint sweep (now : Z) (ids : list Z) (remaining consumed : Weight) (cleaned : Z) (affected : list Z)
    : M_ (Weight * Z * list Z) :=
  match ids with
  | [] => ret (consumed, cleaned, affected)
  | id :: rest =>
      if decide (cleaned >= 20) then ret (consumed, cleaned, affected)
      else if decide (ref_time remaining < ref_time per_order_weight \/
                      proof_size remaining < proof_size per_order_weight)
      then ret (consumed, cleaned, affected)
      else
        let! orders := gets Orders in
        match orders !! id with
        | Some o =>
            if decide (is_live o = true /\ now > expires_at o) then
              release (entity_id o) (side o) (maker o) (unfilled o) (price o) >>
              retire cfg id o Expired (entity_id o) (side o) >>
              sweep now rest (weight_sub (weight_sub remaining per_order_weight) base_weight)
                (weight_add (weight_add consumed per_order_weight) base_weight)
                (cleaned + 1) (push_new (entity_id o) affected)
            else sweep now rest (weight_sub remaining base_weight) (weight_add consumed base_weight)
                   cleaned affected
        | None => sweep now rest (weight_sub remaining base_weight) (weight_add consumed base_weight)
                    cleaned affected
        end
  end.

(** The ids one sweep may look at, from the cursor. *)
Definition sweep_range s : Z * Z :=
  let next_id := NextOrderId s in
  let start := if decide (OnIdleCursor s >= next_id) then 0 else OnIdleCursor s in
  (start, Z.min (sat_add u64_max start 200) next_id).

Definition on_idle (env : Env) (remaining : Weight) : M_ Weight :=
  let! s := gets (fun s => s) in
  let '(start, scan_end) := sweep_range s in
  let! result :=
    sweep (block_number env) (seqZ start (scan_end - start)) remaining (mkWeight 0 0) 0 [] in
  let '(consumed, cleaned, affected) := result in
  modify (fun s1 => s1 <| OnIdleCursor := if decide (scan_end >= NextOrderId s) then 0 else scan_end |>) >>
  for_each affected (update_best_prices env) >>
  (if decide (cleaned > 0) then deposit_event (ExpiredOrdersAutoCleaned cleaned) else ret tt) >>
  ret consumed.

(** * Prices for other pallets ([EntityTokenPriceProvider]) *)

Definition get_token_price (env : Env) s (e : Z) : option Z :=
  match calculate_twap cfg env s e OneHour with
  | Some p => Some p
  | None => match LastTradePrice s !! e with
            | Some p => Some p
            | None => PriceProtection s !! e ≫= initial_price
            end
  end.

(** The cast to u64 at the end drops the upper half. *)
Definition get_token_price_usdt (env : Env) s (e : Z) : option Z :=
  token_nex_price ← get_token_price env s e;
  let nex_usdt_price := get_nex_usdt_price (world s) in
  if decide (nex_usdt_price = 0) then None
  else Some ((sat_mul u128_max token_nex_price nex_usdt_price / 1000000000000) mod (u64_max + 1)).

Definition token_price_confidence (env : Env) s (e : Z) : Z :=
  match TwapAccumulators s !! e with
  | None => if decide (is_Some (PriceProtection s !! e ≫= initial_price)) then 35 else 0
  | Some acc =>
      let stale := sat_sub (block_number env) (current_block acc) >? 2400 in
      let has_twap := bool_decide (is_Some (calculate_twap cfg env s e OneHour)) in
      let has_last_trade := bool_decide (is_Some (LastTradePrice s !! e)) in
      if stale then (if has_twap then 25 else if has_last_trade then 15 else 10)
      else if has_twap && (trade_count acc >=? 100) then 95
      else if has_twap then 80
      else if has_last_trade then 65
      else 35
  end.

Definition is_token_price_stale (env : Env) s (e max_age_blocks : Z) : bool :=
  match TwapAccumulators s !! e with
  | Some acc => sat_sub (block_number env) (current_block acc) >? max_age_blocks
  | None => true
  end.

(** * Governance ([MarketGovernancePort]) *)

Definition governance_set_market_config (e min_amount ttl : Z) : Call_ :=
  let! s := gets (fun s => s) in
  ensure (market_status s e <> Closed) (Module GovernanceRefused) >>
  ensure (ttl >= 10) (Module GovernanceRefused) >>
  modify (fun s => s <| MarketConfigs ::= <[e := (config_of s e)
    <| min_order_amount := min_amount |> <| order_ttl := ttl |>]> |>) >>
  deposit_event (MarketConfigured e).

Definition governance_pause_market (e : Z) : Call_ :=
  pause_config e false true (Module GovernanceRefused) (Module GovernanceRefused) >>
  deposit_event (MarketPausedEvent e).

Definition governance_resume_market (e : Z) : Call_ :=
  pause_config e true false (Module GovernanceRefused) (Module GovernanceRefused) >>
  deposit_event (MarketResumedEvent e).

Definition governance_close_market (env : Env) (e : Z) : Call_ :=
  let! s := gets (fun s => s) in
  ensure (market_status s e <> Closed) (Module GovernanceRefused) >>
  let! cancelled := do_cancel_all_entity_orders cfg env e in
  modify (fun s => s <| MarketStatusStorage ::= <[e := Closed]> |>) >>
  deposit_event (MarketClosed e cancelled).

Definition governance_set_price_protection (e deviation slippage threshold min_trades : Z) : Call_ :=
  ensure (deviation <= 10000) (Module GovernanceRefused) >>
  ensure (slippage <= 10000) (Module GovernanceRefused) >>
  ensure (threshold <= 10000) (Module GovernanceRefused) >>
  modify (fun s => s <| PriceProtection ::= <[e := (protection_of s e)
    <| max_price_deviation := deviation |> <| max_slippage := slippage |>
    <| circuit_breaker_threshold := threshold |> <| min_trades_for_twap := min_trades |>]> |>) >>
  deposit_event (PriceProtectionConfigured e true deviation slippage).

Definition governance_set_market_kyc (e min_kyc_level : Z) : Call_ :=
  modify (fun s => s <| MarketKycRequirement ::= <[e := min_kyc_level]> |>) >>
  deposit_event (KycRequirementSet e min_kyc_level).

Definition governance_lift_circuit_breaker (env : Env) (e : Z) : Call_ :=
  let! protection := gets PriceProtection in
  let! c := ok_or (protection !! e) (Module GovernanceRefused) in
  ensure (circuit_breaker_active c = true) (Module GovernanceRefused) >>
  ensure (block_number env >= circuit_breaker_until c) (Module GovernanceRefused) >>
  modify (fun s => s <| PriceProtection ::= <[e := c
    <| circuit_breaker_active := false |> <| circuit_breaker_until := 0 |>]> |>) >>
  deposit_event (CircuitBreakerLifted e).

(** * Steps *)

Inductive Call : Type :=
| CPlaceSell (e amount price_ : Z)
| CPlaceBuy (e amount price_ : Z)
| CTake (id : Z) (amount : option Z)
| CCancel (id : Z)
| CConfigure (e : Z) (enabled_ : bool) (min_amount ttl : Z)
| CConfigureProtection (e : Z) (enabled_ : bool) (deviation slippage threshold min_trades : Z)
| CLiftBreaker (e : Z)
| CSetInitialPrice (e price_ : Z)
| CMarketBuy (e amount max_cost : Z)
| CMarketSell (e amount min_receive : Z)
| CForceCancel (id : Z)
| CPause (e : Z)
| CResume (e : Z)
| CBatchCancel (ids : list Z)
| CCleanup (e max_count : Z)
| CModify (id new_price new_amount : Z)
| CGlobalPause (paused_ : bool)
| CSetKyc (e level : Z)
| CClose (e : Z)
| CCancelAll (e : Z)
| CGovConfigure (e : Z) (enabled_ : bool) (min_amount ttl : Z)
| CForceClose (e : Z)
| CIoc (e : Z) (side_ : OrderSide) (amount price_ : Z)
| CFok (e : Z) (side_ : OrderSide) (amount price_ : Z)
| CPostOnly (e : Z) (side_ : OrderSide) (amount price_ : Z)
| CGovProtection (e : Z) (enabled_ : bool) (deviation slippage threshold min_trades : Z)
| CForceLift (e : Z).

Definition dispatch (env : Env) (origin : Origin) (c : Call) : Call_ :=
  match c with
  | CPlaceSell e amount price_ => place_sell_order env origin e amount price_
  | CPlaceBuy e amount price_ => place_buy_order env origin e amount price_
  | CTake id amount => take_order env origin id amount
  | CCancel id => cancel_order env origin id
  | CConfigure e en m ttl => configure_market env origin e en m ttl
  | CConfigureProtection e en d sl th mt => configure_price_protection origin e en d sl th mt
  | CLiftBreaker e => lift_circuit_breaker env origin e
  | CSetInitialPrice e price_ => set_initial_price env origin e price_
  | CMarketBuy e amount max_cost => market_buy env origin e amount max_cost
  | CMarketSell e amount min_receive => market_sell env origin e amount min_receive
  | CForceCancel id => force_cancel_order env origin id
  | CPause e => pause_market origin e
  | CResume e => resume_market origin e
  | CBatchCancel ids => batch_cancel_orders env origin ids
  | CCleanup e max_count => cleanup_expired_orders env origin e max_count
  | CModify id new_price new_amount => modify_order env origin id new_price new_amount
  | CGlobalPause paused_ => global_market_pause origin paused_
  | CSetKyc e level => set_kyc_requirement origin e level
  | CClose e => close_market env origin e
  | CCancelAll e => cancel_all_entity_orders env origin e
  | CGovConfigure e en m ttl => governance_configure_market env origin e en m ttl
  | CForceClose e => force_close_market env origin e
  | CIoc e sd amount price_ => place_ioc_order env origin e sd amount price_
  | CFok e sd amount price_ => place_fok_order env origin e sd amount price_
  | CPostOnly e sd amount price_ => place_post_only_order env origin e sd amount price_
  | CGovProtection e en d sl th mt => governance_configure_price_protection origin e en d sl th mt
  | CForceLift e => force_lift_circuit_breaker origin e
  end.

(** Operations the governance pallet runs through the port. *)
Inductive PortCall : Type :=
| PSetConfig (e min_amount ttl : Z)
| PPause (e : Z)
| PResume (e : Z)
| PClose (e : Z)
| PSetProtection (e deviation slippage threshold min_trades : Z)
| PSetKyc (e level : Z)
| PLift (e : Z).

Definition port (env : Env) (c : PortCall) : Call_ :=
  match c with
  | PSetConfig e m ttl => governance_set_market_config e m ttl
  | PPause e => governance_pause_market e
  | PResume e => governance_resume_market e
  | PClose e => governance_close_market env e
  | PSetProtection e d sl th mt => governance_set_price_protection e d sl th mt
  | PSetKyc e level => governance_set_market_kyc e level
  | PLift e => governance_lift_circuit_breaker env e
  end.

(** The state before the first order, over any state of the other pallets. *)
Definition genesis (l : L) (tk : T) (w : W) : State L T W :=
  mkState L T W 0 ∅ ∅ ∅ ∅ ∅ ∅ ∅ ∅ ∅ false ∅ ∅ 0 ∅ ∅ ∅ ∅ ∅ ∅ 0 ∅ default_stats l tk w [].

End Pallet.

(** * A concrete market

    Account 9 owns entity 1 and opens its market at a price of 10; account 2
    offers 50 of its tokens, account 1 bids for 20 and then for 40 at a lower
    price. *)

Definition demo_cfg : Config := mkConfig 100 10 20 40 50 200 200 100.
Definition demo_env (n : Z) : Env := mkEnv n 0 0 [].

Definition demo_genesis : State SimpleLedger SimpleTokens SimpleWorld :=
  genesis (list_to_map [(1%N, (1000%N, 0%N)); (2%N, (1000%N, 0%N)); (3%N, (1000%N, 0%N))])
    (list_to_map [((1, 2%N), (500%N, 0%N)); ((1, 3%N), (500%N, 0%N))]) (mkSimpleWorld 9%N).

Definition play_one (s : State SimpleLedger SimpleTokens SimpleWorld) (c : Env * SimpleOrigin * Call) :=
  (transactional (dispatch demo_cfg c.1.1 c.1.2 c.2) s).2.

Definition play (calls : list (Env * SimpleOrigin * Call)) s := foldl play_one s calls.

Definition demo_opening : list (Env * SimpleOrigin * Call) :=
  [(demo_env 1, SignedBy 9%N, CConfigure 1 true 0 100);
   (demo_env 1, SignedBy 9%N, CSetInitialPrice 1 10)].

Definition demo_orders : list (Env * SimpleOrigin * Call) :=
  [(demo_env 2, SignedBy 2%N, CPlaceSell 1 50 10);
   (demo_env 3, SignedBy 1%N, CPlaceBuy 1 20 10);
   (demo_env 4, SignedBy 1%N, CPlaceBuy 1 40 9)].

Definition demo_open := play demo_opening demo_genesis.
Definition demo_traded := play demo_orders demo_open.

(** Order 0 is left with 30 tokens to sell, order 1 (the bid at 9) with 40 to buy. *)
Example demo_books :
  (map order_id (get_sell_orders (demo_env 5) demo_traded 1),
   map unfilled (get_sell_orders (demo_env 5) demo_traded 1),
   map unfilled (get_buy_orders (demo_env 5) demo_traded 1),
   LastTradePrice demo_traded !! 1) = ([0], [30], [40], Some 10).
Proof. vm_compute. reflexivity. Qed.

End MarketCalls.
