(* ===== verification/MarketFunds.v ===== *)
(** What orders lock is there: every open order of the market is covered by what
    its maker has reserved, the books and the lists of users name exactly the
    open orders, and no call of the pallet changes what anybody has reserved
    beyond that. *)

From S2P Require Import Prelude Frame EntityPorts EntityMarket MarketCalls.

Module MarketFunds.
Import Market MarketCalls.

(** Books and users' lists. *)
Inductive Index : Type := IBook (side_ : OrderSide) (e : Z) | IUser (who : AccountId).

#[export] Instance index_eq_dec : EqDecision Index.
Proof. solve_decision. Defined.

Section Pallet.
Context `{FrameSystem} {L T W : Type}.
Context `{RepatriatingCurrency L} `{EntityTokens T} `{EntityQueries W} (cfg : Config).
Implicit Types (s : State L T W).

(** * What the accounts of a state depend on *)

Definition core s :=
  (NextOrderId s, Orders s, EntitySellOrders s, EntityBuyOrders s, UserOrders s, currency s, tokens s).

Abbreviation quiet m := (framed (E:=DispatchError Error) core m).

Ltac quiet_tac := repeat (intros; cbv zeta); framed_tac.

Lemma deposit_event_quiet e : quiet (deposit_event e).
Proof. unfold deposit_event. framed_tac. Qed.

Lemma disarm_quiet e : quiet (disarm e).
Proof. unfold disarm. framed_tac. Qed.

Lemma check_price_deviation_quiet env e p : quiet (check_price_deviation cfg env e p).
Proof. unfold check_price_deviation, disarm, deposit_event. framed_tac. Qed.

Lemma on_trade_completed_quiet env e p : quiet (on_trade_completed cfg env e p).
Proof.
  unfold on_trade_completed, update_twap_accumulator, update_last_trade_price, check_circuit_breaker,
    deposit_event. framed_tac.
Qed.

Lemma ensure_market_enabled_quiet e : quiet (ensure_market_enabled e).
Proof. unfold ensure_market_enabled, ensure_price_anchor_exists. framed_tac. Qed.

Lemma ensure_circuit_breaker_inactive_quiet env e : quiet (ensure_circuit_breaker_inactive env e).
Proof. unfold ensure_circuit_breaker_inactive, disarm, deposit_event. framed_tac. Qed.

Lemma ensure_kyc_requirement_quiet e who : quiet (ensure_kyc_requirement e who).
Proof. unfold ensure_kyc_requirement. framed_tac. Qed.

Lemma update_best_prices_quiet env e : quiet (update_best_prices env e).
Proof. unfold update_best_prices. framed_tac. Qed.

Lemma update_trade_stats_quiet e nex : quiet (update_trade_stats e nex).
Proof. unfold update_trade_stats. framed_tac. Qed.

Lemma record_trade_quiet env id e mk tk sd a p nex : quiet (record_trade cfg env id e mk tk sd a p nex).
Proof. unfold record_trade, update_daily_stats, deposit_event. framed_tac. Qed.

Lemma add_to_order_history_quiet who id : quiet (add_to_order_history cfg who id).
Proof. unfold add_to_order_history. framed_tac. Qed.

Lemma ensure_trader_allowed_quiet e who : quiet (ensure_trader_allowed e who).
Proof. unfold ensure_trader_allowed. framed_tac. Qed.

Lemma ensure_min_amount_quiet e a : quiet (ensure_min_amount e a).
Proof. unfold ensure_min_amount. framed_tac. Qed.

Lemma ensure_tokens_quiet e who a : quiet (ensure_tokens e who a).
Proof. unfold ensure_tokens. framed_tac. Qed.

Lemma refresh_if_filled_quiet env e r : quiet (refresh_if_filled env e r).
Proof. unfold refresh_if_filled, update_best_prices. framed_tac. Qed.

(** * Locks *)

(** What an open order keeps reserved: a buy order the price of the tokens still
    to come, a sell order those tokens. *)
Definition lock_nex (o : TradeOrder) : Z :=
  if decide (is_live o = true /\ side o = Buy) then unfilled o * price o else 0.

Definition lock_tokens (o : TradeOrder) : Z :=
  if decide (is_live o = true /\ side o = Sell) then unfilled o else 0.

(** An amount of one account, of one account's holding of a token. *)
Definition at_acc (who : AccountId) (a : Z) (x : AccountId) : Z := if decide (x = who) then a else 0.

Definition at_token (e : Z) (who : AccountId) (a : Z) (e' : Z) (x : AccountId) : Z :=
  if decide (e' = e /\ x = who) then a else 0.

Definition locked_nex s (x : AccountId) : Z :=
  msum (fun _ o => at_acc (maker o) (lock_nex o) x) (Orders s).

Definition locked_tokens s (e : Z) (x : AccountId) : Z :=
  msum (fun _ o => at_token (entity_id o) (maker o) (lock_tokens o) e x) (Orders s).

Record order_ok (o : TradeOrder) : Prop := {
  ok_filled : 0 <= filled_amount o <= token_amount o;
  ok_amount : token_amount o <= u128_max;
  ok_price : 0 <= price o <= u128_max;
  ok_open : is_live o = true -> filled_amount o < token_amount o;
  ok_total : is_live o = true -> side o = Buy -> unfilled o * price o <= u128_max;
  ok_untouched : status o = Open -> filled_amount o = 0;
}.

(** Every account has reserved what its orders lock and [c] more, and of every
    token [t] more. *)
Record funded (c : AccountId -> Z) (t : Z -> AccountId -> Z) s : Prop := {
  f_next : 0 <= NextOrderId s;
  f_id : forall i o, Orders s !! i = Some o -> order_id o = i /\ i < NextOrderId s;
  f_ok : forall i o, Orders s !! i = Some o -> order_ok o;
  f_nex : forall x, reserved_balance x (currency s) = locked_nex s x + c x;
  f_tokens : forall e x, token_reserved e x (tokens s) = locked_tokens s e x + t e x;
}.

Definition index_of s (k : Index) : list Z :=
  match k with IBook sd e => book s sd e | IUser who => ids_of (UserOrders s) who end.

Definition belongs (o : TradeOrder) (k : Index) : Prop :=
  match k with IBook sd e => side o = sd /\ entity_id o = e | IUser who => maker o = who end.

Definition open_in s (k : Index) (i : Z) : Prop :=
  exists o, Orders s !! i = Some o /\ is_live o = true /\ belongs o k.

(** The indexes in [K] list the open orders that belong to them, once each. *)
Definition indexed (K : Index -> Prop) s : Prop :=
  forall k, K k -> NoDup (index_of s k) /\ forall i, i ∈ index_of s k <-> open_in s k i.

Definition all_indexes (k : Index) : Prop := True.

Record good (K : Index -> Prop) (c : AccountId -> Z) (t : Z -> AccountId -> Z) s : Prop := {
  g_funded : funded c t s;
  g_indexed : indexed K s;
}.

Lemma funded_core c t s s' : core s' = core s -> funded c t s -> funded c t s'.
Proof.
  intros [= Hn Ho _ _ _ Hc Ht] [? Hi Hk Hx Ht']. unfold locked_nex, locked_tokens in *.
  split; unfold locked_nex, locked_tokens; rewrite ?Hn, ?Ho, ?Hc, ?Ht; done.
Qed.

Lemma indexed_core K s s' : core s' = core s -> indexed K s -> indexed K s'.
Proof.
  intros [= Hn Ho Hs Hb Hu Hc Ht] Hi k HK. destruct (Hi k HK) as [Hnd Hin].
  assert (index_of s' k = index_of s k) as ->.
  { destruct k as [[] ? |]; unfold index_of, book; congruence. }
  split; [done |]. intros i. rewrite Hin. unfold open_in. by rewrite Ho.
Qed.

Lemma good_core K c t s s' : core s' = core s -> good K c t s -> good K c t s'.
Proof. intros Hc [? ?]. split; [by eapply funded_core | by eapply indexed_core]. Qed.

Lemma funded_ext c t c' t' s :
  (forall x, c x = c' x) -> (forall e x, t e x = t' e x) -> funded c t s -> funded c' t' s.
Proof.
  intros Hc Ht [? ? ? Hx Hy]. split; try done; intros; [rewrite Hx, Hc | rewrite Hy, Ht]; done.
Qed.

Lemma good_ext K c t c' t' s :
  (forall x, c x = c' x) -> (forall e x, t e x = t' e x) -> good K c t s -> good K c' t' s.
Proof. intros ? ? [? ?]. split; [by eapply funded_ext | done]. Qed.

(** ** Arithmetic of locks *)

Lemma unfilled_pos o : order_ok o -> 0 <= unfilled o <= token_amount o.
Proof. intros [? ? ? ? ? ?]. unfold unfilled, sat_sub. lia. Qed.

Lemma lock_nex_nonneg o : order_ok o -> 0 <= lock_nex o.
Proof.
  intros Hok. pose proof (unfilled_pos o Hok). destruct Hok. unfold lock_nex. case_decide; nia.
Qed.

Lemma lock_tokens_nonneg o : order_ok o -> 0 <= lock_tokens o.
Proof. intros Hok. pose proof (unfilled_pos o Hok). unfold lock_tokens. case_decide; lia. Qed.

Lemma at_acc_nonneg who a x : 0 <= a -> 0 <= at_acc who a x.
Proof. unfold at_acc. case_decide; lia. Qed.

Lemma at_token_nonneg e who a e' x : 0 <= a -> 0 <= at_token e who a e' x.
Proof. unfold at_token. case_decide; lia. Qed.

Lemma at_acc_eq who a : at_acc who a who = a.
Proof. unfold at_acc. by rewrite decide_True. Qed.

Lemma at_token_eq e who a : at_token e who a e who = a.
Proof. unfold at_token. by rewrite decide_True. Qed.

(** What an order locks is covered, and on top of that what its maker has left. *)
Lemma lock_nex_reserved c t s i o :
  funded c t s -> Orders s !! i = Some o -> lock_nex o + c (maker o) <= reserved_balance (maker o) (currency s).
Proof.
  intros [_ _ Hok Hx _] Hi. rewrite Hx.
  assert (at_acc (maker o) (lock_nex o) (maker o) <= locked_nex s (maker o)); [| rewrite at_acc_eq in *; lia].
  apply (msum_elem_le (fun _ o' => at_acc (maker o') (lock_nex o') (maker o)) _ i o); [| done].
  intros k v Hk. apply at_acc_nonneg, lock_nex_nonneg. eauto.
Qed.

Lemma lock_tokens_reserved c t s i o :
  funded c t s -> Orders s !! i = Some o ->
  lock_tokens o + t (entity_id o) (maker o) <= token_reserved (entity_id o) (maker o) (tokens s).
Proof.
  intros [_ _ Hok _ Ht] Hi. rewrite Ht.
  assert (at_token (entity_id o) (maker o) (lock_tokens o) (entity_id o) (maker o) <=
    locked_tokens s (entity_id o) (maker o)); [| rewrite at_token_eq in *; lia].
  apply (msum_elem_le (fun _ o' =>
    at_token (entity_id o') (maker o') (lock_tokens o') (entity_id o) (maker o)) _ i o); [| done].
  intros k v Hk. apply at_token_nonneg, lock_tokens_nonneg. eauto.
Qed.

Lemma spare_nex_reserved c t s x : funded c t s -> c x <= reserved_balance x (currency s).
Proof.
  intros [_ _ Hok Hx _]. rewrite Hx. enough (0 <= locked_nex s x) by lia.
  apply msum_nonneg. intros k v Hk. apply at_acc_nonneg, lock_nex_nonneg. eauto.
Qed.

Lemma spare_tokens_reserved c t s e x : funded c t s -> t e x <= token_reserved e x (tokens s).
Proof.
  intros [_ _ Hok _ Ht]. rewrite Ht. enough (0 <= locked_tokens s e x) by lia.
  apply msum_nonneg. intros k v Hk. apply at_token_nonneg, lock_tokens_nonneg. eauto.
Qed.

(** * Money moving *)

Section Money.
Context `{!ReservableCurrencyLaws L} `{!RepatriatingCurrencyLaws L} `{!EntityTokensLaws T}.
Context (K : Index -> Prop) (c : AccountId -> Z) (t : Z -> AccountId -> Z).

Definition shape s := (NextOrderId s, Orders s, EntitySellOrders s, EntityBuyOrders s, UserOrders s).

Lemma good_money c' t' s s' :
  shape s' = shape s ->
  (forall x, reserved_balance x (currency s') = reserved_balance x (currency s) + (c' x - c x)) ->
  (forall e x, token_reserved e x (tokens s') = token_reserved e x (tokens s) + (t' e x - t e x)) ->
  good K c t s -> good K c' t' s'.
Proof.
  intros [= Hn Ho Hs Hb Hu] Hc Ht [[? ? ? Hx Hy] Hi]. split.
  - split; unfold locked_nex, locked_tokens in *; rewrite ?Hn, ?Ho; try done.
    + intros x. rewrite Hc, Hx. lia.
    + intros e x. rewrite Ht, Hy. lia.
  - intros k HK. destruct (Hi k HK) as [Hnd Hin].
    assert (index_of s' k = index_of s k) as ->.
    { destruct k as [[] ? |]; unfold index_of, book; congruence. }
    split; [done |]. intros i. rewrite Hin. unfold open_in. by rewrite Ho.
Qed.

Lemma currency_reserve_good who a s u s' :
  good K c t s -> 0 <= a -> currency_reserve who a s = (Ok u, s') ->
  good K (fun x => c x + at_acc who a x) t s' /\ shape s' = shape s.
Proof.
  intros Hg Ha Hr. unfold currency_reserve in Hr. m_inv. split; [| done].
  eapply good_money, Hg; [done | | intros; simpl; lia].
  intros x. simpl. rewrite (reserve_reserved who a (currency s) _ x) by done. unfold at_acc. lia.
Qed.

Lemma currency_unreserve_good who a s u s' :
  good K c t s -> 0 <= a <= reserved_balance who (currency s) ->
  currency_unreserve who a s = (Ok u, s') ->
  good K (fun x => c x - at_acc who a x) t s' /\ shape s' = shape s.
Proof.
  intros Hg Ha Hr. unfold currency_unreserve in Hr. m_inv. split; [| done].
  eapply good_money, Hg; [done | | intros; simpl; lia].
  intros x. simpl. rewrite unreserve_exact by done. unfold at_acc. lia.
Qed.

Lemma currency_repatriate_good from to a s u s' :
  good K c t s -> from <> to -> 0 <= a <= reserved_balance from (currency s) ->
  currency_repatriate from to a s = (Ok u, s') ->
  good K (fun x => c x - at_acc from a x) t s' /\ shape s' = shape s.
Proof.
  intros Hg Hne Ha Hr. unfold currency_repatriate in Hr. m_inv.
  match goal with Hm : repatriate_reserved _ _ _ _ = Some ?p |- _ => destruct p as [l' rest] end.
  split; [| done]. eapply good_money, Hg; [done | | intros; simpl; lia].
  intros x. simpl. rewrite (repatriate_reserves from to a (currency s) l' rest x) by (done || lia).
  unfold at_acc. case_decide; lia.
Qed.

Lemma currency_transfer_good from to a s u s' :
  good K c t s -> from <> to -> 0 <= a -> currency_transfer from to a s = (Ok u, s') ->
  good K c t s' /\ shape s' = shape s.
Proof.
  intros Hg Hne Ha Hr. unfold currency_transfer in Hr. m_inv. split; [| done].
  eapply good_money, Hg; [done | | intros; simpl; lia].
  intros x. simpl. rewrite (transfer_free_reserves from to a (currency s) _ x) by done. lia.
Qed.

Lemma reserve_tokens_good e who a s u s' :
  good K c t s -> 0 <= a -> reserve_tokens e who a s = (Ok u, s') ->
  good K c (fun e' x => t e' x + at_token e who a e' x) s' /\ shape s' = shape s.
Proof.
  intros Hg Ha Hr. unfold reserve_tokens in Hr. m_inv. split; [| done].
  eapply good_money, Hg; [done | intros; simpl; lia |].
  intros e' x. simpl. rewrite (token_reserve_reserved e who a (tokens s)) by done. unfold at_token. lia.
Qed.

Lemma unreserve_tokens_good e who a s u s' :
  good K c t s -> 0 <= a <= token_reserved e who (tokens s) ->
  unreserve_tokens e who a s = (Ok u, s') ->
  good K c (fun e' x => t e' x - at_token e who a e' x) s' /\ shape s' = shape s.
Proof.
  intros Hg Ha Hr. unfold unreserve_tokens in Hr. m_inv. split; [| done].
  eapply good_money, Hg; [done | intros; simpl; lia |].
  intros e' x. simpl. rewrite token_unreserve_reserved by lia. unfold at_token.
  case_decide; lia.
Qed.

Lemma repatriate_tokens_good e from to a s u s' :
  good K c t s -> from <> to -> 0 <= a <= token_reserved e from (tokens s) ->
  repatriate_tokens e from to a s = (Ok u, s') ->
  good K c (fun e' x => t e' x - at_token e from a e' x) s' /\ shape s' = shape s.
Proof.
  intros Hg Hne Ha Hr. unfold repatriate_tokens in Hr. m_inv.
  match goal with Hm : token_repatriate _ _ _ _ _ = Some ?p |- _ => destruct p as [t1 moved] end.
  split; [| done]. eapply good_money, Hg; [done | intros; simpl; lia |].
  intros e' x. simpl. rewrite (token_repatriate_reserved e from to a (tokens s) t1 moved) by (done || lia).
  unfold at_token. case_decide; lia.
Qed.
End Money.

(** * An order changing *)

Lemma funded_put c t s s' id o o' :
  funded c t s -> Orders s !! id = Some o ->
  order_id o' = id -> order_ok o' -> maker o' = maker o -> entity_id o' = entity_id o ->
  NextOrderId s' = NextOrderId s -> Orders s' = <[id := o']> (Orders s) ->
  currency s' = currency s -> tokens s' = tokens s ->
  funded (fun x => c x + at_acc (maker o) (lock_nex o - lock_nex o') x)
    (fun e x => t e x + at_token (entity_id o) (maker o) (lock_tokens o - lock_tokens o') e x) s'.
Proof.
  intros [Hn Hi Hk Hx Hy] Ho Hid Hok Hm He Hn' Ho' Hc Ht. split.
  - by rewrite Hn'.
  - rewrite Hn', Ho'. intros j oj Hj. map_cases; [| eauto]. split; [done | by eapply Hi].
  - rewrite Ho'. intros j oj Hj. map_cases; eauto.
  - intros x. rewrite Hc, Hx. unfold locked_nex. rewrite Ho', msum_insert, Ho, Hm. simpl.
    unfold at_acc. case_decide; lia.
  - intros e x. rewrite Ht, Hy. unfold locked_tokens. rewrite Ho', msum_insert, Ho, Hm, He. simpl.
    unfold at_token. case_decide; lia.
Qed.

(** Still open and in the same indexes. *)
Lemma indexed_put_open K s s' id o o' :
  indexed K s -> Orders s !! id = Some o -> is_live o = true -> is_live o' = true ->
  (forall k, belongs o' k <-> belongs o k) ->
  Orders s' = <[id := o']> (Orders s) -> (forall k, index_of s' k = index_of s k) -> indexed K s'.
Proof.
  intros Hi Ho Hl Hl' Hb Ho' Hk k HK. destruct (Hi k HK) as [Hnd Hin]. rewrite Hk. split; [done |].
  intros j. rewrite Hin. unfold open_in. rewrite Ho'. rewrite lookup_insert. case_decide as Hj; [subst j | done].
  split; intros (o1 & Ho1 & _ & Hb1); simplify_eq; eexists; (split_and!; [done | done | by apply Hb]).
Qed.

(** Closed and taken out of its indexes. *)
Lemma indexed_put_closed K s s' id o o' :
  indexed K s -> Orders s !! id = Some o -> is_live o' = false ->
  Orders s' = <[id := o']> (Orders s) ->
  (forall k, K k -> (belongs o k /\ index_of s' k = without id (index_of s k)) \/
                    (~ belongs o k /\ index_of s' k = index_of s k)) ->
  indexed K s'.
Proof.
  intros Hi Ho Hl' Ho' Hk k HK. destruct (Hi k HK) as [Hnd Hin]. split.
  - destruct (Hk k HK) as [[_ ->] | [_ ->]]; [by apply NoDup_filter | done].
  - intros j. unfold open_in. rewrite Ho', lookup_insert. case_decide as Hj; [subst j |].
    + split; [| intros (o1 & [= <-] & ? & _); congruence]. intros Hin'. exfalso.
      destruct (Hk k HK) as [[_ Heq] | [Hnb Heq]]; rewrite Heq in Hin'.
      * by apply list_elem_of_filter in Hin' as [? _].
      * apply Hin in Hin' as (o1 & Ho1 & _ & Hb). congruence.
    + fold (open_in s k j). rewrite <- Hin.
      destruct (Hk k HK) as [[_ ->] | [_ ->]]; [| done].
      unfold without. rewrite list_elem_of_filter. split; [tauto |]. intros ?. split; [congruence | done].
Qed.

Lemma ids_of_insert {I} `{Countable I} (m : gmap I (list Z)) i l j :
  ids_of (<[i := l]> m) j = if decide (i = j) then l else ids_of m j.
Proof. unfold ids_of. rewrite lookup_insert. by case_decide. Qed.

Definition closed_status (st : OrderStatus) : Prop := st <> Open /\ st <> PartiallyFilled.

Lemma closed_not_live o st : closed_status st -> is_live (o <| status := st |>) = false.
Proof. intros [? ?]. apply bool_decide_eq_false. simpl. tauto. Qed.

Lemma not_live_locks o : is_live o = false -> lock_nex o = 0 /\ lock_tokens o = 0.
Proof. intros Hl. unfold lock_nex, lock_tokens. rewrite Hl. by rewrite !decide_False by (intros [? _]; done). Qed.

Lemma order_ok_closed o st : order_ok o -> closed_status st -> order_ok (o <| status := st |>).
Proof.
  intros [? ? ? _ _ _] Hst. pose proof (closed_not_live o st Hst) as Hl.
  split; try done; intros Hl'; first [congruence | by destruct Hst].
Qed.

Lemma belongs_iff o k : belongs o k <-> k = IBook (side o) (entity_id o) \/ k = IUser (maker o).
Proof.
  destruct k; simpl; split.
  - intros [<- <-]. by left.
  - by intros [[= <- <-] | [=]].
  - intros <-. by right.
  - by intros [[=] | [= <-]].
Qed.

(** An order leaves its book and its maker's list. *)
Definition unlisted s s' (o : TradeOrder) (id : Z) : Prop :=
  forall k, index_of s' k = if decide (k = IBook (side o) (entity_id o) \/ k = IUser (maker o))
                            then without id (index_of s k) else index_of s k.

Lemma indexed_unlisted K s s' id o o' :
  indexed K s -> Orders s !! id = Some o -> is_live o' = false ->
  Orders s' = <[id := o']> (Orders s) -> unlisted s s' o id -> indexed K s'.
Proof.
  intros Hi Ho Hl Ho' Hu. eapply indexed_put_closed; try done. intros k _. rewrite Hu.
  case_decide as Hd; [left | right]; split; try done; by rewrite belongs_iff.
Qed.

Lemma remove_indexes e id sd who s u s' :
  (remove_from_order_book e id sd >> remove_from_user who id) s = (Ok u, s') ->
  NextOrderId s' = NextOrderId s /\ Orders s' = Orders s /\ currency s' = currency s /\ tokens s' = tokens s /\
  forall k, index_of s' k = if decide (k = IBook sd e \/ k = IUser who)
                            then without id (index_of s k) else index_of s k.
Proof.
  intros Hr. unfold remove_from_order_book, remove_from_user in Hr.
  destruct sd; m_inv; split_and!; try done; intros [sd' e' | who']; simpl; unfold book; simpl;
    try destruct sd'; rewrite ?ids_of_insert; repeat case_decide; destruct_or?; simplify_eq; try done; tauto.
Qed.

Lemma retire_state id o st e sd s u s' :
  retire cfg id o st e sd s = (Ok u, s') ->
  NextOrderId s' = NextOrderId s /\ Orders s' = <[id := o <| status := st |>]> (Orders s) /\
  currency s' = currency s /\ tokens s' = tokens s /\
  forall k, index_of s' k = if decide (k = IBook sd e \/ k = IUser (maker o))
                            then without id (index_of s k) else index_of s k.
Proof.
  intros Hr. unfold retire in Hr. apply bind_Ok in Hr as (? & s1 & Hp & Hr).
  unfold put_order in Hp. m_inv.
  match goal with Ha : add_to_order_history _ _ _ ?s2 = _ |- _ => apply add_to_order_history_quiet in Ha; injection Ha as Hn Ho Hs Hb Hu Hc Ht end.
  match goal with
  | Hb1 : remove_from_order_book _ _ _ ?a = _, Hb2 : remove_from_user _ _ _ = (_, ?d) |- _ =>
      assert ((remove_from_order_book e id sd >> remove_from_user (maker o) id) a = (Ok tt, d)) as Hrm
        by (by rewrite (bind_eval _ _ _ _ _ Hb1)) end.
  apply remove_indexes in Hrm as (Hn' & Ho' & Hc' & Ht' & Hk).
  split_and!; [by eapply eq_trans; eassumption.. |]. intros k.
  specialize (Hk k). change (index_of s k) with (index_of (s <| Orders ::= <[id := o <| status := st |>]> |>) k).
  rewrite <- Hk. destruct k as [[] ? |]; unfold index_of, book; congruence.
Qed.

Lemma finish_fill_state id o e s u s' :
  finish_fill cfg id o e s = (Ok u, s') ->
  let o' := o <| status := if decide (filled_amount o >= token_amount o) then Filled else PartiallyFilled |> in
  NextOrderId s' = NextOrderId s /\ Orders s' = <[id := o']> (Orders s) /\
  currency s' = currency s /\ tokens s' = tokens s /\
  forall k, index_of s' k = if decide (filled_amount o >= token_amount o /\
                                       (k = IBook (side o) e \/ k = IUser (maker o)))
                            then without id (index_of s k) else index_of s k.
Proof.
  intros Hr. unfold finish_fill in Hr. apply bind_Ok in Hr as (final & s1 & Hf & Hp).
  unfold put_order in Hp. apply modify_inv in Hp as [_ ->]. case_decide as Hfull.
  - m_inv.
    match goal with Ha : add_to_order_history _ _ _ ?s2 = _ |- _ =>
      apply add_to_order_history_quiet in Ha; unfold core in Ha; injection Ha as Hn Ho Hs Hb Hu Hc' Ht' end.
    match goal with
    | Hb1 : remove_from_order_book _ _ _ ?a = _, Hb2 : remove_from_user _ _ _ = (_, ?d) |- _ =>
        assert ((remove_from_order_book e id (side o) >> remove_from_user (maker o) id) a = (Ok tt, d)) as Hrm
          by (by rewrite (bind_eval _ _ _ _ _ Hb1)) end.
    match type of Hrm with _ = (_, ?d) => rename d into s2 end.
    apply remove_indexes in Hrm as (Hn' & Ho' & Hcu & Htk & Hk).
    simpl. rewrite Hn, Ho, Hc', Ht', Hn', Ho', Hcu, Htk. split_and!; try done. intros k.
    transitivity (index_of s2 k); [destruct k as [[] ? |]; unfold index_of, book; simpl; congruence |].
    rewrite Hk. repeat case_decide; tauto.
  - m_inv. simpl. split_and!; try done. intros k. rewrite decide_False by tauto. done.
Qed.

Lemma lock_nex_buy o : is_live o = true -> side o = Buy -> lock_nex o = unfilled o * price o.
Proof. intros. unfold lock_nex. by rewrite decide_True. Qed.

Lemma lock_tokens_sell o : is_live o = true -> side o = Sell -> lock_tokens o = unfilled o.
Proof. intros. unfold lock_tokens. by rewrite decide_True. Qed.

Lemma lock_nex_sell o : side o = Sell -> lock_nex o = 0.
Proof. intros Hs. unfold lock_nex. rewrite decide_False; [done |]. rewrite Hs. by intros [_ ?]. Qed.

Lemma lock_tokens_buy o : side o = Buy -> lock_tokens o = 0.
Proof. intros Hs. unfold lock_tokens. rewrite decide_False; [done |]. rewrite Hs. by intros [_ ?]. Qed.

Lemma at_acc_0 who x : at_acc who 0 x = 0.
Proof. unfold at_acc. by case_decide. Qed.

Lemma at_token_0 e who e' x : at_token e who 0 e' x = 0.
Proof. unfold at_token. by case_decide. Qed.

Lemma calculate_total_Some a p v : calculate_total_next a p = Some v -> v = a * p /\ a * p <= u128_max.
Proof. unfold calculate_total_next. case_decide; [intros [= <-]; done | done]. Qed.

Lemma calculate_total_exact a p : a * p <= u128_max -> calculate_total_next a p = Some (a * p).
Proof. intros. unfold calculate_total_next. by rewrite decide_True. Qed.

Section Accounts.
Context `{!ReservableCurrencyLaws L} `{!RepatriatingCurrencyLaws L} `{!EntityTokensLaws T}.
Context (K : Index -> Prop) (c : AccountId -> Z) (t : Z -> AccountId -> Z).

(** What is left after the locks of an order are given back. *)
Definition nex_without (o : TradeOrder) (x : AccountId) : Z := c x - at_acc (maker o) (lock_nex o) x.
Definition tokens_without (o : TradeOrder) (e : Z) (x : AccountId) : Z :=
  t e x - at_token (entity_id o) (maker o) (lock_tokens o) e x.

Context (Hc : forall x, 0 <= c x) (Ht : forall e x, 0 <= t e x).

Lemma release_good s id o u s' :
  good K c t s -> Orders s !! id = Some o -> is_live o = true ->
  release (entity_id o) (side o) (maker o) (unfilled o) (price o) s = (Ok u, s') ->
  good K (nex_without o) (tokens_without o) s' /\ shape s' = shape s.
Proof.
  intros Hg Ho Hl Hr. pose proof (f_ok _ _ _ (g_funded _ _ _ _ Hg) _ _ Ho) as Hok.
  pose proof (unfilled_pos o Hok). unfold release in Hr. destruct (side o) eqn:Hs.
  - pose proof (lock_nex_reserved _ _ _ _ _ (g_funded _ _ _ _ Hg) Ho). specialize (Hc (maker o)).
    rewrite calculate_total_exact in Hr by (by apply ok_total). rewrite lock_nex_buy in * by done.
    destruct Hok as [? ? ? ? ? ?].
    eapply currency_unreserve_good in Hr as [Hg' Hsh]; [| done | nia]. split; [| done].
    eapply good_ext, Hg'; [intros x | intros e x]; unfold nex_without, tokens_without.
    + by rewrite lock_nex_buy.
    + rewrite lock_tokens_buy, at_token_0 by done. lia.
  - pose proof (lock_tokens_reserved _ _ _ _ _ (g_funded _ _ _ _ Hg) Ho). specialize (Ht (entity_id o) (maker o)).
    rewrite lock_tokens_sell in * by done.
    eapply unreserve_tokens_good in Hr as [Hg' Hsh]; [| done | lia]. split; [| done].
    eapply good_ext, Hg'; [intros x | intros e x]; unfold nex_without, tokens_without.
    + rewrite lock_nex_sell, at_acc_0 by done. lia.
    + by rewrite lock_tokens_sell.
Qed.

Lemma release_nonzero_good s id o u s' :
  good K c t s -> Orders s !! id = Some o -> is_live o = true ->
  release_nonzero (entity_id o) (side o) (maker o) (unfilled o) (price o) s = (Ok u, s') ->
  good K (nex_without o) (tokens_without o) s' /\ shape s' = shape s.
Proof.
  intros Hg Ho Hl Hr. pose proof (f_ok _ _ _ (g_funded _ _ _ _ Hg) _ _ Ho) as Hok.
  assert (release (entity_id o) (side o) (maker o) (unfilled o) (price o) s = (Ok u, s') \/
    (s' = s /\ lock_nex o = 0 /\ lock_tokens o = 0)) as [Hr' | (-> & Hn & Htk)].
  - unfold release_nonzero in Hr. case_decide as Hz.
    + m_inv. right. unfold lock_nex, lock_tokens. rewrite Hz. by repeat case_decide.
    + unfold release. destruct (side o) eqn:Hs; [| by left].
      destruct (calculate_total_next _ _) as [v |] eqn:Hv; [| by left].
      case_decide as Hv0; [| by left]. m_inv. right. apply calculate_total_Some in Hv as [? _].
      split; [done |]. rewrite lock_nex_buy, lock_tokens_buy by done. lia.
  - by eapply release_good.
  - split; [| done]. eapply good_ext, Hg; intros; unfold nex_without, tokens_without;
      rewrite ?Hn, ?Htk, ?at_acc_0, ?at_token_0; lia.
Qed.

Lemma funded_closed s s' id o st :
  funded (nex_without o) (tokens_without o) s -> Orders s !! id = Some o -> closed_status st ->
  NextOrderId s' = NextOrderId s -> Orders s' = <[id := o <| status := st |>]> (Orders s) ->
  currency s' = currency s -> tokens s' = tokens s -> funded c t s'.
Proof.
  intros Hf Ho Hst Hn Ho' Hcu Htk. pose proof (closed_not_live o st Hst) as Hl'.
  destruct (not_live_locks _ Hl') as [Hz1 Hz2]. eapply funded_ext; cycle 2.
  - eapply (funded_put _ _ _ _ id o (o <| status := st |>) Hf); try done.
    + exact (proj1 (f_id _ _ _ Hf _ _ Ho)).
    + apply order_ok_closed; [by eapply f_ok | done].
  - intros x. rewrite Hz1. unfold nex_without, at_acc. case_decide; lia.
  - intros e x. rewrite Hz2. unfold tokens_without, at_token. case_decide; lia.
Qed.

Lemma closed_good s id o st u s' :
  good K (nex_without o) (tokens_without o) s -> Orders s !! id = Some o -> closed_status st ->
  retire cfg id o st (entity_id o) (side o) s = (Ok u, s') ->
  good K c t s' /\ Orders s' = <[id := o <| status := st |>]> (Orders s).
Proof.
  intros [Hf Hi] Ho Hst Hr. apply retire_state in Hr as (Hn & Ho' & Hcu & Htk & Hk).
  pose proof (closed_not_live o st Hst) as Hl'. split; [| done]. split.
  - by eapply funded_closed.
  - by eapply (indexed_unlisted K s s' id o).
Qed.

(** Cancelling or expiring an order: the locks go back, the rest stays. *)
Lemma end_order_good s id o st u s' :
  good K c t s -> Orders s !! id = Some o -> is_live o = true -> closed_status st ->
  (release (entity_id o) (side o) (maker o) (unfilled o) (price o) >>
   retire cfg id o st (entity_id o) (side o)) s = (Ok u, s') \/
  (release_nonzero (entity_id o) (side o) (maker o) (unfilled o) (price o) >>
   retire cfg id o st (entity_id o) (side o)) s = (Ok u, s') ->
  good K c t s' /\ Orders s' = <[id := o <| status := st |>]> (Orders s).
Proof.
  intros Hg Ho Hl Hst Hr.
  assert (exists s1, good K (nex_without o) (tokens_without o) s1 /\ shape s1 = shape s /\
    retire cfg id o st (entity_id o) (side o) s1 = (Ok u, s')) as (s1 & Hg1 & [= Hn Ho1 _ _ _] & Hr1).
  { destruct Hr as [(? & s1 & Hrel & Hret)%bind_Ok | (? & s1 & Hrel & Hret)%bind_Ok]; exists s1.
    - eapply release_good in Hrel as [? ?]; eauto.
    - eapply release_nonzero_good in Hrel as [? ?]; eauto. }
  eapply closed_good in Hr1 as [? Heq]; [| done | by rewrite Ho1 | done]. by rewrite Ho1 in Heq.
Qed.

(** ** Fills *)

(** The order after a fill. *)
Definition after_fill (o : TradeOrder) (fill : Z) : TradeOrder :=
  o <| filled_amount := filled_amount o + fill |>
    <| status := if decide (filled_amount o + fill >= token_amount o) then Filled else PartiallyFilled |>.

(** What a fill takes out of the locks of the order's maker. *)
Definition fill_nex (o : TradeOrder) (fill : Z) : Z := if decide (side o = Buy) then fill * price o else 0.
Definition fill_tokens (o : TradeOrder) (fill : Z) : Z := if decide (side o = Sell) then fill else 0.

Lemma after_fill_live o fill :
  order_ok o -> 0 < fill <= unfilled o ->
  is_live (after_fill o fill) = bool_decide (filled_amount o + fill < token_amount o).
Proof.
  intros _ _. unfold is_live, after_fill. simpl. case_decide;
    [rewrite !bool_decide_eq_false_2 | rewrite !bool_decide_eq_true_2]; try done; try lia; [| tauto].
  by intros [?|?].
Qed.

Lemma after_fill_ok o fill :
  order_ok o -> is_live o = true -> 0 < fill <= unfilled o -> order_ok (after_fill o fill).
Proof.
  intros Hok Hl Hf. pose proof (after_fill_live o fill Hok Hf) as Hlive.
  destruct Hok as [? ? ? Hopen Htot Hnew]. specialize (Hopen Hl). specialize (Htot Hl).
  unfold unfilled in *. rewrite sat_sub_exact in * by lia. split; try done.
  - simpl. lia.
  - rewrite Hlive. by intros ?%bool_decide_eq_true_1.
  - simpl. intros _ Hs. specialize (Htot Hs). unfold unfilled. simpl. rewrite sat_sub_exact by lia. nia.
  - change (status (after_fill o fill)) with
      (if decide (filled_amount o + fill >= token_amount o) then Filled else PartiallyFilled). destruct (decide _); discriminate.
Qed.

Lemma after_fill_locks o fill :
  order_ok o -> is_live o = true -> 0 < fill <= unfilled o ->
  lock_nex o - lock_nex (after_fill o fill) = fill_nex o fill /\
  lock_tokens o - lock_tokens (after_fill o fill) = fill_tokens o fill.
Proof.
  intros Hok Hl Hf. pose proof (after_fill_live o fill Hok Hf) as Hlive. destruct Hok as [? ? ? ? ? ?].
  unfold lock_nex, lock_tokens, fill_nex, fill_tokens. rewrite Hl, Hlive.
  change (side (after_fill o fill)) with (side o). change (price (after_fill o fill)) with (price o).
  assert (unfilled o = token_amount o - filled_amount o) as Hu by (unfold unfilled, sat_sub; lia).
  assert (unfilled (after_fill o fill) = unfilled o - fill) as -> by (unfold unfilled, sat_sub in *; simpl; lia).
  case_bool_decide as Hp.
  - destruct (side o); repeat case_decide; destruct_and?; try done; try tauto; lia.
  - assert (fill = unfilled o) as -> by lia.
    destruct (side o); repeat case_decide; destruct_and?; try done; try tauto; lia.
Qed.

Lemma finish_fill_good s id o fill u s' :
  good K (fun x => c x - at_acc (maker o) (fill_nex o fill) x)
    (fun e x => t e x - at_token (entity_id o) (maker o) (fill_tokens o fill) e x) s ->
  Orders s !! id = Some o -> is_live o = true -> 0 < fill <= unfilled o ->
  finish_fill cfg id (o <| filled_amount := filled_amount o + fill |>) (entity_id o) s = (Ok u, s') ->
  good K c t s' /\ Orders s' = <[id := after_fill o fill]> (Orders s).
Proof.
  intros [Hf Hi] Ho Hl Hfill Hr. pose proof (f_ok _ _ _ Hf _ _ Ho) as Hok.
  apply finish_fill_state in Hr as (Hn & Ho' & Hcu & Htk & Hk).
  change (Orders s' = <[id := after_fill o fill]> (Orders s)) in Ho'.
  destruct (after_fill_locks o fill Hok Hl Hfill) as [Hln Hlt]. split; [| done]. split.
  - eapply funded_ext; cycle 2.
    + eapply (funded_put _ _ _ _ id o (after_fill o fill) Hf); try done.
      * exact (proj1 (f_id _ _ _ Hf _ _ Ho)).
      * by apply after_fill_ok.
    + intros x. simpl. rewrite Hln. lia.
    + intros e x. simpl. rewrite Hlt. lia.
  - pose proof (after_fill_live o fill Hok Hfill) as Hlive. simpl in Hk.
    destruct (decide (filled_amount o + fill >= token_amount o)) as [Hfull | Hpart].
    + eapply (indexed_unlisted K s s' id o (after_fill o fill)); try done.
      * rewrite Hlive. apply bool_decide_eq_false_2. lia.
      * intros k. rewrite Hk. repeat case_decide; tauto.
    + eapply (indexed_put_open K s s' id o (after_fill o fill)); try done.
      * rewrite Hlive. apply bool_decide_eq_true_2. lia.
      * intros k. rewrite Hk. rewrite decide_False by tauto. done.
Qed.

(** The state between the transfers of a fill and the fill itself. *)
Definition owing (o : TradeOrder) (fill : Z) s : Prop :=
  good K (fun x => c x - at_acc (maker o) (fill_nex o fill) x)
    (fun e x => t e x - at_token (entity_id o) (maker o) (fill_tokens o fill) e x) s.

Lemma book_fill_good env s o taker sd fill nex u s' :
  owing o fill s -> Orders s !! order_id o = Some o -> is_live o = true -> 0 < fill <= unfilled o ->
  book_fill cfg env o (entity_id o) taker sd fill nex s = (Ok u, s') ->
  good K c t s' /\ Orders s' = <[order_id o := after_fill o fill]> (Orders s).
Proof.
  intros Hg Ho Hl Hf Hr. unfold book_fill in Hr. apply bind_Ok in Hr as ([] & s1 & Hup & Hr).
  assert (core s' = core s1) as Hcore.
  { revert Hr. apply (framed_bind core); [apply update_trade_stats_quiet | intros _].
    apply (framed_bind core); [apply record_trade_quiet | intros _].
    apply (framed_bind core); [apply deposit_event_quiet | intros _]. apply on_trade_completed_quiet. }
  pose proof (f_ok _ _ _ (g_funded _ _ _ _ Hg) _ _ Ho) as [? ? ? ? ? ?].
  unfold update_order_fill in Hup. simpl in Hup. rewrite sat_add_exact in Hup
    by (unfold unfilled, sat_sub in *; lia).
  eapply finish_fill_good in Hup as [Hg' Ho']; [| done..].
  split; [by eapply good_core |]. injection Hcore as ? -> ? ? ? ? ?. done.
Qed.

(** An order of a book as the matching loops hold it. *)
Definition standing s (e : Z) (sd : OrderSide) (o : TradeOrder) : Prop :=
  Orders s !! order_id o = Some o /\ is_live o = true /\ entity_id o = e /\ side o = sd.

Lemma fill_of_sell o fill : side o = Sell -> fill_nex o fill = 0 /\ fill_tokens o fill = fill.
Proof. intros Hs. unfold fill_nex, fill_tokens. by rewrite Hs. Qed.

Lemma fill_of_buy o fill : side o = Buy -> fill_nex o fill = fill * price o /\ fill_tokens o fill = 0.
Proof. intros Hs. unfold fill_nex, fill_tokens. by rewrite Hs. Qed.

(** A sell order covers the tokens of a fill, a buy order its price. *)
Lemma fill_tokens_covered c' t' s e o fill :
  funded c' t' s -> 0 <= t' e (maker o) -> standing s e Sell o -> 0 < fill <= unfilled o ->
  fill <= token_reserved e (maker o) (tokens s).
Proof.
  intros Hf Ht' (Ho & Hl & <- & Hs) Hfill. pose proof (lock_tokens_reserved _ _ _ _ _ Hf Ho).
  rewrite lock_tokens_sell in * by done. lia.
Qed.

Lemma fill_nex_covered c' t' s e o fill :
  funded c' t' s -> 0 <= c' (maker o) -> standing s e Buy o -> 0 < fill <= unfilled o ->
  0 <= fill * price o <= reserved_balance (maker o) (currency s).
Proof.
  intros Hf Hc' (Ho & Hl & <- & Hs) Hfill. pose proof (lock_nex_reserved _ _ _ _ _ Hf Ho).
  pose proof (f_ok _ _ _ Hf _ _ Ho) as [? ? ? ? ? ?]. rewrite lock_nex_buy in * by done. nia.
Qed.
End Accounts.


Section Transfers.
Context `{!ReservableCurrencyLaws L} `{!RepatriatingCurrencyLaws L} `{!EntityTokensLaws T}.
Context (K : Index -> Prop) (c : AccountId -> Z) (t : Z -> AccountId -> Z).
Context (Hc : forall x, 0 <= c x) (Ht : forall e x, 0 <= t e x).

(** The four ways a fill is paid for: by a taker who has [b] reserved, by a taker
    who has [r] of the tokens reserved, and from free balances. *)

Lemma cross_buy_transfers s e o taker fill b u s' :
  good K (fun x => c x + at_acc taker b x) t s -> standing s e Sell o -> maker o <> taker ->
  0 < fill <= unfilled o -> 0 <= fill * price o <= b ->
  cross_transfers e taker (maker o) Buy fill (fill * price o) s = (Ok u, s') ->
  owing K (fun x => c x + at_acc taker (b - fill * price o) x) t o fill s' /\ shape s' = shape s.
Proof.
  intros Hg Hst Hne Hfill Hb Hr. pose proof Hst as (Ho & Hl & He & Hs).
  simpl in Hr. apply bind_Ok in Hr as ([] & s1 & Hn & Htk).
  pose proof (spare_nex_reserved _ _ _ taker (g_funded _ _ _ _ Hg)) as Hres. simpl in Hres.
  rewrite at_acc_eq in Hres. specialize (Hc taker).
  eapply currency_repatriate_good in Hn as [Hg1 Hsh1]; [| done | congruence | lia].
  assert (standing s1 e Sell o) as Hst1.
  { injection Hsh1 as _ Ho1 _ _ _. unfold standing. rewrite Ho1. done. }
  pose proof (fill_tokens_covered _ _ _ _ _ _ (g_funded _ _ _ _ Hg1) (Ht e (maker o)) Hst1 Hfill).
  eapply repatriate_tokens_good in Htk as [Hg2 Hsh2]; [| done | done | lia].
  split; [| congruence]. destruct (fill_of_sell o fill Hs) as [Hz Hf]. unfold owing. rewrite Hz, Hf, He.
  eapply good_ext, Hg2; intros; simpl; rewrite ?at_acc_0; unfold at_acc; repeat case_decide; lia.
Qed.

Lemma cross_sell_transfers s e o taker fill r u s' :
  good K c (fun e' x => t e' x + at_token e taker r e' x) s -> standing s e Buy o -> maker o <> taker ->
  0 < fill <= unfilled o -> fill <= r ->
  cross_transfers e taker (maker o) Sell fill (fill * price o) s = (Ok u, s') ->
  owing K c (fun e' x => t e' x + at_token e taker (r - fill) e' x) o fill s' /\ shape s' = shape s.
Proof.
  intros Hg Hst Hne Hfill Hb Hr. pose proof Hst as (Ho & Hl & He & Hs).
  simpl in Hr. apply bind_Ok in Hr as ([] & s1 & Hn & Htk).
  pose proof (fill_nex_covered _ _ _ _ _ _ (g_funded _ _ _ _ Hg) (Hc (maker o)) Hst Hfill).
  eapply currency_repatriate_good in Hn as [Hg1 Hsh1]; [| done | done | lia].
  pose proof (spare_tokens_reserved _ _ _ e taker (g_funded _ _ _ _ Hg1)) as Hres. simpl in Hres.
  rewrite at_token_eq in Hres. specialize (Ht e taker).
  eapply repatriate_tokens_good in Htk as [Hg2 Hsh2]; [| done | congruence | lia].
  split; [| congruence]. destruct (fill_of_buy o fill Hs) as [Hz Hf]. unfold owing. rewrite Hz, Hf.
  eapply good_ext, Hg2; intros; simpl; rewrite ?at_token_0; unfold at_token; repeat case_decide; lia.
Qed.

Lemma free_buy_transfers s e o taker fill u s' :
  good K c t s -> standing s e Sell o -> maker o <> taker -> 0 < fill <= unfilled o -> 0 <= fill * price o ->
  (currency_transfer taker (maker o) (fill * price o) >> repatriate_tokens e (maker o) taker fill) s = (Ok u, s') ->
  owing K c t o fill s' /\ shape s' = shape s.
Proof.
  intros Hg Hst Hne Hfill Hb Hr. pose proof Hst as (Ho & Hl & He & Hs).
  apply bind_Ok in Hr as ([] & s1 & Hn & Htk).
  eapply currency_transfer_good in Hn as [Hg1 Hsh1]; [| done | congruence | lia].
  assert (standing s1 e Sell o) as Hst1.
  { injection Hsh1 as _ Ho1 _ _ _. unfold standing. rewrite Ho1. done. }
  pose proof (fill_tokens_covered _ _ _ _ _ _ (g_funded _ _ _ _ Hg1) (Ht e (maker o)) Hst1 Hfill).
  eapply repatriate_tokens_good in Htk as [Hg2 Hsh2]; [| done | done | lia].
  split; [| congruence]. destruct (fill_of_sell o fill Hs) as [Hz Hf]. unfold owing. rewrite Hz, Hf, He.
  eapply good_ext, Hg2; intros; simpl; rewrite ?at_acc_0; lia.
Qed.

Lemma free_sell_transfers s e o taker fill u s' :
  good K c t s -> standing s e Buy o -> maker o <> taker -> 0 < fill <= unfilled o ->
  (currency_repatriate (maker o) taker (fill * price o) >> reserve_tokens e taker fill >>
   repatriate_tokens e taker (maker o) fill) s = (Ok u, s') ->
  owing K c t o fill s' /\ shape s' = shape s.
Proof.
  intros Hg Hst Hne Hfill Hr. pose proof Hst as (Ho & Hl & He & Hs).
  apply bind_Ok in Hr as ([] & s1 & Hn & Hr). apply bind_Ok in Hr as ([] & s2 & Hrs & Htk).
  pose proof (fill_nex_covered _ _ _ _ _ _ (g_funded _ _ _ _ Hg) (Hc (maker o)) Hst Hfill).
  eapply currency_repatriate_good in Hn as [Hg1 Hsh1]; [| done | done | lia].
  eapply reserve_tokens_good in Hrs as [Hg2 Hsh2]; [| done | lia].
  pose proof (spare_tokens_reserved _ _ _ e taker (g_funded _ _ _ _ Hg2)) as Hres. simpl in Hres.
  rewrite at_token_eq in Hres. specialize (Ht e taker).
  eapply repatriate_tokens_good in Htk as [Hg3 Hsh3]; [| done | congruence | lia].
  split; [| congruence]. destruct (fill_of_buy o fill Hs) as [Hz Hf]. unfold owing. rewrite Hz, Hf.
  eapply good_ext, Hg3; intros; simpl; rewrite ?at_token_0; lia.
Qed.

(** ** The matching loops *)

(** The orders a loop still has to look at. *)
Definition listing s (e : Z) (sd : OrderSide) (orders : list TradeOrder) : Prop :=
  NoDup (order_id <$> orders) /\ Forall (standing s e sd) orders.

Lemma listing_after s s' e sd o o' rest :
  listing s e sd (o :: rest) -> Orders s' = <[order_id o := o']> (Orders s) -> listing s' e sd rest.
Proof.
  intros [[Hnin Hnd]%NoDup_cons [_ Hall]%Forall_cons] Ho'. split; [done |].
  rewrite Forall_forall in *. intros o1 Hin. destruct (Hall o1 Hin) as (Ho1 & ?). split; [| done].
  rewrite Ho', lookup_insert_ne; [done |]. intros Heq. apply Hnin. rewrite Heq. by apply list_elem_of_fmap_2.
Qed.

(** What the taker of a limit order has reserved for it. *)
Definition held_nex (sd : OrderSide) (taker : AccountId) (b : Z) (x : AccountId) : Z :=
  c x + (if decide (sd = Buy) then at_acc taker b x else 0).
Definition held_tokens (sd : OrderSide) (e : Z) (taker : AccountId) (r : Z) (e' : Z) (x : AccountId) : Z :=
  t e' x + (if decide (sd = Sell) then at_token e taker r e' x else 0).

Lemma held_same sd taker e b b' r r' s :
  (sd = Buy -> b = b') -> (sd = Sell -> r = r') ->
  good K (held_nex sd taker b) (held_tokens sd e taker r) s ->
  good K (held_nex sd taker b') (held_tokens sd e taker r') s.
Proof.
  intros Hb Hr. apply good_ext; intros; unfold held_nex, held_tokens; case_decide; try done;
    [rewrite Hb | rewrite Hr]; done.
Qed.

(** One fill of a limit order. *)
Lemma cross_fill_good env s e o sd taker fill b r u s' :
  good K (held_nex sd taker b) (held_tokens sd e taker r) s ->
  standing s e (opposite sd) o -> maker o <> taker -> 0 < fill <= unfilled o -> 0 <= fill * price o ->
  (sd = Buy -> fill * price o <= b) -> fill <= r ->
  (cross_transfers e taker (maker o) sd fill (fill * price o) >>
   book_fill cfg env o e taker sd fill (fill * price o)) s = (Ok u, s') ->
  good K (held_nex sd taker (b - fill * price o)) (held_tokens sd e taker (r - fill)) s' /\
  Orders s' = <[order_id o := after_fill o fill]> (Orders s).
Proof.
  intros Hg Hst Hne Hfill Hpos Hb Hr Hrun. apply bind_Ok in Hrun as ([] & s1 & Hx & Hbook).
  pose proof Hst as (Ho & Hl & He & Hs).
  assert (owing K (held_nex sd taker (b - fill * price o)) (held_tokens sd e taker (r - fill)) o fill s1 /\
    shape s1 = shape s) as [Hg1 Hsh].
  { destruct sd; simpl in Hst.
    - eapply cross_buy_transfers in Hx as [Hg1 Hsh]; [| by eapply good_ext, Hg; intros; unfold held_nex, held_tokens; case_decide; try done; lia | done | done | done | specialize (Hb eq_refl); lia].
      split; [| done]. eapply good_ext, Hg1; intros; unfold held_nex, held_tokens; simpl; lia.
    - eapply cross_sell_transfers in Hx as [Hg1 Hsh]; [| by eapply good_ext, Hg; intros; unfold held_nex, held_tokens; case_decide; try done; lia | done | done | done | done].
      split; [| done]. eapply good_ext, Hg1; intros; unfold held_nex, held_tokens; simpl; lia. }
  injection Hsh as _ Ho1 _ _ _. rewrite <- He in Hbook at 1.
  eapply book_fill_good in Hbook as [Hg2 Ho2]; [| done | by rewrite Ho1 | done | done].
  split; [done |]. by rewrite Ho2, Ho1.
Qed.

Lemma cross_good env taker e sd limit orders s remaining filled nex b filled' nex' s' :
  listing s e (opposite sd) orders -> 0 <= remaining -> 0 <= limit ->
  0 <= filled -> filled + remaining <= u128_max ->
  (sd = Buy -> remaining * limit <= b /\ 0 <= nex /\ nex + b <= u128_max) ->
  good K (held_nex sd taker b) (held_tokens sd e taker remaining) s ->
  cross cfg env taker e sd limit orders remaining filled nex s = (Ok (filled', nex'), s') ->
  filled <= filled' <= filled + remaining /\
  (sd = Buy -> nex <= nex' /\ nex' - nex <= (filled' - filled) * limit) /\
  good K (held_nex sd taker (b - (nex' - nex))) (held_tokens sd e taker (remaining - (filled' - filled))) s'.
Proof.
  revert s remaining filled nex b. induction orders as [| o rest IH];
    intros s remaining filled nex b Hlist Hrem Hlim Hfil Hmax Hbuy Hg Hr; simpl in Hr.
  { m_inv. split_and!; [lia | lia | lia |]. eapply held_same, Hg; lia. }
  pose proof Hlist as [_ [Hst _]%Forall_cons]. pose proof Hst as (Ho & _).
  pose proof (f_ok _ _ _ (g_funded _ _ _ _ Hg) _ _ Ho) as Hok.
  pose proof (unfilled_pos o Hok). pose proof (ok_price o Hok).
  assert (listing s e (opposite sd) rest) as Hlist'
    by (destruct Hlist as [[_ ?]%NoDup_cons [_ ?]%Forall_cons]; done).
  repeat case_decide; [m_inv; split_and!; [lia | lia | lia |]; eapply held_same, Hg; lia | by eapply IH | by eapply IH | |
    m_inv; split_and!; [lia | lia | lia |]; eapply held_same, Hg; lia].
  apply bind_Ok in Hr as (cost & s0 & Hcost & Hr). apply ok_or_Ok in Hcost as [[-> Hv]%calculate_total_Some ->].
  set (fill := Z.min remaining (unfilled o)) in *.
  match type of Hr with (?m >> ?m1 >> ?m2) _ = _ => rewrite <- (run_bind m (fun _ => m1) (fun _ => m2)) in Hr end.
  apply bind_Ok in Hr as ([] & s1 & Hstep & Hr).
  assert (sd = Buy -> fill * price o <= fill * limit /\ fill * limit <= b) as Hle.
  { intros Hsd. destruct (Hbuy Hsd) as (? & _). subst sd. simpl in *. split; [nia |]. nia. }
  eapply cross_fill_good in Hstep as [Hg1 Ho1]; [| done | done | done | lia | nia | intros Hsd; specialize (Hle Hsd); lia | lia].
  rewrite sat_sub_exact, (sat_add_exact _ filled fill) in Hr by lia.
  assert (0 <= fill * price o) by nia.
  assert (sd = Buy -> sat_add u128_max nex (fill * price o) = nex + fill * price o) as Hnex.
  { intros Hsd. destruct (Hbuy Hsd) as (? & ? & ?). specialize (Hle Hsd). apply sat_add_exact. lia. }
  eapply (IH _ _ _ _ (b - fill * price o)) in Hr as (Hf & Hn & Hg2); [| by eapply listing_after | lia | done | lia | lia | | done].
  - split_and!; [lia | lia | |].
    + intros Hsd. destruct (Hn Hsd). rewrite (Hnex Hsd) in *. specialize (Hle Hsd). split; [lia |]. nia.
    + eapply held_same, Hg2; [intros Hsd; rewrite (Hnex Hsd); lia | intros; lia].
  - intros Hsd. destruct (Hbuy Hsd) as (? & ? & ?). specialize (Hle Hsd). rewrite (Hnex Hsd).
    split_and!; [| lia | lia]. assert (price o <= limit) by (subst sd; done). nia.
Qed.

Lemma listing_rest s e sd o rest : listing s e sd (o :: rest) -> standing s e sd o /\ listing s e sd rest.
Proof. intros [[_ ?]%NoDup_cons [? ?]%Forall_cons]. done. Qed.

Lemma open_unfilled o : order_ok o -> is_live o = true -> 0 < unfilled o <= u128_max.
Proof. intros [? ? ? Ho ? ?] Hl. specialize (Ho Hl). unfold unfilled, sat_sub. lia. Qed.

(** How the books and the balances are left by one fill of a market order. *)
Lemma free_fill_good env s e o sd taker fill u s1 u' s' :
  good K c t s -> standing s e (opposite sd) o -> maker o <> taker -> 0 < fill <= unfilled o ->
  0 <= fill * price o ->
  match sd with
  | Buy => currency_transfer taker (maker o) (fill * price o) >> repatriate_tokens e (maker o) taker fill
  | Sell => currency_repatriate (maker o) taker (fill * price o) >> reserve_tokens e taker fill >>
            repatriate_tokens e taker (maker o) fill
  end s = (Ok u, s1) ->
  book_fill cfg env o e taker sd fill (fill * price o) s1 = (Ok u', s') ->
  good K c t s' /\ Orders s' = <[order_id o := after_fill o fill]> (Orders s).
Proof.
  intros Hg Hst Hne Hfill Hpos Hx Hbook.
  pose proof Hst as (Ho & Hl & He & Hs).
  assert (owing K c t o fill s1 /\ shape s1 = shape s) as [Hg1 Hsh].
  { destruct sd; [by eapply free_buy_transfers in Hx | by eapply free_sell_transfers in Hx]. }
  injection Hsh as _ Ho1 _ _ _. rewrite <- He in Hbook at 1.
  eapply book_fill_good in Hbook as [Hg2 Ho2]; [| done | by rewrite Ho1 | done | done].
  split; [done |]. by rewrite Ho2, Ho1.
Qed.

Lemma within_budget_Some budget spent fill cost p f' c' :
  0 <= p -> 0 <= spent -> 0 < fill -> cost = fill * p -> spent <= budget <= u128_max ->
  within_budget budget spent fill cost p = Some (Some (f', c')) ->
  0 < f' <= fill /\ c' = f' * p /\ sat_add u128_max spent c' <= budget.
Proof.
  intros Hp Hs Hf -> Hb. unfold within_budget. case_decide as Hover; [| intros [= <- <-]; lia].
  repeat case_decide; try done. intros (v & [-> _]%calculate_total_Some & [= -> ->])%fmap_Some_1.
  unfold sat_sub in *. assert (0 <= (Z.max 0 (budget - spent)) / p) by (apply Z.div_pos; lia).
  assert ((Z.max 0 (budget - spent)) / p * p <= Z.max 0 (budget - spent))
    by (rewrite Z.mul_comm; apply Z.mul_div_le; lia).
  assert (Z.min (Z.max 0 (budget - spent) / p) fill * p <= Z.max 0 (budget - spent) / p * p)
    by (apply Z.mul_le_mono_nonneg_r; lia).
  split_and!; try lia. unfold sat_add. lia.
Qed.

Lemma market_buy_loop_good env buyer e max_cost orders s remaining filled spent filled' spent' s' :
  listing s e Sell orders -> 0 <= remaining -> 0 <= filled -> filled + remaining <= u128_max ->
  0 <= spent <= max_cost -> max_cost <= u128_max -> good K c t s ->
  market_buy_loop cfg env buyer e max_cost orders remaining filled spent s = (Ok (filled', spent'), s') ->
  good K c t s' /\ filled <= filled' <= filled + remaining /\ spent <= spent' <= max_cost.
Proof.
  revert s remaining filled spent. induction orders as [| o rest IH];
    intros s remaining filled spent Hlist Hrem Hfil Hmax Hspent Hmc Hg Hr; simpl in Hr.
  { m_inv. split_and!; try done; lia. }
  apply listing_rest in Hlist as Hl. destruct Hl as [Hst Hlist']. pose proof Hst as (Ho & Hl & _).
  pose proof (f_ok _ _ _ (g_funded _ _ _ _ Hg) _ _ Ho) as Hok.
  pose proof (open_unfilled o Hok Hl). pose proof (ok_price o Hok).
  case_decide; [m_inv; split_and!; try done; lia |]. case_decide; [by eapply IH |].
  apply bind_Ok in Hr as (cost0 & s0 & Hcost & Hr). apply ok_or_Ok in Hcost as [[-> Hv]%calculate_total_Some ->].
  apply bind_Ok in Hr as (part & s0 & Hpart & Hr). apply ok_or_Ok in Hpart as [Hpart ->].
  destruct part as [[fill cost] |]; [| m_inv; split_and!; try done; lia].
  eapply within_budget_Some in Hpart as (Hf & -> & Hb); [| lia | lia | lia | done | lia].
  rewrite decide_False in Hr by lia. apply bind_Ok in Hr as ([] & s1 & Hn & Hr).
  apply bind_Ok in Hr as ([] & s2 & Htk & Hr). apply bind_Ok in Hr as ([] & s3 & Hbook & Hr).
  eapply (free_fill_good env s e o Buy) in Hbook as [Hg1 Ho1];
    [| done | done | done | lia | nia | by rewrite (bind_eval _ _ _ _ _ Hn)].
  rewrite sat_sub_exact, (sat_add_exact _ filled fill) in Hr by lia.
  eapply IH in Hr as (Hg2 & Hf2 & Hs2); [| by eapply listing_after | lia | lia | lia | | done | done].
  - split_and!; try done; try lia. pose proof (sat_add_bounds u128_max spent (fill * price o)). nia.
  - pose proof (sat_add_bounds u128_max spent (fill * price o)). nia.
Qed.

Lemma market_sell_loop_good env seller e min_receive orders s remaining filled received filled' received' s' :
  listing s e Buy orders -> 0 <= remaining -> 0 <= filled -> filled + remaining <= u128_max ->
  0 <= received <= u128_max -> good K c t s ->
  market_sell_loop cfg env seller e min_receive orders remaining filled received s =
    (Ok (filled', received'), s') ->
  good K c t s' /\ filled <= filled' <= filled + remaining.
Proof.
  revert s remaining filled received. induction orders as [| o rest IH];
    intros s remaining filled received Hlist Hrem Hfil Hmax Hrec Hg Hr; simpl in Hr.
  { m_inv. split_and!; try done; lia. }
  apply listing_rest in Hlist as Hl. destruct Hl as [Hst Hlist']. pose proof Hst as (Ho & Hl & _).
  pose proof (f_ok _ _ _ (g_funded _ _ _ _ Hg) _ _ Ho) as Hok.
  pose proof (open_unfilled o Hok Hl). pose proof (ok_price o Hok).
  case_decide; [m_inv; split_and!; try done; lia |]. case_decide; [by apply (IH s remaining filled received) |].
  apply bind_Ok in Hr as (cost0 & s0 & Hcost & Hr). apply ok_or_Ok in Hcost as [[-> Hv]%calculate_total_Some ->].
  apply bind_Ok in Hr as ([] & s0 & Hens & Hr). apply ensure_Ok in Hens as [_ ->].
  set (fill := Z.min remaining (unfilled o)) in *.
  apply bind_Ok in Hr as ([] & s1 & Hn & Hr). apply bind_Ok in Hr as ([] & s2 & Hrs & Hr).
  apply bind_Ok in Hr as ([] & s3 & Htk & Hr). apply bind_Ok in Hr as ([] & s4 & Hbook & Hr).
  eapply (free_fill_good env s e o Sell) in Hbook as [Hg1 Ho1]; [| done | done | done | lia | nia |
    by rewrite (bind_eval _ _ _ _ _ Hn), (bind_eval _ _ _ _ _ Hrs)].
  rewrite sat_sub_exact, (sat_add_exact _ filled fill) in Hr by lia.
  eapply IH in Hr as (Hg2 & Hf2); [| by eapply listing_after | lia | lia | lia | | done].
  - split_and!; try done; lia.
  - pose proof (sat_add_bounds u128_max received (fill * price o)). nia.
Qed.
End Transfers.

(** * The orders of a book *)

Lemma fmap_sublist {A B} (f : A -> B) (l k : list A) : l `sublist_of` k -> f <$> l `sublist_of` f <$> k.
Proof. induction 1; by constructor. Qed.

Lemma order_ids_sublist c t s ids :
  funded c t s -> order_id <$> omap (fun i => Orders s !! i) ids `sublist_of` ids.
Proof.
  intros Hf. induction ids as [| i ids IH]; [constructor |]. simpl.
  destruct (Orders s !! i) as [o |] eqn:Ho; simpl; [| by apply sublist_cons].
  destruct (f_id _ _ _ Hf _ _ Ho) as [-> _]. by apply sublist_skip.
Qed.

Lemma listed_elem env s sd e o :
  o ∈ listed env s sd e <->
  matchable (block_number env) o = true /\ exists i, i ∈ book s sd e /\ Orders s !! i = Some o.
Proof. unfold listed. by rewrite list_elem_of_filter, list_elem_of_omap. Qed.

Lemma sorted_orders_elem env s sd e o : o ∈ get_sorted_orders env s e sd <-> o ∈ listed env s sd e.
Proof. unfold get_sorted_orders. by rewrite (stable_sort_Permutation (better sd)). Qed.

Lemma sorted_listing c t env s sd e :
  good all_indexes c t s -> listing s e sd (get_sorted_orders env s e sd).
Proof.
  intros [Hf Hi]. destruct (Hi (IBook sd e) I) as [Hnd Hin]. simpl in Hnd. split.
  - unfold get_sorted_orders. rewrite (stable_sort_Permutation (better sd)).
    eapply sublist_NoDup; [exact Hnd |]. etrans; [apply fmap_sublist, list_sublist_filter |].
    by eapply order_ids_sublist.
  - apply Forall_forall. intros o [Hm (i & Hib & Ho)]%sorted_orders_elem%listed_elem.
    apply (Hin i) in Hib as (o' & Ho' & Hl & Hs & He). assert (o' = o) as -> by congruence.
    destruct (f_id _ _ _ Hf _ _ Ho) as [Heq _]. split_and!; try done. by rewrite Heq.
Qed.

(** * New orders *)

Lemma do_create_order_state env e mk sd ty amount p s id s' :
  do_create_order cfg env e mk sd ty amount p s = (Ok id, s') ->
  id = NextOrderId s /\ NextOrderId s' = sat_add u64_max id 1 /\
  currency s' = currency s /\ tokens s' = tokens s /\
  (exists until, Orders s' =
     <[id := mkOrder id e mk sd ty amount 0 p Open (block_number env) until]> (Orders s)) /\
  forall k, index_of s' k = if decide (k = IBook sd e \/ k = IUser mk)
                            then index_of s k ++ [id] else index_of s k.
Proof.
  intros Hr. unfold do_create_order, push_to_book, push_to_user, put_order in Hr.
  destruct sd; m_inv; split_and!; try done; try (eexists; reflexivity);
    intros [sd' e' | who']; simpl; unfold book; simpl; try destruct sd'; rewrite ?ids_of_insert;
    repeat case_decide; destruct_or?; simplify_eq; try done; tauto.
Qed.

Lemma indexed_new K s s' id o :
  indexed K s -> (forall i o, Orders s !! i = Some o -> i < id) -> is_live o = true ->
  Orders s' = <[id := o]> (Orders s) ->
  (forall k, index_of s' k = if decide (k = IBook (side o) (entity_id o) \/ k = IUser (maker o))
                             then index_of s k ++ [id] else index_of s k) ->
  indexed K s'.
Proof.
  intros Hi Hfresh Hl Ho' Hk k HK. destruct (Hi k HK) as [Hnd Hin].
  assert (id ∉ index_of s k) as Hnin by (rewrite Hin; intros (o1 & ?%Hfresh & _); lia).
  rewrite Hk.
  assert (forall j, open_in s' k j <-> open_in s k j \/ (j = id /\ belongs o k)) as Hopen.
  { intros j. unfold open_in. rewrite Ho', lookup_insert. case_decide as Hj; [subst j |].
    - split; [intros (o1 & [= <-] & _ & ?); by right |].
      intros [(o1 & ?%Hfresh & _) | [_ ?]]; [lia | eauto].
    - split; [by left |]. by intros [? | [-> _]]. }
  setoid_rewrite Hopen. case_decide as Hb; [apply belongs_iff in Hb | rewrite <- belongs_iff in Hb]; split.
  - apply NoDup_app. split_and!; [done | | apply NoDup_singleton]. by intros j Hj ->%list_elem_of_singleton.
  - intros j. rewrite elem_of_app, list_elem_of_singleton, Hin. tauto.
  - done.
  - intros j. rewrite Hin. tauto.
Qed.

Section Creating.
Context (K : Index -> Prop) (c : AccountId -> Z) (t : Z -> AccountId -> Z).

(** A new order locks what was reserved for it. *)
Lemma do_create_order_good env e mk sd ty amount p s id s' :
  good K (held_nex c sd mk (amount * p)) (held_tokens t sd e mk amount) s ->
  0 < amount <= u128_max -> 0 <= p <= u128_max -> (sd = Buy -> amount * p <= u128_max) ->
  NextOrderId s < u64_max ->
  do_create_order cfg env e mk sd ty amount p s = (Ok id, s') -> good K c t s'.
Proof.
  intros [[Hn Hid Hok Hx Hy] Hi] Ha Hp Htot Hmax Hr.
  apply do_create_order_state in Hr as (-> & Hn' & Hcu & Htk & (until & Ho') & Hk).
  set (o := mkOrder _ _ _ _ _ _ _ _ _ _ _) in Ho'.
  assert (unfilled o = amount) as Hu by (unfold unfilled, o; simpl; rewrite sat_sub_exact; lia).
  assert (is_live o = true) as Hl by (apply bool_decide_eq_true_2; by left).
  rewrite sat_add_exact in Hn' by lia.
  assert (Orders s !! NextOrderId s = None) as Hnew.
  { destruct (Orders s !! NextOrderId s) as [o1 |] eqn:Ho1; [| done]. apply Hid in Ho1. lia. }
  split; [split |].
  - lia.
  - intros i o1 Hi1. rewrite Ho' in Hi1. map_cases; [split; [done | lia] |]. apply Hid in Hi1. split; [tauto | lia].
  - intros i o1 Hi1. rewrite Ho' in Hi1. map_cases; [| eauto]. split; simpl; try done; try lia.
    intros _ Hs. rewrite Hu. auto.
  - intros x. rewrite Hcu, Hx. unfold locked_nex. rewrite Ho', msum_insert_new by done. simpl.
    unfold held_nex, lock_nex. rewrite Hl, Hu. simpl.
    repeat case_decide; destruct_and?; try done; rewrite ?at_acc_0; try lia; tauto.
  - intros e' x. rewrite Htk, Hy. unfold locked_tokens. rewrite Ho', msum_insert_new by done. simpl.
    unfold held_tokens, lock_tokens. rewrite Hl, Hu. simpl.
    repeat case_decide; destruct_and?; try done; rewrite ?at_token_0; try lia; tauto.
  - eapply (indexed_new K s s' (NextOrderId s) o); try done. intros i o1 Ho1. by eapply Hid.
Qed.
End Creating.

End Pallet.
End MarketFunds.
