(* ===== verification/MarketSteps.v ===== *)
(** Every call of the market keeps orders funded: each dispatchable, the operations
    of governance and the sweep of expired orders leave what everybody has reserved
    beyond their open orders exactly as it was, so that open orders stay covered
    whatever is called. *)

From S2P Require Import Prelude Frame EntityPorts EntityMarket MarketCalls MarketFunds.

Create HintDb quiet.

Module MarketSteps.
Import Market MarketCalls MarketFunds.

(** The parts of a computation that do not touch the accounts. *)
Ltac quiet_solve :=
  cbv zeta;
  repeat (first [ solve [auto with quiet] | framed_step ]; cbv zeta).

Section Quiet.
Context `{FrameSystem} {L T W : Type}.
Context `{RepatriatingCurrency L} `{EntityTokens T} `{EntityQueries W} (cfg : Config).
Implicit Types (s : State L T W).

Abbreviation quiet m := (framed (E:=DispatchError Error) (core (L:=L) (T:=T) (W:=W)) m).

(** * The calls *)

#[local] Hint Resolve deposit_event_quiet disarm_quiet check_price_deviation_quiet
  ensure_market_enabled_quiet ensure_circuit_breaker_inactive_quiet ensure_kyc_requirement_quiet
  update_best_prices_quiet update_trade_stats_quiet record_trade_quiet add_to_order_history_quiet
  ensure_trader_allowed_quiet ensure_min_amount_quiet ensure_tokens_quiet refresh_if_filled_quiet
  on_trade_completed_quiet : quiet.

Lemma admit_order_quiet env e who a p : quiet (admit_order cfg env e who a p).
Proof. unfold admit_order. quiet_solve. Qed.

Lemma admit_market_order_quiet env e who : quiet (admit_market_order env e who).
Proof. unfold admit_market_order. quiet_solve. Qed.

Lemma ensure_exists_quiet e : quiet (ensure_exists e).
Proof. unfold ensure_exists. quiet_solve. Qed.

Lemma ensure_owner_quiet e who : quiet (ensure_owner e who).
Proof. unfold ensure_owner. quiet_solve. Qed.

Lemma ensure_owner_eq_quiet e who : quiet (ensure_owner_eq e who).
Proof. unfold ensure_owner_eq. quiet_solve. Qed.

Lemma ensure_not_closed_quiet e : quiet (ensure_not_closed e).
Proof. unfold ensure_not_closed. quiet_solve. Qed.

Lemma apply_protection_quiet e en d sl th mt : quiet (apply_protection e en d sl th mt).
Proof. unfold apply_protection, ensure_basis_points. quiet_solve. Qed.

Lemma pause_config_quiet e a b e1 e2 : quiet (pause_config e a b e1 e2).
Proof. unfold pause_config. quiet_solve. Qed.

Lemma signed_quiet origin : quiet (signed origin).
Proof. unfold signed. quiet_solve. Qed.

Lemma root_quiet origin : quiet (root origin).
Proof. unfold root. quiet_solve. Qed.

#[local] Hint Resolve admit_order_quiet admit_market_order_quiet ensure_exists_quiet ensure_owner_quiet
  ensure_owner_eq_quiet ensure_not_closed_quiet apply_protection_quiet pause_config_quiet
  signed_quiet root_quiet : quiet.

(** The calls that only change settings. *)
Definition setting (ca : Call) : bool :=
  match ca with
  | CConfigureProtection _ _ _ _ _ _ | CLiftBreaker _ | CSetInitialPrice _ _ | CPause _ | CResume _
  | CGlobalPause _ | CSetKyc _ _ | CGovProtection _ _ _ _ _ _ | CForceLift _ => true
  | _ => false
  end.

Lemma setting_quiet env origin ca : setting ca = true -> quiet (dispatch cfg env origin ca).
Proof.
  destruct ca; intros Hs; try discriminate Hs; simpl;
    unfold configure_price_protection, lift_circuit_breaker, set_initial_price, pause_market, resume_market,
      global_market_pause, set_kyc_requirement, governance_configure_price_protection,
      force_lift_circuit_breaker; quiet_solve.
Qed.

Definition port_setting (ca : PortCall) : bool := match ca with PClose _ => false | _ => true end.

Lemma port_setting_quiet env ca : port_setting ca = true -> quiet (port cfg env ca).
Proof.
  destruct ca; intros Hs; try discriminate Hs; simpl;
    unfold governance_set_market_config, governance_pause_market, governance_resume_market,
      governance_set_price_protection, governance_set_market_kyc, governance_lift_circuit_breaker; quiet_solve.
Qed.

Lemma core_shape s s' : core s' = core s -> shape s' = shape s.
Proof. unfold core, shape. intros [=]. congruence. Qed.

Lemma core_next s s' : core s' = core s -> NextOrderId s' = NextOrderId s.
Proof. intros [=]. congruence. Qed.

Lemma core_orders s s' : core s' = core s -> Orders s' = Orders s.
Proof. intros [=]. congruence. Qed.

Lemma shape_orders s s' : shape s' = shape s -> Orders s' = Orders s.
Proof. intros [=]. congruence. Qed.

Lemma shape_next s s' : shape s' = shape s -> NextOrderId s' = NextOrderId s.
Proof. intros [=]. congruence. Qed.

(** Walks over a part that does not touch the accounts. *)
Lemma good_quiet_bind {A B} K c t (m : M (State L T W) (DispatchError Error) A)
    (k : A -> M (State L T W) (DispatchError Error) B) s b s' :
  good K c t s -> bind m k s = (Ok b, s') -> quiet m ->
  exists a s1, good K c t s1 /\ core s1 = core s /\ m s = (Ok a, s1) /\ k a s1 = (Ok b, s').
Proof.
  intros Hg (a & s1 & Hm & Hk)%bind_Ok Hq. apply Hq in Hm as Hcore. exists a, s1.
  split_and!; try done. by eapply good_core.
Qed.

Lemma good_quiet {A} K c t (m : M (State L T W) (DispatchError Error) A) s r s' :
  good K c t s -> m s = (r, s') -> quiet m -> good K c t s'.
Proof. intros Hg Hm Hq. eapply good_core, Hg. by eapply Hq. Qed.

End Quiet.

#[export] Hint Resolve deposit_event_quiet disarm_quiet check_price_deviation_quiet
  ensure_market_enabled_quiet ensure_circuit_breaker_inactive_quiet ensure_kyc_requirement_quiet
  update_best_prices_quiet update_trade_stats_quiet record_trade_quiet add_to_order_history_quiet
  ensure_trader_allowed_quiet ensure_min_amount_quiet ensure_tokens_quiet refresh_if_filled_quiet
  on_trade_completed_quiet admit_order_quiet admit_market_order_quiet ensure_exists_quiet ensure_owner_quiet
  ensure_owner_eq_quiet ensure_not_closed_quiet apply_protection_quiet pause_config_quiet
  signed_quiet root_quiet : quiet.

Ltac skip_quiet Hg Hr :=
  let a := fresh "a" in let s1 := fresh "s1" in let Hg1 := fresh "Hg" in let Hc1 := fresh "Hcore" in
  let Hm := fresh "Hm" in
  eapply good_quiet_bind in Hr; [| exact Hg | solve [quiet_solve]];
  destruct Hr as (a & s1 & Hg1 & Hc1 & Hm & Hr);
  let Hn := fresh "Hnext" in let Ho := fresh "Horders" in
  pose proof (core_next _ _ Hc1) as Hn; pose proof (core_orders _ _ Hc1) as Ho;
  clear Hg; rename Hg1 into Hg.

Section Pallet.
Context `{FrameSystem} {L T W : Type}.
Context `{RepatriatingCurrency L} `{EntityTokens T} `{EntityQueries W} (cfg : Config).
Implicit Types (s : State L T W).

Section Calls.
Context `{!ReservableCurrencyLaws L} `{!RepatriatingCurrencyLaws L} `{!EntityTokensLaws T}.
Context (c : AccountId -> Z) (t : Z -> AccountId -> Z).
Context (Hc : forall x, 0 <= c x) (Ht : forall e x, 0 <= t e x).

Abbreviation fine := (good all_indexes c t).

(** The same, with what one trader has reserved and does not yet owe to orders. *)
Abbreviation holding sd e who b r := (good all_indexes (held_nex c sd who b) (held_tokens t sd e who r)).

Lemma holding_nothing sd e who b r s :
  (sd = Buy -> b = 0) -> (sd = Sell -> r = 0) -> (holding sd e who b r s <-> fine s).
Proof.
  intros Hb Hr. split; apply good_ext; intros; unfold held_nex, held_tokens; case_decide;
    rewrite ?Hb, ?Hr, ?at_acc_0, ?at_token_0 by done; lia.
Qed.

Lemma lock_for_good e sd who amount p s u s' :
  fine s -> 0 <= amount -> 0 <= p -> lock_for e sd who amount p s = (Ok u, s') ->
  holding sd e who (amount * p) amount s' /\ shape s' = shape s /\ (sd = Buy -> amount * p <= u128_max).
Proof.
  intros Hg Ha Hp Hr. destruct sd; simpl in Hr.
  - apply bind_Ok in Hr as (total & s1 & Hv & Hr). apply ok_or_Ok in Hv as [[-> Hmax]%calculate_total_Some ->].
    eapply currency_reserve_good in Hr as [Hg1 Hsh]; [| done | nia]. split_and!; try done.
    eapply good_ext, Hg1; intros; unfold held_nex, held_tokens; simpl; lia.
  - skip_quiet Hg Hr. eapply reserve_tokens_good in Hr as [Hg1 Hsh]; [| done | done].
    split_and!; try done.
    + eapply good_ext, Hg1; intros; unfold held_nex, held_tokens; simpl; lia.
    + rewrite Hsh. by apply core_shape.
Qed.

Lemma unreserve_held e who b r a s u s' :
  holding Buy e who b r s -> 0 <= a <= b -> currency_unreserve who a s = (Ok u, s') ->
  holding Buy e who (b - a) r s' /\ shape s' = shape s.
Proof.
  intros Hg Ha Hr. pose proof (spare_nex_reserved _ _ _ who (g_funded _ _ _ _ Hg)) as Hle.
  unfold held_nex in Hle. simpl in Hle. rewrite at_acc_eq in Hle. specialize (Hc who).
  eapply currency_unreserve_good in Hr as [Hg1 Hsh]; [| done | lia]. split; [| done].
  eapply good_ext, Hg1; intros; unfold held_nex, held_tokens, at_acc; simpl; repeat case_decide; lia.
Qed.

Lemma unreserve_held_tokens e who b r a s u s' :
  holding Sell e who b r s -> 0 <= a <= r -> unreserve_tokens e who a s = (Ok u, s') ->
  holding Sell e who b (r - a) s' /\ shape s' = shape s.
Proof.
  intros Hg Ha Hr. pose proof (spare_tokens_reserved _ _ _ e who (g_funded _ _ _ _ Hg)) as Hle.
  unfold held_tokens in Hle. simpl in Hle. rewrite at_token_eq in Hle. specialize (Ht e who).
  eapply unreserve_tokens_good in Hr as [Hg1 Hsh]; [| done | lia]. split; [| done].
  eapply good_ext, Hg1; intros; unfold held_nex, held_tokens, at_token; simpl; repeat case_decide; lia.
Qed.

Lemma give_back_good e sd who amount p crossed s u s' :
  holding sd e who (amount * p - crossed.2) (amount - crossed.1) s ->
  0 <= crossed.1 <= amount -> (sd = Buy -> 0 <= crossed.2 <= amount * p) ->
  give_back e sd who amount p crossed s = (Ok u, s') -> fine s'.
Proof.
  intros Hg Hf1 Hn2 Hr. destruct sd; simpl in Hr.
  - specialize (Hn2 eq_refl).
    apply bind_Ok in Hr as (total & s1 & Hv & Hr). apply ok_or_Ok in Hv as [[-> _]%calculate_total_Some ->].
    rewrite sat_sub_exact in Hr by lia. case_decide as Hz.
    + m_inv. eapply holding_nothing, Hg; done.
    + eapply unreserve_held in Hr as [Hg1 _]; [| done | lia]. eapply holding_nothing, Hg1; [lia | done].
  - rewrite sat_sub_exact in Hr by lia. case_decide as Hz.
    + m_inv. eapply holding_nothing, Hg; done.
    + eapply unreserve_held_tokens in Hr as [Hg1 _]; [| done | lia]. eapply holding_nothing, Hg1; [done | lia].
Qed.

Lemma cross_next env taker e sd limit orders remaining filled nex :
  framed (E:=DispatchError Error) (NextOrderId (L:=L) (T:=T) (W:=W))
    (cross cfg env taker e sd limit orders remaining filled nex).
Proof.
  revert remaining filled nex. induction orders as [| o rest IH]; intros; simpl; [framed_tac |].
  assert (framed (E:=DispatchError Error) (NextOrderId (L:=L) (T:=T) (W:=W))
    (on_trade_completed cfg env e (price o))) as Htrade.
  { intros s r s' Hr. apply on_trade_completed_quiet in Hr. by injection Hr. }
  unfold calculate_total, cross_transfers, currency_repatriate, repatriate_tokens, book_fill, update_order_fill,
    finish_fill, remove_from_order_book, remove_from_user, add_to_order_history, put_order,
    update_trade_stats, record_trade, update_daily_stats, deposit_event.
  repeat (first [apply IH | apply Htrade | framed_step]; cbv zeta).
Qed.

Lemma do_cross_match_good env who e sd limit amount b s crossed s' :
  holding sd e who b amount s -> 0 <= amount <= u128_max -> 0 <= limit ->
  (sd = Buy -> amount * limit <= b <= u128_max) ->
  do_cross_match cfg env who e sd limit amount s = (Ok crossed, s') ->
  0 <= crossed.1 <= amount /\ (sd = Buy -> 0 <= crossed.2 <= crossed.1 * limit) /\
  NextOrderId s' = NextOrderId s /\ holding sd e who (b - crossed.2) (amount - crossed.1) s'.
Proof.
  intros Hg Ha Hl Hb Hr. unfold do_cross_match in Hr. apply bind_Ok in Hr as (orders & s1 & Hget & Hr).
  apply gets_inv in Hget as [[= ->] ->]. destruct crossed as [filled nex]. simpl in *.
  apply cross_next in Hr as Hnext.
  eapply (cross_good _ _ c t Hc Ht) with (b := b) in Hr as (Hf & Hn & Hg1); [| by eapply sorted_listing | lia | lia | lia | lia
    | intros Hsd; specialize (Hb Hsd); lia | done].
  split_and!; [lia | lia | intros Hsd; specialize (Hn Hsd); lia | done |].
  eapply held_same, Hg1; intros; lia.
Qed.

(** ** Placing *)

Lemma rest_order_good env e sd who rest p ev s u s' :
  holding sd e who (rest * p) rest s -> 0 <= rest <= u128_max -> 0 <= p <= u128_max ->
  (sd = Buy -> rest * p <= u128_max) -> NextOrderId s < u64_max ->
  (if decide (rest = 0) then ret tt else
     let! id := do_create_order cfg env e who sd Limit rest p in deposit_event (ev id)) s = (Ok u, s') ->
  fine s'.
Proof.
  intros Hg Hrest Hp Htot Hmax Hr. case_decide as Hz.
  - m_inv. by eapply holding_nothing, Hg.
  - apply bind_Ok in Hr as (id & s1 & Hcr & Hr).
    eapply do_create_order_good in Hcr; [| done | lia | done | done | done].
    by eapply good_quiet; [| exact Hr | apply deposit_event_quiet].
Qed.

Lemma place_sell_order_good env origin e amount p s u s' :
  fine s -> 0 <= amount <= u128_max -> 0 <= p <= u128_max -> NextOrderId s < u64_max ->
  place_sell_order cfg env origin e amount p s = (Ok u, s') -> fine s'.
Proof.
  intros Hg Ha Hp Hmax Hr. unfold place_sell_order in Hr. do 2 skip_quiet Hg Hr.
  apply bind_Ok in Hr as ([] & s3 & Hlock & Hr).
  eapply lock_for_good in Hlock as (Hg3 & Hsh & _); [| done | lia | lia].
  apply bind_Ok in Hr as (crossed & s4 & Hx & Hr).
  eapply do_cross_match_good in Hx as (Hf & _ & Hn & Hg4); [| exact Hg3 | done | lia | done].
  rewrite sat_sub_exact in Hr by lia. apply bind_Ok in Hr as ([] & s5 & Hrest & Hr).
  assert (NextOrderId s4 = NextOrderId s) as Hnext'.
  { apply shape_next in Hsh. congruence. }
  eapply rest_order_good in Hrest; [| by eapply held_same, Hg4 | lia | done | done | by rewrite Hnext'].
  by eapply good_quiet; [| exact Hr | apply update_best_prices_quiet].
Qed.

Lemma place_buy_order_good env origin e amount p s u s' :
  fine s -> 0 <= amount <= u128_max -> 0 <= p <= u128_max -> NextOrderId s < u64_max ->
  place_buy_order cfg env origin e amount p s = (Ok u, s') -> fine s'.
Proof.
  intros Hg Ha Hp Hmax Hr. unfold place_buy_order in Hr. do 2 skip_quiet Hg Hr.
  rename a into who.
  apply bind_Ok in Hr as (total & s3 & Hv & Hr). apply ok_or_Ok in Hv as [[-> Htot]%calculate_total_Some ->].
  apply bind_Ok in Hr as ([] & s3 & Hres & Hr).
  eapply currency_reserve_good in Hres as [Hg3 Hsh]; [| done | nia].
  apply bind_Ok in Hr as (crossed & s4 & Hx & Hr).
  eapply (do_cross_match_good _ _ _ Buy _ _ (amount * p)) in Hx as (Hf & Hnex & Hn & Hg4);
    [| eapply good_ext, Hg3; intros; unfold held_nex, held_tokens; simpl; lia | done | lia | done].
  specialize (Hnex eq_refl). rewrite (sat_sub_exact amount) in Hr by lia.
  apply bind_Ok in Hr as (rest & s5 & Hv & Hr). apply ok_or_Ok in Hv as [[-> Htot']%calculate_total_Some ->].
  rewrite (sat_sub_exact (amount * p)), sat_sub_exact in Hr by nia. apply bind_Ok in Hr as ([] & s5 & Hun & Hr).
  assert (holding Buy e who ((amount - crossed.1) * p) (amount - crossed.1) s5 /\ shape s5 = shape s4)
    as [Hg5 Hsh5].
  { clear Hr. case_decide as Hz; [apply ret_inv in Hun as [_ ->]; split; [eapply held_same, Hg4; [lia | done] | done] |].
    eapply unreserve_held in Hun as [Hg5 ?]; [| done | nia]. split; [| done]. eapply held_same, Hg5; [lia | done]. }
  apply bind_Ok in Hr as ([] & s6 & Hrest & Hr).
  assert (NextOrderId s5 = NextOrderId s) as Hnext'.
  { apply shape_next in Hsh5. apply shape_next in Hsh. congruence. }
  eapply rest_order_good in Hrest; [| done | lia | done | done | by rewrite Hnext'].
  by eapply good_quiet; [| exact Hr | apply update_best_prices_quiet].
Qed.

(** The common end of the orders that do not rest. *)
Lemma lock_cross_give_good env e sd who amount p s u s' :
  fine s -> 0 <= amount <= u128_max -> 0 <= p <= u128_max ->
  (lock_for e sd who amount p >>
   let! crossed := do_cross_match cfg env who e sd p amount in
   give_back e sd who amount p crossed >>
   update_best_prices env e >>
   deposit_event (MarketOrderExecuted e who sd crossed.1 crossed.2)) s = (Ok u, s') -> fine s'.
Proof.
  intros Hg Ha Hp Hr. apply bind_Ok in Hr as ([] & s1 & Hlock & Hr).
  eapply lock_for_good in Hlock as (Hg1 & _ & Htot); [| done | lia | lia].
  apply bind_Ok in Hr as (crossed & s2 & Hx & Hr).
  eapply do_cross_match_good in Hx as (Hf & Hnex & _ & Hg2);
    [| exact Hg1 | done | lia | intros Hsd; specialize (Htot Hsd); lia].
  apply bind_Ok in Hr as ([] & s3 & Hgive & Hr).
  eapply give_back_good in Hgive; [| exact Hg2 | done | intros Hsd; specialize (Hnex Hsd); nia].
  eapply good_quiet; [exact Hgive | exact Hr | quiet_solve].
Qed.

Lemma place_ioc_order_good env origin e sd amount p s u s' :
  fine s -> 0 <= amount <= u128_max -> 0 <= p <= u128_max ->
  place_ioc_order cfg env origin e sd amount p s = (Ok u, s') -> fine s'.
Proof.
  intros Hg Ha Hp Hr. unfold place_ioc_order in Hr. do 2 skip_quiet Hg Hr.
  exact (lock_cross_give_good _ _ _ _ _ _ _ _ _ Hg Ha Hp Hr).
Qed.

Lemma place_fok_order_good env origin e sd amount p s u s' :
  fine s -> 0 <= amount <= u128_max -> 0 <= p <= u128_max ->
  place_fok_order cfg env origin e sd amount p s = (Ok u, s') -> fine s'.
Proof.
  intros Hg Ha Hp Hr. unfold place_fok_order in Hr. do 4 skip_quiet Hg Hr.
  exact (lock_cross_give_good _ _ _ _ _ _ _ _ _ Hg Ha Hp Hr).
Qed.

Lemma place_post_only_order_good env origin e sd amount p s u s' :
  fine s -> 0 <= amount <= u128_max -> 0 <= p <= u128_max -> NextOrderId s < u64_max ->
  place_post_only_order cfg env origin e sd amount p s = (Ok u, s') -> fine s'.
Proof.
  intros Hg Ha Hp Hmax Hr. unfold place_post_only_order in Hr. skip_quiet Hg Hr.
  assert (amount <> 0) as Hnz.
  { apply bind_Ok in Hr as (? & ? & Had & _). unfold admit_order in Had. by m_inv. }
  do 3 skip_quiet Hg Hr. apply bind_Ok in Hr as ([] & s4 & Hlock & Hr).
  eapply lock_for_good in Hlock as (Hg4 & Hsh & Htot); [| done | lia | lia]. apply shape_next in Hsh.
  apply bind_Ok in Hr as (id & s5 & Hcr & Hr).
  eapply do_create_order_good in Hcr; [| done | lia | done | done | congruence].
  eapply good_quiet; [exact Hcr | exact Hr | quiet_solve].
Qed.

(** ** Taking and market orders *)

Lemma take_transfers_good o who fill id s u s' :
  fine s -> Orders s !! id = Some o -> is_live o = true -> maker o <> who -> 0 < fill <= unfilled o ->
  0 <= fill * price o ->
  take_transfers o who fill (fill * price o) s = (Ok u, s') ->
  owing all_indexes c t o fill s' /\ shape s' = shape s.
Proof.
  intros Hg Ho Hl Hne Hfill Hpos Hr. unfold take_transfers in Hr.
  destruct (f_id _ _ _ (g_funded _ _ _ _ Hg) _ _ Ho) as [<- _].
  assert (standing s (entity_id o) (side o) o) as Hst by done.
  destruct (side o) eqn:Hs.
  - apply bind_Ok in Hr as ([] & s1 & Hq & Hr). apply ensure_tokens_quiet in Hq as Hcore.
    assert (fine s1) as Hg1 by (by eapply good_core).
    eapply free_sell_transfers in Hr as [Hg2 Hsh]; try done.
    + split; [done |]. rewrite Hsh. by apply core_shape.
    + unfold standing. apply core_shape in Hcore. injection Hcore as _ -> _ _ _. done.
  - by eapply free_buy_transfers in Hr.
Qed.

Lemma open_rest o : order_ok o -> token_amount o - filled_amount o = unfilled o.
Proof. intros [? ? ? ? ? ?]. unfold unfilled, sat_sub. lia. Qed.

Lemma take_order_good env origin id amount s u s' :
  fine s -> (forall a, amount = Some a -> 0 <= a <= u128_max) ->
  take_order cfg env origin id amount s = (Ok u, s') -> fine s'.
Proof.
  intros Hg Ha Hr. unfold take_order in Hr. skip_quiet Hg Hr.
  apply bind_Ok in Hr as (orders & s2 & Hget & Hr). apply gets_inv in Hget as [[= ->] ->].
  apply bind_Ok in Hr as (o & s2 & Ho & Hr). apply ok_or_Ok in Ho as [Ho ->].
  do 3 skip_quiet Hg Hr. apply bind_Ok in Hr as ([] & s5 & Hlive & Hr). apply ensure_Ok in Hlive as [Hl ->].
  skip_quiet Hg Hr. apply bind_Ok in Hr as ([] & s6 & Hown & Hr). apply ensure_Ok in Hown as [Hne ->].
  do 2 skip_quiet Hg Hr. apply bind_Ok in Hr as ([] & s8 & Hnz & Hr). apply ensure_Ok in Hnz as [Hnz ->].
  apply bind_Ok in Hr as (total & s8 & Hv & Hr). apply ok_or_Ok in Hv as [[-> Htot]%calculate_total_Some ->].
  match type of Hr with ?m ?st = _ => assert (Orders st !! id = Some o) as Ho' by congruence end.
  pose proof (f_ok _ _ _ (g_funded _ _ _ _ Hg) _ _ Ho') as Hok. rewrite open_rest in * by done.
  pose proof (open_unfilled o Hok Hl). pose proof (ok_price o Hok).
  set (fill := Z.min _ _) in *.
  assert (0 < fill <= unfilled o) as Hfill.
  { assert (0 <= default (unfilled o) amount); [| lia]. destruct amount as [a' |]; simpl; [| lia].
    by apply (Ha a'). }
  apply bind_Ok in Hr as ([] & s9 & Htr & Hr).
  eapply take_transfers_good in Htr as [Hg9 Hsh]; [| done | done | done | done | done | nia].
  apply shape_orders in Hsh.
  apply bind_Ok in Hr as ([] & s10 & Hens & Hr). apply ensure_Ok in Hens as [_ ->].
  apply bind_Ok in Hr as ([] & s10 & Hfin & Hr).
  eapply finish_fill_good in Hfin as [Hg10 _]; [| done | by rewrite Hsh | done | done].
  eapply good_quiet; [exact Hg10 | exact Hr | quiet_solve].
Qed.

Lemma market_buy_good env origin e amount max_cost s u s' :
  fine s -> 0 <= amount <= u128_max -> 0 <= max_cost <= u128_max ->
  market_buy cfg env origin e amount max_cost s = (Ok u, s') -> fine s'.
Proof.
  intros Hg Ha Hm Hr. unfold market_buy in Hr. do 5 skip_quiet Hg Hr.
  apply bind_Ok in Hr as (orders & s5 & Hget & Hr). apply gets_inv in Hget as [[= ->] ->].
  skip_quiet Hg Hr. unfold do_market_buy in Hr. apply bind_Ok in Hr as (result & s6 & Hbuy & Hr).
  apply bind_Ok in Hbuy as ([filled spent] & s7 & Hloop & Href).
  eapply (market_buy_loop_good _ _ c t Hc Ht) in Hloop as (Hg7 & _); [| | lia | lia | lia | lia | lia | done].
  - eapply good_quiet in Href; [| exact Hg7 | quiet_solve]. eapply good_quiet; [exact Href | exact Hr | quiet_solve].
  - match goal with Hq : ensure _ _ _ = _ |- _ => apply ensure_Ok in Hq as [_ ->] end. by eapply sorted_listing.
Qed.

Lemma market_sell_good env origin e amount min_receive s u s' :
  fine s -> 0 <= amount <= u128_max ->
  market_sell cfg env origin e amount min_receive s = (Ok u, s') -> fine s'.
Proof.
  intros Hg Ha Hr. unfold market_sell in Hr. do 5 skip_quiet Hg Hr.
  apply bind_Ok in Hr as (orders & s5 & Hget & Hr). apply gets_inv in Hget as [[= ->] ->].
  skip_quiet Hg Hr. unfold do_market_sell in Hr. apply bind_Ok in Hr as (result & s6 & Hsell & Hr).
  apply bind_Ok in Hsell as ([filled received] & s7 & Hloop & Href).
  eapply (market_sell_loop_good _ _ c t Hc Ht) in Hloop as (Hg7 & _); [| | lia | lia | lia | lia | done].
  - eapply good_quiet in Href; [| exact Hg7 | quiet_solve]. eapply good_quiet; [exact Href | exact Hr | quiet_solve].
  - match goal with Hq : ensure _ _ _ = _ |- _ => apply ensure_Ok in Hq as [_ ->] end. by eapply sorted_listing.
Qed.

(** ** Cancelling *)

Lemma closed_cancelled : closed_status Cancelled.
Proof. done. Qed.

Lemma closed_expired : closed_status Expired.
Proof. done. Qed.

Lemma cancel_order_good env origin id s u s' :
  fine s -> cancel_order cfg env origin id s = (Ok u, s') -> fine s'.
Proof.
  intros Hg Hr. unfold cancel_order in Hr. skip_quiet Hg Hr.
  apply bind_Ok in Hr as (orders & s2 & Hget & Hr). apply gets_inv in Hget as [[= ->] ->].
  apply bind_Ok in Hr as (o & s2 & Ho & Hr). apply ok_or_Ok in Ho as [Ho ->].
  apply bind_Ok in Hr as ([] & s2 & Hown & Hr). apply ensure_Ok in Hown as [Hown ->].
  apply bind_Ok in Hr as ([] & s2 & Hlive & Hr). apply ensure_Ok in Hlive as [Hl ->].
  apply bind_Ok in Hr as ([] & s2 & Hle & Hr). apply ensure_Ok in Hle as [_ ->].
  pose proof (f_ok _ _ _ (g_funded _ _ _ _ Hg) _ _ Ho) as Hok. rewrite open_rest, <- Hown in Hr by done.
  apply bind_Ok in Hr as ([] & s2 & Hrel & Hr). apply bind_Ok in Hr as ([] & s3 & Hret & Hr).
  assert (release (entity_id o) (side o) (maker o) (unfilled o) (price o) s1 = (Ok tt, s2)) as Hrel'.
  { unfold release. destruct (side o); [| done]. apply bind_Ok in Hrel as (v & s4 & Hv & Hrel).
    by apply ok_or_Ok in Hv as [-> ->]. }
  assert (fine s3) as Hg3.
  { eapply (end_order_good cfg all_indexes c t Hc Ht s1 id o Cancelled); try done. left.
    by rewrite (bind_eval _ _ _ _ _ Hrel'). }
  eapply good_quiet; [exact Hg3 | exact Hr | quiet_solve].
Qed.

Lemma force_cancel_order_good env origin id s u s' :
  fine s -> force_cancel_order cfg env origin id s = (Ok u, s') -> fine s'.
Proof.
  intros Hg Hr. unfold force_cancel_order in Hr. skip_quiet Hg Hr.
  apply bind_Ok in Hr as (orders & s2 & Hget & Hr). apply gets_inv in Hget as [[= ->] ->].
  apply bind_Ok in Hr as (o & s2 & Ho & Hr). apply ok_or_Ok in Ho as [Ho ->].
  apply bind_Ok in Hr as ([] & s2 & Hlive & Hr). apply ensure_Ok in Hlive as [Hl ->].
  apply bind_Ok in Hr as ([] & s2 & Hrel & Hr). apply bind_Ok in Hr as ([] & s3 & Hret & Hr).
  assert (fine s3) as Hg3.
  { eapply (end_order_good cfg all_indexes c t Hc Ht s1 id o Cancelled); try done. right.
    by rewrite (bind_eval _ _ _ _ _ Hrel). }
  eapply good_quiet; [exact Hg3 | exact Hr | quiet_solve].
Qed.

Lemma batch_cancel_good who ids cancelled failed affected s r s' :
  fine s -> batch_cancel cfg who ids cancelled failed affected s = (Ok r, s') -> fine s'.
Proof.
  revert s cancelled failed affected. induction ids as [| id ids IH]; intros s n m l Hg Hr; simpl in Hr.
  { by apply ret_inv in Hr as [_ ->]. }
  apply bind_Ok in Hr as (orders & s2 & Hget & Hr). apply gets_inv in Hget as [[= ->] ->].
  destruct (Orders s !! id) as [o |] eqn:Ho; [| by eapply IH].
  case_decide as Hd; [by eapply IH |]. apply Decidable.not_or in Hd as [_ Hl%not_false_iff_true].
  apply bind_Ok in Hr as ([] & s2 & Hrel & Hr). apply bind_Ok in Hr as ([] & s3 & Hret & Hr).
  eapply IH, Hr. eapply (end_order_good cfg all_indexes c t Hc Ht s id o Cancelled); try done. right.
  by rewrite (bind_eval _ _ _ _ _ Hrel).
Qed.

Lemma batch_cancel_orders_good env origin ids s u s' :
  fine s -> batch_cancel_orders cfg env origin ids s = (Ok u, s') -> fine s'.
Proof.
  intros Hg Hr. unfold batch_cancel_orders in Hr. skip_quiet Hg Hr.
  apply bind_Ok in Hr as ([[n m] l] & s2 & Hb & Hr). apply batch_cancel_good in Hb; [| done].
  eapply good_quiet; [exact Hb | exact Hr | quiet_solve].
Qed.

(** Ids of orders of one book. *)
Definition filed s (e : Z) (sd : OrderSide) (ids : list Z) : Prop :=
  Forall (fun i => forall o, Orders s !! i = Some o -> entity_id o = e /\ side o = sd) ids.

Lemma book_filed s sd e : fine s -> filed s e sd (book s sd e).
Proof.
  intros [_ Hi]. apply Forall_forall. intros i Hin o Ho. destruct (Hi (IBook sd e) I) as [_ Hex].
  apply (Hex i) in Hin as (o' & Ho' & _ & Hb). simplify_eq. by destruct Hb.
Qed.

Lemma filed_closed s s' e sd ids id o st :
  filed s e sd ids -> Orders s !! id = Some o -> Orders s' = <[id := o <| status := st |>]> (Orders s) ->
  filed s' e sd ids.
Proof.
  unfold filed. rewrite !Forall_forall. intros Hf Ho Ho' i Hin o1 Ho1. rewrite Ho' in Ho1. map_cases.
  - by apply (Hf _ Hin o Ho).
  - by eapply Hf.
Qed.

Lemma clean_listed_good now e sd max_count ids cleaned s r s' :
  fine s -> filed s e sd ids -> clean_listed cfg now e sd max_count ids cleaned s = (Ok r, s') -> fine s'.
Proof.
  revert s cleaned. induction ids as [| id ids IH]; intros s n Hg Hf Hr; simpl in Hr.
  { by apply ret_inv in Hr as [_ ->]. }
  pose proof Hf as [Hid Hf']%Forall_cons. case_decide; [by apply ret_inv in Hr as [_ ->] |].
  apply bind_Ok in Hr as (orders & s2 & Hget & Hr). apply gets_inv in Hget as [[= ->] ->].
  destruct (Orders s !! id) as [o |] eqn:Ho; [| by eapply IH].
  destruct (Hid o eq_refl) as [<- <-].
  case_decide as Hd; [destruct Hd as [_ Hl] | by eapply IH].
  apply bind_Ok in Hr as ([] & s2 & Hrel & Hr). apply bind_Ok in Hr as ([] & s3 & Hret & Hr).
  assert (fine s3 /\ Orders s3 = <[id := o <| status := Expired |>]> (Orders s)) as [Hg3 Ho3].
  { eapply (end_order_good cfg all_indexes c t Hc Ht s id o Expired); try done. right.
    by rewrite (bind_eval _ _ _ _ _ Hrel). }
  eapply IH, Hr; [done | by eapply filed_closed].
Qed.

Lemma cleanup_expired_orders_good env origin e max_count s u s' :
  fine s -> cleanup_expired_orders cfg env origin e max_count s = (Ok u, s') -> fine s'.
Proof.
  intros Hg Hr. unfold cleanup_expired_orders in Hr. do 2 skip_quiet Hg Hr.
  apply bind_Ok in Hr as (sells & s3 & Hget & Hr). apply gets_inv in Hget as [[= ->] ->].
  apply bind_Ok in Hr as (n & s3 & Hsell & Hr). apply clean_listed_good in Hsell; [| done | by apply book_filed].
  apply bind_Ok in Hr as (buys & s4 & Hget & Hr). apply gets_inv in Hget as [[= ->] ->].
  apply bind_Ok in Hr as (m & s4 & Hbuy & Hr). apply clean_listed_good in Hbuy; [| done | by apply book_filed].
  eapply good_quiet; [exact Hbuy | exact Hr | quiet_solve].
Qed.

Lemma sweep_good now ids remaining consumed cleaned affected s r s' :
  fine s -> sweep cfg now ids remaining consumed cleaned affected s = (Ok r, s') -> fine s'.
Proof.
  revert s remaining consumed cleaned affected. induction ids as [| id ids IH];
    intros s w1 w2 n l Hg Hr; simpl in Hr; [by apply ret_inv in Hr as [_ ->] |].
  case_decide; [by apply ret_inv in Hr as [_ ->] |]. case_decide; [by apply ret_inv in Hr as [_ ->] |].
  apply bind_Ok in Hr as (orders & s2 & Hget & Hr). apply gets_inv in Hget as [[= ->] ->].
  destruct (Orders s !! id) as [o |] eqn:Ho; [| by eapply IH].
  case_decide as Hd; [destruct Hd as [Hl _] | by eapply IH].
  apply bind_Ok in Hr as ([] & s2 & Hrel & Hr). apply bind_Ok in Hr as ([] & s3 & Hret & Hr).
  eapply IH, Hr. eapply (end_order_good cfg all_indexes c t Hc Ht s id o Expired); try done. left.
  by rewrite (bind_eval _ _ _ _ _ Hrel).
Qed.

Lemma on_idle_good env w s r s' : fine s -> on_idle cfg env w s = (Ok r, s') -> fine s'.
Proof.
  intros Hg Hr. unfold on_idle in Hr. apply bind_Ok in Hr as (s0 & s1 & Hget & Hr).
  apply gets_inv in Hget as [[= ->] ->]. destruct (sweep_range s) as [start stop].
  apply bind_Ok in Hr as ([[w' n] l] & s2 & Hsw & Hr). apply sweep_good in Hsw; [| done].
  eapply good_quiet; [exact Hsw | exact Hr | quiet_solve].
Qed.

(** ** Emptying a book *)

(** While a book is emptied its list still names what was cancelled. *)
Record emptying (e : Z) (sd : OrderSide) (rest : list Z) s : Prop := {
  e_good : good (fun k => k <> IBook sd e) c t s;
  e_filed : filed s e sd rest;
  e_rest : forall i, open_in s (IBook sd e) i -> i ∈ rest;
}.

Lemma cancel_listed_step e sd id rest s n s' :
  emptying e sd (id :: rest) s -> cancel_listed cfg e sd id s = (Ok n, s') -> emptying e sd rest s'.
Proof.
  intros [[Hf Hi] [Hid Hfiled]%Forall_cons Hrest] Hr. unfold cancel_listed in Hr.
  apply bind_Ok in Hr as (orders & s1 & Hget & Hr). apply gets_inv in Hget as [[= ->] ->].
  assert (forall o, Orders s !! id = Some o -> is_live o = false -> emptying e sd rest s) as Hskip.
  { intros o Ho Hl. split; [done | done |]. intros i Hopen.
    pose proof (Hrest i Hopen) as [-> | ?]%elem_of_cons; [| done].
    destruct Hopen as (o1 & Ho1 & Hl1 & _). congruence. }
  destruct (Orders s !! id) as [o |] eqn:Ho; cycle 1.
  { apply ret_inv in Hr as [_ ->]. split; [done | done |]. intros i Hopen.
    pose proof (Hrest i Hopen) as [-> | ?]%elem_of_cons; [| done].
    destruct Hopen as (o1 & Ho1 & _). congruence. }
  destruct (is_live o) eqn:Hl; [| apply ret_inv in Hr as [_ ->]; by eapply Hskip].
  destruct (Hid o eq_refl) as [He Hs].
  apply bind_Ok in Hr as ([] & s1 & Hrel & Hr). rewrite <- He, <- Hs in Hrel.
  eapply (release_good _ c t Hc Ht) in Hrel as [[Hf1 Hi1] Hsh]; [| by split | done | done].
  apply shape_orders in Hsh as Ho1.
  apply bind_Ok in Hr as ([] & s2 & Hput & Hr). apply modify_inv in Hput as [_ ->].
  apply bind_Ok in Hr as ([] & s2 & Hrm & Hr). apply modify_inv in Hrm as [_ ->].
  apply bind_Ok in Hr as ([] & s2 & Hh & Hr). apply ret_inv in Hr as [_ ->].
  apply add_to_order_history_quiet in Hh. eapply (funded_core _ _ _ s2) in Hh as Hback.
  2: { eapply (funded_closed c t s1 _ id o Cancelled Hf1); try done. by rewrite Ho1. }
  set (s3 := set_field UserOrders _ _) in Hh.
  assert (Orders s2 = <[id := o <| status := Cancelled |>]> (Orders s)) as Ho2.
  { apply core_orders in Hh. rewrite Hh. simpl. by rewrite Ho1. }
  pose proof (closed_not_live o Cancelled closed_cancelled) as Hl'.
  split.
  - split; [done |]. eapply indexed_core; [exact Hh |].
    eapply (indexed_put_closed _ s1 s3 id o); [done | by rewrite Ho1 | exact Hl' | done |].
    intros k HK. destruct k as [sd' e' | who]; simpl in *.
    + right. split; [| by destruct sd']. intros [<- <-]. by rewrite He, Hs in HK.
    + rewrite ids_of_insert. case_decide as Hw; subst; [by left | by right].
  - by eapply filed_closed.
  - intros i (o1 & Hi1' & Hl1 & Hb1). rewrite Ho2 in Hi1'. map_cases; try congruence.
    assert (i ∈ id :: rest) as [-> | ?]%elem_of_cons; [| congruence | done]. apply Hrest. by exists o1.
Qed.

Lemma empty_book e sd s n s1 s' :
  fine s -> count_each (book s sd e) (cancel_listed cfg e sd) s = (Ok n, s1) ->
  clear_book e sd s1 = (Ok tt, s') -> fine s'.
Proof.
  intros Hg Hloop Hclear.
  assert (emptying e sd (book s sd e) s) as Hstart.
  { split; [| by apply book_filed |].
    - destruct Hg as [Hf Hi]. split; [done |]. intros k _. by apply Hi.
    - intros i Hopen. destruct Hg as [_ Hi]. by apply (Hi (IBook sd e) I). }
  assert (emptying e sd [] s1) as [[Hf Hi] _ Hnone].
  { clear Hclear Hg. revert Hstart Hloop. generalize (book s sd e). intros ids. revert s n.
    induction ids as [| id ids IH]; intros s n Hs Hr; simpl in Hr; [by apply ret_inv in Hr as [_ ->] |].
    apply bind_Ok in Hr as (m & s2 & Hone & Hr). apply bind_Ok in Hr as (m' & s3 & Hr & Hret).
    apply ret_inv in Hret as [_ ->]. eapply IH, Hr. by eapply cancel_listed_step. }
  assert (currency s' = currency s1 /\ tokens s' = tokens s1 /\ NextOrderId s' = NextOrderId s1 /\
    Orders s' = Orders s1 /\ forall k, index_of s' k = if decide (k = IBook sd e) then [] else index_of s1 k)
    as (Hcu & Htk & Hn & Ho & Hk).
  { unfold clear_book in Hclear. destruct sd; apply modify_inv in Hclear as [_ ->]; split_and!; try done;
      intros [[] e' | who]; simpl; unfold book; simpl; rewrite ?ids_of_insert; repeat case_decide; congruence. }
  split.
  - destruct Hf as [? ? ? Hx Hy]. split; unfold locked_nex, locked_tokens in *; rewrite ?Hn, ?Ho, ?Hcu, ?Htk; done.
  - intros k _. rewrite Hk. assert (forall i, open_in s' k i <-> open_in s1 k i) as Hop.
    { intros i. unfold open_in. by rewrite Ho. }
    case_decide as Hd; [subst k | destruct (Hi k Hd); split; [done | intros i; by rewrite Hop]].
    split; [constructor |]. intros i. rewrite Hop. split; [by intros ?%elem_of_nil | apply Hnone].
Qed.

Lemma do_cancel_all_good env e s n s' :
  fine s -> do_cancel_all_entity_orders cfg env e s = (Ok n, s') -> fine s'.
Proof.
  intros Hg Hr. unfold do_cancel_all_entity_orders in Hr.
  apply bind_Ok in Hr as (sells & s1 & Hget & Hr). apply gets_inv in Hget as [[= ->] ->].
  apply bind_Ok in Hr as (n1 & s1 & Hsell & Hr). apply bind_Ok in Hr as ([] & s2 & Hclear & Hr).
  pose proof (empty_book _ _ _ _ _ _ Hg Hsell Hclear) as Hg2.
  apply bind_Ok in Hr as (buys & s3 & Hget & Hr). apply gets_inv in Hget as [[= ->] ->].
  apply bind_Ok in Hr as (n2 & s3 & Hbuy & Hr). apply bind_Ok in Hr as ([] & s4 & Hclear' & Hr).
  pose proof (empty_book _ _ _ _ _ _ Hg2 Hbuy Hclear') as Hg4.
  eapply good_quiet; [exact Hg4 | exact Hr | quiet_solve].
Qed.

Lemma empty_and_close_good env e s n s' :
  fine s -> empty_and_close cfg env e s = (Ok n, s') -> fine s'.
Proof.
  intros Hg Hr. unfold empty_and_close in Hr. skip_quiet Hg Hr.
  apply bind_Ok in Hr as (m & s2 & Hall & Hr). apply do_cancel_all_good in Hall; [| done].
  eapply good_quiet; [exact Hall | exact Hr | quiet_solve].
Qed.

Lemma apply_config_good env e en m ttl s u s' :
  fine s -> apply_config cfg env e en m ttl s = (Ok u, s') -> fine s'.
Proof.
  intros Hg Hr. unfold apply_config, set_config in Hr. do 4 skip_quiet Hg Hr.
  apply bind_Ok in Hr as ([] & s5 & Hall & Hr).
  eapply good_quiet; [| exact Hr | apply deposit_event_quiet].
  destruct (_ && _).
  - apply bind_Ok in Hall as (n & s6 & Hall & Hret). apply ret_inv in Hret as [_ ->].
    by eapply do_cancel_all_good.
  - by apply ret_inv in Hall as [_ ->].
Qed.

(** ** A user's own orders *)

(** While a user's orders of one entity are cancelled the user's list still names
    them; [all] are the ids to cancel, [rest] those still to come. *)
Record clearing (who : AccountId) (e : Z) (s0 : State L T W) (all rest : list Z) s : Prop := {
  cl_good : good (fun k => k <> IUser who) c t s;
  cl_list : index_of s (IUser who) = index_of s0 (IUser who);
  cl_mine : Forall (fun i => i ∈ all /\ exists o, Orders s !! i = Some o /\ maker o = who /\ entity_id o = e) rest;
  cl_other : forall i, i ∉ all -> Orders s !! i = Orders s0 !! i;
  cl_done : forall i o, i ∈ all -> i ∉ rest -> Orders s !! i = Some o -> is_live o = false;
  cl_entity : forall i, of_entity (Orders s) e i = of_entity (Orders s0) e i;
}.

Lemma clearing_skip who e s0 all id rest s o :
  clearing who e s0 all (id :: rest) s -> Orders s !! id = Some o -> is_live o = false ->
  clearing who e s0 all rest s.
Proof.
  intros [? ? [_ ?]%Forall_cons ? Hdone ?] Ho Hl. split; try done.
  intros i o1 Hall Hrest Hi. destruct (decide (i = id)) as [-> |]; [congruence |].
  eapply Hdone; [done | | done]. by rewrite elem_of_cons; intros [? | ?].
Qed.

Lemma cancel_own_step who e s0 all id rest s n s' :
  clearing who e s0 all (id :: rest) s -> cancel_own cfg e who id s = (Ok n, s') ->
  clearing who e s0 all rest s'.
Proof.
  intros Hcl Hr. pose proof Hcl as [[Hf Hi] Hlist [[Hall (o & Ho & Hm & He)] Hmine]%Forall_cons Hother Hdone Hent].
  unfold cancel_own in Hr.
  apply bind_Ok in Hr as (orders & s1 & Hget & Hr). apply gets_inv in Hget as [[= ->] ->]. rewrite Ho in Hr.
  destruct (is_live o) eqn:Hl; [| apply ret_inv in Hr as [_ ->]; by eapply clearing_skip].
  apply bind_Ok in Hr as ([] & s1 & Hrel & Hr). rewrite <- He, <- Hm in Hrel.
  eapply (release_good _ c t Hc Ht) in Hrel as [[Hf1 Hi1] Hsh]; [| by split | done | done].
  apply shape_orders in Hsh as Ho1.
  apply bind_Ok in Hr as ([] & s2 & Hput & Hr). apply modify_inv in Hput as [_ ->].
  apply bind_Ok in Hr as ([] & s2 & Hrm & Hr). apply bind_Ok in Hr as ([] & s3 & Hh & Hr).
  apply ret_inv in Hr as [_ ->]. apply add_to_order_history_quiet in Hh.
  assert (Orders s2 = <[id := o <| status := Cancelled |>]> (Orders s1) /\ NextOrderId s2 = NextOrderId s1 /\
    currency s2 = currency s1 /\ tokens s2 = tokens s1 /\
    forall k, index_of s2 k = if decide (k = IBook (side o) e) then without id (index_of s1 k) else index_of s1 k)
    as (Ho2 & Hn2 & Hcu2 & Htk2 & Hk2).
  { unfold remove_from_order_book in Hrm. destruct (side o); apply modify_inv in Hrm as [_ ->]; split_and!; try done;
      intros [[] e' | w]; simpl; unfold book; simpl; rewrite ?ids_of_insert; repeat case_decide; congruence. }
  pose proof (closed_not_live o Cancelled closed_cancelled) as Hl'.
  assert (Orders s3 = <[id := o <| status := Cancelled |>]> (Orders s)) as Ho3
    by (by rewrite (core_orders _ _ Hh), Ho2, Ho1).
  split.
  - eapply good_core; [exact Hh |]. split.
    + eapply (funded_closed c t s1 s2 id o Cancelled); try done. by rewrite Ho1.
    + eapply (indexed_put_closed _ s1 s2 id o); [done | by rewrite Ho1 | exact Hl' | done |].
      intros k HK. rewrite Hk2. destruct k as [sd' e' | w]; simpl.
      * case_decide as Hd; [left; split; [by inversion Hd | done] | right]. split; [| done].
        intros [<- <-]. by rewrite He in Hd.
      * right. split; [| done]. intros <-. by rewrite Hm in HK.
  - transitivity (index_of s2 (IUser who)); [by injection Hh; unfold index_of; intros; congruence |].
    rewrite Hk2, decide_False by done. rewrite <- Hlist. unfold index_of.
    by injection Hsh as _ _ _ _ ->.
  - eapply Forall_impl; [exact Hmine |]. intros i (Hia & o1 & Hi1' & ? & ?). split; [done |].
    rewrite Ho3. destruct (decide (i = id)) as [-> |].
    + rewrite lookup_insert_eq. eexists. by split_and!.
    + rewrite lookup_insert_ne by done. eauto.
  - intros i Hia. rewrite Ho3, lookup_insert_ne by (intros ->; done). by apply Hother.
  - intros i o1 Hia Hir Hi1'. rewrite Ho3 in Hi1'. map_cases; [done |].
    eapply Hdone; [done | | done]. rewrite elem_of_cons. intros [? | ?]; congruence.
  - intros i. rewrite <- Hent. unfold of_entity. rewrite Ho3, lookup_insert. case_decide; [subst; by rewrite Ho | done].
Qed.

Lemma cancel_all_entity_orders_good env origin e s u s' :
  fine s -> cancel_all_entity_orders cfg env origin e s = (Ok u, s') -> fine s'.
Proof.
  intros Hg Hr. unfold cancel_all_entity_orders in Hr. do 2 skip_quiet Hg Hr. rename a into who.
  match type of Hr with _ ?st = _ => rename st into s2 end.
  apply bind_Ok in Hr as (s3 & s4 & Hget & Hr). apply gets_inv in Hget as [[= ->] ->].
  apply bind_Ok in Hr as (n & s3 & Hloop & Hr). apply bind_Ok in Hr as ([] & s4 & Hset & Hr).
  apply modify_inv in Hset as [_ ->].
  set (all := filter _ _) in Hloop.
  destruct Hg as [Hf Hi]. destruct (Hi (IUser who) I) as [Hnd Hin].
  assert (clearing who e s2 all [] s3) as [[Hf3 Hi3] Hlist _ Hother Hdone Hent].
  { assert (clearing who e s2 all all s2) as Hstart.
    { split; try done.
      - split; [done |]. intros k _. by apply Hi.
      - apply Forall_forall. intros i Hia. split; [done |].
        apply list_elem_of_filter in Hia as [Hent Hiu]. apply Hin in Hiu as (o & Ho & _ & Hmk).
        exists o. unfold of_entity in Hent. rewrite Ho in Hent. by apply bool_decide_eq_true_1 in Hent. }
    clear -Hc Ht Hstart Hloop ReservableCurrencyLaws0 RepatriatingCurrencyLaws0 EntityTokensLaws0.
    revert Hstart Hloop. generalize s2 at 2 3. generalize all at 2 3.
    intros rest. revert n. induction rest as [| id rest IH]; intros n s Hs Hr; simpl in Hr.
    - by apply ret_inv in Hr as [_ ->].
    - apply bind_Ok in Hr as (m & s5 & Hone & Hr). apply bind_Ok in Hr as (m' & s6 & Hr & Hret).
      apply ret_inv in Hret as [_ ->]. eapply IH, Hr. by eapply cancel_own_step. }
  eapply good_quiet; [| exact Hr | quiet_solve]. split.
  - by destruct Hf3.
  - intros k _. destruct (decide (k = IUser who)) as [-> | Hne].
    + simpl in Hlist |- *. rewrite ids_of_insert, decide_True by done. rewrite Hlist.
      split; [by apply NoDup_filter |]. intros i. rewrite list_elem_of_filter, Hent, Hin.
      unfold open_in. simpl. split.
      * intros [Hno (o & Ho & Hl & Hb)]. exists o. rewrite Hother; [done |].
        unfold all. rewrite list_elem_of_filter. intros [? _]. congruence.
      * intros (o & Ho & Hl & Hb). destruct (decide (i ∈ all)) as [Hia | Hnot].
        { apply (Hdone i o) in Ho; [congruence | done | apply not_elem_of_nil]. }
        rewrite Hother in Ho by done. split; [| eauto].
        destruct (of_entity (Orders s2) e i) eqn:Hof; [| done]. destruct Hnot.
        apply list_elem_of_filter. split; [done |]. apply Hin. by exists o.
    + destruct (Hi3 k Hne) as [Hnd3 Hin3].
      assert (index_of (s3 <| UserOrders ::= fun m => <[who := filter (fun id => of_entity (Orders s3) e id = false)
        (ids_of m who)]> m |>) k = index_of s3 k) as Heq.
      { destruct k as [[] ? | w]; try done. simpl. rewrite ids_of_insert, decide_False; [done | congruence]. }
      split; [by rewrite Heq | intros i; rewrite Heq; apply Hin3].
Qed.

(** ** Modifying *)

(** What the order locks once it has the new price and amount. *)
Definition modified (o : TradeOrder) (new_price new_amount : Z) : TradeOrder :=
  o <| price := new_price |> <| token_amount := new_amount |>.

Lemma modified_ok o np na :
  order_ok o -> status o = Open -> 0 < na <= token_amount o -> 0 < np <= u128_max ->
  (side o = Buy -> na * np <= u128_max) ->
  order_ok (modified o np na) /\ unfilled (modified o np na) = na /\ unfilled o = token_amount o.
Proof.
  intros [? ? ? ? ? Hz] Hopen Hna Hnp Htot. specialize (Hz Hopen).
  assert (unfilled (modified o np na) = na) as Hu by (unfold unfilled, sat_sub; simpl; lia).
  split; [| split; [done | unfold unfilled, sat_sub; lia]]. split; simpl; try lia; try done.
  intros _ Hs. rewrite Hu. auto.
Qed.

Definition refund_at (o : TradeOrder) (a : Z) (x : AccountId) : Z :=
  c x - (if decide (side o = Buy) then at_acc (maker o) a x else 0).
Definition returned_at (o : TradeOrder) (a : Z) (e : Z) (x : AccountId) : Z :=
  t e x - (if decide (side o = Sell) then at_token (entity_id o) (maker o) a e x else 0).

Lemma shrink_lock_good o id na s u s' :
  fine s -> Orders s !! id = Some o -> is_live o = true -> status o = Open -> 0 < na <= token_amount o ->
  shrink_lock o (maker o) na s = (Ok u, s') ->
  good all_indexes (refund_at o ((token_amount o - na) * price o)) (returned_at o (token_amount o - na)) s' /\
  shape s' = shape s.
Proof.
  intros Hg Ho Hl Hopen Hna Hr. pose proof (f_ok _ _ _ (g_funded _ _ _ _ Hg) _ _ Ho) as Hok.
  pose proof (ok_price o Hok). pose proof (ok_untouched o Hok Hopen).
  assert (unfilled o = token_amount o) as Hu by (unfold unfilled, sat_sub; lia).
  unfold shrink_lock in Hr. rewrite sat_sub_exact in Hr by lia.
  assert (forall s1, s1 = s -> ((token_amount o - na) * price o = 0 \/ side o = Sell) ->
    (token_amount o - na = 0 \/ side o = Buy) ->
    good all_indexes (refund_at o ((token_amount o - na) * price o)) (returned_at o (token_amount o - na)) s1) as Hsame.
  { clear Hr. intros ? -> Hz1 Hz2. eapply good_ext, Hg; intros; unfold refund_at, returned_at; case_decide as Hsd; try lia;
      [destruct Hz1 as [-> |]; [rewrite at_acc_0; lia | congruence]
      |destruct Hz2 as [-> |]; [rewrite at_token_0; lia | congruence]]. }
  case_decide as Hz; [apply ret_inv in Hr as [_ ->]; split; [apply Hsame; [done | lia | lia] | done] |].
  destruct (side o) eqn:Hs.
  - apply bind_Ok in Hr as (v & s1 & Hv & Hr). apply ok_or_Ok in Hv as [[-> _]%calculate_total_Some ->].
    case_decide as Hz'; [apply ret_inv in Hr as [_ ->]; split; [apply Hsame; tauto | done] |].
    pose proof (lock_nex_reserved _ _ _ _ _ (g_funded _ _ _ _ Hg) Ho) as Hle. specialize (Hc (maker o)).
    rewrite lock_nex_buy, Hu in Hle by done.
    eapply currency_unreserve_good in Hr as [Hg1 Hsh]; [| done | nia]. split; [| done].
    eapply good_ext, Hg1; intros; unfold refund_at, returned_at; rewrite Hs; simpl; lia.
  - pose proof (lock_tokens_reserved _ _ _ _ _ (g_funded _ _ _ _ Hg) Ho) as Hle.
    specialize (Ht (entity_id o) (maker o)). rewrite lock_tokens_sell, Hu in Hle by done.
    eapply unreserve_tokens_good in Hr as [Hg1 Hsh]; [| done | lia]. split; [| done].
    eapply good_ext, Hg1; intros; unfold refund_at, returned_at; rewrite Hs; simpl; lia.
Qed.

Lemma reprice_lock_good o id np na s u s' :
  good all_indexes (refund_at o ((token_amount o - na) * price o)) (returned_at o (token_amount o - na)) s ->
  Orders s !! id = Some o -> is_live o = true -> status o = Open -> 0 < na <= token_amount o -> 0 <= np ->
  reprice_lock o (maker o) np na s = (Ok u, s') ->
  good all_indexes (refund_at o (token_amount o * price o - na * np)) (returned_at o (token_amount o - na)) s' /\
  shape s' = shape s /\ (side o = Buy -> na * np <= u128_max).
Proof.
  intros Hg Ho Hl Hopen Hna Hnp Hr. pose proof (f_ok _ _ _ (g_funded _ _ _ _ Hg) _ _ Ho) as Hok.
  pose proof (ok_price o Hok). pose proof (ok_untouched o Hok Hopen). pose proof (ok_total o Hok Hl) as Hmax.
  assert (unfilled o = token_amount o) as Hu by (unfold unfilled, sat_sub; lia). rewrite Hu in Hmax.
  unfold reprice_lock in Hr. case_decide as Hd.
  - destruct Hd as [_ Hs]. pose proof (lock_nex_reserved _ _ _ _ _ (g_funded _ _ _ _ Hg) Ho) as Hle.
    unfold refund_at in Hle. rewrite Hs, lock_nex_buy, Hu, decide_True, at_acc_eq in Hle by done.
    specialize (Hc (maker o)).
    apply bind_Ok in Hr as (v1 & s1 & Hv & Hr). apply ok_or_Ok in Hv as [[-> _]%calculate_total_Some ->].
    apply bind_Ok in Hr as (v2 & s1 & Hv & Hr). apply ok_or_Ok in Hv as [[-> Htot]%calculate_total_Some ->].
    case_decide as Hup; rewrite sat_sub_exact in Hr by lia;
      [eapply currency_reserve_good in Hr as [Hg1 Hsh]; [| done | lia]
      |eapply currency_unreserve_good in Hr as [Hg1 Hsh]; [| done | nia]];
      (split_and!; [| done | done]); (eapply good_ext, Hg1); intros; unfold refund_at; rewrite ?Hs; simpl;
      unfold at_acc; repeat case_decide; try done; lia.
  - apply ret_inv in Hr as [_ ->]. split_and!; [| done |].
    + eapply good_ext, Hg; [| done]. intros x. unfold refund_at. case_decide as Hs; [| done].
      destruct (decide (np = price o)) as [-> |]; [| tauto]. f_equal. f_equal. lia.
    + intros Hs. destruct (decide (np = price o)) as [-> |]; [| tauto]. specialize (Hmax Hs). nia.
Qed.

Lemma modify_order_good env origin id np na s u s' :
  fine s -> 0 <= np <= u128_max -> 0 <= na <= u128_max ->
  modify_order cfg env origin id np na s = (Ok u, s') -> fine s'.
Proof.
  intros Hg Hnp Hna Hr. unfold modify_order in Hr. skip_quiet Hg Hr.
  apply bind_Ok in Hr as (orders & s2 & Hget & Hr). apply gets_inv in Hget as [[= ->] ->].
  apply bind_Ok in Hr as (o & s2 & Ho & Hr). apply ok_or_Ok in Ho as [Ho ->].
  apply bind_Ok in Hr as ([] & s2 & Hown & Hr). apply ensure_Ok in Hown as [<- ->].
  apply bind_Ok in Hr as ([] & s2 & Hopen & Hr). apply ensure_Ok in Hopen as [Hopen ->].
  apply bind_Ok in Hr as ([] & s2 & Hnz & Hr). apply ensure_Ok in Hnz as [Hnz ->].
  apply bind_Ok in Hr as ([] & s2 & Hnz' & Hr). apply ensure_Ok in Hnz' as [Hnz' ->].
  do 3 skip_quiet Hg Hr. apply bind_Ok in Hr as ([] & s5 & Hle & Hr). apply ensure_Ok in Hle as [Hle ->].
  skip_quiet Hg Hr. match type of Hr with ?m ?st = _ => assert (Orders st !! id = Some o) as Ho' by congruence end.
  assert (is_live o = true) as Hl by (apply bool_decide_eq_true_2; by left).
  pose proof (f_ok _ _ _ (g_funded _ _ _ _ Hg) _ _ Ho') as Hok.
  apply bind_Ok in Hr as ([] & s6 & Hshr & Hr).
  eapply shrink_lock_good in Hshr as [Hg6 Hsh6]; [| done | done | done | done | lia]. apply shape_orders in Hsh6.
  apply bind_Ok in Hr as ([] & s7 & Hrep & Hr).
  eapply reprice_lock_good in Hrep as (Hg7 & Hsh7 & Htot); [| done | by rewrite Hsh6 | done | done | lia | lia].
  apply shape_orders in Hsh7. assert (Orders s7 !! id = Some o) as Ho7 by congruence.
  destruct (modified_ok o np na Hok Hopen ltac:(lia) ltac:(lia) Htot) as (Hok' & Hu' & Hu).
  apply bind_Ok in Hr as ([] & s8 & Hput & Hr). apply modify_inv in Hput as [_ ->].
  eapply good_quiet; [| exact Hr | quiet_solve]. destruct Hg7 as [Hf7 Hi7]. split.
  - eapply funded_ext; cycle 2.
    + eapply (funded_put _ _ _ _ id o (modified o np na) Hf7); try done. exact (proj1 (f_id _ _ _ Hf7 _ _ Ho7)).
    + intros x. unfold refund_at, lock_nex. rewrite Hu, Hu'. change (is_live (modified o np na)) with (is_live o).
      rewrite Hl. simpl. unfold at_acc. repeat case_decide; destruct_and?; try done; try lia; tauto.
    + intros e x. unfold returned_at, lock_tokens. rewrite Hu, Hu'. change (is_live (modified o np na)) with (is_live o).
      rewrite Hl. simpl. unfold at_token. repeat case_decide; destruct_and?; try done; try lia; tauto.
  - eapply (indexed_put_open _ s7 _ id o (modified o np na)); try done.
Qed.

(** ** All calls *)

(** Amounts and prices are u128. *)
Definition u128 (v : Z) : Prop := 0 <= v <= u128_max.

Definition call_ok (ca : Call) : Prop :=
  match ca with
  | CPlaceSell _ a p | CPlaceBuy _ a p | CMarketBuy _ a p | CMarketSell _ a p | CModify _ p a
  | CIoc _ _ a p | CFok _ _ a p | CPostOnly _ _ a p => u128 a /\ u128 p
  | CTake _ (Some a) => u128 a
  | _ => True
  end.

Lemma dispatch_good env origin ca s u s' :
  fine s -> call_ok ca -> NextOrderId s < u64_max -> dispatch cfg env origin ca s = (Ok u, s') -> fine s'.
Proof.
  intros Hg Hok Hmax Hr. destruct (setting ca) eqn:Hset.
  { eapply good_quiet; [exact Hg | exact Hr | by apply setting_quiet]. }
  destruct ca; try discriminate Hset; simpl in Hok, Hr.
  - by eapply place_sell_order_good; [| | | | exact Hr]; [| apply Hok..|].
  - by eapply place_buy_order_good; [| | | | exact Hr]; [| apply Hok..|].
  - eapply take_order_good; [exact Hg | | exact Hr]. intros a ->. exact Hok.
  - by eapply cancel_order_good.
  - unfold configure_market in Hr. do 3 skip_quiet Hg Hr. by eapply apply_config_good.
  - by eapply market_buy_good; [| | | exact Hr]; [| apply Hok..].
  - by eapply market_sell_good; [| | exact Hr]; [| apply Hok].
  - by eapply force_cancel_order_good.
  - by eapply batch_cancel_orders_good.
  - by eapply cleanup_expired_orders_good.
  - by eapply modify_order_good; [| | | exact Hr]; [| apply Hok..].
  - unfold close_market in Hr. do 3 skip_quiet Hg Hr. apply bind_Ok in Hr as (n & s3 & Hc3 & Hr).
    eapply empty_and_close_good in Hc3; [| done]. eapply good_quiet; [exact Hc3 | exact Hr | quiet_solve].
  - by eapply cancel_all_entity_orders_good.
  - unfold governance_configure_market in Hr. do 2 skip_quiet Hg Hr. by eapply apply_config_good.
  - unfold force_close_market in Hr. do 2 skip_quiet Hg Hr. apply bind_Ok in Hr as (n & s3 & Hc3 & Hr).
    eapply empty_and_close_good in Hc3; [| done]. eapply good_quiet; [exact Hc3 | exact Hr | quiet_solve].
  - by eapply place_ioc_order_good; [| | | exact Hr]; [| apply Hok..].
  - by eapply place_fok_order_good; [| | | exact Hr]; [| apply Hok..].
  - by eapply place_post_only_order_good; [| | | | exact Hr]; [| apply Hok..|].
Qed.

Lemma port_good env ca s u s' : fine s -> port cfg env ca s = (Ok u, s') -> fine s'.
Proof.
  intros Hg Hr. destruct (port_setting ca) eqn:Hset.
  { eapply good_quiet; [exact Hg | exact Hr | by apply port_setting_quiet]. }
  destruct ca; try discriminate Hset. simpl in Hr. unfold governance_close_market in Hr.
  do 2 skip_quiet Hg Hr. apply bind_Ok in Hr as (n & s3 & Hall & Hr).
  eapply do_cancel_all_good in Hall; [| done]. eapply good_quiet; [exact Hall | exact Hr | quiet_solve].
Qed.
End Calls.

(** * Runs of the market *)

(** What everybody has reserved beyond what their open orders lock. *)
Definition spare_nex s (x : AccountId) : Z := reserved_balance x (currency s) - locked_nex s x.
Definition spare_tokens s (e : Z) (x : AccountId) : Z := token_reserved e x (tokens s) - locked_tokens s e x.

(** Every order is well formed and filed under its own id, what it locks is
    reserved, and the books and users' lists name exactly the open orders. *)
Record sound s : Prop := {
  sound_ids : forall i o, Orders s !! i = Some o -> order_id o = i /\ i < NextOrderId s /\ order_ok o;
  sound_next : 0 <= NextOrderId s;
  sound_nex : forall x, locked_nex s x <= reserved_balance x (currency s);
  sound_tokens : forall e x, locked_tokens s e x <= token_reserved e x (tokens s);
  sound_indexes : indexed all_indexes s;
}.

Lemma sound_good s :
  sound s <-> good all_indexes (spare_nex s) (spare_tokens s) s /\
    (forall x, 0 <= spare_nex s x) /\ (forall e x, 0 <= spare_tokens s e x).
Proof.
  unfold spare_nex, spare_tokens. split.
  - intros [Hid Hn Hx Ht Hi]. split_and!.
    + split; [| done]. split; [done | intros i o Ho; by destruct (Hid i o Ho) as (? & ? & ?).. | |]; intros; lia.
    + intros x. specialize (Hx x). lia.
    + intros e x. specialize (Ht e x). lia.
  - intros ([[Hn Hid Hok _ _] Hi] & Hx & Ht). split; try done.
    + intros i o Ho. destruct (Hid i o Ho). eauto.
    + intros x. specialize (Hx x). lia.
    + intros e x. specialize (Ht e x). lia.
Qed.

Lemma sound_core s s' : core s' = core s -> sound s -> sound s'.
Proof.
  intros Hc [Hid Hn Hx Ht Hi]. split.
  - intros i o Ho. rewrite (core_orders _ _ Hc) in Ho. rewrite (core_next _ _ Hc). by apply Hid.
  - by rewrite (core_next _ _ Hc).
  - injection Hc as _ Ho _ _ _ Hcu _. unfold locked_nex in *. by rewrite Ho, Hcu.
  - injection Hc as _ Ho _ _ _ _ Htk. unfold locked_tokens in *. by rewrite Ho, Htk.
  - by eapply indexed_core.
Qed.

Lemma good_spare K c t s :
  good K c t s -> (forall x, spare_nex s x = c x) /\ (forall e x, spare_tokens s e x = t e x).
Proof.
  intros [[_ _ _ Hx Ht] _]. unfold spare_nex, spare_tokens.
  split; intros; [rewrite Hx | rewrite Ht]; lia.
Qed.

(** What the other pallets may do meanwhile: move money, as long as they leave
    what the orders lock (they unreserve what they reserved), and change what
    they answer. *)
Definition outside s s' : Prop :=
  exists l tk w, s' = s <| currency := l |> <| tokens := tk |> <| world := w |> /\
    (forall x, locked_nex s x <= reserved_balance x l) /\
    (forall e x, locked_tokens s e x <= token_reserved e x tk).

(** The dimensions of a weight are u64. *)
Definition weight_ok (w : Weight) : Prop := 0 <= ref_time w <= u64_max /\ 0 <= proof_size w <= u64_max.

(** A step of the market itself. The counter of orders has room, as 2^64 orders
    would take. *)
Inductive market_step : State L T W -> State L T W -> Prop :=
| step_call env origin ca s r s' : call_ok ca -> NextOrderId s < u64_max ->
    transactional (dispatch cfg env origin ca) s = (r, s') -> market_step s s'
| step_port env ca s r s' : transactional (port cfg env ca) s = (r, s') -> market_step s s'
| step_idle env w s r s' : weight_ok w -> on_idle cfg env w s = (r, s') -> market_step s s'.

Inductive step : State L T W -> State L T W -> Prop :=
| step_market s s' : market_step s s' -> step s s'
| step_outside s s' : outside s s' -> step s s'.

Section Runs.
Context `{!ReservableCurrencyLaws L} `{!RepatriatingCurrencyLaws L} `{!EntityTokensLaws T}.

(** ** The sweep *)

Lemma release_total e sd who a p : total (E:=DispatchError Error) (S:=State L T W) (release e sd who a p).
Proof. unfold release, currency_unreserve, unreserve_tokens. destruct sd; [destruct (calculate_total_next a p) |]; total_tac. Qed.

Lemma retire_total id o st e sd : total (E:=DispatchError Error) (S:=State L T W) (retire cfg id o st e sd).
Proof.
  unfold retire, put_order, remove_from_order_book, remove_from_user, add_to_order_history.
  destruct sd; total_tac.
Qed.

(** The cost may pass the budget by the base cost of the last order cleaned. *)
Definition overrun (threshold base budget : Z) : Z := if decide (budget >= threshold) then base else 0.

(** How far a sweep gets and what it costs: an order is looked at only while the
    budget lasts, and each costs at least the base weight. *)
Definition swept (ids : list Z) (remaining consumed : Weight) s (out : Weight * Z * list Z) s' : Prop :=
  ref_time out.1.1 <= ref_time consumed + ref_time remaining + overrun 30000 5000 (ref_time remaining) /\
  proof_size out.1.1 <= proof_size consumed + proof_size remaining + overrun 512 64 (proof_size remaining) /\
  (forall i, i ∉ take (Z.to_nat ((ref_time remaining - 25000) / 5000)) ids -> Orders s' !! i = Orders s !! i) /\
  NextOrderId s' = NextOrderId s.

Lemma swept_stop ids remaining consumed s n l :
  0 <= ref_time remaining -> 0 <= proof_size remaining ->
  swept ids remaining consumed s (consumed, n, l) s.
Proof. intros. unfold swept, overrun. simpl. split_and!; try done; repeat case_decide; lia. Qed.

(** One order later: nothing but that order has changed, and the weights moved by
    what was paid for it. *)
Lemma swept_next id ids remaining consumed remaining' consumed' s s1 out s' :
  30000 <= ref_time remaining -> 512 <= proof_size remaining ->
  0 <= ref_time remaining' <= ref_time remaining - 5000 -> 0 <= proof_size remaining' ->
  ref_time consumed' + ref_time remaining' + overrun 30000 5000 (ref_time remaining') <=
    ref_time consumed + ref_time remaining + 5000 ->
  proof_size consumed' + proof_size remaining' + overrun 512 64 (proof_size remaining') <=
    proof_size consumed + proof_size remaining + 64 ->
  (forall i, i <> id -> Orders s1 !! i = Orders s !! i) -> NextOrderId s1 = NextOrderId s ->
  swept ids remaining' consumed' s1 out s' -> swept (id :: ids) remaining consumed s out s'.
Proof.
  intros Hr Hp Hr' Hp' Hcr Hcp Ho Hn (Ht1 & Hp1 & Ho3 & Hn3).
  assert (overrun 30000 5000 (ref_time remaining) = 5000) as Ho1 by (unfold overrun; case_decide; lia).
  assert (overrun 512 64 (proof_size remaining) = 64) as Ho2 by (unfold overrun; case_decide; lia).
  unfold swept. rewrite Ho1, Ho2. split_and!; [lia | lia | | congruence].
  intros i Hi. assert (Z.to_nat ((ref_time remaining - 25000) / 5000) =
    S (Z.to_nat ((ref_time remaining - 30000) / 5000))) as Hk.
  { replace (ref_time remaining - 25000) with (ref_time remaining - 30000 + 1 * 5000) by lia.
    assert (0 <= (ref_time remaining - 30000) / 5000) by (apply Z.div_pos; lia). rewrite Z.div_add by lia. lia. }
  rewrite Hk in Hi. cbn [take] in Hi. rewrite elem_of_cons in Hi.
  rewrite Ho3, Ho; [done | tauto |]. intros Hin. apply Hi. right.
  assert ((ref_time remaining' - 25000) / 5000 <= (ref_time remaining - 30000) / 5000)
    by (apply Z.div_le_mono; lia).
  rewrite <- (Nat.min_l (Z.to_nat ((ref_time remaining' - 25000) / 5000))
    (Z.to_nat ((ref_time remaining - 30000) / 5000))), <- take_take in Hin by lia.
  by apply subseteq_take in Hin.
Qed.

Lemma sweep_spec now ids remaining consumed cleaned affected s :
  0 <= ref_time remaining -> 0 <= proof_size remaining ->
  0 <= ref_time consumed -> 0 <= proof_size consumed ->
  exists out s', sweep cfg now ids remaining consumed cleaned affected s = (Ok out, s') /\
    swept ids remaining consumed s out s'.
Proof.
  revert remaining consumed cleaned affected s. induction ids as [| id ids IH];
    intros rem con n l s Hr1 Hr2 Hc1 Hc2; simpl; [by eauto using swept_stop |].
  case_decide; [by eauto using swept_stop |]. case_decide as Hw; [by eauto using swept_stop |].
  simpl in Hw. apply Decidable.not_or in Hw as [Hw1 Hw2]. rewrite (bind_eval _ _ _ (Orders s) s) by done.
  assert (exists out s', sweep cfg now ids (weight_sub rem base_weight) (weight_add con base_weight) n l s = (Ok out, s')
    /\ swept (id :: ids) rem con s out s') as Hskip.
  { destruct (IH (weight_sub rem base_weight) (weight_add con base_weight) n l s) as (out & s' & Hrun & Hsw);
      try (simpl; unfold sat_sub, sat_add, u64_max; lia).
    exists out, s'. split; [done |]. eapply swept_next, Hsw; simpl; unfold overrun, sat_sub, sat_add; try done;
      repeat case_decide; lia. }
  destruct (Orders s !! id) as [o |]; [| done]. case_decide; [| done].
  destruct (release_total (entity_id o) (side o) (maker o) (unfilled o) (price o) s) as ([] & s1 & Hrel).
  destruct (retire_total id o Expired (entity_id o) (side o) s1) as ([] & s2 & Hret).
  rewrite (bind_eval _ _ _ _ _ Hrel), (bind_eval _ _ _ _ _ Hret).
  assert ((forall i, i <> id -> Orders s2 !! i = Orders s !! i) /\ NextOrderId s2 = NextOrderId s) as [Ho Hn].
  { apply retire_state in Hret as (-> & -> & _). assert (Orders s1 = Orders s /\ NextOrderId s1 = NextOrderId s) as [-> ->].
    { unfold release, unreserve_tokens, currency_unreserve in Hrel.
      destruct (side o); [destruct (calculate_total_next _ _) |]; by injection Hrel as <-. }
    split; [| done]. intros i Hi. by rewrite lookup_insert_ne. }
  destruct (IH (weight_sub (weight_sub rem per_order_weight) base_weight)
    (weight_add (weight_add con per_order_weight) base_weight) (n + 1) (push_new (entity_id o) l) s2)
    as (out & s' & Hrun & Hsw); try (simpl; unfold sat_sub, sat_add, u64_max; lia).
  exists out, s'. split; [done |]. eapply swept_next, Hsw; simpl; unfold overrun, sat_sub, sat_add; try done;
    repeat case_decide; lia.
Qed.

Lemma refresh_all env (es : list Z) s :
  exists s', for_each (E:=DispatchError Error) es (update_best_prices env) s = (Ok tt, s') /\
    core s' = core s /\ OnIdleCursor s' = OnIdleCursor s.
Proof.
  revert s. induction es as [| e es IH]; intros s; simpl; [by exists s |].
  unfold update_best_prices at 1. rewrite run_bind, run_modify, run_modify.
  match goal with |- context [for_each _ _ ?st] => destruct (IH st) as (s' & Hr & Hc' & Hcur) end.
  exists s'. split_and!; [done | by rewrite Hc' | by rewrite Hcur].
Qed.

(** The sweep never fails; how far the range of its cursor reaches. *)
Lemma on_idle_run env w s :
  weight_ok w ->
  exists out s1 s', on_idle cfg env w s = (Ok out.1.1, s') /\ core s' = core s1 /\
    OnIdleCursor s' = (if decide ((sweep_range s).2 >= NextOrderId s) then 0 else (sweep_range s).2) /\
    swept (seqZ (sweep_range s).1 ((sweep_range s).2 - (sweep_range s).1)) w (mkWeight 0 0) s out s1.
Proof.
  intros [Hw1 Hw2]. unfold on_idle. rewrite run_gets. destruct (sweep_range s) as [start stop]. simpl.
  destruct (sweep_spec (block_number env) (seqZ start (stop - start)) w (mkWeight 0 0) 0 [] s)
    as ([[consumed cleaned] affected] & s1 & Hrun & Hsw); [simpl; lia.. |].
  rewrite (bind_eval _ _ _ _ _ Hrun), run_modify.
  match goal with |- context [bind (for_each ?l ?b) ?k ?st] =>
    destruct (refresh_all env l st) as (s2 & Hup & Hcore & Hcur) end.
  exists (consumed, cleaned, affected), s1. rewrite (bind_eval _ _ _ _ _ Hup).
  destruct (decide (cleaned > 0)); eexists; (split_and!; [reflexivity | exact Hcore | exact Hcur | exact Hsw]).
Qed.

Lemma market_step_good s s' :
  sound s -> market_step s s' -> good all_indexes (spare_nex s) (spare_tokens s) s'.
Proof.
  intros (Hg & Hx & Ht)%sound_good Hstep.
  destruct Hstep as [env origin ca s r s' Hok Hmax Hr | env ca s r s' Hr | env w s r s' Hw Hr].
  - apply transactional_cases in Hr as [([] & -> & Hr) | (e & -> & ->)]; [| done]. by eapply dispatch_good.
  - apply transactional_cases in Hr as [([] & -> & Hr) | (e & -> & ->)]; [| done]. by eapply port_good.
  - destruct (on_idle_run env w s Hw) as (out & s1 & s2 & Hrun & _). rewrite Hrun in Hr.
    injection Hr as _ <-. by eapply on_idle_good.
Qed.

Lemma good_sound s s' :
  sound s -> good all_indexes (spare_nex s) (spare_tokens s) s' -> sound s'.
Proof.
  intros (_ & Hx0 & Ht0)%sound_good Hg. apply good_spare in Hg as Hsp. destruct Hsp as [Hx Ht].
  apply sound_good. split_and!; [| intros x; by rewrite Hx | intros e x; by rewrite Ht].
  eapply good_ext, Hg; intros; [by rewrite Hx | by rewrite Ht].
Qed.

Lemma outside_sound s s' : sound s -> outside s s' -> sound s'.
Proof.
  intros [Hid Hn _ _ Hi] (l & tk & w & -> & Hl & Ht). split; try done.
Qed.

Lemma genesis_sound l tk w : sound (genesis l tk w).
Proof.
  split; try done.
  - intros x. unfold locked_nex. simpl. rewrite msum_empty. apply reserved_nonneg.
  - intros e x. unfold locked_tokens. simpl. rewrite msum_empty. apply token_reserved_nonneg.
  - intros k _. assert (index_of (genesis l tk w) k = []) as ->.
    { destruct k as [[] |]; simpl; unfold book, ids_of; simpl; by rewrite lookup_empty. }
    split; [constructor |]. intros i. split; [by intros ?%elem_of_nil |].
    intros (o & Ho & _). simpl in Ho. by rewrite lookup_empty in Ho.
Qed.

(** C9: No call, governance operation or sweep touches what an account has reserved
    beyond its open orders: that part of the currency and of every token is the
    same before and after. *)
Theorem calls_keep_spare_reserves s s' :
  sound s -> market_step s s' ->
  (forall x, spare_nex s' x = spare_nex s x) /\ (forall e x, spare_tokens s' e x = spare_tokens s e x).
Proof. intros Hs Hstep. exact (good_spare _ _ _ _ (market_step_good _ _ Hs Hstep)). Qed.

Lemma step_sound s s' : sound s -> step s s' -> sound s'.
Proof.
  intros Hs Hstep. inversion Hstep as [? ? Hm | ? ? Ho]; subst.
  - exact (good_sound _ _ Hs (market_step_good _ _ Hs Hm)).
  - exact (outside_sound _ _ Hs Ho).
Qed.

(** ** Sharing the reserves with other pallets *)

(** What the other pallets have put in reserve themselves. *)
Record Foreign : Type := mkForeign {
  own_nex : AccountId -> Z;
  own_tokens : Z -> AccountId -> Z;
}.

(** The market on its own books, and other pallets on theirs: they reserve and release
    what they like of their own, never more than they have put there, and move money
    and answer differently besides. What the market's orders need is not mentioned. *)
Inductive shared_step : State L T W * Foreign -> State L T W * Foreign -> Prop :=
| shared_market s s' g : market_step s s' -> shared_step (s, g) (s', g)
| shared_others s g l tk w g' :
    (forall x, 0 <= own_nex g' x) -> (forall e x, 0 <= own_tokens g' e x) ->
    (forall x, reserved_balance x l = reserved_balance x (currency s) - own_nex g x + own_nex g' x) ->
    (forall e x, token_reserved e x tk = token_reserved e x (tokens s) - own_tokens g e x + own_tokens g' e x) ->
    shared_step (s, g) (s <| currency := l |> <| tokens := tk |> <| world := w |>, g').

(** At the start every reserve is of other pallets. *)
Definition foreign_of l tk : Foreign := mkForeign (fun x => reserved_balance x l) (fun e x => token_reserved e x tk).

Definition accounted (c : State L T W * Foreign) : Prop :=
  sound c.1 /\
  (forall x, spare_nex c.1 x = own_nex c.2 x /\ 0 <= own_nex c.2 x) /\
  (forall e x, spare_tokens c.1 e x = own_tokens c.2 e x /\ 0 <= own_tokens c.2 e x).

Lemma shared_step_accounted c c' : accounted c -> shared_step c c' -> accounted c'.
Proof.
  intros (Hs & Hx & Ht) Hstep. destruct Hstep as [s s' g Hm | s g l tk w g' Hg1 Hg2 Hl Htk]; simpl in *.
  - pose proof (market_step_good _ _ Hs Hm) as Hgood. destruct (good_spare _ _ _ _ Hgood) as [Hx' Ht'].
    split_and!; [exact (good_sound _ _ Hs Hgood) | intros x; by rewrite Hx' | intros e x; by rewrite Ht'].
  - unfold spare_nex, spare_tokens, locked_nex, locked_tokens in *. split_and!.
    + apply (outside_sound s); [done |]. exists l, tk, w. split; [done |].
      unfold locked_nex, locked_tokens. split; [intros x | intros e x].
      * rewrite Hl. destruct (Hx x). specialize (Hg1 x). lia.
      * rewrite Htk. destruct (Ht e x). specialize (Hg2 e x). lia.
    + intros x. split; [| done]. destruct (Hx x) as [He _].
      change (reserved_balance x l - locked_nex s x = own_nex g' x). unfold locked_nex. rewrite Hl. lia.
    + intros e x. split; [| done]. destruct (Ht e x) as [He _].
      change (token_reserved e x tk - locked_tokens s e x = own_tokens g' e x). unfold locked_tokens. rewrite Htk. lia.
Qed.

Lemma genesis_accounted l tk w : accounted (genesis l tk w, foreign_of l tk).
Proof.
  unfold accounted, spare_nex, spare_tokens, locked_nex, locked_tokens. simpl. split_and!; [apply genesis_sound | |].
  - intros x. rewrite msum_empty. split; [lia | apply reserved_nonneg].
  - intros e x. rewrite msum_empty. split; [lia | apply token_reserved_nonneg].
Qed.

(** C8: Open orders stay funded. As long as everything else on chain releases only what
    it has reserved itself - so not when root force-burns or force-transfers tokens, which
    drops reserves of open sales - what an account has in reserve is in every run exactly
    what its open orders lock - the tokens of a sale, the price of the rest of a purchase -
    and what the others have put there, which is never negative; and the two books
    of an entity and the list of a user name exactly the open orders, each once. *)
Theorem open_orders_stay_funded l tk w s g :
  rtc shared_step (genesis l tk w, foreign_of l tk) (s, g) ->
  sound s /\
  (forall x, reserved_balance x (currency s) = locked_nex s x + own_nex g x /\ 0 <= own_nex g x) /\
  (forall e x, token_reserved e x (tokens s) = locked_tokens s e x + own_tokens g e x /\ 0 <= own_tokens g e x).
Proof.
  intros Hrun. assert (accounted (s, g)) as (Hs & Hx & Ht).
  { revert Hrun. apply rtc_invariant; [exact shared_step_accounted | apply genesis_accounted]. }
  unfold spare_nex, spare_tokens in *. simpl in *. split_and!; [done | |].
  - intros x. destruct (Hx x). lia.
  - intros e x. destruct (Ht e x). lia.
Qed.

Lemma market_run_shared s s' g : rtc market_step s s' -> rtc shared_step (s, g) (s', g).
Proof. induction 1; [done |]. eapply rtc_l; [by apply shared_market | done]. Qed.

(** Another pallet reserves [v] of an account's currency. *)
Lemma shared_lend s g a v l : 0 <= v -> reserve a v (currency s) = Some l ->
  (forall x, 0 <= own_nex g x) -> (forall e x, 0 <= own_tokens g e x) ->
  shared_step (s, g) (s <| currency := l |> <| tokens := tokens s |> <| world := world s |>,
    mkForeign (fun x => own_nex g x + (if decide (x = a) then v else 0)) (own_tokens g)).
Proof.
  intros Hv Hr Hg1 Hg2. apply shared_others; cbn [own_nex own_tokens].
  - intros x. specialize (Hg1 x). case_decide; lia.
  - done.
  - intros x. rewrite (reserve_reserved a v _ _ x Hv Hr). repeat case_decide; subst; congruence || lia.
  - intros e x. lia.
Qed.

(** The sweep never fails and overruns its budget by at most one base weight; an
    order whose identifier lies beyond what the budget pays for is not touched, and
    the cursor moves to the end of the range even so. *)
Theorem sweep_keeps_budget env w s :
  weight_ok w -> exists consumed s', on_idle cfg env w s = (Ok consumed, s') /\
    ref_time consumed <= ref_time w + overrun 30000 5000 (ref_time w) /\
    proof_size consumed <= proof_size w + overrun 512 64 (proof_size w) /\
    (forall i, (sweep_range s).1 + (ref_time w - 25000) / 5000 <= i -> Orders s' !! i = Orders s !! i) /\
    OnIdleCursor s' = if decide ((sweep_range s).2 >= NextOrderId s) then 0 else (sweep_range s).2.
Proof.
  intros Hw. destruct (on_idle_run env w s Hw) as (out & s1 & s' & Hrun & Hcore & Hcur & Ht & Hp & Ho & _).
  exists out.1.1, s'. split_and!; try done. intros i Hi. rewrite (core_orders _ _ Hcore). apply Ho.
  intros Hin. apply list_elem_of_lookup in Hin as (k & Hk). apply lookup_take_Some in Hk as [Hk Hlt].
  apply lookup_seqZ in Hk as [-> _]. lia.
Qed.

End Runs.

End Pallet.

(** * A concrete run *)

Lemma play_steps calls s :
  Forall (fun c => call_ok c.2) calls ->
  (forall n, NextOrderId (play (take n calls) s) < u64_max) ->
  rtc (market_step (L:=SimpleLedger) (T:=SimpleTokens) (W:=SimpleWorld) demo_cfg) s (play calls s).
Proof.
  induction calls as [| c calls IH] using rev_ind; intros Hok Hmax; [done |].
  apply Forall_app in Hok as [Hok [Hc _]%Forall_cons].
  pose proof (Hmax (length calls)) as Hn. rewrite take_app_length in Hn.
  eapply rtc_r; [apply IH; [done |] |].
  - intros n. specialize (Hmax (Nat.min n (length calls))).
    rewrite take_app_le in Hmax by lia. by rewrite <- take_take, firstn_all in Hmax.
  - assert (play (calls ++ [c]) s = play_one (play calls s) c) as ->
      by (unfold play; by rewrite foldl_app).
    exact (step_call demo_cfg _ _ _ _ _ _ Hc Hn (surjective_pairing _)).
Qed.

Lemma demo_reached : rtc (market_step demo_cfg) demo_genesis demo_traded.
Proof.
  etrans; [apply (play_steps demo_opening) | apply (play_steps demo_orders)].
  all: try (repeat constructor; done).
  all: intros n; do 4 (destruct n as [| n]; [by vm_compute |]); by vm_compute.
Qed.

Lemma demo_sound : sound demo_traded.
Proof.
  refine (rtc_invariant (market_step demo_cfg) sound _ demo_genesis demo_traded _ demo_reached); [| apply genesis_sound].
  intros s s' Hs Hm. by apply (step_sound demo_cfg s), step_market.
Qed.

(** Afterwards another pallet reserves 40 for account 1. *)
Definition demo_lent : SimpleLedger := default (currency demo_traded) (reserve 1%N 40 (currency demo_traded)).

Definition demo_foreign : Foreign :=
  let g := foreign_of (currency demo_genesis) (tokens demo_genesis) in
  mkForeign (fun x => own_nex g x + (if decide (x = 1%N) then 40 else 0)) (own_tokens g).

Lemma demo_shares :
  rtc (shared_step demo_cfg) (demo_genesis, foreign_of (currency demo_genesis) (tokens demo_genesis))
    (demo_traded <| currency := demo_lent |> <| tokens := tokens demo_traded |> <| world := world demo_traded |>, demo_foreign).
Proof.
  eapply rtc_r; [apply market_run_shared, demo_reached |].
  apply (shared_lend demo_cfg demo_traded (foreign_of (currency demo_genesis) (tokens demo_genesis)) 1%N 40 demo_lent);
    [lia | vm_compute; reflexivity | intros x; apply reserved_nonneg | intros e x; apply token_reserved_nonneg].
Qed.

(** The sell order is covered by 30 reserved tokens, the bid by 360 of 400 NEX. *)
Lemma open_orders_stay_funded_witness :
  let s := demo_traded <| currency := demo_lent |> <| tokens := tokens demo_traded |> <| world := world demo_traded |> in
  sound s /\ locked_tokens s 1 2%N = 30 /\ locked_nex s 1%N = 360 /\ own_nex demo_foreign 1%N = 40 /\
  reserved_balance 1%N (currency s) = locked_nex s 1%N + own_nex demo_foreign 1%N.
Proof.
  intros s. destruct (open_orders_stay_funded demo_cfg _ _ _ s demo_foreign demo_shares) as (Hs & Hx & _).
  split_and!; [exact Hs | by vm_compute | by vm_compute | by vm_compute | exact (proj1 (Hx 1%N))].
Defined.

Lemma calls_keep_spare_reserves_witness :
  spare_nex (play [(demo_env 5, SignedBy 3%N, CMarketSell 1 35 300)] demo_traded) 1%N = spare_nex demo_traded 1%N /\
  reserved_balance 1%N (currency (play [(demo_env 5, SignedBy 3%N, CMarketSell 1 35 300)] demo_traded)) = 45.
Proof.
  split; [| by vm_compute].
  refine (proj1 (calls_keep_spare_reserves demo_cfg demo_traded _ demo_sound _) 1%N).
  refine (step_call demo_cfg (demo_env 5) (SignedBy 3%N) (CMarketSell 1 35 300) _ _ _ _ _
    (surjective_pairing _)); by vm_compute.
Defined.

Lemma sweep_keeps_budget_witness :
  weight_ok (mkWeight 70000 2000) /\
  exists consumed s', on_idle demo_cfg (demo_env 200) (mkWeight 70000 2000) demo_traded = (Ok consumed, s') /\
    ref_time consumed <= 75000.
Proof.
  split; [done |].
  destruct (sweep_keeps_budget demo_cfg (demo_env 200) (mkWeight 70000 2000) demo_traded)
    as (consumed & s' & Hrun & Hle & _); [done |].
  exists consumed, s'. split; [done |]. etrans; [exact Hle | by vm_compute].
Defined.

End MarketSteps.
