(* ===== verification/MarketMatching.v ===== *)
(** What matching does: the loop over the opposite book carries out a plan that
    can be computed beforehand, the plan is the best execution the book offers,
    fill-or-kill orders fill, limit orders leave nothing they could have traded
    with, and market orders keep to the bounds they name. *)

From S2P Require Import Prelude Frame EntityPorts EntityMarket MarketCalls MarketFunds MarketSteps.

Module MarketMatching.
Import Market MarketCalls MarketFunds MarketSteps.

(** * Plans *)

(** What a limit order trades: orders of the opposite book, in the order they are
    held, with the amount filled of each. *)
Fixpoint plan (sd : OrderSide) (limit : Z) (who : AccountId) (orders : list TradeOrder) (r : Z)
    : list (TradeOrder * Z) :=
  match orders with
  | [] => []
  | o :: rest =>
      if decide (price_ok sd limit o /\ r <> 0) then
        if decide (maker o = who) then plan sd limit who rest r
        else (o, Z.min r (unfilled o)) :: plan sd limit who rest (r - Z.min r (unfilled o))
      else []
  end.

Definition volume (fills : list (TradeOrder * Z)) : Z := foldr (fun f acc => f.2 + acc) 0 fills.

Definition value (fills : list (TradeOrder * Z)) : Z := foldr (fun f acc => f.2 * price f.1 + acc) 0 fills.

(** The orders after a plan. *)
Definition fill_all (fills : list (TradeOrder * Z)) (m : gmap Z TradeOrder) : gmap Z TradeOrder :=
  foldl (fun m f => <[order_id f.1 := after_fill f.1 f.2]> m) m fills.

(** An open, well-formed order. *)
Definition open_ok (o : TradeOrder) : Prop := order_ok o /\ is_live o = true.

Lemma open_ok_unfilled o : open_ok o -> 0 < unfilled o <= u128_max.
Proof. intros [? ?]. by apply open_unfilled. Qed.

Lemma plan_fill sd limit who orders r o fill :
  Forall open_ok orders -> 0 <= r -> (o, fill) ∈ plan sd limit who orders r ->
  o ∈ orders /\ maker o <> who /\ price_ok sd limit o /\ 0 < fill <= unfilled o.
Proof.
  revert r. induction orders as [| o1 orders IH]; intros r Hok Hr Hin; [by apply elem_of_nil in Hin |].
  apply Forall_cons in Hok as [Ho Hok]. pose proof (open_ok_unfilled o1 Ho). simpl in Hin.
  case_decide as Hd; [destruct Hd as [Hp Hnz] | by apply elem_of_nil in Hin].
  case_decide as Hm.
  - apply IH in Hin as (? & ?); try done. split; [by right | done].
  - apply elem_of_cons in Hin as [[= -> ->] | Hin].
    + split_and!; [by left | done | done | lia..].
    + apply IH in Hin as (? & ?); [| done | lia]. split; [by right | done].
Qed.

Lemma plan_volume sd limit who orders r :
  Forall open_ok orders -> 0 <= r -> 0 <= volume (plan sd limit who orders r) <= r.
Proof.
  revert r. induction orders as [| o orders IH]; intros r Hok Hr; simpl; [lia |].
  apply Forall_cons in Hok as [Ho Hok]. pose proof (open_ok_unfilled o Ho).
  repeat case_decide; simpl; [by apply IH | | lia].
  specialize (IH (r - Z.min r (unfilled o)) Hok). lia.
Qed.

Lemma plan_value_nonneg sd limit who orders r :
  Forall open_ok orders -> 0 <= r -> 0 <= value (plan sd limit who orders r).
Proof.
  revert r. induction orders as [| o orders IH]; intros r Hok Hr; simpl; [lia |].
  apply Forall_cons in Hok as [Ho Hok]. pose proof (open_ok_unfilled o Ho).
  pose proof (ok_price o (proj1 Ho)).
  repeat case_decide; simpl; [by apply IH | | lia].
  specialize (IH (r - Z.min r (unfilled o)) Hok). nia.
Qed.

(** The volume of what can be traded at a limit. *)
Definition tradable (sd : OrderSide) (limit : Z) (who : AccountId) (orders : list TradeOrder) : Z :=
  foldr (fun o acc => unfilled o + acc) 0 (filter (fun o => maker o <> who /\ price_ok sd limit o) orders).

(** Best prices first. *)
Abbreviation sorted sd orders := (StronglySorted (better sd) orders) (only parsing).

Lemma price_ok_better sd limit a b : better (opposite sd) a b -> price_ok sd limit b -> price_ok sd limit a.
Proof. destruct sd; simpl; lia. Qed.

Lemma tradable_nothing sd limit who o orders :
  sorted (opposite sd) (o :: orders) -> ~ price_ok sd limit o -> tradable sd limit who (o :: orders) = 0.
Proof.
  intros Hs Hp. apply StronglySorted_inv in Hs as [_ Hs]. unfold tradable.
  assert (filter (fun o => maker o <> who /\ price_ok sd limit o) (o :: orders) = []) as ->; [| done].
  rewrite filter_cons_False by (intros [_ ?]; done).
  assert (forall l, Forall (better (opposite sd) o) l ->
    filter (fun o => maker o <> who /\ price_ok sd limit o) l = []) as Hnil; [| by apply Hnil].
  induction l as [| o' l IH]; [done |]. intros [Hb Hl]%Forall_cons.
  rewrite filter_cons_False; [by apply IH |]. intros [_ ?]. apply Hp. by eapply price_ok_better.
Qed.

Lemma tradable_nonneg sd limit who orders : Forall open_ok orders -> 0 <= tradable sd limit who orders.
Proof.
  intros Hok. unfold tradable. induction Hok as [| o orders Ho Hok IH]; [done |].
  pose proof (open_ok_unfilled o Ho). rewrite filter_cons. case_decide; simpl; lia.
Qed.

(** A plan trades as much as it is asked to and there is. *)
Lemma plan_complete sd limit who orders r :
  Forall open_ok orders -> sorted (opposite sd) orders -> 0 <= r ->
  volume (plan sd limit who orders r) = Z.min r (tradable sd limit who orders).
Proof.
  revert r. induction orders as [| o orders IH]; intros r Hok Hs Hr; [unfold tradable; simpl; lia |].
  pose proof (tradable_nonneg sd limit who (o :: orders) Hok).
  apply Forall_cons in Hok as [Ho Hok]. pose proof (open_ok_unfilled o Ho).
  cbn [plan]. case_decide as Hd.
  - destruct Hd as [Hp Hnz]. apply StronglySorted_inv in Hs as [Hs _].
    pose proof (tradable_nonneg sd limit who orders Hok).
    unfold tradable in *. rewrite filter_cons. case_decide as Hm.
    + rewrite decide_False by tauto. by apply IH.
    + rewrite decide_True by tauto. simpl. rewrite IH by (done || lia). lia.
  - simpl. destruct (decide (r = 0)) as [-> | Hnz]; [lia |].
    rewrite tradable_nothing by tauto. lia.
Qed.

(** ** Best execution *)

(** How good a price is for the taker: what a buyer pays, what a seller gets not. *)
Definition toll (sd : OrderSide) (o : TradeOrder) : Z := match sd with Buy => price o | Sell => - price o end.

Definition toll_of (sd : OrderSide) (fills : list (TradeOrder * Z)) : Z :=
  foldr (fun f acc => f.2 * toll sd f.1 + acc) 0 fills.

(** Another way to trade: an amount of each order of other makers. *)
Definition allocation (who : AccountId) (orders : list TradeOrder) (f : Z -> Z) : Prop :=
  Forall (fun o => 0 <= f (order_id o) <= (if decide (maker o = who) then 0 else unfilled o)) orders.

Definition alloc_volume (orders : list TradeOrder) (f : Z -> Z) : Z :=
  foldr (fun o acc => f (order_id o) + acc) 0 orders.

Definition alloc_toll (sd : OrderSide) (orders : list TradeOrder) (f : Z -> Z) : Z :=
  foldr (fun o acc => f (order_id o) * toll sd o + acc) 0 orders.

Lemma alloc_volume_nonneg who orders f : allocation who orders f -> 0 <= alloc_volume orders f.
Proof. unfold allocation. induction 1; simpl; lia. Qed.

(** Trading at least as much costs at least the least price for what is more. *)
Lemma alloc_bound sd who orders f p0 :
  allocation who orders f -> Forall (fun o => p0 <= toll sd o) orders ->
  p0 * alloc_volume orders f <= alloc_toll sd orders f.
Proof.
  unfold allocation. induction 1 as [| o orders Hf Hall IH]; simpl; intros Hp; [lia |].
  apply Forall_cons in Hp as [Hp Hps]. specialize (IH Hps). nia.
Qed.

Lemma greedy_gap sd limit who orders f r p0 :
  Forall open_ok orders -> sorted (opposite sd) orders -> 0 <= r -> allocation who orders f ->
  Forall (fun o => p0 <= toll sd o) orders ->
  volume (plan sd limit who orders r) <= alloc_volume orders f ->
  p0 * (alloc_volume orders f - volume (plan sd limit who orders r)) <=
    alloc_toll sd orders f - toll_of sd (plan sd limit who orders r).
Proof.
  revert r p0. induction orders as [| o orders IH]; intros r p0 Hok Hs Hr Hf Hp Hv; [simpl in *; lia |].
  assert (Hbound := alloc_bound sd who (o :: orders) f p0 Hf Hp).
  apply Forall_cons in Hok as [Ho Hok]. apply StronglySorted_inv in Hs as [Hs Hbest].
  apply Forall_cons in Hf as [Hfo Hf]. apply Forall_cons in Hp as [Hpo Hp].
  pose proof (open_ok_unfilled o Ho). cbn [plan] in *. case_decide as Hd; [destruct Hd as [_ Hnz] | simpl in *; lia].
  assert (Forall (fun o' => toll sd o <= toll sd o') orders) as Hp1.
  { eapply Forall_impl; [exact Hbest |]. intros o' Hb. destruct sd; simpl in *; lia. }
  pose proof (alloc_volume_nonneg who orders f Hf). cbn [alloc_volume alloc_toll foldr] in *.
  fold (alloc_volume orders f) in *. fold (alloc_toll sd orders f) in *.
  case_decide as Hm.
  - assert (f (order_id o) = 0) as Hz by lia. rewrite Hz in *.
    specialize (IH r p0 Hok Hs Hr Hf Hp). lia.
  - set (g := Z.min r (unfilled o)) in *. cbn [volume toll_of foldr fst snd] in *.
    fold (volume (plan sd limit who orders (r - g))) in *. fold (toll_of sd (plan sd limit who orders (r - g))) in *.
    pose proof (plan_volume sd limit who orders (r - g) Hok ltac:(lia)).
    specialize (IH (r - g) (toll sd o) Hok Hs ltac:(lia) Hf Hp1).
    assert (volume (plan sd limit who orders (r - g)) <= alloc_volume orders f) as Hv'.
    { destruct (decide (f (order_id o) <= g)); [lia |]. assert (r - g = 0) by lia. lia. }
    specialize (IH Hv'). nia.
Qed.

Lemma toll_of_value sd fills : toll_of sd fills = match sd with Buy => value fills | Sell => - value fills end.
Proof. induction fills as [| [o f] fills IH]; simpl; [by destruct sd |]. rewrite IH. destruct sd; simpl; lia. Qed.

(** No allocation of the same volume over the same orders is better. *)
Lemma plan_best sd limit who orders f r :
  Forall open_ok orders -> sorted (opposite sd) orders -> 0 <= r -> allocation who orders f ->
  alloc_volume orders f = volume (plan sd limit who orders r) ->
  toll_of sd (plan sd limit who orders r) <= alloc_toll sd orders f.
Proof.
  intros Hok Hs Hr Hf Hv. destruct orders as [| o orders]; [simpl in *; lia |].
  pose proof Hs as Hs'. apply StronglySorted_inv in Hs' as [_ Hbest].
  pose proof (greedy_gap sd limit who (o :: orders) f r (toll sd o) Hok Hs Hr Hf) as Hgap.
  rewrite Hv, Z.sub_diag, Z.mul_0_r in Hgap. enough (0 <= alloc_toll sd (o :: orders) f -
    toll_of sd (plan sd limit who (o :: orders) r)) by lia.
  apply Hgap; [| lia]. constructor; [lia |].
  eapply Forall_impl; [exact Hbest |]. intros o' Hb. destruct sd; simpl in *; lia.
Qed.

(** * The loop carries out the plan *)

Section Pallet.
Context `{FrameSystem} {L T W : Type}.
Context `{RepatriatingCurrency L} `{EntityTokens T} `{EntityQueries W} (cfg : Config).
Implicit Types (s : State L T W).

Lemma cross_transfers_orders e who mk sd fill nex s u s' :
  cross_transfers e who mk sd fill nex s = (Ok u, s') -> Orders s' = Orders s.
Proof.
  unfold cross_transfers, currency_repatriate, repatriate_tokens. intros Hr. destruct sd; m_inv; done.
Qed.

Lemma book_fill_orders env o e who sd fill nex s u s' :
  open_ok o -> 0 < fill <= unfilled o ->
  book_fill cfg env o e who sd fill nex s = (Ok u, s') ->
  Orders s' = <[order_id o := after_fill o fill]> (Orders s).
Proof.
  intros [[? ? ? ? ? ?] Hl] Hf Hr. unfold book_fill in Hr. apply bind_Ok in Hr as ([] & s1 & Hup & Hr).
  assert (core s' = core s1) as Hcore.
  { revert Hr. apply (framed_bind core); [apply update_trade_stats_quiet | intros _].
    apply (framed_bind core); [apply record_trade_quiet | intros _].
    apply (framed_bind core); [apply deposit_event_quiet | intros _]. apply on_trade_completed_quiet. }
  rewrite (core_orders _ _ Hcore). unfold update_order_fill in Hup. simpl in Hup.
  rewrite sat_add_exact in Hup by (unfold unfilled, sat_sub in *; lia).
  apply finish_fill_state in Hup as (_ & Heq & _). exact Heq.
Qed.

Lemma plan_zero sd limit who orders : plan sd limit who orders 0 = [].
Proof. destruct orders as [| o orders]; simpl; [done |]. by rewrite decide_False by (intros [_ ?]; done). Qed.

Lemma sat_add_chain a b c : 0 <= c -> sat_add u128_max (Z.min u128_max (a + b)) c = Z.min u128_max (a + (b + c)).
Proof. unfold sat_add. lia. Qed.

Lemma cross_plan env who e sd limit orders s remaining filled nex filled' nex' s' :
  Forall open_ok orders -> 0 <= remaining -> 0 <= filled -> filled + remaining <= u128_max ->
  0 <= nex <= u128_max ->
  cross cfg env who e sd limit orders remaining filled nex s = (Ok (filled', nex'), s') ->
  filled' = filled + volume (plan sd limit who orders remaining) /\
  nex' = Z.min u128_max (nex + value (plan sd limit who orders remaining)) /\
  Orders s' = fill_all (plan sd limit who orders remaining) (Orders s).
Proof.
  revert s remaining filled nex. induction orders as [| o rest IH];
    intros s remaining filled nex Hok Hrem Hfil Hmax Hnex Hr; cbn [cross plan] in *.
  { apply ret_inv in Hr as [[= -> ->] ->]. simpl. split_and!; lia || done. }
  apply Forall_cons in Hok as [Ho Hok]. pose proof (open_ok_unfilled o Ho). pose proof (ok_price o (proj1 Ho)).
  destruct (decide (remaining = 0)) as [-> | Hnz].
  { apply ret_inv in Hr as [[= -> ->] ->]. rewrite decide_False by (intros [_ ?]; done). simpl. split_and!; lia || done. }
  destruct (decide (price_ok sd limit o)) as [Hp | Hp]; cycle 1.
  { apply ret_inv in Hr as [[= -> ->] ->]. rewrite decide_False by (intros [? _]; done). simpl. split_and!; lia || done. }
  rewrite (decide_True _ _ (conj Hp Hnz)). destruct (decide (maker o = who)) as [Hm | Hm]; [by apply IH in Hr |].
  set (fill := Z.min remaining (unfilled o)) in *.
  rewrite decide_False in Hr by lia.
  apply bind_Ok in Hr as (cost & s0 & Hcost & Hr). apply ok_or_Ok in Hcost as [[-> Hv]%calculate_total_Some ->].
  apply bind_Ok in Hr as ([] & s1 & Htr & Hr). apply cross_transfers_orders in Htr.
  apply bind_Ok in Hr as ([] & s2 & Hb & Hr). apply book_fill_orders in Hb; [| done | lia].
  rewrite sat_sub_exact, (sat_add_exact _ filled fill) in Hr by lia.
  assert (0 <= fill * price o) by nia.
  apply IH in Hr as (-> & -> & ->); [| done | lia | lia | lia | unfold sat_add; lia].
  cbn [volume value fill_all foldr foldl fst snd].
  fold (volume (plan sd limit who rest (remaining - fill))) (value (plan sd limit who rest (remaining - fill))).
  pose proof (plan_value_nonneg sd limit who rest (remaining - fill) Hok ltac:(lia)).
  split_and!; [lia | unfold sat_add; lia | by rewrite Hb, Htr].
Qed.

Lemma sorted_open_ok c t env s sd e :
  good all_indexes c t s -> Forall open_ok (get_sorted_orders env s e sd).
Proof.
  intros Hg. destruct (sorted_listing c t env s sd e Hg) as [_ Hall]. rewrite Forall_forall in *.
  intros o Hin. destruct (Hall o Hin) as (Ho & Hl & _). split; [| done]. by eapply f_ok; [apply Hg |].
Qed.

#[local] Instance better_total sd : Total (better sd).
Proof. intros a b. destruct sd; simpl; lia. Qed.

#[local] Instance better_trans sd : Transitive (better sd).
Proof. intros a b c. destruct sd; simpl; lia. Qed.

Lemma sorted_sorted env s sd e : sorted sd (get_sorted_orders env s e sd).
Proof. unfold get_sorted_orders. apply (stable_sort_sorted (better sd)). Qed.

(** Among orders at one price the one that came first is matched first. *)
Lemma ties_in_book_order env s sd e p :
  filter (fun o => price o = p) (get_sorted_orders env s e sd) = filter (fun o => price o = p) (listed env s sd e).
Proof.
  assert (forall x l, filter (fun o => price o = p) (insert_before (better sd) x l) = filter (fun o => price o = p) (x :: l)) as Hins.
  { intros x l. induction l as [| y l IH]; [done |]. cbn [insert_before]. case_decide as Hb; [done |].
    rewrite filter_cons, IH, !filter_cons. repeat case_decide; try done. exfalso. apply Hb. destruct sd; simpl; lia. }
  unfold get_sorted_orders. induction (listed env s sd e) as [| o l IH]; [done |].
  change (stable_sort (better sd) (o :: l)) with (insert_before (better sd) o (stable_sort (better sd) l)).
  by rewrite Hins, !filter_cons, IH.
Qed.

(** [do_cross_match] on a sound market. *)
Lemma do_cross_match_plan c t env who e sd limit amount s crossed s' :
  good all_indexes c t s -> 0 <= amount <= u128_max ->
  do_cross_match cfg env who e sd limit amount s = (Ok crossed, s') ->
  let fills := plan sd limit who (get_sorted_orders env s e (opposite sd)) amount in
  crossed.1 = volume fills /\ crossed.2 = Z.min u128_max (value fills) /\ Orders s' = fill_all fills (Orders s).
Proof.
  intros Hg Ha Hr. unfold do_cross_match in Hr. apply bind_Ok in Hr as (orders & s1 & Hget & Hr).
  apply gets_inv in Hget as [[= ->] ->]. destruct crossed as [filled nex].
  apply cross_plan in Hr as (-> & -> & ->); [done | by eapply sorted_open_ok | lia | lia | lia | unfold u128_max; lia].
Qed.

(** * The calls *)

Lemma sorted_shape env s s' e sd :
  shape s' = shape s -> get_sorted_orders env s' e sd = get_sorted_orders env s e sd.
Proof.
  intros [= _ Ho Hs Hb _]. unfold get_sorted_orders, listed. f_equal. f_equal. unfold book.
  rewrite Ho, Hs, Hb. done.
Qed.

Lemma signed_inv origin s who s1 :
  signed (L:=L) (T:=T) (W:=W) origin s = (Ok who, s1) -> ensure_signed origin = Some who /\ s1 = s.
Proof. unfold signed. by intros [? ?]%ok_or_Ok. Qed.

(** The admission checks leave the books alone and only pass nonzero amounts. *)
Lemma admit_order_inv env e who a p s u s1 :
  admit_order cfg env e who a p s = (Ok u, s1) -> core s1 = core s /\ a <> 0 /\ p <> 0.
Proof.
  intros Hr. pose proof (admit_order_quiet cfg env e who a p _ _ _ Hr) as Hcore. split; [done |].
  unfold admit_order in Hr. by m_inv.
Qed.

Context `{!ReservableCurrencyLaws L} `{!RepatriatingCurrencyLaws L} `{!EntityTokensLaws T}.

Lemma sound_nonneg s : sound s -> (forall x, 0 <= spare_nex s x) /\ (forall e x, 0 <= spare_tokens s e x).
Proof. by intros (_ & ? & ?)%sound_good. Qed.

(** What the matching part of a call does to a sound market. *)
Lemma locked_cross env e sd who a p s s1 crossed s2 u :
  sound s -> 0 <= a <= u128_max -> 0 <= p -> lock_for e sd who a p s = (Ok u, s1) ->
  do_cross_match cfg env who e sd p a s1 = (Ok crossed, s2) ->
  let fills := plan sd p who (get_sorted_orders env s e (opposite sd)) a in
  crossed.1 = volume fills /\ crossed.2 = Z.min u128_max (value fills) /\ Orders s2 = fill_all fills (Orders s).
Proof.
  intros Hs Ha Hp Hl Hx. apply sound_good in Hs as Hg. destruct Hg as (Hg & Hx0 & Ht0).
  eapply (lock_for_good (spare_nex s) (spare_tokens s)) in Hl as (Hg1 & Hsh & _); [| done | lia | done].
  eapply do_cross_match_plan in Hx as (H1' & H2' & H3'); [| exact Hg1 | done].
  rewrite (sorted_shape env s s1) in * by done. rewrite (shape_orders _ _ Hsh) in H3'. done.
Qed.

Definition alloc_value (orders : list TradeOrder) (f : Z -> Z) : Z :=
  foldr (fun o acc => f (order_id o) * price o + acc) 0 orders.

Lemma alloc_toll_value sd orders f :
  alloc_toll sd orders f = match sd with Buy => alloc_value orders f | Sell => - alloc_value orders f end.
Proof. induction orders as [| o orders IH]; simpl; [by destruct sd |]. rewrite IH. destruct sd; simpl; lia. Qed.

(** What an order that does not rest reports. *)
Lemma crossing_order_result env e sd who a p s u s' :
  sound s -> 0 <= a <= u128_max -> 0 <= p ->
  (lock_for e sd who a p >>
   let! crossed := do_cross_match cfg env who e sd p a in
   give_back e sd who a p crossed >>
   update_best_prices env e >>
   deposit_event (MarketOrderExecuted e who sd crossed.1 crossed.2)) s = (Ok u, s') ->
  let book := get_sorted_orders env s e (opposite sd) in
  let fills := plan sd p who book a in
  last (events s') = Some (MarketOrderExecuted e who sd (volume fills) (Z.min u128_max (value fills))).
Proof.
  intros Hs Ha Hp Hr. apply bind_Ok in Hr as ([] & s1 & Hl & Hr). apply bind_Ok in Hr as (crossed & s2 & Hx & Hr).
  destruct (locked_cross env e sd who a p s s1 crossed s2 () Hs Ha Hp Hl Hx) as (Hv1 & Hv2 & _).
  apply bind_Ok in Hr as ([] & s3 & Hgive & Hr). apply bind_Ok in Hr as ([] & s4 & Hup & Hr).
  unfold deposit_event in Hr. apply modify_inv in Hr as [_ ->]. cbv zeta in *. simpl. by rewrite last_snoc, Hv1, Hv2.
Qed.

(** The plan of a sound market, told without the plan. *)
Lemma plan_facts env e sd who a p s f :
  sound s -> 0 <= a ->
  let book := get_sorted_orders env s e (opposite sd) in
  let fills := plan sd p who book a in
  volume fills = Z.min a (tradable sd p who book) /\
  (allocation who book f -> alloc_volume book f = volume fills ->
   match sd with Buy => value fills <= alloc_value book f | Sell => alloc_value book f <= value fills end).
Proof.
  intros Hs Ha book fills. apply sound_good in Hs as (Hg & _).
  pose proof (sorted_open_ok _ _ env s (opposite sd) e Hg) as Hok.
  pose proof (sorted_sorted env s (opposite sd) e) as Hsorted. split; [by apply plan_complete |].
  intros Hf Hv. pose proof (plan_best sd p who book f a Hok Hsorted Ha Hf Hv) as Hbest.
  rewrite toll_of_value, alloc_toll_value in Hbest. fold fills in Hbest. clearbody fills. clear Hv.
  destruct sd; lia.
Qed.

(** C16: An immediate-or-cancel order fills the smaller of its amount and what other
    accounts offer at its limit, and it pays or receives the best total any way of
    taking that amount from the book would give (a sum above 128 bits counts as the
    largest number). *)
Theorem ioc_orders_execute_best env origin e sd a p s u s' :
  sound s -> u128 a -> u128 p ->
  place_ioc_order cfg env origin e sd a p s = (Ok u, s') ->
  exists who filled total, ensure_signed origin = Some who /\
    last (events s') = Some (MarketOrderExecuted e who sd filled total) /\
    let book := get_sorted_orders env s e (opposite sd) in
    filled = Z.min a (tradable sd p who book) /\
    forall f, allocation who book f -> alloc_volume book f = filled ->
      match sd with
      | Buy => total <= alloc_value book f
      | Sell => Z.min u128_max (alloc_value book f) <= total
      end.
Proof.
  intros Hs Ha Hp Hr. unfold place_ioc_order in Hr. apply bind_Ok in Hr as (who & s1 & Hsig & Hr).
  apply signed_inv in Hsig as [Hsig ->]. apply bind_Ok in Hr as ([] & s2 & Had & Hr).
  apply admit_order_inv in Had as (Hcore & _). assert (sound s2) as Hs2 by (by eapply sound_core).
  apply crossing_order_result in Hr; [| done | done | apply Hp].
  exists who, (volume (plan sd p who (get_sorted_orders env s e (opposite sd)) a)),
    (Z.min u128_max (value (plan sd p who (get_sorted_orders env s e (opposite sd)) a))).
  rewrite (sorted_shape env s s2) in Hr by (by apply core_shape). split_and!; [done | done |].
  destruct (plan_facts env e sd who a p s (fun _ => 0) Hs (proj1 Ha)) as [Hv _]. split; [done |].
  intros f Hf Hfv. destruct (plan_facts env e sd who a p s f Hs (proj1 Ha)) as [_ Hbest].
  specialize (Hbest Hf Hfv). destruct sd; lia.
Qed.

(** ** Fill or kill *)

(** The check before a fill-or-kill order computes what can be traded. *)
Lemma fillable_tradable sd limit who orders total :
  Forall open_ok orders -> sorted (opposite sd) orders -> 0 <= total <= u128_max ->
  fillable sd limit who orders total = Z.min u128_max (total + tradable sd limit who orders).
Proof.
  revert total. induction orders as [| o orders IH]; intros total Hok Hs Ht; [unfold tradable; simpl; lia |].
  pose proof (tradable_nothing sd limit who o orders Hs) as Hnone.
  apply Forall_cons in Hok as [Ho Hok]. apply StronglySorted_inv in Hs as [Hs _].
  pose proof (open_ok_unfilled o Ho). pose proof (tradable_nonneg sd limit who orders Hok).
  cbn [fillable]. case_decide as Hp; [| rewrite Hnone by done; lia].
  unfold tradable in *. rewrite filter_cons. case_decide as Hm.
  - rewrite decide_False by tauto. by apply IH.
  - rewrite decide_True by tauto. simpl. rewrite IH by (done || unfold sat_add; lia). unfold sat_add. lia.
Qed.

(** A fill-or-kill order that is accepted is filled to its full amount. *)
Theorem fok_orders_fill env origin e sd a p s u s' :
  sound s -> u128 a -> u128 p ->
  place_fok_order cfg env origin e sd a p s = (Ok u, s') ->
  exists who total, ensure_signed origin = Some who /\
    last (events s') = Some (MarketOrderExecuted e who sd a total).
Proof.
  intros Hs Ha Hp Hr. unfold place_fok_order in Hr. apply bind_Ok in Hr as (who & s1 & Hsig & Hr).
  apply signed_inv in Hsig as [Hsig ->]. apply bind_Ok in Hr as ([] & s2 & Had & Hr).
  apply admit_order_inv in Had as (Hcore & _). assert (sound s2) as Hs2 by (by eapply sound_core).
  apply bind_Ok in Hr as (avail & s3 & Hget & Hr). apply gets_inv in Hget as [[= ->] ->].
  apply bind_Ok in Hr as ([] & s3 & Hens & Hr). apply ensure_Ok in Hens as [Hens ->].
  apply crossing_order_result in Hr; [| done | done | apply Hp].
  destruct (plan_facts env e sd who a p s2 (fun _ => 0) Hs2 (proj1 Ha)) as [Hv _].
  unfold check_fillable_amount in Hens. apply sound_good in Hs2 as (Hg & _).
  rewrite fillable_tradable in Hens
    by (eapply sorted_open_ok, Hg || apply sorted_sorted || unfold u128_max; lia).
  cbv zeta in *. rewrite Hv in Hr. exists who. eexists. split; [done |].
  rewrite Hr. rewrite Z.min_l by lia. reflexivity.
Qed.

(** ** Limit orders *)

Lemma plan_takes_all sd limit who orders r o :
  Forall open_ok orders -> sorted (opposite sd) orders -> 0 <= r ->
  volume (plan sd limit who orders r) < r -> o ∈ orders -> maker o <> who -> price_ok sd limit o ->
  exists f, (o, f) ∈ plan sd limit who orders r.
Proof.
  revert r. induction orders as [| o1 orders IH]; intros r Hok Hs Hr Hv Hin Hm Hp; [by apply elem_of_nil in Hin |].
  apply Forall_cons in Hok as [Ho Hok]. apply StronglySorted_inv in Hs as [Hs Hbest].
  pose proof (open_ok_unfilled o1 Ho). cbn [plan] in *.
  assert (price_ok sd limit o1) as Hp1.
  { apply elem_of_cons in Hin as [-> | Hin]; [done |]. rewrite Forall_forall in Hbest.
    by eapply price_ok_better; [apply Hbest |]. }
  destruct (decide (price_ok sd limit o1 /\ r <> 0)) as [Hd | Hd]; [| simpl in Hv; destruct Hd; split; [done | lia]].
  destruct (decide (maker o1 = who)) as [Hw | Hw].
  - apply elem_of_cons in Hin as [-> | Hin]; [done |]. by apply IH.
  - simpl in Hv. apply elem_of_cons in Hin as [-> | Hin]; [eexists; by left |].
    destruct (IH (r - Z.min r (unfilled o1)) Hok Hs ltac:(lia) ltac:(lia) Hin Hm Hp) as [f Hf].
    exists f. by right.
Qed.

Lemma plan_partial sd limit who orders r o f :
  Forall open_ok orders -> 0 <= r -> (o, f) ∈ plan sd limit who orders r -> f < unfilled o ->
  volume (plan sd limit who orders r) = r.
Proof.
  revert r. induction orders as [| o1 orders IH]; intros r Hok Hr Hin Hlt; cbn [plan] in *; [by apply elem_of_nil in Hin |].
  apply Forall_cons in Hok as [Ho Hok]. pose proof (open_ok_unfilled o1 Ho).
  destruct (decide (price_ok sd limit o1 /\ r <> 0)) as [Hd | Hd]; [| by apply elem_of_nil in Hin].
  destruct (decide (maker o1 = who)) as [Hw | Hw]; [by apply IH |].
  apply elem_of_cons in Hin as [[= -> ->] | Hin]; simpl.
  - replace (r - Z.min r (unfilled o1)) with 0 by lia. rewrite plan_zero. simpl. lia.
  - rewrite IH by (done || lia). lia.
Qed.

Lemma fill_all_lookup fills m id o :
  fill_all fills m !! id = Some o ->
  (exists o0 f, (o0, f) ∈ fills /\ o = after_fill o0 f) \/
  (m !! id = Some o /\ forall o0 f, (o0, f) ∈ fills -> order_id o0 <> id).
Proof.
  revert m. induction fills as [| [o1 f1] fills IH]; intros m Hl; simpl in Hl.
  - right. split; [done |]. by intros o0 f ?%elem_of_nil.
  - apply IH in Hl as [(o0 & f & Hin & ->) | [Hl Hnone]].
    + left. exists o0, f. split; [by right | done].
    + map_cases; [left; exists o1, f1; split; [by left | done] |].
      right. split; [done |]. intros o0 f [[= -> ->] | Hin]%elem_of_cons; [done | by eapply Hnone].
Qed.

(** What is left in a book once a plan for less than was asked is carried out. *)
Lemma nothing_left env e sd limit who a s s' o :
  sound s -> sound s' -> 0 <= a ->
  volume (plan sd limit who (get_sorted_orders env s e (opposite sd)) a) < a ->
  (forall o, side o = opposite sd -> Orders s' !! order_id o = Some o ->
    fill_all (plan sd limit who (get_sorted_orders env s e (opposite sd)) a) (Orders s) !! order_id o = Some o) ->
  o ∈ get_sorted_orders env s' e (opposite sd) -> maker o <> who -> ~ price_ok sd limit o.
Proof.
  intros Hs Hs' Ha Hv Hold Hin Hm Hp.
  apply sound_good in Hs as Hg. destruct Hg as [Hg _]. apply sound_good in Hs' as Hg'. destruct Hg' as [Hg' _].
  pose proof (sorted_open_ok _ _ env s (opposite sd) e Hg) as Hok.
  pose proof (sorted_sorted env s (opposite sd) e) as Hsorted.
  destruct (sorted_listing _ _ env s' (opposite sd) e Hg') as [_ Hall]. rewrite Forall_forall in Hall.
  destruct (Hall o Hin) as (Ho & Hl & He & Hsd). apply Hold in Ho; [| done].
  set (fills := plan _ _ _ _ _) in *.
  apply fill_all_lookup in Ho as [(o0 & f & Hf & ->) | [Ho Hnone]].
  - pose proof Hf as Hf'. apply plan_fill in Hf' as (Ho0 & _ & _ & Hrange); [| done | lia].
    destruct (decide (f < unfilled o0)) as [Hlt | Hge].
    + pose proof (plan_partial _ _ _ _ _ _ _ Hok Ha Hf Hlt) as Hfull. fold fills in Hfull. lia.
    + rewrite Forall_forall in Hok. destruct (Hok o0 Ho0) as [Hok0 Hl0]. pose proof Hok0 as [? ? ? ? ? ?].
      rewrite after_fill_live in Hl by done. apply bool_decide_eq_true_1 in Hl.
      unfold unfilled, sat_sub in *. lia.
  - assert (o ∈ get_sorted_orders env s e (opposite sd)) as Hin0.
    { apply sorted_orders_elem, listed_elem. apply sorted_orders_elem, listed_elem in Hin as [Hmt _]. split; [done |].
      exists (order_id o). split; [| done]. apply (sound_indexes s Hs (IBook (opposite sd) e) I). by exists o. }
    destruct (plan_takes_all sd limit who _ a o Hok Hsorted Ha Hv Hin0 Hm Hp) as [f Hf].
    by apply (Hnone o f Hf).
Qed.

Definition place_limit (sd : OrderSide) (env : Env) (origin : Origin) (e a p : Z) :=
  match sd with
  | Sell => place_sell_order (L:=L) (T:=T) (W:=W) cfg env origin e a p
  | Buy => place_buy_order cfg env origin e a p
  end.

(** The end of a limit order: the remainder, if any, becomes an order. *)
Lemma rest_tail env e sd who rest p ev s u s' :
  ((if decide (rest = 0) then ret tt else
      let! id := do_create_order cfg env e who sd Limit rest p in deposit_event (ev id)) >>
   update_best_prices env e) s = (Ok u, s') ->
  NextOrderId s' <> NextOrderId s ->
  rest <> 0 /\ exists o, side o = sd /\ order_id o = NextOrderId s /\ Orders s' = <[NextOrderId s := o]> (Orders s).
Proof.
  intros Hr Hne. apply bind_Ok in Hr as ([] & s1 & Hrest & Hup).
  apply update_best_prices_quiet in Hup as Hcore. rewrite (core_next _ _ Hcore) in Hne.
  rewrite (core_orders _ _ Hcore). case_decide as Hz; [by apply ret_inv in Hrest as [_ ->] |].
  split; [done |]. apply bind_Ok in Hrest as (id & s2 & Hcr & Hev). apply deposit_event_quiet in Hev as Hcore'.
  rewrite (core_orders _ _ Hcore'). apply do_create_order_state in Hcr as (-> & _ & _ & _ & (until & ->) & _).
  eexists. split_and!; [| | reflexivity]; done.
Qed.

(** The parts of a limit order: matching, and what becomes of the remainder. *)
Lemma place_limit_parts sd env origin e a p s u s' :
  sound s -> u128 a -> u128 p -> place_limit sd env origin e a p s = (Ok u, s') ->
  exists who s1 s2 crossed s3 s4 ev, ensure_signed origin = Some who /\ core s1 = core s /\
    lock_for e sd who a p s1 = (Ok tt, s2) /\
    do_cross_match cfg env who e sd p a s2 = (Ok crossed, s3) /\ shape s4 = shape s3 /\
    ((if decide (sat_sub a crossed.1 = 0) then ret tt else
        let! id := do_create_order cfg env e who sd Limit (sat_sub a crossed.1) p in deposit_event (ev id)) >>
     update_best_prices env e) s4 = (Ok u, s').
Proof.
  intros Hs Ha Hp Hr. destruct sd; simpl in Hr.
  - unfold place_buy_order in Hr. apply bind_Ok in Hr as (who & s1 & Hsig & Hr).
    apply signed_inv in Hsig as [Hsig ->]. apply bind_Ok in Hr as ([] & s1 & Had & Hr).
    apply admit_order_inv in Had as (Hcore & _).
    apply bind_Ok in Hr as (total & sx & Hv & Hr). pose proof Hv as Hv'. apply ok_or_Ok in Hv' as [_ ->].
    apply bind_Ok in Hr as ([] & s2 & Hres & Hr). apply bind_Ok in Hr as (crossed & s3 & Hx & Hr).
    apply bind_Ok in Hr as (rest & sx & Hv2 & Hr). apply ok_or_Ok in Hv2 as [_ ->].
    apply bind_Ok in Hr as ([] & s4 & Hun & Hr).
    exists who, s1, s2, crossed, s3, s4. eexists. split_and!; try done.
    + simpl. by rewrite (bind_eval _ _ _ _ _ Hv).
    + clear Hr. case_decide; [by apply ret_inv in Hun as [_ ->] |]. unfold currency_unreserve in Hun.
      by apply modify_inv in Hun as [_ ->].
    + exact Hr.
  - unfold place_sell_order in Hr. apply bind_Ok in Hr as (who & s1 & Hsig & Hr).
    apply signed_inv in Hsig as [Hsig ->]. apply bind_Ok in Hr as ([] & s1 & Had & Hr).
    apply admit_order_inv in Had as (Hcore & _). apply bind_Ok in Hr as ([] & s2 & Hl & Hr).
    apply bind_Ok in Hr as (crossed & s3 & Hx & Hr).
    exists who, s1, s2, crossed, s3, s3. eexists. split_and!; try done. exact Hr.
Qed.

Lemma lock_for_shape e sd who a p s u s' :
  lock_for (L:=L) (T:=T) (W:=W) e sd who a p s = (Ok u, s') -> shape s' = shape s.
Proof.
  unfold lock_for, ensure_tokens, reserve_tokens, currency_reserve, calculate_total. intros Hr. destruct sd; by m_inv.
Qed.

Lemma cross_next_state env who e sd limit a s crossed s' :
  do_cross_match cfg env who e sd limit a s = (Ok crossed, s') -> NextOrderId s' = NextOrderId s.
Proof.
  unfold do_cross_match. intros (orders & s1 & Hget & Hr)%bind_Ok. apply gets_inv in Hget as [_ ->].
  by apply cross_next in Hr.
Qed.

(** C15: When a limit order has left a remainder in the book, no open order of another
    account on the other side accepts its price any more. *)
Theorem limit_orders_rest_clear sd env origin e a p s u s' o :
  sound s -> u128 a -> u128 p -> NextOrderId s < u64_max ->
  place_limit sd env origin e a p s = (Ok u, s') -> NextOrderId s' <> NextOrderId s ->
  o ∈ get_sorted_orders env s' e (opposite sd) -> Some (maker o) <> ensure_signed origin ->
  ~ price_ok sd p o.
Proof.
  intros Hs Ha Hp Hmax Hr Hne Hin Hm.
  assert (sound s') as Hs'.
  { apply sound_good in Hs as Hg. destruct Hg as (Hg & Hx & Ht). eapply (good_sound s s' Hs).
    destruct sd; simpl in Hr; [by eapply place_buy_order_good in Hr | by eapply place_sell_order_good in Hr]. }
  apply place_limit_parts in Hr as (who & s1 & s2 & crossed & s3 & s4 & ev & Hsig & Hc1 & Hl & Hx & Hsh & Hr); try done.
  assert (sound s1) as Hs1 by (by eapply sound_core).
  destruct (locked_cross env e sd who a p s1 s2 crossed s3 tt Hs1 Ha (proj1 Hp) Hl Hx) as (Hv & _ & Ho3).
  assert (NextOrderId s4 = NextOrderId s) as Hn4.
  { rewrite (shape_next _ _ Hsh). apply cross_next_state in Hx. rewrite Hx.
    apply lock_for_shape in Hl. rewrite (shape_next _ _ Hl). by apply core_next. }
  apply rest_tail in Hr as (Hrest & o1 & Hside & Hid & Ho'); [| congruence].
  rewrite (sorted_shape env s s1) in * by (by apply core_shape).
  eapply (nothing_left env e sd p who a s s' o Hs Hs' (proj1 Ha)); [| | done | congruence].
  - cbv zeta in Hv. rewrite <- Hv. unfold sat_sub in Hrest. lia.
  - intros o' Hsd Hlook. rewrite Ho', Hn4 in Hlook. rewrite lookup_insert in Hlook. case_decide as Heq.
    + injection Hlook as <-. rewrite Hside in Hsd. by destruct sd.
    + rewrite (shape_orders _ _ Hsh), Ho3, (core_orders _ _ Hc1) in Hlook. done.
Qed.

(** ** Market orders *)

(** A market purchase that is accepted reports a positive amount up to what was
    asked for and a cost within its budget. *)
Theorem market_buys_keep_budget env origin e a max_cost s u s' :
  sound s -> u128 a -> u128 max_cost -> market_buy cfg env origin e a max_cost s = (Ok u, s') ->
  exists who filled total, last (events s') = Some (MarketOrderExecuted e who Buy filled total) /\
    0 < filled <= a /\ total <= max_cost.
Proof.
  intros (Hg & Hx & Ht)%sound_good Ha Hm Hr. unfold market_buy in Hr. do 5 skip_quiet Hg Hr.
  apply bind_Ok in Hr as (orders & s5 & Hget & Hr). apply gets_inv in Hget as [[= ->] ->].
  apply bind_Ok in Hr as ([] & s6 & Hens & Hr). apply ensure_Ok in Hens as [_ ->].
  unfold do_market_buy in Hr. apply bind_Ok in Hr as (result & s6 & Hbuy & Hr).
  apply bind_Ok in Hbuy as ([filled spent] & s7 & Hloop & Href).
  eapply (market_buy_loop_good _ _ _ _ Hx Ht) in Hloop as (Hg7 & Hf & Hsp);
    [| by eapply sorted_listing | destruct Ha, Hm; lia.. | done].
  unfold refresh_if_filled in Href. apply bind_Ok in Href as ([] & s8 & _ & Href). apply ret_inv in Href as [[= ->] ->].
  apply bind_Ok in Hr as ([] & s9 & Hens & Hr). apply ensure_Ok in Hens as [Hnz ->].
  apply modify_inv in Hr as [_ ->]. simpl in *. rewrite last_snoc. do 3 eexists. split; [done |]. lia.
Qed.

End Pallet.

(** * Concrete runs *)

Lemma u128_b (n : Z) : (0 <=? n) && (n <=? u128_max) = true -> u128 n.
Proof. rewrite andb_true_iff, !Z.leb_le. done. Qed.

(** 35 of the 40 tokens the bid at 9 asks for, sold at once. *)
Lemma ioc_orders_execute_best_witness :
  exists (who : N) (filled total : Z) (s' : State SimpleLedger SimpleTokens SimpleWorld), ensure_signed (SignedBy 3%N) = Some who /\
    last (events s') = Some (MarketOrderExecuted 1 who Sell filled total) /\
    filled = Z.min 35 (tradable Sell 9 who (get_sorted_orders (demo_env 5) demo_traded 1 Buy)) /\ filled = 35.
Proof.
  pose proof (returns (place_ioc_order demo_cfg (demo_env 5) (SignedBy 3%N) 1 Sell 35 9) demo_traded tt
    ltac:(by vm_compute)) as Hrun.
  destruct (ioc_orders_execute_best demo_cfg _ _ _ _ _ _ _ _ _ demo_sound (u128_b 35 eq_refl) (u128_b 9 eq_refl) Hrun)
    as (who & filled & total & Hw & Hlast & Hf & _). injection Hw as <-.
  exists 3%N, filled, total. eexists. split_and!; [done | exact Hlast | exact Hf |]. rewrite Hf. by vm_compute.
Defined.

Lemma fok_orders_fill_witness :
  exists (who : N) (total : Z) (s' : State SimpleLedger SimpleTokens SimpleWorld), ensure_signed (SignedBy 3%N) = Some who /\
    last (events s') = Some (MarketOrderExecuted 1 who Sell 40 total).
Proof.
  pose proof (returns (place_fok_order demo_cfg (demo_env 5) (SignedBy 3%N) 1 Sell 40 9) demo_traded tt
    ltac:(by vm_compute)) as Hrun.
  destruct (fok_orders_fill demo_cfg _ _ _ _ _ _ _ _ _ demo_sound (u128_b 40 eq_refl) (u128_b 9 eq_refl) Hrun)
    as (who & total & Hw & Hlast).
  exists who, total. eexists. split; [exact Hw | exact Hlast].
Defined.

(** Account 3 sells 60 at 9: 40 at once, and no bid at 9 or more is left. *)
Lemma limit_orders_rest_clear_witness :
  let s' := (place_limit demo_cfg Sell (demo_env 5) (SignedBy 3%N) 1 60 9 demo_traded).2 in
  NextOrderId s' = 3 /\ forall o, o ∈ get_sorted_orders (demo_env 5) s' 1 Buy -> maker o <> 3%N -> ~ 9 <= price o.
Proof.
  pose proof (returns (place_limit demo_cfg Sell (demo_env 5) (SignedBy 3%N) 1 60 9) demo_traded tt
    ltac:(by vm_compute)) as Hrun.
  split; [by vm_compute |]. intros o Hin Hm.
  refine (limit_orders_rest_clear demo_cfg Sell _ _ _ _ _ _ _ _ o demo_sound (u128_b 60 eq_refl) (u128_b 9 eq_refl)
    _ Hrun _ Hin _).
  - by vm_compute.
  - by vm_compute.
  - simpl. congruence.
Defined.

Lemma market_buys_keep_budget_witness :
  exists (who : N) (filled total : Z) (s' : State SimpleLedger SimpleTokens SimpleWorld), last (events s') = Some (MarketOrderExecuted 1 who Buy filled total) /\
    0 < filled <= 25 /\ total <= 205.
Proof.
  pose proof (returns (market_buy demo_cfg (demo_env 5) (SignedBy 3%N) 1 25 205) demo_traded tt
    ltac:(by vm_compute)) as Hrun.
  destruct (market_buys_keep_budget demo_cfg _ _ _ _ _ _ _ _ demo_sound (u128_b 25 eq_refl) (u128_b 205 eq_refl) Hrun)
    as (who & filled & total & Hlast & Hf & Ht).
  exists who, filled, total. eexists. split_and!; [exact Hlast | apply Hf.. | exact Ht].
Defined.

End MarketMatching.
