(* ===== verification/MarketOracle.v ===== *)
(** The price oracle of the market and what it guards: averages stay within the
    prices they average, a triggered circuit breaker stops trading, and orders
    are only admitted near the reference price - as long as the arithmetic of the
    check does not wrap around, which it can. *)

From S2P Require Import Prelude Frame EntityPorts EntityMarket MarketCalls MarketFunds MarketSteps.

Module MarketOracle.
Import Market MarketCalls MarketFunds MarketSteps.

(** * The average price *)

(** The filter on outliers acts on rises to more than twice the last price and on
    nothing else: a fall never deviates by more than the last price itself. *)
Lemma filtered_price_eq acc p :
  0 <= p -> 0 <= last_price acc ->
  filtered_price acc p =
    if decide (trade_count acc > 0 /\ last_price acc <> 0 /\ p > 2 * last_price acc)
    then sat_mul u128_max (last_price acc) 3 / 2 else p.
Proof.
  intros Hp Hl. unfold filtered_price, sat_sub.
  repeat case_decide; try done; try lia; destruct_and?; try tauto; lia.
Qed.

Lemma filtered_price_bounds acc p lo hi :
  0 <= lo -> lo <= p <= hi -> hi <= u128_max -> lo <= last_price acc <= hi ->
  lo <= filtered_price acc p <= hi.
Proof.
  intros Hlo Hp Hhi Hl. rewrite filtered_price_eq by lia. case_decide as Hd; [| done].
  unfold sat_mul. assert (Z.min u128_max (last_price acc * 3) = last_price acc * 3 \/
    (Z.min u128_max (last_price acc * 3) = u128_max /\ u128_max < last_price acc * 3)) as [-> | [-> Hs]] by lia.
  - split; [apply Z.div_le_lower_bound; lia | apply Z.div_le_upper_bound; lia].
  - unfold u128_max in *. split; [apply Z.div_le_lower_bound; lia | apply Z.div_le_upper_bound; lia].
Qed.

(** A checkpoint lies between the bounds as seen from the accumulator's block. *)
Definition snapshot_in (lo hi : Z) (acc : TwapAccumulator) (sn : PriceSnapshot) : Prop :=
  0 <= snapshot_block sn <= current_block acc /\ 0 <= cumulative_price sn /\
  lo * (current_block acc - snapshot_block sn) <= current_cumulative acc - cumulative_price sn
    <= hi * (current_block acc - snapshot_block sn).

Definition snapshots (acc : TwapAccumulator) : list PriceSnapshot :=
  [hour_prev acc; hour_curr acc; day_prev acc; day_curr acc; week_prev acc; week_curr acc].

Record acc_in (lo hi : Z) (acc : TwapAccumulator) : Prop := {
  in_last : lo <= last_price acc <= hi;
  in_cumulative : 0 <= current_cumulative acc <= hi * current_block acc;
  in_snapshots : Forall (snapshot_in lo hi acc) (snapshots acc);
}.

Lemma genesis_in lo hi now p : 0 <= lo -> 0 <= now -> lo <= p <= hi -> acc_in lo hi (genesis_accumulator now p).
Proof.
  intros Hlo Hnow Hp. split; simpl; [done | nia |].
  repeat constructor; simpl; lia.
Qed.

(** What the last price has added by block [now] is exact and in bounds. *)
Lemma accumulate_in lo hi acc now :
  0 <= lo -> acc_in lo hi acc -> current_block acc <= now -> hi * now <= u128_max ->
  accumulate acc now = current_cumulative acc + last_price acc * (now - current_block acc) /\
  0 <= accumulate acc now <= hi * now.
Proof.
  intros Hlo [Hl Hc _] Hnow Hmax. unfold accumulate, sat_add, sat_mul, sat_sub.
  assert (0 <= last_price acc * (now - current_block acc) <= hi * (now - current_block acc)) by nia.
  assert (current_cumulative acc + last_price acc * (now - current_block acc) <= hi * now) by nia.
  assert (Z.max 0 (now - current_block acc) = now - current_block acc) as -> by lia.
  case_decide; [| assert (now = current_block acc) by lia; subst; rewrite Z.sub_diag, Z.mul_0_r in *; lia].
  rewrite Z.min_r with (m := last_price acc * _) by lia. lia.
Qed.

Lemma snapshot_later lo hi acc acc' sn :
  snapshot_in lo hi acc sn -> current_block acc <= current_block acc' ->
  lo * (current_block acc' - current_block acc) <= current_cumulative acc' - current_cumulative acc
    <= hi * (current_block acc' - current_block acc) ->
  snapshot_in lo hi acc' sn.
Proof. intros ([? ?] & ? & ?) Hb Hc. unfold snapshot_in. split_and!; try lia; nia. Qed.

Lemma snapshot_new lo hi acc :
  0 <= current_block acc -> 0 <= current_cumulative acc ->
  snapshot_in lo hi acc (mkSnapshot (current_cumulative acc) (current_block acc)).
Proof. intros. unfold snapshot_in. simpl. rewrite !Z.sub_diag, !Z.mul_0_r. lia. Qed.

Lemma rotate_snapshots (P : PriceSnapshot -> Prop) now period new prev curr :
  P new -> P prev -> P curr ->
  P (rotate now period new (prev, curr)).1 /\ P (rotate now period new (prev, curr)).2.
Proof. intros. unfold rotate. case_decide; done. Qed.

Section Oracle.
Context (cfg : Config) (lo hi : Z) (Hlo : 0 <= lo) (Hhi : hi <= u128_max).

Lemma update_in now p (acc : option TwapAccumulator) :
  lo <= p <= hi -> 0 <= now -> hi * now <= u128_max ->
  (forall a, acc = Some a -> acc_in lo hi a /\ 0 <= current_block a <= now) ->
  acc_in lo hi (update_accumulator cfg now p acc) /\ current_block (update_accumulator cfg now p acc) = now.
Proof.
  intros Hp Hnow Hmax Hacc. unfold update_accumulator. set (a := default _ acc).
  assert (acc_in lo hi a /\ 0 <= current_block a <= now) as [Ha Hb].
  { unfold a. destruct acc as [a' |]; simpl; [by apply Hacc |]. split; [by apply genesis_in | lia]. }
  destruct (accumulate_in lo hi a now Hlo Ha (proj2 Hb) Hmax) as [Heq Hcum]. pose proof Ha as [Hl Hc Hs].
  split; [| done]. set (acc' := mkTwap _ _ _ _ _ _ _ _ _ _ _).
  assert (snapshot_in lo hi acc' (mkSnapshot (accumulate a now) now)) as Hnew
    by (apply (snapshot_new lo hi acc'); simpl; lia).
  assert (forall sn, snapshot_in lo hi a sn -> snapshot_in lo hi acc' sn) as Hlater.
  { intros sn Hsn. eapply snapshot_later; [exact Hsn | simpl; lia |]. simpl. rewrite Heq. nia. }
  split.
  - simpl. by apply filtered_price_bounds.
  - simpl. lia.
  - unfold snapshots in Hs. repeat (apply Forall_cons in Hs as [? Hs]).
    pose proof (fun period prev curr => rotate_snapshots (snapshot_in lo hi acc') now period _ prev curr Hnew) as Hrot.
    change (Forall (snapshot_in lo hi acc') (snapshots acc')). unfold snapshots, acc' at 2. cbn -[rotate acc'].
    repeat (apply Forall_cons; split); try apply Forall_nil; try done;
      apply Hrot; by apply Hlater.
Qed.

Lemma seed_in now p (acc : option TwapAccumulator) :
  lo <= p <= hi -> 0 <= now -> hi * now <= u128_max ->
  (forall a, acc = Some a -> acc_in lo hi a /\ 0 <= current_block a <= now) ->
  acc_in lo hi (seed_accumulator now p acc) /\ current_block (seed_accumulator now p acc) = now.
Proof.
  intros Hp Hnow Hmax Hacc. destruct acc as [a |]; simpl; [| split; [by apply genesis_in | done]].
  destruct (Hacc a eq_refl) as [Ha Hb].
  destruct (accumulate_in lo hi a now Hlo Ha (proj2 Hb) Hmax) as [Heq Hcum]. pose proof Ha as [Hl Hc Hs].
  split; [| done]. split; simpl; [done | lia |].
  eapply Forall_impl; [exact Hs |]. intros sn Hsn.
  eapply snapshot_later; [exact Hsn | simpl; lia |]. simpl. rewrite Heq. nia.
Qed.

Lemma twap_in now acc period :
  acc_in lo hi acc -> 0 <= current_block acc <= now -> hi * now <= u128_max ->
  lo <= twap_of cfg now acc period <= hi.
Proof.
  intros Ha Hb Hmax. destruct (accumulate_in lo hi acc now Hlo Ha (proj2 Hb) Hmax) as [_ _].
  pose proof Ha as [Hl Hc Hs]. unfold snapshots in Hs. repeat (apply Forall_cons in Hs as [? Hs]).
  unfold twap_of.
  assert (forall sn, snapshot_in lo hi acc sn ->
    let diff := sat_sub now (snapshot_block sn) in
    lo <= (if decide (diff = 0) then last_price acc else
      sat_sub (sat_add u128_max (current_cumulative acc) (sat_mul u128_max (last_price acc)
        (sat_sub now (current_block acc)))) (cumulative_price sn) / diff) <= hi) as Havg.
  { intros sn ([? ?] & ? & ?). cbv zeta. unfold sat_add, sat_mul, sat_sub.
    rewrite !(Z.max_r 0) with (m := now - _) by lia.
    assert (0 <= last_price acc * (now - current_block acc) <= hi * (now - current_block acc)) by nia.
    assert (current_cumulative acc + last_price acc * (now - current_block acc) <= hi * now) by nia.
    rewrite (Z.min_r u128_max (last_price acc * _)), (Z.min_r u128_max) by lia.
    case_decide; [done |].
    assert (lo * (now - snapshot_block sn) <= current_cumulative acc + last_price acc * (now - current_block acc) -
      cumulative_price sn <= hi * (now - snapshot_block sn)) by nia.
    rewrite Z.max_r by nia. split; [apply Z.div_le_lower_bound | apply Z.div_le_upper_bound]; lia. }
  destruct period; apply Havg; case_decide; done.
Qed.

(** * Histories *)

(** A trade, or an initial price set by the owner, at a block. *)
Inductive PriceEvent : Type := Traded (now p : Z) | Seeded (now p : Z).

Definition event_block (ev : PriceEvent) : Z := match ev with Traded now _ | Seeded now _ => now end.
Definition event_price (ev : PriceEvent) : Z := match ev with Traded _ p | Seeded _ p => p end.

Definition observe (acc : option TwapAccumulator) (ev : PriceEvent) : option TwapAccumulator :=
  Some (match ev with
        | Traded now p => update_accumulator cfg now p acc
        | Seeded now p => seed_accumulator now p acc
        end).

Lemma observe_in acc ev :
  lo <= event_price ev <= hi -> 0 <= event_block ev -> hi * event_block ev <= u128_max ->
  (forall a, acc = Some a -> acc_in lo hi a /\ 0 <= current_block a <= event_block ev) ->
  forall a, observe acc ev = Some a -> acc_in lo hi a /\ current_block a = event_block ev.
Proof.
  intros Hp Hb Hmax Hacc a [= <-]. destruct ev; simpl in *; [by apply update_in | by apply seed_in].
Qed.

(** Whatever trades and initial prices an accumulator has seen, in the order of
    their blocks, its hourly, daily and weekly averages lie between the lowest and
    the highest of those prices, rotated checkpoints and filtered outliers included. *)
Theorem averages_stay_within_prices history now period a :
  Sorted Z.le (event_block <$> history) ->
  Forall (fun ev => lo <= event_price ev <= hi /\ 0 <= event_block ev <= now) history ->
  hi * now <= u128_max ->
  foldl observe None history = Some a -> lo <= twap_of cfg now a period <= hi.
Proof.
  intros Hsort Hall Hmax Hfold.
  assert (forall a, foldl observe None history = Some a ->
    acc_in lo hi a /\ 0 <= current_block a <= now /\
    forall ev, last history = Some ev -> current_block a = event_block ev) as Hinv.
  { clear a Hfold. apply Sorted_StronglySorted in Hsort; [| intros x y z; lia].
    induction history as [| ev history IH] using rev_ind; [done |].
    rewrite fmap_app in Hsort. apply Forall_app in Hall as [Hall [[Hp Hb] _]%Forall_cons].
    apply StronglySorted_app in Hsort as (Hbefore & Hsort & _). specialize (IH Hsort Hall).
    intros a. rewrite foldl_app, last_snoc. simpl. intros Hobs.
    assert (hi * event_block ev <= u128_max) by (destruct (decide (0 <= hi)); nia).
    apply observe_in in Hobs as [Ha Hcur]; [split_and!; [done | lia | lia | by intros ? [= <-]] | done | lia | done |].
    intros a1 Ha1. destruct (IH a1 Ha1) as (Hin & Hr & Hlast). split; [done |]. split; [lia |].
    destruct history as [| ev0 history0 _] using rev_ind; [done |].
    rewrite last_snoc in Hlast. rewrite (Hlast ev0 eq_refl). apply (Hbefore (event_block ev0) (event_block ev)).
    - rewrite fmap_app. apply elem_of_app. right. by left.
    - by left. }
  destruct (Hinv a Hfold) as (Ha & Hb & _). by apply twap_in.
Qed.
End Oracle.

(** * The circuit breaker *)

Section Pallet.
Context `{FrameSystem} {L T W : Type}.
Context `{RepatriatingCurrency L} `{EntityTokens T} `{EntityQueries W} (cfg : Config).
Implicit Types (s : State L T W).

(** Computations that never succeed from a state, and computations that leave the
    state alone when they succeed. *)
Definition stopped {A} (m : M (State L T W) (DispatchError Error) A) s : Prop :=
  forall a s', m s <> (Ok a, s').

Definition only_checks {A} (m : M (State L T W) (DispatchError Error) A) : Prop :=
  forall s a s', m s = (Ok a, s') -> s' = s.

Lemma stopped_head {A B} (m : M (State L T W) (DispatchError Error) A)
    (k : A -> M (State L T W) (DispatchError Error) B) s : stopped m s -> stopped (bind m k) s.
Proof. intros Hm b s' (a & s1 & Hr & _)%bind_Ok. by apply Hm in Hr. Qed.

Lemma stopped_tail {A B} (m : M (State L T W) (DispatchError Error) A)
    (k : A -> M (State L T W) (DispatchError Error) B) s :
  only_checks m -> (forall a s', m s = (Ok a, s') -> stopped (k a) s) -> stopped (bind m k) s.
Proof. intros Hm Hk b s' (a & s1 & Hr & Hb)%bind_Ok. pose proof (Hm _ _ _ Hr) as ->. by eapply Hk in Hb. Qed.

Ltac checks := intros s0 a0 s0' Hr0; m_inv; done.

Lemma market_enabled_checks e : only_checks (ensure_market_enabled (T:=T) (W:=W) (L:=L) e).
Proof. unfold ensure_market_enabled, ensure_price_anchor_exists. checks. Qed.

Lemma kyc_checks e who : only_checks (ensure_kyc_requirement (T:=T) (W:=W) (L:=L) e who).
Proof. unfold ensure_kyc_requirement. checks. Qed.

Lemma trader_checks e who : only_checks (ensure_trader_allowed (T:=T) (W:=W) (L:=L) e who).
Proof. unfold ensure_trader_allowed. checks. Qed.

Lemma min_amount_checks e a : only_checks (ensure_min_amount (T:=T) (W:=W) (L:=L) e a).
Proof. unfold ensure_min_amount. checks. Qed.

Lemma signed_checks origin : only_checks (signed (T:=T) (W:=W) (L:=L) origin).
Proof. unfold signed. checks. Qed.

Lemma gets_checks {A} (f : State L T W -> A) : only_checks (gets f).
Proof. checks. Qed.

Lemma ensure_checks (P : Prop) `{Decision P} (err : DispatchError Error) : only_checks (ensure P err).
Proof. checks. Qed.

Lemma ok_or_checks {A} (o : option A) (err : DispatchError Error) : only_checks (ok_or o err).
Proof. checks. Qed.

(** Trading of an entity is halted at a block. *)
Definition halted (now : Z) s (e : Z) : Prop :=
  exists c, PriceProtection s !! e = Some c /\ enabled c = true /\ circuit_breaker_active c = true /\
    now < circuit_breaker_until c.

(** The calls that trade tokens of an entity. *)
Definition trades_on s (e : Z) (c : Call) : Prop :=
  match c with
  | CPlaceSell e' _ _ | CPlaceBuy e' _ _ | CMarketBuy e' _ _ | CMarketSell e' _ _
  | CIoc e' _ _ _ | CFok e' _ _ _ | CPostOnly e' _ _ _ => e' = e
  | CTake id _ => exists o, Orders s !! id = Some o /\ entity_id o = e
  | _ => False
  end.

Lemma price_check_stopped env e p s : halted (block_number env) s e -> stopped (check_price_deviation cfg env e p) s.
Proof.
  intros (c & Hc & He & Ha & Hu) u s' Hr. unfold check_price_deviation, protection_of in Hr.
  apply bind_Ok in Hr as (c' & s1 & Hget & Hr). apply gets_inv in Hget as [[= ->] ->].
  rewrite Hc in Hr. simpl in Hr. rewrite He, Ha, decide_True in Hr by done. simpl in Hr.
  by apply bind_Ok in Hr as (? & ? & Hf & _).
Qed.

Lemma breaker_check_stopped env e s :
  halted (block_number env) s e -> stopped (ensure_circuit_breaker_inactive env e) s.
Proof.
  intros (c & Hc & He & Ha & Hu) u s' Hr. unfold ensure_circuit_breaker_inactive in Hr.
  apply bind_Ok in Hr as (s0 & s1 & Hget & Hr). apply gets_inv in Hget as [[= ->] ->].
  rewrite Hc, He, Ha in Hr. simpl in Hr. apply bind_Ok in Hr as (? & ? & Hf & _).
  apply ensure_Ok in Hf as [Hf _]. lia.
Qed.

Ltac stop_step :=
  match goal with |- stopped (bind _ _) _ =>
    first
      [ apply stopped_head; first [by apply price_check_stopped | by apply breaker_check_stopped]
      | apply stopped_tail;
        [ first [ apply gets_checks | apply ensure_checks | apply ok_or_checks | apply signed_checks
                | apply market_enabled_checks | apply kyc_checks | apply trader_checks | apply min_amount_checks ]
        | intros ? ? ? ] ]
  end.

Lemma admit_stopped env e who a p s :
  stopped (check_price_deviation cfg env e p) s -> stopped (admit_order cfg env e who a p) s.
Proof. intros Hh. unfold admit_order. by repeat stop_step. Qed.

Lemma admit_market_stopped env e who s : halted (block_number env) s e -> stopped (admit_market_order env e who) s.
Proof. intros Hh. unfold admit_market_order. repeat stop_step. Qed.

(** While the circuit breaker of an entity holds, every call that would trade its
    tokens is refused, by whichever account and in whatever state of the rest. *)
Theorem active_breaker_blocks_trading env origin c e s :
  halted (block_number env) s e -> trades_on s e c -> stopped (dispatch cfg env origin c) s.
Proof.
  intros Hh Ht. destruct c; simpl in Ht; try done; subst; simpl;
    unfold place_sell_order, place_buy_order, place_ioc_order, place_fok_order, place_post_only_order,
      market_buy, market_sell, take_order;
    try (stop_step; apply stopped_head; first [by apply admit_stopped, price_check_stopped | by apply admit_market_stopped]).
  destruct Ht as (o & Ho & <-). repeat stop_step.
  match goal with Hg : gets _ _ = _, Hk : ok_or _ _ _ = _ |- _ =>
    apply gets_inv in Hg as [[= ->] _]; apply ok_or_Ok in Hk as [Hk _]; rewrite Ho in Hk; injection Hk as <- end.
  repeat stop_step.
Qed.
(** ** The reference price *)

(** The price a call names for an order on an entity. *)
Definition names_price s (c : Call) : option (Z * Z) :=
  match c with
  | CPlaceSell e _ p | CPlaceBuy e _ p | CIoc e _ _ p | CFok e _ _ p | CPostOnly e _ _ p => Some (e, p)
  | CModify id p _ => o ← Orders s !! id; if decide (p = price o) then None else Some (entity_id o, p)
  | _ => None
  end.

(** A price off the reference by more than the configured share, where the
    product in the check does not wrap around. *)
Definition too_far env s (e p : Z) : Prop :=
  let c := protection_of s e in
  exists r, enabled c = true /\ reference_price cfg env s e c = Some r /\ 0 < r /\
    max_price_deviation c < u16_max /\ Z.abs (p - r) * 10000 <= u128_max /\
    (max_price_deviation c + 1) * r <= Z.abs (p - r) * 10000.

Lemma deviation_abs p r :
  0 < r -> Z.abs (p - r) * 10000 <= u128_max -> deviation_bps p r = Z.min (Z.abs (p - r) * 10000 / r) u16_max.
Proof.
  intros Hr Hmax. unfold deviation_bps.
  assert ((if decide (p > r) then p - r else r - p) = Z.abs (p - r)) as -> by (case_decide; lia).
  by rewrite Z.mod_small by lia.
Qed.

Lemma far_check_stopped env e p s : too_far env s e p -> stopped (check_price_deviation cfg env e p) s.
Proof.
  intros (r & He & Href & Hr & Hd & Hmax & Hfar) u s' Hrun. unfold check_price_deviation in Hrun.
  apply bind_Ok in Hrun as (c & s1 & Hget & Hrun). apply gets_inv in Hget as [[= ->] ->].
  rewrite He in Hrun. simpl in Hrun. apply bind_Ok in Hrun as ([] & s1 & Hdis & Hrun).
  assert (reference_price cfg env s1 e (protection_of s e) = Some r) as Href1.
  { rewrite <- Href. unfold disarm, deposit_event in Hdis. by m_inv. }
  apply bind_Ok in Hrun as (ref & s2 & Hget & Hrun). apply gets_inv in Hget as [[= ->] ->].
  rewrite Href1 in Hrun. rewrite decide_False in Hrun by lia. apply ensure_Ok in Hrun as [Hle _].
  rewrite deviation_abs in Hle by done.
  assert (max_price_deviation (protection_of s e) + 1 <= Z.abs (p - r) * 10000 / r)
    by (apply Z.div_le_lower_bound; lia). lia.
Qed.

(** A call naming a price further from the reference price than the configured
    share is refused, as long as the product the check computes fits into 128 bits. *)
Theorem far_prices_are_refused env origin c e p s :
  names_price s c = Some (e, p) -> too_far env s e p -> stopped (dispatch cfg env origin c) s.
Proof.
  intros Hc Hfar%far_check_stopped. destruct c; simpl in Hc; try done; simplify_eq; simpl;
    unfold place_sell_order, place_buy_order, place_ioc_order, place_fok_order, place_post_only_order, modify_order;
    try (stop_step; apply stopped_head; by apply admit_stopped).
  destruct (Orders s !! id) as [o |] eqn:Ho; simpl in Hc; [| done]. case_decide as Hne; [done |]. simplify_eq.
  do 2 stop_step. match goal with Hg : gets _ _ = _ |- _ => apply gets_inv in Hg as [[= ->] _] end.
  stop_step. match goal with Hk : ok_or _ _ _ = _ |- _ =>
    apply ok_or_Ok in Hk as [Hk _]; rewrite Ho in Hk; injection Hk as <- end.
  repeat stop_step. apply stopped_head. by rewrite decide_False by done.
Qed.
End Pallet.

(** * Concrete runs *)

Lemma averages_stay_within_prices_witness :
  exists a, foldl (observe demo_cfg) None [Seeded 1 10; Traded 5 12; Traded 30 40; Traded 45 11] = Some a /\
    10 <= twap_of demo_cfg 60 a OneDay <= 40.
Proof.
  eexists. split; [vm_compute; reflexivity |].
  eapply (averages_stay_within_prices demo_cfg 10 40) with (history := [Seeded 1 10; Traded 5 12; Traded 30 40; Traded 45 11]).
  - done.
  - done.
  - simpl. repeat constructor; lia.
  - repeat constructor; simpl; lia.
  - unfold u128_max. lia.
  - by vm_compute.
Defined.

(** The open market with a breaker that holds until block 50. *)
Definition demo_halted : State SimpleLedger SimpleTokens SimpleWorld :=
  demo_open <| PriceProtection ::= alter (fun c =>
    c <| circuit_breaker_active := true |> <| circuit_breaker_until := 50 |>) 1 |>.

Lemma active_breaker_blocks_trading_witness :
  stopped (dispatch demo_cfg (demo_env 49) (SignedBy 2%N) (CPlaceSell 1 5 10)) demo_halted /\
  (dispatch demo_cfg (demo_env 50) (SignedBy 2%N) (CPlaceSell 1 5 10) demo_halted).1 = Ok tt.
Proof.
  split; [| by vm_compute]. apply active_breaker_blocks_trading with (e := 1); [| done].
  eexists. split; [vm_compute; reflexivity | done].
Defined.

Lemma far_prices_are_refused_witness :
  stopped (dispatch demo_cfg (demo_env 2) (SignedBy 2%N) (CPlaceSell 1 5 13)) demo_open /\
  (dispatch demo_cfg (demo_env 2) (SignedBy 2%N) (CPlaceSell 1 5 12) demo_open).1 = Ok tt.
Proof.
  split; [| by vm_compute]. apply far_prices_are_refused with (e := 1) (p := 13); [done |].
  exists 10. split_and!; by vm_compute.
Defined.

(** The check computes with 128 bits: [2^124] above the reference counts as no
    deviation at all. *)
Lemma wrapped_deviation : deviation_bps (10 + 2 ^ 124) 10 = 0.
Proof. reflexivity. Qed.

Lemma wrapped_price_admitted :
  (dispatch demo_cfg (demo_env 2) (SignedBy 2%N) (CPlaceSell 1 5 (10 + 2 ^ 124)) demo_open).1 = Ok tt.
Proof. by vm_compute. Qed.

End MarketOracle.
