(* ===== verification/EntityToken.v ===== *)
(** [pallet-entity-token] (src/pallets/entity/token/src/lib.rs): the tokens of an
    entity, kept as assets of the assets pallet, with time locks, dividends,
    transfer restrictions, allowances and the reservations other pallets make
    through [EntityTokenProvider]. The theorems are in TokenSupply.v,
    TokenHoldings.v and TokenMarket.v.

    Amounts are of type [N]: its subtraction is the source's [saturating_sub]. *)

From S2P Require Import Prelude Frame EntityPorts.

(** * What the pallet asks of others *)

(** [pallet-assets] through the fungibles traits, for assets created with a
    minimum balance of 1. [keep] is [Preservation::Preserve], [force] is
    [Fortitude::Force]; the operations fail without effect. *)
Class FungibleAssets (A : Type) : Type := {
  asset_balance (id : Z) (who : AccountId) (a : A) : N;
  total_issuance (id : Z) (a : A) : N;
  asset_create (id : Z) (owner : AccountId) (a : A) : option A;
  asset_set_metadata (id : Z) (owner : AccountId) (name symbol : bytes) (decimals : Z) (a : A) : option A;
  mint_into (id : Z) (who : AccountId) (amount : N) (a : A) : option A;
  burn_from (id : Z) (who : AccountId) (amount : N) (keep force : bool) (a : A) : option A;
  asset_transfer (id : Z) (from to : AccountId) (amount : N) (keep : bool) (a : A) : option A;
}.

Definition u128N : N := 340282366920938463463374607431768211455%N.

(** The documented contract: exact amounts, nothing else touched; a balance is a
    u128. *)
Class FungibleAssetsLaws (A : Type) `{FungibleAssets A} : Prop := {
  asset_balance_max : forall id x a, (asset_balance id x a <= u128N)%N;
  create_balance : forall id o a a' id' x, asset_create id o a = Some a' ->
    asset_balance id' x a' = asset_balance id' x a /\ total_issuance id' a' = total_issuance id' a;
  metadata_balance : forall id o n sy d a a' id' x, asset_set_metadata id o n sy d a = Some a' ->
    asset_balance id' x a' = asset_balance id' x a /\ total_issuance id' a' = total_issuance id' a;
  mint_balance : forall id who v a a' id' x, mint_into id who v a = Some a' ->
    asset_balance id' x a' =
      (asset_balance id' x a + if decide (id' = id /\ x = who) then v else 0)%N;
  mint_issuance : forall id who v a a' id', mint_into id who v a = Some a' ->
    total_issuance id' a' = (total_issuance id' a + if decide (id' = id) then v else 0)%N;
  burn_covered : forall id who v k f a a', burn_from id who v k f a = Some a' ->
    (v <= asset_balance id who a)%N;
  burn_balance : forall id who v k f a a' id' x, burn_from id who v k f a = Some a' ->
    asset_balance id' x a' =
      (asset_balance id' x a - if decide (id' = id /\ x = who) then v else 0)%N;
  burn_issuance : forall id who v k f a a' id', burn_from id who v k f a = Some a' ->
    total_issuance id' a' = (total_issuance id' a - if decide (id' = id) then v else 0)%N;
  transfer_covered : forall id from to v k a a', asset_transfer id from to v k a = Some a' ->
    (v <= asset_balance id from a)%N;
  transfer_balance : forall id from to v k a a' id' x, asset_transfer id from to v k a = Some a' ->
    asset_balance id' x a' =
      if decide (id' = id /\ from <> to) then
        ((asset_balance id' x a + if decide (x = to) then v else 0) - if decide (x = from) then v else 0)%N
      else asset_balance id' x a;
  transfer_issuance : forall id from to v k a a' id', asset_transfer id from to v k a = Some a' ->
    total_issuance id' a' = total_issuance id' a;
}.

(** The questions to the registry, KYC and member pallets that [EntityQueries]
    does not have. *)
Class TokenQueries (W : Type) : Type := {
  is_token_admin (entity_id : Z) (who : AccountId) (w : W) : bool;
  entity_account (entity_id : Z) (w : W) : AccountId;
  meets_kyc_requirement (entity_id : Z) (who : AccountId) (min_level : Z) (w : W) : bool;
  is_member (entity_id : Z) (who : AccountId) (w : W) : bool;
}.

Module Token.

(** [saturating_add] and [saturating_mul] on u128. *)
Definition sadd (a b : N) : N := N.min u128N (a + b).
Definition smul (a b : N) : N := N.min u128N (a * b).

(** * Token types (src/pallets/entity/common/src/types/mod.rs) *)

Inductive TokenType : Type := Points | Governance | Equity | Membership | Share | Bond | Hybrid.

#[export] Instance token_type_eq_dec : EqDecision TokenType.
Proof. solve_decision. Defined.

Inductive TransferRestrictionMode : Type :=
| NoRestriction | Whitelist | Blacklist | KycRequired | MembersOnly.

Definition has_dividend_rights (t : TokenType) : bool :=
  match t with Equity | Share | Hybrid => true | _ => false end.

Definition is_transferable_by_default (t : TokenType) : bool :=
  match t with Membership => false | _ => true end.

(** The level of the holder and of the receiver. *)
Definition required_kyc_level (t : TokenType) : Z * Z :=
  match t with
  | Points => (0, 0)
  | Membership => (1, 1)
  | Governance => (2, 2)
  | Share | Bond => (2, 2)
  | Equity => (3, 3)
  | Hybrid => (2, 2)
  end.

Definition default_transfer_restriction (t : TokenType) : TransferRestrictionMode :=
  match t with
  | Points => NoRestriction
  | Membership => MembersOnly
  | Governance => KycRequired
  | Share | Bond => KycRequired
  | Equity => Whitelist
  | Hybrid => NoRestriction
  end.

Definition try_from_u8 (v : Z) : option TransferRestrictionMode :=
  match v with
  | 0 => Some NoRestriction
  | 1 => Some Whitelist
  | 2 => Some Blacklist
  | 3 => Some KycRequired
  | 4 => Some MembersOnly
  | _ => None
  end.

Record DividendConfig : Type := mkDividend {
  dividend_enabled : bool;
  min_period : Z;
  last_distribution : Z;
  accumulated : N;
}.

#[export] Instance eta_dividend : Settable DividendConfig := fun d =>
  mkDividend (dividend_enabled d) (min_period d) (last_distribution d) (accumulated d).

(** * Data and storage *)

Record LockEntry : Type := mkLock { amount : N; unlock_at : Z }.

Record EntityTokenConfig : Type := mkTokenConfig {
  enabled : bool;
  reward_rate : N;
  exchange_rate : N;
  min_redeem : N;
  max_redeem_per_order : N;
  transferable : bool;
  created_at : Z;
  token_type : TokenType;
  max_supply : N;
  dividend_config : DividendConfig;
  transfer_restriction : TransferRestrictionMode;
  min_receiver_kyc : Z;
}.

#[export] Instance eta_token_config : Settable EntityTokenConfig := fun c =>
  mkTokenConfig (enabled c) (reward_rate c) (exchange_rate c) (min_redeem c) (max_redeem_per_order c)
    (transferable c) (created_at c) (token_type c) (max_supply c) (dividend_config c)
    (transfer_restriction c) (min_receiver_kyc c).

Inductive Event : Type :=
| EntityTokenCreated (entity_id asset_id : Z) (name symbol : bytes)
| TokenConfigUpdated (entity_id : Z)
| RewardIssued (entity_id : Z) (buyer : AccountId) (amount : N)
| TokensRedeemed (entity_id : Z) (buyer : AccountId) (tokens discount : N)
| TokensTransferred (entity_id : Z) (from to : AccountId) (amount : N)
| TokensMinted (entity_id : Z) (to : AccountId) (amount : N)
| DividendConfigured (entity_id : Z) (enabled : bool) (min_period : Z)
| DividendDistributed (entity_id : Z) (total_amount : N) (recipients_count : Z)
| DividendClaimed (entity_id : Z) (holder : AccountId) (amount : N)
| TokensLocked (entity_id : Z) (holder : AccountId) (amount : N) (unlock_at : Z)
| TokensUnlocked (entity_id : Z) (holder : AccountId) (amount : N)
| TokenTypeChanged (entity_id : Z) (old_type new_type : TokenType)
| TransferRestrictionSet (entity_id : Z) (mode : TransferRestrictionMode) (min_receiver_kyc : Z)
| WhitelistUpdated (entity_id added removed : Z)
| BlacklistUpdated (entity_id added removed : Z)
| TokenForceDisabled (entity_id : Z)
| TransfersFrozenEvent (entity_id : Z)
| TransfersUnfrozen (entity_id : Z)
| TokensForceBurned (entity_id : Z) (from : AccountId) (amount : N)
| GlobalTokenPauseSet (paused : bool)
| TokensGovernanceBurned (entity_id : Z) (from : AccountId) (amount : N)
| TokensBurned (entity_id : Z) (holder : AccountId) (amount : N)
| TokenMetadataUpdated (entity_id : Z) (name symbol : bytes)
| TokensForceTransferred (entity_id : Z) (from to : AccountId) (amount : N)
| TokenForceEnabled (entity_id : Z)
| PendingDividendsCancelled (entity_id : Z) (total_cancelled : N) (accounts_affected : Z)
| TokenApprovalSet (entity_id : Z) (owner spender : AccountId) (amount : N)
| TokensTransferredFrom (entity_id : Z) (owner spender to : AccountId) (amount : N).

Inductive Error : Type :=
| EntityNotFound | TokenNotEnabled | TokenAlreadyExists | InsufficientBalance | BelowMinRedeem
| ExceedsMaxRedeem | TransferNotAllowed | NameTooLong | SymbolTooLong | AssetCreationFailed
| InvalidRewardRate | InvalidExchangeRate | DividendNotEnabled | DividendPeriodNotReached
| NoDividendToClaim | NoLockedTokens | UnlockTimeNotReached | LocksFull | ExceedsMaxSupply
| TokenTypeNotSupported | SameTokenType | ReceiverNotInWhitelist | ReceiverInBlacklist
| ReceiverKycInsufficient | ReceiverNotMember | TransferListFull | EntityNotActive | ZeroAmount
| InvalidLockDuration | TooManyRecipients | ZeroDividendAmount | DividendAmountMismatch
| InvalidRedeemLimits | EmptyName | EmptySymbol | TokenCountOverflow | InsiderTradingRestricted
| EntityLocked | NotAuthorized | TokenTransfersFrozen | GlobalPaused | TokenAlreadyDisabled
| TransfersNotFrozen | TransfersAlreadyFrozen | SenderNotInWhitelist | SenderInBlacklist
| SenderKycInsufficient | SenderNotMember | TokenAlreadyEnabled | SelfTransfer | AssetIdOverflow
| NoPendingDividendsToCancel | InsufficientAllowance | DisclosurePenaltyRestricted
(** [DispatchError::Other] of the trait implementations *)
| Other (reason : String.string).
Arguments Other reason%_string_scope.

Record Config : Type := mkConfig {
  ShopTokenOffset : Z;
  MaxTokenNameLength : Z;
  MaxTokenSymbolLength : Z;
  MaxTransferListSize : Z;
  MaxDividendRecipients : Z;
}.

Record State {A W : Type} : Type := mkState {
  EntityTokenConfigs : gmap Z EntityTokenConfig;
  EntityTokenMetadata : gmap Z (bytes * bytes * Z);
  TotalEntityTokens : Z;
  LockedTokens : gmap (Z * AccountId) (list LockEntry);
  PendingDividends : gmap (Z * AccountId) N;
  ClaimedDividends : gmap (Z * AccountId) N;
  TotalPendingDividends : gmap Z N;
  TransferWhitelist : gset (Z * AccountId);
  TransferBlacklist : gset (Z * AccountId);
  ReservedTokens : gmap (Z * AccountId) N;
  TransfersFrozen : gset Z;
  GlobalTokenPaused : bool;
  TokenApprovals : gmap (Z * AccountId * AccountId) N;
  assets : A;
  world : W;
  events : list Event;
}.
Arguments State : clear implicits.

#[export] Instance eta_token_state {A W} : Settable (State A W) := fun s =>
  mkState A W (EntityTokenConfigs s) (EntityTokenMetadata s) (TotalEntityTokens s) (LockedTokens s)
    (PendingDividends s) (ClaimedDividends s) (TotalPendingDividends s) (TransferWhitelist s)
    (TransferBlacklist s) (ReservedTokens s) (TransfersFrozen s) (GlobalTokenPaused s)
    (TokenApprovals s) (assets s) (world s) (events s).

(** A [ValueQuery] amount. *)
Definition getN {K} `{Countable K} (m : gmap K N) (k : K) : N := default 0%N (m !! k).

Section Pallet.
Context `{FrameSystem} {A W : Type}.
Context `{FungibleAssets A} `{EntityQueries W} `{TokenQueries W} (cfg : Config).
Implicit Types (s : State A W).

Abbreviation M_ := (M (State A W) (DispatchError Error)).
Abbreviation Call_ := (M (State A W) (DispatchError Error) unit).

Definition deposit_event (e : Event) : Call_ :=
  modify (fun s => s <| events ::= fun l => l ++ [e] |>).

Definition signed (origin : Origin) : M_ AccountId := ok_or (ensure_signed origin) BadOrigin.
Definition root (origin : Origin) : Call_ := ensure (ensure_root origin = true) BadOrigin.

(** ** Helpers *)

(** The sum of two u64 wraps around. *)
Definition entity_to_asset_id (e : Z) : Z := (ShopTokenOffset cfg + e) mod (u64_max + 1).

Definition asset_to_entity_id (id : Z) : option Z :=
  if decide (id >= ShopTokenOffset cfg) then Some (id - ShopTokenOffset cfg) else None.

(** An operation on the assets pallet; [err] is what its failure becomes. *)
Definition with_assets (op : A -> option A) (err : DispatchError Error) : Call_ :=
  let! a := gets assets in
  let! a' := ok_or (op a) err in
  modify (fun s => s <| assets := a' |>).

Definition mint (e : Z) (who : AccountId) (v : N) : Call_ :=
  with_assets (mint_into (entity_to_asset_id e) who v) CurrencyError.

Definition burn (e : Z) (who : AccountId) (v : N) (keep force : bool) : Call_ :=
  with_assets (burn_from (entity_to_asset_id e) who v keep force) CurrencyError.

Definition move (e : Z) (from to : AccountId) (v : N) (keep : bool) : Call_ :=
  with_assets (asset_transfer (entity_to_asset_id e) from to v keep) CurrencyError.

Definition token_balance s (e : Z) (holder : AccountId) : N :=
  asset_balance (entity_to_asset_id e) holder (assets s).

Definition get_total_supply s (e : Z) : N := total_issuance (entity_to_asset_id e) (assets s).

Definition locks_of s (e : Z) (who : AccountId) : list LockEntry := default [] (LockedTokens s !! (e, who)).

(** What the locks that have not run out by [now] hold. *)
Definition locked_in (now : Z) (l : list LockEntry) : N :=
  foldl (fun acc x => sadd acc (amount x)) 0%N (filter (fun x => now < unlock_at x) l).

Definition total_locked_amount (env : Env) s (e : Z) (who : AccountId) : N :=
  locked_in (block_number env) (locks_of s e who).

Definition reserved_of s (e : Z) (who : AccountId) : N := getN (ReservedTokens s) (e, who).

Definition get_available_balance (env : Env) s (e : Z) (holder : AccountId) : N :=
  (token_balance s e holder - total_locked_amount env s e holder - reserved_of s e holder)%N.

Definition ensure_available_balance (env : Env) (e : Z) (who : AccountId) (required : N) : Call_ :=
  let! available := gets (fun s => get_available_balance env s e who) in
  ensure (required <= available)%N (Module InsufficientBalance).

Definition ensure_owner_or_admin (who : AccountId) (e : Z) : Call_ :=
  let! w := gets world in
  let! owner := ok_or (entity_owner e w) (Module EntityNotFound) in
  ensure (who = owner \/ is_token_admin e who w = true) (Module NotAuthorized).

(** The check of every call of an owner or administrator: lines 826 to 830. *)
Definition ensure_manager (who : AccountId) (e : Z) : Call_ :=
  ensure_owner_or_admin who e >>
  let! w := gets world in
  ensure (is_entity_locked e w = false) (Module EntityLocked).

Definition ensure_not_paused : Call_ :=
  let! paused := gets GlobalTokenPaused in
  ensure (paused = false) (Module GlobalPaused).

Definition ensure_active (e : Z) : Call_ :=
  let! w := gets world in
  ensure (is_entity_active e w = true) (Module EntityNotActive).

Definition get_config (e : Z) : M_ EntityTokenConfig :=
  let! configs := gets EntityTokenConfigs in
  ok_or (configs !! e) (Module TokenNotEnabled).

Definition ensure_configured (e : Z) : Call_ := get_config e >> ret tt.

Definition get_enabled (e : Z) : M_ EntityTokenConfig :=
  let! c := get_config e in
  ensure (enabled c = true) (Module TokenNotEnabled) >>
  ret c.

(** [EntityTokenConfigs::try_mutate]. *)
Definition change_config (e : Z) (f : EntityTokenConfig -> M_ EntityTokenConfig) : Call_ :=
  let! c := get_config e in
  let! c' := f c in
  modify (fun s => s <| EntityTokenConfigs ::= <[e := c']> |>).

Definition check_transfer_restriction (e : Z) (c : EntityTokenConfig) (from to : AccountId) : Call_ :=
  let! s := gets (fun s => s) in
  match transfer_restriction c with
  | NoRestriction => ret tt
  | Whitelist =>
      ensure ((e, from) ∈ TransferWhitelist s) (Module SenderNotInWhitelist) >>
      ensure ((e, to) ∈ TransferWhitelist s) (Module ReceiverNotInWhitelist)
  | Blacklist =>
      ensure ((e, from) ∉ TransferBlacklist s) (Module SenderInBlacklist) >>
      ensure ((e, to) ∉ TransferBlacklist s) (Module ReceiverInBlacklist)
  | KycRequired =>
      ensure (meets_kyc_requirement e from (min_receiver_kyc c) (world s) = true) (Module SenderKycInsufficient) >>
      ensure (meets_kyc_requirement e to (min_receiver_kyc c) (world s) = true) (Module ReceiverKycInsufficient)
  | MembersOnly =>
      ensure (is_member e from (world s) = true) (Module SenderNotMember) >>
      ensure (is_member e to (world s) = true) (Module ReceiverNotMember)
  end.

(** Supply and promised dividends together with [extra] more. *)
Definition supply_after s (e : Z) (extra : N) : N :=
  sadd (sadd (get_total_supply s e) (getN (TotalPendingDividends s) e)) extra.

Definition ensure_within_max_supply (e : Z) (c : EntityTokenConfig) (mint_amount : N) : Call_ :=
  if decide (max_supply c = 0%N) then ret tt else
  let! after := gets (fun s => supply_after s e mint_amount) in
  ensure (after <= max_supply c)%N (Module ExceedsMaxSupply).

(** ** Creating and configuring *)

Definition ensure_names (name symbol : bytes) : Call_ :=
  ensure (name <> []) (Module EmptyName) >>
  ensure (symbol <> []) (Module EmptySymbol) >>
  ensure (Z.of_nat (length name) <= MaxTokenNameLength cfg) (Module NameTooLong) >>
  ensure (Z.of_nat (length symbol) <= MaxTokenSymbolLength cfg) (Module SymbolTooLong).

Definition create_shop_token (env : Env) (origin : Origin) (e : Z) (name symbol : bytes) (decimals : Z)
    (reward_rate_ exchange_rate_ : N) : Call_ :=
  let! who := signed origin in
  ensure_not_paused >>
  ensure_active e >>
  ensure_manager who e >>
  let! s := gets (fun s => s) in
  ensure (EntityTokenConfigs s !! e = None) (Module TokenAlreadyExists) >>
  ensure (reward_rate_ <= 10000)%N (Module InvalidRewardRate) >>
  ensure (exchange_rate_ <= 10000)%N (Module InvalidExchangeRate) >>
  ensure_names name symbol >>
  ensure (ShopTokenOffset cfg + e <= u64_max) (Module AssetIdOverflow) >>
  let id := entity_to_asset_id e in
  with_assets (asset_create id who) (Module AssetCreationFailed) >>
  with_assets (asset_set_metadata id who name symbol decimals) (Module AssetCreationFailed) >>
  let config := mkTokenConfig true reward_rate_ exchange_rate_ 0 0 true (block_number env) Points 0
    (mkDividend false 0 0 0) (default_transfer_restriction Points) (required_kyc_level Points).2 in
  modify (fun s => s <| EntityTokenConfigs ::= <[e := config]> |>) >>
  modify (fun s => s <| EntityTokenMetadata ::= <[e := (name, symbol, decimals)]> |>) >>
  ensure (TotalEntityTokens s + 1 <= u64_max) (Module TokenCountOverflow) >>
  modify (fun s => s <| TotalEntityTokens ::= Z.add 1 |>) >>
  deposit_event (EntityTokenCreated e id name symbol).

Definition ensure_rate (rate : option N) (err : Error) : Call_ :=
  match rate with
  | Some r => ensure (r <= 10000)%N (Module err)
  | None => ret tt
  end.

(** The new configuration of [update_token_config], without its checks. *)
Definition updated (reward exchange minr maxr : option N) (transferable_ enabled_ : option bool)
    (c : EntityTokenConfig) : EntityTokenConfig :=
  c <| reward_rate := default (reward_rate c) reward |>
    <| exchange_rate := default (exchange_rate c) exchange |>
    <| min_redeem := default (min_redeem c) minr |>
    <| max_redeem_per_order := default (max_redeem_per_order c) maxr |>
    <| transferable := default (transferable c) transferable_ |>
    <| enabled := default (enabled c) enabled_ |>.

Definition update_token_config (origin : Origin) (e : Z) (reward exchange minr maxr : option N)
    (transferable_ enabled_ : option bool) : Call_ :=
  let! who := signed origin in
  ensure_manager who e >>
  change_config e (fun c =>
    ensure_rate reward InvalidRewardRate >>
    ensure_rate exchange InvalidExchangeRate >>
    let c' := updated reward exchange minr maxr transferable_ enabled_ c in
    ensure (max_redeem_per_order c' = 0%N \/ min_redeem c' <= max_redeem_per_order c')%N
      (Module InvalidRedeemLimits) >>
    ret c') >>
  deposit_event (TokenConfigUpdated e).

Definition update_token_metadata (origin : Origin) (e : Z) (name symbol : bytes) : Call_ :=
  let! who := signed origin in
  ensure_manager who e >>
  ensure_configured e >>
  ensure_names name symbol >>
  let! s := gets (fun s => s) in
  let decimals := default 18 ((fun m => m.2) <$> EntityTokenMetadata s !! e) in
  let! owner := ok_or (entity_owner e (world s)) (Module EntityNotFound) in
  with_assets (asset_set_metadata (entity_to_asset_id e) owner name symbol decimals) (Module AssetCreationFailed) >>
  modify (fun s => s <| EntityTokenMetadata ::= <[e := (name, symbol, decimals)]> |>) >>
  deposit_event (TokenMetadataUpdated e name symbol).

(** A change of type resets what follows from the type. *)
Definition set_type (e : Z) (new_type : TokenType) : M_ TokenType :=
  let! c := get_config e in
  ensure (token_type c <> new_type) (Module SameTokenType) >>
  modify (fun s => s <| EntityTokenConfigs ::= <[e := c <| token_type := new_type |>
    <| transferable := is_transferable_by_default new_type |>
    <| transfer_restriction := default_transfer_restriction new_type |>
    <| min_receiver_kyc := (required_kyc_level new_type).2 |>]> |>) >>
  ret (token_type c).

Definition change_token_type (origin : Origin) (e : Z) (new_type : TokenType) : Call_ :=
  let! who := signed origin in
  ensure_manager who e >>
  let! old_type := set_type e new_type in
  deposit_event (TokenTypeChanged e old_type new_type).

Definition limit_supply (e : Z) (max_supply_ : N) : Call_ :=
  change_config e (fun c =>
    (if decide (max_supply_ = 0%N) then ret tt else
       let! now := gets (fun s => sadd (get_total_supply s e) (getN (TotalPendingDividends s) e)) in
       ensure (now <= max_supply_)%N (Module ExceedsMaxSupply)) >>
    ret (c <| max_supply := max_supply_ |>)).

Definition set_max_supply (origin : Origin) (e : Z) (max_supply_ : N) : Call_ :=
  let! who := signed origin in
  ensure_manager who e >>
  limit_supply e max_supply_ >>
  deposit_event (TokenConfigUpdated e).

Definition restrict (e : Z) (mode : TransferRestrictionMode) (min_kyc : Z) : Call_ :=
  change_config e (fun c =>
    ret (c <| transfer_restriction := mode |> <| min_receiver_kyc := Z.min min_kyc 4 |>)) >>
  deposit_event (TransferRestrictionSet e mode (Z.min min_kyc 4)).

Definition set_transfer_restriction (origin : Origin) (e : Z) (mode : TransferRestrictionMode) (min_kyc : Z) : Call_ :=
  let! who := signed origin in
  ensure_manager who e >> restrict e mode min_kyc.

(** ** Transfer lists *)

Definition add_each (e : Z) (accounts : list AccountId) (m : gset (Z * AccountId)) : gset (Z * AccountId) * Z :=
  foldl (fun acc x => if decide ((e, x) ∈ acc.1) then acc else ({[(e, x)]} ∪ acc.1, sat_add u32_max acc.2 1))
    (m, 0) accounts.

Definition remove_each (e : Z) (accounts : list AccountId) (m : gset (Z * AccountId)) : gset (Z * AccountId) * Z :=
  foldl (fun acc x => if decide ((e, x) ∈ acc.1) then (acc.1 ∖ {[(e, x)]}, sat_add u32_max acc.2 1) else acc)
    (m, 0) accounts.

Definition ensure_list (accounts : list AccountId) : Call_ :=
  ensure (Z.of_nat (length accounts) <= MaxTransferListSize cfg) (Module TransferListFull).

Definition add_to_whitelist (origin : Origin) (e : Z) (accounts : list AccountId) : Call_ :=
  let! who := signed origin in
  ensure_list accounts >> ensure_manager who e >>
  let! result := gets (fun s => add_each e accounts (TransferWhitelist s)) in
  modify (fun s => s <| TransferWhitelist := result.1 |>) >>
  deposit_event (WhitelistUpdated e result.2 0).

Definition remove_from_whitelist (origin : Origin) (e : Z) (accounts : list AccountId) : Call_ :=
  let! who := signed origin in
  ensure_list accounts >> ensure_manager who e >>
  let! result := gets (fun s => remove_each e accounts (TransferWhitelist s)) in
  modify (fun s => s <| TransferWhitelist := result.1 |>) >>
  deposit_event (WhitelistUpdated e 0 result.2).

Definition add_to_blacklist (origin : Origin) (e : Z) (accounts : list AccountId) : Call_ :=
  let! who := signed origin in
  ensure_list accounts >> ensure_manager who e >>
  let! result := gets (fun s => add_each e accounts (TransferBlacklist s)) in
  modify (fun s => s <| TransferBlacklist := result.1 |>) >>
  deposit_event (BlacklistUpdated e result.2 0).

Definition remove_from_blacklist (origin : Origin) (e : Z) (accounts : list AccountId) : Call_ :=
  let! who := signed origin in
  ensure_list accounts >> ensure_manager who e >>
  let! result := gets (fun s => remove_each e accounts (TransferBlacklist s)) in
  modify (fun s => s <| TransferBlacklist := result.1 |>) >>
  deposit_event (BlacklistUpdated e 0 result.2).

(** ** Minting, moving and burning *)

Definition mint_tokens (origin : Origin) (e : Z) (to : AccountId) (v : N) : Call_ :=
  let! who := signed origin in
  ensure_not_paused >>
  ensure_manager who e >>
  let! c := get_enabled e in
  ensure_active e >>
  ensure (v <> 0%N) (Module ZeroAmount) >>
  ensure_within_max_supply e c v >>
  mint e to v >>
  deposit_event (TokensMinted e to v).

Definition ensure_not_frozen (e : Z) : Call_ :=
  let! frozen := gets TransfersFrozen in
  ensure (e ∉ frozen) (Module TokenTransfersFrozen).

(** What both transfers check of the token: lines 931 to 952. *)
Definition ensure_transferable (e : Z) (from to : AccountId) (v : N) : M_ EntityTokenConfig :=
  ensure_not_paused >>
  ensure_not_frozen e >>
  let! c := get_enabled e in
  ensure (transferable c = true) (Module TransferNotAllowed) >>
  ensure_active e >>
  ensure (v <> 0%N) (Module ZeroAmount) >>
  ensure (from <> to) (Module SelfTransfer) >>
  ret c.

(** And of the holder: lines 955 to 969. *)
Definition ensure_holder_may_send (env : Env) (e : Z) (c : EntityTokenConfig) (from to : AccountId) (v : N) : Call_ :=
  check_transfer_restriction e c from to >>
  let! w := gets world in
  ensure (can_insider_trade e from w = true) (Module InsiderTradingRestricted) >>
  ensure (is_penalty_active e w = false) (Module DisclosurePenaltyRestricted) >>
  ensure_available_balance env e from v.

Definition transfer_tokens (env : Env) (origin : Origin) (e : Z) (to : AccountId) (v : N) : Call_ :=
  let! who := signed origin in
  let! c := ensure_transferable e who to v in
  ensure_holder_may_send env e c who to v >>
  move e who to v true >>
  deposit_event (TokensTransferred e who to v).

Definition approve_tokens (origin : Origin) (e : Z) (spender : AccountId) (v : N) : Call_ :=
  let! who := signed origin in
  ensure_configured e >>
  ensure (who <> spender) (Module SelfTransfer) >>
  modify (fun s => s <| TokenApprovals ::= <[(e, who, spender) := v]> |>) >>
  deposit_event (TokenApprovalSet e who spender v).

Definition get_allowance s (e : Z) (owner spender : AccountId) : N := getN (TokenApprovals s) (e, owner, spender).

Definition spend_allowance (e : Z) (owner spender : AccountId) (v : N) : Call_ :=
  let! allowance := gets (fun s => get_allowance s e owner spender) in
  ensure (v <= allowance)%N (Module InsufficientAllowance) >>
  modify (fun s => s <| TokenApprovals ::= <[(e, owner, spender) := (allowance - v)%N]> |>).

Definition transfer_from (env : Env) (origin : Origin) (e : Z) (owner to : AccountId) (v : N) : Call_ :=
  let! spender := signed origin in
  let! c := ensure_transferable e owner to v in
  spend_allowance e owner spender v >>
  ensure_holder_may_send env e c owner to v >>
  move e owner to v true >>
  deposit_event (TokensTransferredFrom e owner spender to v).

Definition burn_tokens (env : Env) (origin : Origin) (e : Z) (v : N) : Call_ :=
  let! who := signed origin in
  ensure_not_paused >>
  ensure (v <> 0%N) (Module ZeroAmount) >>
  get_enabled e >>
  ensure_available_balance env e who v >>
  burn e who v true false >>
  deposit_event (TokensBurned e who v).

(** ** Dividends *)

Definition configure_dividend (origin : Origin) (e : Z) (enabled_ : bool) (min_period_ : Z) : Call_ :=
  let! who := signed origin in
  ensure_manager who e >>
  change_config e (fun c =>
    ensure (has_dividend_rights (token_type c) = true) (Module TokenTypeNotSupported) >>
    ret (c <| dividend_config ::= fun d => d <| dividend_enabled := enabled_ |> <| min_period := min_period_ |> |>)) >>
  deposit_event (DividendConfigured e enabled_ min_period_).

Definition promise (e : Z) (holder : AccountId) (v : N) : Call_ :=
  if decide (v = 0%N) then ret tt else
  modify (fun s => s <| PendingDividends ::= fun m => <[(e, holder) := sadd (getN m (e, holder)) v]> m |>).

Definition sum_of (recipients : list (AccountId * N)) : N :=
  foldl (fun acc r => sadd acc r.2) 0%N recipients.

Definition count_of (recipients : list (AccountId * N)) : Z :=
  foldl (fun acc r => if decide (r.2 = 0%N) then acc else sat_add u32_max acc 1) 0 recipients.

(** The end of the period: a u32 sum that wraps around. *)
Definition period_over (now : Z) (d : DividendConfig) : Prop :=
  last_distribution d = 0 \/ now >= (last_distribution d + min_period d) mod (u32_max + 1).

#[export] Instance period_over_dec now d : Decision (period_over now d).
Proof. unfold period_over. apply _. Defined.

Definition distribute_dividend (env : Env) (origin : Origin) (e : Z) (total : N)
    (recipients : list (AccountId * N)) : Call_ :=
  let! who := signed origin in
  ensure_manager who e >>
  ensure_active e >>
  let! c := get_enabled e in
  ensure (dividend_enabled (dividend_config c) = true) (Module DividendNotEnabled) >>
  ensure (has_dividend_rights (token_type c) = true) (Module TokenTypeNotSupported) >>
  ensure (total <> 0%N) (Module ZeroDividendAmount) >>
  ensure (period_over (block_number env) (dividend_config c)) (Module DividendPeriodNotReached) >>
  ensure (sum_of recipients = total) (Module DividendAmountMismatch) >>
  ensure_within_max_supply e c total >>
  for_each recipients (fun r => promise e r.1 r.2) >>
  modify (fun s => s <| TotalPendingDividends ::= fun m => <[e := sadd (getN m e) total]> m |>) >>
  modify (fun s => s <| EntityTokenConfigs ::= alter (fun c =>
    c <| dividend_config ::= fun d => d <| last_distribution := block_number env |>
                                        <| accumulated ::= fun a => sadd a total |> |>) e |>) >>
  deposit_event (DividendDistributed e total (count_of recipients)).

(** [PendingDividends::take] and its share of the total. *)
Definition take_pending (e : Z) (who : AccountId) : M_ N :=
  let! pending := gets (fun s => getN (PendingDividends s) (e, who)) in
  modify (fun s => s <| PendingDividends ::= delete (e, who) |>) >>
  ret pending.

Definition drop_total (e : Z) (v : N) : Call_ :=
  modify (fun s => s <| TotalPendingDividends ::= fun m => <[e := (getN m e - v)%N]> m |>).

Definition claim_dividend (origin : Origin) (e : Z) : Call_ :=
  let! who := signed origin in
  ensure_not_paused >>
  get_enabled e >>
  let! promised := gets (fun s => getN (PendingDividends s) (e, who)) in
  ensure (promised <> 0%N) (Module NoDividendToClaim) >>
  let! pending := take_pending e who in
  drop_total e pending >>
  modify (fun s => s <| ClaimedDividends ::= fun m => <[(e, who) := sadd (getN m (e, who)) pending]> m |>) >>
  mint e who pending >>
  deposit_event (DividendClaimed e who pending).

(** The loop of [force_cancel_pending_dividends]: what was cancelled, of how many. *)
Fixpoint cancel_each (e : Z) (accounts : list AccountId) (total : N) (count : Z) : M_ (N * Z) :=
  match accounts with
  | [] => ret (total, count)
  | x :: rest =>
      let! pending := take_pending e x in
      if decide (pending = 0%N) then cancel_each e rest total count
      else cancel_each e rest (sadd total pending) (sat_add u32_max count 1)
  end.

Definition force_cancel_pending_dividends (origin : Origin) (e : Z) (accounts : list AccountId) : Call_ :=
  root origin >>
  ensure_configured e >>
  let! result := cancel_each e accounts 0 0 in
  ensure (result.1 <> 0%N) (Module NoPendingDividendsToCancel) >>
  drop_total e result.1 >>
  deposit_event (PendingDividendsCancelled e result.1 result.2).

(** ** Time locks *)

Definition lock_tokens (env : Env) (origin : Origin) (e : Z) (v : N) (duration : Z) : Call_ :=
  let! who := signed origin in
  get_enabled e >>
  ensure_active e >>
  ensure (v <> 0%N) (Module ZeroAmount) >>
  ensure (duration <> 0) (Module InvalidLockDuration) >>
  ensure_available_balance env e who v >>
  let until := sat_add u32_max (block_number env) duration in
  let! locks := gets (fun s => locks_of s e who) in
  ensure (length locks < 10)%nat (Module LocksFull) >>
  modify (fun s => s <| LockedTokens ::= <[(e, who) := locks ++ [mkLock v until]]> |>) >>
  deposit_event (TokensLocked e who v until).

(** The loop of [unlock_tokens], from index [i]: each turn removes an entry or
    moves on, so as many turns as there are entries are enough. *)
Fixpoint unlock_loop (fuel : nat) (now : Z) (i : nat) (entries : list LockEntry) (total : N) : list LockEntry * N :=
  match fuel with
  | O => (entries, total)
  | S fuel' =>
      match entries !! i with
      | None => (entries, total)
      | Some x =>
          if decide (now >= unlock_at x)
          then unlock_loop fuel' now i (swap_remove i entries) (sadd total (amount x))
          else unlock_loop fuel' now (S i) entries total
      end
  end.

Definition unlock_tokens (env : Env) (origin : Origin) (e : Z) : Call_ :=
  let! who := signed origin in
  let! entries := gets (fun s => locks_of s e who) in
  ensure (entries <> []) (Module NoLockedTokens) >>
  let '(rest, total) := unlock_loop (length entries) (block_number env) 0 entries 0 in
  ensure (total <> 0%N) (Module UnlockTimeNotReached) >>
  modify (fun s => s <| LockedTokens ::=
    match rest with [] => delete (e, who) | _ => <[(e, who) := rest]> end |>) >>
  deposit_event (TokensUnlocked e who total).

(** ** Root *)

Definition set_enabled (e : Z) (to : bool) (err : Error) : Call_ :=
  change_config e (fun c => ensure (enabled c <> to) (Module err) >> ret (c <| enabled := to |>)).

Definition force_disable_token (origin : Origin) (e : Z) : Call_ :=
  root origin >> set_enabled e false TokenAlreadyDisabled >> deposit_event (TokenForceDisabled e).

Definition force_enable_token (origin : Origin) (e : Z) : Call_ :=
  root origin >> set_enabled e true TokenAlreadyEnabled >> deposit_event (TokenForceEnabled e).

Definition force_freeze_transfers (origin : Origin) (e : Z) : Call_ :=
  root origin >>
  ensure_configured e >>
  let! frozen := gets TransfersFrozen in
  ensure (e ∉ frozen) (Module TransfersAlreadyFrozen) >>
  modify (fun s => s <| TransfersFrozen ::= union {[e]} |>) >>
  deposit_event (TransfersFrozenEvent e).

Definition force_unfreeze_transfers (origin : Origin) (e : Z) : Call_ :=
  root origin >>
  let! frozen := gets TransfersFrozen in
  ensure (e ∈ frozen) (Module TransfersNotFrozen) >>
  modify (fun s => s <| TransfersFrozen ::= fun m => m ∖ {[e]} |>) >>
  deposit_event (TransfersUnfrozen e).

Definition set_global_token_pause (origin : Origin) (paused : bool) : Call_ :=
  root origin >>
  modify (fun s => s <| GlobalTokenPaused := paused |>) >>
  deposit_event (GlobalTokenPauseSet paused).

(** An account left without tokens loses its locks, reservations and promised
    dividends. *)
Definition clean_if_empty (e : Z) (who : AccountId) : Call_ :=
  let! remaining := gets (fun s => token_balance s e who) in
  if decide (remaining = 0%N) then
    modify (fun s => s <| LockedTokens ::= delete (e, who) |>) >>
    modify (fun s => s <| ReservedTokens ::= delete (e, who) |>) >>
    let! pending := take_pending e who in
    if decide (pending = 0%N) then ret tt else drop_total e pending
  else ret tt.

Definition force_burn (origin : Origin) (e : Z) (from : AccountId) (v : N) : Call_ :=
  root origin >>
  ensure (v <> 0%N) (Module ZeroAmount) >>
  ensure_configured e >>
  burn e from v false true >>
  clean_if_empty e from >>
  deposit_event (TokensForceBurned e from v).

Definition force_transfer (origin : Origin) (e : Z) (from to : AccountId) (v : N) : Call_ :=
  root origin >>
  ensure (v <> 0%N) (Module ZeroAmount) >>
  ensure_configured e >>
  move e from to v false >>
  clean_if_empty e from >>
  deposit_event (TokensForceTransferred e from to v).

(** * [EntityTokenProvider] *)

Definition refuse_if (P : Prop) `{Decision P} (reason : String.string) : Call_ :=
  ensure (~ P) (Module (Other reason)).
Arguments refuse_if P {_} reason%_string_scope.

Definition is_token_enabled s (e : Z) : bool := default false (enabled <$> EntityTokenConfigs s !! e).

Definition reward_on_purchase (e : Z) (buyer : AccountId) (purchase_amount : N) : M_ N :=
  let! s := gets (fun s => s) in
  if GlobalTokenPaused s then ret 0%N else
  match EntityTokenConfigs s !! e with
  | Some c =>
      if decide (enabled c = true /\ (0 < reward_rate c)%N) then
        let reward := (smul purchase_amount (reward_rate c) / 10000)%N in
        if decide (reward = 0%N) then ret 0%N
        else if decide (max_supply c <> 0%N /\ (max_supply c < supply_after s e reward)%N) then ret 0%N
        else
          mint e buyer reward >>
          deposit_event (RewardIssued e buyer reward) >>
          ret reward
      else ret 0%N
  | None => ret 0%N
  end.

Definition redeem_for_discount (env : Env) (e : Z) (buyer : AccountId) (tokens : N) : M_ N :=
  ensure_not_paused >>
  let! c := get_enabled e in
  ensure (min_redeem c <= tokens)%N (Module BelowMinRedeem) >>
  ensure (max_redeem_per_order c = 0%N \/ (tokens <= max_redeem_per_order c)%N) (Module ExceedsMaxRedeem) >>
  ensure_available_balance env e buyer tokens >>
  let discount := (smul tokens (exchange_rate c) / 10000)%N in
  burn e buyer tokens false false >>
  deposit_event (TokensRedeemed e buyer tokens discount) >>
  ret discount.

(** [transfer] of the trait: a token without a configuration is not checked. *)
Definition provider_transfer (env : Env) (e : Z) (from to : AccountId) (v : N) : Call_ :=
  refuse_if (v = 0%N) "ZeroAmount" >>
  let! s := gets (fun s => s) in
  refuse_if (GlobalTokenPaused s = true) "GlobalPaused" >>
  refuse_if (e ∈ TransfersFrozen s) "TokenTransfersFrozen" >>
  refuse_if (is_entity_active e (world s) = false) "EntityNotActive" >>
  match EntityTokenConfigs s !! e with
  | Some c =>
      refuse_if (enabled c = false) "TokenNotEnabled" >>
      refuse_if (transferable c = false) "TransferNotAllowed" >>
      check_transfer_restriction e c from to
  | None => ret tt
  end >>
  refuse_if (get_available_balance env s e from < v)%N "InsufficientBalance" >>
  move e from to v true.

Definition set_reserved (e : Z) (who : AccountId) (v : N) : Call_ :=
  modify (fun s => s <| ReservedTokens ::= <[(e, who) := v]> |>).

Definition reserve_tokens (env : Env) (e : Z) (who : AccountId) (v : N) : Call_ :=
  refuse_if (v = 0%N) "ZeroAmount" >>
  let! s := gets (fun s => s) in
  refuse_if (get_available_balance env s e who < v)%N "InsufficientBalance" >>
  set_reserved e who (sadd (reserved_of s e who) v).

Definition unreserve_tokens (e : Z) (who : AccountId) (v : N) : M_ N :=
  let! current := gets (fun s => reserved_of s e who) in
  let actual := N.min v current in
  if decide (actual = 0%N) then ret actual
  else set_reserved e who (current - actual)%N >> ret actual.

Definition repatriate_tokens (e : Z) (from to : AccountId) (v : N) : M_ N :=
  let! reserved := gets (fun s => reserved_of s e from) in
  let actual := N.min v reserved in
  if decide (actual = 0%N) then ret actual
  else
    move e from to actual false >>
    set_reserved e from (reserved - actual)%N >>
    ret actual.

Definition get_token_type s (e : Z) : TokenType := default Points (token_type <$> EntityTokenConfigs s !! e).

Definition governance_burn (e : Z) (v : N) : Call_ :=
  refuse_if (v = 0%N) "ZeroAmount" >>
  let! s := gets (fun s => s) in
  refuse_if (EntityTokenConfigs s !! e = None) "TokenNotEnabled" >>
  let account := entity_account e (world s) in
  burn e account v true false >>
  deposit_event (TokensGovernanceBurned e account v).

Definition governance_set_max_supply (e : Z) (max_supply_ : N) : Call_ :=
  limit_supply e max_supply_ >> deposit_event (TokenConfigUpdated e).

Definition governance_set_token_type (e : Z) (new_type : TokenType) : Call_ :=
  let! old_type := set_type e new_type in
  deposit_event (TokenTypeChanged e old_type new_type).

Definition governance_set_transfer_restriction (e restriction min_kyc : Z) : Call_ :=
  let! mode := ok_or (try_from_u8 restriction) (Module (Other "InvalidRestrictionMode")) in
  restrict e mode min_kyc.

Definition governance_manage_blacklist (e : Z) (account_cid : bytes) (add : bool) : Call_ :=
  let! s := gets (fun s => s) in
  refuse_if (EntityTokenConfigs s !! e = None) "TokenNotEnabled".

(** * Reads *)

Definition get_account_token_info (env : Env) s (e : Z) (holder : AccountId) : N * N * N * N * N :=
  (token_balance s e holder, total_locked_amount env s e holder, reserved_of s e holder,
   getN (PendingDividends s) (e, holder), get_available_balance env s e holder).

Definition get_lock_entries s (e : Z) (holder : AccountId) : list LockEntry := locks_of s e holder.
Definition is_whitelisted s (e : Z) (x : AccountId) : bool := bool_decide ((e, x) ∈ TransferWhitelist s).
Definition is_blacklisted s (e : Z) (x : AccountId) : bool := bool_decide ((e, x) ∈ TransferBlacklist s).

(** * Steps *)

Inductive Call : Type :=
| CCreate (e : Z) (name symbol : bytes) (decimals : Z) (reward exchange : N)
| CUpdateConfig (e : Z) (reward exchange minr maxr : option N) (transferable_ enabled_ : option bool)
| CMint (e : Z) (to : AccountId) (v : N)
| CTransfer (e : Z) (to : AccountId) (v : N)
| CConfigureDividend (e : Z) (enabled_ : bool) (min_period_ : Z)
| CDistribute (e : Z) (total : N) (recipients : list (AccountId * N))
| CClaim (e : Z)
| CLock (e : Z) (v : N) (duration : Z)
| CUnlock (e : Z)
| CChangeType (e : Z) (new_type : TokenType)
| CSetMaxSupply (e : Z) (max_supply_ : N)
| CSetRestriction (e : Z) (mode : TransferRestrictionMode) (min_kyc : Z)
| CAddWhite (e : Z) (accounts : list AccountId)
| CRemoveWhite (e : Z) (accounts : list AccountId)
| CAddBlack (e : Z) (accounts : list AccountId)
| CRemoveBlack (e : Z) (accounts : list AccountId)
| CForceDisable (e : Z)
| CFreeze (e : Z)
| CUnfreeze (e : Z)
| CForceBurn (e : Z) (from : AccountId) (v : N)
| CGlobalPause (paused : bool)
| CBurn (e : Z) (v : N)
| CUpdateMetadata (e : Z) (name symbol : bytes)
| CForceTransfer (e : Z) (from to : AccountId) (v : N)
| CForceEnable (e : Z)
| CCancelDividends (e : Z) (accounts : list AccountId)
| CApprove (e : Z) (spender : AccountId) (v : N)
| CTransferFrom (e : Z) (owner to : AccountId) (v : N).

Definition apply_call (env : Env) (origin : Origin) (c : Call) : Call_ :=
  match c with
  | CCreate e n sy d r x => create_shop_token env origin e n sy d r x
  | CUpdateConfig e r x mi ma t en => update_token_config origin e r x mi ma t en
  | CMint e to v => mint_tokens origin e to v
  | CTransfer e to v => transfer_tokens env origin e to v
  | CConfigureDividend e en p => configure_dividend origin e en p
  | CDistribute e total recipients => distribute_dividend env origin e total recipients
  | CClaim e => claim_dividend origin e
  | CLock e v d => lock_tokens env origin e v d
  | CUnlock e => unlock_tokens env origin e
  | CChangeType e t => change_token_type origin e t
  | CSetMaxSupply e m => set_max_supply origin e m
  | CSetRestriction e mode k => set_transfer_restriction origin e mode k
  | CAddWhite e l => add_to_whitelist origin e l
  | CRemoveWhite e l => remove_from_whitelist origin e l
  | CAddBlack e l => add_to_blacklist origin e l
  | CRemoveBlack e l => remove_from_blacklist origin e l
  | CForceDisable e => force_disable_token origin e
  | CFreeze e => force_freeze_transfers origin e
  | CUnfreeze e => force_unfreeze_transfers origin e
  | CForceBurn e x v => force_burn origin e x v
  | CGlobalPause p => set_global_token_pause origin p
  | CBurn e v => burn_tokens env origin e v
  | CUpdateMetadata e n sy => update_token_metadata origin e n sy
  | CForceTransfer e x y v => force_transfer origin e x y v
  | CForceEnable e => force_enable_token origin e
  | CCancelDividends e l => force_cancel_pending_dividends origin e l
  | CApprove e x v => approve_tokens origin e x v
  | CTransferFrom e x y v => transfer_from env origin e x y v
  end.

Definition dispatch (env : Env) (origin : Origin) (c : Call) : Call_ := transactional (apply_call env origin c).

(** What other pallets run through the traits. *)
Inductive ProviderCall : Type :=
| PReward (e : Z) (buyer : AccountId) (v : N)
| PRedeem (e : Z) (buyer : AccountId) (v : N)
| PTransfer (e : Z) (from to : AccountId) (v : N)
| PReserve (e : Z) (who : AccountId) (v : N)
| PUnreserve (e : Z) (who : AccountId) (v : N)
| PRepatriate (e : Z) (from to : AccountId) (v : N)
| PBurn (e : Z) (v : N)
| PSetMaxSupply (e : Z) (max_supply_ : N)
| PSetType (e : Z) (new_type : TokenType)
| PSetRestriction (e restriction min_kyc : Z)
| PManageBlacklist (e : Z) (account_cid : bytes) (add : bool).

Definition apply_provider (env : Env) (c : ProviderCall) : Call_ :=
  match c with
  | PReward e x v => reward_on_purchase e x v >> ret tt
  | PRedeem e x v => redeem_for_discount env e x v >> ret tt
  | PTransfer e x y v => provider_transfer env e x y v
  | PReserve e x v => reserve_tokens env e x v
  | PUnreserve e x v => unreserve_tokens e x v >> ret tt
  | PRepatriate e x y v => repatriate_tokens e x y v >> ret tt
  | PBurn e v => governance_burn e v
  | PSetMaxSupply e m => governance_set_max_supply e m
  | PSetType e t => governance_set_token_type e t
  | PSetRestriction e r k => governance_set_transfer_restriction e r k
  | PManageBlacklist e cid add => governance_manage_blacklist e cid add
  end.

(** Before the first token. *)
Definition genesis (a : A) (w : W) : State A W :=
  mkState A W ∅ ∅ 0 ∅ ∅ ∅ ∅ ∅ ∅ ∅ ∅ false ∅ a w [].

End Pallet.
Arguments refuse_if {A W} P {_} reason%_string_scope.

(** * Inverting runs *)

Section Inversions.
Context `{FrameSystem} {A W : Type}.
Context `{FungibleAssets A} `{EntityQueries W} `{TokenQueries W}.
Implicit Types (s : State A W).

(** What a restriction permits. *)
Definition permitted s (e : Z) (c : EntityTokenConfig) (from to : AccountId) : Prop :=
  match transfer_restriction c with
  | NoRestriction => True
  | Whitelist => (e, from) ∈ TransferWhitelist s /\ (e, to) ∈ TransferWhitelist s
  | Blacklist => ((e, from) ∉ TransferBlacklist s) /\ ((e, to) ∉ TransferBlacklist s)
  | KycRequired => meets_kyc_requirement e from (min_receiver_kyc c) (world s) = true /\
                   meets_kyc_requirement e to (min_receiver_kyc c) (world s) = true
  | MembersOnly => is_member e from (world s) = true /\ is_member e to (world s) = true
  end.

Lemma restriction_inv e c from to s u s' :
  check_transfer_restriction e c from to s = (Ok u, s') -> s' = s /\ permitted s e c from to.
Proof. unfold check_transfer_restriction, permitted. intros Hr. m_inv; by split. Qed.

Lemma manager_inv who e s u s' :
  ensure_manager who e s = (Ok u, s') ->
  s' = s /\ is_entity_locked e (world s) = false /\
  exists owner, entity_owner e (world s) = Some owner /\ (who = owner \/ is_token_admin e who (world s) = true).
Proof. unfold ensure_manager, ensure_owner_or_admin. intros Hr. m_inv. eauto 10. Qed.
End Inversions.

(** Inverts a successful run down to its guards and its writes. *)
Ltac unfold_checks :=
  repeat match goal with
  | Hr : ?m _ = (_, _) |- _ =>
      progress unfold signed, root, ensure_not_paused, ensure_active,
        get_enabled, ensure_configured, get_config, ensure_names, ensure_rate, ensure_list, ensure_not_frozen,
        ensure_transferable, ensure_holder_may_send, ensure_available_balance,
        ensure_within_max_supply, spend_allowance, with_assets, mint, burn, move, change_config, deposit_event,
        set_type, limit_supply, restrict, set_enabled, refuse_if, set_reserved, take_pending, drop_total in Hr
  end.

Ltac token_step :=
  match goal with
  | Hr : check_transfer_restriction _ _ _ _ _ = (Ok _, _) |- _ => apply restriction_inv in Hr as [-> Hr]
  | Hr : ensure_manager _ _ _ = (Ok _, _) |- _ => apply manager_inv in Hr as (-> & ? & Hr)
  end.

Ltac token_inv := unfold_checks; repeat first [token_step | m_step]; simpl in *.

End Token.

(** * A small assets pallet *)

Record SimpleAssets : Type := mkSimpleAssets {
  sa_balances : gmap (Z * AccountId) N;
  sa_issuance : gmap Z N;
}.

Definition sa_balance (a : SimpleAssets) (id : Z) (x : AccountId) : N :=
  N.min u128N (default 0%N (sa_balances a !! (id, x))).

Definition sa_set (a : SimpleAssets) (id : Z) (x : AccountId) (v : N) : SimpleAssets :=
  mkSimpleAssets (<[(id, x) := v]> (sa_balances a)) (sa_issuance a).

Definition sa_supply (a : SimpleAssets) (id : Z) : N := default 0%N (sa_issuance a !! id).

#[export] Instance simple_assets : FungibleAssets SimpleAssets := {|
  asset_balance id x a := sa_balance a id x;
  total_issuance id a := sa_supply a id;
  asset_create _ _ a := Some a;
  asset_set_metadata _ _ _ _ _ a := Some a;
  mint_into id who v a :=
    if decide (sa_balance a id who + v <= u128N)%N then
      Some (mkSimpleAssets (<[(id, who) := (sa_balance a id who + v)%N]> (sa_balances a))
        (<[id := (sa_supply a id + v)%N]> (sa_issuance a)))
    else None;
  burn_from id who v keep _ a :=
    if decide (v + (if keep then 1 else 0) <= sa_balance a id who)%N then
      Some (mkSimpleAssets (<[(id, who) := (sa_balance a id who - v)%N]> (sa_balances a))
        (<[id := (sa_supply a id - v)%N]> (sa_issuance a)))
    else None;
  asset_transfer id from to v keep a :=
    if decide (v + (if keep then 1 else 0) <= sa_balance a id from)%N then
      if decide (from = to) then Some a
      else if decide (sa_balance a id to + v <= u128N)%N then
        Some (sa_set (sa_set a id from (sa_balance a id from - v)) id to (sa_balance a id to + v))
      else None
    else None;
|}.

Lemma sa_balance_insert m i id x v id' x' :
  (v <= u128N)%N ->
  sa_balance (mkSimpleAssets (<[(id, x) := v]> m) i) id' x' =
    if decide (id' = id /\ x' = x) then v else sa_balance (mkSimpleAssets m i) id' x'.
Proof.
  intros Hv. unfold sa_balance. simpl. rewrite lookup_insert.
  destruct (decide ((id, x) = (id', x'))) as [[= -> ->] | Hne].
  - rewrite decide_True by done. simpl. lia.
  - rewrite decide_False; [done |]. intros [-> ->]. done.
Qed.

Lemma sa_balance_any m i i' id x : sa_balance (mkSimpleAssets m i) id x = sa_balance (mkSimpleAssets m i') id x.
Proof. done. Qed.

Lemma sa_balance_le a id x : (sa_balance a id x <= u128N)%N.
Proof. unfold sa_balance. lia. Qed.

Lemma sa_supply_insert b i id v id' :
  sa_supply (mkSimpleAssets b (<[id := v]> i)) id' =
    if decide (id' = id) then v else sa_supply (mkSimpleAssets b i) id'.
Proof.
  unfold sa_supply. simpl. rewrite lookup_insert. destruct (decide (id = id')) as [-> | Hne].
  - by rewrite decide_True.
  - by rewrite decide_False by congruence.
Qed.

#[export] Instance simple_assets_laws : FungibleAssetsLaws SimpleAssets.
Proof.
  split; simpl; intros; try match goal with Hr : _ = Some _ |- _ => rename Hr into Hrun end;
    try solve [repeat (case_decide; try discriminate); simplify_eq; done].
  - apply sa_balance_le.
  - case_decide; [| done]. simplify_eq. rewrite sa_balance_insert by lia. destruct a.
    case_decide as Hd; [destruct Hd; subst; done | rewrite N.add_0_r; apply sa_balance_any].
  - case_decide; [| done]. simplify_eq. rewrite sa_supply_insert. case_decide; subst; [done |].
    rewrite N.add_0_r. by destruct a.
  - case_decide; [| done]. destruct k; lia.
  - case_decide; [| done]. simplify_eq. pose proof (sa_balance_le a id who).
    rewrite sa_balance_insert by lia. destruct a.
    case_decide as Hd; [destruct Hd; subst; done | rewrite N.sub_0_r; apply sa_balance_any].
  - case_decide; [| done]. simplify_eq. rewrite sa_supply_insert. case_decide; subst; [done |].
    rewrite N.sub_0_r. by destruct a.
  - case_decide; [| done]. destruct k; lia.
  - case_decide; [| done]. pose proof (sa_balance_le a id from). unfold sa_set in *.
    destruct (decide (from = to)) as [-> | Hne]; [simplify_eq; rewrite decide_False; [done | tauto] |].
    case_decide; [| done]. simplify_eq. simpl. rewrite !sa_balance_insert by lia. destruct a as [bs iss]. simpl in *.
    repeat case_decide; destruct_and?; subst; simpl in *; try done; try tauto; try lia;
      rewrite ?N.add_0_r, ?N.sub_0_r; done.
Qed.

(** No administrators beside the owner, no KYC, everybody a member; the account of
    an entity is 1000 and its number. *)
#[export] Instance simple_token_queries : TokenQueries SimpleWorld := {|
  is_token_admin _ _ _ := false;
  entity_account e _ := (1000 + Z.to_N e)%N;
  meets_kyc_requirement _ _ min_level _ := bool_decide (min_level = 0);
  is_member _ _ _ := true;
|}.

(** * A concrete token

    Account 9 owns entity 1, issues its token, gives 500 to account 2 and makes it
    an equity token whose dividends of 100 go to accounts 2 and 3. *)

Definition token_cfg : Token.Config := Token.mkConfig 1000000 64 8 1000 500.
Definition token_env (n : Z) : Env := mkEnv n 0 0 [].

Definition token_genesis : Token.State SimpleAssets SimpleWorld :=
  Token.genesis (mkSimpleAssets ∅ ∅) (mkSimpleWorld 9%N).

Definition token_calls : list (Env * SimpleOrigin * Token.Call) :=
  [(token_env 1, SignedBy 9%N, Token.CCreate 1 [65] [65] 12 100 100);
   (token_env 1, SignedBy 9%N, Token.CSetMaxSupply 1 1000);
   (token_env 2, SignedBy 9%N, Token.CMint 1 2%N 500);
   (token_env 2, SignedBy 9%N, Token.CChangeType 1 Token.Equity);
   (token_env 3, SignedBy 9%N, Token.CConfigureDividend 1 true 10);
   (token_env 4, SignedBy 9%N, Token.CDistribute 1 100 [(2%N, 60%N); (3%N, 40%N)]);
   (token_env 5, SignedBy 2%N, Token.CClaim 1)].

Definition token_play (calls : list (Env * SimpleOrigin * Token.Call)) (s : Token.State SimpleAssets SimpleWorld) :=
  foldl (fun s c => (Token.dispatch token_cfg c.1.1 c.1.2 c.2 s).2) s calls.

Definition token_demo := token_play token_calls token_genesis.

Example token_demo_holdings :
  (Token.token_balance token_cfg token_demo 1 2%N, Token.get_total_supply token_cfg token_demo 1,
   Token.getN (Token.TotalPendingDividends token_demo) 1) = (560, 560, 40)%N.
Proof. vm_compute. reflexivity. Qed.
