(* ===== verification/TokenSupply.v ===== *)
(** What the token pallet keeps true of its amounts: the supply and the promised
    dividends stay under the cap and the total of promises is exact; what is
    locked and reserved is always there, unless root takes it away. *)

From S2P Require Import Prelude Frame EntityPorts EntityToken.

Module TokenSupply.
Import Token.

#[local] Arguments N.add : simpl never.
#[local] Arguments N.sub : simpl never.
#[local] Arguments N.min : simpl never.
#[local] Arguments Z.of_N : simpl never.

(** * Sums that saturate *)

Definition total_of (l : list N) : N := foldr N.add 0%N l.

Lemma foldl_sadd {X} (f : X -> N) (l : list X) (acc : N) :
  (acc <= u128N)%N -> foldl (fun acc x => sadd acc (f x)) acc l = N.min u128N (acc + total_of (f <$> l)).
Proof.
  revert acc. induction l as [| x l IH]; intros acc Hacc; csimpl; [lia |].
  rewrite IH by (unfold sadd; lia). unfold sadd. lia.
Qed.

Lemma total_of_Permutation l l' : l ≡ₚ l' -> total_of l = total_of l'.
Proof. induction 1; simpl; lia. Qed.

Lemma total_of_app l l' : total_of (l ++ l') = (total_of l + total_of l')%N.
Proof. induction l; simpl; lia. Qed.

(** * Locks *)

Definition running (now : Z) (l : list LockEntry) : list LockEntry := filter (fun x => now < unlock_at x) l.

Lemma locked_in_total now l : locked_in now l = N.min u128N (total_of (amount <$> running now l)).
Proof. unfold locked_in. by rewrite foldl_sadd by lia. Qed.

Lemma running_app now l l' : running now (l ++ l') = running now l ++ running now l'.
Proof. apply filter_app. Qed.

Lemma running_Permutation now l l' : l ≡ₚ l' -> running now l ≡ₚ running now l'.
Proof. apply filter_Permutation. Qed.

Lemma locked_in_later now now' l : now <= now' -> (locked_in now' l <= locked_in now l)%N.
Proof.
  intros Hle. rewrite !locked_in_total.
  assert (total_of (amount <$> running now' l) <= total_of (amount <$> running now l))%N; [| lia].
  induction l as [| x l IH]; [done |]. unfold running. rewrite !filter_cons. fold (running now l) (running now' l).
  repeat case_decide; csimpl; lia.
Qed.

Lemma locked_in_push now l v until :
  (locked_in now l + v <= u128N)%N -> (locked_in now (l ++ [mkLock v until]) <= locked_in now l + v)%N.
Proof.
  rewrite !locked_in_total, running_app, fmap_app, total_of_app. intros.
  assert (total_of (amount <$> running now [mkLock v until]) <= v)%N; [| lia].
  unfold running. rewrite filter_cons, filter_nil. case_decide; simpl; lia.
Qed.

Definition expired (now : Z) (l : list LockEntry) : list LockEntry := filter (fun x => now >= unlock_at x) l.

Lemma swap_remove_take {X} (l : list X) i : (i < length l)%nat -> take i (swap_remove i l) = take i l.
Proof.
  intros Hi. unfold swap_remove. destruct (last l) as [y |] eqn:Hlast; [| done].
  rewrite take_take, Nat.min_l by lia. by rewrite take_insert_ge by lia.
Qed.

Lemma swap_remove_length {X} (l : list X) i x : l !! i = Some x -> length l = S (length (swap_remove i l)).
Proof. intros Hi%swap_remove_Permutation%Permutation_length. done. Qed.

Lemma running_all now l : Forall (fun x => now < unlock_at x) l -> running now l = l /\ expired now l = [].
Proof.
  unfold running, expired. induction 1 as [| x l Hx _ [IH1 IH2]]; [done |].
  rewrite !filter_cons, decide_True, IH1, decide_False, IH2 by lia. done.
Qed.

Lemma unlock_loop_spec fuel now i entries total :
  (length entries - i <= fuel)%nat -> Forall (fun x => now < unlock_at x) (take i entries) -> (total <= u128N)%N ->
  let out := unlock_loop fuel now i entries total in
  out.1 ≡ₚ running now entries /\ out.2 = N.min u128N (total + total_of (amount <$> expired now entries)).
Proof.
  revert i entries total. induction fuel as [| fuel IH]; intros i entries total Hfuel Hdone Htotal; simpl.
  - rewrite take_ge in Hdone by lia. destruct (running_all now entries Hdone) as [-> ->]. split; [done | simpl; lia].
  - destruct (entries !! i) as [x |] eqn:Hi.
    + pose proof (lookup_lt_Some _ _ _ Hi). case_decide as Hx.
      * pose proof (swap_remove_length _ _ _ Hi) as Hlen. pose proof (swap_remove_Permutation _ _ _ Hi) as Hperm.
        destruct (IH i (swap_remove i entries) (sadd total (amount x))) as [Hrest Hsum];
          [lia | by rewrite swap_remove_take | unfold sadd; lia |].
        assert (running now entries ≡ₚ running now (swap_remove i entries)) as Hrun.
        { rewrite (running_Permutation now _ _ Hperm). unfold running. by rewrite filter_cons, decide_False by lia. }
        assert (expired now entries ≡ₚ x :: expired now (swap_remove i entries)) as Hexp.
        { unfold expired at 1. rewrite (filter_Permutation _ _ _ Hperm). by rewrite filter_cons, decide_True by lia. }
        rewrite Hrest, Hsum, Hrun. split; [done |].
        rewrite (total_of_Permutation _ _ (fmap_Permutation amount _ _ Hexp)). unfold sadd. csimpl. lia.
      * apply IH; [lia | | done]. rewrite (take_S_r _ _ _ Hi). apply Forall_app. split; [done |].
        constructor; [lia | done].
    + apply lookup_ge_None in Hi. rewrite take_ge in Hdone by lia.
      destruct (running_all now entries Hdone) as [-> ->]. split; [done | simpl; lia].
Qed.

(** * Supply and promises *)

Definition share (e : Z) (k : Z * AccountId) (v : N) : Z := if decide (k.1 = e) then Z.of_N v else 0.

(** All that is promised to the holders of a token. *)
Definition promised (pending : gmap (Z * AccountId) N) (e : Z) : Z := msum (share e) pending.

Lemma share_nonneg e k v : 0 <= share e k v.
Proof. unfold share. case_decide; lia. Qed.

Lemma promised_insert pending e x v e' :
  promised (<[(e, x) := v]> pending) e' =
    promised pending e' + if decide (e = e') then Z.of_N v - Z.of_N (getN pending (e, x)) else 0.
Proof.
  unfold promised. rewrite msum_insert. unfold getN, share.
  destruct (pending !! (e, x)); simpl; case_decide; lia.
Qed.

Lemma promised_delete pending e x e' :
  promised (delete (e, x) pending) e' =
    promised pending e' - if decide (e = e') then Z.of_N (getN pending (e, x)) else 0.
Proof.
  unfold promised. rewrite msum_delete. unfold getN, share.
  destruct (pending !! (e, x)); simpl; case_decide; lia.
Qed.

Lemma promised_elem pending e x : Z.of_N (getN pending (e, x)) <= promised pending e.
Proof.
  unfold getN. destruct (pending !! (e, x)) as [v |] eqn:Hv; simpl.
  - trans (share e (e, x) v); [unfold share; by rewrite decide_True |].
    apply (msum_elem_le (share e)); [intros; apply share_nonneg | done].
  - apply msum_nonneg. intros. apply share_nonneg.
Qed.

Lemma getN_insert {K} `{Countable K} (m : gmap K N) k v k' :
  getN (<[k := v]> m) k' = if decide (k = k') then v else getN m k'.
Proof. unfold getN. rewrite lookup_insert. by case_decide. Qed.

Lemma getN_delete {K} `{Countable K} (m : gmap K N) k k' :
  getN (delete k m) k' = if decide (k = k') then 0%N else getN m k'.
Proof. unfold getN. rewrite lookup_delete. by case_decide. Qed.

Section Supply.
Context {A : Type} `{FungibleAssets A} `{!FungibleAssetsLaws A} (cfg : Config) (Hoff : 0 <= ShopTokenOffset cfg).

Abbreviation asset := (entity_to_asset_id cfg).

Lemma asset_inj e e' :
  0 <= e -> ShopTokenOffset cfg + e <= u64_max -> 0 <= e' -> ShopTokenOffset cfg + e' <= u64_max ->
  asset e = asset e' -> e = e'.
Proof. unfold entity_to_asset_id. intros. rewrite !Z.mod_small in * by lia. lia. Qed.

Record supply_ok (cs : gmap Z EntityTokenConfig) (pending : gmap (Z * AccountId) N) (totals : gmap Z N) (a : A) : Prop := {
  ok_total : forall e, Z.of_N (getN totals e) = promised pending e;
  ok_fits : forall e, (getN totals e <= u128N)%N;
  ok_range : forall e c, cs !! e = Some c -> 0 <= e /\ ShopTokenOffset cfg + e <= u64_max;
  ok_cap : forall e c, cs !! e = Some c -> max_supply c <> 0%N -> (max_supply c < u128N)%N ->
    (total_issuance (asset e) a + getN totals e <= max_supply c)%N;
}.

Lemma supply_set_config cs pending totals a e c c' :
  supply_ok cs pending totals a -> cs !! e = Some c ->
  (max_supply c' = max_supply c \/
   (max_supply c' <> 0%N -> (sadd (total_issuance (asset e) a) (getN totals e) <= max_supply c')%N)) ->
  supply_ok (<[e := c']> cs) pending totals a.
Proof.
  intros [Ht Hf Hr Hcap] He Hmax. split; [done | done | |].
  - intros e1 c1. rewrite lookup_insert. case_decide; [intros [= <-]; subst; by eapply Hr | apply Hr].
  - intros e1 c1. rewrite lookup_insert. case_decide; [intros [= <-]; subst | apply Hcap].
    intros Hnz Hlt. destruct Hmax as [Heq | Hle].
    + rewrite Heq in *. by eapply Hcap.
    + specialize (Hle Hnz). unfold sadd in Hle. lia.
Qed.

Lemma supply_new_config cs pending totals a e c :
  supply_ok cs pending totals a -> 0 <= e -> ShopTokenOffset cfg + e <= u64_max -> max_supply c = 0%N ->
  supply_ok (<[e := c]> cs) pending totals a.
Proof.
  intros [Ht Hf Hr Hcap] He Hid Hmax. split; [done | done | |].
  - intros e1 c1. rewrite lookup_insert. case_decide; [intros [= <-]; by subst | apply Hr].
  - intros e1 c1. rewrite lookup_insert. case_decide; [intros [= <-]; congruence | apply Hcap].
Qed.

Lemma supply_assets cs pending totals a a' :
  supply_ok cs pending totals a -> (forall id, (total_issuance id a' <= total_issuance id a)%N) ->
  supply_ok cs pending totals a'.
Proof.
  intros [Ht Hf Hr Hcap] Hle. split; [done.. |]. intros e c He Hnz Hlt. specialize (Hcap e c He Hnz Hlt).
  specialize (Hle (asset e)). lia.
Qed.

(** Minting what was promised, or what the cap leaves room for. *)
Lemma supply_mint cs pending totals a a' e c who v :
  supply_ok cs pending totals a -> cs !! e = Some c -> mint_into (asset e) who v a = Some a' ->
  (max_supply c <> 0%N -> (max_supply c < u128N)%N ->
    (total_issuance (asset e) a + getN totals e + v <= max_supply c)%N) ->
  supply_ok cs pending totals a'.
Proof.
  intros [Ht Hf Hr Hcap] He Hmint Hroom. split; [done.. |]. intros e1 c1 He1 Hnz Hlt.
  rewrite (mint_issuance _ _ _ _ _ (asset e1) Hmint). case_decide as Hid.
  - apply asset_inj in Hid as ->; [| by eapply Hr..]. rewrite He in He1. injection He1 as <-.
    specialize (Hroom Hnz Hlt). lia.
  - rewrite N.add_0_r. by apply Hcap.
Qed.

(** Promises kept or dropped. *)
Lemma supply_drop cs pending pending' totals a e v :
  supply_ok cs pending totals a ->
  (forall e', promised pending' e' = promised pending e' - if decide (e = e') then Z.of_N v else 0) ->
  0 <= promised pending' e ->
  supply_ok cs pending' (<[e := (getN totals e - v)%N]> totals) a.
Proof.
  intros [Ht Hf Hr Hcap] Hp Hpos. rewrite Hp, decide_True in Hpos by done. rewrite <- (Ht e) in Hpos. split; [| | done |].
  - intros e1. rewrite getN_insert, Hp, <- (Ht e1). case_decide; subst; lia.
  - intros e1. rewrite getN_insert. specialize (Hf e1). case_decide; subst; lia.
  - intros e1 c1 He1 Hnz Hlt. rewrite getN_insert. specialize (Hcap e1 c1 He1 Hnz Hlt). case_decide; subst; lia.
Qed.

Lemma supply_same_totals cs pending pending' totals a :
  supply_ok cs pending totals a -> (forall e, promised pending' e = promised pending e) ->
  supply_ok cs pending' totals a.
Proof. intros [Ht Hf Hr Hcap] Hp. split; [intros e; by rewrite Hp | done..]. Qed.

(** New promises, within the cap. *)
Lemma supply_promise cs pending pending' totals a e c v :
  supply_ok cs pending totals a -> cs !! e = Some c ->
  (forall e', promised pending' e' = promised pending e' + if decide (e = e') then Z.of_N v else 0) ->
  (getN totals e + v <= u128N)%N ->
  (max_supply c <> 0%N -> (max_supply c < u128N)%N ->
    (total_issuance (asset e) a + getN totals e + v <= max_supply c)%N) ->
  supply_ok cs pending' (<[e := sadd (getN totals e) v]> totals) a.
Proof.
  intros [Ht Hf Hr Hcap] He Hp Hfit Hroom. split; [| | done |].
  - intros e1. rewrite getN_insert, Hp, <- Ht. unfold sadd. case_decide; subst; lia.
  - intros e1. rewrite getN_insert. specialize (Hf e1). unfold sadd. case_decide; subst; lia.
  - intros e1 c1 He1 Hnz Hlt. rewrite getN_insert. case_decide as Heq; [subst | by apply Hcap].
    rewrite He in He1. injection He1 as <-. specialize (Hroom Hnz Hlt). unfold sadd. lia.
Qed.

Lemma promised_nonneg pending e : 0 <= promised pending e.
Proof. apply msum_nonneg. intros. apply share_nonneg. Qed.
End Supply.

(** ** Every call *)

Section Steps.
Context `{FrameSystem} {A W : Type}.
Context `{FungibleAssets A} `{!FungibleAssetsLaws A} `{EntityQueries W} `{TokenQueries W}.
Context (cfg : Config) (Hoff : 0 <= ShopTokenOffset cfg).
Implicit Types (s : State A W).

Definition supply_inv s : Prop :=
  supply_ok cfg (EntityTokenConfigs s) (PendingDividends s) (TotalPendingDividends s) (assets s).

(** Entity identifiers are u64, and what is distributed fits into the total. *)
Definition distribution_fits s (c : Call) : Prop :=
  match c with
  | CDistribute e total recipients =>
      total_of recipients.*2 <= u128N /\ getN (TotalPendingDividends s) e + total <= u128N
  | _ => True
  end%N.

Lemma promise_inv e x v s s' u :
  promise e x v s = (Ok u, s') -> (getN (PendingDividends s) (e, x) + v <= u128N)%N ->
  exists pending', s' = s <| PendingDividends := pending' |> /\
    forall e', promised pending' e' = promised (PendingDividends s) e' + if decide (e = e') then Z.of_N v else 0.
Proof.
  unfold promise. intros Hr Hfit. case_decide as Hv; m_inv.
  - exists (PendingDividends s). split; [by destruct s |]. intros. case_decide; lia.
  - eexists. split; [reflexivity |]. intros e'. rewrite promised_insert. unfold sadd. case_decide; lia.
Qed.

Lemma promises_inv e (recipients : list (AccountId * N)) s s' u :
  for_each recipients (fun r => promise e r.1 r.2) s = (Ok u, s') ->
  promised (PendingDividends s) e + Z.of_N (total_of recipients.*2) <= Z.of_N u128N ->
  exists pending', s' = s <| PendingDividends := pending' |> /\
    forall e', promised pending' e' =
      promised (PendingDividends s) e' + if decide (e = e') then Z.of_N (total_of recipients.*2) else 0.
Proof.
  revert s. induction recipients as [| [x v] recipients IH]; intros s Hr Hfit; csimpl in *.
  - m_inv. exists (PendingDividends s). split; [by destruct s |]. intros. case_decide; lia.
  - apply bind_Ok in Hr as ([] & s1 & Hp & Hr). pose proof (promised_elem (PendingDividends s) e x).
    apply promise_inv in Hp as (p1 & -> & Hp1); [| lia].
    apply IH in Hr as (p2 & -> & Hp2); simpl in *; [| rewrite Hp1, decide_True by done; lia].
    exists p2. split; [done |]. intros e'. rewrite Hp2, Hp1. case_decide; lia.
Qed.

Lemma cancel_each_inv e accounts total count s out s' :
  cancel_each e accounts total count s = (Ok out, s') ->
  Z.of_N total + promised (PendingDividends s) e <= Z.of_N u128N ->
  exists pending' v, s' = s <| PendingDividends := pending' |> /\ out.1 = (total + v)%N /\
    forall e', promised pending' e' = promised (PendingDividends s) e' - if decide (e = e') then Z.of_N v else 0.
Proof.
  revert total count s. induction accounts as [| x accounts IH]; intros total count s Hr Hfit; simpl in Hr.
  - m_inv. exists (PendingDividends s), 0%N. split_and!; [by destruct s | simpl; lia |]. intros. case_decide; lia.
  - unfold take_pending in Hr. m_inv; simpl in *; pose proof (promised_elem (PendingDividends s) e x).
    all: match goal with Hr : cancel_each _ _ _ _ _ = _ |- _ => apply IH in Hr as (p & v & -> & Ho & Hp) end;
      simpl in *; [| rewrite promised_delete, decide_True by done; unfold sadd; lia].
    + exists p, v. split_and!; [done | lia |]. intros e'. rewrite Hp, promised_delete. repeat case_decide; lia.
    + exists p, (getN (PendingDividends s) (e, x) + v)%N.
      split_and!; [done | rewrite Ho; unfold sadd; lia |]. intros e'. rewrite Hp, promised_delete. repeat case_decide; lia.
Qed.

(** Nothing the supply depends on has changed, or one of the changes above was made. *)
Ltac supply_tac :=
  match goal with
  | Hs : supply_inv ?s |- supply_inv _ =>
      unfold supply_inv in *; simpl in *;
      first
        [ exact Hs
        | eapply supply_set_config; [exact Hs | eassumption | first [by left | by right; simpl; intros]]
        | eapply supply_assets; [exact Hs |]; intros id;
          match goal with
          | Ht : asset_transfer _ _ _ _ _ _ = Some _ |- _ => by rewrite (transfer_issuance _ _ _ _ _ _ _ id Ht)
          | Hb : burn_from _ _ _ _ _ _ = Some _ |- _ => rewrite (burn_issuance _ _ _ _ _ _ _ id Hb); lia
          | Hm : asset_set_metadata _ _ _ _ _ _ = Some _ |- _ =>
              destruct (metadata_balance _ _ _ _ _ _ _ id 0%N Hm) as [_ Heq]; lia
          end
        | eapply supply_mint; [done.. | intros; unfold supply_after, get_total_supply, sadd in *; lia] ]
  end.

Lemma clean_if_empty_supply e x s u s' : supply_inv s -> clean_if_empty cfg e x s = (Ok u, s') -> supply_inv s'.
Proof.
  intros Hs Hr. unfold clean_if_empty in Hr. token_inv; try exact Hs; unfold supply_inv in *; simpl in *.
  - eapply supply_same_totals; [exact Hs |]. intros e'. rewrite promised_delete.
    case_decide; lia.
  - eapply supply_drop; [done.. | | apply promised_nonneg]. intros e'. apply promised_delete.
Qed.

Lemma create_supply env origin e n sy d r x s u s' :
  0 <= e -> supply_inv s -> create_shop_token cfg env origin e n sy d r x s = (Ok u, s') -> supply_inv s'.
Proof.
  intros He Hs Hr. unfold create_shop_token in Hr. token_inv. unfold supply_inv in *. simpl in *.
  apply supply_new_config; [| done.. ]. eapply supply_assets; [exact Hs |]. intros id.
  match goal with
  | Hc : asset_create _ _ _ = Some _, Hm : asset_set_metadata _ _ _ _ _ _ = Some _ |- _ =>
      apply (create_balance _ _ _ _ id 0%N) in Hc as [_ Hc]; apply (metadata_balance _ _ _ _ _ _ _ id 0%N) in Hm as [_ Hm]
  end. lia.
Qed.

Lemma sum_of_exact (recipients : list (AccountId * N)) :
  (total_of recipients.*2 <= u128N)%N -> sum_of recipients = total_of recipients.*2.
Proof. intros. unfold sum_of. rewrite foldl_sadd by lia. lia. Qed.

Lemma distribute_supply env origin e total recipients s u s' :
  supply_inv s -> distribution_fits s (CDistribute e total recipients) ->
  distribute_dividend cfg env origin e total recipients s = (Ok u, s') -> supply_inv s'.
Proof.
  intros Hs [Hsum Hfit] Hr. unfold distribute_dividend in Hr. pose proof (sum_of_exact recipients Hsum) as Heq.
  pose proof (ok_total _ _ _ _ _ Hs e) as Htot.
  token_inv; rewrite Heq in *;
    match goal with Hf : for_each _ _ _ = _ |- _ => apply promises_inv in Hf as (p & -> & Hp); [| clear - Hfit Htot; lia] end;
    unfold supply_inv; simpl; (erewrite alter_eq_insert by eassumption);
    (eapply supply_set_config; [| eassumption | by left]);
    (eapply supply_promise; [done.. |]); intros Hnz Hlt; try done;
    unfold supply_after, get_total_supply, sadd in *; lia.
Qed.

Lemma claim_supply origin e s u s' :
  supply_inv s -> claim_dividend cfg origin e s = (Ok u, s') -> supply_inv s'.
Proof.
  intros Hs Hr. unfold claim_dividend in Hr. token_inv. unfold supply_inv in *. simpl.
  pose proof (ok_total _ _ _ _ _ Hs e) as Htot. pose proof (promised_elem (PendingDividends s) e x) as Hle.
  eapply supply_mint; [done | | eassumption | eassumption |].
  - eapply supply_drop; [exact Hs | intros e'; apply promised_delete | apply promised_nonneg].
  - intros Hnz Hlt. rewrite getN_insert, decide_True by done.
    pose proof (ok_cap _ _ _ _ _ Hs e _ ltac:(eassumption) Hnz Hlt). lia.
Qed.

Lemma cancel_supply origin e accounts s u s' :
  supply_inv s -> force_cancel_pending_dividends origin e accounts s = (Ok u, s') -> supply_inv s'.
Proof.
  intros Hs Hr. unfold force_cancel_pending_dividends in Hr. token_inv.
  pose proof (ok_total _ _ _ _ _ Hs e) as Htot. pose proof (ok_fits _ _ _ _ _ Hs e) as Hfit.
  match goal with Hc : cancel_each _ _ _ _ _ = _ |- _ =>
    apply cancel_each_inv in Hc as (p & v & -> & Ho & Hp); [| lia] end.
  unfold supply_inv in *. simpl in *. rewrite N.add_0_l in Ho. rewrite Ho.
  eapply supply_drop; [done.. | apply promised_nonneg].
Qed.

Definition entity_of (c : Call) : option Z :=
  match c with
  | CCreate e _ _ _ _ _ | CUpdateConfig e _ _ _ _ _ _ | CMint e _ _ | CTransfer e _ _ | CConfigureDividend e _ _
  | CDistribute e _ _ | CClaim e | CLock e _ _ | CUnlock e | CChangeType e _ | CSetMaxSupply e _
  | CSetRestriction e _ _ | CAddWhite e _ | CRemoveWhite e _ | CAddBlack e _ | CRemoveBlack e _ | CForceDisable e
  | CFreeze e | CUnfreeze e | CForceBurn e _ _ | CBurn e _ | CUpdateMetadata e _ _ | CForceTransfer e _ _ _
  | CForceEnable e | CCancelDividends e _ | CApprove e _ _ | CTransferFrom e _ _ _ => Some e
  | CGlobalPause _ => None
  end.

Definition in_range (e : option Z) : Prop := forall e', e = Some e' -> 0 <= e' <= u64_max.

Lemma call_supply env origin c s u s' :
  supply_inv s -> in_range (entity_of c) -> distribution_fits s c ->
  apply_call cfg env origin c s = (Ok u, s') -> supply_inv s'.
Proof.
  intros Hs Hrange Hfit Hr. destruct c; simpl in Hr;
    try (specialize (Hrange _ eq_refl));
    try (by eapply distribute_supply); try (by eapply claim_supply); try (by eapply cancel_supply);
    try (by eapply create_supply; [apply Hrange | done..]);
    unfold update_token_config, mint_tokens, transfer_tokens, configure_dividend, lock_tokens, unlock_tokens,
      change_token_type, set_max_supply, set_transfer_restriction, add_to_whitelist, remove_from_whitelist,
      add_to_blacklist, remove_from_blacklist, force_disable_token, force_enable_token, force_freeze_transfers,
      force_unfreeze_transfers, force_burn, set_global_token_pause, burn_tokens, update_token_metadata,
      force_transfer, approve_tokens, transfer_from in Hr;
    token_inv; try supply_tac;
    match goal with Hc : clean_if_empty _ _ _ _ = _ |- _ => apply clean_if_empty_supply in Hc; [exact Hc | supply_tac] end.
Qed.

(** ** Runs *)

Definition provider_entity (c : ProviderCall) : Z :=
  match c with
  | PReward e _ _ | PRedeem e _ _ | PTransfer e _ _ _ | PReserve e _ _ | PUnreserve e _ _ | PRepatriate e _ _ _
  | PBurn e _ | PSetMaxSupply e _ | PSetType e _ | PSetRestriction e _ _ | PManageBlacklist e _ _ => e
  end.

Lemma provider_supply env c s u s' :
  supply_inv s -> apply_provider cfg env c s = (Ok u, s') -> supply_inv s'.
Proof.
  intros Hs Hr. destruct c; simpl in Hr;
    unfold reward_on_purchase, redeem_for_discount, provider_transfer, reserve_tokens, unreserve_tokens,
      repatriate_tokens, governance_burn, governance_set_max_supply, governance_set_token_type,
      governance_set_transfer_restriction, governance_manage_blacklist in Hr;
    token_inv; try supply_tac.
  unfold supply_inv in *. simpl. eapply supply_mint; [done.. |]. intros Hnz Hlt.
  assert (~ (max_supply e0 < supply_after cfg s e (smul v (reward_rate e0) / 10000))%N) as Hroom by tauto.
  unfold supply_after, get_total_supply, sadd in Hroom. revert Hroom. generalize (smul v (reward_rate e0) / 10000)%N. intros reward. lia.
Qed.

(** An action on the pallet: a call, or an operation of another pallet, whose
    failure undoes its caller as well. *)
Inductive Action : Type :=
| Calls (origin : Origin) (c : Call)
| Provides (c : ProviderCall).

Definition act (env : Env) (a : Action) : M (State A W) (DispatchError Error) unit :=
  match a with
  | Calls origin c => dispatch cfg env origin c
  | Provides c => transactional (apply_provider cfg env c)
  end.

Definition action_entity (a : Action) : option Z :=
  match a with Calls _ c => entity_of c | Provides c => Some (provider_entity c) end.

(** A run keeps the block number and the storage; only [allowed] actions happen,
    in blocks that do not go back, and the pallets that answer questions change
    as they like. *)
Inductive step (allowed : Env -> State A W -> Action -> Prop) : Z * State A W -> Z * State A W -> Prop :=
| step_act env a n s r s' : n <= block_number env -> in_range (action_entity a) -> allowed env s a ->
    act env a s = (r, s') -> step allowed (n, s) (block_number env, s')
| step_world n s w : step allowed (n, s) (n, s <| world := w |>).

Definition sums_fit (env : Env) s (a : Action) : Prop :=
  match a with Calls _ c => distribution_fits s c | Provides _ => True end.

Lemma genesis_supply a w : supply_inv (genesis a w).
Proof.
  split; simpl.
  - intros e. unfold getN, promised. by rewrite lookup_empty, msum_empty.
  - intros e. unfold getN. rewrite lookup_empty. simpl. lia.
  - intros e c. by rewrite lookup_empty.
  - intros e c. by rewrite lookup_empty.
Qed.

Lemma step_supply x y : supply_inv x.2 -> step sums_fit x y -> supply_inv y.2.
Proof.
  intros Hs Hstep. destruct Hstep as [env a n s r s' _ Hrange Hfit Hr | n s w]; [| exact Hs]. simpl in *.
  destruct a as [origin c | c]; simpl in *; apply transactional_cases in Hr as [([] & -> & Hr) | (err & -> & ->)];
    try done; [by eapply call_supply | by eapply provider_supply].
Qed.

End Steps.

(** * A concrete run *)

Section Runs.
Context (allowed : Env -> State SimpleAssets SimpleWorld -> Action -> Prop).

(** Every call of a list is allowed where it is made. *)
Fixpoint all_allowed (n : Z) (s : State SimpleAssets SimpleWorld) (calls : list (Env * SimpleOrigin * Call)) : Prop :=
  match calls with
  | [] => True
  | c :: rest =>
      n <= block_number c.1.1 /\ default 0 (entity_of c.2) = Z.max 0 (Z.min u64_max (default 0 (entity_of c.2))) /\
      allowed c.1.1 s (Calls c.1.2 c.2) /\
      all_allowed (block_number c.1.1) (dispatch token_cfg c.1.1 c.1.2 c.2 s).2 rest
  end.

Lemma token_play_steps calls n s :
  all_allowed n s calls ->
  exists n', rtc (step token_cfg allowed) (n, s) (n', token_play calls s).
Proof.
  revert n s. induction calls as [| c calls IH]; intros n s Hok; [by exists n |].
  destruct Hok as (Hn & He & Ha & Hok). destruct (IH _ _ Hok) as [n' Hrun]. exists n'.
  eapply rtc_l; [| exact Hrun].
  pose proof (surjective_pairing (dispatch token_cfg c.1.1 c.1.2 c.2 s)) as Hr.
  refine (step_act token_cfg allowed c.1.1 (Calls c.1.2 c.2) n s _ _ Hn _ Ha Hr).
  intros e' He'. simpl in He'. rewrite He' in He. simpl in He. unfold u64_max in *. lia.
Qed.
End Runs.

Lemma token_offset : 0 <= ShopTokenOffset token_cfg.
Proof. done. Qed.

Lemma token_demo_reached :
  exists n, rtc (step token_cfg sums_fit) (0, genesis (mkSimpleAssets ∅ ∅) (mkSimpleWorld 9%N)) (n, token_demo).
Proof.
  unfold token_demo. apply (token_play_steps sums_fit token_calls 0 token_genesis). repeat split; by vm_compute.
Qed.

Lemma demo_capped : max_supply <$> EntityTokenConfigs token_demo !! 1 = Some 1000%N.
Proof. by vm_compute. Qed.

End TokenSupply.
