(* ===== verification/TokenHoldings.v ===== *)
(** What holders can and cannot do with their tokens: whatever is locked or
    reserved stays in the account through every call but the ones root uses to take
    tokens away; transfers obey the restrictions of the token; and the loop that
    releases locks releases exactly the ones that have run out. *)

From S2P Require Import Prelude Frame EntityPorts EntityToken TokenSupply.

Module TokenHoldings.
Import Token TokenSupply.

#[local] Arguments N.add : simpl never.
#[local] Arguments N.sub : simpl never.
#[local] Arguments N.min : simpl never.

Section Holdings.
Context {A : Type} `{FungibleAssets A} `{!FungibleAssetsLaws A} (cfg : Config).

Abbreviation asset := (entity_to_asset_id cfg).

Lemma asset_range_inj e e' :
  0 <= e <= u64_max -> 0 <= e' <= u64_max -> asset e = asset e' -> e = e'.
Proof.
  unfold entity_to_asset_id, u64_max. intros He He' Heq. change (18446744073709551615 + 1) with 18446744073709551616 in Heq.
  pose proof (Z.div_mod (ShopTokenOffset cfg + e) 18446744073709551616 ltac:(lia)).
  pose proof (Z.div_mod (ShopTokenOffset cfg + e') 18446744073709551616 ltac:(lia)). lia.
Qed.

(** At a block, every account holds at least what its running locks and its
    reservations claim. *)
Definition covered (now : Z) (locks : gmap (Z * AccountId) (list LockEntry)) (reserved : gmap (Z * AccountId) N)
    (a : A) : Prop :=
  forall e x, 0 <= e <= u64_max ->
    (locked_in now (default [] (locks !! (e, x))) + getN reserved (e, x) <= asset_balance (asset e) x a)%N.

Lemma covered_later now now' locks reserved a :
  covered now locks reserved a -> now <= now' -> covered now' locks reserved a.
Proof.
  intros Hc Hle e x He. specialize (Hc e x He).
  pose proof (locked_in_later now now' (default [] (locks !! (e, x))) Hle). lia.
Qed.

Lemma covered_grow now locks reserved a a' :
  covered now locks reserved a -> (forall id x, (asset_balance id x a <= asset_balance id x a')%N) ->
  covered now locks reserved a'.
Proof. intros Hc Hle e x He. specialize (Hc e x He). specialize (Hle (asset e) x). lia. Qed.

(** Spending what is available, with the reservation lowered by [back]. *)
Lemma covered_spend now locks reserved a a' e from v back :
  covered now locks reserved a -> 0 <= e <= u64_max -> (back <= getN reserved (e, from))%N ->
  (v <= asset_balance (asset e) from a - locked_in now (default [] (locks !! (e, from))) -
        (getN reserved (e, from) - back))%N ->
  (forall id x, (asset_balance id x a - (if decide (id = asset e /\ x = from) then v else 0) <= asset_balance id x a')%N) ->
  forall reserved', (forall k, getN reserved' k = if decide ((e, from) = k) then (getN reserved k - back)%N else getN reserved k) ->
  covered now locks reserved' a'.
Proof.
  intros Hc He Hback Hv Hle reserved' Hres e1 x1 He1. specialize (Hle (asset e1) x1). rewrite Hres.
  pose proof (Hc e1 x1 He1) as Hc1.
  destruct (decide (asset e1 = asset e /\ x1 = from)) as [[Heq ->] | Hne].
  - apply asset_range_inj in Heq as ->; [| done..]. rewrite decide_True by done. lia.
  - rewrite decide_False; [lia |]. intros [= -> ->]. tauto.
Qed.

Lemma covered_reserved now locks reserved reserved' a :
  covered now locks reserved a ->
  (forall e x, 0 <= e <= u64_max ->
    (getN reserved' (e, x) <= getN reserved (e, x))%N \/
    (locked_in now (default [] (locks !! (e, x))) + getN reserved' (e, x) <= asset_balance (asset e) x a)%N) ->
  covered now locks reserved' a.
Proof. intros Hc Hr e x He. specialize (Hc e x He). destruct (Hr e x He); lia. Qed.

Lemma covered_locks now locks reserved a e who l :
  covered now locks reserved a ->
  ((locked_in now l <= locked_in now (default [] (locks !! (e, who))))%N \/
   (locked_in now l + getN reserved (e, who) <= asset_balance (asset e) who a)%N) ->
  covered now (<[(e, who) := l]> locks) reserved a.
Proof.
  intros Hc Hl e1 x1 He1. specialize (Hc e1 x1 He1). rewrite lookup_insert. case_decide as Heq; [| done].
  injection Heq as <- <-. simpl. destruct Hl; lia.
Qed.

Lemma covered_unlocked now locks reserved a e who :
  covered now locks reserved a -> covered now (delete (e, who) locks) reserved a.
Proof.
  intros Hc e1 x1 He1. specialize (Hc e1 x1 He1). rewrite lookup_delete. case_decide; [| done].
  unfold locked_in. simpl. lia.
Qed.
End Holdings.

Section Steps.
Context `{FrameSystem} {A W : Type}.
Context `{FungibleAssets A} `{!FungibleAssetsLaws A} `{EntityQueries W} `{TokenQueries W}.
Context (cfg : Config).
Implicit Types (s : State A W).

Definition holds_claims (now : Z) s : Prop := covered cfg now (LockedTokens s) (ReservedTokens s) (assets s).

(** Everything but root's power to take tokens away, and burning what an entity's
    own account has reserved or locked. *)
Definition gentle (env : Env) s (a : Action) : Prop :=
  match a with
  | Calls _ (CForceBurn _ _ _) | Calls _ (CForceTransfer _ _ _ _) => False
  | Provides (PBurn e v) => (v <= get_available_balance cfg env s e (entity_account e (world s)))%N
  | _ => True
  end.

Lemma transfer_spends id from to v k (a a' : A) :
  asset_transfer id from to v k a = Some a' ->
  forall id' x, (asset_balance id' x a - (if decide (id' = id /\ x = from) then v else 0) <= asset_balance id' x a')%N.
Proof.
  intros Ht id' x. rewrite (transfer_balance _ _ _ _ _ _ _ id' x Ht).
  destruct (decide (id' = id)) as [-> |]; [| rewrite !decide_False by tauto; lia].
  repeat case_decide; destruct_and?; try tauto; lia.
Qed.

Lemma burn_spends id who v k f (a a' : A) :
  burn_from id who v k f a = Some a' ->
  forall id' x, (asset_balance id' x a - (if decide (id' = id /\ x = who) then v else 0) <= asset_balance id' x a')%N.
Proof. intros Hb id' x. rewrite (burn_balance _ _ _ _ _ _ _ id' x Hb). lia. Qed.

(** Spending what is available. *)
Lemma holds_spend env s e from v a' :
  holds_claims (block_number env) s -> 0 <= e <= u64_max -> (v <= get_available_balance cfg env s e from)%N ->
  (forall id x, (asset_balance id x (assets s) -
     (if decide (id = entity_to_asset_id cfg e /\ x = from) then v else 0) <= asset_balance id x a')%N) ->
  covered cfg (block_number env) (LockedTokens s) (ReservedTokens s) a'.
Proof.
  intros Hs He Hv Hle.
  apply (covered_spend cfg _ _ _ (assets s) a' e from v 0 Hs He); [lia | | exact Hle |].
  - unfold get_available_balance, token_balance, total_locked_amount, locks_of, reserved_of in Hv. rewrite N.sub_0_r. exact Hv.
  - intros k. case_decide; [by rewrite N.sub_0_r | done].
Qed.

Ltac holds_tac :=
  match goal with
  | Hs : holds_claims ?now ?s |- holds_claims _ _ =>
      first
        [ exact Hs
        | unfold holds_claims; simpl;
          first
            [ eapply holds_spend; [exact Hs | eassumption | first [eassumption | apply N.nlt_ge; eassumption] |];
              first [by eapply transfer_spends | by eapply burn_spends]
            | eapply covered_grow; [exact Hs |]; intros id y;
              match goal with
              | Hm : mint_into _ _ _ _ = Some _ |- _ => rewrite (mint_balance _ _ _ _ _ id y Hm); lia
              | Hc : asset_create _ _ _ = Some _, Hm : asset_set_metadata _ _ _ _ _ _ = Some _ |- _ =>
                  destruct (create_balance _ _ _ _ id y Hc) as [Hc' _];
                  destruct (metadata_balance _ _ _ _ _ _ _ id y Hm) as [Hm' _]; lia
              | Hm : asset_set_metadata _ _ _ _ _ _ = Some _ |- _ =>
                  destruct (metadata_balance _ _ _ _ _ _ _ id y Hm) as [Hm' _]; lia
              end ] ]
  end.

Lemma lock_holds env origin e v d s u s' :
  0 <= e <= u64_max -> holds_claims (block_number env) s -> lock_tokens cfg env origin e v d s = (Ok u, s') ->
  holds_claims (block_number env) s'.
Proof.
  intros He Hs Hr. unfold lock_tokens in Hr. token_inv. unfold holds_claims. simpl. apply covered_locks; [exact Hs |].
  right. match goal with Hv : (v <= _)%N |- _ => rename Hv into Hle end.
  unfold get_available_balance, token_balance, total_locked_amount, locks_of, reserved_of in *.
  pose proof (asset_balance_max (entity_to_asset_id cfg e) x (assets s)).
  pose proof (locked_in_push (block_number env) (default [] (LockedTokens s !! (e, x))) v
    (sat_add u32_max (block_number env) d)) as Hpush. lia.
Qed.

Lemma running_idem now l : running now (running now l) = running now l.
Proof. unfold running. by rewrite list_filter_filter_l. Qed.

Lemma unlock_holds env origin e s u s' :
  holds_claims (block_number env) s -> unlock_tokens env origin e s = (Ok u, s') -> holds_claims (block_number env) s'.
Proof.
  intros Hs Hr. unfold unlock_tokens in Hr.
  token_inv. match goal with Hl : unlock_loop _ _ _ _ _ = (?l, _) |- _ => rename Hl into Hloop; rename l into rest end.
  destruct (unlock_loop_spec (length (locks_of s e x)) (block_number env) 0 (locks_of s e x) 0) as [Hrest _];
    [lia | constructor | lia |].
  rewrite Hloop in Hrest. simpl in Hrest. unfold holds_claims. simpl.
  destruct rest as [| y rest]; [by apply covered_unlocked |].
  apply covered_locks; [exact Hs |]. left. rewrite !locked_in_total.
  rewrite (total_of_Permutation _ _ (fmap_Permutation amount _ _ (running_Permutation (block_number env) _ _ Hrest))).
  by rewrite running_idem.
Qed.

(** Promising and cancelling dividends touches none of this. *)
Definition claims s := (LockedTokens s, ReservedTokens s, assets s).

Lemma promises_claims e (recipients : list (AccountId * N)) :
  framed claims (E:=DispatchError Error) (for_each recipients (fun r => promise e r.1 r.2)).
Proof. apply framed_for_each. intros r. unfold promise. framed_tac. Qed.

Lemma cancel_each_claims e accounts total count : framed claims (cancel_each (A:=A) (W:=W) e accounts total count).
Proof.
  revert total count. induction accounts as [| x accounts IH]; intros total count; simpl; [framed_tac |].
  apply framed_bind; [unfold take_pending; framed_tac |]. intros pending. case_decide; apply IH.
Qed.

Lemma holds_same now s s' : claims s' = claims s -> holds_claims now s -> holds_claims now s'.
Proof. unfold claims, holds_claims. by intros [= -> -> ->]. Qed.

Lemma call_holds env origin c s u s' :
  holds_claims (block_number env) s -> in_range (entity_of c) -> gentle env s (Calls origin c) ->
  apply_call cfg env origin c s = (Ok u, s') -> holds_claims (block_number env) s'.
Proof.
  intros Hs Hrange Hg Hr. destruct c; simpl in Hr, Hg; try done;
    try (specialize (Hrange _ eq_refl)); try (by eapply lock_holds); try (by eapply unlock_holds);
    unfold create_shop_token, update_token_config, mint_tokens, transfer_tokens, configure_dividend, claim_dividend,
      change_token_type, set_max_supply, set_transfer_restriction, add_to_whitelist, remove_from_whitelist,
      add_to_blacklist, remove_from_blacklist, force_disable_token, force_enable_token, force_freeze_transfers,
      force_unfreeze_transfers, set_global_token_pause, burn_tokens, update_token_metadata, approve_tokens,
      transfer_from, distribute_dividend, force_cancel_pending_dividends in Hr;
    token_inv; try holds_tac;
    first
      [ match goal with Hf : for_each _ _ _ = _ |- _ => apply promises_claims in Hf as Hsame end
      | match goal with Hf : cancel_each _ _ _ _ _ = _ |- _ => apply cancel_each_claims in Hf as Hsame end ];
    exact (holds_same _ _ _ Hsame Hs).
Qed.

Lemma reserve_holds env e who v s u s' :
  0 <= e <= u64_max -> holds_claims (block_number env) s -> reserve_tokens cfg env e who v s = (Ok u, s') ->
  holds_claims (block_number env) s'.
Proof.
  intros He Hs Hr. unfold reserve_tokens in Hr. token_inv. unfold holds_claims. simpl.
  match goal with Hv : ~ (_ < v)%N |- _ => rename Hv into Hav end.
  apply (covered_reserved cfg _ _ _ _ _ Hs). intros e1 x1 He1. rewrite getN_insert. case_decide as Heq; [right | by left].
  injection Heq as <- <-. specialize (Hs e who He).
  unfold get_available_balance, token_balance, total_locked_amount, locks_of, reserved_of, sadd in *. lia.
Qed.

Lemma lower_reserved now e who v s :
  holds_claims now s -> (v <= reserved_of s e who)%N ->
  holds_claims now (s <| ReservedTokens ::= <[(e, who) := v]> |>).
Proof.
  intros Hs Hv. unfold holds_claims. simpl. apply (covered_reserved cfg _ _ _ _ _ Hs). intros e1 x1 _.
  rewrite getN_insert. left. case_decide as Heq; [| done]. by injection Heq as <- <-.
Qed.

Lemma unreserve_holds now e who v s out s' :
  holds_claims now s -> unreserve_tokens e who v s = (Ok out, s') -> holds_claims now s'.
Proof.
  intros Hs Hr. unfold unreserve_tokens in Hr. token_inv; [done |]. apply (lower_reserved now e who _ s Hs). lia.
Qed.

Lemma repatriate_holds env e from to v s out s' :
  0 <= e <= u64_max -> holds_claims (block_number env) s -> repatriate_tokens cfg e from to v s = (Ok out, s') ->
  holds_claims (block_number env) s'.
Proof.
  intros He Hs Hr. unfold repatriate_tokens in Hr. token_inv; [done |]. unfold holds_claims. simpl.
  match goal with Ht : asset_transfer _ _ _ _ _ _ = Some ?a |- _ =>
    rename Ht into Hmove; pose proof (Hs e from He) as Hc; unfold reserved_of in *;
    apply (covered_spend cfg _ _ _ (assets s) a e from (N.min v (getN (ReservedTokens s) (e, from)))
      (N.min v (getN (ReservedTokens s) (e, from))) Hs He) end.
  - lia.
  - lia.
  - by eapply transfer_spends.
  - intros k. rewrite getN_insert. case_decide; [by subst | done].
Qed.

Lemma provider_holds env c s u s' :
  holds_claims (block_number env) s -> 0 <= provider_entity c <= u64_max -> gentle env s (Provides c) ->
  apply_provider cfg env c s = (Ok u, s') -> holds_claims (block_number env) s'.
Proof.
  intros Hs Hrange Hg Hr. destruct c; simpl in Hr, Hg, Hrange;
    unfold reward_on_purchase, redeem_for_discount, provider_transfer, reserve_tokens, unreserve_tokens,
      repatriate_tokens, governance_burn, governance_set_max_supply, governance_set_token_type,
      governance_set_transfer_restriction, governance_manage_blacklist in Hr;
    try (token_inv; holds_tac).
  - by eapply reserve_holds.
  - apply bind_Ok in Hr as (out & s1 & Hr & Hret). apply ret_inv in Hret as [_ ->]. by eapply unreserve_holds.
  - apply bind_Ok in Hr as (out & s1 & Hr & Hret). apply ret_inv in Hret as [_ ->]. by eapply repatriate_holds.
Qed.

Lemma step_holds x y : holds_claims x.1 x.2 -> step cfg (gentle) x y -> holds_claims y.1 y.2.
Proof.
  intros Hs Hstep. destruct Hstep as [env a n s r s' Hn Hrange Hg Hr | n s w]; [| exact Hs]. simpl in *.
  apply (covered_later cfg n (block_number env)) in Hs; [| done].
  destruct a as [origin c | c]; simpl in Hr; apply transactional_cases in Hr as [([] & -> & Hr) | (err & -> & ->)];
    try done; [by eapply call_holds |]. eapply provider_holds; [done | | done..]. by apply Hrange.
Qed.

(** C10: Along every run of the token pallet's calls and of the operations it provides to
    other pallets, an account holds at least what its running locks and its reservations
    claim together, however locks, reservations, transfers, redemptions and burns are
    interleaved and as time goes on. Left out are root's force_burn and force_transfer,
    the burn of a governance decision where it exceeds what the entity's account has
    available ([gentle]), and calls made to the assets pallet directly, which knows
    neither locks nor reservations. *)
Theorem holdings_cover_claims a w n s e x :
  rtc (step cfg gentle) (0, genesis a w) (n, s) -> 0 <= e <= u64_max ->
  (locked_in n (locks_of s e x) + reserved_of s e x <= token_balance cfg s e x)%N.
Proof.
  intros Hrun He. assert (holds_claims n s) as Hs; [| by apply Hs].
  apply (rtc_invariant (step cfg gentle) (fun x => holds_claims x.1 x.2) step_holds (0, genesis a w) (n, s)); [| done].
  intros e1 x1 _. simpl. rewrite lookup_empty. unfold getN. rewrite lookup_empty. unfold locked_in. simpl. lia.
Qed.

(** * Transfers *)

(** The transfer an action asks for: token, sender, receiver, amount. *)
Definition transfer_of (a : Action) : option (Z * AccountId * AccountId * N) :=
  match a with
  | Calls origin (CTransfer e to v) => who ← ensure_signed origin; Some (e, who, to, v)
  | Calls origin (CTransferFrom e owner to v) => Some (e, owner, to, v)
  | Provides (PTransfer e from to v) => Some (e, from, to, v)
  | _ => None
  end.

Lemma moved_exactly id from to v k (a a' : A) :
  asset_transfer id from to v k a = Some a' -> from <> to -> forall x, asset_balance id x a' =
    ((asset_balance id x a + if decide (x = to) then v else 0) - if decide (x = from) then v else 0)%N.
Proof. intros Ht Hne x. by rewrite (transfer_balance _ _ _ _ _ _ _ id x Ht), decide_True. Qed.

(** C14: A transfer - by the holder, by an approved spender, or through the trait -
    happens only while transfers are neither paused nor frozen, between accounts the
    token's restriction permits, out of what is neither locked nor reserved, and it
    moves exactly its amount. *)
Theorem transfers_obey_restrictions env a s s' e from to v :
  transfer_of a = Some (e, from, to, v) -> act cfg env a s = (Ok tt, s') ->
  GlobalTokenPaused s = false /\ (e ∉ TransfersFrozen s) /\ is_entity_active e (world s) = true /\
  (forall c, EntityTokenConfigs s !! e = Some c ->
     enabled c = true /\ transferable c = true /\ permitted s e c from to) /\
  (v <= get_available_balance cfg env s e from)%N /\
  (from <> to -> forall x, token_balance cfg s' e x =
     ((token_balance cfg s e x + if decide (x = to) then v else 0) - if decide (x = from) then v else 0)%N).
Proof.
  intros Ha Hr.
  destruct a as [origin [] | []]; simpl in Ha, Hr; try done; apply transactional_Ok in Hr; simpl in Hr;
    unfold transfer_tokens, transfer_from, provider_transfer in Hr;
    try (destruct (ensure_signed origin) as [who |] eqn:Hwho; simpl in Ha; [| done]); simplify_eq;
    token_inv;
    (split_and!; try done; try (by apply not_true_is_false); try (by apply not_false_is_true);
     try (by apply N.nlt_ge); [| intros Hne y; by eapply moved_exactly]);
    intros c Hc; simplify_eq; (split_and!; try done; try (by apply not_false_is_true)).
Qed.

(** ** Consent *)

Lemma transfer_loses id from to v k (a a' : A) id' x :
  asset_transfer id from to v k a = Some a' -> (asset_balance id' x a' < asset_balance id' x a)%N ->
  id' = id /\ x = from /\ (v = asset_balance id' x a - asset_balance id' x a')%N.
Proof.
  intros Ht. pose proof (transfer_covered _ _ _ _ _ _ _ Ht). rewrite (transfer_balance _ _ _ _ _ _ _ id' x Ht).
  repeat case_decide; destruct_and?; subst; lia.
Qed.

Lemma burn_loses id who v k f (a a' : A) id' x :
  burn_from id who v k f a = Some a' -> (asset_balance id' x a' < asset_balance id' x a)%N -> x = who.
Proof. intros Hb. rewrite (burn_balance _ _ _ _ _ _ _ id' x Hb). case_decide; [tauto | lia]. Qed.

(** The assets after a call that moves tokens of nobody, or gives some to somebody. *)
Definition no_losses s s' : Prop :=
  forall id x, (asset_balance id x (assets s) <= asset_balance id x (assets s'))%N.

Definition spends (c : Call) : bool :=
  match c with
  | CTransfer _ _ _ | CTransferFrom _ _ _ _ | CBurn _ _ | CForceBurn _ _ _ | CForceTransfer _ _ _ _ => true
  | _ => false
  end.

Lemma harmless_call env origin c s u s' :
  spends c = false -> apply_call cfg env origin c s = (Ok u, s') -> no_losses s s'.
Proof.
  intros Hc Hr id y. destruct c; simpl in Hc, Hr; try done;
    unfold create_shop_token, update_token_config, mint_tokens, configure_dividend, claim_dividend,
      change_token_type, set_max_supply, set_transfer_restriction, add_to_whitelist, remove_from_whitelist,
      add_to_blacklist, remove_from_blacklist, force_disable_token, force_enable_token, force_freeze_transfers,
      force_unfreeze_transfers, set_global_token_pause, update_token_metadata, approve_tokens,
      lock_tokens, unlock_tokens, distribute_dividend, force_cancel_pending_dividends in Hr;
    token_inv; try done;
    first
      [ match goal with Hm : mint_into _ _ _ _ = Some _ |- _ => rewrite (mint_balance _ _ _ _ _ id y Hm); lia end
      | match goal with Hc : asset_create _ _ _ = Some _, Hm : asset_set_metadata _ _ _ _ _ _ = Some _ |- _ =>
          destruct (create_balance _ _ _ _ id y Hc) as [Hc' _];
          destruct (metadata_balance _ _ _ _ _ _ _ id y Hm) as [Hm' _]; lia end
      | match goal with Hm : asset_set_metadata _ _ _ _ _ _ = Some _ |- _ =>
          destruct (metadata_balance _ _ _ _ _ _ _ id y Hm) as [Hm' _]; lia end
      | match goal with Hf : for_each _ _ _ = _ |- _ => apply promises_claims in Hf as [= _ _ ->]; done end
      | match goal with Hf : cancel_each _ _ _ _ _ = _ |- _ => apply cancel_each_claims in Hf as [= _ _ ->]; done end ].
Qed.

(** C13: A dispatchable of the token pallet lowers an account's tokens only if that account
    signs it, if root does, or if a spender does that the account approved, whose
    allowance is used up by what is taken. (What other pallets do through the provider
    operations - the delivery of a filled order, a redemption for a discount, a burn
    decided by governance - is not a dispatchable of this pallet.) *)
Theorem tokens_leave_by_consent env origin c s s' e x :
  in_range (entity_of c) -> 0 <= e <= u64_max -> dispatch cfg env origin c s = (Ok tt, s') ->
  (token_balance cfg s' e x < token_balance cfg s e x)%N ->
  ensure_signed origin = Some x \/ ensure_root origin = true \/
  exists spender, ensure_signed origin = Some spender /\
    (get_allowance s' e x spender + (token_balance cfg s e x - token_balance cfg s' e x) = get_allowance s e x spender)%N.
Proof.
  intros Hrange He Hr Hless. apply transactional_Ok in Hr. unfold token_balance in *.
  destruct (spends c) eqn:Hc; [| apply harmless_call in Hr; [| done]; specialize (Hr (entity_to_asset_id cfg e) x); lia].
  destruct c; simpl in Hc; try done; simpl in Hr; specialize (Hrange _ eq_refl);
    unfold transfer_tokens, burn_tokens, transfer_from, force_burn, force_transfer in Hr; token_inv; try (by right; left).
  - by destruct (transfer_loses _ _ _ _ _ _ _ _ _ ltac:(eassumption) Hless) as (_ & -> & _); left.
  - by left; rewrite (burn_loses _ _ _ _ _ _ _ _ _ ltac:(eassumption) Hless).
  - destruct (transfer_loses _ _ _ _ _ _ _ _ _ ltac:(eassumption) Hless) as (Hid & -> & Hv).
    apply asset_range_inj in Hid as ->; [| done..].
    right; right. eexists. split; [eassumption |].
    unfold get_allowance in *. simpl. rewrite getN_insert, decide_True by done. lia.
Qed.

(** * Releasing locks *)

(** Unlocking ends, whatever the entries: it fails when there is nothing to
    release, and otherwise leaves exactly the locks that still run and reports the
    sum of the others. *)
Theorem unlock_releases_expired env origin e who s :
  ensure_signed origin = Some who ->
  let l := locks_of s e who in
  let total := N.min u128N (total_of (amount <$> expired (block_number env) l)) in
  exists s', unlock_tokens env origin e s =
      (if decide (l = []) then Err (Module NoLockedTokens)
       else if decide (total = 0%N) then Err (Module UnlockTimeNotReached) else Ok tt, s') /\
    (total = 0%N -> s' = s) /\
    (total <> 0%N -> locks_of s' e who ≡ₚ running (block_number env) l /\
       last (events s') = Some (TokensUnlocked e who total)).
Proof.
  intros Hwho l total. unfold unlock_tokens, signed. rewrite (run_ok_or _ _ _ _ _ Hwho), run_gets. fold l.
  destruct (decide (l = [])) as [Hl | Hl].
  - assert (total = 0%N) as Hz by (unfold total; by rewrite Hl).
    rewrite run_ensure_not by tauto. exists s. split_and!; done.
  - rewrite run_ensure by done.
    destruct (unlock_loop_spec (length l) (block_number env) 0 l 0) as [Hrest Hsum]; [lia | constructor | lia |].
    destruct (unlock_loop (length l) (block_number env) 0 l 0) as [rest sum] eqn:Hloop. simpl in Hrest, Hsum.
    rewrite N.add_0_l in Hsum. fold total in Hsum. subst sum.
    destruct (decide (total = 0%N)) as [Hz | Hnz].
    + rewrite run_ensure_not by tauto. exists s. split_and!; done.
    + rewrite run_ensure, run_modify by done. eexists. split_and!; [reflexivity | done |]. intros _. split.
      * unfold locks_of. simpl. rewrite <- Hrest. destruct rest; [by rewrite lookup_delete_eq | by rewrite lookup_insert_eq].
      * simpl. by rewrite last_snoc.
Qed.
End Steps.

(** * Concrete runs *)

(** Account 2 locks 200 of its 560 tokens at block 6 and 50 at block 7, and account 3
    may spend 30 of the rest. *)
Definition holder_calls : list (Env * SimpleOrigin * Call) :=
  token_calls ++
  [(token_env 6, SignedBy 2%N, CLock 1 200 50); (token_env 7, SignedBy 2%N, CLock 1 50 10);
   (token_env 8, SignedBy 2%N, CApprove 1 3%N 30);
   (token_env 8, SignedBy 9%N, CAddWhite 1 [2%N; 3%N; 4%N])].

Definition holder_demo := token_play holder_calls token_genesis.

Lemma holder_demo_reached :
  exists n, rtc (step token_cfg (gentle token_cfg))
    (0, genesis (mkSimpleAssets ∅ ∅) (mkSimpleWorld 9%N)) (n, holder_demo).
Proof.
  unfold holder_demo. apply (token_play_steps (gentle token_cfg) holder_calls 0 token_genesis).
  repeat split; by vm_compute.
Qed.

Lemma consent_range : in_range (entity_of (CTransferFrom 1 2%N 4%N 25)).
Proof. intros e He. injection He as <-. done. Qed.

Lemma consent_entity : 0 <= 1 <= u64_max.
Proof. done. Qed.

Lemma holdings_cover_claims_witness :
  exists n, (locked_in n (locks_of holder_demo 1 2%N) + reserved_of holder_demo 1 2%N <=
    token_balance token_cfg holder_demo 1 2%N)%N.
Proof.
  destruct holder_demo_reached as [n Hrun]. exists n.
  exact (holdings_cover_claims token_cfg _ _ n holder_demo 1 2%N Hrun consent_entity).
Defined.

Definition spend_by_3 : Action := Calls (SignedBy 3%N) (CTransferFrom 1 2%N 4%N 25).

Definition holder_spent :=
  (dispatch token_cfg (token_env 9) (SignedBy 3%N) (CTransferFrom 1 2%N 4%N 25) holder_demo).2.

Lemma spend_dispatched :
  dispatch token_cfg (token_env 9) (SignedBy 3%N) (CTransferFrom 1 2%N 4%N 25) holder_demo = (Ok tt, holder_spent).
Proof. apply returns. by vm_compute. Qed.

Lemma spend_runs : act token_cfg (token_env 9) spend_by_3 holder_demo = (Ok tt, holder_spent).
Proof. unfold act, spend_by_3. exact spend_dispatched. Qed.

Lemma spent_less :
  (token_balance token_cfg holder_spent 1 2%N < token_balance token_cfg holder_demo 1 2%N)%N.
Proof. by vm_compute. Qed.

Lemma spent_25 :
  (token_balance token_cfg holder_demo 1 2%N - token_balance token_cfg holder_spent 1 2%N = 25)%N.
Proof. by vm_compute. Qed.

Lemma transfers_obey_restrictions_witness :
  (25 <= get_available_balance token_cfg (token_env 9) holder_demo 1 2%N)%N /\
  token_balance token_cfg holder_spent 1 2%N = (token_balance token_cfg holder_demo 1 2%N + 0 - 25)%N.
Proof.
  destruct (transfers_obey_restrictions token_cfg (token_env 9) spend_by_3 holder_demo _ 1 2%N 4%N 25%N eq_refl spend_runs)
    as (_ & _ & _ & _ & Hav & Hb).
  split; [exact Hav |]. exact (Hb ltac:(discriminate) 2%N).
Defined.

Lemma tokens_leave_by_consent_witness :
  exists spender, ensure_signed (SignedBy 3%N) = Some spender /\
    (get_allowance holder_spent 1 2%N spender + 25 = get_allowance holder_demo 1 2%N spender)%N.
Proof.
  destruct (tokens_leave_by_consent token_cfg _ _ _ _ _ 1 2%N consent_range consent_entity spend_dispatched spent_less)
    as [Hs | [Hs | (spender & Hs & Ha)]]; [discriminate Hs.. |].
  exists spender. split; [exact Hs |]. rewrite <- Ha, spent_25. reflexivity.
Defined.

(** At block 20 the 50 are released and the 200 are not. *)
Lemma unlock_releases_expired_witness :
  exists s', unlock_tokens (token_env 20) (SignedBy 2%N) 1 holder_demo = (Ok tt, s') /\
    last (events s') = Some (TokensUnlocked 1 2%N 50).
Proof.
  destruct (unlock_releases_expired (H := simple_system) (token_env 20) (SignedBy 2%N : @Origin simple_system) 1 2%N
    holder_demo eq_refl) as (s' & Hr & _ & Hs).
  exists s'. split; [rewrite Hr; by vm_compute |]. apply Hs. by vm_compute.
Defined.
End TokenHoldings.
