(* ===== verification/TokenMarket.v ===== *)
(** The market on top of the token pallet: the operations of [EntityTokenProvider]
    as the pallet implements them satisfy the laws the market's theorems assume;
    what is proved of both pallets apart holds of them together; and what a buyer
    gets when root has taken the tokens of a sale away. *)

From S2P Require Import Prelude Frame EntityPorts EntityMarket MarketCalls MarketFunds MarketSteps.
From S2P Require Import EntityToken TokenSupply TokenHoldings.

(** What keeps a property of the tokens; its lemmas are told apart by the name of
    the function they are about. *)
Create HintDb keeps discriminated.
#[export] Hint Constants Opaque : keeps.

Module TokenMarket.

(** * Whatever the token operations keep, the market keeps *)

Section Keeping.
Import Market MarketCalls MarketFunds MarketSteps.
Context `{FrameSystem} {L T W : Type}.
Context `{RepatriatingCurrency L} `{EntityTokens T} `{EntityQueries W} (cfg : Config) (Q : T -> Prop).
Context (Q_reserve : forall e who a t t', Q t -> token_reserve e who a t = Some t' -> Q t').
Context (Q_unreserve : forall e who a t, Q t -> Q (token_unreserve e who a t).1).
Context (Q_repatriate : forall e from to a t t' moved, Q t -> token_repatriate e from to a t = Some (t', moved) -> Q t').
Implicit Types (s : State L T W).

Definition keeping s : Prop := Q (tokens s).

Abbreviation keeps m := (kept (E:=DispatchError Error) (S:=State L T W) keeping m).

Lemma quiet_keeps {A} (m : M (State L T W) (DispatchError Error) A) : framed core m -> keeps m.
Proof.
  intros Hq s r s' Hs Hr. unfold keeping. apply Hq in Hr as [= _ _ _ _ _ _ ->]. exact Hs.
Qed.


Lemma reserve_tokens_keeps e who a : keeps (reserve_tokens e who a).
Proof.
  intros s r s' Hs Hr. unfold reserve_tokens, bind, gets, ok_or, modify in Hr.
  destruct (token_reserve e who a (tokens s)) as [t' |] eqn:Ht; injection Hr as <- <-; [| exact Hs].
  by eapply Q_reserve.
Qed.

Lemma unreserve_tokens_keeps e who a : keeps (unreserve_tokens e who a).
Proof. apply kept_modify. intros s Hs. by apply Q_unreserve. Qed.

Lemma repatriate_tokens_keeps e from to a : keeps (repatriate_tokens e from to a).
Proof.
  intros s r s' Hs Hr. unfold repatriate_tokens, bind, gets, ok_or, modify in Hr.
  destruct (token_repatriate e from to a (tokens s)) as [[t' moved] |] eqn:Ht; injection Hr as <- <-; [| exact Hs].
  by eapply Q_repatriate.
Qed.

#[local] Hint Resolve reserve_tokens_keeps unreserve_tokens_keeps repatriate_tokens_keeps : keeps.

Ltac keep_easy := let s := fresh in let Hs := fresh in intros s Hs; exact Hs.
Ltac keep_step := first [ solve [auto with keeps nocore] | kept_step keep_easy ].
Ltac keep_tac := cbv zeta; repeat (keep_step; cbv zeta).

(** What does not touch accounts at all. *)
#[local] Hint Extern 1 (kept _ (check_price_deviation _ _ _ _)) => apply quiet_keeps, check_price_deviation_quiet : keeps.
#[local] Hint Extern 1 (kept _ (on_trade_completed _ _ _ _)) => apply quiet_keeps, on_trade_completed_quiet : keeps.
#[local] Hint Extern 1 (kept _ (ensure_market_enabled _)) => apply quiet_keeps, ensure_market_enabled_quiet : keeps.
#[local] Hint Extern 1 (kept _ (ensure_circuit_breaker_inactive _ _)) => apply quiet_keeps, ensure_circuit_breaker_inactive_quiet : keeps.
#[local] Hint Extern 1 (kept _ (ensure_kyc_requirement _ _)) => apply quiet_keeps, ensure_kyc_requirement_quiet : keeps.
#[local] Hint Extern 1 (kept _ (update_best_prices _ _)) => apply quiet_keeps, update_best_prices_quiet : keeps.
#[local] Hint Extern 1 (kept _ (update_trade_stats _ _)) => apply quiet_keeps, update_trade_stats_quiet : keeps.
#[local] Hint Extern 1 (kept _ (record_trade _ _ _ _ _ _ _ _ _ _)) => apply quiet_keeps, record_trade_quiet : keeps.
#[local] Hint Extern 1 (kept _ (add_to_order_history _ _ _)) => apply quiet_keeps, add_to_order_history_quiet : keeps.

Lemma admit_order_keeps env e who a p : keeps (admit_order cfg env e who a p).
Proof. apply quiet_keeps, admit_order_quiet. Qed.

Lemma admit_market_order_keeps env e who : keeps (admit_market_order env e who).
Proof. apply quiet_keeps, admit_market_order_quiet. Qed.

Lemma currency_reserve_keeps who a : keeps (currency_reserve who a).
Proof. unfold currency_reserve. keep_tac. Qed.

Lemma currency_unreserve_keeps who a : keeps (currency_unreserve who a).
Proof. unfold currency_unreserve. keep_tac. Qed.

Lemma currency_repatriate_keeps x y a : keeps (currency_repatriate x y a).
Proof. unfold currency_repatriate. keep_tac. Qed.

Lemma currency_transfer_keeps x y a : keeps (currency_transfer x y a).
Proof. unfold currency_transfer. keep_tac. Qed.

#[local] Hint Resolve admit_order_keeps admit_market_order_keeps currency_reserve_keeps currency_unreserve_keeps
  currency_repatriate_keeps currency_transfer_keeps : keeps.

Lemma release_keeps e sd who a p : keeps (release e sd who a p).
Proof. unfold release. keep_tac. Qed.

Lemma release_nonzero_keeps e sd who a p : keeps (release_nonzero e sd who a p).
Proof. unfold release_nonzero. keep_tac. Qed.

Lemma put_order_keeps id o : keeps (put_order id o).
Proof. unfold put_order. keep_tac. Qed.

Lemma remove_from_order_book_keeps e id sd : keeps (remove_from_order_book e id sd).
Proof. unfold remove_from_order_book. keep_tac. Qed.

Lemma remove_from_user_keeps who id : keeps (remove_from_user who id).
Proof. unfold remove_from_user. keep_tac. Qed.

#[local] Hint Resolve release_keeps release_nonzero_keeps put_order_keeps remove_from_order_book_keeps
  remove_from_user_keeps : keeps.

Lemma retire_keeps id o st e sd : keeps (retire cfg id o st e sd).
Proof. unfold retire. keep_tac. Qed.

Lemma finish_fill_keeps id o e : keeps (finish_fill cfg id o e).
Proof. unfold finish_fill. keep_tac. Qed.

#[local] Hint Resolve retire_keeps finish_fill_keeps : keeps.

Lemma book_fill_keeps env o e tk sd fill n : keeps (book_fill cfg env o e tk sd fill n).
Proof. unfold book_fill, update_order_fill. keep_tac. Qed.

Lemma do_create_order_keeps env e mk sd ty a p : keeps (do_create_order cfg env e mk sd ty a p).
Proof. unfold do_create_order, push_to_book, push_to_user. keep_tac. Qed.

#[local] Hint Resolve book_fill_keeps do_create_order_keeps : keeps.

Lemma count_each_keeps {A} (l : list A) body : (forall x, keeps (body x)) -> keeps (count_each l body).
Proof. intros Hb. induction l; simpl; keep_tac. Qed.

Lemma do_cancel_all_keeps env e : keeps (do_cancel_all_entity_orders cfg env e).
Proof.
  unfold do_cancel_all_entity_orders, clear_book.
  repeat (first [keep_step | apply count_each_keeps; intros ?; unfold cancel_listed]; cbv zeta).
Qed.

Lemma cross_keeps env tk e sd limit orders r f n : keeps (cross cfg env tk e sd limit orders r f n).
Proof.
  revert r f n. induction orders as [| o orders IH]; intros r f n; simpl; unfold calculate_total, cross_transfers;
    repeat (first [apply IH | keep_step]; cbv zeta).
Qed.

Lemma do_cross_match_keeps env tk e sd limit r : keeps (do_cross_match cfg env tk e sd limit r).
Proof. unfold do_cross_match. repeat (first [apply cross_keeps | keep_step]). Qed.

Lemma market_buy_loop_keeps env b e mc orders r f n : keeps (market_buy_loop cfg env b e mc orders r f n).
Proof.
  revert r f n. induction orders as [| o orders IH]; intros r f n; simpl; unfold calculate_total;
    repeat (first [apply IH | keep_step]; cbv zeta).
Qed.

Lemma market_sell_loop_keeps env b e mc orders r f n : keeps (market_sell_loop cfg env b e mc orders r f n).
Proof.
  revert r f n. induction orders as [| o orders IH]; intros r f n; simpl; unfold calculate_total;
    repeat (first [apply IH | keep_step]; cbv zeta).
Qed.

#[local] Hint Resolve do_cancel_all_keeps do_cross_match_keeps market_buy_loop_keeps market_sell_loop_keeps : keeps.

Lemma batch_cancel_keeps who ids c f l : keeps (batch_cancel cfg who ids c f l).
Proof.
  revert c f l. induction ids as [| id ids IH]; intros c f l; simpl; repeat (first [apply IH | keep_step]; cbv zeta).
Qed.

Lemma clean_listed_keeps now e sd mc ids n : keeps (clean_listed cfg now e sd mc ids n).
Proof.
  revert n. induction ids as [| id ids IH]; intros n; simpl; repeat (first [apply IH | keep_step]; cbv zeta).
Qed.

Lemma sweep_keeps now ids r c n l : keeps (sweep cfg now ids r c n l).
Proof.
  revert r c n l. induction ids as [| id ids IH]; intros r c n l; simpl; repeat (first [apply IH | keep_step]; cbv zeta).
Qed.

#[local] Hint Resolve batch_cancel_keeps clean_listed_keeps sweep_keeps : keeps.

Lemma dispatch_keeps env origin ca : keeps (dispatch cfg env origin ca).
Proof.
  destruct (setting ca) eqn:Hset; [by apply quiet_keeps, setting_quiet |].
  destruct ca; try discriminate Hset; simpl;
    unfold place_sell_order, place_buy_order, take_order, take_transfers, cancel_order, configure_market, market_buy,
      market_sell, force_cancel_order, batch_cancel_orders, cleanup_expired_orders, modify_order, shrink_lock,
      reprice_lock, close_market, force_close_market, cancel_all_entity_orders, governance_configure_market,
      place_ioc_order, place_fok_order, place_post_only_order, apply_config, empty_and_close, lock_for, give_back,
      do_market_buy, do_market_sell, refresh_if_filled, ensure_not_closed, ensure_exists, ensure_owner,
      ensure_trader_allowed, ensure_min_amount, ensure_tokens, set_config, calculate_total, signed, root;
    repeat (first [ keep_step | apply count_each_keeps; intros ?; unfold cancel_own ]; cbv zeta).
Qed.

Lemma port_keeps env ca : keeps (port cfg env ca).
Proof.
  destruct (port_setting ca) eqn:Hset; [by apply quiet_keeps, port_setting_quiet |].
  destruct ca; try discriminate Hset. simpl. unfold governance_close_market. keep_tac.
Qed.

Lemma on_idle_keeps env w : keeps (on_idle cfg env w).
Proof. unfold on_idle. keep_tac. Qed.

(** Every step of the market keeps what the three operations keep. *)
Lemma market_step_keeps s s' : market_step cfg s s' -> keeping s -> keeping s'.
Proof.
  intros Hstep Hs. destruct Hstep as [env origin ca s r s' _ _ Hr | env ca s r s' Hr | env w s r s' _ Hr].
  - by eapply (kept_transactional keeping _ (dispatch_keeps env origin ca)).
  - by eapply (kept_transactional keeping _ (port_keeps env ca)).
  - by eapply on_idle_keeps.
Qed.
End Keeping.

(** * The token pallet as the market's [EntityTokenProvider] *)

Section Provider.
Import (hints) Token.
Context `{FrameSystem} {A W : Type}.
Context `{FungibleAssets A} `{EntityQueries W} `{TokenQueries W} (cfg : Token.Config).

(** The storage of the pallet, and the block its time locks are compared with. *)
Abbreviation Tokens := (Z * Token.State A W)%type.

Definition at_block (n : Z) : Env := mkEnv n 0 0 [].

(** Entity ids are u64; nothing is held of a number that is none. *)
Definition is_id (e : Z) : Prop := 0 <= e <= u64_max.

#[export] Instance is_id_dec e : Decision (is_id e).
Proof. unfold is_id. apply _. Defined.

Definition provided_reserve (e : Z) (who : AccountId) (v : Z) (t : Tokens) : option Tokens :=
  if decide (is_id e) then
    match Token.reserve_tokens cfg (at_block t.1) e who (Z.to_N v) t.2 with
    | (Ok _, s') => Some (t.1, s')
    | (Err _, _) => None
    end
  else None.

Definition provided_unreserve (e : Z) (who : AccountId) (v : Z) (t : Tokens) : Tokens * Z :=
  if decide (is_id e) then
    match Token.unreserve_tokens e who (Z.to_N v) t.2 with
    | (Ok actual, s') => ((t.1, s'), Z.of_N actual)
    | (Err _, _) => (t, 0)
    end
  else (t, 0).

Definition provided_repatriate (e : Z) (from to : AccountId) (v : Z) (t : Tokens) : option (Tokens * Z) :=
  if decide (is_id e) then
    match Token.repatriate_tokens cfg e from to (Z.to_N v) t.2 with
    | (Ok actual, s') => Some ((t.1, s'), Z.of_N actual)
    | (Err _, _) => None
    end
  else None.

Definition pallet_tokens : EntityTokens Tokens := {|
  is_token_enabled e t := Token.is_token_enabled t.2 e;
  token_balance e who t := if decide (is_id e) then Z.of_N (Token.token_balance cfg t.2 e who) else 0;
  token_reserved e who t := if decide (is_id e) then Z.of_N (Token.reserved_of t.2 e who) else 0;
  token_reserve := provided_reserve;
  token_unreserve := provided_unreserve;
  token_repatriate := provided_repatriate;
|}.

#[local] Existing Instance pallet_tokens.

(** What the operations leave, whenever they succeed. *)
Lemma reserve_run env e who v (s : Token.State A W) u s' :
  Token.reserve_tokens cfg env e who v s = (Ok u, s') ->
  s' = s <| Token.ReservedTokens ::= <[(e, who) := Token.sadd (Token.reserved_of s e who) v]> |> /\
  (v <> 0)%N /\ (v <= Token.get_available_balance cfg env s e who)%N.
Proof. intros Hr. unfold Token.reserve_tokens in Hr. Token.token_inv. split_and!; [done | done | lia]. Qed.

Lemma unreserve_run e who v (s : Token.State A W) :
  exists s', Token.unreserve_tokens e who v s = (Ok (N.min v (Token.reserved_of s e who)), s') /\
    Token.assets s' = Token.assets s /\
    forall k, Token.getN (Token.ReservedTokens s') k =
      if decide ((e, who) = k) then (Token.reserved_of s e who - v)%N else Token.getN (Token.ReservedTokens s) k.
Proof.
  unfold Token.unreserve_tokens. rewrite run_gets. case_decide as Hz.
  - exists s. split_and!; [by rewrite Hz | done |]. intros k. case_decide; [subst k; unfold Token.reserved_of in *; lia | done].
  - unfold Token.set_reserved. rewrite run_modify. eexists. split_and!; [reflexivity | done |]. intros k. simpl.
    rewrite TokenSupply.getN_insert. case_decide; [lia | done].
Qed.

Lemma repatriate_run e from to v (s : Token.State A W) moved s' :
  Token.repatriate_tokens cfg e from to v s = (Ok moved, s') ->
  moved = N.min v (Token.reserved_of s e from) /\
  ((moved = 0%N /\ s' = s) \/
   moved <> 0%N /\ exists a,
     asset_transfer (Token.entity_to_asset_id cfg e) from to moved false (Token.assets s) = Some a /\
     s' = s <| Token.assets := a |> <| Token.ReservedTokens ::= <[(e, from) := (Token.reserved_of s e from - moved)%N]> |>).
Proof. intros Hr. unfold Token.repatriate_tokens in Hr. Token.token_inv; split; eauto. Qed.

(** ** The laws of the interface *)

Context `{!FungibleAssetsLaws A}.

Lemma token_id_inj e e' : is_id e -> is_id e' ->
  Token.entity_to_asset_id cfg e = Token.entity_to_asset_id cfg e' <-> e = e'.
Proof. intros He He'. split; [by apply TokenHoldings.asset_range_inj | by intros ->]. Qed.

Lemma moved_balance e from to v (a a' : A) e' x :
  is_id e -> is_id e' -> from <> to ->
  asset_transfer (Token.entity_to_asset_id cfg e) from to v false a = Some a' ->
  Z.of_N (asset_balance (Token.entity_to_asset_id cfg e') x a') =
    Z.of_N (asset_balance (Token.entity_to_asset_id cfg e') x a) +
    (if decide (e' = e /\ x = to) then Z.of_N v else 0) - (if decide (e' = e /\ x = from) then Z.of_N v else 0).
Proof.
  intros He He' Hne Ht. pose proof (transfer_covered _ _ _ _ _ _ _ Ht).
  rewrite (transfer_balance _ _ _ _ _ _ _ (Token.entity_to_asset_id cfg e') x Ht).
  destruct (decide (e' = e)) as [-> | Hd].
  - rewrite decide_True by done. destruct (decide (x = to)) as [Hto | Hto], (decide (x = from)) as [Hfrom | Hfrom];
      [congruence | ..];
      repeat first [rewrite (decide_True (P := _ /\ _)) by done | rewrite (decide_False (P := _ /\ _)) by tauto]; try rewrite Hfrom; lia.
  - rewrite decide_False; [| intros [Heq _]; by apply Hd, token_id_inj].
    rewrite !decide_False by tauto. lia.
Qed.

Lemma reserved_sum_fits env (s : Token.State A W) e who v :
  (v <= Token.get_available_balance cfg env s e who)%N -> (v <> 0)%N ->
  Token.sadd (Token.reserved_of s e who) v = (Token.reserved_of s e who + v)%N.
Proof.
  unfold Token.get_available_balance, Token.token_balance, Token.sadd. intros Hv Hnz.
  pose proof (asset_balance_max (Token.entity_to_asset_id cfg e) who (Token.assets s)). lia.
Qed.

Ltac at_keys := repeat case_decide; destruct_and?; simplify_eq/=; try tauto; try lia.

#[export] Instance pallet_tokens_laws : EntityTokensLaws Tokens.
Proof.
  split; simpl.
  - intros e x t. case_decide; lia.
  - intros e who v t t' e' x Hv. unfold provided_reserve. destruct (decide (is_id e)) as [He | He]; [| done].
    destruct (Token.reserve_tokens _ _ _ _ _ _) as [[u |] s'] eqn:Hr; [| done]. intros [= <-]. simpl.
    apply reserve_run in Hr as (-> & Hnz & Hav). unfold Token.reserved_of at 1. simpl. rewrite TokenSupply.getN_insert.
    rewrite (reserved_sum_fits _ _ _ _ _ Hav Hnz). unfold Token.reserved_of in *. at_keys.
  - intros e who v t t' e' x Hv. unfold provided_reserve. destruct (decide (is_id e)) as [He | He]; [| done].
    destruct (Token.reserve_tokens _ _ _ _ _ _) as [[u |] s'] eqn:Hr; [| done]. intros [= <-]. simpl.
    by apply reserve_run in Hr as (-> & _).
  - intros e who v t e' x Hv. unfold provided_unreserve. destruct (decide (is_id e)) as [He | He]; [| simpl; at_keys].
    destruct (unreserve_run e who (Z.to_N v) t.2) as (s' & -> & _ & Hres). simpl.
    unfold Token.reserved_of in *. rewrite Hres. at_keys.
  - intros e who v t e' x Hv. unfold provided_unreserve. destruct (decide (is_id e)) as [He | He]; [| done].
    destruct (unreserve_run e who (Z.to_N v) t.2) as (s' & -> & Ha & _). simpl. unfold Token.token_balance. by rewrite Ha.
  - intros e a b v t t' moved Hne Hv. unfold provided_repatriate. destruct (decide (is_id e)) as [He | He]; [| done].
    destruct (Token.repatriate_tokens _ _ _ _ _ _) as [[u |] s'] eqn:Hr; [| done]. intros [= <- <-].
    apply repatriate_run in Hr as [-> _]. lia.
  - intros e a b v t t' moved e' x Hne Hv. unfold provided_repatriate. destruct (decide (is_id e)) as [He | He]; [| done].
    destruct (Token.repatriate_tokens _ _ _ _ _ _) as [[u |] s'] eqn:Hr; [| done]. intros [= <- <-]. simpl.
    apply repatriate_run in Hr as [-> [[Hz ->] | (_ & a' & Ht & ->)]].
    + at_keys.
    + unfold Token.reserved_of at 1. simpl. rewrite TokenSupply.getN_insert. unfold Token.reserved_of. at_keys.
  - intros e a b v t t' moved e' x Hne Hv. unfold provided_repatriate. destruct (decide (is_id e)) as [He | He]; [| done].
    destruct (Token.repatriate_tokens _ _ _ _ _ _) as [[u |] s'] eqn:Hr; [| done]. intros [= <- <-]. simpl.
    apply repatriate_run in Hr as [-> [[Hz ->] | (_ & a' & Ht & ->)]].
    + at_keys.
    + unfold Token.token_balance. simpl. case_decide as He'; [| at_keys].
      rewrite (moved_balance _ _ _ _ _ _ _ _ He He' Hne Ht). at_keys.
Qed.

(** * Both pallets together *)

Section Joint.
Import (hints) Market.
Import MarketFunds MarketSteps.
Context {L WM : Type} `{RepatriatingCurrency L} `{EntityQueries WM} (mcfg : Market.Config).
Implicit Types (s : Market.State L Tokens WM).

Abbreviation tokens_at s := (Market.tokens s).2.

(** The market leaves the claims on an account's tokens covered. *)
Lemma market_keeps_claims s s' :
  market_step mcfg s s' ->
  TokenHoldings.holds_claims cfg (Market.tokens s).1 (tokens_at s) ->
  TokenHoldings.holds_claims cfg (Market.tokens s').1 (tokens_at s').
Proof.
  apply (market_step_keeps mcfg (fun t => TokenHoldings.holds_claims cfg t.1 t.2)).
  - intros e who v t t' Hs. simpl. unfold provided_reserve. case_decide; [| done].
    destruct (Token.reserve_tokens _ _ _ _ _ _) as [[u |] s1] eqn:Hr; [| done]. intros [= <-]. simpl.
    by eapply (TokenHoldings.reserve_holds cfg (at_block t.1)).
  - intros e who v t Hs. simpl. unfold provided_unreserve. case_decide; [| done].
    destruct (unreserve_run e who (Z.to_N v) t.2) as (s1 & Hr & _). rewrite Hr. simpl.
    by eapply TokenHoldings.unreserve_holds.
  - intros e from to v t t' moved Hs. simpl. unfold provided_repatriate. case_decide; [| done].
    destruct (Token.repatriate_tokens _ _ _ _ _ _) as [[u |] s1] eqn:Hr; [| done]. intros [= <- <-]. simpl.
    by eapply (TokenHoldings.repatriate_holds cfg (at_block t.1)).
Qed.

(** A call of the token pallet that is not one of root's two leaves every
    reservation alone. *)
Lemma cancel_each_reserved e accounts total count :
  framed (E:=DispatchError Token.Error) (Token.ReservedTokens (A:=A) (W:=W)) (Token.cancel_each e accounts total count).
Proof.
  revert total count. induction accounts as [| x accounts IH]; intros total count; simpl; [framed_tac |].
  unfold Token.take_pending. apply framed_bind; [framed_tac |]. intros pending. case_decide; apply IH.
Qed.

Lemma call_reserved env origin c (ts : Token.State A W) :
  TokenHoldings.gentle cfg env ts (TokenSupply.Calls origin c) ->
  framed (E:=DispatchError Token.Error) (Token.ReservedTokens (A:=A) (W:=W)) (Token.apply_call cfg env origin c).
Proof.
  intros Hg. destruct c; simpl in Hg; try done; simpl;
    unfold Token.create_shop_token, Token.update_token_config, Token.mint_tokens, Token.transfer_tokens,
      Token.configure_dividend, Token.claim_dividend, Token.change_token_type, Token.set_max_supply,
      Token.set_transfer_restriction, Token.add_to_whitelist, Token.remove_from_whitelist, Token.add_to_blacklist,
      Token.remove_from_blacklist, Token.force_disable_token, Token.force_enable_token, Token.force_freeze_transfers,
      Token.force_unfreeze_transfers, Token.set_global_token_pause, Token.burn_tokens, Token.update_token_metadata,
      Token.approve_tokens, Token.transfer_from, Token.distribute_dividend, Token.force_cancel_pending_dividends,
      Token.lock_tokens, Token.unlock_tokens;
    unfold Token.signed, Token.root, Token.ensure_not_paused, Token.ensure_active, Token.ensure_manager,
      Token.ensure_owner_or_admin, Token.get_enabled, Token.ensure_configured, Token.get_config, Token.ensure_names,
      Token.ensure_rate, Token.ensure_list, Token.ensure_transferable, Token.ensure_holder_may_send,
      Token.ensure_not_frozen, Token.check_transfer_restriction, Token.ensure_available_balance,
      Token.ensure_within_max_supply, Token.spend_allowance, Token.mint, Token.burn, Token.move, Token.with_assets,
      Token.change_config, Token.deposit_event, Token.set_type, Token.limit_supply, Token.restrict, Token.set_enabled,
      Token.take_pending, Token.drop_total, Token.promise;
    repeat (first [apply cancel_each_reserved | framed_step]; cbv zeta).
Qed.

(** What happens to the tokens between two steps of the market: any call but root's
    two, and operations of other pallets that leave what the open orders lock. *)
Definition polite s (env : Env) (ts : Token.State A W) (a : TokenSupply.Action) : Prop :=
  TokenHoldings.gentle cfg env ts a /\
  match a with
  | TokenSupply.Calls _ _ => True
  | TokenSupply.Provides _ =>
      forall e x, is_id e -> locked_tokens s e x <= Z.of_N (Token.reserved_of (TokenSupply.act cfg env a ts).2 e x)
  end.

Inductive joint : Market.State L Tokens WM -> Market.State L Tokens WM -> Prop :=
| joint_market s s' : market_step mcfg s s' -> joint s s'
| joint_tokens s t : TokenSupply.step cfg (polite s) (Market.tokens s) t -> joint s (s <| Market.tokens := t |>)
| joint_money s l w : (forall x, locked_nex s x <= reserved_balance x l) ->
    joint s (s <| Market.currency := l |> <| Market.world := w |>).

Context `{!ReservableCurrencyLaws L} `{!RepatriatingCurrencyLaws L}.

Lemma polite_respects s t :
  sound s -> TokenSupply.step cfg (polite s) (Market.tokens s) t ->
  forall e x, locked_tokens s e x <= token_reserved e x t.
Proof.
  intros Hs Hstep e x. pose proof (sound_tokens _ Hs e x) as Hl. simpl in *.
  destruct (decide (is_id e)) as [He |]; [| done].
  inversion Hstep as [env a n ts r ts' _ _ [Hg Hother] Hr Heq | n ts w Heq]; rewrite <- Heq in *; simpl in *; [| done].
  destruct a as [origin c | c]; simpl in *.
  - apply transactional_cases in Hr as [([] & -> & Hr) | (err & -> & ->)]; [| done].
    apply (call_reserved env origin c ts Hg) in Hr. unfold Token.reserved_of in *. by rewrite Hr.
  - specialize (Hother e x He). by rewrite Hr in Hother.
Qed.

Definition joint_ok s : Prop :=
  sound s /\ TokenHoldings.holds_claims cfg (Market.tokens s).1 (tokens_at s).

Lemma joint_step_ok s s' : joint_ok s -> joint s s' -> joint_ok s'.
Proof.
  intros [Hs Hc] Hstep. destruct Hstep as [s s' Hm | s t Ht | s l w Hl].
  - split; [exact (good_sound _ _ Hs (market_step_good mcfg _ _ Hs Hm)) | by eapply market_keeps_claims].
  - split.
    + apply (outside_sound s); [done |]. exists (Market.currency s), t, (Market.world s).
      split_and!; [by destruct s | apply (sound_nex _ Hs) | by apply polite_respects].
    + simpl. apply (TokenHoldings.step_holds cfg (Market.tokens s) t Hc).
      destruct Ht as [env a n ts r ts' Hn Hr [Hg _] Hrun | n ts w]; econstructor; eassumption.
  - split; [| exact Hc]. apply (outside_sound s); [done |]. exists l, (Market.tokens s), w.
    split_and!; [by destruct s | done | apply (sound_tokens _ Hs)].
Qed.

Lemma genesis_joint_ok l a w wm : joint_ok (MarketCalls.genesis l (0, Token.genesis a w) wm).
Proof.
  split; [apply genesis_sound |]. intros e x _. simpl. unfold Token.getN, Token.locked_in.
  rewrite !lookup_empty. simpl. lia.
Qed.

(** C11: In every state the two pallets can reach together, unless root takes tokens
    away, the tokens an account offers in open orders are in its account, beside what
    its time locks hold, and what is delivered of an open sale is exactly what the
    market asked for, leaving its maker and arriving at the buyer. *)
Theorem open_sales_are_backed l a w wm s i o :
  rtc joint (MarketCalls.genesis l (0, Token.genesis a w) wm) s ->
  Market.Orders s !! i = Some o -> Market.is_live o = true -> Market.side o = Market.Sell ->
  let e := Market.entity_id o in let maker := Market.maker o in let t := Market.tokens s in
  is_id e /\
  locked_tokens s e maker + Z.of_N (Token.total_locked_amount (at_block t.1) t.2 e maker) <= token_balance e maker t /\
  Market.unfilled o <= locked_tokens s e maker /\
  forall buyer fill t' moved, buyer <> maker -> 0 < fill <= Market.unfilled o ->
    token_repatriate e maker buyer fill t = Some (t', moved) ->
    moved = fill /\ token_balance e buyer t' = token_balance e buyer t + fill /\
    token_balance e maker t' = token_balance e maker t - fill.
Proof.
  intros Hrun Ho Hl Hsd e maker t.
  assert (joint_ok s) as [Hs Hc].
  { eapply (rtc_invariant joint joint_ok joint_step_ok); [apply genesis_joint_ok | exact Hrun]. }
  apply sound_good in Hs as Hg. destruct Hg as (Hg & _ & Hspare).
  pose proof (f_ok _ _ _ (g_funded _ _ _ _ Hg) _ _ Ho) as Hok. pose proof (open_unfilled _ Hok Hl) as Hun.
  assert (Market.unfilled o <= locked_tokens s e maker) as Hlock.
  { rewrite <- (lock_tokens_sell o Hl Hsd). unfold locked_tokens, e, maker.
    etrans; [| apply (msum_elem_le (fun _ o' => at_token (Market.entity_id o') (Market.maker o') (lock_tokens o') _ _) _ i o);
      [| done]]; [by rewrite at_token_eq |].
    intros k v Hk. apply at_token_nonneg, lock_tokens_nonneg. eapply (f_ok _ _ _ (g_funded _ _ _ _ Hg)); eauto. }
  pose proof (sound_tokens _ Hs e maker) as Hres. fold t in Hres.
  assert (is_id e) as He. { simpl in Hres. destruct (decide (is_id e)); [done | lia]. }
  assert (0 <= token_reserved e maker t) as Hnn by apply token_reserved_nonneg.
  split_and!; [done | | done |].
  - specialize (Hc e maker He). simpl in *. rewrite !decide_True in * by done. unfold Token.total_locked_amount, Token.locks_of,
      Token.reserved_of, Token.token_balance in *. simpl in *. fold t in Hc. lia.
  - intros buyer fill t' moved Hne Hfill Hrep.
    rewrite (token_repatriate_moved e maker buyer fill t t' moved) by (done || lia).
    rewrite (token_repatriate_balance e maker buyer fill t t' moved e buyer) by (done || lia).
    rewrite (token_repatriate_balance e maker buyer fill t t' moved e maker) by (done || lia).
    repeat case_decide; destruct_and?; try tauto; lia.
Qed.
(** ** A sale whose tokens are gone *)

(** Who pays, and who holds what. *)
Definition accounts s := (Market.currency s, Market.tokens s).

Lemma core_accounts s s' : core s' = core s -> accounts s' = accounts s.
Proof. unfold accounts. by intros [= _ _ _ _ _ -> ->]. Qed.

Lemma quiet_accounts {B} (m : M (Market.State L Tokens WM) (DispatchError Market.Error) B) :
  framed core m -> framed accounts m.
Proof. intros Hq s r s' Hr. by eapply core_accounts, Hq. Qed.

Lemma finish_fill_accounts id o e : framed (E:=DispatchError Market.Error) accounts (Market.finish_fill mcfg id o e).
Proof.
  unfold Market.finish_fill, Market.remove_from_order_book, Market.remove_from_user, Market.add_to_order_history,
    Market.put_order. framed_tac.
Qed.

(** A taken order: what it fills, at what price, and the transfers that pay it. *)
Lemma take_order_run env origin id v s u s' :
  MarketCalls.take_order mcfg env origin id v s = (Ok u, s') ->
  exists who o fill total s1 s2, ensure_signed origin = Some who /\ Market.Orders s !! id = Some o /\
    Market.maker o <> who /\ Market.is_live o = true /\ fill <> 0 /\
    Market.calculate_total_next fill (Market.price o) = Some total /\ accounts s1 = accounts s /\
    MarketCalls.take_transfers o who fill total s1 = (Ok tt, s2) /\ accounts s' = accounts s2.
Proof.
  intros Hr. unfold MarketCalls.take_order, MarketCalls.signed in Hr.
  apply bind_Ok in Hr as (who & s0 & Hw & Hr). apply ok_or_Ok in Hw as [Hw ->].
  apply bind_Ok in Hr as (orders & s0 & Hget & Hr). apply gets_inv in Hget as [[= ->] ->].
  apply bind_Ok in Hr as (o & s0 & Ho & Hr). apply ok_or_Ok in Ho as [Ho ->].
  apply bind_Ok in Hr as ([] & s1 & Hp & Hr). apply ensure_market_enabled_quiet in Hp as Hq1.
  apply bind_Ok in Hr as ([] & s2 & Hp2 & Hr). apply ensure_circuit_breaker_inactive_quiet in Hp2 as Hq2.
  apply bind_Ok in Hr as ([] & s3 & Hp3 & Hr). apply ensure_kyc_requirement_quiet in Hp3 as Hq3.
  apply bind_Ok in Hr as ([] & s4 & Hl & Hr). apply ensure_Ok in Hl as [Hl ->].
  apply bind_Ok in Hr as ([] & s4 & He & Hr). apply ensure_Ok in He as [_ ->].
  apply bind_Ok in Hr as ([] & s4 & Hne & Hr). apply ensure_Ok in Hne as [Hne ->].
  apply bind_Ok in Hr as ([] & s4 & Hp4 & Hr). apply ensure_trader_allowed_quiet in Hp4 as Hq4.
  apply bind_Ok in Hr as ([] & s5 & He & Hr). apply ensure_Ok in He as [_ ->].
  apply bind_Ok in Hr as ([] & s5 & Hnz & Hr). apply ensure_Ok in Hnz as [Hnz ->].
  apply bind_Ok in Hr as (total & s5 & Hv & Hr). apply ok_or_Ok in Hv as [Hv ->].
  apply bind_Ok in Hr as ([] & s5 & Htr & Hr).
  apply bind_Ok in Hr as ([] & s6 & He & Hr). apply ensure_Ok in He as [_ ->].
  apply bind_Ok in Hr as ([] & s6 & Hfin & Hr). apply finish_fill_accounts in Hfin.
  eexists who, o, _, total, s4, s5. split_and!; try done; [apply core_accounts; congruence |].
  rewrite <- Hfin. apply core_accounts.
  match type of Hr with ?m _ = _ => assert (framed core m) as Hq by quiet_solve end. by apply Hq in Hr.
Qed.

(** Taking the last token of an account deletes what it had reserved. *)
Lemma emptied_account_unreserved origin e from to v (ts ts' : Token.State A W) u :
  Token.force_transfer cfg origin e from to v ts = (Ok u, ts') -> Token.token_balance cfg ts' e from = 0%N ->
  Token.reserved_of ts' e from = 0%N.
Proof.
  intros Hr Hz. unfold Token.force_transfer, Token.clean_if_empty in Hr. Token.token_inv;
    unfold Token.token_balance, Token.reserved_of, Token.getN in *; simpl in *;
    try (by rewrite lookup_delete_eq); congruence.
Qed.

(** When nothing is reserved for a sale any more - root has taken the tokens of its
    maker, which deletes the reservation and leaves the order - a buyer who takes the
    order pays its full price and receives no token. *)
Theorem unbacked_sale_takes_payment env origin id v s o u s' :
  Market.Orders s !! id = Some o -> Market.side o = Market.Sell ->
  Token.reserved_of (tokens_at s) (Market.entity_id o) (Market.maker o) = 0%N ->
  MarketCalls.take_order mcfg env origin id v s = (Ok u, s') ->
  exists buyer fill total, ensure_signed origin = Some buyer /\ fill <> 0 /\
    Market.calculate_total_next fill (Market.price o) = Some total /\
    transfer_free buyer (Market.maker o) total (Market.currency s) = Some (Market.currency s') /\
    Market.tokens s' = Market.tokens s.
Proof.
  intros Ho Hsd Hz Hr.
  apply take_order_run in Hr as (who & o' & fill & total & s1 & s2 & Hw & Ho' & _ & _ & Hf & Hv & Ha1 & Htr & Ha2).
  rewrite Ho in Ho'. injection Ho' as <-. unfold accounts in *. injection Ha1 as <- Ht1. injection Ha2 as -> ->.
  exists who, fill, total. rewrite <- Ht1 in Hz |- *. split; [done |]. split; [done |]. split; [done |].
  unfold MarketCalls.take_transfers, Market.currency_transfer, Market.repatriate_tokens in Htr. rewrite Hsd in Htr.
  m_inv. simpl in *. split; [done |]. unfold provided_repatriate in *. case_decide; [| done].
  destruct (Token.repatriate_tokens _ _ _ _ _ _) as [[moved |] ts'] eqn:Hrep; [| done]. simplify_eq/=.
  apply repatriate_run in Hrep as [Hm [[_ ->] | (Hnz & _)]]; [by destruct (Market.tokens s1) | lia].
Qed.
End Joint.
End Provider.

(** * Concrete runs

    Entity 1 has its token (EntityToken.v) and opens a market for it at a price of
    10; account 2 offers 50 of its 560 tokens. *)

Import (hints) Token Market.

#[local] Instance sale_tokens : EntityTokens (Z * Token.State SimpleAssets SimpleWorld) := pallet_tokens token_cfg.

Abbreviation Both := (Market.State SimpleLedger (Z * Token.State SimpleAssets SimpleWorld) SimpleWorld).

Inductive Move : Type :=
| OfToken (env : Env) (origin : SimpleOrigin) (c : Token.Call)
| OfMarket (env : Env) (origin : SimpleOrigin) (c : MarketCalls.Call).

Definition run_move (s : Both) (m : Move) : Both :=
  match m with
  | OfToken env origin c =>
      s <| Market.tokens := (block_number env, (Token.dispatch token_cfg env origin c (Market.tokens s).2).2) |>
  | OfMarket env origin c => (transactional (MarketCalls.dispatch MarketCalls.demo_cfg env origin c) s).2
  end.

Definition move_ok (s : Both) (m : Move) : Prop :=
  match m with
  | OfToken env origin c =>
      (Market.tokens s).1 <= block_number env /\ match TokenSupply.entity_of c with Some e => is_id e | None => True end /\
      TokenHoldings.gentle token_cfg env (Market.tokens s).2 (TokenSupply.Calls origin c)
  | OfMarket env origin c => MarketSteps.call_ok c /\ Market.NextOrderId s < u64_max
  end.

Fixpoint moves_ok (s : Both) (moves : list Move) : Prop :=
  match moves with
  | [] => True
  | m :: rest => move_ok s m /\ moves_ok (run_move s m) rest
  end.

Lemma moves_joint s moves :
  moves_ok s moves -> rtc (joint token_cfg MarketCalls.demo_cfg) s (foldl run_move s moves).
Proof.
  revert s. induction moves as [| m moves IH]; intros s; simpl; [done |]. intros [Hm Hrest].
  eapply rtc_l; [| by apply IH]. clear Hrest IH. destruct m as [env origin c | env origin c]; simpl in *.
  - destruct Hm as (Hn & Hr & Hg). apply joint_tokens. destruct (Market.tokens s) as [n ts]. simpl in *.
    refine (TokenSupply.step_act (H:=simple_system) _ _ env (TokenSupply.Calls origin c) n ts _ _ Hn _ (conj Hg I)
      (surjective_pairing _)).
    intros e He. simpl in He. by rewrite He in Hr.
  - destruct Hm as [Hok Hn]. apply joint_market.
    exact (MarketSteps.step_call MarketCalls.demo_cfg env origin c s _ _ Hok Hn (surjective_pairing _)).
Qed.

Definition sale_genesis : Both :=
  MarketCalls.genesis (list_to_map [(1%N, (1000%N, 0%N)); (2%N, (1000%N, 0%N))]) (0, token_genesis) (mkSimpleWorld 9%N).

Definition sale_moves : list Move :=
  map (fun c => OfToken c.1.1 c.1.2 c.2) token_calls ++
  [OfMarket (token_env 6) (SignedBy 9%N) (MarketCalls.CConfigure 1 true 0 100);
   OfMarket (token_env 6) (SignedBy 9%N) (MarketCalls.CSetInitialPrice 1 10);
   OfMarket (token_env 7) (SignedBy 2%N) (MarketCalls.CPlaceSell 1 50 10)].

Definition sale_open : Both := foldl run_move sale_genesis sale_moves.

Lemma sale_reached : rtc (joint token_cfg MarketCalls.demo_cfg) sale_genesis sale_open.
Proof.
  apply moves_joint. unfold sale_moves, token_calls. simpl app.
  repeat (split; [split_and?; by vm_compute |]). done.
Qed.

(** Of the 50 tokens offered, 20 are delivered to account 1. *)
Definition the_sale : Market.TradeOrder :=
  Market.mkOrder 0 1 2%N Market.Sell Market.Limit 50 0 10 Market.Open 7 107.

Lemma sale_listed : Market.Orders sale_open !! 0 = Some the_sale.
Proof. by vm_compute. Qed.

Definition delivered : (Z * Token.State SimpleAssets SimpleWorld) * Z :=
  default (Market.tokens sale_open, 0) (token_repatriate 1 2%N 1%N 20 (Market.tokens sale_open)).

Lemma sale_delivers : token_repatriate 1 2%N 1%N 20 (Market.tokens sale_open) = Some (delivered.1, delivered.2).
Proof. by vm_compute. Qed.

Lemma open_sales_are_backed_witness :
  50 <= MarketFunds.locked_tokens sale_open 1 2%N /\ delivered.2 = 20 /\
  token_balance 1 1%N delivered.1 = token_balance 1 1%N (Market.tokens sale_open) + 20.
Proof.
  destruct (open_sales_are_backed token_cfg MarketCalls.demo_cfg _ _ _ _ sale_open 0 the_sale sale_reached sale_listed
    eq_refl eq_refl) as (_ & _ & Hun & Hmove).
  destruct (Hmove 1%N 20 _ _ ltac:(discriminate) ltac:(done) sale_delivers) as (Hm & Hb & _).
  split; [exact Hun | split; [exact Hm | exact Hb]].
Defined.

(** Root moves all of account 2's tokens to account 4; account 1 takes the order. *)
Definition sale_emptied : Both := run_move sale_open (OfToken (token_env 8) RootOrigin (Token.CForceTransfer 1 2%N 4%N 560)).

Definition sale_taken : Both :=
  (MarketCalls.take_order MarketCalls.demo_cfg (token_env 9) (SignedBy 1%N) 0 None sale_emptied).2.

Lemma emptied_listed : Market.Orders sale_emptied !! 0 = Some the_sale.
Proof. by vm_compute. Qed.

Lemma emptied_unreserved : Token.reserved_of (Market.tokens sale_emptied).2 1 2%N = 0%N.
Proof. by vm_compute. Qed.

Lemma taken_runs :
  MarketCalls.take_order MarketCalls.demo_cfg (token_env 9) (SignedBy 1%N) 0 None sale_emptied = (Ok tt, sale_taken).
Proof. unfold sale_taken. apply returns. by vm_compute. Qed.

Lemma unbacked_sale_takes_payment_witness :
  Market.tokens sale_taken = Market.tokens sale_emptied /\
  free_balance 1%N (Market.currency sale_taken) = 500 /\ free_balance 2%N (Market.currency sale_taken) = 1500.
Proof.
  destruct (unbacked_sale_takes_payment token_cfg MarketCalls.demo_cfg _ _ _ _ _ _ _ _ emptied_listed eq_refl
    emptied_unreserved taken_runs) as (buyer & fill & total & _ & _ & _ & _ & Ht).
  split; [exact Ht | split; by vm_compute].
Defined.
End TokenMarket.
