(* ===== verification/EntityOrder.v ===== *)
(** [pallet-entity-order] (src/pallets/entity/order/src): orders for the goods and
    services of a shop, paid into escrow, with reserved tokens or out of a shopping
    balance, from placement to completion, cancellation or refund, with disputes
    between buyer and seller and a queue of timeouts. The functions of lib.rs and
    dispute.rs are definitions of their names; the theorems are in OrderRules.v and
    the files after it. *)

From S2P Require Import Prelude Frame EntityPorts.

(** * Types shared by the entity pallets (src/pallets/entity/common/src/types) *)

Inductive PaymentAsset : Type := Native | EntityToken | ShoppingBalance.

Inductive ProductStatus : Type := Draft | OnSale | SoldOut | OffShelf.

Inductive ProductVisibility : Type := Public | MembersOnly | LevelGated (level : Z).

Inductive ProductCategory : Type := Digital | Physical | Service | Subscription | Bundle | Other.

Inductive OrderStatus : Type :=
| Created | Paid | Shipped | Completed | Cancelled | Disputed | Refunded | Expired | Processing
| AwaitingConfirmation | PartiallyRefunded.

#[export] Instance payment_asset_eq_dec : EqDecision PaymentAsset.
Proof. solve_decision. Defined.
#[export] Instance product_status_eq_dec : EqDecision ProductStatus.
Proof. solve_decision. Defined.
#[export] Instance product_visibility_eq_dec : EqDecision ProductVisibility.
Proof. solve_decision. Defined.
#[export] Instance product_category_eq_dec : EqDecision ProductCategory.
Proof. solve_decision. Defined.
#[export] Instance order_status_eq_dec : EqDecision OrderStatus.
Proof. solve_decision. Defined.

Record PaymentConfig : Type := mkPaymentConfig { native_enabled : bool; token_enabled : bool }.

Record ProductQueryInfo : Type := mkProduct {
  pi_shop_id : Z;
  usdt_price : Z;
  stock : Z;
  pi_status : ProductStatus;
  category : ProductCategory;
  visibility : ProductVisibility;
  min_order_quantity : Z;
  max_order_quantity : Z;
}.

Record OrderCompletionInfo : Type := mkCompletion {
  ci_order_id : Z; ci_entity_id : Z; ci_shop_id : Z; ci_product_id : Z;
  ci_buyer : AccountId; ci_seller : AccountId; ci_payer : option AccountId;
  ci_quantity : Z; ci_payment_asset : PaymentAsset;
  nex_total_amount : Z; nex_platform_fee : Z; nex_seller_received : Z; nex_reserved_for_commission : Z;
  ci_token_payment_amount : Z; token_platform_fee : Z; ci_token_seller_received : Z; token_platform_fee_paid : bool;
  referrer : option AccountId; amount_usdt : Z; ci_product_category : ProductCategory; ci_shopping_balance_used : Z;
}.

Record OrderCancellationInfo : Type := mkCancellation {
  xi_order_id : Z; xi_entity_id : Z; xi_shop_id : Z; xi_payment_asset : PaymentAsset;
}.

(** * What the pallet asks of others

    The escrow, and everything else: shops, products, the registry, loyalty, members,
    prices, the token fee, the currency, hooks, notices and chat; [X] is the state
    behind them all. The token ledger is [EntityTokens X]. A fallible operation says
    whether it succeeded and what it left, since a hook does not undo what a failed
    call has written. *)
Class EscrowPort (X : Type) : Type := {
  (** The amount locked for an identifier and whether a dispute freezes it, which only
      the laws mention. *)
  escrow_amount (id : Z) (x : X) : Z;
  escrow_frozen (id : Z) (x : X) : bool;
  escrow_lock_from (payer : AccountId) (id amount : Z) (x : X) : bool * X;
  escrow_transfer (id : Z) (to : AccountId) (amount : Z) (x : X) : bool * X;
  escrow_refund_all (id : Z) (to : AccountId) (x : X) : bool * X;
  escrow_split_partial (id : Z) (release_to refund_to : AccountId) (bps : Z) (x : X) : bool * X;
  escrow_set_disputed (now id : Z) (x : X) : bool * X;
  escrow_set_resolved (id : Z) (x : X) : bool * X;
}.

Class OrderWorld (X : Type) : Type := {
  (** [ShopProvider] *)
  shop_exists (shop : Z) (x : X) : bool;
  is_shop_active (shop : Z) (x : X) : bool;
  shop_owner (shop : Z) (x : X) : option AccountId;
  shop_entity_id (shop : Z) (x : X) : option Z;
  (** [ProductProvider] *)
  get_product_info (product : Z) (x : X) : option ProductQueryInfo;
  deduct_stock (product quantity : Z) (x : X) : bool * X;
  add_sold_count (product quantity : Z) (x : X) : bool * X;
  restore_stock (product quantity : Z) (x : X) : bool * X;
  (** [EntityProvider] *)
  payment_config (entity : Z) (x : X) : PaymentConfig;
  (** [LoyaltyWritePort] *)
  loyalty_token_enabled (entity : Z) (x : X) : bool;
  shopping_balance (entity : Z) (who : AccountId) (x : X) : Z;
  redeem_for_discount (entity : Z) (who : AccountId) (tokens : Z) (x : X) : option Z * X;
  consume_shopping_balance (entity : Z) (who : AccountId) (amount : Z) (x : X) : bool * X;
  rollback_shopping_balance (entity : Z) (who : AccountId) (amount : Z) (x : X) : bool * X;
  rollback_token_discount (entity : Z) (who : AccountId) (tokens : Z) (x : X) : bool * X;
  (** [MemberProvider] *)
  is_member (entity : Z) (who : AccountId) (x : X) : bool;
  is_banned (entity : Z) (who : AccountId) (x : X) : bool;
  requires_referral (entity : Z) (x : X) : bool;
  get_referrer (entity : Z) (who : AccountId) (x : X) : option AccountId;
  auto_register (entity : Z) (who : AccountId) (by_ : option AccountId) (x : X) : X;
  get_effective_level (entity : Z) (who : AccountId) (x : X) : Z;
  get_level_discount (entity level : Z) (x : X) : Z;
  (** [PricingProvider] and [EntityTokenPriceProvider] *)
  nex_usdt_price (x : X) : Z;
  is_price_stale (x : X) : bool;
  get_token_price (entity : Z) (x : X) : option Z;
  is_token_price_reliable (entity : Z) (x : X) : bool;
  (** [TokenFeeConfigPort] *)
  token_platform_fee_rate (entity : Z) (x : X) : Z;
  entity_account (entity : Z) (x : X) : AccountId;
  (** [Currency] *)
  currency_free (who : AccountId) (x : X) : Z;
  existential_deposit : Z;
  currency_reserve (who : AccountId) (amount : Z) (x : X) : option X;
  (** hooks, notices, chat *)
  on_completed (info : OrderCompletionInfo) (x : X) : X;
  on_cancelled (info : OrderCancellationInfo) (x : X) : X;
  order_notice (to : AccountId) (notice : bytes) (x : X) : X;
  chat_grant (id : Z) (buyer seller : AccountId) (x : X) : X;
  chat_revoke (id : Z) (buyer seller : AccountId) (x : X) : X;
}.
Arguments existential_deposit X {_}.

Module OrderPallet.

(** * Data and storage *)

Record Order : Type := mkOrder {
  order_id : Z;
  entity_id : Z;
  shop_id : Z;
  product_id : Z;
  buyer : AccountId;
  seller : AccountId;
  payer : option AccountId;
  quantity : Z;
  unit_price : Z;
  total_amount : Z;
  platform_fee : Z;
  usdt_total : Z;
  nex_usdt_rate : Z;
  token_nex_rate : Z;
  product_category : ProductCategory;
  shipping_cid : option bytes;
  tracking_cid : option bytes;
  status : OrderStatus;
  created_at : Z;
  shipped_at : option Z;
  completed_at : option Z;
  service_started_at : option Z;
  service_completed_at : option Z;
  payment_asset : PaymentAsset;
  token_payment_amount : Z;
  confirm_extended : bool;
  dispute_rejected : bool;
  dispute_deadline : option Z;
  note_cid : option bytes;
  refund_reason_cid : option bytes;
  shopping_balance_used : Z;
  token_discount_tokens_burned : Z;
}.

#[export] Instance eta_order : Settable Order := fun o =>
  mkOrder (order_id o) (entity_id o) (shop_id o) (product_id o) (buyer o) (seller o) (payer o) (quantity o)
    (unit_price o) (total_amount o) (platform_fee o) (usdt_total o) (nex_usdt_rate o) (token_nex_rate o)
    (product_category o) (shipping_cid o) (tracking_cid o) (status o) (created_at o) (shipped_at o)
    (completed_at o) (service_started_at o) (service_completed_at o) (payment_asset o) (token_payment_amount o)
    (confirm_extended o) (dispute_rejected o) (dispute_deadline o) (note_cid o) (refund_reason_cid o)
    (shopping_balance_used o) (token_discount_tokens_burned o).

Record OrderStatistics : Type := mkStats {
  total_orders : Z;
  completed_orders : Z;
  total_volume : Z;
  total_platform_fees : Z;
  total_token_volume : Z;
  total_token_platform_fees : Z;
}.

#[export] Instance eta_stats : Settable OrderStatistics := fun st =>
  mkStats (total_orders st) (completed_orders st) (total_volume st) (total_platform_fees st)
    (total_token_volume st) (total_token_platform_fees st).

Inductive OrderOperation : Type :=
| EscrowRefund | StockRestore | CommissionCancel | CommissionComplete | ShopStatsUpdate | TokenReward | MemberUpdate
| AutoComplete | UpgradeRuleCheck | TokenPlatformFee | MemberAutoRegister | LoyaltyRollback.

#[export] Instance order_operation_eq_dec : EqDecision OrderOperation.
Proof. solve_decision. Defined.

Inductive Event : Type :=
| EvOrderCreated (id entity : Z) (buyer_ seller_ : AccountId) (payer_ : option AccountId) (amount : Z)
    (asset : PaymentAsset) (token_amount usdt rate : Z)
| EvOrderShipped (id : Z)
| EvOrderCompleted (id seller_received token_seller_received : Z)
| EvOrderCancelled (id amount token_amount : Z)
| EvOrderRefunded (id amount token_amount : Z)
| EvOrderDisputed (id : Z)
| EvOrderOperationFailed (id : Z) (operation : OrderOperation)
| EvServiceStarted (id : Z)
| EvServiceCompleted (id : Z)
| EvPlatformFeeRateUpdated (old_rate new_rate : Z)
| EvBuyerOrdersCleaned (who : AccountId) (removed : Z)
| EvPayerOrdersCleaned (who : AccountId) (removed : Z)
| EvRefundRejected (id : Z) (reason : bytes)
| EvOrderSellerCancelled (id amount token_amount : Z) (reason : bytes)
| EvOrderForceRefunded (id : Z) (reason : option bytes)
| EvOrderForceCompleted (id : Z) (reason : option bytes)
| EvShippingAddressUpdated (id : Z)
| EvConfirmTimeoutExtended (id new_deadline : Z)
| EvShopOrdersCleaned (shop removed : Z)
| EvTrackingInfoUpdated (id : Z)
| EvOrderSellerRefunded (id amount token_amount : Z) (reason : bytes)
| EvOrderPartialRefunded (id bps : Z) (reason : option bytes)
| EvDisputeWithdrawn (id : Z)
| EvStaleExpirationsProcessed (target processed : Z).

Inductive Error : Type :=
| OrderNotFound | ProductNotFound | ShopNotFound | NotOrderBuyer | NotOrderSeller | InvalidOrderStatus
| CannotCancelOrder | CannotBuyOwnProduct | ProductNotOnSale | InsufficientStock | CidTooLong | Overflow
| DigitalProductCannotCancel | InvalidQuantity | DigitalProductCannotRefund | NotServiceLikeOrder | InvalidAmount
| ExpiryQueueFull | ShippingCidRequired | ServiceLikeOrderCannotShip | EmptyReasonCid | EntityTokenNotEnabled
| InsufficientTokenBalance | EmptyTrackingCid | PlatformFeeRateTooHigh | NothingToClean | NotShopOwner
| AlreadyExtended | CannotForceOrder | QuantityBelowMinimum | QuantityAboveMaximum | ProductMembersOnly
| MemberLevelInsufficient | DisputeAlreadyRejected | BuyerBanned | InvalidRefundBps | PartialRefundNotSupported
| InvalidReferrer | SubscriptionNotSupported | ShopInactive | PayerCannotBeSeller | CrossOrderDigitalOnly
| CrossOrderPublicOnly | NotOrderParticipant | PayerOrdersFull | ReferrerRequired | UsdtPriceNotSet
| NexPriceUnavailable | TokenPriceUnavailable | NexSlippageExceeded | TokenSlippageExceeded
| PaymentChannelDisabled | PayerCannotUseBuyerLoyalty | InsufficientShoppingBalance
(** the error of another pallet, passed on *)
| PortRefused.

Record Config : Type := mkConfig {
  PlatformAccount : AccountId;
  ShipTimeout : Z;
  ConfirmTimeout : Z;
  ServiceConfirmTimeout : Z;
  DisputeTimeout : Z;
  ConfirmExtension : Z;
  MaxCidLength : Z;
  MaxBuyerOrders : Z;
  MaxPayerOrders : Z;
  MaxShopOrders : Z;
  MaxExpiryQueueSize : Z;
}.

Record State {X : Type} : Type := mkState {
  PlatformFeeRate : Z;
  NextOrderId : Z;
  Orders : gmap Z Order;
  BuyerOrders : gmap AccountId (list Z);
  PayerOrders : gmap AccountId (list Z);
  ShopOrders : gmap Z (list Z);
  OrderStats : OrderStatistics;
  ExpiryQueue : gmap Z (list Z);
  OrderReferrer : gmap Z AccountId;
  others : X;
  events : list Event;
}.
Arguments State : clear implicits.

#[export] Instance eta_state {X} : Settable (State X) := fun s =>
  mkState X (PlatformFeeRate s) (NextOrderId s) (Orders s) (BuyerOrders s) (PayerOrders s) (ShopOrders s)
    (OrderStats s) (ExpiryQueue s) (OrderReferrer s) (others s) (events s).

Definition genesis {X} (x : X) : State X :=
  mkState X 100 0 ∅ ∅ ∅ ∅ (mkStats 0 0 0 0 0 0) ∅ ∅ x [].

Definition category_requires_shipping (c : ProductCategory) : bool :=
  match c with Physical | Bundle | Other => true | _ => false end.

Definition is_service_like (c : ProductCategory) : bool :=
  match c with Service | Subscription => true | _ => false end.

Definition fund_account (o : Order) : AccountId := default (buyer o) (payer o).

Definition is_order_participant (o : Order) (who : AccountId) : Prop := buyer o = who \/ payer o = Some who.

#[export] Instance is_order_participant_dec o who : Decision (is_order_participant o who).
Proof. unfold is_order_participant. apply _. Defined.

(** The statuses the cleanups drop from the indexes. *)
Definition cleaned_status (st : OrderStatus) : bool :=
  match st with Completed | Cancelled | Refunded => true | _ => false end.

(** Those root may still force. *)
Definition forceable (st : OrderStatus) : bool :=
  match st with Paid | Shipped | Disputed => true | _ => false end.

Fixpoint digits (fuel : nat) (n : Z) : bytes :=
  match fuel with
  | O => []
  | S fuel' => if decide (n > 0) then digits fuel' (n / 10) ++ [48 + n mod 10] else []
  end.

Definition u64_ascii (n : Z) : bytes := if decide (n = 0) then [48] else digits 20 n.

Definition notice (prefix : bytes) (id : Z) : bytes := prefix ++ u64_ascii id.

Section Pallet.
Context `{FrameSystem} {X : Type} `{EscrowPort X} `{OrderWorld X} `{EntityTokens X} (cfg : Config).
Implicit Types (s : State X).

Abbreviation M_ := (M (State X) (DispatchError Error)).
Abbreviation Call_ := (M (State X) (DispatchError Error) unit).

Definition deposit_event (e : Event) : Call_ := modify (fun s => s <| events ::= fun l => l ++ [e] |>).

Definition signed (origin : Origin) : M_ AccountId := ok_or (ensure_signed origin) BadOrigin.

Definition root (origin : Origin) : Call_ := ensure (ensure_root origin = true) BadOrigin.

Definition ask {A} (q : X -> A) : M_ A := gets (fun s => q (others s)).

(** A call on another pallet: what it wrote stays when it fails. *)
Definition port (op : X -> bool * X) : Call_ :=
  let! r := ask op in
  modify (fun s => s <| others := r.2 |>) >>
  ensure (r.1 = true) (Module PortRefused).

(** The same, for one whose error is handled on the spot. *)
Definition port_try (op : X -> bool * X) : M_ bool :=
  let! r := ask op in
  modify (fun s => s <| others := r.2 |>) >>
  ret r.1.

(** One that returns something. *)
Definition port_val {A} (op : X -> option A * X) : M_ A :=
  let! r := ask op in
  modify (fun s => s <| others := r.2 |>) >>
  ok_or r.1 (Module PortRefused).

(** One that fails without effect. *)
Definition port_opt (op : X -> option X) : Call_ :=
  let! r := ask op in
  let! x := ok_or r (Module PortRefused) in
  modify (fun s => s <| others := x |>).

(** One that cannot fail. *)
Definition tell (op : X -> X) : Call_ := modify (fun s => s <| others ::= op |>).

Definition get_order (id : Z) : M_ Order :=
  let! orders := gets Orders in ok_or (orders !! id) (Module OrderNotFound).

(** [Orders::mutate(id, |o| if let Some(o) = o { .. })]. *)
Definition update_order (id : Z) (f : Order -> Order) : Call_ := modify (fun s => s <| Orders ::= alter f id |>).

Definition bounded_cid (cid : bytes) : Call_ :=
  ensure (Z.of_nat (length cid) <= MaxCidLength cfg) (Module CidTooLong).

Definition later (at_ period : Z) : Z := sat_add u32_max at_ period.

Definition queue (s : State X) (block : Z) : list Z := default [] (ExpiryQueue s !! block).

Definition push_expiry (block id : Z) : Call_ :=
  let! ids := gets (fun s => queue s block) in
  ensure (Z.of_nat (length ids) < MaxExpiryQueueSize cfg) (Module ExpiryQueueFull) >>
  modify (fun s => s <| ExpiryQueue ::= <[block := ids ++ [id]]> |>).

Definition drop_expiry (block id : Z) : Call_ :=
  modify (fun s => s <| ExpiryQueue ::= <[block := filter (fun i => i <> id) (queue s block)]> |>).

Definition validate_reason_cid (cid : bytes) : Call_ :=
  ensure (cid <> []) (Module EmptyReasonCid) >> bounded_cid cid.

Definition validate_optional_reason_cid (cid : option bytes) : Call_ :=
  match cid with Some c => validate_reason_cid c | None => ret tt end.

(** * Ending an order *)

Definition operation_failed (id : Z) (op : OrderOperation) : Call_ := deposit_event (EvOrderOperationFailed id op).

Definition or_event (id : Z) (op : OrderOperation) (m : M_ bool) : Call_ :=
  let! ok := m in if ok : bool then ret tt else operation_failed id op.

Definition rollback_loyalty (o : Order) (id : Z) : Call_ :=
  (if decide (shopping_balance_used o = 0) then ret tt
   else or_event id LoyaltyRollback (port_try (rollback_shopping_balance (entity_id o) (buyer o) (shopping_balance_used o)))) >>
  (if decide (token_discount_tokens_burned o > 0)
   then or_event id LoyaltyRollback (port_try (rollback_token_discount (entity_id o) (buyer o) (token_discount_tokens_burned o)))
   else ret tt).

Definition refund_by_asset (o : Order) (id : Z) : Call_ :=
  match payment_asset o with
  | Native => port (escrow_refund_all id (fund_account o))
  | ShoppingBalance => ret tt
  | EntityToken => tell (fun x => (token_unreserve (entity_id o) (fund_account o) (token_payment_amount o) x).1)
  end.

Definition notify_order_cancelled (o : Order) (id : Z) : Call_ :=
  tell (on_cancelled (mkCancellation id (entity_id o) (shop_id o) (payment_asset o))).

Definition do_cancel_or_refund (o : Order) (id : Z) (final : OrderStatus) : Call_ :=
  rollback_loyalty o id >>
  refund_by_asset o id >>
  or_event id StockRestore (port_try (restore_stock (product_id o) (quantity o))) >>
  notify_order_cancelled o id >>
  tell (chat_revoke id (buyer o) (seller o)) >>
  update_order id (fun o => o <| status := final |>) >>
  modify (fun s => s <| OrderReferrer ::= delete id |>).

Definition capped (v : Z) : option Z := if decide (v <= u128_max) then Some v else None.

(** For orders that carry no price in USDT. The last conversion is a cast to u64. *)
Definition calculate_amount_usdt (o : Order) (x : X) : Z :=
  if decide (usdt_total o > 0) then usdt_total o
  else match payment_asset o with
       | Native => (Z.min u128_max (total_amount o * nex_usdt_price x) / 1000000000000) mod (u64_max + 1)
       | ShoppingBalance => (Z.min u128_max (shopping_balance_used o * nex_usdt_price x) / 1000000000000) mod (u64_max + 1)
       | EntityToken =>
           if is_token_price_reliable (entity_id o) x then
             match get_token_price (entity_id o) x with
             | Some price =>
                 if decide (nex_usdt_price x > 0) then
                   default 0 (v ← capped (token_payment_amount o * price);
                              w ← capped (v / 1000000000000 * nex_usdt_price x);
                              Some (w / 1000000000000)) mod (u64_max + 1)
                 else 0
             | None => 0
             end
           else 0
       end.

(** The seller is paid, and what may be needed for commissions reserved from it. *)
Definition pay_native (o : Order) (id : Z) : M_ Z :=
  let seller_amount := sat_sub (total_amount o) (platform_fee o) in
  port (escrow_transfer id (seller o) seller_amount) >>
  (if decide (platform_fee o = 0) then ret tt
   else port (escrow_transfer id (PlatformAccount cfg) (platform_fee o))) >>
  let! free := ask (currency_free (seller o)) in
  let target := Z.min seller_amount (sat_sub free (existential_deposit X)) in
  (if decide (target = 0) then ret tt else port_opt (currency_reserve (seller o) target)) >>
  ret target.

(** [false]: the entity did not get its fee, which stays reserved. *)
Definition pay_tokens (o : Order) (id fee : Z) : M_ bool :=
  let repatriate to v :=
    port_opt (fun x => fst <$> token_repatriate (entity_id o) (fund_account o) to v x) in
  repatriate (seller o) (sat_sub (token_payment_amount o) fee) >>
  if decide (fee > 0) then
    let! account := ask (entity_account (entity_id o)) in
    let! paid := attempt (repatriate account fee) in
    match paid with
    | Some _ => ret true
    | None => operation_failed id TokenPlatformFee >> ret false
    end
  else ret true.

Definition token_fee (o : Order) (x : X) : Z :=
  match payment_asset o with
  | Native | ShoppingBalance => 0
  | EntityToken =>
      Z.min u128_max (token_payment_amount o * Z.min (token_platform_fee_rate (entity_id o) x) 10000) / 10000
  end.

Definition count_completion (o : Order) (fee : Z) (st : OrderStatistics) : OrderStatistics :=
  let st := st <| completed_orders ::= fun n => sat_add u64_max n 1 |> in
  match payment_asset o with
  | Native => st <| total_volume ::= fun v => sat_add u128_max v (total_amount o) |>
                 <| total_platform_fees ::= fun v => sat_add u128_max v (platform_fee o) |>
  | ShoppingBalance => st <| total_volume ::= fun v => sat_add u128_max v (shopping_balance_used o) |>
  | EntityToken => st <| total_token_volume ::= fun v => sat_add u128_max v (token_payment_amount o) |>
                      <| total_token_platform_fees ::= fun v => sat_add u128_max v fee |>
  end.

Definition do_complete_order (env : Env) (id : Z) (o : Order) : Call_ :=
  let seller_amount := sat_sub (total_amount o) (platform_fee o) in
  let! fee := ask (token_fee o) in
  let! paid := match payment_asset o with
    | Native => let! reserved := pay_native o id in ret (reserved, true)
    | ShoppingBalance => ret (0, true)
    | EntityToken => let! fee_paid := pay_tokens o id fee in ret (0, fee_paid)
    end in
  let '(nex_reserved, token_fee_paid) := paid in
  update_order id (fun o => o <| status := Completed |> <| completed_at := Some (block_number env) |>) >>
  let! usdt := ask (calculate_amount_usdt o) in
  let! ref := gets (fun s => OrderReferrer s !! id) in
  modify (fun s => s <| OrderReferrer ::= delete id |>) >>
  let token_received := match payment_asset o with
    | EntityToken => sat_sub (token_payment_amount o) fee | _ => 0 end in
  let nex_received := match payment_asset o with Native => seller_amount | _ => 0 end in
  tell (on_completed (mkCompletion id (entity_id o) (shop_id o) (product_id o) (buyer o) (seller o) (payer o)
    (quantity o) (payment_asset o) (total_amount o) (platform_fee o) nex_received nex_reserved
    (token_payment_amount o) fee token_received token_fee_paid ref usdt (product_category o)
    (shopping_balance_used o))) >>
  tell (chat_revoke id (buyer o) (seller o)) >>
  modify (fun s => s <| OrderStats ::= count_completion o fee |>) >>
  deposit_event (EvOrderCompleted id nex_received token_received).

(** * Placing an order *)

(** What the checks of [do_place_order] establish: the product, the seller, the entity,
    the price in USDT after the member's discount and in NEX at the rate of the day. *)
Record Quote : Type := mkQuote {
  q_product : ProductQueryInfo;
  q_seller : AccountId;
  q_entity : Z;
  q_usdt : Z;
  q_rate : Z;
  q_nex : Z;
}.

Definition check_product (product quantity_ : Z) : M_ ProductQueryInfo :=
  ensure (quantity_ > 0) (Module InvalidQuantity) >>
  let! found := ask (get_product_info product) in
  let! p := ok_or found (Module ProductNotFound) in
  ensure (pi_status p = OnSale) (Module ProductNotOnSale) >>
  ensure (usdt_price p > 0) (Module UsdtPriceNotSet) >>
  ensure (min_order_quantity p > 0 -> quantity_ >= min_order_quantity p) (Module QuantityBelowMinimum) >>
  ensure (max_order_quantity p > 0 -> quantity_ <= max_order_quantity p) (Module QuantityAboveMaximum) >>
  ret p.

Definition check_parties (buyer_ actual_payer : AccountId) (shop : Z) (ref : option AccountId) : M_ (AccountId * Z) :=
  let! exists_ := ask (shop_exists shop) in
  ensure (exists_ = true) (Module ShopNotFound) >>
  let! active := ask (is_shop_active shop) in
  ensure (active = true) (Module ShopInactive) >>
  let! owner := ask (shop_owner shop) in
  let! seller_ := ok_or owner (Module ShopNotFound) in
  ensure (seller_ <> buyer_) (Module CannotBuyOwnProduct) >>
  ensure (actual_payer <> seller_) (Module PayerCannotBeSeller) >>
  let! entity_ := ask (shop_entity_id shop) in
  let! entity := ok_or entity_ (Module ShopNotFound) in
  match ref with
  | Some r =>
      ensure (r <> buyer_) (Module InvalidReferrer) >>
      ensure (r <> seller_) (Module InvalidReferrer) >>
      let! known := ask (is_member entity r) in
      ensure (known = true) (Module InvalidReferrer)
  | None => ret tt
  end >>
  let! banned := ask (is_banned entity buyer_) in
  ensure (banned = false) (Module BuyerBanned) >>
  let! required := ask (requires_referral entity) in
  let! on_record := ask (get_referrer entity buyer_) in
  ensure (~ (required = true /\ on_record = None /\ ref = None)) (Module ReferrerRequired) >>
  ret (seller_, entity).

(** A buyer with a referrer becomes a member first; the outcome is not looked at. *)
Definition register_buyer (entity : Z) (buyer_ : AccountId) (v : ProductVisibility) (ref : option AccountId) : Call_ :=
  let! member := ask (is_member entity buyer_) in
  if decide (member = false /\ v <> Public) then
    let! on_record := ask (get_referrer entity buyer_) in
    let effective := match ref with Some r => Some r | None => on_record end in
    match effective with
    | Some _ => tell (auto_register entity buyer_ effective)
    | None => ret tt
    end
  else ret tt.

Definition check_visibility (entity : Z) (buyer_ : AccountId) (level : Z) (v : ProductVisibility) : Call_ :=
  let! member := ask (is_member entity buyer_) in
  match v with
  | Public => ret tt
  | MembersOnly => ensure (member = true) (Module ProductMembersOnly)
  | LevelGated required =>
      ensure (member = true) (Module ProductMembersOnly) >>
      ensure (level >= required) (Module MemberLevelInsufficient)
  end.

(** The discount of the buyer's level, rounded in favour of the shop. *)
Definition discounted (bps total : Z) : Z :=
  if decide (0 < bps < 10000) then sat_sub total (total * bps / 10000) else total.

Definition price_goods (entity : Z) (level total : Z) : M_ (Z * Z * Z) :=
  let! rate := ask nex_usdt_price in
  ensure (rate > 0) (Module NexPriceUnavailable) >>
  let! stale := ask is_price_stale in
  ensure (stale = false) (Module NexPriceUnavailable) >>
  let! bps := ask (get_level_discount entity level) in
  let usdt := if decide (level > 0) then discounted bps total else total in
  let! scaled := ok_or (capped (usdt * 1000000000000)) (Module Overflow) in
  ret (usdt, rate, scaled / rate).

Definition quote (buyer_ actual_payer : AccountId) (product quantity_ : Z) (ref : option AccountId) : M_ Quote :=
  let! p := check_product product quantity_ in
  let! parties := check_parties buyer_ actual_payer (pi_shop_id p) ref in
  let '(seller_, entity) := parties in
  register_buyer entity buyer_ (visibility p) ref >>
  let! level := ask (get_effective_level entity buyer_) in
  check_visibility entity buyer_ level (visibility p) >>
  ensure (stock p > 0 -> stock p >= quantity_) (Module InsufficientStock) >>
  let! total := ok_or (let v := usdt_price p * quantity_ in if decide (v <= u64_max) then Some v else None) (Module Overflow) in
  let! prices := price_goods entity level total in
  let '(usdt, rate, nex) := prices in
  ret (mkQuote p seller_ entity usdt rate nex).

Definition check_channel (entity : Z) (asset : PaymentAsset) (buyer_ : AccountId) (payer_ : option AccountId) : Call_ :=
  let! channels := ask (payment_config entity) in
  match asset with
  | Native => ensure (native_enabled channels = true) (Module PaymentChannelDisabled)
  | EntityToken => ensure (token_enabled channels = true) (Module PaymentChannelDisabled)
  | ShoppingBalance =>
      ensure (native_enabled channels = true) (Module PaymentChannelDisabled) >>
      ensure (payer_ = None \/ payer_ = Some buyer_) (Module PayerCannotUseBuyerLoyalty)
  end.

(** What remains to be paid, what the shopping balance paid, the tokens redeemed. *)
Definition apply_loyalty (q : Quote) (asset : PaymentAsset) (buyer_ : AccountId) (payer_ : option AccountId)
    (use_tokens : option Z) : M_ (Z * Z * Z) :=
  ensure (payer_ <> None -> payer_ <> Some buyer_ -> default 0 use_tokens = 0) (Module PayerCannotUseBuyerLoyalty) >>
  let entity := q_entity q in
  match asset with
  | Native =>
      let tokens := default 0 use_tokens in
      let! enabled := ask (loyalty_token_enabled entity) in
      let! discounted_ := (if decide (tokens <> 0 /\ enabled = true) then
        let! discount := port_val (redeem_for_discount entity buyer_ tokens) in
        ret (sat_sub (q_nex q) discount, tokens)
      else ret (q_nex q, 0)) in
      ensure (discounted_.1 <> 0) (Module InvalidAmount) >>
      ret (discounted_.1, 0, discounted_.2)
  | ShoppingBalance =>
      let! available := ask (shopping_balance entity buyer_) in
      ensure (available >= q_nex q) (Module InsufficientShoppingBalance) >>
      port (consume_shopping_balance entity buyer_ (q_nex q)) >>
      ret (0, q_nex q, 0)
  | EntityToken => ret (q_nex q, 0, 0)
  end.

Definition fee_of (asset : PaymentAsset) (rate amount : Z) : Z :=
  match asset with Native => Z.min u128_max (amount * rate) / 10000 | _ => 0 end.

(** The amount in tokens and the price it was computed with. *)
Definition lock_payment (q : Quote) (asset : PaymentAsset) (actual_payer : AccountId) (id final : Z)
    (max_nex max_token : option Z) : M_ (Z * Z) :=
  let entity := q_entity q in
  match asset with
  | Native =>
      ensure (final <= default final max_nex) (Module NexSlippageExceeded) >>
      port (escrow_lock_from actual_payer id final) >>
      ret (0, 0)
  | ShoppingBalance => ret (0, 0)
  | EntityToken =>
      let! enabled := ask (is_token_enabled entity) in
      ensure (enabled = true) (Module EntityTokenNotEnabled) >>
      let! quoted := ask (get_token_price entity) in
      let! price := ok_or quoted (Module TokenPriceUnavailable) in
      ensure (price > 0) (Module TokenPriceUnavailable) >>
      let! reliable := ask (is_token_price_reliable entity) in
      ensure (reliable = true) (Module TokenPriceUnavailable) >>
      let! scaled := ok_or (capped (final * 1000000000000)) (Module Overflow) in
      let amount := scaled / price in
      ensure (amount <= default amount max_token) (Module TokenSlippageExceeded) >>
      let! held := ask (token_balance entity actual_payer) in
      ensure (held >= amount) (Module InsufficientTokenBalance) >>
      port_opt (token_reserve entity actual_payer amount) >>
      ret (amount, price)
  end.

Definition opt_bounded (cid : option bytes) : Call_ :=
  match cid with Some c => bounded_cid c | None => ret tt end.

(** A [BoundedVec] index. *)
Definition index {K} `{Countable K} (m : gmap K (list Z)) (k : K) : list Z := default [] (m !! k).

Definition index_order (o : Order) : Call_ :=
  let id := order_id o in
  let! mine := gets (fun s => index (BuyerOrders s) (buyer o)) in
  ensure (Z.of_nat (length mine) < MaxBuyerOrders cfg) (Module Overflow) >>
  modify (fun s => s <| BuyerOrders ::= <[buyer o := mine ++ [id]]> |>) >>
  let! sold := gets (fun s => index (ShopOrders s) (shop_id o)) in
  ensure (Z.of_nat (length sold) < MaxShopOrders cfg) (Module Overflow) >>
  modify (fun s => s <| ShopOrders ::= <[shop_id o := sold ++ [id]]> |>) >>
  match payer o with
  | Some p =>
      let! paid := gets (fun s => index (PayerOrders s) p) in
      ensure (Z.of_nat (length paid) < MaxPayerOrders cfg) (Module PayerOrdersFull) >>
      modify (fun s => s <| PayerOrders ::= <[p := paid ++ [id]]> |>)
  | None => ret tt
  end.

Definition new_order (env : Env) (id product : Z) (buyer_ : AccountId) (payer_ : option AccountId) (quantity_ : Z)
    (q : Quote) (asset : PaymentAsset) (shipping note : option bytes) (final fee shopping burned : Z)
    (token : Z * Z) : Order :=
  let digital := bool_decide (category (q_product q) = Digital) in
  mkOrder id (q_entity q) (pi_shop_id (q_product q)) product buyer_ (q_seller q)
    (match payer_ with Some p => if decide (p = buyer_) then None else Some p | None => None end)
    quantity_ (q_nex q / quantity_) final fee (q_usdt q) (q_rate q) token.2 (category (q_product q)) shipping None
    (if digital then Completed else Paid) (block_number env) None
    (if digital then Some (block_number env) else None) None None asset token.1 false false None note None
    shopping burned.

(** Everything before the order gets its identifier: the quote, what remains to be
    paid, the shopping balance used, the tokens redeemed and the fee. *)
Definition prepare_order (buyer_ : AccountId) (payer_ : option AccountId) (product quantity_ : Z)
    (shipping : option bytes) (use_tokens : option Z) (asset : PaymentAsset) (note : option bytes)
    (ref : option AccountId) : M_ (Quote * (Z * Z * Z) * Z) :=
  let! q := quote buyer_ (default buyer_ payer_) product quantity_ ref in
  check_channel (q_entity q) asset buyer_ payer_ >>
  let! amounts := apply_loyalty q asset buyer_ payer_ use_tokens in
  let! rate := gets PlatformFeeRate in
  opt_bounded shipping >>
  opt_bounded note >>
  let cat := category (q_product q) in
  ensure (cat <> Subscription) (Module SubscriptionNotSupported) >>
  ensure (category_requires_shipping cat = true -> shipping <> None) (Module ShippingCidRequired) >>
  ret (q, amounts, fee_of asset rate amounts.1.1).

(** The order is paid for, stored and indexed. *)
Definition record_order (env : Env) (id : Z) (buyer_ : AccountId) (payer_ : option AccountId) (product quantity_ : Z)
    (shipping : option bytes) (asset : PaymentAsset) (note : option bytes) (ref : option AccountId)
    (max_nex max_token : option Z) (prepared : Quote * (Z * Z * Z) * Z) : Call_ :=
  let '(q, (final, shopping, burned), fee) := prepared in
  let! token := lock_payment q asset (default buyer_ payer_) id final max_nex max_token in
  port (deduct_stock product quantity_) >>
  port (add_sold_count product quantity_) >>
  let o := new_order env id product buyer_ payer_ quantity_ q asset shipping note final fee shopping burned token in
  let digital := bool_decide (product_category o = Digital) in
  modify (fun s => s <| Orders ::= <[id := o]> |>) >>
  index_order o >>
  let! next := ok_or (if decide (id + 1 <= u64_max) then Some (id + 1) else None) (Module Overflow) in
  modify (fun s => s <| NextOrderId := next |>) >>
  (if digital then ret tt else push_expiry (later (block_number env) (ShipTimeout cfg)) id) >>
  match ref with Some r => modify (fun s => s <| OrderReferrer ::= <[id := r]> |>) | None => ret tt end >>
  modify (fun s => s <| OrderStats ::= fun st => st <| total_orders ::= fun n => sat_add u64_max n 1 |> |>) >>
  deposit_event (EvOrderCreated id (entity_id o) buyer_ (seller o) (payer o) final asset token.1 (usdt_total o) (nex_usdt_rate o)) >>
  if digital then do_complete_order env id o
  else tell (chat_grant id buyer_ (seller o)).

Definition do_place_order (env : Env) (buyer_ : AccountId) (payer_ : option AccountId) (product quantity_ : Z)
    (shipping : option bytes) (use_tokens : option Z) (asset_ : option PaymentAsset) (note : option bytes)
    (ref : option AccountId) (max_nex max_token : option Z) : Call_ :=
  let asset := default Native asset_ in
  let! prepared := prepare_order buyer_ payer_ product quantity_ shipping use_tokens asset note ref in
  let! id := gets NextOrderId in
  record_order env id buyer_ payer_ product quantity_ shipping asset note ref max_nex max_token prepared.

(** Called by the commission pallet, which drops an error and does not undo it. *)
Definition do_place_order_for_auto_repurchase (env : Env) (buyer_ : AccountId) (product : Z) : M_ Z :=
  let! id := gets NextOrderId in
  do_place_order env buyer_ None product 1 None None (Some ShoppingBalance) None None None None >>
  ret id.

(** Called by the bridge, in a storage layer. *)
Definition do_cross_order (env : Env) (buyer_ payer_ : AccountId) (product quantity_ max_nex : Z)
    (ref : option AccountId) : M_ Z :=
  let! found := ask (get_product_info product) in
  let! p := ok_or found (Module ProductNotFound) in
  ensure (category p = Digital) (Module CrossOrderDigitalOnly) >>
  ensure (visibility p = Public) (Module CrossOrderPublicOnly) >>
  let! id := gets NextOrderId in
  do_place_order env buyer_ (Some payer_) product quantity_ None None (Some Native) None ref (Some max_nex) None >>
  ret id.

(** * Dispatchables *)

Definition place_order (env : Env) (origin : Origin) (product quantity_ : Z) (shipping : option bytes)
    (use_tokens : option Z) (asset : option PaymentAsset) (note : option bytes) (ref : option AccountId)
    (max_nex max_token : option Z) : Call_ :=
  let! who := signed origin in
  do_place_order env who None product quantity_ shipping use_tokens asset note ref max_nex max_token.

Definition place_order_for (env : Env) (origin : Origin) (buyer_ : AccountId) (product quantity_ : Z)
    (shipping : option bytes) (use_tokens : option Z) (asset : option PaymentAsset) (note : option bytes)
    (ref : option AccountId) (max_nex max_token : option Z) : Call_ :=
  let! who := signed origin in
  do_place_order env buyer_ (Some who) product quantity_ shipping use_tokens asset note ref max_nex max_token.

Definition cancel_order (origin : Origin) (id : Z) : Call_ :=
  let! who := signed origin in
  let! o := get_order id in
  ensure (is_order_participant o who) (Module NotOrderParticipant) >>
  ensure (product_category o <> Digital) (Module DigitalProductCannotCancel) >>
  ensure (status o = Paid) (Module CannotCancelOrder) >>
  do_cancel_or_refund o id Cancelled >>
  deposit_event (EvOrderCancelled id (total_amount o) (token_payment_amount o)).

Definition ship_order (env : Env) (origin : Origin) (id : Z) (tracking : bytes) : Call_ :=
  let! who := signed origin in
  let! o := get_order id in
  ensure (seller o = who) (Module NotOrderSeller) >>
  ensure (is_service_like (product_category o) = false) (Module ServiceLikeOrderCannotShip) >>
  ensure (status o = Paid) (Module InvalidOrderStatus) >>
  ensure (tracking <> []) (Module EmptyTrackingCid) >>
  bounded_cid tracking >>
  let now := block_number env in
  update_order id (fun o => o <| tracking_cid := Some tracking |> <| status := Shipped |> <| shipped_at := Some now |>) >>
  drop_expiry (later (created_at o) (ShipTimeout cfg)) id >>
  push_expiry (later now (ConfirmTimeout cfg)) id >>
  deposit_event (EvOrderShipped id) >>
  tell (order_notice (buyer o) (notice (literal "order:shipped:") id)).

Definition confirm_receipt (env : Env) (origin : Origin) (id : Z) : Call_ :=
  let! who := signed origin in
  let! o := get_order id in
  ensure (buyer o = who) (Module NotOrderBuyer) >>
  ensure (is_service_like (product_category o) = false) (Module ServiceLikeOrderCannotShip) >>
  ensure (status o = Shipped) (Module InvalidOrderStatus) >>
  do_complete_order env id o >>
  tell (order_notice (seller o) (notice (literal "order:confirmed:") id)).

Definition start_service (env : Env) (origin : Origin) (id : Z) : Call_ :=
  let! who := signed origin in
  let! o := get_order id in
  ensure (seller o = who) (Module NotOrderSeller) >>
  ensure (is_service_like (product_category o) = true) (Module NotServiceLikeOrder) >>
  ensure (status o = Paid) (Module InvalidOrderStatus) >>
  let now := block_number env in
  update_order id (fun o => o <| status := Shipped |> <| service_started_at := Some now |>) >>
  drop_expiry (later (created_at o) (ShipTimeout cfg)) id >>
  push_expiry (later now (ServiceConfirmTimeout cfg)) id >>
  deposit_event (EvServiceStarted id).

Definition complete_service (env : Env) (origin : Origin) (id : Z) : Call_ :=
  let! who := signed origin in
  let! o := get_order id in
  ensure (seller o = who) (Module NotOrderSeller) >>
  ensure (is_service_like (product_category o) = true) (Module NotServiceLikeOrder) >>
  ensure (status o = Shipped) (Module InvalidOrderStatus) >>
  ensure (service_completed_at o = None) (Module InvalidOrderStatus) >>
  let now := block_number env in
  update_order id (fun o => o <| service_completed_at := Some now |>) >>
  match service_started_at o with
  | Some started => drop_expiry (later started (ServiceConfirmTimeout cfg)) id
  | None => ret tt
  end >>
  push_expiry (later now (ServiceConfirmTimeout cfg)) id >>
  deposit_event (EvServiceCompleted id).

Definition confirm_service (env : Env) (origin : Origin) (id : Z) : Call_ :=
  let! who := signed origin in
  let! o := get_order id in
  ensure (buyer o = who) (Module NotOrderBuyer) >>
  ensure (is_service_like (product_category o) = true) (Module NotServiceLikeOrder) >>
  ensure (status o = Shipped) (Module InvalidOrderStatus) >>
  ensure (service_completed_at o <> None) (Module InvalidOrderStatus) >>
  do_complete_order env id o.

Definition set_platform_fee_rate (origin : Origin) (rate : Z) : Call_ :=
  root origin >>
  ensure (rate <= 1000) (Module PlatformFeeRateTooHigh) >>
  let! old := gets PlatformFeeRate in
  modify (fun s => s <| PlatformFeeRate := rate |>) >>
  deposit_event (EvPlatformFeeRateUpdated old rate).

(** What a cleanup keeps of an index: the orders that exist and have not ended. *)
Definition keep_order (s : State X) (id : Z) : Prop :=
  match Orders s !! id with Some o => cleaned_status (status o) = false | None => False end.

#[export] Instance keep_order_dec s id : Decision (keep_order s id).
Proof. unfold keep_order. destruct (Orders s !! id); apply _. Defined.

(** The index with what is kept, and how many went. *)
Definition cleaned (s : State X) (ids : list Z) : list Z * Z :=
  let kept := filter (keep_order s) ids in
  (kept, sat_sub (Z.of_nat (length ids)) (Z.of_nat (length kept))).

Definition cleanup_buyer_orders (origin : Origin) : Call_ :=
  let! who := signed origin in
  let! r := gets (fun s => cleaned s (index (BuyerOrders s) who)) in
  ensure (r.2 > 0) (Module NothingToClean) >>
  modify (fun s => s <| BuyerOrders ::= <[who := r.1]> |>) >>
  deposit_event (EvBuyerOrdersCleaned who r.2).

Definition cleanup_payer_orders (origin : Origin) : Call_ :=
  let! who := signed origin in
  let! r := gets (fun s => cleaned s (index (PayerOrders s) who)) in
  ensure (r.2 > 0) (Module NothingToClean) >>
  modify (fun s => s <| PayerOrders ::= <[who := r.1]> |>) >>
  deposit_event (EvPayerOrdersCleaned who r.2).

Definition cleanup_shop_orders (origin : Origin) (shop : Z) : Call_ :=
  let! who := signed origin in
  let! owner_ := ask (shop_owner shop) in
  let! owner := ok_or owner_ (Module ShopNotFound) in
  ensure (owner = who) (Module NotShopOwner) >>
  let! r := gets (fun s => cleaned s (index (ShopOrders s) shop)) in
  ensure (r.2 > 0) (Module NothingToClean) >>
  modify (fun s => s <| ShopOrders ::= <[shop := r.1]> |>) >>
  deposit_event (EvShopOrdersCleaned shop r.2).

Definition seller_cancel_order (origin : Origin) (id : Z) (reason : bytes) : Call_ :=
  let! who := signed origin in
  validate_reason_cid reason >>
  let! o := get_order id in
  ensure (seller o = who) (Module NotOrderSeller) >>
  ensure (product_category o <> Digital) (Module DigitalProductCannotCancel) >>
  ensure (status o = Paid) (Module CannotCancelOrder) >>
  do_cancel_or_refund o id Cancelled >>
  deposit_event (EvOrderSellerCancelled id (total_amount o) (token_payment_amount o) reason).

Definition seller_refund_order (origin : Origin) (id : Z) (reason : bytes) : Call_ :=
  let! who := signed origin in
  validate_reason_cid reason >>
  let! o := get_order id in
  ensure (seller o = who) (Module NotOrderSeller) >>
  ensure (product_category o <> Digital) (Module DigitalProductCannotCancel) >>
  ensure (status o = Shipped) (Module InvalidOrderStatus) >>
  do_cancel_or_refund o id Refunded >>
  deposit_event (EvOrderSellerRefunded id (total_amount o) (token_payment_amount o) reason).

Definition update_shipping_address (origin : Origin) (id : Z) (cid : bytes) : Call_ :=
  let! who := signed origin in
  ensure (cid <> []) (Module ShippingCidRequired) >>
  bounded_cid cid >>
  let! o := get_order id in
  ensure (buyer o = who) (Module NotOrderBuyer) >>
  ensure (status o = Paid) (Module InvalidOrderStatus) >>
  ensure (category_requires_shipping (product_category o) = true) (Module ServiceLikeOrderCannotShip) >>
  update_order id (fun o => o <| shipping_cid := Some cid |>) >>
  deposit_event (EvShippingAddressUpdated id).

Definition update_tracking (origin : Origin) (id : Z) (cid : bytes) : Call_ :=
  let! who := signed origin in
  ensure (cid <> []) (Module EmptyTrackingCid) >>
  bounded_cid cid >>
  let! o := get_order id in
  ensure (seller o = who) (Module NotOrderSeller) >>
  ensure (status o = Shipped) (Module InvalidOrderStatus) >>
  update_order id (fun o => o <| tracking_cid := Some cid |>) >>
  deposit_event (EvTrackingInfoUpdated id).

Definition extend_confirm_timeout (env : Env) (origin : Origin) (id : Z) : Call_ :=
  let! who := signed origin in
  let new_deadline := later (block_number env) (ConfirmExtension cfg) in
  let! o := get_order id in
  ensure (buyer o = who) (Module NotOrderBuyer) >>
  ensure (is_service_like (product_category o) = false) (Module ServiceLikeOrderCannotShip) >>
  ensure (status o = Shipped) (Module InvalidOrderStatus) >>
  ensure (confirm_extended o = false) (Module AlreadyExtended) >>
  update_order id (fun o => o <| confirm_extended := true |>) >>
  match shipped_at o with
  | Some shipped => drop_expiry (later shipped (ConfirmTimeout cfg)) id
  | None => ret tt
  end >>
  push_expiry new_deadline id >>
  deposit_event (EvConfirmTimeoutExtended id new_deadline).

(** * Disputes (dispute.rs) *)

Definition do_request_refund (env : Env) (who : AccountId) (id : Z) (reason : bytes) : Call_ :=
  validate_reason_cid reason >>
  let expiry := later (block_number env) (DisputeTimeout cfg) in
  let! o := get_order id in
  ensure (is_order_participant o who) (Module NotOrderParticipant) >>
  ensure (product_category o <> Digital) (Module DigitalProductCannotRefund) >>
  ensure (status o = Paid \/ status o = Shipped) (Module InvalidOrderStatus) >>
  update_order id (fun o => o <| status := Disputed |> <| refund_reason_cid := Some reason |>
                              <| dispute_deadline := Some expiry |>) >>
  push_expiry expiry id >>
  (if decide (payment_asset o = Native) then port (escrow_set_disputed (block_number env) id) else ret tt) >>
  deposit_event (EvOrderDisputed id).

Definition unfreeze (o : Order) (id : Z) : Call_ :=
  if decide (payment_asset o = Native) then port (escrow_set_resolved id) else ret tt.

Definition do_approve_refund (who : AccountId) (id : Z) : Call_ :=
  let! o := get_order id in
  ensure (seller o = who) (Module NotOrderSeller) >>
  ensure (status o = Disputed) (Module InvalidOrderStatus) >>
  unfreeze o id >>
  do_cancel_or_refund o id Refunded >>
  deposit_event (EvOrderRefunded id (total_amount o) (token_payment_amount o)).

Definition do_reject_refund (env : Env) (who : AccountId) (id : Z) (reason : bytes) : Call_ :=
  validate_reason_cid reason >>
  let! o := get_order id in
  ensure (seller o = who) (Module NotOrderSeller) >>
  ensure (status o = Disputed) (Module InvalidOrderStatus) >>
  ensure (dispute_rejected o = false) (Module DisputeAlreadyRejected) >>
  let expiry := later (block_number env) (DisputeTimeout cfg) in
  match dispute_deadline o with Some old => drop_expiry old id | None => ret tt end >>
  push_expiry expiry id >>
  update_order id (fun o => o <| dispute_rejected := true |> <| dispute_deadline := Some expiry |>) >>
  deposit_event (EvRefundRejected id reason).

Definition unfreeze_disputed (o : Order) (id : Z) : Call_ :=
  if decide (status o = Disputed /\ payment_asset o = Native) then port (escrow_set_resolved id) else ret tt.

Definition do_force_refund (id : Z) (reason : option bytes) : Call_ :=
  validate_optional_reason_cid reason >>
  let! o := get_order id in
  ensure (forceable (status o) = true) (Module CannotForceOrder) >>
  unfreeze_disputed o id >>
  do_cancel_or_refund o id Refunded >>
  deposit_event (EvOrderForceRefunded id reason) >>
  deposit_event (EvOrderRefunded id (total_amount o) (token_payment_amount o)).

Definition do_force_complete (env : Env) (id : Z) (reason : option bytes) : Call_ :=
  validate_optional_reason_cid reason >>
  let! o := get_order id in
  ensure (forceable (status o) = true) (Module CannotForceOrder) >>
  unfreeze_disputed o id >>
  do_complete_order env id o >>
  deposit_event (EvOrderForceCompleted id reason).

Definition do_force_partial_refund (id bps : Z) (reason : option bytes) : Call_ :=
  ensure (1 <= bps <= 9999) (Module InvalidRefundBps) >>
  validate_optional_reason_cid reason >>
  let! o := get_order id in
  ensure (payment_asset o = Native) (Module PartialRefundNotSupported) >>
  ensure (forceable (status o) = true) (Module CannotForceOrder) >>
  (if decide (status o = Disputed) then port (escrow_set_resolved id) else ret tt) >>
  rollback_loyalty o id >>
  port (escrow_split_partial id (seller o) (fund_account o) (sat_sub 10000 bps)) >>
  notify_order_cancelled o id >>
  update_order id (fun o => o <| status := PartiallyRefunded |>) >>
  modify (fun s => s <| OrderReferrer ::= delete id |>) >>
  deposit_event (EvOrderPartialRefunded id bps reason).

(** The status a withdrawn dispute returns to, and how long it may stay there. *)
Definition restored_status (o : Order) : OrderStatus := match shipped_at o with Some _ => Shipped | None => Paid end.

Definition restored_timeout (o : Order) : Z :=
  match shipped_at o with
  | Some _ => if is_service_like (product_category o) then ServiceConfirmTimeout cfg else ConfirmTimeout cfg
  | None => ShipTimeout cfg
  end.

Definition do_withdraw_dispute (env : Env) (who : AccountId) (id : Z) : Call_ :=
  let! o := get_order id in
  ensure (is_order_participant o who) (Module NotOrderParticipant) >>
  ensure (status o = Disputed) (Module InvalidOrderStatus) >>
  ensure (dispute_rejected o = false) (Module DisputeAlreadyRejected) >>
  unfreeze o id >>
  match dispute_deadline o with Some d => drop_expiry d id | None => ret tt end >>
  push_expiry (later (block_number env) (restored_timeout o)) id >>
  update_order id (fun o' => o' <| status := restored_status o |> <| dispute_deadline := None |>
                               <| dispute_rejected := false |> <| refund_reason_cid := None |>) >>
  deposit_event (EvDisputeWithdrawn id).

(** * Timeouts *)

Definition do_auto_refund (o : Order) (id : Z) : M_ bool :=
  let! done := attempt (do_cancel_or_refund o id Refunded) in
  match done with
  | Some _ => deposit_event (EvOrderRefunded id (total_amount o) (token_payment_amount o)) >> ret true
  | None => operation_failed id EscrowRefund >> ret false
  end.

(** What happens to one order of the queue: [true] when it was ended. *)
Definition expire_order (env : Env) (id : Z) (o : Order) : M_ bool :=
  let now := block_number env in
  match status o with
  | Paid => do_auto_refund o id
  | Shipped =>
      if decide (is_service_like (product_category o) = true /\ service_completed_at o = None) then
        match service_started_at o with
        | Some started =>
            if decide (now >= later started (ServiceConfirmTimeout cfg)) then do_auto_refund o id else ret false
        | None => ret false
        end
      else
        let! done := attempt (do_complete_order env id o) in
        match done with
        | Some _ => ret true
        | None => operation_failed id AutoComplete >> ret false
        end
  | Disputed =>
      match dispute_deadline o with
      | Some d =>
          if decide (now >= d) then
            (if decide (payment_asset o = Native)
             then let! _ := port_try (escrow_set_resolved id) in ret tt else ret tt) >>
            do_auto_refund o id
          else ret false
      | None => ret false
      end
  | _ => ret false
  end.

(** The orders of the queue one after the other, until [max_count] were ended; the
    number ended, and those not looked at. *)
Fixpoint expire_each (env : Env) (max_count : Z) (ids : list Z) (processed : Z) : M_ (Z * list Z) :=
  match ids with
  | [] => ret (processed, [])
  | id :: rest =>
      if decide (processed >= max_count) then ret (processed, ids)
      else
        let! orders := gets Orders in
        let! ended := match orders !! id with Some o => expire_order env id o | None => ret false end in
        expire_each env max_count rest (if ended : bool then processed + 1 else processed)
  end.

(** Computation time and proof size. *)
Definition Weight : Type := Z * Z.

Definition process_expired_orders (env : Env) (target max_count : Z) : M_ Weight :=
  let! ids := gets (fun s => queue s target) in
  if decide (ids = []) then ret (5000, 64)
  else
    let! r := expire_each env max_count ids 0 in
    let '(processed, rest) := r in
    (if decide (rest = []) then modify (fun s => s <| ExpiryQueue ::= delete target |>)
     else modify (fun s => s <| ExpiryQueue ::= <[target := rest]> |>)) >>
    let skipped := sat_sub (Z.of_nat (length ids) - Z.of_nat (length rest)) processed in
    ret (50000000 + 200000000 * processed + 25000000 * skipped, 4000 + 8000 * processed + 2000 * skipped).

Definition on_idle (env : Env) (remaining : Weight) : M_ Weight :=
  if decide (remaining.1 < 200000000 + 50000000) then ret (0, 0)
  else process_expired_orders env (block_number env) (Z.min (remaining.1 / 200000000) 20).

Definition force_process_expirations (env : Env) (origin : Origin) (target : Z) : Call_ :=
  root origin >>
  let! _ := process_expired_orders env target 500 in
  let! remaining := gets (fun s => Z.of_nat (length (queue s target))) in
  deposit_event (EvStaleExpirationsProcessed target (sat_sub 500 remaining)).

(** * All calls *)

Inductive Call : Type :=
| CPlace (product quantity_ : Z) (shipping : option bytes) (use_tokens : option Z) (asset : option PaymentAsset)
    (note : option bytes) (ref : option AccountId) (max_nex max_token : option Z)
| CCancel (id : Z)
| CShip (id : Z) (tracking : bytes)
| CConfirmReceipt (id : Z)
| CRequestRefund (id : Z) (reason : bytes)
| CApproveRefund (id : Z)
| CStartService (id : Z)
| CCompleteService (id : Z)
| CConfirmService (id : Z)
| CSetFeeRate (rate : Z)
| CCleanupBuyer
| CRejectRefund (id : Z) (reason : bytes)
| CSellerCancel (id : Z) (reason : bytes)
| CForceRefund (id : Z) (reason : option bytes)
| CForceComplete (id : Z) (reason : option bytes)
| CUpdateAddress (id : Z) (cid : bytes)
| CExtend (id : Z)
| CCleanupShop (shop : Z)
| CUpdateTracking (id : Z) (cid : bytes)
| CSellerRefund (id : Z) (reason : bytes)
| CForcePartial (id bps : Z) (reason : option bytes)
| CWithdrawDispute (id : Z)
| CForceExpirations (target : Z)
| CPlaceFor (buyer_ : AccountId) (product quantity_ : Z) (shipping : option bytes) (use_tokens : option Z)
    (asset : option PaymentAsset) (note : option bytes) (ref : option AccountId) (max_nex max_token : option Z)
| CCleanupPayer.

Definition apply_call (env : Env) (origin : Origin) (c : Call) : Call_ :=
  match c with
  | CPlace p q sh t a n r mn mt => place_order env origin p q sh t a n r mn mt
  | CCancel id => cancel_order origin id
  | CShip id tr => ship_order env origin id tr
  | CConfirmReceipt id => confirm_receipt env origin id
  | CRequestRefund id r => let! who := signed origin in do_request_refund env who id r
  | CApproveRefund id => let! who := signed origin in do_approve_refund who id
  | CStartService id => start_service env origin id
  | CCompleteService id => complete_service env origin id
  | CConfirmService id => confirm_service env origin id
  | CSetFeeRate rate => set_platform_fee_rate origin rate
  | CCleanupBuyer => cleanup_buyer_orders origin
  | CRejectRefund id r => let! who := signed origin in do_reject_refund env who id r
  | CSellerCancel id r => seller_cancel_order origin id r
  | CForceRefund id r => root origin >> do_force_refund id r
  | CForceComplete id r => root origin >> do_force_complete env id r
  | CUpdateAddress id cid => update_shipping_address origin id cid
  | CExtend id => extend_confirm_timeout env origin id
  | CCleanupShop shop => cleanup_shop_orders origin shop
  | CUpdateTracking id cid => update_tracking origin id cid
  | CSellerRefund id r => seller_refund_order origin id r
  | CForcePartial id bps r => root origin >> do_force_partial_refund id bps r
  | CWithdrawDispute id => let! who := signed origin in do_withdraw_dispute env who id
  | CForceExpirations target => force_process_expirations env origin target
  | CPlaceFor b p q sh t a n r mn mt => place_order_for env origin b p q sh t a n r mn mt
  | CCleanupPayer => cleanup_payer_orders origin
  end.

Definition dispatch (env : Env) (origin : Origin) (c : Call) : Call_ := transactional (apply_call env origin c).

(** What other pallets call: the commission pallet without a storage layer, the
    bridge within one. *)
Inductive PortCall : Type :=
| PAutoRepurchase (buyer_ : AccountId) (product : Z)
| PCrossOrder (buyer_ payer_ : AccountId) (product quantity_ max_nex : Z) (ref : option AccountId).

Definition port_call (env : Env) (c : PortCall) : M_ Z :=
  match c with
  | PAutoRepurchase b p => do_place_order_for_auto_repurchase env b p
  | PCrossOrder b py p q m r => transactional (do_cross_order env b py p q m r)
  end.
End Pallet.

(** * [OrderProvider] *)

Section Provider.
Context {X : Type}.
Implicit Types (s : State X) (id : Z).

Definition order_exists s id : bool := bool_decide (is_Some (Orders s !! id)).
Definition order_buyer s id : option AccountId := buyer <$> Orders s !! id.
Definition order_seller s id : option AccountId := seller <$> Orders s !! id.
Definition order_amount s id : option Z := total_amount <$> Orders s !! id.
Definition order_shop_id s id : option Z := shop_id <$> Orders s !! id.
Definition order_status s id : option OrderStatus := status <$> Orders s !! id.
Definition is_order_completed s id : bool := bool_decide (order_status s id = Some Completed).
Definition is_order_disputed s id : bool := bool_decide (order_status s id = Some Disputed).
Definition order_token_amount s id : option Z := token_payment_amount <$> Orders s !! id.
Definition order_payment_asset s id : option PaymentAsset := payment_asset <$> Orders s !! id.
Definition order_completed_at s id : option Z := Orders s !! id ≫= completed_at.
Definition order_entity_id s id : option Z := entity_id <$> Orders s !! id.
Definition order_product_id s id : option Z := product_id <$> Orders s !! id.
Definition order_quantity s id : option Z := quantity <$> Orders s !! id.
Definition order_created_at s id : option Z := created_at <$> Orders s !! id.
Definition order_paid_at s id : option Z := created_at <$> Orders s !! id.
Definition order_shipped_at s id : option Z := Orders s !! id ≫= shipped_at.
Definition order_payer s id : option AccountId := Orders s !! id ≫= payer.
Definition order_fund_account s id : option AccountId := fund_account <$> Orders s !! id.

Definition can_dispute s id (who : AccountId) : bool :=
  match Orders s !! id with
  | Some o => bool_decide (is_order_participant o who /\ (status o = Paid \/ status o = Shipped))
  | None => false
  end.

(** An order that has not ended. *)
Definition is_active (st : OrderStatus) : bool :=
  match st with Completed | Cancelled | Refunded | Expired | PartiallyRefunded => false | _ => true end.

Definition has_active_orders_for_shop s (shop : Z) : bool :=
  existsb (fun id => match Orders s !! id with Some o => is_active (status o) | None => false end)
    (index (ShopOrders s) shop).
End Provider.
End OrderPallet.
