(* ===== verification/OrderRules.v ===== *)
(** The rules of orders: the laws of the escrow and of the other pallets the order
    pallet relies on, what each call does to one order and to the money locked for it,
    and what follows for all runs: orders are well formed and move along their state
    machine, and their money stays in escrow until they end. *)

From S2P Require Import Prelude Frame EntityPorts EntityOrder.

(** * Laws of the ports *)

Definition at_escrow {X} `{EscrowPort X} (id : Z) (x : X) : Z * bool := (escrow_amount id x, escrow_frozen id x).

(** What the escrow promises: each operation concerns one identifier; what a payment
    takes is there and not frozen; a failed payment may lose the entry, since nothing
    is undone. *)
Class EscrowPortLaws (X : Type) `{EscrowPort X} : Prop := {
  lock_elsewhere : forall p id v x j, j <> id -> at_escrow j (escrow_lock_from p id v x).2 = at_escrow j x;
  transfer_elsewhere : forall id to v x j, j <> id -> at_escrow j (escrow_transfer id to v x).2 = at_escrow j x;
  refund_elsewhere : forall id to x j, j <> id -> at_escrow j (escrow_refund_all id to x).2 = at_escrow j x;
  split_elsewhere : forall id a b bps x j, j <> id -> at_escrow j (escrow_split_partial id a b bps x).2 = at_escrow j x;
  disputed_elsewhere : forall now id x j, j <> id -> at_escrow j (escrow_set_disputed now id x).2 = at_escrow j x;
  resolved_elsewhere : forall id x j, j <> id -> at_escrow j (escrow_set_resolved id x).2 = at_escrow j x;
  lock_locks : forall p id v x, (escrow_lock_from p id v x).1 = true -> escrow_amount id x = 0 -> 0 <= v <= u128_max ->
    at_escrow id (escrow_lock_from p id v x).2 = (v, escrow_frozen id x);
  transfer_takes : forall id to v x, (escrow_transfer id to v x).1 = true -> 0 <= v ->
    v <= escrow_amount id x /\ escrow_amount id x <> 0 /\ escrow_frozen id x = false /\
    at_escrow id (escrow_transfer id to v x).2 = (escrow_amount id x - v, false);
  refund_takes : forall id to x, (escrow_refund_all id to x).1 = true ->
    escrow_amount id x <> 0 /\ escrow_frozen id x = false /\ at_escrow id (escrow_refund_all id to x).2 = (0, false);
  split_takes : forall id a b bps x, (escrow_split_partial id a b bps x).1 = true ->
    escrow_amount id x <> 0 /\ escrow_frozen id x = false /\ at_escrow id (escrow_split_partial id a b bps x).2 = (0, false);
  disputed_freezes : forall now id x, (escrow_set_disputed now id x).1 = true ->
    escrow_amount id x <> 0 /\ at_escrow id (escrow_set_disputed now id x).2 = (escrow_amount id x, true);
  resolved_thaws : forall id x, (escrow_set_resolved id x).1 = true ->
    escrow_frozen id x = true /\ at_escrow id (escrow_set_resolved id x).2 = (escrow_amount id x, false);
  resolved_fails : forall id x, (escrow_set_resolved id x).1 = false ->
    at_escrow id (escrow_set_resolved id x).2 = at_escrow id x;
  transfer_fails : forall id to v x, (escrow_transfer id to v x).1 = false -> 0 <= v ->
    escrow_frozen id (escrow_transfer id to v x).2 = escrow_frozen id x /\
    (escrow_amount id (escrow_transfer id to v x).2 = escrow_amount id x \/
     v <= escrow_amount id x /\ escrow_amount id (escrow_transfer id to v x).2 = escrow_amount id x - v);
  refund_fails : forall id to x, (escrow_refund_all id to x).1 = false ->
    escrow_frozen id (escrow_refund_all id to x).2 = escrow_frozen id x /\
    (escrow_amount id (escrow_refund_all id to x).2 = escrow_amount id x \/
     escrow_amount id (escrow_refund_all id to x).2 = 0);
}.

(** Everything else leaves the escrow's books alone. *)
Definition quiet {X} `{EscrowPort X} (x x' : X) : Prop := forall j, at_escrow j x' = at_escrow j x.

Class OrderWorldLaws (X : Type) `{EscrowPort X} `{OrderWorld X} `{EntityTokens X} : Prop := {
  deduct_quiet : forall p n x, quiet x (deduct_stock p n x).2;
  sold_quiet : forall p n x, quiet x (add_sold_count p n x).2;
  restore_quiet : forall p n x, quiet x (restore_stock p n x).2;
  redeem_quiet : forall e w v x, quiet x (redeem_for_discount e w v x).2;
  consume_quiet : forall e w v x, quiet x (consume_shopping_balance e w v x).2;
  rollback_shopping_quiet : forall e w v x, quiet x (rollback_shopping_balance e w v x).2;
  rollback_discount_quiet : forall e w v x, quiet x (rollback_token_discount e w v x).2;
  register_quiet : forall e w b x, quiet x (auto_register e w b x);
  currency_quiet : forall w v x x', currency_reserve w v x = Some x' -> quiet x x';
  completed_quiet : forall i x, quiet x (on_completed i x);
  cancelled_quiet : forall i x, quiet x (on_cancelled i x);
  notice_quiet : forall w n x, quiet x (order_notice w n x);
  grant_quiet : forall id b s x, quiet x (chat_grant id b s x);
  revoke_quiet : forall id b s x, quiet x (chat_revoke id b s x);
  token_reserve_quiet : forall e w v x x', token_reserve e w v x = Some x' -> quiet x x';
  token_unreserve_quiet : forall e w v x, quiet x (token_unreserve e w v x).1;
  token_repatriate_quiet : forall e a b v x x' n, token_repatriate e a b v x = Some (x', n) -> quiet x x';
  redeem_unsigned : forall e w v x d x', redeem_for_discount e w v x = (Some d, x') -> 0 <= d;
}.

Module OrderRules.
Import OrderPallet.

(** * One order and its money *)

(** The failures an automatic completion or refund leaves behind. *)
Definition is_failure (id : Z) (e : Event) : bool :=
  match e with
  | EvOrderOperationFailed j (EscrowRefund | AutoComplete) => bool_decide (j = id)
  | _ => false
  end.

Record View : Type := mkView {
  v_order : option Order;
  v_amount : Z;
  v_frozen : bool;
  v_failed : bool;
}.

Definition failed {X} (id : Z) (s : State X) : bool := existsb (is_failure id) (events s).

Definition view {X} `{EscrowPort X} (id : Z) (s : State X) : View :=
  mkView (Orders s !! id) (escrow_amount id (others s)) (escrow_frozen id (others s)) (failed id s).

(** ** How an order changes *)

Inductive change : Order -> Order -> Prop :=
| ch_address o cid : status o = Paid -> change o (o <| shipping_cid := Some cid |>)
| ch_tracking o cid : status o = Shipped -> change o (o <| tracking_cid := Some cid |>)
| ch_extend o : status o = Shipped -> change o (o <| confirm_extended := true |>)
| ch_served o now : status o = Shipped -> is_service_like (product_category o) = true ->
    change o (o <| service_completed_at := Some now |>)
| ch_reject o d : status o = Disputed -> change o (o <| dispute_rejected := true |> <| dispute_deadline := Some d |>)
| ch_ship o now cid : status o = Paid -> is_service_like (product_category o) = false ->
    change o (o <| tracking_cid := Some cid |> <| status := Shipped |> <| shipped_at := Some now |>)
| ch_start o now : status o = Paid -> is_service_like (product_category o) = true ->
    change o (o <| status := Shipped |> <| service_started_at := Some now |>)
| ch_dispute o reason d : status o = Paid \/ status o = Shipped -> product_category o <> Digital ->
    change o (o <| status := Disputed |> <| refund_reason_cid := Some reason |> <| dispute_deadline := Some d |>)
| ch_withdraw o : status o = Disputed -> dispute_rejected o = false ->
    change o (o <| status := restored_status o |> <| dispute_deadline := None |> <| dispute_rejected := false |>
                <| refund_reason_cid := None |>)
| ch_cancel o : status o = Paid -> change o (o <| status := Cancelled |>)
| ch_refund o : forceable (status o) = true -> change o (o <| status := Refunded |>)
| ch_split o : forceable (status o) = true -> payment_asset o = Native -> change o (o <| status := PartiallyRefunded |>)
| ch_complete o now : forceable (status o) = true ->
    change o (o <| status := Completed |> <| completed_at := Some now |>).

(** What the money does meanwhile: disputes freeze it, and the end takes it out. *)
Definition settles (o o' : Order) (v v' : Z) (f f' : bool) : Prop :=
  match payment_asset o with
  | Native =>
      match status o' with
      | Disputed => v' = v /\ f' = (if decide (status o = Disputed) then f else true)
      | Paid | Shipped => v' = v /\ f' = (if decide (status o = Disputed) then false else f)
      | _ => v <> 0 /\ f' = false /\ (v' = 0 \/ v' = v - sat_sub (total_amount o) (platform_fee o) - platform_fee o /\ 0 <= v')
      end
  | _ => v' = v /\ f' = f
  end.

(** What a failed payment leaves of an amount. *)
Definition shrunk (v v' : Z) : Prop := v' = v \/ v' = 0 \/ 0 <= v' <= v.

Inductive move : View -> View -> Prop :=
| mv_change o o' v v' f f' b : change o o' -> settles o o' v v' f f' ->
    move (mkView (Some o) v f b) (mkView (Some o') v' f' b)
| mv_fail o v v' f f' b : forceable (status o) = true -> (payment_asset o = Native -> shrunk v v') ->
    (payment_asset o <> Native -> v' = v /\ f' = f) ->
    f' = f \/ f' = false -> move (mkView (Some o) v f b) (mkView (Some o) v' f' true).

Section Views.
Context `{FrameSystem} {X : Type} `{EscrowPort X} `{OrderWorld X} `{EntityTokens X}.
Context `{!EscrowPortLaws X, !OrderWorldLaws X} (cfg : Config).
Implicit Types (s : State X).

(** ** What leaves an order's view as it is *)

Lemma view_with_ports j s x : at_escrow j x = at_escrow j (others s) -> view j (s <| others := x |>) = view j s.
Proof. unfold view, failed. simpl. by intros [= -> ->]. Qed.

Lemma framed_port j op : (forall x, at_escrow j (op x).2 = at_escrow j x) -> framed (view j) (port (X:=X) op).
Proof.
  intros Hop. unfold port, ask. intros s r s'. unfold bind, gets, modify.
  intros [-> _]%ensure_inv. apply view_with_ports, Hop.
Qed.

Lemma framed_port_try j op : (forall x, at_escrow j (op x).2 = at_escrow j x) -> framed (view j) (port_try (X:=X) op).
Proof.
  intros Hop. unfold port_try, ask. intros s r s'. unfold bind, gets, modify. intros [= <- <-].
  apply view_with_ports, Hop.
Qed.

Lemma framed_port_val {A} j (op : X -> option A * X) : (forall x, at_escrow j (op x).2 = at_escrow j x) ->
  framed (view j) (port_val (X:=X) op).
Proof.
  intros Hop. unfold port_val, ask. intros s r s'. unfold bind, gets, modify, ok_or.
  destruct ((op (others s)).1); intros [= <- <-]; apply view_with_ports, Hop.
Qed.

Lemma framed_port_opt j op : (forall x x', op x = Some x' -> quiet x x') -> framed (view j) (port_opt (X:=X) op).
Proof.
  intros Hop s r s'. unfold port_opt, ask, bind, gets, ok_or. destruct (op (others s)) as [x' |] eqn:Hx.
  - intros [= <- <-]. by apply view_with_ports, Hop.
  - by intros [= <- <-].
Qed.

Lemma framed_tell j op : (forall x, quiet x (op x)) -> framed (view j) (tell (X:=X) op).
Proof. intros Hop s r s' [= <- <-]. apply view_with_ports, Hop. Qed.

Lemma failed_event j (s : State X) e :
  failed j (s <| events ::= fun l => l ++ [e] |>) = failed j s || is_failure j e.
Proof. unfold failed. simpl. rewrite existsb_app. simpl. by rewrite orb_false_r. Qed.

Lemma framed_event j e : is_failure j e = false -> framed (view j) (deposit_event (X:=X) e).
Proof.
  intros He s r s' [= <- <-]. unfold view. simpl. f_equal. etrans; [apply (failed_event j s e) |]. rewrite He. apply orb_false_r.
Qed.

Lemma framed_operation_failed j id op : (op <> EscrowRefund /\ op <> AutoComplete) \/ j <> id ->
  framed (view j) (operation_failed (X:=X) id op).
Proof.
  intros Hop. apply framed_event. simpl. destruct op; try done; destruct Hop as [[? ?] | ?]; try done;
    by apply bool_decide_eq_false.
Qed.

Lemma framed_update j id f : j <> id -> framed (view j) (update_order (X:=X) id f).
Proof. intros Hj s r s' [= <- <-]. unfold view, failed. simpl. by rewrite lookup_alter_ne. Qed.

Lemma framed_push j block id : framed (view j) (push_expiry (X:=X) cfg block id).
Proof. unfold push_expiry. framed_tac. Qed.

Lemma framed_drop j block id : framed (view j) (drop_expiry (X:=X) block id).
Proof. unfold drop_expiry. framed_tac. Qed.

Lemma framed_get j id : framed (view j) (get_order (X:=X) id).
Proof. unfold get_order. framed_tac. Qed.

Lemma framed_reason j c : framed (view j) (validate_reason_cid (X:=X) cfg c).
Proof. unfold validate_reason_cid, bounded_cid. framed_tac. Qed.

Lemma framed_optional_reason j c : framed (view j) (validate_optional_reason_cid (X:=X) cfg c).
Proof. unfold validate_optional_reason_cid. destruct c; [apply framed_reason | apply framed_ret]. Qed.

Lemma framed_signed j o : framed (view j) (signed (X:=X) o).
Proof. unfold signed. framed_tac. Qed.

Lemma framed_root j o : framed (view j) (root (X:=X) o).
Proof. unfold root. framed_tac. Qed.

End Views.

(** The calls on the escrow are quiet away from their identifier; the others
    everywhere. *)
Ltac port_law :=
  intros; first
    [ by apply deduct_quiet | by apply redeem_quiet | by apply sold_quiet | by apply restore_quiet | by apply consume_quiet
    | by apply rollback_shopping_quiet | by apply rollback_discount_quiet | by apply register_quiet
    | by eapply currency_quiet | by apply completed_quiet | by apply cancelled_quiet | by apply notice_quiet
    | by apply grant_quiet | by apply revoke_quiet | by eapply token_reserve_quiet | by apply token_unreserve_quiet
    | by apply lock_elsewhere | by apply transfer_elsewhere | by apply refund_elsewhere | by apply split_elsewhere
    | by apply disputed_elsewhere | by apply resolved_elsewhere ].

Ltac view_step :=
  first
    [ apply framed_port; port_law | apply framed_port_val; port_law | apply framed_port_try; port_law | apply framed_port_opt; port_law
    | apply framed_tell; port_law
    | apply framed_update; done | apply framed_push | apply framed_drop | apply framed_get | apply framed_reason
    | apply framed_optional_reason | apply framed_signed | apply framed_root
    | apply framed_operation_failed; by auto | apply framed_event; reflexivity
    | framed_step ].
Ltac view_tac := cbv zeta; repeat (view_step; cbv zeta).

Section Rules.
Context `{FrameSystem} {X : Type} `{EscrowPort X} `{OrderWorld X} `{EntityTokens X}.
Context `{!EscrowPortLaws X, !OrderWorldLaws X} (cfg : Config).
Implicit Types (s : State X).

Lemma rollback_view j o id : framed (view j) (rollback_loyalty (X:=X) o id).
Proof. unfold rollback_loyalty, or_event. view_tac. Qed.

Lemma restore_view j o id : framed (view j) (or_event (X:=X) id StockRestore (port_try (restore_stock (product_id o) (quantity o)))).
Proof. unfold or_event. view_tac. Qed.

Lemma notify_view j o id : framed (view j) (notify_order_cancelled (X:=X) o id).
Proof. unfold notify_order_cancelled. view_tac. Qed.

Lemma repatriate_quiet e a b v x x' : fst <$> token_repatriate (T:=X) e a b v x = Some x' -> quiet x x'.
Proof. destruct (token_repatriate e a b v x) as [[x1 n] |] eqn:Hx; [| done]. intros [= <-]. by eapply token_repatriate_quiet. Qed.

Lemma tokens_view j o id fee : framed (view j) (pay_tokens (X:=X) o id fee).
Proof.
  unfold pay_tokens. repeat first [ apply framed_port_opt; intros x x'; apply repatriate_quiet | view_step | progress cbv zeta ].
Qed.

(** ** Away from the order an operation works on, nothing changes *)

Lemma refund_by_asset_elsewhere j o id : j <> id -> framed (view j) (refund_by_asset (X:=X) o id).
Proof. intros. unfold refund_by_asset. view_tac. Qed.

Lemma cancel_elsewhere j o id st : j <> id -> framed (view j) (do_cancel_or_refund (X:=X) o id st).
Proof.
  intros. unfold do_cancel_or_refund.
  repeat first [ apply rollback_view | by apply refund_by_asset_elsewhere | apply restore_view | apply notify_view | view_step ].
Qed.

Lemma native_elsewhere j o id : j <> id -> framed (view j) (pay_native (X:=X) cfg o id).
Proof. intros. unfold pay_native, ask. view_tac. Qed.

Lemma complete_elsewhere j env id o : j <> id -> framed (view j) (do_complete_order (X:=X) cfg env id o).
Proof.
  intros. unfold do_complete_order, ask.
  repeat first [ progress cbv zeta | by apply native_elsewhere | apply tokens_view | view_step ].
Qed.

(** ** What an operation does to its own order *)

Lemma order_port_run op s r s' : port op s = (r, s') ->
  s' = s <| others := (op (others s)).2 |> /\ (r = Ok tt <-> (op (others s)).1 = true).
Proof.
  unfold port, ask, bind, gets, modify. intros [-> Hr]%ensure_inv. split; [done |].
  destruct Hr as [[-> Ht] | [-> Ht]]; split; done.
Qed.

Lemma port_Ok op s u s' : port op s = (Ok u, s') ->
  (op (others s)).1 = true /\ s' = s <| others := (op (others s)).2 |>.
Proof. intros Hr. pose proof (order_port_run _ _ _ _ Hr) as [-> Ht]. destruct u. split; [by apply Ht | done]. Qed.

Lemma port_Err op s e s' : port op s = (Err e, s') ->
  (op (others s)).1 = false /\ s' = s <| others := (op (others s)).2 |>.
Proof.
  intros Hr. pose proof (order_port_run _ _ _ _ Hr) as [-> Ht]. split; [| done].
  destruct ((op (others s)).1); [| done]. destruct Ht as [_ Ht]. specialize (Ht eq_refl). done.
Qed.

(** The money of an order that ends. *)
Definition paid_out (o : Order) (v v' : Z) (f f' : bool) : Prop :=
  match payment_asset o with
  | Native => v <> 0 /\ f = false /\ f' = false /\
      (v' = 0 \/ v' = v - sat_sub (total_amount o) (platform_fee o) - platform_fee o /\ 0 <= v')
  | _ => v' = v /\ f' = f
  end.

(** And of one that failed to end. *)
Definition half_paid (o : Order) (v v' : Z) (f f' : bool) : Prop :=
  match payment_asset o with
  | Native => f' = f /\ shrunk v v'
  | _ => v' = v /\ f' = f
  end.

Lemma at_escrow_view id s x v f : at_escrow id x = (v, f) ->
  view id (s <| others := x |>) = mkView (Orders s !! id) v f (failed id s).
Proof. unfold view, failed. simpl. by intros [= -> ->]. Qed.

Lemma view_eta id s : view id s = mkView (Orders s !! id) (v_amount (view id s)) (v_frozen (view id s)) (v_failed (view id s)).
Proof. done. Qed.

Lemma refund_Ok o id s u s' : refund_by_asset o id s = (Ok u, s') ->
  exists v' f', view id s' = mkView (Orders s !! id) v' f' (failed id s) /\
    paid_out o (v_amount (view id s)) v' (v_frozen (view id s)) f'.
Proof.
  unfold refund_by_asset, paid_out. destruct (payment_asset o).
  - intros [Ht ->]%port_Ok. apply refund_takes in Ht as (? & ? & Hx). exists 0, false.
    rewrite (at_escrow_view _ _ _ _ _ Hx). split; [done |]. auto.
  - intros Hr. eexists _, _. split; [| split; reflexivity]. eapply framed_tell in Hr; [exact Hr | port_law].
  - intros [_ ->]%ret_inv. eexists _, _. split; [done |]. done.
Qed.

Lemma refund_Err o id s e s' : refund_by_asset o id s = (Err e, s') ->
  exists v' f', view id s' = mkView (Orders s !! id) v' f' (failed id s) /\
    half_paid o (v_amount (view id s)) v' (v_frozen (view id s)) f'.
Proof.
  unfold refund_by_asset, half_paid. destruct (payment_asset o); [| done..].
  intros [Ht ->]%port_Err. pose proof (refund_fails _ _ _ Ht) as [Hf Hv].
  eexists _, _. split; [by apply at_escrow_view |]. split; [done |]. simpl. destruct Hv as [-> | ->]; [by left | by right; left].
Qed.

Lemma update_view id f s r s' o : update_order id f s = (r, s') -> Orders s !! id = Some o ->
  view id s' = mkView (Some (f o)) (v_amount (view id s)) (v_frozen (view id s)) (v_failed (view id s)).
Proof. intros [= _ <-] Ho. unfold view, failed. simpl. by rewrite lookup_alter_eq, Ho. Qed.

(** A view tells the order. *)
Lemma view_order id s s' : view id s' = view id s -> Orders s' !! id = Orders s !! id.
Proof. unfold view. by intros [= ? ? ? ?]. Qed.

Lemma cancel_Ok o id st s u s' : do_cancel_or_refund o id st s = (Ok u, s') -> Orders s !! id = Some o ->
  exists v' f', view id s' = mkView (Some (o <| status := st |>)) v' f' (failed id s) /\
    paid_out o (v_amount (view id s)) v' (v_frozen (view id s)) f'.
Proof.
  unfold do_cancel_or_refund. intros (? & s1 & K1 & Hr)%bind_Ok Ho.
  apply rollback_view with (j := id) in K1.
  apply bind_Ok in Hr as (? & s2 & K2 & Hr). apply refund_Ok in K2 as (v' & f' & K2 & Hpaid). rewrite K1 in Hpaid.
  apply bind_Ok in Hr as (? & s3 & K3 & Hr). apply restore_view with (j := id) in K3.
  apply bind_Ok in Hr as (? & s4 & K4 & Hr). apply notify_view with (j := id) in K4.
  apply bind_Ok in Hr as (? & s5 & K5 & Hr). eapply (framed_tell id) in K5; [| port_law].
  apply bind_Ok in Hr as (? & s6 & K6 & Hr). apply modify_inv in Hr as [_ ->].
  assert (view id s5 = view id s2) as K52 by congruence.
  assert (Orders s5 !! id = Some o) as Ho5.
  { rewrite (view_order _ _ _ K52). unfold view in K2. injection K2 as -> _ _ _. by rewrite (view_order _ _ _ K1). }
  eapply update_view in K6; [| exact Ho5]. exists v', f'. split; [| exact Hpaid].
  change (view id s6 = mkView (Some (o <| status := st |>)) v' f' (failed id s)).
  rewrite K6, K52, K2. simpl. f_equal. by injection K1.
Qed.

(** What cannot fail. *)
Ltac total_ops := unfold or_event, operation_failed, port_try, tell, update_order, deposit_event, notify_order_cancelled, ask; total_tac.

Lemma rollback_total o id : total (rollback_loyalty (X:=X) o id).
Proof. unfold rollback_loyalty. total_ops. Qed.

Lemma total_Err {A} (m : M (State X) (DispatchError Error) A) s e s' : total m -> m s = (Err e, s') -> False.
Proof. intros Ht Hm. destruct (Ht s) as (a & s1 & Ha). congruence. Qed.

Lemma cancel_tail_total o id st : total
  (or_event (X:=X) id StockRestore (port_try (restore_stock (product_id o) (quantity o))) >>
   notify_order_cancelled o id >>
   tell (chat_revoke id (buyer o) (seller o)) >>
   update_order id (fun o => o <| status := st |>) >>
   modify (fun s => s <| OrderReferrer ::= delete id |>)).
Proof. total_ops. Qed.

Lemma cancel_Err o id st s e s' : do_cancel_or_refund o id st s = (Err e, s') ->
  exists v' f', view id s' = mkView (Orders s !! id) v' f' (failed id s) /\
    half_paid o (v_amount (view id s)) v' (v_frozen (view id s)) f'.
Proof.
  unfold do_cancel_or_refund. intros [Hr | (? & s1 & K1 & Hr)]%bind_Err; [by apply total_Err in Hr; [| apply rollback_total] |].
  apply (rollback_view id) in K1. apply bind_Err in Hr as [Hr | (? & s2 & _ & Hr)].
  - apply refund_Err in Hr as (v' & f' & Hv & Hp). exists v', f'. rewrite K1 in Hp. split; [| done].
    rewrite Hv. injection K1 as -> _ _ ->. done.
  - by apply total_Err in Hr; [| apply cancel_tail_total].
Qed.

(** ** Completion *)

Lemma port_opt_inv op s r s' : port_opt (X:=X) op s = (r, s') ->
  (exists x, op (others s) = Some x /\ s' = s <| others := x |> /\ r = Ok tt) \/ (s' = s /\ exists e, r = Err e).
Proof.
  unfold port_opt, ask, bind, gets, ok_or. destruct (op (others s)) as [x |]; intros [= <- <-]; [left | right]; eauto.
Qed.

(** The amounts of a transfer out of escrow. *)
Lemma transfer_view id to v s r s' : 0 <= v -> port (escrow_transfer id to v) s = (r, s') ->
  view id s' = mkView (Orders s !! id) (v_amount (view id s')) (v_frozen (view id s')) (failed id s) /\
  match r with
  | Ok _ => v <= v_amount (view id s) /\ v_amount (view id s) <> 0 /\ v_frozen (view id s) = false /\
      v_amount (view id s') = v_amount (view id s) - v /\ v_frozen (view id s') = false
  | Err _ => v_frozen (view id s') = v_frozen (view id s) /\ shrunk (v_amount (view id s)) (v_amount (view id s'))
  end.
Proof.
  intros Hv Hr. destruct r as [u | e].
  - apply port_Ok in Hr as [Ht ->]. destruct (transfer_takes _ _ _ _ Ht Hv) as (? & ? & ? & Hx).
    rewrite (at_escrow_view _ _ _ _ _ Hx). simpl. tauto.
  - apply port_Err in Hr as [Ht ->]. destruct (transfer_fails _ _ _ _ Ht Hv) as [Hf Ha].
    split; [done |]. split; [done |]. simpl. unfold shrunk. destruct Ha as [-> | [? ->]]; lia.
Qed.

Definition fee_ok (o : Order) : Prop := 0 <= platform_fee o.

Lemma fee_view o id s r s' : fee_ok o ->
  (if decide (platform_fee o = 0) then ret tt else port (escrow_transfer id (PlatformAccount cfg) (platform_fee o))) s = (r, s') ->
  view id s' = mkView (Orders s !! id) (v_amount (view id s')) (v_frozen (view id s')) (failed id s) /\
  match r with
  | Ok _ => v_amount (view id s') = v_amount (view id s) - platform_fee o /\
      (0 <= v_amount (view id s) -> 0 <= v_amount (view id s')) /\
      (v_frozen (view id s) = false -> v_frozen (view id s') = false)
  | Err _ => v_frozen (view id s') = v_frozen (view id s) /\ shrunk (v_amount (view id s)) (v_amount (view id s'))
  end.
Proof.
  intros Hfee. destruct (decide (platform_fee o = 0)) as [Hz | Hz].
  - intros [-> ->]%ret_inv. split; [done |]. rewrite Hz. split_and!; [lia | done | done].
  - intros Hr. apply transfer_view in Hr as [Hview Hr]; [| done]. split; [exact Hview |].
    destruct r; [| done]. destruct Hr as (? & ? & ? & -> & ->). split_and!; [done | lia | done].
Qed.

(** The two transfers, however they end. *)
Lemma transfers_view o id s r s' : fee_ok o ->
  (port (escrow_transfer id (seller o) (sat_sub (total_amount o) (platform_fee o))) >>
   if decide (platform_fee o = 0) then ret tt else port (escrow_transfer id (PlatformAccount cfg) (platform_fee o))) s = (r, s') ->
  exists v' f', view id s' = mkView (Orders s !! id) v' f' (failed id s) /\
    match r with
    | Ok _ => v_amount (view id s) <> 0 /\ v_frozen (view id s) = false /\ f' = false /\
        v' = v_amount (view id s) - sat_sub (total_amount o) (platform_fee o) - platform_fee o /\ 0 <= v' <= v_amount (view id s)
    | Err _ => f' = v_frozen (view id s) /\ shrunk (v_amount (view id s)) v'
    end.
Proof.
  intros Hfee Hr. assert (0 <= sat_sub (total_amount o) (platform_fee o)) as Hs by (unfold sat_sub; lia).
  destruct r as [u | e].
  - apply bind_Ok in Hr as (? & s1 & K1 & K2). apply transfer_view in K1 as [K1 (Hle & Hne & Hf & Hv & Hf1)]; [| done].
    apply fee_view in K2 as [K2 (Hv2 & Hpos & Hf2)]; [| done]. eexists _, _. split.
    + rewrite K2. f_equal; [| by injection K1]. by injection K1 as -> _.
    + unfold fee_ok in Hfee. rewrite Hv2, Hv in *. split_and!; try done; [by apply Hf2 | apply Hpos; lia | lia].
  - apply bind_Err in Hr as [K1 | (? & s1 & K1 & K2)].
    + apply transfer_view in K1 as [K1 (Hf & Hv)]; [| done]. eexists _, _. by split.
    + apply transfer_view in K1 as [K1 (Hle & Hne & Hf & Hv & Hf1)]; [| done].
      apply fee_view in K2 as [K2 (Hf2 & Hv2)]; [| done]. eexists _, _. split.
      * rewrite K2. f_equal; [| by injection K1]. by injection K1 as -> _.
      * rewrite Hf2, Hf1. split; [done |]. unfold shrunk in *. lia.
Qed.

Lemma pay_native_bind o id s : pay_native cfg o id s =
  ((port (escrow_transfer id (seller o) (sat_sub (total_amount o) (platform_fee o))) >>
    if decide (platform_fee o = 0) then ret tt else port (escrow_transfer id (PlatformAccount cfg) (platform_fee o))) >>
   let! free := ask (currency_free (seller o)) in
   let target := Z.min (sat_sub (total_amount o) (platform_fee o)) (sat_sub free (existential_deposit X)) in
   (if decide (target = 0) then ret tt else port_opt (currency_reserve (seller o) target)) >>
   ret target) s.
Proof. by rewrite run_bind. Qed.

Lemma pay_native_view o id s r s' : fee_ok o -> payment_asset o = Native -> pay_native cfg o id s = (r, s') ->
  exists v' f', view id s' = mkView (Orders s !! id) v' f' (failed id s) /\
    match r with
    | Ok _ => paid_out o (v_amount (view id s)) v' (v_frozen (view id s)) f'
    | Err _ => half_paid o (v_amount (view id s)) v' (v_frozen (view id s)) f'
    end.
Proof.
  intros Hfee Ha. rewrite pay_native_bind. unfold ask, paid_out, half_paid. rewrite Ha. intros Hr.
  assert (framed (view id) (let! free := gets (fun s => currency_free (seller o) (others s)) in
    let target := Z.min (sat_sub (total_amount o) (platform_fee o)) (sat_sub free (existential_deposit X)) in
    (if decide (target = 0) then ret tt else port_opt (X:=X) (currency_reserve (seller o) target)) >> ret target)) as Hq by view_tac.
  destruct r as [n | e].
  - apply bind_Ok in Hr as (? & s1 & K1 & Hr). apply transfers_view in K1 as (v' & f' & K1 & ? & ? & ? & ? & ?); [| done].
    exists v', f'. rewrite (Hq _ _ _ Hr). split; [done |]. split_and!; try done. right. split; [done | lia].
  - apply bind_Err in Hr as [K1 | (? & s1 & K1 & Hr)].
    + apply transfers_view in K1 as (v' & f' & K1 & ? & ?); [| done]. exists v', f'. auto.
    + apply transfers_view in K1 as (v' & f' & K1 & ? & ? & ? & ? & ?); [| done].
      exists v', f'. rewrite (Hq _ _ _ Hr). split; [done |]. split; [congruence |]. unfold shrunk. lia.
Qed.

(** The payment of a completed order, in whichever asset. *)
Lemma payment_view o id (fee : Z) s r s' : fee_ok o ->
  match payment_asset o with
  | Native => let! reserved := pay_native cfg o id in ret (reserved, true)
  | ShoppingBalance => ret (0, true)
  | EntityToken => let! fee_paid := pay_tokens o id fee in ret (0, fee_paid)
  end s = (r, s') ->
  exists v' f', view id s' = mkView (Orders s !! id) v' f' (failed id s) /\
    match r with
    | Ok _ => paid_out o (v_amount (view id s)) v' (v_frozen (view id s)) f'
    | Err _ => half_paid o (v_amount (view id s)) v' (v_frozen (view id s)) f'
    end.
Proof.
  intros Hfee. unfold paid_out, half_paid. destruct (payment_asset o) eqn:Ha; intros Hr.
  - destruct r as [p | e].
    + apply bind_Ok in Hr as (n & s1 & K1 & Hr). apply ret_inv in Hr as [_ ->].
      apply pay_native_view in K1; [| done..]. unfold paid_out in K1. by rewrite Ha in K1.
    + apply bind_Err in Hr as [K1 | (? & ? & _ & ?)]; [| done].
      apply pay_native_view in K1; [| done..]. unfold half_paid in K1. by rewrite Ha in K1.
  - assert (view id s' = view id s) as ->.
    { destruct r as [p | e].
      - apply bind_Ok in Hr as (n & s1 & K1 & Hr). apply ret_inv in Hr as [_ ->]. by eapply tokens_view.
      - apply bind_Err in Hr as [K1 | (? & ? & _ & ?)]; [| done]. by eapply tokens_view. }
    eexists _, _. split; [reflexivity |]. by destruct r.
  - apply ret_inv in Hr as [-> ->]. eexists _, _. split; [reflexivity |]. done.
Qed.


Lemma complete_Ok env id o s u s' : fee_ok o -> do_complete_order cfg env id o s = (Ok u, s') -> Orders s !! id = Some o ->
  exists v' f', view id s' = mkView (Some (o <| status := Completed |> <| completed_at := Some (block_number env) |>)) v' f' (failed id s) /\
    paid_out o (v_amount (view id s)) v' (v_frozen (view id s)) f'.
Proof.
  intros Hfee. unfold do_complete_order, ask. intros (fee & s0 & [= <- <-] & Hr)%bind_Ok Ho.
  apply bind_Ok in Hr as ([reserved fee_paid] & s1 & K1 & Hr). apply payment_view in K1 as (v' & f' & K1 & Hp); [| done].
  apply bind_Ok in Hr as (? & s2 & K2 & Hr).
  eapply update_view in K2; [| injection K1 as K1 _ _ _; by rewrite K1].
  exists v', f'. split; [| exact Hp]. trans (view id s2); [| rewrite K2, K1; reflexivity].
  revert Hr. match goal with |- ?m s2 = _ -> _ => assert (framed (view id) m) as Hq by view_tac end. apply Hq.
Qed.

Lemma complete_Err env id o s e s' : fee_ok o -> do_complete_order cfg env id o s = (Err e, s') ->
  exists v' f', view id s' = mkView (Orders s !! id) v' f' (failed id s) /\
    half_paid o (v_amount (view id s)) v' (v_frozen (view id s)) f'.
Proof.
  intros Hfee. unfold do_complete_order, ask. intros [Hr | (fee & s0 & [= <- <-] & Hr)]%bind_Err; [done |].
  apply bind_Err in Hr as [K1 | ([reserved fee_paid] & s1 & K1 & Hr)].
  - by apply payment_view in K1.
  - exfalso. revert Hr. match goal with |- ?m s1 = _ -> _ => assert (total m) as Ht by (cbv zeta; total_ops) end.
    intros Hr. by eapply total_Err.
Qed.

(** ** Calls move the orders they concern *)

Definition fees_ok s : Prop := map_Forall (fun _ o => fee_ok o) (Orders s).

(** A successful run, from a state that holds the order [o], moves it. *)
Definition moved {A} id (o : Order) (m : M (State X) (DispatchError Error) A) : Prop :=
  forall s a s', m s = (Ok a, s') -> Orders s !! id = Some o -> fee_ok o -> rtc move (view id s) (view id s').

(** The same from any state. *)
Definition moves {A} id (m : M (State X) (DispatchError Error) A) : Prop :=
  forall s a s', m s = (Ok a, s') -> fees_ok s -> rtc move (view id s) (view id s').

Lemma moves_framed {A} id (m : M (State X) (DispatchError Error) A) : framed (view id) m -> moves id m.
Proof. intros Hm s a s' Hr _. rewrite (Hm _ _ _ Hr). done. Qed.

Lemma moves_get {A} id (k : Order -> M (State X) (DispatchError Error) A) :
  (forall o, moved id o (k o)) -> moves id (bind (get_order id) k).
Proof.
  intros Hk s a s' Hr Hfees. unfold get_order in Hr. m_inv.
  match goal with Ho : Orders _ !! _ = Some _ |- _ => pose proof (Hfees _ _ Ho); by eapply Hk end.
Qed.

Lemma moves_after {A B} id (m : M (State X) (DispatchError Error) A) (k : A -> M (State X) (DispatchError Error) B) :
  framed (fun s => (Orders s, view id s)) m -> (forall a, moves id (k a)) -> moves id (bind m k).
Proof.
  intros Hm Hk s b s' (a & s1 & K1 & K2)%bind_Ok Hfees. apply Hm in K1.
  pose proof (f_equal fst K1) as Ho. apply (f_equal snd) in K1. simpl in Ho, K1.
  rewrite <- K1. eapply Hk; [exact K2 |]. unfold fees_ok. by rewrite Ho.
Qed.

Lemma moved_after {A B} id o (m : M (State X) (DispatchError Error) A) (k : A -> M (State X) (DispatchError Error) B) :
  framed (view id) m -> (forall a, moved id o (k a)) -> moved id o (bind m k).
Proof.
  intros Hm Hk s b s' (a & s1 & K1 & K2)%bind_Ok Ho Hfee. apply Hm in K1. rewrite <- K1.
  eapply Hk; [exact K2 | | done]. by rewrite (view_order _ _ _ K1).
Qed.

Lemma moved_before {A B} id o (m : M (State X) (DispatchError Error) A) (k : A -> M (State X) (DispatchError Error) B) :
  moved id o m -> (forall a, framed (view id) (k a)) -> moved id o (bind m k).
Proof.
  intros Hm Hk s b s' (a & s1 & K1 & K2)%bind_Ok Ho Hfee. rewrite (Hk _ _ _ _ K2). by eapply Hm.
Qed.

Lemma moved_ensure {A} id o (P : Prop) `{Decision P} e (k : unit -> M (State X) (DispatchError Error) A) :
  (P -> moved id o (k tt)) -> moved id o (bind (ensure P e) k).
Proof.
  intros Hk s b s' Hr Ho Hfee. apply bind_Ok in Hr as (u & s1 & K1 & K2). apply ensure_Ok in K1 as [HP ->].
  destruct u. by eapply Hk.
Qed.

(** *** The changes *)

Lemma move_settled o o' s s' id v' f' : Orders s !! id = Some o -> change o o' ->
  view id s' = mkView (Some o') v' f' (failed id s) -> settles o o' (v_amount (view id s)) v' (v_frozen (view id s)) f' ->
  rtc move (view id s) (view id s').
Proof.
  intros Ho Hc Hv Hs. apply rtc_once. rewrite Hv. unfold view at 1. rewrite Ho. by apply mv_change.
Qed.

(** Thawed or not, the money of an ended order is out. *)
Lemma paid_out_settles o o' v v' f1 f f' : paid_out o v v' f1 f' -> payment_asset o = Native \/ f1 = f ->
  is_active (status o') = false -> settles o o' v v' f f'.
Proof.
  unfold paid_out, settles. destruct (payment_asset o); try naive_solver. intros (? & ? & ? & ?) _ Hst.
  destruct (status o'); done.
Qed.

(** A successful run ends the order [o]. *)
Definition ends {A} id (o : Order) (m : M (State X) (DispatchError Error) A) : Prop :=
  forall s a s', m s = (Ok a, s') -> Orders s !! id = Some o -> fee_ok o ->
  exists o' v' f', change o o' /\ is_active (status o') = false /\ view id s' = mkView (Some o') v' f' (failed id s) /\
    paid_out o (v_amount (view id s)) v' (v_frozen (view id s)) f'.

Lemma ends_cancel o id st : change o (o <| status := st |>) -> is_active st = false -> ends id o (do_cancel_or_refund o id st).
Proof.
  intros Hc Hst s a s' Hr Ho _. destruct (cancel_Ok _ _ _ _ _ _ Hr Ho) as (v' & f' & Hv & Hp). by eexists _, _, _.
Qed.

Lemma ends_complete o id env : forceable (status o) = true -> ends id o (do_complete_order cfg env id o).
Proof.
  intros Hst s a s' Hr Ho Hfee. destruct (complete_Ok _ _ _ _ _ _ Hfee Hr Ho) as (v' & f' & Hv & Hp).
  eexists _, _, _. by split; [by apply ch_complete |].
Qed.

Lemma ends_before {A B} id o (m : M (State X) (DispatchError Error) A) (k : A -> M (State X) (DispatchError Error) B) :
  ends id o m -> (forall a, framed (view id) (k a)) -> ends id o (bind m k).
Proof.
  intros Hm Hk s b s' (a & s1 & K1 & K2)%bind_Ok Ho Hfee. rewrite (Hk _ _ _ _ K2). by eapply Hm.
Qed.

Lemma ends_moved {A} id o (m : M (State X) (DispatchError Error) A) : ends id o m -> moved id o m.
Proof.
  intros Hm s a s' Hr Ho Hfee. destruct (Hm _ _ _ Hr Ho Hfee) as (o' & v' & f' & Hc & Hst & Hv & Hp).
  eapply move_settled; [exact Ho | exact Hc | exact Hv |]. eapply paid_out_settles; [exact Hp | by right | done].
Qed.

(** An edit that leaves the money where it is. *)
Lemma moved_edit o id f : change o (f o) ->
  (status o <> Disputed /\ (status (f o) = Paid \/ status (f o) = Shipped)) \/ (status o = Disputed /\ status (f o) = Disputed) ->
  moved id o (update_order id f).
Proof.
  intros Hc Hst s a s' Hr Ho _. eapply update_view in Hr; [| done].
  eapply move_settled; [done | exact Hc | exact Hr |]. unfold settles.
  destruct (payment_asset o); [| done..]. destruct Hst as [[Hne [-> | ->]] | [Hd ->]].
  - by rewrite decide_False.
  - by rewrite decide_False.
  - by rewrite decide_True.
Qed.

(** A dispute freezes the money, after the status is written. *)
Lemma moved_dispute env o id reason d (k : M (State X) (DispatchError Error) unit) : framed (view id) k -> status o = Paid \/ status o = Shipped -> product_category o <> Digital ->
  moved id o
    (update_order id (fun o => o <| status := Disputed |> <| refund_reason_cid := Some reason |> <| dispute_deadline := Some d |>) >>
     push_expiry cfg d id >>
     (if decide (payment_asset o = Native) then port (escrow_set_disputed (block_number env) id) else ret tt) >> k).
Proof.
  intros Hk Hst Hcat s a s' (? & s1 & K1 & Hr)%bind_Ok Ho _. eapply update_view in K1; [| done].
  apply bind_Ok in Hr as (? & s2 & K2 & Hr). apply (framed_push cfg id) in K2. rewrite K1 in K2. clear K1 s1.
  assert (status o <> Disputed) as Hne by (destruct Hst; congruence).
  pose proof (ch_dispute o reason d Hst Hcat) as Hc.
  apply bind_Ok in Hr as (? & s3 & K3 & Hr). apply Hk in Hr.
  case_decide as Ha.
  - apply port_Ok in K3 as [Ht ->]. apply disputed_freezes in Ht as [Hpos Hx].
    eapply move_settled; [exact Ho | exact Hc | |].
    + rewrite Hr, (at_escrow_view _ _ _ _ _ Hx). f_equal; [by injection K2 | injection K2 as _ _ _ Hf; exact Hf].
    + unfold settles. simpl. rewrite Ha, decide_False by done. split; [| done]. by injection K2.
  - apply ret_inv in K3 as [_ ->]. rewrite K2 in Hr. eapply move_settled; [exact Ho | exact Hc | exact Hr |].
    unfold settles. by destruct (payment_asset o).
Qed.

(** Thawing comes before the change it belongs to. *)
Lemma unfreeze_view o id s u s' : unfreeze o id s = (Ok u, s') ->
  exists f', view id s' = mkView (Orders s !! id) (v_amount (view id s)) f' (failed id s) /\
    (payment_asset o = Native /\ f' = false \/ payment_asset o <> Native /\ f' = v_frozen (view id s)).
Proof.
  unfold unfreeze. case_decide.
  - intros [Ht ->]%port_Ok. apply resolved_thaws in Ht as [_ Hx]. rewrite (at_escrow_view _ _ _ _ _ Hx). eauto.
  - intros [_ ->]%ret_inv. eexists. split; [reflexivity | by right].
Qed.

Lemma moved_unfreeze {A} o id (m : M (State X) (DispatchError Error) A) : ends id o m -> moved id o (unfreeze o id >> m).
Proof.
  intros Hm s a s' (? & s1 & K1 & Hr)%bind_Ok Ho Hfee. apply unfreeze_view in K1 as (f1 & K1 & Ha).
  assert (Orders s1 !! id = Some o) as Ho1 by (injection K1 as -> _; done).
  destruct (Hm _ _ _ Hr Ho1 Hfee) as (o' & v' & f' & Hc & Hst & Hv & Hp).
  eapply move_settled; [exact Ho | exact Hc | rewrite Hv; f_equal; by injection K1 |].
  rewrite K1 in Hp. eapply paid_out_settles; [exact Hp | | done]. simpl. destruct Ha as [[? _] | [_ ?]]; auto.
Qed.

Lemma moved_unfreeze_disputed {A} o id (m : M (State X) (DispatchError Error) A) :
  ends id o m -> moved id o (unfreeze_disputed o id >> m).
Proof.
  intros Hm. destruct (decide (status o = Disputed /\ payment_asset o = Native)) as [[Hd Ha] | Hno].
  - pose proof (moved_unfreeze o id m Hm) as Hu. unfold unfreeze in Hu. unfold unfreeze_disputed.
    rewrite decide_True in Hu by done. by rewrite decide_True by done.
  - unfold unfreeze_disputed. rewrite decide_False by done.
    apply moved_after; [apply framed_ret | intros _; by apply ends_moved].
Qed.

Lemma moved_withdraw env o id (k : M (State X) (DispatchError Error) unit) : framed (view id) k -> status o = Disputed -> dispute_rejected o = false ->
  moved id o
    (unfreeze o id >>
     match dispute_deadline o with Some d => drop_expiry d id | None => ret tt end >>
     push_expiry cfg (later (block_number env) (restored_timeout cfg o)) id >>
     update_order id (fun o' => o' <| status := restored_status o |> <| dispute_deadline := None |>
                               <| dispute_rejected := false |> <| refund_reason_cid := None |>) >> k).
Proof.
  intros Hk Hd Hrej s a s' (? & s1 & K1 & Hr)%bind_Ok Ho _. apply unfreeze_view in K1 as (f1 & K1 & Ha).
  apply bind_Ok in Hr as (? & s2 & K2 & Hr).
  assert (view id s2 = view id s1) as Hs2.
  { revert K2. match goal with |- ?m s1 = _ -> _ => assert (framed (view id) m) as Hq by view_tac end. apply Hq. }
  apply bind_Ok in Hr as (? & s3 & K3 & Hr). apply (framed_push cfg id) in K3. rewrite Hs2, K1 in K3.
  assert (Orders s3 !! id = Some o) as Ho3 by (injection K3 as -> _; done).
  apply bind_Ok in Hr as (? & s4 & K4 & Hr). apply Hk in Hr. eapply update_view in K4; [| exact Ho3].
  rewrite K4, K3 in Hr. simpl in Hr.
  eapply move_settled; [exact Ho | by apply ch_withdraw | |].
  - rewrite Hr. f_equal; by injection K3.
  - unfold settles. simpl. destruct Ha as [[-> ->] | [Hne ->]].
    + unfold restored_status. by destruct (shipped_at o); rewrite decide_True by done.
    + by destruct (payment_asset o).
Qed.

Lemma ends_split o id bps (k : M (State X) (DispatchError Error) unit) : framed (view id) k -> forceable (status o) = true -> payment_asset o = Native ->
  ends id o
    (rollback_loyalty o id >>
     port (escrow_split_partial id (seller o) (fund_account o) bps) >>
     notify_order_cancelled o id >>
     update_order id (fun o => o <| status := PartiallyRefunded |>) >> k).
Proof.
  intros Hk Hst Ha s a s' (? & s1 & K1 & Hr)%bind_Ok Ho _. apply (rollback_view id) in K1.
  apply bind_Ok in Hr as (? & s2 & K2 & Hr). apply port_Ok in K2 as [Ht ->]. apply split_takes in Ht as (Hne & Hf & Hx).
  pose proof (at_escrow_view _ s1 _ _ _ Hx) as Hv. apply bind_Ok in Hr as (? & s3 & K3 & Hr).
  apply (notify_view id) in K3. rewrite Hv in K3.
  assert (Orders s1 !! id = Some o) as Ho1 by (by rewrite (view_order _ _ _ K1)).
  apply bind_Ok in Hr as (? & s4 & K4 & Hr). apply Hk in Hr.
  eapply update_view in K4; [| injection K3 as -> _; exact Ho1].
  eexists _, 0, false. split; [by apply ch_split |]. split; [done |]. rewrite Hr, K4, K3. split.
  - f_equal. by injection K1.
  - unfold paid_out. rewrite Ha. rewrite <- K1. auto.
Qed.

(** ** Every call *)

Lemma moves_signed {A} id origin (k : AccountId -> M (State X) (DispatchError Error) A) :
  (forall who, moves id (k who)) -> moves id (bind (signed origin) k).
Proof. intros. apply moves_after; [unfold signed; framed_tac | done]. Qed.

Ltac moves_guard :=
  repeat first
    [ apply moves_signed; intros ? | apply moves_get; intros ? | apply moved_ensure; intros ?
    | apply moves_after; [unfold validate_reason_cid, validate_optional_reason_cid, bounded_cid, root; framed_tac | intros ?]
    | match goal with |- moved _ _ (bind _ _) => apply moved_after; [by view_tac | intros ?] end ].

Definition targets (c : Call) : option Z :=
  match c with
  | CCancel id | CShip id _ | CConfirmReceipt id | CRequestRefund id _ | CApproveRefund id | CStartService id
  | CCompleteService id | CConfirmService id | CRejectRefund id _ | CSellerCancel id _ | CForceRefund id _
  | CForceComplete id _ | CUpdateAddress id _ | CExtend id | CUpdateTracking id _ | CSellerRefund id _
  | CForcePartial id _ _ | CWithdrawDispute id => Some id
  | _ => None
  end.

Lemma cancel_order_moves origin id : moves id (cancel_order (X:=X) origin id).
Proof.
  unfold cancel_order. moves_guard. apply moved_before; [| intros ?; view_tac].
  apply ends_moved, ends_cancel; [by apply ch_cancel | done].
Qed.

Lemma seller_cancel_moves origin id r : moves id (seller_cancel_order (X:=X) cfg origin id r).
Proof.
  unfold seller_cancel_order. moves_guard. apply moved_before; [| intros ?; view_tac].
  apply ends_moved, ends_cancel; [by apply ch_cancel | done].
Qed.

Lemma seller_refund_moves origin id r : moves id (seller_refund_order (X:=X) cfg origin id r).
Proof.
  unfold seller_refund_order. moves_guard. apply moved_before; [| intros ?; view_tac].
  apply ends_moved, ends_cancel; [apply ch_refund | done]. by match goal with Hs : status _ = Shipped |- _ => rewrite Hs end.
Qed.

Lemma approve_refund_moves who id : moves id (do_approve_refund (X:=X) who id).
Proof.
  unfold do_approve_refund. moves_guard. apply moved_unfreeze, ends_before; [| intros ?; view_tac].
  apply ends_cancel; [apply ch_refund | done]. by match goal with Hs : status _ = Disputed |- _ => rewrite Hs end.
Qed.

Lemma force_refund_moves id r : moves id (do_force_refund (X:=X) cfg id r).
Proof.
  unfold do_force_refund. moves_guard. apply moved_unfreeze_disputed, ends_before; [| intros ?; view_tac].
  by apply ends_cancel; [apply ch_refund |].
Qed.

Lemma force_complete_moves env id r : moves id (do_force_complete (X:=X) cfg env id r).
Proof.
  unfold do_force_complete. moves_guard. apply moved_unfreeze_disputed, ends_before; [| intros ?; view_tac].
  by apply ends_complete.
Qed.

Lemma force_partial_moves id bps r : moves id (do_force_partial_refund (X:=X) cfg id bps r).
Proof.
  unfold do_force_partial_refund.
  apply moves_after; [framed_tac | intros ?]. moves_guard.
  match goal with |- moved id ?o _ => rename o into ord end.
  match goal with Ha : payment_asset ord = Native |- _ => rename Ha into Hnat end.
  assert (ends id ord
    (rollback_loyalty ord id >>
     port (escrow_split_partial id (seller ord) (fund_account ord) (sat_sub 10000 bps)) >>
     notify_order_cancelled ord id >>
     update_order id (fun o => o <| status := PartiallyRefunded |>) >>
     modify (fun s => s <| OrderReferrer ::= delete id |>) >>
     deposit_event (EvOrderPartialRefunded id bps r))) as He.
  { apply ends_split; [view_tac | done..]. }
  pose proof (moved_unfreeze_disputed ord id _ He) as Hm. unfold unfreeze_disputed in Hm.
  destruct (decide (status ord = Disputed)).
  - rewrite decide_True in Hm by done. exact Hm.
  - rewrite decide_False in Hm by tauto. exact Hm.
Qed.

Ltac edit_ok := simpl; match goal with Hs : status _ = _ |- _ => rewrite ?Hs end; naive_solver.

Lemma ship_moves env origin id tr : moves id (ship_order (X:=X) cfg env origin id tr).
Proof.
  unfold ship_order. moves_guard. apply moved_before; [| intros ?; view_tac].
  apply moved_edit; [by apply ch_ship | edit_ok].
Qed.

Lemma start_service_moves env origin id : moves id (start_service (X:=X) cfg env origin id).
Proof.
  unfold start_service. moves_guard. apply moved_before; [| intros ?; view_tac].
  apply moved_edit; [by apply ch_start | edit_ok].
Qed.

Lemma complete_service_moves env origin id : moves id (complete_service (X:=X) cfg env origin id).
Proof.
  unfold complete_service. moves_guard. apply moved_before; [| intros ?; view_tac].
  apply moved_edit; [by apply ch_served | edit_ok].
Qed.

Lemma update_address_moves origin id cid : moves id (update_shipping_address (X:=X) cfg origin id cid).
Proof.
  unfold update_shipping_address. moves_guard. apply moved_before; [| intros ?; view_tac].
  apply moved_edit; [by apply ch_address | edit_ok].
Qed.

Lemma update_tracking_moves origin id cid : moves id (update_tracking (X:=X) cfg origin id cid).
Proof.
  unfold update_tracking. moves_guard. apply moved_before; [| intros ?; view_tac].
  apply moved_edit; [by apply ch_tracking | edit_ok].
Qed.

Lemma extend_moves env origin id : moves id (extend_confirm_timeout (X:=X) cfg env origin id).
Proof.
  unfold extend_confirm_timeout. moves_guard. apply moved_before; [| intros ?; view_tac].
  apply moved_edit; [by apply ch_extend | edit_ok].
Qed.

Lemma reject_refund_moves env who id r : moves id (do_reject_refund (X:=X) cfg env who id r).
Proof.
  unfold do_reject_refund. moves_guard. apply moved_before; [| intros ?; view_tac].
  apply moved_edit; [by apply ch_reject | edit_ok].
Qed.

Lemma confirm_receipt_moves env origin id : moves id (confirm_receipt (X:=X) cfg env origin id).
Proof.
  unfold confirm_receipt. moves_guard. apply moved_before; [| intros ?; view_tac].
  apply ends_moved, ends_complete. by match goal with Hs : status _ = Shipped |- _ => rewrite Hs end.
Qed.

Lemma confirm_service_moves env origin id : moves id (confirm_service (X:=X) cfg env origin id).
Proof.
  unfold confirm_service. moves_guard.
  apply ends_moved, ends_complete. by match goal with Hs : status _ = Shipped |- _ => rewrite Hs end.
Qed.

Lemma request_refund_moves env who id r : moves id (do_request_refund (X:=X) cfg env who id r).
Proof. unfold do_request_refund. moves_guard. apply moved_dispute; [view_tac | done..]. Qed.

Lemma withdraw_dispute_moves env who id : moves id (do_withdraw_dispute (X:=X) cfg env who id).
Proof. unfold do_withdraw_dispute. moves_guard. apply moved_withdraw; [view_tac | done..]. Qed.

(** ** Other orders *)

Ltac elsewhere_tac :=
  unfold unfreeze, unfreeze_disputed, ask, notify_order_cancelled;
  repeat first [ progress cbv zeta | by apply cancel_elsewhere | by apply complete_elsewhere | apply rollback_view | view_step ].

Lemma call_elsewhere env origin c id j : targets c = Some id -> j <> id -> framed (view j) (apply_call (X:=X) cfg env origin c).
Proof.
  intros Hc Hj. destruct c; simpl in Hc; simplify_eq; simpl;
    unfold cancel_order, ship_order, confirm_receipt, do_request_refund, do_approve_refund, start_service,
      complete_service, confirm_service, do_reject_refund, seller_cancel_order, do_force_refund, do_force_complete,
      update_shipping_address, extend_confirm_timeout, update_tracking, seller_refund_order, do_force_partial_refund,
      do_withdraw_dispute; elsewhere_tac.
Qed.

Lemma root_moves {A} id origin (m : M (State X) (DispatchError Error) A) : moves id m -> moves id (root origin >> m).
Proof. intros. apply moves_after; [unfold root; framed_tac | done]. Qed.

Lemma target_moves env origin c id : targets c = Some id -> moves id (apply_call (X:=X) cfg env origin c).
Proof.
  intros Hc. destruct c; simpl in *; simplify_eq;
    try match goal with
    | |- moves _ (bind (signed _) _) => apply moves_signed; intros ?
    | |- moves _ (bind (root _) _) => apply root_moves
    end;
    first [ apply cancel_order_moves | apply ship_moves | apply confirm_receipt_moves | apply request_refund_moves
          | apply approve_refund_moves | apply start_service_moves | apply complete_service_moves
          | apply confirm_service_moves | apply reject_refund_moves | apply seller_cancel_moves
          | apply force_refund_moves | apply force_complete_moves | apply update_address_moves | apply extend_moves
          | apply update_tracking_moves | apply seller_refund_moves | apply force_partial_moves | apply withdraw_dispute_moves ].
Qed.

(** ** Timeouts *)

Lemma half_paid_move o s s' id v' f' : Orders s !! id = Some o -> forceable (status o) = true ->
  view id s' = mkView (Some o) v' f' true -> half_paid o (v_amount (view id s)) v' (v_frozen (view id s)) f' ->
  rtc move (view id s) (view id s').
Proof.
  intros Ho Hst Hv Hp. apply rtc_once. rewrite Hv. unfold view at 1. rewrite Ho. unfold half_paid in Hp.
  apply mv_fail; [done | ..]; destruct (payment_asset o); naive_solver.
Qed.

Lemma operation_failed_view id op s u s' : op = EscrowRefund \/ op = AutoComplete -> operation_failed (X:=X) id op s = (u, s') ->
  view id s' = mkView (Orders s !! id) (v_amount (view id s)) (v_frozen (view id s)) true.
Proof.
  intros Hop [= _ <-]. unfold view. simpl. f_equal. etrans; [apply (failed_event id s) |]. simpl.
  destruct Hop as [-> | ->]; by rewrite bool_decide_true, orb_true_r.
Qed.

(** The state before the refund may be thawed already: [f1] instead of its [f]. *)
Lemma auto_refund_view o id s1 r s' : Orders s1 !! id = Some o -> do_auto_refund o id s1 = (r, s') ->
  exists v' f', (view id s' = mkView (Some (o <| status := Refunded |>)) v' f' (failed id s1) /\
      paid_out o (v_amount (view id s1)) v' (v_frozen (view id s1)) f') \/
    (view id s' = mkView (Some o) v' f' true /\ half_paid o (v_amount (view id s1)) v' (v_frozen (view id s1)) f').
Proof.
  intros Ho. unfold do_auto_refund, bind at 1. destruct (attempt _ s1) as [[[u |] | e] s2] eqn:Hat.
  - apply attempt_inv in Hat as [(? & [= <-] & Hr) | (? & ? & _)]; [| done].
    destruct (cancel_Ok _ _ _ _ _ _ Hr Ho) as (v' & f' & Hv & Hp). intros Hev. exists v', f'. left. split; [| done].
    rewrite <- Hv. revert Hev. match goal with |- ?m s2 = _ -> _ => assert (framed (view id) m) as Hq by view_tac end. apply Hq.
  - apply attempt_inv in Hat as [(? & ? & _) | (e & _ & Hr)]; [done |].
    destruct (cancel_Err _ _ _ _ _ _ Hr) as (v' & f' & Hv & Hp). intros Hev. exists v', f'. right. split; [| done].
    unfold bind in Hev. destruct (operation_failed id EscrowRefund s2) as [r3 s3] eqn:Hop.
    apply operation_failed_view in Hop; [| by left]. rewrite Hv in Hop. simpl in Hop.
    assert (s' = s3) as -> by (destruct r3; injection Hev; done). rewrite Hop. f_equal.
    injection Hv as -> _. done.
  - by apply attempt_inv in Hat as [(? & ? & _) | (? & ? & _)].
Qed.

Lemma auto_refund_moves o id s s1 r s' f1 : Orders s !! id = Some o -> forceable (status o) = true ->
  view id s1 = mkView (Some o) (v_amount (view id s)) f1 (failed id s) ->
  (payment_asset o = Native /\ (f1 = v_frozen (view id s) \/ f1 = false)) \/ f1 = v_frozen (view id s) ->
  do_auto_refund o id s1 = (r, s') -> rtc move (view id s) (view id s').
Proof.
  intros Ho Hst Hv1 Hf1 Hr. assert (Orders s1 !! id = Some o) as Ho1 by (injection Hv1 as -> _; done).
  destruct (auto_refund_view _ _ _ _ _ Ho1 Hr) as (v' & f' & [[Hv Hp] | [Hv Hp]]); rewrite Hv1 in Hp; simpl in Hp.
  - eapply move_settled; [exact Ho | by apply ch_refund | rewrite Hv; f_equal; by injection Hv1 |].
    eapply paid_out_settles; [exact Hp | naive_solver | done].
  - apply rtc_once. rewrite Hv. unfold view at 1. rewrite Ho. unfold half_paid in Hp.
    apply mv_fail; [done | ..]; destruct (payment_asset o); naive_solver.
Qed.

Lemma auto_complete_moves env o id s r s' : Orders s !! id = Some o -> forceable (status o) = true -> fee_ok o ->
  (let! done := attempt (do_complete_order cfg env id o) in
   match done with
   | Some _ => ret true
   | None => operation_failed id AutoComplete >> ret false
   end) s = (r, s') -> rtc move (view id s) (view id s').
Proof.
  intros Ho Hst Hfee. unfold bind at 1. destruct (attempt _ s) as [[[u |] | e] s2] eqn:Hat.
  - apply attempt_inv in Hat as [(? & [= <-] & Hr) | (? & ? & _)]; [| done]. intros [= <- <-].
    eapply ends_moved; [by apply ends_complete | exact Hr | done..].
  - apply attempt_inv in Hat as [(? & ? & _) | (e & _ & Hr)]; [done |].
    destruct (complete_Err _ _ _ _ _ _ Hfee Hr) as (v' & f' & Hv & Hp). unfold bind.
    destruct (operation_failed id AutoComplete s2) as [r3 s3] eqn:Hop. intros Hev.
    apply operation_failed_view in Hop; [| by right]. rewrite Hv in Hop. simpl in Hop.
    assert (s' = s3) as -> by (destruct r3; injection Hev; done).
    eapply half_paid_move; [exact Ho | done | rewrite Hop | exact Hp]. f_equal. injection Hv as -> _. done.
  - by apply attempt_inv in Hat as [(? & ? & _) | (? & ? & _)].
Qed.

Lemma expire_order_elsewhere j env id o : j <> id -> framed (view j) (expire_order (X:=X) cfg env id o).
Proof. intros Hj. unfold expire_order, do_auto_refund. elsewhere_tac. Qed.

Lemma expire_order_moves env id o s r s' : Orders s !! id = Some o -> fee_ok o ->
  expire_order cfg env id o s = (r, s') -> forall j, rtc move (view j s) (view j s').
Proof.
  intros Ho Hfee Hr j. destruct (decide (j = id)) as [-> | Hj]; [| by rewrite (expire_order_elsewhere j env id o Hj _ _ _ Hr)].
  revert Hr. unfold expire_order. destruct (status o) eqn:Hst; try by intros [_ ->]%ret_inv.
  - apply auto_refund_moves with (s := s) (f1 := v_frozen (view id s)); [done | by rewrite Hst | | by right].
    by rewrite (view_eta id s), Ho.
  - case_decide.
    + destruct (service_started_at o) as [started |]; [| by intros [_ ->]%ret_inv].
      case_decide; [| by intros [_ ->]%ret_inv].
      apply auto_refund_moves with (s := s) (f1 := v_frozen (view id s)); [done | by rewrite Hst | | by right].
      by rewrite (view_eta id s), Ho.
    + apply auto_complete_moves; [done | by rewrite Hst | done].
  - destruct (dispute_deadline o) as [d |]; [| by intros [_ ->]%ret_inv].
    case_decide; [| by intros [_ ->]%ret_inv]. intros Hr.
    assert (forceable (status o) = true) as Hfs by (by rewrite Hst).
    case_decide as Ha.
    2: { eapply (auto_refund_moves o id s s r s' (v_frozen (view id s))); [done | done | | by right | exact Hr].
         by rewrite (view_eta id s), Ho. }
    unfold port_try, ask, bind, gets, modify, ret in Hr. revert Hr.
    match goal with |- do_auto_refund _ _ ?s1 = _ -> _ => set (st := s1) end.
    destruct (escrow_set_resolved id (others s)).1 eqn:Ht.
    + pose proof (resolved_thaws _ _ Ht) as [_ Hx].
      apply auto_refund_moves with (s := s) (f1 := false); [done.. | | by left; split; [| right]].
      unfold st. rewrite (at_escrow_view _ s _ _ _ Hx), Ho. done.
    + pose proof (resolved_fails _ _ Ht) as Hx.
      apply auto_refund_moves with (s := s) (f1 := v_frozen (view id s)); [done.. | | by right].
      unfold st. etrans; [apply (view_with_ports id s _ Hx) |]. by rewrite (view_eta id s), Ho.
Qed.

(** ** Sequences *)

Lemma change_fee o o' : change o o' -> platform_fee o' = platform_fee o.
Proof. by intros []. Qed.

Lemma moves_fee v v' : rtc move v v' -> (forall o, v_order v = Some o -> fee_ok o) -> forall o, v_order v' = Some o -> fee_ok o.
Proof.
  induction 1 as [| v1 v2 v3 Hm _ IH]; [done |]. intros Hf. apply IH. destruct Hm; simpl in *; intros ? [= <-].
  - unfold fee_ok in *. erewrite change_fee by done. by apply Hf.
  - by apply Hf.
Qed.

Lemma fees_moves s s' : (forall j, rtc move (view j s) (view j s')) -> fees_ok s -> fees_ok s'.
Proof.
  intros Hm Hf j o Ho. eapply moves_fee; [apply (Hm j) | | exact Ho]. intros o' Ho'. exact (Hf j o' Ho').
Qed.

Lemma expire_each_moves env n ids p s r s' : fees_ok s -> expire_each cfg env n ids p s = (r, s') ->
  forall j, rtc move (view j s) (view j s').
Proof.
  revert p s. induction ids as [| id ids IH]; intros p s Hf; simpl; [by intros [_ ->]%ret_inv |].
  case_decide; [by intros [_ ->]%ret_inv |]. unfold bind at 1, gets. unfold bind at 1.
  destruct (match Orders s !! id with Some o => expire_order cfg env id o | None => ret false end s) as [re s1] eqn:He.
  assert (forall j, rtc move (view j s) (view j s1)) as Hm.
  { destruct (Orders s !! id) as [o |] eqn:Ho; [| by injection He as <- <-].
    eapply expire_order_moves; [exact Ho | exact (Hf _ _ Ho) | exact He]. }
  destruct re as [ended | e]; [| by intros [= <- <-]].
  intros Hr j. etrans; [apply Hm |]. eapply IH; [by eapply fees_moves | exact Hr].
Qed.

Lemma process_expired_moves env target n s r s' : fees_ok s -> process_expired_orders cfg env target n s = (r, s') ->
  forall j, rtc move (view j s) (view j s').
Proof.
  intros Hf. unfold process_expired_orders. unfold bind at 1, gets. case_decide; [by intros [_ ->]%ret_inv |].
  unfold bind at 1. destruct (expire_each cfg env n (queue s target) 0 s) as [[[p rest] | e] s1] eqn:He.
  - intros Hr j. etrans; [by eapply expire_each_moves in He |].
    revert Hr. match goal with |- ?m s1 = _ -> _ => assert (framed (view j) m) as Hq by view_tac end.
    intros Hr. by rewrite (Hq _ _ _ Hr).
  - intros [= <- <-] j. by eapply expire_each_moves in He.
Qed.
End Rules.
End OrderRules.
