(* ===== verification/OrderMoney.v ===== *)
(** What holds of orders and their money in every run: placing an order makes a
    well-formed one whose price is locked, each call moves it along the state machine
    of OrderRules.v, and so orders stay well formed and their money in escrow. *)

From S2P Require Import Prelude Frame EntityPorts EntityOrder OrderRules.

Module OrderMoney.
Import OrderPallet OrderRules.

(** * Well-formed orders *)

(** The statuses in use; the others exist for other versions of the pallet. *)
Definition known_status (st : OrderStatus) : bool :=
  match st with Created | Expired | Processing | AwaitingConfirmation => false | _ => true end.

Record order_ok (id : Z) (o : Order) : Prop := {
  ok_id : order_id o = id;
  ok_quantity : 0 < quantity o;
  ok_total : 0 <= total_amount o <= u128_max;
  ok_fee : 0 <= platform_fee o /\ 10 * platform_fee o <= total_amount o;
  ok_asset :
    match payment_asset o with
    | Native => 0 < total_amount o /\ token_payment_amount o = 0 /\ shopping_balance_used o = 0
    | EntityToken => platform_fee o = 0 /\ shopping_balance_used o = 0 /\ token_discount_tokens_burned o = 0 /\ 0 <= token_payment_amount o
    | ShoppingBalance => total_amount o = 0 /\ token_payment_amount o = 0 /\ token_discount_tokens_burned o = 0
    end;
  ok_category : product_category o <> Subscription;
  ok_digital : product_category o = Digital -> status o = Completed;
  ok_status : known_status (status o) = true;
  ok_parties : buyer o <> seller o /\ payer o <> Some (buyer o) /\ payer o <> Some (seller o);
  ok_completed : status o = Completed <-> is_Some (completed_at o);
  ok_disputed : status o = Disputed -> is_Some (dispute_deadline o);
  ok_address : category_requires_shipping (product_category o) = true -> is_Some (shipping_cid o);
  ok_shipped_at : is_Some (shipped_at o) -> is_service_like (product_category o) = false;
  ok_started_at : is_Some (service_started_at o) -> is_service_like (product_category o) = true;
  ok_shipped : status o = Shipped ->
    if is_service_like (product_category o) then is_Some (service_started_at o) else is_Some (shipped_at o);
  ok_paid : status o = Paid -> shipped_at o = None;
  ok_split : status o = PartiallyRefunded -> payment_asset o = Native;
}.

(** The money of an order, as long as no automatic completion or refund of it failed. *)
Definition backed (o : Order) (v : Z) (f b : bool) : Prop :=
  match payment_asset o with
  | Native =>
      if is_active (status o) then
        v <= total_amount o /\ (f = true -> status o = Disputed) /\
        (b = false -> v = total_amount o /\ (status o = Disputed -> f = true))
      else v = 0 /\ f = false
  | _ => v = 0 /\ f = false
  end.

(** Of the orders in [E] nothing is said about the money. *)
Definition view_ok (E : Z -> Prop) (id : Z) (w : View) : Prop :=
  match v_order w with
  | Some o => order_ok id o /\ (E id \/ backed o (v_amount w) (v_frozen w) (v_failed w))
  | None => v_amount w = 0 /\ v_frozen w = false
  end.

Lemma unfinished id o : order_ok id o -> status o <> Completed -> product_category o <> Digital /\ completed_at o = None.
Proof.
  intros Hok Hst. split; [intros Hd; by apply Hst, (ok_digital _ _ Hok) |].
  destruct (completed_at o) eqn:Hc; [| done]. destruct Hst. apply (ok_completed _ _ Hok). rewrite Hc. eauto.
Qed.

Lemma change_unfinished o o' : change o o' -> status o <> Completed.
Proof.
  intros Hc Hst. destruct Hc; try congruence; repeat match goal with
    | Hf : forceable _ = true |- _ => rewrite Hst in Hf; done
    | Hor : _ \/ _ |- _ => destruct Hor; congruence end.
Qed.

(** Every change keeps an order well formed. *)
Lemma order_change_ok id o o' : change o o' -> order_ok id o -> order_ok id o'.
Proof.
  intros Hc Hok. destruct (unfinished _ _ Hok (change_unfinished _ _ Hc)) as [Hnd Hnc].
  destruct Hok as [? ? ? ? ? ? ? ? ? ? Hdl ? Hsa Hst Hsh ? ?].
  destruct Hc; split; simpl in *; try done; try (intros; congruence); try (by eauto);
    rewrite ?Hnc; try (split; [congruence | by intros [? ?]]);
    try (by intros; repeat case_match; eauto; congruence).
  all: try (unfold restored_status in *; repeat case_match; naive_solver).
Qed.

(** What an order keeps for life. *)
Definition terms (o : Order) : list Z * (AccountId * AccountId * option AccountId) * (PaymentAsset * ProductCategory) :=
  ([order_id o; entity_id o; shop_id o; product_id o; quantity o; unit_price o; total_amount o; platform_fee o; usdt_total o;
    nex_usdt_rate o; token_nex_rate o; created_at o; token_payment_amount o; shopping_balance_used o;
    token_discount_tokens_burned o], (buyer o, seller o, payer o), (payment_asset o, product_category o)).

Lemma change_terms o o' : change o o' -> terms o' = terms o.
Proof. by intros []. Qed.


Lemma settles_out o o' v v' f f' b : 0 <= platform_fee o <= total_amount o -> payment_asset o = Native -> is_active (status o) = true ->
  is_active (status o') = false -> settles o o' v v' f f' -> backed o v f b -> v' = 0 /\ f' = false.
Proof.
  intros Hfee Ha Hact Hst. unfold settles, backed. rewrite Ha, Hact. intros Hs (Hle & _).
  assert (v <> 0 /\ f' = false /\ (v' = 0 \/ v' = v - sat_sub (total_amount o) (platform_fee o) - platform_fee o /\ 0 <= v')) as (_ & -> & Hv)
    by (destruct (status o'); done).
  split; [| done]. destruct Hv as [-> | [Hv ?]]; [done |]. revert Hv. unfold sat_sub. lia.
Qed.

Lemma change_active o o' : change o o' -> is_active (status o) = true.
Proof.
  intros Hc. destruct Hc as [o cid Hs | o cid Hs | o Hs | o now Hs | o d Hs | o now cid Hs | o now Hs | o reason d Hs
    | o Hs | o Hs | o Hs | o Hs | o now Hs]; try (by rewrite Hs); try (by destruct (status o)). by destruct Hs as [-> | ->].
Qed.

Lemma change_price o o' : change o o' -> total_amount o' = total_amount o /\ payment_asset o' = payment_asset o.
Proof. by intros []. Qed.

Lemma change_backed id o o' v v' f f' b : order_ok id o -> change o o' -> settles o o' v v' f f' ->
  backed o v f b -> backed o' v' f' b.
Proof.
  intros Hok Hc Hs Hb. destruct (change_price _ _ Hc) as [Htot Hasset].
  pose proof (change_active _ _ Hc) as Hact. destruct (ok_fee _ _ Hok) as [Hf0 Hf].
  pose proof (ok_status _ _ (order_change_ok _ _ _ Hc Hok)) as Hknown.
  destruct (payment_asset o) eqn:Ha.
  - destruct (is_active (status o')) eqn:Hst.
    + unfold settles, backed in *. rewrite Hasset, Hst, Htot. rewrite Ha in Hs, Hb. rewrite Hact in Hb.
      destruct (status o') eqn:Hs'; try done; destruct Hs as [-> ->]; case_decide; naive_solver.
    + assert (0 <= platform_fee o <= total_amount o) as Hfee by lia.
      destruct (settles_out _ _ _ _ _ _ _ Hfee Ha Hact Hst Hs Hb) as [-> ->].
      unfold backed. by rewrite Hasset, Hst.
  - unfold settles, backed in *. rewrite Hasset. rewrite Ha in *. naive_solver.
  - unfold settles, backed in *. rewrite Hasset. rewrite Ha in *. naive_solver.
Qed.

Lemma move_ok E id w w' : move w w' -> view_ok E id w -> view_ok E id w'.
Proof.
  intros []; unfold view_ok; simpl; intros [Hok Hb].
  - split; [by eapply order_change_ok |]. destruct Hb as [? | Hb]; [by left | right; by eapply change_backed].
  - split; [done |]. destruct Hb as [? | Hb]; [by left | right]. destruct (ok_total _ _ Hok) as [Hpos _].
    match goal with Hf : forceable _ = true |- _ => assert (is_active (status o) = true) as Hact by (by destruct (status o)) end.
    revert Hb. unfold backed, shrunk in *. rewrite Hact. destruct (payment_asset o); naive_solver lia.
Qed.

Lemma moves_ok E id w w' : rtc move w w' -> view_ok E id w -> view_ok E id w'.
Proof. induction 1; eauto using move_ok. Qed.

(** * Placing an order *)

Section Money.
Context `{FrameSystem} {X : Type} `{EscrowPort X} `{OrderWorld X} `{EntityTokens X}.
Context `{!EscrowPortLaws X, !OrderWorldLaws X} (cfg : Config) (E : Z -> Prop).
Implicit Types (s : State X).

(** What is left to pay, by channel. *)
Definition amounts_ok (asset : PaymentAsset) (nex final shopping burned : Z) : Prop :=
  match asset with
  | Native => 0 < final <= nex /\ shopping = 0
  | EntityToken => final = nex /\ shopping = 0 /\ burned = 0
  | ShoppingBalance => final = 0 /\ shopping = nex /\ burned = 0
  end.

Lemma discounted_bounds bps total : 0 <= total -> 0 <= discounted bps total <= total.
Proof.
  intros Ht. unfold discounted, sat_sub. case_decide; [| lia].
  assert (0 <= total * bps / 10000) by (apply Z.div_pos; nia). lia.
Qed.

Lemma capped_Some v w : capped v = Some w -> w = v /\ v <= u128_max.
Proof. unfold capped. case_decide; [by intros [= <-] | done]. Qed.

Lemma price_goods_Ok entity level total s r s' : 0 <= total -> price_goods (X:=X) entity level total s = (Ok r, s') ->
  0 <= r.1.1 <= total /\ 0 < r.1.2 /\ r.2 = r.1.1 * 1000000000000 / r.1.2 /\ 0 <= r.2 <= u128_max /\ s' = s.
Proof.
  intros Ht Hr. unfold price_goods, ask in Hr. m_inv.
  match goal with Hc : capped _ = Some _ |- _ => apply capped_Some in Hc as [-> Hc] end.
  assert (0 <= (if decide (level > 0) then discounted (get_level_discount entity level (others s)) total else total) <= total) as Hb
    by (case_decide; [by apply discounted_bounds | lia]).
  set (usdt := if decide (level > 0) then _ else _) in *. set (rate := nex_usdt_price (others s)) in *. simpl.
  split_and!; try done; try lia; [apply Z.div_pos; lia |].
  trans (usdt * 1000000000000); [apply Z.div_le_upper_bound; nia | done].
Qed.

(** The guards a quote has passed. *)
Lemma quote_Ok b p product n ref s q s' : quote (X:=X) b p product n ref s = (Ok q, s') ->
  0 < n /\ q_seller q <> b /\ p <> q_seller q /\ 0 <= q_nex q <= u128_max.
Proof.
  unfold quote. intros (info & s1 & K1 & Hr)%bind_Ok. unfold check_product, ask in K1. m_inv.
  match goal with Hp : check_parties _ _ _ _ _ = _ |- _ => rename Hp into Hparties end.
  unfold check_parties, ask in Hparties. apply bind_Ok in Hparties as (? & ? & ? & Hparties).
  m_inv; match goal with
    | Ht : (if decide _ then _ else _) = Some _, Hp : price_goods _ _ _ _ = _ |- _ =>
        case_decide; [| done]; injection Ht as <-; apply price_goods_Ok in Hp as (_ & _ & _ & Hnex & _); [| nia]
    end; simpl in *; split_and!; try done; lia.
Qed.

Lemma apply_loyalty_Ok q asset b py ut s a s' : 0 <= q_nex q <= u128_max ->
  apply_loyalty (X:=X) q asset b py ut s = (Ok a, s') -> amounts_ok asset (q_nex q) a.1.1 a.1.2 a.2.
Proof.
  intros Hnex. unfold apply_loyalty, ask. intros (? & s1 & K1 & Hr)%bind_Ok. clear K1. unfold amounts_ok.
  destruct asset; cbv zeta in Hr; m_inv; simpl; try done.
  - match goal with Hp : port_val _ _ = _ |- _ => rename Hp into Hredeem end.
    unfold port_val, ask in Hredeem. m_inv.
    match goal with Hd : (redeem_for_discount ?e ?w ?v ?x).1 = Some ?d |- _ =>
      pose proof (redeem_unsigned e w v x d (redeem_for_discount e w v x).2) as Hpos;
      rewrite <- Hd, <- surjective_pairing in Hpos; specialize (Hpos eq_refl) end.
    unfold sat_sub in *. simpl in *. split; [lia | done].
  - simpl in *. split; [lia | done].
Qed.

Lemma fee_of_bounds asset rate v : 0 <= rate <= 1000 -> 0 <= v ->
  0 <= fee_of asset rate v /\ 10 * fee_of asset rate v <= v.
Proof.
  intros Hr Hv. unfold fee_of. destruct asset; [| lia..].
  assert (0 <= Z.min u128_max (v * rate)) as Hm by (unfold u128_max; nia).
  assert (Z.min u128_max (v * rate) <= v * 1000) as Hm2 by nia.
  split; [apply Z.div_pos; lia |].
  assert (Z.min u128_max (v * rate) / 10000 <= v * 1000 / 10000) as Hd by (apply Z.div_le_mono; lia).
  replace (v * 1000) with (v * (1000)) in Hd by lia. pose proof (Z.mul_div_le (v * 1000) 10000). lia.
Qed.

(** What [prepare_order] establishes. *)
Record prepared_ok (b : AccountId) (py : option AccountId) (n : Z) (sh : option bytes) (asset : PaymentAsset)
    (rate : Z) (q : Quote) (final shopping burned fee : Z) : Prop := {
  pr_quantity : 0 < n;
  pr_seller : q_seller q <> b;
  pr_payer : default b py <> q_seller q;
  pr_nex : 0 <= q_nex q <= u128_max;
  pr_amounts : amounts_ok asset (q_nex q) final shopping burned;
  pr_category : category (q_product q) <> Subscription;
  pr_address : category_requires_shipping (category (q_product q)) = true -> sh <> None;
  pr_fee : fee = fee_of asset rate final;
}.

(** The part of the state that placing an order counts on. *)
Definition own (s : State X) : gmap Z Order * Z * Z := (Orders s, NextOrderId s, PlatformFeeRate s).

Ltac own_tac :=
  unfold quote, check_product, check_parties, register_buyer, check_visibility, price_goods, check_channel, apply_loyalty,
    opt_bounded, bounded_cid, lock_payment, port, port_val, port_opt, tell, ask; framed_tac.

Lemma quote_own b p product n ref : framed own (quote (X:=X) b p product n ref).
Proof. own_tac. Qed.

Lemma loyalty_own q asset b py ut : framed own (apply_loyalty (X:=X) q asset b py ut).
Proof. own_tac. Qed.

Lemma prepare_own b py product n sh ut asset note ref : framed own (prepare_order (X:=X) cfg b py product n sh ut asset note ref).
Proof. unfold prepare_order. repeat first [ apply quote_own | apply loyalty_own | progress own_tac ]. Qed.

Lemma prepare_Ok b py product n sh ut asset note ref s q final shopping burned fee s' :
  prepare_order cfg b py product n sh ut asset note ref s = (Ok (q, (final, shopping, burned), fee), s') ->
  prepared_ok b py n sh asset (PlatformFeeRate s) q final shopping burned fee.
Proof.
  unfold prepare_order. intros (q' & s1 & K1 & Hr)%bind_Ok. pose proof (quote_own _ _ _ _ _ _ _ _ K1) as Ho1.
  apply quote_Ok in K1 as (Hn & Hb & Hp & Hnex). apply bind_Ok in Hr as ([] & s2 & K2 & Hr).
  assert (own s2 = own s1) as Ho2.
  { revert K2. match goal with |- ?m s1 = _ -> _ => assert (framed own m) as Hq by own_tac end. apply Hq. }
  apply bind_Ok in Hr as ([[f1 sh1] bu1] & s3 & K3 & Hr). pose proof (loyalty_own _ _ _ _ _ _ _ _ K3) as Ho3.
  apply apply_loyalty_Ok in K3; [| done]. unfold opt_bounded, bounded_cid in Hr. simpl in K3.
  rewrite Ho2, Ho1 in Ho3. injection Ho3 as _ _ Hrate.
  m_inv; (split; try done; congruence).
Qed.

(** The view of an order is left alone as well. *)
Ltac prep_tac :=
  unfold check_product, check_parties, register_buyer, check_visibility, price_goods, check_channel, apply_loyalty,
    opt_bounded, bounded_cid, ask; view_tac.

Lemma quote_view j b p product n ref : framed (view j) (quote (X:=X) b p product n ref).
Proof. unfold quote. prep_tac. Qed.

Lemma loyalty_view j q asset b py ut : framed (view j) (apply_loyalty (X:=X) q asset b py ut).
Proof. prep_tac. Qed.

Lemma prepare_view j b py product n sh ut asset note ref :
  framed (view j) (prepare_order (X:=X) cfg b py product n sh ut asset note ref).
Proof. unfold prepare_order. repeat first [ apply quote_view | apply loyalty_view | progress prep_tac ]. Qed.

(** ** The order that is made *)

Lemma token_amount_nonneg q asset payer_ id final mx mt s token s' : 0 <= final ->
  lock_payment (X:=X) q asset payer_ id final mx mt s = (Ok token, s') ->
  0 <= token.1 /\ (asset <> EntityToken -> token.1 = 0).
Proof.
  intros Hf. unfold lock_payment, ask. destruct asset; intros Hr; cbv zeta in Hr; m_inv; simpl; try done.
  match goal with Hc : capped _ = Some _ |- _ => apply capped_Some in Hc as [-> _] end.
  split; [apply Z.div_pos; lia | done].
Qed.

Lemma amounts_nonneg asset nex final shopping burned : 0 <= nex <= u128_max -> amounts_ok asset nex final shopping burned ->
  0 <= final <= u128_max.
Proof. unfold amounts_ok. destruct asset; lia. Qed.

Lemma new_order_ok env id product b py n q asset sh note final fee shopping burned token rate :
  0 <= rate <= 1000 -> prepared_ok b py n sh asset rate q final shopping burned fee ->
  0 <= token.1 -> (asset <> EntityToken -> token.1 = 0) ->
  order_ok id (new_order env id product b py n q asset sh note final fee shopping burned token).
Proof.
  intros Hrate [Hn Hs Hp Hnex Ham Hcat Hadr ->] Htok Htok0.
  pose proof (amounts_nonneg _ _ _ _ _ Hnex Ham) as Hfin. destruct (fee_of_bounds asset rate final Hrate) as [Hf0 Hf]; [lia |].
  split; simpl; try done.
  - destruct asset; simpl in *; try (rewrite Htok0 by done); naive_solver lia.
  - intros Hd. by rewrite bool_decide_true.
  - by case_bool_decide.
  - split; [done |]. destruct py as [p |]; [| done]. simpl in Hp. case_decide; [done |]. split; congruence.
  - case_bool_decide; [done |]. split; [done | by intros [? ?]].
  - by case_bool_decide.
  - intros Hc. destruct sh; [eauto |]. by specialize (Hadr Hc).
  - by case_bool_decide.
  - by case_bool_decide.
Qed.

(** ** Recording it *)

Definition counters (s : State X) : Z * Z := (NextOrderId s, PlatformFeeRate s).

Ltac counters_tac :=
  unfold do_complete_order, pay_native, pay_tokens, operation_failed, deposit_event, update_order, port, port_try, port_val,
    port_opt, tell, ask, push_expiry, drop_expiry; framed_tac.

Lemma complete_counters env id o : framed counters (do_complete_order (X:=X) cfg env id o).
Proof. counters_tac. Qed.

Lemma lock_elsewhere_view j q asset payer_ id final mx mt : j <> id ->
  framed (view j) (lock_payment (X:=X) q asset payer_ id final mx mt).
Proof. intros. unfold lock_payment, ask. view_tac. Qed.

Lemma index_view j o : framed (view j) (index_order (X:=X) cfg o).
Proof. unfold index_order. view_tac. Qed.

Lemma insert_elsewhere j id o : j <> id -> framed (view j) (modify (E:=DispatchError Error) (fun s => s <| Orders ::= <[id := o]> |>)).
Proof. intros Hj s r s' [= <- <-]. unfold view, failed. simpl. by rewrite lookup_insert_ne. Qed.

Lemma record_elsewhere j env id b py product n sh asset note ref mx mt p : j <> id ->
  framed (view j) (record_order (X:=X) cfg env id b py product n sh asset note ref mx mt p).
Proof.
  intros Hj. unfold record_order. destruct p as [[q [[final shopping] burned]] fee].
  repeat first [ by apply lock_elsewhere_view | by apply insert_elsewhere | apply index_view
               | by apply complete_elsewhere | view_step | progress cbv zeta ].
Qed.

(** The identifier is used up, or the call failed before. *)
Definition counted (id rate : Z) (s : State X) : Prop :=
  (NextOrderId s = id \/ NextOrderId s = id + 1) /\ PlatformFeeRate s = rate.

Lemma kept_counters {A} id rate (m : M (State X) (DispatchError Error) A) : framed counters m -> kept (counted id rate) m.
Proof. intros Hm s r s' Hs Hr. apply Hm in Hr. injection Hr as Hn Hp. unfold counted in *. by rewrite Hn, Hp. Qed.

Lemma kept_some {A B} (P : State X -> Prop) (a : A) e (k : A -> M (State X) (DispatchError Error) B) :
  kept P (k a) -> kept P (bind (ok_or (Some a) e) k).
Proof. intros Hk s r s'. apply Hk. Qed.

Lemma record_counted env id rate b py product n sh asset note ref mx mt p :
  kept (counted id rate) (record_order (X:=X) cfg env id b py product n sh asset note ref mx mt p).
Proof.
  unfold record_order. destruct p as [[q [[final shopping] burned]] fee].
  apply kept_bind; [apply kept_counters; own_tac | intros token].
  do 2 (apply kept_bind; [apply kept_counters; own_tac | intros _]).
  apply kept_bind; [apply kept_counters; framed_tac | intros _].
  apply kept_bind; [apply kept_counters; unfold index_order; framed_tac | intros _].
  case_decide; [| exact (kept_fail _ _)]. apply kept_some. apply kept_bind.
  - apply kept_modify. intros s [_ Hr]. split; [by right | done].
  - intros _. apply kept_counters.
    repeat first [ apply complete_counters | progress unfold push_expiry, deposit_event, tell | framed_step | progress cbv zeta ].
Qed.

(** The money is locked before the order is stored. *)
Lemma lock_Ok q asset payer_ id final mx mt s token s' : 0 <= final <= u128_max ->
  escrow_amount id (others s) = 0 -> escrow_frozen id (others s) = false ->
  lock_payment q asset payer_ id final mx mt s = (Ok token, s') ->
  view id s' = mkView (Orders s !! id) (if decide (asset = Native) then final else 0) false (failed id s).
Proof.
  intros Hfin Ha Hf Hr. destruct (decide (asset = Native)) as [-> | Hne].
  - unfold lock_payment in Hr. m_inv.
    match goal with Hp : port _ _ = _ |- _ => apply port_Ok in Hp as [Ht ->] end.
    pose proof (lock_locks _ _ _ _ Ht Ha Hfin) as Hx. rewrite Hf in Hx. exact (at_escrow_view _ _ _ _ _ Hx).
  - trans (view id s); [| unfold view; by rewrite Ha, Hf].
    assert (framed (view id) (lock_payment (X:=X) q asset payer_ id final mx mt)) as Hq; [| by eapply Hq].
    unfold lock_payment, ask. destruct asset; [done | view_tac..].
Qed.

(** The writes between the payment and the completion. *)
Definition store_tail (env : Env) (id : Z) (o : Order) (ref : option AccountId) (final : Z) (asset : PaymentAsset) (token : Z) :
    M (State X) (DispatchError Error) unit :=
  (if bool_decide (product_category o = Digital) then ret tt else push_expiry cfg (later (block_number env) (ShipTimeout cfg)) id) >>
  match ref with Some r => modify (fun s => s <| OrderReferrer ::= <[id := r]> |>) | None => ret tt end >>
  modify (fun s => s <| OrderStats ::= fun st => st <| total_orders ::= fun n => sat_add u64_max n 1 |> |>) >>
  deposit_event (EvOrderCreated id (entity_id o) (buyer o) (seller o) (payer o) final asset token (usdt_total o) (nex_usdt_rate o)) >>
  if bool_decide (product_category o = Digital) then do_complete_order cfg env id o
  else tell (chat_grant id (buyer o) (seller o)).

Lemma tail_Ok env id o ref final asset token s u s' : fee_ok o -> Orders s !! id = Some o ->
  store_tail env id o ref final asset token s = (Ok u, s') ->
  if decide (product_category o = Digital) then
    exists v' f', view id s' = mkView (Some (o <| status := Completed |> <| completed_at := Some (block_number env) |>)) v' f' (failed id s) /\
      paid_out o (v_amount (view id s)) v' (v_frozen (view id s)) f'
  else view id s' = view id s.
Proof.
  intros Hfee Ho. unfold store_tail. intros (? & s1 & K1 & Hr)%bind_Ok.
  apply bind_Ok in Hr as (? & s2 & K2 & Hr). apply bind_Ok in Hr as (? & s3 & K3 & Hr). apply bind_Ok in Hr as (? & s4 & K4 & Hr).
  assert (view id s4 = view id s) as Hv.
  { trans (view id s3); [apply (framed_event id) in K4; [exact K4 | done] |].
    trans (view id s2); [revert K3; apply framed_modify; done |].
    trans (view id s1); [revert K2; destruct ref; [by apply framed_modify | by apply framed_ret] |].
    revert K1. case_bool_decide; [by apply framed_ret | apply framed_push]. }
  rewrite <- (view_order _ _ _ Hv) in Ho. case_decide as Hd.
  - rewrite bool_decide_true in Hr by done. destruct (complete_Ok _ _ _ _ _ _ _ Hfee Hr Ho) as (v' & f' & Hv' & Hp).
    rewrite Hv in Hp. exists v', f'. split; [| done]. rewrite Hv'. f_equal. by injection Hv.
  - rewrite bool_decide_false in Hr by done. rewrite <- Hv. revert Hr. apply framed_tell. intros. apply grant_quiet.
Qed.

(** Storing an order puts it in its view. *)
Lemma insert_view id o s r s' : modify (E:=DispatchError Error) (fun s => s <| Orders ::= <[id := o]> |>) s = (r, s') ->
  view id s' = mkView (Some o) (v_amount (view id s)) (v_frozen (view id s)) (failed id s).
Proof. intros [= _ <-]. unfold view, failed. simpl. by rewrite lookup_insert_eq. Qed.

Lemma record_Ok env id rate b py product n sh asset note ref mx mt q final shopping burned fee s u s' :
  0 <= rate <= 1000 -> prepared_ok b py n sh asset rate q final shopping burned fee ->
  escrow_amount id (others s) = 0 -> escrow_frozen id (others s) = false ->
  record_order cfg env id b py product n sh asset note ref mx mt (q, (final, shopping, burned), fee) s = (Ok u, s') ->
  exists token, let o := new_order env id product b py n q asset sh note final fee shopping burned token in
    order_ok id o /\
    view id s' = mkView (Some o)
      (if decide (asset = Native /\ product_category o <> Digital) then final else 0) false (failed id s).
Proof.
  intros Hrate Hprep Hamount Hfrozen. unfold record_order. intros (token & s1 & K1 & Hr)%bind_Ok. exists token.
  pose proof (amounts_nonneg _ _ _ _ _ (pr_nex _ _ _ _ _ _ _ _ _ _ _ Hprep) (pr_amounts _ _ _ _ _ _ _ _ _ _ _ Hprep)) as Hfin.
  destruct (token_amount_nonneg _ _ _ _ _ _ _ _ _ _ (proj1 Hfin) K1) as [Htok Htok0].
  pose proof (new_order_ok env id product b py n q asset sh note final fee shopping burned token rate Hrate Hprep Htok Htok0) as Hok.
  apply lock_Ok in K1; [| done..].
  set (o := new_order env id product b py n q asset sh note final fee shopping burned token) in *.
  apply bind_Ok in Hr as (? & s2 & K2 & Hr). eapply (framed_port id) in K2; [| port_law].
  apply bind_Ok in Hr as (? & s3 & K3 & Hr). eapply (framed_port id) in K3; [| port_law].
  apply bind_Ok in Hr as (? & s4 & K4 & Hr). apply insert_view in K4.
  apply bind_Ok in Hr as (? & s5 & K5 & Hr). apply (index_view id) in K5.
  apply bind_Ok in Hr as (next & s6 & K6 & Hr). apply (framed_ok_or (view id)) in K6.
  apply bind_Ok in Hr as (? & s7 & K7 & Hr). apply (framed_modify (view id)) in K7; [| done].
  assert (view id s7 = mkView (Some o) (if decide (asset = Native) then final else 0) false (failed id s)) as Hv.
  { rewrite K2, K1 in K3. rewrite K7, K6, K5, K4, K3. simpl. f_equal. by injection K3. }
  split; [exact Hok |].
  change (store_tail env id o ref final asset token.1 s7 = (Ok u, s')) in Hr.
  assert (fee_ok o) as Hfee by apply (ok_fee _ _ Hok).
  assert (Orders s7 !! id = Some o) as Ho by (injection Hv; done).
  pose proof (tail_Ok _ _ _ _ _ _ _ _ _ _ Hfee Ho Hr) as Ht. rewrite Hv in Ht. simpl in Ht.
  case_decide as Hd.
  - destruct Ht as (v' & f' & -> & Hp). rewrite (decide_False (P:=asset = Native /\ _)) by tauto.
    assert (status o = Completed) as Hst by (by apply (ok_digital _ _ Hok)).
    f_equal; [| | | by injection Hv].
    + unfold o, new_order. simpl. unfold o in Hd. simpl in Hd. by rewrite bool_decide_true by done.
    + revert Hp. unfold paid_out. simpl. destruct asset; simpl; [| intros [-> _]; done..].
      destruct (ok_fee _ _ Hok). simpl in *. unfold sat_sub. intros (? & _ & _ & [-> | [-> ?]]); lia.
    + revert Hp. unfold paid_out. simpl. destruct asset; simpl; naive_solver.
  - rewrite Ht. f_equal. repeat case_decide; tauto.
Qed.

(** A call that succeeds uses the identifier up. *)
Lemma record_next env id b py product n sh asset note ref mx mt p s u s' :
  record_order cfg env id b py product n sh asset note ref mx mt p s = (Ok u, s') -> NextOrderId s' = id + 1.
Proof.
  unfold record_order. destruct p as [[q [[final shopping] burned]] fee].
  intros (token & s1 & _ & Hr)%bind_Ok. do 4 (apply bind_Ok in Hr as (? & ? & _ & Hr)).
  apply bind_Ok in Hr as (next & s6 & K6 & Hr). apply ok_or_Ok in K6 as [Hn ->]. case_decide; [| done]. injection Hn as <-.
  apply bind_Ok in Hr as (? & s7 & [= _ <-] & Hr).
  match type of Hr with ?m ?st = _ => assert (framed counters m) as Hq end.
  { repeat first [ apply complete_counters | progress unfold push_expiry, deposit_event, tell | framed_step | progress cbv zeta ]. }
  apply Hq in Hr. by injection Hr.
Qed.

(** An order out of a shopping balance, whether or not the call succeeds. *)
Definition harmless (id : Z) (s : State X) : Prop :=
  view_ok E id (view id s) /\ escrow_amount id (others s) = 0 /\ escrow_frozen id (others s) = false /\
  (forall o, Orders s !! id = Some o -> payment_asset o = ShoppingBalance).

Definition holding (id : Z) (o : Order) (s : State X) : Prop := exists b, view id s = mkView (Some o) 0 false b.

Lemma kept_harmless {A} id (m : M (State X) (DispatchError Error) A) : framed (view id) m -> kept (harmless id) m.
Proof.
  intros Hm s r s' (Hok & Ha & Hf & Hs) Hr. apply Hm in Hr. unfold harmless. rewrite (view_order _ _ _ Hr), Hr.
  injection Hr as _ Ha' Hf' _. rewrite Ha', Hf'. done.
Qed.

Lemma kept_holding {A} id o (m : M (State X) (DispatchError Error) A) : framed (view id) m -> kept (holding id o) m.
Proof. intros Hm s r s' [b Hb] Hr. exists b. by rewrite (Hm _ _ _ Hr). Qed.

Lemma holding_harmless id o s : order_ok id o -> payment_asset o = ShoppingBalance -> holding id o s -> harmless id s.
Proof.
  intros Hok Ha [b Hb]. unfold harmless. rewrite Hb. injection Hb as Ho Hv Hf _. rewrite Ho, Hv, Hf.
  split_and!; try done; [| by intros ? [= <-]]. unfold view_ok, backed. simpl. rewrite Ha. by auto.
Qed.

(** Whatever way the completion of an order out of a shopping balance ends. *)
Lemma complete_harmless env id o s r s' : order_ok id o -> payment_asset o = ShoppingBalance -> holding id o s ->
  do_complete_order cfg env id o s = (r, s') ->
  harmless id s' \/ holding id (o <| status := Completed |> <| completed_at := Some (block_number env) |>) s'.
Proof.
  intros Hok Ha [b Hb] Hr. assert (fee_ok o) as Hfee by apply (ok_fee _ _ Hok).
  assert (Orders s !! id = Some o) as Ho by (injection Hb; done). destruct r as [u | e].
  - destruct (complete_Ok _ _ _ _ _ _ _ Hfee Hr Ho) as (v' & f' & Hv & Hp). rewrite Hb in Hp. unfold paid_out in Hp.
    rewrite Ha in Hp. destruct Hp as [-> ->]. right. eexists. exact Hv.
  - destruct (complete_Err _ _ _ _ _ _ _ Hfee Hr) as (v' & f' & Hv & Hp). rewrite Hb in Hp. unfold half_paid in Hp.
    rewrite Ha in Hp. destruct Hp as [-> ->]. left. eapply holding_harmless; [exact Hok | done |]. eexists. by rewrite Hv, Ho.
Qed.

Lemma completed_order_ok id o now : order_ok id o -> product_category o = Digital ->
  order_ok id (o <| status := Completed |> <| completed_at := Some now |>).
Proof.
  intros Hok Hd. pose proof (ok_digital _ _ Hok Hd) as Hst. destruct Hok. split; simpl in *; try done; eauto.
Qed.

Lemma tail_harmless env id o ref final asset token : order_ok id o -> payment_asset o = ShoppingBalance ->
  forall s r s', holding id o s -> store_tail env id o ref final asset token s = (r, s') -> harmless id s'.
Proof.
  intros Hok Ha s r s' Hs Hr.
  assert (forall m : M (State X) (DispatchError Error) unit,
    (forall s r s', holding id o s -> m s = (r, s') -> harmless id s') ->
    forall m1 : M (State X) (DispatchError Error) unit, framed (view id) m1 ->
    forall s r s', holding id o s -> (m1 >> m) s = (r, s') -> harmless id s') as Hseq.
  { intros m Hm m1 Hm1 s1 r1 s1' Hs1. unfold bind. destruct (m1 s1) as [[? | ?] s2] eqn:Hm1s.
    - apply Hm. by eapply kept_holding.
    - intros [= _ <-]. eapply holding_harmless; [exact Hok | done |]. by eapply kept_holding. }
  revert Hs Hr. unfold store_tail. revert s r s'.
  apply Hseq; [| case_bool_decide; [apply framed_ret | apply framed_push]].
  apply Hseq; [| destruct ref; [by apply framed_modify | apply framed_ret]].
  apply Hseq; [| by apply framed_modify]. apply Hseq; [| by apply framed_event].
  intros s r s' Hs. case_bool_decide as Hd.
  - intros [? | Hh]%(complete_harmless _ _ _ _ _ _ Hok Ha Hs); [done |].
    eapply holding_harmless; [by apply completed_order_ok | done | exact Hh].
  - intros Hr. eapply holding_harmless; [exact Hok | done |]. eapply kept_holding; [| exact Hs | exact Hr].
    apply framed_tell. intros. apply grant_quiet.
Qed.

Lemma kept_ret_bind {A B} (P : State X -> Prop) (a : A) (k : A -> M (State X) (DispatchError Error) B) :
  kept P (k a) -> kept P (bind (ret a) k).
Proof. intros Hk s r s'. apply Hk. Qed.

Lemma record_harmless env id rate b py product n sh note ref mx mt q final shopping burned fee :
  0 <= rate <= 1000 -> prepared_ok b py n sh ShoppingBalance rate q final shopping burned fee ->
  kept (harmless id) (record_order (X:=X) cfg env id b py product n sh ShoppingBalance note ref mx mt (q, (final, shopping, burned), fee)).
Proof.
  intros Hrate Hprep. unfold record_order, lock_payment. apply kept_ret_bind.
  do 2 (apply kept_bind; [apply kept_harmless, framed_port; port_law | intros _]).
  set (o := new_order env id product b py n q ShoppingBalance sh note final fee shopping burned (0, 0)).
  assert (order_ok id o) as Hok by (by eapply new_order_ok).
  intros s r s' (_ & Hv & Hf & _). unfold bind at 1. destruct (modify _ s) as [rm s1] eqn:K1.
  pose proof (insert_view _ _ _ _ _ K1) as Hs1. injection K1 as <- _. simpl in Hs1. rewrite Hv, Hf in Hs1.
  assert (holding id o s1) as Hh by (by eexists). clear Hs1.
  unfold bind at 1. destruct (index_order cfg o s1) as [ri s2] eqn:K2.
  apply (kept_holding id o _ (index_view id o)) in K2; [| done].
  destruct ri as [u | e]; [| intros [= _ <-]; by eapply holding_harmless].
  case_decide; [| intros [= _ <-]; by eapply holding_harmless].
  unfold bind at 1, ok_or, ret. unfold bind at 1, modify. intros Hr.
  eapply (tail_harmless env id o ref final ShoppingBalance 0 Hok); [done | | exact Hr].
  destruct K2 as [b2 Hb2]. by exists b2.
Qed.

(** * All runs *)

Record Inv (s : State X) : Prop := {
  inv_next : 0 <= NextOrderId s;
  inv_rate : 0 <= PlatformFeeRate s <= 1000;
  inv_view : forall id, view_ok E id (view id s);
  inv_excused : forall id, E id -> id < NextOrderId s;
  (** Only a failed automatic order may be stored under an identifier not yet used up. *)
  inv_fresh : forall id o, NextOrderId s <= id -> Orders s !! id = Some o -> payment_asset o = ShoppingBalance;
}.

Lemma inv_fees s : Inv s -> fees_ok s.
Proof.
  intros Hinv id o Ho. pose proof (inv_view s Hinv id) as Hok. unfold view_ok in Hok. simpl in Hok. rewrite Ho in Hok.
  destruct Hok as [Hok _]. apply (ok_fee _ _ Hok).
Qed.

Lemma inv_free s id : Inv s -> NextOrderId s <= id -> harmless id s.
Proof.
  intros Hinv Hid. pose proof (inv_view s Hinv id) as Hok. unfold harmless. split; [done |].
  unfold view_ok in Hok. simpl in Hok. destruct (Orders s !! id) as [o |] eqn:Ho.
  - pose proof (inv_fresh s Hinv id o Hid Ho) as Ha. destruct Hok as [_ [He | Hb]];
      [pose proof (inv_excused s Hinv id He); lia |]. unfold backed in Hb. rewrite Ha in Hb. destruct Hb as [-> ->]. split_and!; try done. by intros ? [= <-].
  - destruct Hok as [-> ->]. split_and!; try done.
Qed.

(** The asset of an order never changes. *)
Lemma move_asset w w' : rtc move w w' -> forall o', v_order w' = Some o' ->
  exists o, v_order w = Some o /\ terms o' = terms o.
Proof.
  induction 1 as [w | w1 w2 w3 Hm _ IH]; intros o' Ho'; [by eexists |].
  destruct (IH _ Ho') as (o2 & Ho2 & Ht2). destruct Hm; simpl in *; injection Ho2 as <-.
  - eexists. split; [done |]. rewrite Ht2. by apply change_terms.
  - by eexists.
Qed.

Lemma terms_asset o o' : terms o' = terms o -> payment_asset o' = payment_asset o.
Proof. intros Ht. exact (f_equal (fun t => t.2.1) Ht). Qed.

(** Moves keep the invariant. *)
Lemma moves_inv s s' : Inv s -> counters s' = counters s -> (forall j, rtc move (view j s) (view j s')) -> Inv s'.
Proof.
  intros Hinv [= Hn Hr] Hm. split; [rewrite Hn; by apply inv_next | rewrite Hr; by apply inv_rate | | |].
  - intros id. eapply moves_ok; [apply Hm | by apply inv_view].
  - rewrite Hn. by apply inv_excused.
  - intros id o Hid Ho. rewrite Hn in Hid. destruct (move_asset _ _ (Hm id) o Ho) as (o0 & Ho0 & Ht).
    rewrite (terms_asset _ _ Ht). by eapply inv_fresh.
Qed.

Definition call_typed (c : Call) : Prop := match c with CSetFeeRate rate => 0 <= rate | _ => True end.

Definition places (c : Call) : bool := match c with CPlace _ _ _ _ _ _ _ _ _ | CPlaceFor _ _ _ _ _ _ _ _ _ _ => true | _ => false end.

(** ** Calls that place nothing *)

Lemma each_counters env n ids p : framed counters (expire_each (X:=X) cfg env n ids p).
Proof.
  revert p. induction ids as [| id ids IH]; intros p; simpl; [framed_tac |].
  unfold expire_order, do_auto_refund, do_cancel_or_refund, rollback_loyalty, refund_by_asset, or_event, notify_order_cancelled.
  repeat first [ apply IH | apply complete_counters | counters_tac ].
Qed.

Lemma call_counters env origin c : places c = false -> (forall rate, c <> CSetFeeRate rate) ->
  framed counters (apply_call (X:=X) cfg env origin c).
Proof.
  intros Hp Hc. destruct c; simpl in Hp; try done; try (by destruct (Hc rate)); simpl;
    unfold cancel_order, ship_order, confirm_receipt, do_request_refund, do_approve_refund, start_service,
      complete_service, confirm_service, do_reject_refund, seller_cancel_order, do_force_refund, do_force_complete,
      update_shipping_address, extend_confirm_timeout, update_tracking, seller_refund_order, do_force_partial_refund,
      do_withdraw_dispute, cleanup_buyer_orders, cleanup_payer_orders, cleanup_shop_orders, force_process_expirations,
      do_cancel_or_refund, rollback_loyalty, refund_by_asset, or_event, notify_order_cancelled, unfreeze, unfreeze_disputed,
      validate_optional_reason_cid, validate_reason_cid, bounded_cid, get_order, signed, root;
    repeat first [ apply complete_counters | apply each_counters | progress counters_tac ].
Qed.

Lemma quiet_call_view env origin c j : targets c = None -> places c = false -> (forall target, c <> CForceExpirations target) ->
  framed (view j) (apply_call (X:=X) cfg env origin c).
Proof.
  intros Ht Hp Hc. destruct c; simpl in Ht, Hp; try done; try (by destruct (Hc target)); simpl;
    unfold set_platform_fee_rate, cleanup_buyer_orders, cleanup_payer_orders, cleanup_shop_orders, ask; view_tac.
Qed.

Lemma call_moves env origin c s u s' : places c = false -> fees_ok s -> apply_call cfg env origin c s = (Ok u, s') ->
  forall j, rtc move (view j s) (view j s').
Proof.
  intros Hp Hf Hr j. destruct (targets c) as [id |] eqn:Ht.
  - destruct (decide (j = id)) as [-> | Hj]; [by eapply target_moves |].
    by rewrite (call_elsewhere _ _ _ _ _ _ Ht Hj _ _ _ Hr).
  - destruct c; simpl in Ht, Hp; try done; try (match goal with Hr : apply_call _ ?e ?o ?c _ = _ |- _ =>
      rewrite (quiet_call_view e o c j eq_refl eq_refl ltac:(done) _ _ _ Hr); done end).
    simpl in Hr. unfold force_process_expirations, root in Hr. apply bind_Ok in Hr as (? & s1 & [_ ->]%ensure_Ok & Hr).
    apply bind_Ok in Hr as (? & s2 & K2 & Hr). etrans; [by eapply process_expired_moves in K2 |].
    revert Hr. match goal with |- ?m s2 = _ -> _ => assert (framed (view j) m) as Hq by view_tac end.
    intros Hr. by rewrite (Hq _ _ _ Hr).
Qed.

(** ** Placing *)

Lemma do_place_inv env b py product n sh ut asset note ref mx mt s r s' : Inv s ->
  do_place_order cfg env b py product n sh ut asset note ref mx mt s = (r, s') ->
  (exists u, r = Ok u) \/ default Native asset = ShoppingBalance ->
  Inv s' /\ (forall j, j < NextOrderId s -> view j s' = view j s) /\ NextOrderId s <= NextOrderId s'.
Proof.
  intros Hinv Hr Hok. unfold do_place_order in Hr. unfold bind at 1 in Hr.
  destruct (prepare_order cfg b py product n sh ut (default Native asset) note ref s) as [[[[q [[final shopping] burned]] fee] | e] s1] eqn:Hp.
  2: { injection Hr as <- <-. assert (forall j, view j s1 = view j s) as Hv by (intros j; by apply (prepare_view j) in Hp).
       apply prepare_own in Hp. injection Hp as _ Hn Hrt. split; [| split; [done | lia]].
       apply (moves_inv s s1 Hinv); [unfold counters; congruence |]. intros j. by rewrite Hv. }
  assert (forall j, view j s1 = view j s) as Hv by (intros j; by apply (prepare_view j) in Hp).
  pose proof (prepare_own _ _ _ _ _ _ _ _ _ _ _ _ Hp) as Hown. injection Hown as _ Hn Hrt.
  apply prepare_Ok in Hp. unfold bind at 1, gets in Hr. rewrite Hn in Hr. set (id := NextOrderId s) in *.
  assert (Inv s1) as Hinv1.
  { apply (moves_inv s s1 Hinv); [unfold counters; by rewrite Hn, Hrt |]. intros j. by rewrite Hv. }
  destruct (inv_free s1 id Hinv1) as (_ & Ha & Hf & Hfree); [unfold id; lia |].
  assert (counted id (PlatformFeeRate s) s') as [Hnext Hrate'].
  { eapply record_counted; [| exact Hr]. split; [by left | done]. }
  assert (forall j, j <> id -> view j s' = view j s) as Helse.
  { intros j Hj. rewrite <- Hv. by eapply record_elsewhere. }
  pose proof (inv_rate s Hinv) as Hbound. pose proof (inv_next s Hinv) as Hpos.
  assert (view_ok E id (view id s') /\ (NextOrderId s' = id -> forall o, Orders s' !! id = Some o -> payment_asset o = ShoppingBalance)) as [Hvok Hfresh].
  { destruct (decide (default Native asset = ShoppingBalance)) as [Hsb | Hne].
    - rewrite Hsb in Hr, Hp. eapply (record_harmless env id) in Hr as (? & _ & _ & ?);
        [by split | exact Hbound | exact Hp | split; [apply (inv_view s1 Hinv1) | done]].
    - destruct Hok as [[u ->] | ?]; [| done].
      destruct (record_Ok _ _ _ _ _ _ _ _ _ _ _ _ _ _ _ _ _ _ _ _ _ Hbound Hp Ha Hf Hr) as (token & Hok & Hview).
      set (o := new_order _ _ _ _ _ _ _ _ _ _ _ _ _ _ _) in *.
      assert (NextOrderId s' = id + 1) as Hnext1 by (by eapply record_next).
      split; [| lia]. rewrite Hview. split; [exact Hok |]. right. simpl. unfold backed.
      assert (payment_asset o = default Native asset /\ total_amount o = final) as [-> ->] by done.
      assert (status o = if bool_decide (product_category o = Digital) then Completed else Paid) as -> by done.
      destruct (default Native asset) eqn:Has; [| rewrite decide_False by naive_solver; done..].
      case_bool_decide as Hd; [rewrite decide_False by tauto; done |]. rewrite decide_True by done. simpl.
      done. }
  split; [| split; [intros j Hj; apply Helse; lia | lia]]. split.
  - lia.
  - by rewrite Hrate'.
  - intros j. destruct (decide (j = id)) as [-> | Hj]; [done |]. rewrite Helse by done. by apply inv_view.
  - intros j He. pose proof (inv_excused s Hinv j He). lia.
  - intros j o Hj Ho. destruct (decide (j = id)) as [-> | Hne]; [apply Hfresh; [lia | done] |].
    assert (Orders s' !! j = Orders s !! j) as Hsame by (by apply view_order, Helse).
    rewrite Hsame in Ho. eapply inv_fresh; [exact Hinv | | exact Ho]. unfold id in *. lia.
Qed.

(** ** Steps *)

(** A call by anybody in any block, what other pallets call, the hook, and anything
    the other pallets do meanwhile, except to the escrow's books. *)
Inductive step : State X -> State X -> Prop :=
| step_call env origin c r s s' : call_typed c -> dispatch cfg env origin c s = (r, s') -> step s s'
| step_port env c r s s' : port_call cfg env c s = (r, s') -> step s s'
| step_idle env w r s s' : on_idle cfg env w s = (r, s') -> step s s'
| step_others s x : quiet (others s) x -> step s (s <| others := x |>).

(** A step moves the orders there are, and keeps the invariant. *)
Definition follows (s s' : State X) : Prop :=
  Inv s' /\ NextOrderId s <= NextOrderId s' /\ (forall j, j < NextOrderId s -> rtc move (view j s) (view j s')).

Lemma follows_refl s : Inv s -> follows s s.
Proof. intros. split; [done |]. split; [lia | done]. Qed.

Lemma follows_moves s s' : Inv s -> counters s' = counters s -> (forall j, rtc move (view j s) (view j s')) -> follows s s'.
Proof. intros Hinv Hc Hm. split; [by eapply moves_inv |]. injection Hc as -> _. split; [lia | auto]. Qed.

Lemma set_rate_follows origin rate s u s' : Inv s -> 0 <= rate -> set_platform_fee_rate origin rate s = (Ok u, s') -> follows s s'.
Proof.
  intros Hinv Hrate Hr. assert (forall j, view j s' = view j s) as Hv.
  { intros j. revert Hr. match goal with |- ?m s = _ -> _ => assert (framed (view j) m) as Hq end; [| apply Hq].
    unfold set_platform_fee_rate. view_tac. }
  unfold set_platform_fee_rate, root, deposit_event in Hr. m_inv. split; [| split; [simpl; lia | intros j _; by rewrite Hv]].
  split; simpl; [by apply inv_next | lia | | by apply inv_excused | by apply inv_fresh].
  intros id. rewrite Hv. by apply inv_view.
Qed.

Lemma place_follows env b py product n sh ut asset note ref mx mt s u s' : Inv s ->
  do_place_order cfg env b py product n sh ut asset note ref mx mt s = (Ok u, s') -> follows s s'.
Proof.
  intros Hinv Hr. eapply do_place_inv in Hr as (Hinv' & Hv & Hn); [| done | by left; eexists].
  split; [done |]. split; [done |]. intros j Hj. by rewrite Hv.
Qed.

Lemma call_follows env origin c s u s' : Inv s -> call_typed c -> apply_call cfg env origin c s = (Ok u, s') -> follows s s'.
Proof.
  intros Hinv Ht Hr. destruct (places c) eqn:Hp.
  - destruct c; try done; simpl in Hr; [unfold place_order in Hr | unfold place_order_for in Hr];
      apply bind_Ok in Hr as (who & s1 & [_ ->]%ok_or_Ok & Hr); by eapply place_follows.
  - destruct c; try done.
    all: try (apply follows_moves; [done | eapply call_counters; [| | exact Hr]; done | by eapply call_moves; [| apply inv_fees | exact Hr]]).
    simpl in Hr. by eapply set_rate_follows.
Qed.

Lemma auto_follows env b product s r s' : Inv s -> do_place_order_for_auto_repurchase cfg env b product s = (r, s') -> follows s s'.
Proof.
  intros Hinv. unfold do_place_order_for_auto_repurchase. unfold bind at 1, gets. unfold bind at 1.
  destruct (do_place_order _ _ _ _ _ _ _ _ _ _ _ _ _ s) as [rp s1] eqn:Hp.
  apply do_place_inv in Hp as (Hinv' & Hv & Hn); [| done | by right].
  assert (follows s s1) as Hf by (split; [done |]; split; [done |]; intros j Hj; by rewrite Hv).
  destruct rp; by intros [= _ <-].
Qed.

Lemma cross_follows env b py product n m ref s id s' : Inv s -> do_cross_order cfg env b py product n m ref s = (Ok id, s') -> follows s s'.
Proof.
  intros Hinv Hr. unfold do_cross_order, ask in Hr. m_inv. by eapply place_follows.
Qed.

Lemma step_follows s s' : Inv s -> step s s' -> follows s s'.
Proof.
  intros Hinv Hstep. destruct Hstep as [env origin c r s s' Ht Hr | env c r s s' Hr | env w r s s' Hr | s x Hq].
  - apply transactional_cases in Hr as [([] & -> & Hr) | (e & -> & ->)]; [by eapply call_follows | by apply follows_refl].
  - destruct c as [b p | b py p n m ref]; [by eapply auto_follows |].
    apply transactional_cases in Hr as [(id & -> & Hr) | (e & -> & ->)]; [by eapply cross_follows | by apply follows_refl].
  - unfold on_idle in Hr. case_decide; [by apply ret_inv in Hr as [_ ->]; apply follows_refl |].
    apply follows_moves; [done | | by eapply process_expired_moves; [apply inv_fees | exact Hr]].
    revert Hr. match goal with |- ?m s = _ -> _ => assert (framed counters m) as Hc end.
    { unfold process_expired_orders. repeat first [ apply each_counters | framed_step | progress cbv zeta ]. }
    apply Hc.
  - apply follows_moves; [done | done |]. intros j. by rewrite (view_with_ports j s x (Hq j)).
Qed.

Lemma run_follows s s' : Inv s -> rtc step s s' -> follows s s'.
Proof.
  intros Hinv Hrun. induction Hrun as [s | s1 s2 s3 Hs _ IH]; [by apply follows_refl |].
  destruct (step_follows _ _ Hinv Hs) as (Hinv2 & Hn & Hm). destruct (IH Hinv2) as (Hinv3 & Hn3 & Hm3).
  split; [done |]. split; [lia |]. intros j Hj. etrans; [by apply Hm | apply Hm3; lia].
Qed.

End Money.

(** * What follows *)

Section Theorems.
Context `{FrameSystem} {X : Type} `{EscrowPort X} `{OrderWorld X} `{EntityTokens X}.
Context `{!EscrowPortLaws X, !OrderWorldLaws X} (cfg : Config).
Implicit Types (s : State X).

(** The start: an escrow without locks. *)
Definition empty_escrow (x : X) : Prop := forall id, at_escrow id x = (0, false).

Lemma genesis_orders_inv x : empty_escrow x -> Inv (fun _ => False) (genesis x).
Proof.
  intros Hx. split; simpl; try lia.
  - intros id. specialize (Hx id). unfold at_escrow in Hx. unfold view_ok. simpl. by injection Hx.
  - by intros id o _ Ho%lookup_empty_Some.
Qed.

Lemma reach_inv x s : empty_escrow x -> rtc (step cfg) (genesis x) s -> Inv (fun _ => False) s.
Proof.
  intros Hx. apply rtc_invariant; [| by apply genesis_orders_inv]. intros s1 s2 Hinv Hs. by apply (step_follows _ _ _ _ Hinv Hs).
Qed.

(** ** Others at the escrow *)

(** The same, while others settle, freeze or empty what is locked for the stored orders
    in [E], as the arbitration does with the orders it decides. *)
Inductive estep (E : Z -> Prop) : State X -> State X -> Prop :=
| es_step s s' : step cfg s s' -> estep E s s'
| es_touch s x :
    (forall j, at_escrow j x <> at_escrow j (others s) -> E j /\ j < NextOrderId s /\ is_Some (Orders s !! j)) ->
    estep E s (s <| others := x |>).

Lemma run_estep E s s' : rtc (step cfg) s s' -> rtc (estep E) s s'.
Proof. apply rtc_subrel. intros s1 s2. apply es_step. Qed.

(** The identifiers of [E] in use. *)
Definition used (E : Z -> Prop) s (j : Z) : Prop := E j /\ j < NextOrderId s.

Lemma inv_widen (E E' : Z -> Prop) s : Inv E s -> (forall j, E j -> E' j) -> (forall j, E' j -> j < NextOrderId s) -> Inv E' s.
Proof.
  intros [Hn Hr Hv _ Hf] Hsub Hlt. split; [done | done | | done | done].
  intros id. specialize (Hv id). revert Hv. unfold view_ok. destruct (v_order _); [| done].
  intros [Hok [He | Hb]]; auto.
Qed.

Lemma touch_inv E s x : Inv (used E s) s ->
  (forall j, at_escrow j x <> at_escrow j (others s) -> E j /\ j < NextOrderId s /\ is_Some (Orders s !! j)) ->
  Inv (used E s) (s <| others := x |>).
Proof.
  intros [Hn Hr Hv He Hf] Hx. split; [done | done | | done | done].
  intros id. specialize (Hv id). destruct (decide (at_escrow id x = at_escrow id (others s))) as [Heq | Hne].
  - by rewrite (view_with_ports id s x Heq).
  - destruct (Hx id Hne) as (HE & Hid & [o Ho]). revert Hv. unfold view_ok. simpl. rewrite Ho.
    intros [Hok _]. split; [done |]. left. by split.
Qed.

Lemma estep_follows E s s' : Inv (used E s) s -> estep E s s' ->
  Inv (used E s') s' /\ NextOrderId s <= NextOrderId s' /\
  (forall j, j < NextOrderId s -> rtc move (view j s) (view j s') \/ Orders s' !! j = Orders s !! j).
Proof.
  intros Hinv Hstep. revert Hinv. destruct Hstep as [s1 s2 Hs | s1 x Hx]; intros Hinv.
  - destruct (step_follows _ _ _ _ Hinv Hs) as (Hinv' & Hn & Hm). split; [| split; [done | auto]].
    eapply inv_widen; [exact Hinv' | | by intros j [_ Hj]]. intros j [HE Hj]. split; [done | lia].
  - split; [exact (touch_inv E s1 x Hinv Hx) | split; [simpl; lia | by right]].
Qed.

Lemma ereach_inv E x s : empty_escrow x -> rtc (estep E) (genesis x) s -> Inv (used E s) s.
Proof.
  intros Hx. apply (rtc_invariant (estep E) (fun s => Inv (used E s) s)).
  - intros s1 s2 Hinv Hs. by apply (estep_follows E s1 s2).
  - eapply inv_widen; [by apply genesis_orders_inv | done | by intros j [_ Hj]].
Qed.

End Theorems.

(** * Orders whose money is gone *)

Section Emptied.
Context `{FrameSystem} {X : Type} `{EscrowPort X} `{OrderWorld X} `{EntityTokens X}.
Context `{!EscrowPortLaws X, !OrderWorldLaws X} (cfg : Config).
Implicit Types (s : State X).

Definition unfunded (w : View) : Prop :=
  exists o, v_order w = Some o /\ payment_asset o = Native /\ is_active (status o) = true /\ v_amount w = 0.

Lemma unfunded_move w w' : move w w' -> unfunded w -> unfunded w'.
Proof.
  intros [o o' v v' f f' b Hc Hs | o v v' f f' b _ Hv _ _] (o1 & [= <-] & Ha & Hact & Hz); simpl in Hz; subst v.
  - exists o'. destruct (change_price _ _ Hc) as [_ ->]. split; [done |]. split; [done |]. unfold settles in Hs. rewrite Ha in Hs.
    simpl. destruct (status o'); naive_solver.
  - exists o. split_and!; try done. simpl. specialize (Hv Ha). unfold shrunk in Hv. lia.
Qed.

(** Someone else empties the entry of one order. *)
Lemma emptied_inv s id x : Inv (fun _ => False) s -> id < NextOrderId s -> (forall j, j <> id -> at_escrow j x = at_escrow j (others s)) ->
  is_Some (Orders s !! id) -> Inv (fun j => j = id) (s <| others := x |>).
Proof.
  intros Hinv Hid Hx [o Ho]. split; [exact (inv_next _ s Hinv) | exact (inv_rate _ s Hinv) | | by intros ? -> |].
  - intros j. pose proof (inv_view _ s Hinv j) as Hok. destruct (decide (j = id)) as [-> | Hj].
    + unfold view_ok in *. simpl in *. rewrite Ho in *. split; [by apply Hok | by left].
    + rewrite (view_with_ports j s x (Hx j Hj)). revert Hok. unfold view_ok. destruct (v_order _); [| done].
      intros [? [[] | ?]]. auto.
  - exact (inv_fresh _ s Hinv).
Qed.

(** Such an order never ends: no call and no timeout can complete, cancel or refund it. *)
Lemma emptied_orders_stay x s id o y s' : empty_escrow x -> rtc (step cfg) (genesis x) s ->
  id < NextOrderId s -> Orders s !! id = Some o -> payment_asset o = Native -> is_active (status o) = true ->
  (forall j, j <> id -> at_escrow j y = at_escrow j (others s)) -> escrow_amount id y = 0 ->
  rtc (step cfg) (s <| others := y |>) s' ->
  exists o', Orders s' !! id = Some o' /\ is_active (status o') = true /\ escrow_amount id (others s') = 0.
Proof.
  intros Hx Hrun Hid Ho Ha Hact Hy Hz Hrun'. pose proof (reach_inv _ _ _ Hx Hrun) as Hinv.
  eapply emptied_inv in Hinv; [| exact Hid | exact Hy | by eexists].
  destruct (run_follows _ _ _ _ Hinv Hrun') as (_ & _ & Hm). specialize (Hm id Hid).
  assert (unfunded (view id (s <| others := y |>))) as Hu by (exists o; done).
  assert (unfunded (view id s')) as (o' & Ho' & _ & Hact' & Hz') by (induction Hm; eauto using unfunded_move).
  eauto.
Qed.
End Emptied.
End OrderMoney.
