(* ===== verification/OrderEscrow.v ===== *)
(** Orders over the escrow pallet, as the runtime connects them
    (src/runtime/src/configs/mod.rs): the escrow pallet satisfies the laws the order pallet
    assumes, so the money of orders is in its books; and what happens to an order whose
    money left the books by another way, an arbitration or a failed refund. *)

From S2P Require Import Prelude Frame EntityPorts Escrow EscrowSolvency HoldCurrency Arbitration ArbitrationEscrow.
From S2P Require Import EntityOrder OrderRules OrderMoney.

Module OrderEscrow.
Import OrderPallet OrderRules OrderMoney.
#[local] Existing Instance EscrowPallet.eta_state.

Section Runtime.
Context `{FrameSystem} {L W : Type} `{TransferCurrency L} `{EscrowPallet.PermillOps}.
Context `{OrderWorld (L * W)} `{EntityTokens (L * W)} (ecfg : EscrowPallet.Config L).

(** The escrow pallet and the rest of the chain, which shares its currency. *)
Definition Joint : Type := EscrowPallet.State L * W.

Definition rest (j : Joint) : L * W := (EscrowPallet.ledger j.1, j.2).

Definition put (j : Joint) (y : L * W) : Joint := (j.1 <| EscrowPallet.ledger := y.1 |>, y.2).

(** A call of the [Escrow] trait. *)
Definition run_escrow (m : M (EscrowPallet.State L) (DispatchError EscrowPallet.Error) unit) (j : Joint) : bool * Joint :=
  match m j.1 with
  | (Ok _, e) => (true, (e, j.2))
  | (Err _, e) => (false, (e, j.2))
  end.

#[export] Instance joint_escrow_port : EscrowPort Joint := {
  escrow_amount id j := EscrowPallet.amount_of j.1 id;
  escrow_frozen id j := bool_decide (EscrowPallet.lock_state j.1 id = EscrowPallet.STATE_DISPUTED);
  escrow_lock_from payer id v := run_escrow (EscrowPallet.lock_from ecfg payer id v);
  escrow_transfer id to v := run_escrow (EscrowPallet.transfer_from_escrow ecfg id to v);
  escrow_refund_all id to := run_escrow (EscrowPallet.refund_all ecfg id to);
  escrow_split_partial id a b bps := run_escrow (EscrowPallet.split_partial ecfg id a b bps);
  escrow_set_disputed now id := run_escrow (EscrowPallet.set_disputed ecfg (mkEnv now 0 0 []) id);
  escrow_set_resolved id := run_escrow (EscrowPallet.set_resolved id);
}.

(** The other ports do not see the escrow's books. *)
Definition lift {A} (op : L * W -> A * (L * W)) (j : Joint) : A * Joint := let r := op (rest j) in (r.1, put j r.2).
Definition lift_opt (op : L * W -> option (L * W)) (j : Joint) : option Joint := put j <$> op (rest j).
Definition lift_run (op : L * W -> L * W) (j : Joint) : Joint := put j (op (rest j)).

#[export] Instance joint_world : OrderWorld Joint := {
  shop_exists s j := shop_exists s (rest j);
  is_shop_active s j := is_shop_active s (rest j);
  shop_owner s j := shop_owner s (rest j);
  shop_entity_id s j := shop_entity_id s (rest j);
  get_product_info p j := get_product_info p (rest j);
  deduct_stock p n := lift (deduct_stock p n);
  add_sold_count p n := lift (add_sold_count p n);
  restore_stock p n := lift (restore_stock p n);
  payment_config e j := payment_config e (rest j);
  loyalty_token_enabled e j := loyalty_token_enabled e (rest j);
  shopping_balance e w j := shopping_balance e w (rest j);
  redeem_for_discount e w v := lift (redeem_for_discount e w v);
  consume_shopping_balance e w v := lift (consume_shopping_balance e w v);
  rollback_shopping_balance e w v := lift (rollback_shopping_balance e w v);
  rollback_token_discount e w v := lift (rollback_token_discount e w v);
  is_member e w j := is_member e w (rest j);
  is_banned e w j := is_banned e w (rest j);
  requires_referral e j := requires_referral e (rest j);
  get_referrer e w j := get_referrer e w (rest j);
  auto_register e w b := lift_run (auto_register e w b);
  get_effective_level e w j := get_effective_level e w (rest j);
  get_level_discount e l j := get_level_discount e l (rest j);
  nex_usdt_price j := nex_usdt_price (rest j);
  is_price_stale j := is_price_stale (rest j);
  get_token_price e j := get_token_price e (rest j);
  is_token_price_reliable e j := is_token_price_reliable e (rest j);
  token_platform_fee_rate e j := token_platform_fee_rate e (rest j);
  entity_account e j := entity_account e (rest j);
  currency_free w j := currency_free w (rest j);
  existential_deposit := existential_deposit (L * W);
  currency_reserve w v := lift_opt (currency_reserve w v);
  on_completed i := lift_run (on_completed i);
  on_cancelled i := lift_run (on_cancelled i);
  order_notice w n := lift_run (order_notice w n);
  chat_grant id b s := lift_run (chat_grant id b s);
  chat_revoke id b s := lift_run (chat_revoke id b s);
}.

#[export] Instance joint_tokens : EntityTokens Joint := {
  is_token_enabled e j := is_token_enabled e (rest j);
  token_balance e w j := token_balance e w (rest j);
  token_reserved e w j := token_reserved e w (rest j);
  token_reserve e w v := lift_opt (token_reserve e w v);
  token_unreserve e w v j := let r := token_unreserve e w v (rest j) in (put j r.1, r.2);
  token_repatriate e a b v j := (fun r => (put j r.1, r.2)) <$> token_repatriate e a b v (rest j);
}.

(** ** The laws hold *)

Definition books (id : Z) (e : EscrowPallet.State L) : Z * Z := (EscrowPallet.amount_of e id, EscrowPallet.lock_state e id).

Lemma books_at_escrow id j j' : books id j'.1 = books id j.1 -> at_escrow id j' = at_escrow id j.
Proof. unfold books, at_escrow. simpl. by intros [= -> ->]. Qed.

Lemma put_quiet j y : quiet j (put j y).
Proof. intros id. done. Qed.

Lemma run_escrow_at (m : M (EscrowPallet.State L) (DispatchError EscrowPallet.Error) unit) j :
  exists r e, m j.1 = (r, e) /\ (run_escrow m j).2 = (e, j.2) /\ ((run_escrow m j).1 = true <-> exists u, r = Ok u).
Proof.
  unfold run_escrow. destruct (m j.1) as [[u | err] e]; eexists _, _; split_and!; try done; naive_solver.
Qed.

Lemma pay_books id from to v ex err : framed (books id) (EscrowPallet.pay from to v ex err).
Proof. unfold EscrowPallet.pay. framed_tac. Qed.

Lemma unschedule_books id id' : framed (books id) (EscrowPallet.remove_expiry_schedule (L:=L) id').
Proof. apply framed_modify. intros e. unfold EscrowPallet.unschedule. by case_match. Qed.

Lemma targets_books id id' l : framed (books id) (EscrowPallet.try_targets ecfg id' l).
Proof. induction l as [| t l IH]; simpl; [framed_tac |]. repeat first [ apply IH | framed_step ]. Qed.

(** Each operation is about one identifier. *)
Lemma write_books j id (m : gmap Z Z) v : j <> id -> get0 (<[id := v]> m) j = get0 m j.
Proof. intros. rewrite get0_insert. by rewrite decide_False. Qed.

Lemma delete_books j id (m : gmap Z Z) : j <> id -> get0 (delete id m) j = get0 m j.
Proof. intros. unfold get0. by rewrite lookup_delete_ne. Qed.

Lemma framed_locked j id v : j <> id ->
  framed (books j) (modify (E:=DispatchError EscrowPallet.Error) (fun e : EscrowPallet.State L => e <| EscrowPallet.Locked ::= <[id := v]> |>)).
Proof. intros Hj. apply framed_modify. intros e. unfold books, EscrowPallet.amount_of. simpl. by rewrite write_books. Qed.

Lemma framed_unlocked j id : j <> id ->
  framed (books j) (modify (E:=DispatchError EscrowPallet.Error) (fun e : EscrowPallet.State L => e <| EscrowPallet.Locked ::= delete id |>)).
Proof. intros Hj. apply framed_modify. intros e. unfold books, EscrowPallet.amount_of. simpl. by rewrite delete_books. Qed.

Lemma framed_state j id v : j <> id ->
  framed (books j) (modify (E:=DispatchError EscrowPallet.Error) (fun e : EscrowPallet.State L => e <| EscrowPallet.LockStateOf ::= <[id := v]> |>)).
Proof. intros Hj. apply framed_modify. intros e. unfold books, EscrowPallet.lock_state. simpl. by rewrite write_books. Qed.

Ltac books_tac :=
  unfold EscrowPallet.ensure_open, EscrowPallet.take_locked, EscrowPallet.close, EscrowPallet.deposit_event, EscrowPallet.notify,
    EscrowPallet.try_schedule_expiry_at, EscrowPallet.pay_shares;
  repeat first [ progress cbv zeta | apply pay_books | apply unschedule_books | apply targets_books
               | by apply framed_locked | by apply framed_unlocked | by apply framed_state | framed_step ].

Lemma lock_books j p id v : j <> id -> framed (books j) (EscrowPallet.lock_from ecfg p id v).
Proof. intros. unfold EscrowPallet.lock_from. books_tac. Qed.
Lemma transfer_books j id to v : j <> id -> framed (books j) (EscrowPallet.transfer_from_escrow ecfg id to v).
Proof. intros. unfold EscrowPallet.transfer_from_escrow. books_tac. Qed.
Lemma refund_books j id to : j <> id -> framed (books j) (EscrowPallet.refund_all ecfg id to).
Proof. intros. unfold EscrowPallet.refund_all, EscrowPallet.settle_all. books_tac. Qed.
Lemma split_books j id a b bps : j <> id -> framed (books j) (EscrowPallet.split_partial ecfg id a b bps).
Proof. intros. unfold EscrowPallet.split_partial. books_tac. Qed.
Lemma disputed_books j env id : j <> id -> framed (books j) (EscrowPallet.set_disputed ecfg env id).
Proof. intros. unfold EscrowPallet.set_disputed, EscrowPallet.do_set_disputed. books_tac. Qed.
Lemma resolved_books j id : j <> id -> framed (books j) (EscrowPallet.set_resolved (L:=L) id).
Proof. intros. unfold EscrowPallet.set_resolved. books_tac. Qed.

Lemma elsewhere m id j : framed (books id) m -> at_escrow id (run_escrow m j).2 = at_escrow id j.
Proof.
  intros Hm. destruct (run_escrow_at m j) as (r & e & Hr & -> & _). apply books_at_escrow. by apply Hm in Hr.
Qed.

(** The operations on the identifier itself. *)
Ltac run_true Ht :=
  match type of Ht with (run_escrow ?m ?j).1 = _ =>
    destruct (run_escrow_at m j) as (r & e & Hr & -> & Hok); rewrite Hok in Ht; destruct Ht as [[] ->]; clear Hok end.

Ltac run_false Ht :=
  match type of Ht with (run_escrow ?m ?j).1 = _ =>
    destruct (run_escrow_at m j) as (r & e & Hr & -> & Hok); destruct r as [[] | err];
    [exfalso; destruct Hok as [_ Hok]; rewrite Hok in Ht; [done | by eexists] | clear Hok] end.

Ltac open_escrow H :=
  unfold EscrowPallet.lock_from, EscrowPallet.transfer_from_escrow, EscrowPallet.refund_all, EscrowPallet.settle_all,
    EscrowPallet.split_partial, EscrowPallet.set_resolved, EscrowPallet.ensure_open, EscrowPallet.take_locked,
    EscrowPallet.pay, EscrowPallet.deposit_event, EscrowPallet.notify in H; cbv zeta in H.

Lemma amount_insert id v (e : EscrowPallet.State L) : EscrowPallet.amount_of (e <| EscrowPallet.Locked ::= <[id := v]> |>) id = v.
Proof. unfold EscrowPallet.amount_of. simpl. rewrite get0_insert. by rewrite decide_True. Qed.

(** Closing an identifier empties and thaws it. *)
Definition closed_books (id : Z) (e : EscrowPallet.State L) : Prop := books id e = (0, EscrowPallet.STATE_CLOSED).

Lemma close_closed id e u e' : EscrowPallet.close id e = (Ok u, e') -> EscrowPallet.amount_of e id = 0 -> closed_books id e'.
Proof.
  unfold EscrowPallet.close, closed_books. intros (? & e1 & [= _ <-] & Hu)%bind_Ok Ha. apply (unschedule_books id) in Hu.
  rewrite Hu. unfold books, EscrowPallet.amount_of, EscrowPallet.lock_state in *. simpl. rewrite Ha, get0_insert.
  by rewrite decide_True.
Qed.

Lemma closed_at id e w : closed_books id e -> at_escrow id (e, w) = (0, false).
Proof. unfold closed_books, books, at_escrow. simpl. by intros [= -> ->]. Qed.

(** What an operation asks of the state, and that a payment keeps the books. *)
Lemma ensure_open_inv id (e : EscrowPallet.State L) u e' : EscrowPallet.ensure_open id e = (Ok u, e') ->
  e' = e /\ EscrowPallet.lock_state e id <> EscrowPallet.STATE_DISPUTED /\ EscrowPallet.lock_state e id <> EscrowPallet.STATE_CLOSED.
Proof. unfold EscrowPallet.ensure_open. intros Hr. m_inv. done. Qed.

Lemma pay_keeps id from to v ex err e r e' : EscrowPallet.pay from to v ex err e = (r, e') -> books id e' = books id e.
Proof. apply pay_books. Qed.

Lemma books_amount id e e' : books id e' = books id e -> EscrowPallet.amount_of e' id = EscrowPallet.amount_of e id.
Proof. by intros [= -> _]. Qed.

Lemma taken_amount id (e : EscrowPallet.State L) : EscrowPallet.amount_of (e <| EscrowPallet.Locked ::= delete id |>) id = 0.
Proof. unfold EscrowPallet.amount_of. simpl. unfold get0. by rewrite lookup_delete_eq. Qed.

Lemma shares_books id a b ra fa : framed (books id) (EscrowPallet.pay_shares ecfg a b ra fa).
Proof. books_tac. Qed.

Definition open_with (id : Z) (e : EscrowPallet.State L) : Prop :=
  EscrowPallet.amount_of e id <> 0 /\ EscrowPallet.lock_state e id <> EscrowPallet.STATE_DISPUTED.

Lemma settle_all_takes event notice_ id to e u e' : EscrowPallet.settle_all ecfg event notice_ id to e = (Ok u, e') ->
  open_with id e /\ closed_books id e'.
Proof.
  unfold EscrowPallet.settle_all, EscrowPallet.take_locked, EscrowPallet.deposit_event, EscrowPallet.notify. intros Hr. m_inv.
  match goal with Ho : EscrowPallet.ensure_open _ _ = _ |- _ => apply ensure_open_inv in Ho as (-> & Hd & _) end.
  match goal with Hp : EscrowPallet.pay _ _ _ _ _ _ = _ |- _ => apply (pay_keeps id), books_amount in Hp end.
  match goal with Hc : EscrowPallet.close _ _ = _ |- _ => apply close_closed in Hc; [| etrans; [eassumption | apply taken_amount]] end.
  done.
Qed.

Lemma split_closes id a b bps e u e' : EscrowPallet.split_partial ecfg id a b bps e = (Ok u, e') ->
  open_with id e /\ closed_books id e'.
Proof.
  unfold EscrowPallet.split_partial, EscrowPallet.take_locked, EscrowPallet.deposit_event, EscrowPallet.notify. intros Hr. m_inv.
  all: match goal with Ho : EscrowPallet.ensure_open _ _ = _ |- _ => apply ensure_open_inv in Ho as (-> & Hd & _) end.
  all: match goal with Hp : EscrowPallet.pay_shares _ _ _ _ _ _ = _ |- _ => apply shares_books with (id := id), books_amount in Hp end.
  all: match goal with Hc : EscrowPallet.close _ _ = _ |- _ => apply close_closed in Hc; [| etrans; [eassumption | apply taken_amount]] end.
  all: done.
Qed.

Lemma settle_all_fails event notice_ id to e err e' : EscrowPallet.settle_all ecfg event notice_ id to e = (Err err, e') ->
  EscrowPallet.lock_state e' id = EscrowPallet.lock_state e id /\
  (EscrowPallet.amount_of e' id = EscrowPallet.amount_of e id \/ EscrowPallet.amount_of e' id = 0).
Proof.
  unfold EscrowPallet.settle_all, EscrowPallet.ensure_open, EscrowPallet.take_locked, EscrowPallet.deposit_event, EscrowPallet.notify,
    EscrowPallet.close, EscrowPallet.remove_expiry_schedule.
  intros Hr. m_err; auto.
  all: try match goal with Hp : EscrowPallet.pay _ _ _ _ _ _ = _ |- _ => apply (pay_keeps id) in Hp; injection Hp as -> -> end.
  all: split; [done |]; right; apply taken_amount.
Qed.

Definition left_with (id : Z) (v : Z) (e e' : EscrowPallet.State L) : Prop :=
  EscrowPallet.amount_of e' id = EscrowPallet.amount_of e id - v /\ EscrowPallet.lock_state e' id = EscrowPallet.lock_state e id.

Lemma written_left id v (e : EscrowPallet.State L) : v <= EscrowPallet.amount_of e id ->
  left_with id v e (e <| EscrowPallet.Locked ::= <[id := sat_sub (EscrowPallet.amount_of e id) v]> |>).
Proof. intros. unfold left_with. rewrite amount_insert. rewrite sat_sub_exact by done. done. Qed.

Lemma left_paid id v (e e1 : EscrowPallet.State L) e2 : left_with id v e e1 -> books id e2 = books id e1 -> left_with id v e e2.
Proof. intros [? ?] [= Ha Hs]. unfold left_with. by rewrite Ha, Hs. Qed.

Lemma transfer_leaves id to v e r e' : EscrowPallet.transfer_from_escrow ecfg id to v e = (r, e') -> 0 <= v ->
  e' = e /\ (exists err, r = Err err) \/ open_with id e /\ v <= EscrowPallet.amount_of e id /\ left_with id v e e'.
Proof.
  intros Hr Hv. destruct r as [u | err].
  - right. unfold EscrowPallet.transfer_from_escrow, EscrowPallet.deposit_event in Hr. m_inv.
    all: match goal with Ho : EscrowPallet.ensure_open _ _ = _ |- _ => apply ensure_open_inv in Ho as (-> & Hd & _) end.
    all: split; [done |]; split; [done |].
    all: match goal with Hp : EscrowPallet.pay _ _ _ _ _ _ = _, Hl : _ <= _ |- _ =>
      apply (pay_keeps id) in Hp; pose proof (left_paid _ _ _ _ _ (written_left _ _ _ Hl) Hp) as [? ?] end.
    all: split; [| done]; try done.
    rewrite <- sat_sub_exact by done. etrans; [apply taken_amount | done].
  - unfold EscrowPallet.transfer_from_escrow, EscrowPallet.ensure_open, EscrowPallet.deposit_event in Hr.
    m_err; eauto.
    right. match goal with Hp : EscrowPallet.pay _ _ _ _ _ _ = _, Hl : _ <= _ |- _ =>
      apply (pay_keeps id) in Hp; pose proof (left_paid _ _ _ _ _ (written_left _ _ _ Hl) Hp) end.
    done.
Qed.

Lemma lock_adds id p v e u e' : EscrowPallet.lock_from ecfg p id v e = (Ok u, e') -> EscrowPallet.amount_of e id = 0 ->
  0 <= v <= u128_max -> books id e' = (v, EscrowPallet.lock_state e id).
Proof.
  intros Hr Hz Hv. unfold EscrowPallet.lock_from, EscrowPallet.deposit_event in Hr. m_inv.
  all: match goal with Hp : EscrowPallet.pay _ _ _ _ _ _ = _ |- _ => apply (pay_keeps id) in Hp; injection Hp as Ha Hs end.
  all: change (books id ?x) with (EscrowPallet.amount_of x id, EscrowPallet.lock_state x id).
  all: f_equal; [| exact Hs].
  all: etrans; [apply amount_insert |]; rewrite Ha, Hz; unfold sat_add; lia.
Qed.

Lemma disputed_takes env id e u e' : EscrowPallet.set_disputed ecfg env id e = (Ok u, e') ->
  EscrowPallet.amount_of e id <> 0 /\ books id e' = (EscrowPallet.amount_of e id, EscrowPallet.STATE_DISPUTED).
Proof.
  unfold EscrowPallet.set_disputed, EscrowPallet.do_set_disputed, EscrowPallet.deposit_event, EscrowPallet.notify,
    EscrowPallet.try_schedule_expiry_at. intros Hr. cbv zeta in Hr. m_inv; split; try done.
  all: assert (forall x, x = EscrowPallet.STATE_DISPUTED -> (EscrowPallet.amount_of e id, x) = (EscrowPallet.amount_of e id, EscrowPallet.STATE_DISPUTED))
    as Hpair by (by intros ? ->).
  2: match goal with Ht : EscrowPallet.try_targets _ _ _ _ = _ |- _ => apply targets_books with (id := id) in Ht; etrans; [exact Ht |] end.
  all: apply Hpair; unfold EscrowPallet.lock_state; simpl; rewrite get0_insert; by rewrite decide_True.
Qed.

Lemma resolved_takes id e r e' : EscrowPallet.set_resolved (L:=L) id e = (r, e') ->
  match r with
  | Ok _ => EscrowPallet.lock_state e id = EscrowPallet.STATE_DISPUTED /\
      books id e' = (EscrowPallet.amount_of e id, EscrowPallet.STATE_LOCKED)
  | Err _ => e' = e
  end.
Proof.
  unfold EscrowPallet.set_resolved. intros Hr. destruct r; [| by m_err]. m_inv. split; [done |].
  unfold books, EscrowPallet.lock_state. simpl. f_equal. rewrite get0_insert. by rewrite decide_True.
Qed.

Lemma open_at id e w : open_with id e -> escrow_amount id (e, w) <> 0 /\ escrow_frozen id (e, w) = false.
Proof. intros [Ha Hs]. simpl. split; [done |]. by apply bool_decide_eq_false_2. Qed.

#[export] Instance joint_escrow_laws : EscrowPortLaws Joint.
Proof.
  split.
  - intros. by apply elsewhere, lock_books.
  - intros. by apply elsewhere, transfer_books.
  - intros. by apply elsewhere, refund_books.
  - intros. by apply elsewhere, split_books.
  - intros. by apply elsewhere, disputed_books.
  - intros. by apply elsewhere, resolved_books.
  - intros p id v x Ht Hz Hv. cbn [escrow_lock_from joint_escrow_port] in *. run_true Ht. apply lock_adds in Hr; [| done | done].
    injection Hr as Ha Hs. unfold at_escrow. simpl. by rewrite Ha, Hs.
  - intros id to v x Ht Hv. cbn [escrow_transfer joint_escrow_port] in *. run_true Ht. destruct x as [e0 w].
    apply transfer_leaves in Hr as [(_ & ? & ?) | (Ho & Hle & Ha & Hs)]; [done | | done]. simpl in *.
    destruct (open_at _ _ w Ho) as [Ho1 Ho2]. simpl in *. split; [done |]. split; [done |]. split; [done |].
    unfold at_escrow. simpl. by rewrite Ha, Hs, Ho2.
  - intros id to x Ht. cbn [escrow_refund_all joint_escrow_port] in *. run_true Ht. destruct x as [e0 w].
    apply settle_all_takes in Hr as [Ho Hc]. destruct (open_at _ _ w Ho) as [Ho1 Ho2]. split_and!; [done | done |]. by apply closed_at.
  - intros id a b bps x Ht. cbn [escrow_split_partial joint_escrow_port] in *. run_true Ht. destruct x as [e0 w].
    apply split_closes in Hr as [Ho Hc]. destruct (open_at _ _ w Ho) as [Ho1 Ho2]. split_and!; [done | done |]. by apply closed_at.
  - intros now id x Ht. cbn [escrow_set_disputed joint_escrow_port] in *. run_true Ht. apply disputed_takes in Hr as [Ha Hb].
    injection Hb as Hb1 Hb2. split; [done |]. unfold at_escrow. simpl. by rewrite Hb1, Hb2.
  - intros id x Ht. cbn [escrow_set_resolved joint_escrow_port] in *. run_true Ht. apply resolved_takes in Hr as [Ha Hb].
    injection Hb as Hb1 Hb2. unfold at_escrow. simpl. rewrite Ha, Hb1, Hb2. done.
  - intros id x Ht. cbn [escrow_set_resolved joint_escrow_port] in *. run_false Ht. apply resolved_takes in Hr as ->. done.
  - intros id to v x Ht Hv. cbn [escrow_transfer joint_escrow_port] in *. run_false Ht.
    apply transfer_leaves in Hr as [[-> _] | (Ho & Hle & Ha & Hs)]; [| | done]; simpl; [by auto |]. rewrite Hs. auto.
  - intros id to x Ht. cbn [escrow_refund_all joint_escrow_port] in *. run_false Ht.
    apply settle_all_fails in Hr as [Hs Ha]. simpl. by rewrite Hs.
Qed.

(** A discount is an unsigned amount. *)
Class UnsignedDiscounts : Prop := {
  discount_unsigned : forall e w v (y : L * W) d y', redeem_for_discount e w v y = (Some d, y') -> 0 <= d;
}.

#[export] Instance joint_world_laws `{!UnsignedDiscounts} : OrderWorldLaws Joint.
Proof.
  split; intros; try apply put_quiet.
  1-3: match goal with Hs : _ = Some _ |- _ => apply fmap_Some in Hs as (y & _ & Hs) end; simplify_eq; apply put_quiet.
  match goal with Hr : redeem_for_discount _ _ _ _ = _ |- _ => rename Hr into Hd end. simpl in Hd. unfold lift in Hd. injection Hd as Hd _.
  eapply discount_unsigned. rewrite <- Hd. apply surjective_pairing.
Qed.

(** * What the composition shows *)

Section Composed.
Context `{!UnsignedDiscounts} (cfg : Config).

(** An order whose escrow entry is empty never ends. Whatever is called, and however
    the timeouts go, an order paid in the native currency that is still open while
    nothing is locked for it stays open: it can be neither completed, cancelled nor
    refunded. *)
Theorem unfunded_orders_never_end x s s' id o : empty_escrow x -> rtc (step cfg) (genesis x) s -> id < NextOrderId s ->
  Orders s !! id = Some o -> payment_asset o = Native -> is_active (status o) = true -> EscrowPallet.amount_of (others s).1 id = 0 ->
  rtc (step cfg) s s' ->
  exists o', Orders s' !! id = Some o' /\ is_active (status o') = true /\ EscrowPallet.amount_of (others s').1 id = 0.
Proof.
  intros Hx Hrun Hid Ho Ha Hact Hz Hrun'. pose proof (reach_inv cfg x s Hx Hrun) as Hinv.
  destruct (run_follows cfg _ _ _ Hinv Hrun') as (_ & _ & Hm). specialize (Hm id Hid).
  assert (unfunded (view id s)) as Hu by (exists o; done).
  assert (unfunded (view id s')) as (o' & Ho' & _ & Hact' & Hz') by (induction Hm; eauto using unfunded_move).
  eauto.
Qed.

(** A decision of the arbitration leaves nothing locked, and other orders alone. *)
Lemma settled_order_empty id b sl dec e u e' :
  ArbitrationEscrow.settle_order ecfg id b sl dec e = (Ok u, e') -> EscrowPallet.amount_of e' id = 0.
Proof.
  unfold ArbitrationEscrow.settle_order. intros (r & e1 & _ & Hr)%bind_Ok.
  destruct dec; [apply settle_all_takes in Hr as [_ Hc] | apply settle_all_takes in Hr as [_ Hc] | apply split_closes in Hr as [_ Hc]];
    by injection Hc.
Qed.

Lemma settled_order_elsewhere id j b sl dec : j <> id -> framed (books j) (ArbitrationEscrow.settle_order ecfg id b sl dec).
Proof.
  intros Hj. unfold ArbitrationEscrow.settle_order. apply framed_bind; [by apply framed_attempt, resolved_books |]. intros _.
  destruct dec; [| by apply refund_books | by apply split_books].
  unfold EscrowPallet.release_all, EscrowPallet.settle_all. books_tac.
Qed.

(** C23: An arbitrated order never ends. The router settles the escrow of an order and
    tells the order pallet nothing, so once a decision was applied to an open order it
    stays open in every run that follows, its money gone to the winner. *)
Theorem arbitrated_orders_never_end x s s' id o b sl dec e' : empty_escrow x -> rtc (step cfg) (genesis x) s -> id < NextOrderId s ->
  Orders s !! id = Some o -> payment_asset o = Native -> is_active (status o) = true ->
  ArbitrationEscrow.settle_order ecfg id b sl dec (others s).1 = (Ok tt, e') ->
  rtc (step cfg) (s <| others := (e', (others s).2) |>) s' ->
  exists o', Orders s' !! id = Some o' /\ is_active (status o') = true /\ EscrowPallet.amount_of (others s').1 id = 0.
Proof.
  intros Hx Hrun Hid Ho Ha Hact Hd Hrun'.
  refine (emptied_orders_stay cfg x s id o _ s' Hx Hrun Hid Ho Ha Hact _ _ Hrun').
  - intros j Hj. apply books_at_escrow. by apply (settled_order_elsewhere id j b sl dec Hj) in Hd.
  - by eapply settled_order_empty.
Qed.
End Composed.
End Runtime.

(** * A small market: shop 1 of account 2 *)

(** Product 1 is digital, 2 a parcel, 3 a service, each for 10 USDT; [dm_stock] of the
    parcels is left, and everybody has a shopping balance of [dm_balance]. One unit of the
    native currency is worth 0.01 USDT. What is reserved of an account's currency is in
    [dm_reserved]. *)
Record DemoWorld : Type := mkDemo { dm_stock : Z; dm_balance : Z; dm_tokens : SimpleTokens; dm_reserved : gmap AccountId Z }.

#[export] Instance demo_market : OrderWorld (SimpleBank * DemoWorld) := {
  shop_exists _ _ := true;
  is_shop_active _ _ := true;
  shop_owner _ _ := Some 2%N;
  shop_entity_id _ _ := Some 1;
  get_product_info p y :=
    if decide (p = 1) then Some (mkProduct 1 10000000 0 OnSale Digital Public 1 0)
    else if decide (p = 2) then Some (mkProduct 1 10000000 (dm_stock y.2) OnSale Physical Public 1 0)
    else if decide (p = 3) then Some (mkProduct 1 10000000 0 OnSale Service Public 1 0) else None;
  deduct_stock _ n y :=
    if decide (n <= dm_stock y.2) then (true, (y.1, mkDemo (dm_stock y.2 - n) (dm_balance y.2) (dm_tokens y.2) (dm_reserved y.2))) else (false, y);
  add_sold_count _ _ y := (true, y);
  restore_stock _ n y := (true, (y.1, mkDemo (dm_stock y.2 + n) (dm_balance y.2) (dm_tokens y.2) (dm_reserved y.2)));
  payment_config _ _ := mkPaymentConfig true true;
  loyalty_token_enabled _ _ := false;
  shopping_balance _ _ y := dm_balance y.2;
  redeem_for_discount _ _ _ y := (None, y);
  consume_shopping_balance _ _ v y :=
    if decide (v <= dm_balance y.2) then (true, (y.1, mkDemo (dm_stock y.2) (dm_balance y.2 - v) (dm_tokens y.2) (dm_reserved y.2))) else (false, y);
  rollback_shopping_balance _ _ v y := (true, (y.1, mkDemo (dm_stock y.2) (dm_balance y.2 + v) (dm_tokens y.2) (dm_reserved y.2)));
  rollback_token_discount _ _ _ y := (false, y);
  is_member _ _ _ := false;
  is_banned _ _ _ := false;
  requires_referral _ _ := false;
  get_referrer _ _ _ := None;
  auto_register _ _ _ y := y;
  get_effective_level _ _ _ := 0;
  get_level_discount _ _ _ := 0;
  nex_usdt_price _ := 10000000000000000;
  is_price_stale _ := false;
  get_token_price _ _ := Some 1000000000000;
  is_token_price_reliable _ _ := true;
  token_platform_fee_rate _ _ := 100;
  entity_account _ _ := 40%N;
  currency_free who y := bank_get y.1 who;
  existential_deposit := 5;
  currency_reserve who v y := if decide (0 <= v /\ v + 5 <= bank_get y.1 who)
    then Some (bank_set who (bank_get y.1 who - v) y.1,
      mkDemo (dm_stock y.2) (dm_balance y.2) (dm_tokens y.2) (<[who := get0 (dm_reserved y.2) who + v]> (dm_reserved y.2)))
    else None;
  on_completed _ y := y;
  on_cancelled _ y := y;
  order_notice _ _ y := y;
  chat_grant _ _ _ y := y;
  chat_revoke _ _ _ y := y;
}.

#[export] Instance demo_tokens : EntityTokens (SimpleBank * DemoWorld) := {
  is_token_enabled e y := is_token_enabled e (dm_tokens y.2);
  token_balance e w y := token_balance e w (dm_tokens y.2);
  token_reserved e w y := token_reserved e w (dm_tokens y.2);
  token_reserve e w v y := (fun t => (y.1, mkDemo (dm_stock y.2) (dm_balance y.2) t (dm_reserved y.2))) <$> token_reserve e w v (dm_tokens y.2);
  token_unreserve e w v y := let r := token_unreserve e w v (dm_tokens y.2) in ((y.1, mkDemo (dm_stock y.2) (dm_balance y.2) r.1 (dm_reserved y.2)), r.2);
  token_repatriate e a b v y :=
    (fun r => ((y.1, mkDemo (dm_stock y.2) (dm_balance y.2) r.1 (dm_reserved y.2)), r.2)) <$> token_repatriate e a b v (dm_tokens y.2);
}.

#[export] Instance demo_discounts : UnsignedDiscounts (L:=SimpleBank) (W:=DemoWorld).
Proof. split. done. Qed.

#[export] Existing Instance EscrowPallet.floor_permill.

Definition demo_escrow : EscrowPallet.Config SimpleBank := {|
  EscrowPallet.escrow_account := 9%N;
  EscrowPallet.AuthorizedOrigin _ := false;
  EscrowPallet.AdminOrigin o := ensure_root o;
  EscrowPallet.MaxExpiringPerBlock := 2;
  EscrowPallet.on_expire := EscrowPallet.default_on_expire;
  EscrowPallet.MaxDisputeDuration := 100;
|}.

#[export] Instance demo_port : EscrowPort (Joint (L:=SimpleBank) (W:=DemoWorld)) := joint_escrow_port demo_escrow.

Definition demo_cfg : Config := mkConfig 50%N 10 20 30 40 15 8 3 3 3 5.

Definition demo_env (now : Z) : Env := mkEnv now 0 0 [].

(** Accounts 1 buys, 2 sells, 50 is the platform. *)
Definition demo_start : Joint (L:=SimpleBank) (W:=DemoWorld) :=
  (EscrowPallet.genesis {[9%N := 5%N; 1%N := 10000%N; 2%N := 100%N; 50%N := 100%N]}, mkDemo 7 3000 ∅ ∅).

Abbreviation DemoState := (State (Joint (L:=SimpleBank) (W:=DemoWorld))).

Definition call_at (now : Z) (who : AccountId) (c : Call) (s : DemoState) : DemoState :=
  (dispatch demo_cfg (demo_env now) (SignedBy who) c s).2.

Definition buy (product : Z) : Call := CPlace product 1 (Some [1]) None None None None None None.

Example buy_parcel :
  (status <$> Orders (call_at 1 1%N (buy 2) (genesis demo_start)) !! 0,
   total_amount <$> Orders (call_at 1 1%N (buy 2) (genesis demo_start)) !! 0) = (Some Paid, Some 1000).
Proof. vm_compute. reflexivity. Qed.

Definition shipped_steps : list (Z * AccountId * Call) := [(1, 1%N, buy 2); (2, 2%N, CShip 0 [7])].

Fixpoint run_calls (cs : list (Z * AccountId * Call)) (s : DemoState) : DemoState :=
  match cs with
  | [] => s
  | (now, who, c) :: cs => run_calls cs (call_at now who c s)
  end.

Lemma calls_reach cs s : Forall (fun x => call_typed x.2) cs -> rtc (step demo_cfg) s (run_calls cs s).
Proof.
  revert s. induction cs as [| [[now who] c] cs IH]; intros s Hcs; [done |]. apply Forall_cons in Hcs as [Hc Hcs].
  eapply rtc_l; [| by apply IH]. eapply step_call; [exact Hc | apply surjective_pairing].
Qed.

Lemma demo_start_empty : empty_escrow demo_start.
Proof. intros id. done. Qed.

Definition demo_bought : DemoState := run_calls [(1, 1%N, buy 2)] (genesis demo_start).

Lemma demo_bought_reached : rtc (step demo_cfg) (genesis demo_start) demo_bought.
Proof. apply calls_reach. by repeat constructor. Qed.

(** The escrow's account comes to be short of money, as by a slash of the arbitration:
    the refund of the order that was not shipped in time then fails. *)
Definition demo_short : DemoState :=
  demo_bought <| others := put (others demo_bought) (bank_set 9%N 460 (EscrowPallet.ledger (others demo_bought).1), (others demo_bought).2) |>.

Definition demo_stranded : DemoState := (on_idle demo_cfg (demo_env 11) (1000000000000, 1000000) demo_short).2.

Example demo_stranded_order :
  (status <$> Orders demo_stranded !! 0, EscrowPallet.amount_of (others demo_stranded).1 0, failed 0 demo_stranded,
   balance 9%N (EscrowPallet.ledger (others demo_stranded).1)) = (Some Paid, 0, true, 460).
Proof. vm_compute. reflexivity. Qed.

Lemma demo_stranded_reached : rtc (step demo_cfg) (genesis demo_start) demo_stranded.
Proof.
  etrans; [apply demo_bought_reached |]. eapply rtc_l; [| eapply rtc_once].
  - apply (step_others demo_cfg demo_bought). apply put_quiet.
  - eapply step_idle. apply surjective_pairing.
Qed.

Definition demo_order : Order :=
  mkOrder 0 1 1 2 1%N 2%N None 1 1000 1000 10 10000000 10000000000000000 0 Physical (Some [1]) None Paid 1 None None None None Native 0
    false false None None None 0 0.

Lemma demo_stranded_get : Orders demo_stranded !! 0 = Some demo_order.
Proof. vm_compute. reflexivity. Qed.

Definition demo_later : DemoState := run_calls [(12, 1%N, CCancel 0); (13, 2%N, CShip 0 [7]); (14, 1%N, CConfirmReceipt 0)] demo_stranded.

Lemma unfunded_orders_never_end_witness :
  exists o', Orders demo_later !! 0 = Some o' /\ is_active (status o') = true /\ EscrowPallet.amount_of (others demo_later).1 0 = 0.
Proof.
  refine (unfunded_orders_never_end demo_escrow demo_cfg demo_start demo_stranded demo_later 0 demo_order demo_start_empty
    demo_stranded_reached _ demo_stranded_get _ _ _ _).
  - by vm_compute.
  - done.
  - done.
  - by vm_compute.
  - apply calls_reach. by repeat constructor.
Defined.

(** The arbitration decides for the seller, who still cannot end the order. *)
Definition demo_decided : EscrowPallet.State SimpleBank :=
  (ArbitrationEscrow.settle_order demo_escrow 0 1%N 2%N Arbitration.Release (others demo_bought).1).2.

Definition demo_after : DemoState :=
  run_calls [(3, 2%N, CShip 0 [7]); (4, 1%N, CConfirmReceipt 0); (5, 2%N, CSellerRefund 0 [9])]
    (demo_bought <| others := (demo_decided, (others demo_bought).2) |>).

Lemma demo_bought_get : Orders demo_bought !! 0 = Some demo_order.
Proof. vm_compute. reflexivity. Qed.

Lemma arbitrated_orders_never_end_witness :
  exists o', Orders demo_after !! 0 = Some o' /\ is_active (status o') = true /\ EscrowPallet.amount_of (others demo_after).1 0 = 0.
Proof.
  refine (arbitrated_orders_never_end demo_escrow demo_cfg demo_start demo_bought demo_after 0 demo_order 1%N 2%N Arbitration.Release demo_decided
    demo_start_empty demo_bought_reached _ demo_bought_get _ _ _ _).
  - by vm_compute.
  - done.
  - done.
  - unfold demo_decided. apply returns. vm_compute. reflexivity.
  - apply calls_reach. by repeat constructor.
Defined.
End OrderEscrow.
