(* ===== verification/OrderCash.v ===== *)
(** The escrow's events are paid out: whatever a call on an order records as paid has
    arrived, to the unit, on the account it names, and no other account gets anything.
    Over the escrow pallet and the currency, for the accounts that the other pallets
    leave alone. *)

From S2P Require Import Prelude Frame EntityPorts Escrow EscrowSolvency.
From S2P Require Import EntityOrder OrderRules OrderMoney OrderEscrow.

Module OrderCash.
Import OrderPallet OrderRules OrderMoney OrderEscrow.
#[local] Existing Instance EscrowPallet.eta_state.

(** What an event of the escrow says that [a] was paid. *)
Definition paid_if (a to : AccountId) (v : Z) : Z := if decide (a = to) then v else 0.

Definition gain (a : AccountId) (ev : EscrowPallet.Event) : Z :=
  match ev with
  | EscrowPallet.Transferred _ to v _ | EscrowPallet.Released _ to v | EscrowPallet.Refunded _ to v
  | EscrowPallet.PartialRefunded _ to v _ | EscrowPallet.PartialReleased _ to v _ => paid_if a to v
  | EscrowPallet.PartialSplit _ p v q w => paid_if a p v + paid_if a q w
  | _ => 0
  end.

Definition gains (a : AccountId) (evs : list EscrowPallet.Event) : Z := foldr (fun ev n => gain a ev + n) 0 evs.

Lemma gains_app a l k : gains a (l ++ k) = gains a l + gains a k.
Proof. induction l as [| ev l IH]; simpl; [done |]. rewrite IH. lia. Qed.

Lemma gains_one a ev : gains a [ev] = gain a ev.
Proof. simpl. lia. Qed.

(** ** The operations of the escrow *)

Section Escrow.
Context `{FrameSystem} {L : Type} `{TransferCurrency L} `{!TransferCurrencyLaws L} `{EscrowPallet.PermillOps} `{!EscrowPallet.PermillLaws}.
Context (ecfg : EscrowPallet.Config L) (a : AccountId) (Ha : a <> EscrowPallet.escrow_account ecfg) (id : Z).
Implicit Types (e : EscrowPallet.State L).

(** A measure of [a]'s currency that transfers move like its balance. *)
Definition cash_of e : Z := balance a (EscrowPallet.ledger e).

(** A successful run pays [a] what the events it records say. *)
Definition paid_as_told (e e' : EscrowPallet.State L) : Prop :=
  exists evs, EscrowPallet.events e' = EscrowPallet.events e ++ evs /\ cash_of e' = cash_of e + gains a evs.

Definition tells (m : M (EscrowPallet.State L) (DispatchError EscrowPallet.Error) unit) : Prop :=
  forall e u e', m e = (Ok u, e') -> 0 <= EscrowPallet.amount_of e id ->
    paid_as_told e e' /\ 0 <= EscrowPallet.amount_of e' id.

(** What a payment leaves. *)
Definition till e := (EscrowPallet.events e, EscrowPallet.amount_of e id).

Lemma pay_till from to v ex err : framed till (EscrowPallet.pay (L:=L) from to v ex err).
Proof. unfold EscrowPallet.pay. framed_tac. Qed.

Lemma pay_cash to v ex err e u e' : 0 <= v -> EscrowPallet.pay (EscrowPallet.escrow_account ecfg) to v ex err e = (Ok u, e') ->
  cash_of e' = cash_of e + paid_if a to v.
Proof.
  intros Hv Hr. unfold EscrowPallet.pay in Hr. m_inv. unfold cash_of, paid_if. simpl.
  match goal with Ht : transfer _ _ _ _ _ = Some _ |- _ => rename Ht into Hpay end. case_decide as Hto.
  - subst to. by apply (transfer_to _ _ _ _ _ _ (not_eq_sym Ha) Hv Hpay).
  - rewrite (transfer_other _ _ _ _ _ _ a Ha Hto Hpay). lia.
Qed.

(** The rest of an operation moves no money. *)
Definition purse e := (EscrowPallet.events e, EscrowPallet.ledger e, EscrowPallet.amount_of e id).

Lemma unschedule_purse id' : framed purse (EscrowPallet.remove_expiry_schedule (L:=L) id').
Proof. apply framed_modify. intros e. unfold EscrowPallet.unschedule. by case_match. Qed.

Lemma targets_purse id' l : framed purse (EscrowPallet.try_targets ecfg id' l).
Proof. induction l as [| t l IH]; simpl; [framed_tac |]. repeat first [ apply IH | framed_step ]. Qed.

Lemma close_purse : framed purse (EscrowPallet.close (L:=L) id).
Proof. unfold EscrowPallet.close. repeat first [ apply unschedule_purse | framed_step ]. Qed.

Lemma told_nothing e e' : purse e' = purse e -> paid_as_told e e'.
Proof. intros [= He Hl _]. exists []. unfold cash_of. rewrite He, Hl, app_nil_r. split; [done | simpl; lia]. Qed.

Ltac pay_facts :=
  repeat match goal with
    | Ho : EscrowPallet.ensure_open _ _ = _ |- _ => apply ensure_open_inv in Ho as (-> & _)
    | Hp : EscrowPallet.pay _ ?to ?v _ _ _ = (Ok _, _) |- _ =>
        let Hc := fresh "Hcash" in let Ht := fresh "Htill" in
        pose proof (pay_till _ _ _ _ _ _ _ _ Hp) as Ht; apply pay_cash in Hp as Hc; [| try lia]; clear Hp; injection Ht as ? ?
    | Hc : EscrowPallet.close _ _ = _ |- _ => apply close_purse in Hc; injection Hc as ? ? ?
    end.

Ltac told ev :=
  exists [ev]; rewrite gains_one; unfold cash_of in *; simpl in *; split; [congruence |].

Ltac amount_kept :=
  match goal with |- 0 <= EscrowPallet.amount_of _ _ => idtac end;
  repeat match goal with Hq : EscrowPallet.amount_of _ ?i = _ |- _ => unfold EscrowPallet.amount_of in Hq; simpl in Hq end;
  unfold EscrowPallet.amount_of in *; simpl in *; unfold get0 in *;
  rewrite ?lookup_delete_eq, ?lookup_insert_eq in *; simpl in *; unfold sat_sub in *; lia.

Lemma refund_tells to : tells (EscrowPallet.refund_all ecfg id to).
Proof.
  unfold EscrowPallet.refund_all, EscrowPallet.settle_all, EscrowPallet.take_locked, EscrowPallet.deposit_event, EscrowPallet.notify.
  intros e u e' Hr Hv. m_inv. pay_facts. split; [| amount_kept].
  told (EscrowPallet.Refunded id to (EscrowPallet.amount_of e id)). congruence.
Qed.

Lemma transfer_tells to x : 0 <= x -> tells (EscrowPallet.transfer_from_escrow ecfg id to x).
Proof.
  unfold EscrowPallet.transfer_from_escrow, EscrowPallet.deposit_event. intros Hx e u e' Hr Hv. m_inv; pay_facts.
  all: split; [told (EscrowPallet.Transferred id to x (sat_sub (EscrowPallet.amount_of e id) x)); congruence | amount_kept].
Qed.

Lemma shares_tells p q v w e u e' : 0 <= v -> 0 <= w -> EscrowPallet.pay_shares ecfg p q v w e = (Ok u, e') ->
  till e' = till e /\ cash_of e' = cash_of e + (paid_if a p v + paid_if a q w).
Proof.
  intros Hv Hw Hr. unfold EscrowPallet.pay_shares in Hr. cbv zeta in Hr. unfold paid_if.
  m_inv; pay_facts; (split; [unfold till in *; congruence |]);
    repeat match goal with Hd : ~ (_ /\ _) |- _ => apply Decidable.not_and in Hd; [| unfold Decidable.decidable; lia] end;
    unfold paid_if in *; repeat case_decide; lia.
Qed.

Lemma split_tells p q bps : 0 <= bps -> tells (EscrowPallet.split_partial ecfg id p q bps).
Proof.
  unfold EscrowPallet.split_partial, EscrowPallet.take_locked, EscrowPallet.deposit_event, EscrowPallet.notify.
  intros Hb e u e' Hr Hv. m_inv; pay_facts.
  all: match goal with Hs : EscrowPallet.pay_shares _ _ _ _ _ _ = _ |- _ => apply shares_tells in Hs as [Ht Hcash] end;
    [| rewrite EscrowPallet.mul_floor_spec by lia; apply Z.div_pos; nia | unfold sat_sub; lia].
  all: injection Ht as ? ?.
  all: split; [told (EscrowPallet.PartialSplit id p (EscrowPallet.mul_floor (bps * 100) (EscrowPallet.amount_of e id)) q
    (sat_sub (EscrowPallet.amount_of e id) (EscrowPallet.mul_floor (bps * 100) (EscrowPallet.amount_of e id)))); congruence | amount_kept].
Qed.

Lemma disputed_tells env : tells (EscrowPallet.set_disputed ecfg env id).
Proof.
  unfold EscrowPallet.set_disputed, EscrowPallet.do_set_disputed, EscrowPallet.deposit_event, EscrowPallet.notify,
    EscrowPallet.try_schedule_expiry_at. intros e u e' Hr Hv. cbv zeta in Hr. m_inv.
  - split; [| done]. told (EscrowPallet.Disputed id 0 [] (block_number env)). lia.
  - match goal with Ht : EscrowPallet.try_targets _ _ _ _ = _ |- _ => apply targets_purse in Ht; injection Ht as ? ? ? end.
    split; [| amount_kept]. told (EscrowPallet.Disputed id 0 [] (block_number env)). rewrite Z.add_0_r. congruence.
Qed.

Lemma resolved_tells : tells (EscrowPallet.set_resolved (L:=L) id).
Proof.
  unfold EscrowPallet.set_resolved. intros e u e' Hr Hv. m_inv. split; [| done]. by apply told_nothing.
Qed.
End Escrow.

(** ** The steps of the order pallet *)

(** What the rest of the chain has set aside of an account's currency (its reserves). *)
Class Savings (L W : Type) : Type := { set_aside : AccountId -> L * W -> Z }.

Definition owned `{TransferCurrency L} `{Savings L W} (a : AccountId) (y : L * W) : Z := balance a y.1 + set_aside a y.

(** The rest of the chain leaves account [a] alone: a payment moves its balance and
    nothing of its reserves, a reserve moves currency from one to the other, and what is
    called of the other pallets while an order is served moves nothing of either. *)
Class LeavesAlone (a : AccountId) `{TransferCurrency L} `{Savings L W} `{OrderWorld (L * W)} `{EntityTokens (L * W)} : Prop := {
  alone_pay : forall l l' w from to v ex, transfer from to v ex l = Some l' -> set_aside a (l', w) = set_aside a (l, w);
  alone_reserve : forall who v y y', currency_reserve who v y = Some y' -> owned a y' = owned a y;
  alone_sold : forall p n y, owned a (add_sold_count p n y).2 = owned a y;
  alone_stock : forall p n y, owned a (restore_stock p n y).2 = owned a y;
  alone_shopping : forall e who v y, owned a (rollback_shopping_balance e who v y).2 = owned a y;
  alone_discount : forall e who v y, owned a (rollback_token_discount e who v y).2 = owned a y;
  alone_completed : forall i y, owned a (on_completed i y) = owned a y;
  alone_cancelled : forall i y, owned a (on_cancelled i y) = owned a y;
  alone_notice : forall to n y, owned a (order_notice to n y) = owned a y;
  alone_chat : forall i b c y, owned a (chat_revoke i b c y) = owned a y;
  alone_unreserve : forall e who v y, owned a (token_unreserve e who v y).1 = owned a y;
  alone_repatriate : forall e from to v y r, token_repatriate e from to v y = Some r -> owned a r.1 = owned a y;
}.

Section Orders.
Context `{FrameSystem} {L W : Type} `{TransferCurrency L} `{!TransferCurrencyLaws L} `{EscrowPallet.PermillOps} `{!EscrowPallet.PermillLaws}.
Context `{OrderWorld (L * W)} `{EntityTokens (L * W)} `{Savings L W} (ecfg : EscrowPallet.Config L) (cfg : Config).
Context (a : AccountId) `{!LeavesAlone a} (Ha : a <> EscrowPallet.escrow_account ecfg) (id : Z).
#[local] Instance joined : EscrowPort (Joint (L:=L) (W:=W)) := joint_escrow_port ecfg.
Implicit Types (s : State (Joint (L:=L) (W:=W))).

Abbreviation X_ := (Joint (L:=L) (W:=W)).
Abbreviation M_ := (M (State X_) (DispatchError Error)).

(** What [a] owns, with the escrow's events and what it has locked. *)
Definition wealth (x : X_) : Z := owned a (rest x).

Definition log (x : X_) : list EscrowPallet.Event := EscrowPallet.events x.1.

Definition stock (x : X_) : Z := EscrowPallet.amount_of x.1 id.

Definition told (x x' : X_) : Prop :=
  0 <= stock x -> (exists evs, log x' = log x ++ evs /\ wealth x' = wealth x + gains a evs) /\ 0 <= stock x'.

Lemma told_refl x : told x x.
Proof. intros Hv. split; [| done]. exists []. rewrite app_nil_r. split; [done | simpl; lia]. Qed.

Lemma told_trans x1 x2 x3 : told x1 x2 -> told x2 x3 -> told x1 x3.
Proof.
  intros Hx1 Hx2 Hv. destruct (Hx1 Hv) as [(evs & Hl & Hw) Hv2]. destruct (Hx2 Hv2) as [(evs' & Hl' & Hw') Hv3].
  split; [| done]. exists (evs ++ evs'). rewrite gains_app, Hl', Hl, app_assoc. split; [done | lia].
Qed.

Lemma told_same x x' : x'.1 <| EscrowPallet.ledger := EscrowPallet.ledger x.1 |> = x.1 -> wealth x' = wealth x -> told x x'.
Proof.
  intros Hs Hw Hv. pose proof (f_equal EscrowPallet.events Hs) as He. pose proof (f_equal EscrowPallet.Locked Hs) as Hk.
  simpl in He, Hk. unfold log, stock, EscrowPallet.amount_of in *. rewrite He, Hk, Hw. split; [| done].
  exists []. rewrite app_nil_r. split; [done | simpl; lia].
Qed.

(** A put of the rest of the chain. *)
Lemma told_put x y : owned a y = owned a (rest x) -> told x (put x y).
Proof.
  intros Hy. apply told_same; [by destruct x as [[] ?] |]. unfold wealth. by destruct x as [[] ?], y.
Qed.

(** A successful run. *)
Definition honest {A} (m : M_ A) : Prop := forall s u s', m s = (Ok u, s') -> told (others s) (others s').

(** One that may also fail and go on. *)
Definition always_honest {A} (m : M_ A) : Prop := forall s r s', m s = (r, s') -> told (others s) (others s').

Lemma honest_bind {A B} (m : M_ A) (k : A -> M_ B) : honest m -> (forall u, honest (k u)) -> honest (bind m k).
Proof. intros Hm Hk s u s' (v & s1 & K1 & K2)%bind_Ok. eapply told_trans; [by eapply Hm | by eapply Hk]. Qed.

Lemma honest_framed {A} (m : M_ A) : framed others m -> honest m.
Proof. intros Hm s u s' Hr. rewrite (Hm _ _ _ Hr). apply told_refl. Qed.

Lemma honest_attempt {A} (m : M_ A) : always_honest m -> honest (attempt m).
Proof. intros Hm s u s' Hr. unfold attempt in Hr. destruct (m s) as [[v | err] s1] eqn:Hms; injection Hr as _ <-; by eapply Hm. Qed.

Lemma honest_if {A} (P : Prop) `{Decision P} (m k : M_ A) : (P -> honest m) -> (~ P -> honest k) -> honest (if decide P then m else k).
Proof. intros. case_decide; auto. Qed.

(** The escrow moves currency by payments only. *)
Definition aside (w : W) (e : EscrowPallet.State L) : Z := set_aside a (EscrowPallet.ledger e, w).

Lemma pay_aside w from to v ex err : framed (aside w) (EscrowPallet.pay (L:=L) from to v ex err).
Proof.
  intros e r e' Hr. unfold EscrowPallet.pay in Hr. unfold bind, gets, ok_or in Hr.
  destruct (transfer from to v ex (EscrowPallet.ledger e)) as [l |] eqn:Ht; injection Hr as _ <-; [| done].
  unfold aside. simpl. by apply (alone_pay _ _ _ _ _ _ _ Ht).
Qed.

Lemma unschedule_aside w id' : framed (aside w) (EscrowPallet.remove_expiry_schedule (L:=L) id').
Proof. apply framed_modify. intros e. unfold EscrowPallet.unschedule. by case_match. Qed.

Lemma targets_aside w id' l : framed (aside w) (EscrowPallet.try_targets ecfg id' l).
Proof. induction l as [| t l IH]; simpl; [framed_tac |]. repeat first [ apply IH | framed_step ]. Qed.

Ltac aside_tac :=
  unfold EscrowPallet.transfer_from_escrow, EscrowPallet.refund_all, EscrowPallet.settle_all, EscrowPallet.split_partial,
    EscrowPallet.set_disputed, EscrowPallet.do_set_disputed, EscrowPallet.try_schedule_expiry_at, EscrowPallet.set_resolved,
    EscrowPallet.pay_shares, EscrowPallet.close, EscrowPallet.take_locked, EscrowPallet.ensure_open, EscrowPallet.deposit_event,
    EscrowPallet.notify;
  repeat first [ progress cbv zeta | apply pay_aside | apply unschedule_aside | apply targets_aside | framed_step ].

Lemma honest_escrow (m : M (EscrowPallet.State L) (DispatchError EscrowPallet.Error) unit) :
  tells a id m -> (forall w, framed (aside w) m) -> honest (port (run_escrow m)).
Proof.
  intros Hm Hs s u s' Hr. unfold port, ask, bind, gets, modify in Hr. apply ensure_inv in Hr as [-> Hr]. simpl.
  unfold run_escrow in *. destruct (m (others s).1) as [[v | err] e] eqn:Hrun; simpl in *; [| destruct Hr as [[_ ?] | [? _]]; done].
  intros Hv. destruct (Hm _ _ _ Hrun Hv) as [(evs & He & Hc) Hv']. split; [| exact Hv']. exists evs. split; [exact He |].
  specialize (Hs (others s).2 _ _ _ Hrun). unfold wealth, owned, rest, cash_of, aside in *. simpl. rewrite Hs. lia.
Qed.

(** *** Ports *)

Lemma honest_port op : (forall y, owned a (op y).2 = owned a y) -> honest (port (lift op)).
Proof.
  intros Hop s u s' Hr. unfold port, ask, bind, gets, modify in Hr. apply ensure_inv in Hr as [-> _]. simpl. by apply told_put.
Qed.

Lemma honest_port_try op : (forall y, owned a (op y).2 = owned a y) -> honest (port_try (lift op)).
Proof. intros Hop s u s' Hr. unfold port_try, ask, bind, gets, modify in Hr. injection Hr as _ <-. simpl. by apply told_put. Qed.

Lemma honest_port_opt op : (forall y y', op y = Some y' -> owned a y' = owned a y) -> always_honest (port_opt (lift_opt op)).
Proof.
  intros Hop s r s' Hr. unfold port_opt, ask, bind, gets, ok_or, modify, lift_opt in Hr.
  destruct (op (rest (others s))) as [y |] eqn:Hy; injection Hr as _ <-; [| apply told_refl]. apply told_put. by eapply Hop.
Qed.

Lemma honest_tell op : (forall y, owned a (op y) = owned a y) -> honest (tell (lift_run op)).
Proof. intros Hop s u s' [= _ <-]. by apply told_put. Qed.

Lemma honest_always {A} (m : M_ A) : always_honest m -> honest m.
Proof. intros Hm s u s' Hr. by eapply Hm. Qed.

Lemma honest_repatriate e from to v : always_honest (port_opt (X:=X_) (fun x => fst <$> token_repatriate e from to v x)).
Proof.
  intros s r s' Hr. unfold port_opt, ask, bind, gets, ok_or, modify in Hr. cbn [token_repatriate joint_tokens] in Hr.
  destruct (token_repatriate e from to v (rest (others s))) as [q |] eqn:Hq; injection Hr as _ <-; [| apply told_refl].
  apply told_put. exact (alone_repatriate _ _ _ _ _ _ Hq).
Qed.

Ltac honest_step :=
  match goal with
  | |- honest (port _) =>
      first
        [ refine (honest_port (add_sold_count _ _) _); intros; apply alone_sold
        | apply (honest_escrow (EscrowPallet.set_resolved id)); [by apply (resolved_tells ecfg) | intros; aside_tac]
        | apply (honest_escrow (EscrowPallet.refund_all ecfg id _)); [by apply refund_tells | intros; aside_tac]
        | apply (honest_escrow (EscrowPallet.set_disputed ecfg _ id)); [by apply disputed_tells | intros; aside_tac]
        | apply (honest_escrow (EscrowPallet.split_partial ecfg id _ _ _));
            [by apply split_tells; unfold sat_sub; lia | intros; aside_tac] ]
  | |- honest (port_try _) =>
      first
        [ refine (honest_port_try (restore_stock _ _) _); intros; apply alone_stock
        | refine (honest_port_try (rollback_shopping_balance _ _ _) _); intros; apply alone_shopping
        | refine (honest_port_try (rollback_token_discount _ _ _) _); intros; apply alone_discount ]
  | |- honest (tell _) =>
      first
        [ refine (honest_tell (on_completed _) _); intros; apply alone_completed
        | refine (honest_tell (on_cancelled _) _); intros; apply alone_cancelled
        | refine (honest_tell (order_notice _ _) _); intros; apply alone_notice
        | refine (honest_tell (chat_revoke _ _ _) _); intros; apply alone_chat
        | refine (honest_tell (fun y => (token_unreserve _ _ _ y).1) _); intros; apply alone_unreserve ]
  | |- honest (port_opt _) =>
      first
        [ apply honest_always; refine (honest_port_opt (currency_reserve _ _) _); intros ? ?; apply alone_reserve
        | apply honest_always, honest_repatriate ]
  | |- honest (attempt _) => apply honest_attempt, honest_repatriate
  | |- honest (bind _ _) => apply honest_bind; [| intros ?]
  | |- honest (if decide _ then _ else _) => apply honest_if; intros ?
  | |- honest (match ?x with _ => _ end) => destruct x
  | |- honest _ => apply honest_framed; framed_tac
  end.
Ltac honest_tac :=
  unfold or_event, operation_failed, deposit_event, push_expiry, drop_expiry, validate_reason_cid, validate_optional_reason_cid,
    bounded_cid, root, signed, notify_order_cancelled, update_order, ask; cbv zeta;
  repeat (honest_step; cbv zeta).

(** *** Settlements *)

Context (o : Order) (Hok : order_ok id o).

Lemma rollback_honest : honest (rollback_loyalty (X:=X_) o id).
Proof. unfold rollback_loyalty. honest_tac. Qed.

Lemma refund_honest : honest (refund_by_asset (X:=X_) o id).
Proof. unfold refund_by_asset. destruct (payment_asset o); honest_tac. Qed.

Lemma cancel_honest st : honest (do_cancel_or_refund (X:=X_) o id st).
Proof.
  unfold do_cancel_or_refund. apply honest_bind; [apply rollback_honest | intros _].
  apply honest_bind; [apply refund_honest | intros _]. honest_tac.
Qed.

Lemma transfer_honest to x : 0 <= x -> honest (port (X:=X_) (escrow_transfer id to x)).
Proof.
  intros Hx. apply (honest_escrow (EscrowPallet.transfer_from_escrow ecfg id to x)); [by apply transfer_tells | intros; aside_tac].
Qed.

Lemma pay_native_honest : honest (pay_native (X:=X_) cfg o id).
Proof.
  pose proof (ok_fee _ _ Hok) as [Hfee _]. unfold pay_native. cbv zeta.
  apply honest_bind; [apply transfer_honest; unfold sat_sub; lia | intros _].
  apply honest_bind; [apply honest_if; intros _; [honest_tac | by apply transfer_honest] | intros _]. honest_tac.
Qed.

Lemma complete_honest env : honest (do_complete_order (X:=X_) cfg env id o).
Proof.
  unfold do_complete_order. cbv zeta. apply honest_bind; [honest_tac | intros fee].
  apply honest_bind; [| intros [? ?]; honest_tac]. destruct (payment_asset o).
  - apply honest_bind; [apply pay_native_honest | intros; honest_tac].
  - apply honest_bind; [unfold pay_tokens | intros]; honest_tac.
  - honest_tac.
Qed.

(** *** Calls *)

(** A run on a state that stores the order. *)
Definition honest_of {A} (m : M_ A) : Prop :=
  forall s u s', m s = (Ok u, s') -> Orders s !! id = Some o -> told (others s) (others s').

Lemma honest_of_honest {A} (m : M_ A) : honest m -> honest_of m.
Proof. intros Hm s u s' Hr _. by eapply Hm. Qed.

Lemma honest_of_get {A} (k : Order -> M_ A) : honest (k o) -> honest_of (bind (get_order id) k).
Proof. intros Hk s u s' Hr Ho. unfold get_order in Hr. m_inv. by eapply Hk. Qed.

Lemma honest_of_after {A B} (m : M_ A) (k : A -> M_ B) : framed (fun s => s) m -> (forall u, honest_of (k u)) -> honest_of (bind m k).
Proof. intros Hm Hk s u s' (v & s1 & ->%Hm & Hr)%bind_Ok. by eapply Hk. Qed.

Lemma call_honest env origin c : targets c = Some id -> honest_of (apply_call (X:=X_) cfg env origin c).
Proof.
  intros Ht. destruct c; simpl in Ht; try done; injection Ht as ->; simpl.
  all: unfold cancel_order, ship_order, confirm_receipt, do_request_refund, do_approve_refund, start_service,
      complete_service, confirm_service, do_reject_refund, seller_cancel_order, do_force_refund, do_force_complete,
      update_shipping_address, extend_confirm_timeout, update_tracking, seller_refund_order, do_force_partial_refund,
      do_withdraw_dispute, unfreeze, unfreeze_disputed; cbv zeta.
  all: repeat first
    [ apply honest_of_get
    | apply honest_of_after; [unfold signed, root, validate_reason_cid, validate_optional_reason_cid, bounded_cid; framed_tac | intros ?] ].
  all: try apply honest_of_honest.
  all: unfold or_event, operation_failed, deposit_event, push_expiry, drop_expiry, notify_order_cancelled, update_order, ask; cbv zeta.
  all: repeat match goal with
    | |- honest (do_complete_order _ _ _ _) => apply complete_honest
    | |- honest (do_cancel_or_refund _ _ _) => apply cancel_honest
    | |- honest (rollback_loyalty _ _) => apply rollback_honest
    | |- honest _ => honest_step
    end.
Qed.
End Orders.

(** At the small market everybody is left alone. *)
#[export] Instance demo_savings : Savings SimpleBank DemoWorld := {| set_aside a y := get0 (dm_reserved y.2) a |}.

#[export] Instance demo_alone a : LeavesAlone (L:=SimpleBank) (W:=DemoWorld) a.
Proof.
  split; try done.
  - intros who v y y'. cbn [currency_reserve demo_market]. case_decide as Hv; [| done]. intros [= <-].
    pose proof (bank_get_bounds y.1 who). unfold owned. cbn [balance simple_bank set_aside demo_savings fst snd dm_reserved].
    rewrite bank_get_set, get0_insert by lia. case_decide; subst; lia.
  - intros e from to v y r. cbn [token_repatriate demo_tokens]. intros (q & _ & ->)%fmap_Some. done.
Qed.
End OrderCash.
