(* ===== verification/OrderPayments.v ===== *)
(** What an order pays, over the escrow pallet: each call on an order leaves exactly the
    escrow events of its settlement and the payments they name (OrderCash.v), so what was
    locked reaches the accounts of the seller, the platform or whoever paid, to the last
    unit, and no other call moves it. *)

From S2P Require Import Prelude Frame EntityPorts Escrow EscrowSolvency.
From S2P Require Import EntityOrder OrderRules OrderMoney OrderEscrow OrderCash.

Module OrderPayments.
Import OrderPallet OrderRules OrderMoney OrderEscrow OrderCash.
#[local] Existing Instance EscrowPallet.eta_state.

(** * What the escrow's operations record *)

Section Escrow.
Context `{FrameSystem} {L : Type} `{TransferCurrency L} `{EscrowPallet.PermillOps} (ecfg : EscrowPallet.Config L).

(** The events of the escrow and what it has locked for one identifier. *)
Definition account (id : Z) (e : EscrowPallet.State L) : list EscrowPallet.Event * Z :=
  (EscrowPallet.events e, EscrowPallet.amount_of e id).

Lemma pay_account id from to v ex err : framed (account id) (EscrowPallet.pay from to v ex err).
Proof. unfold EscrowPallet.pay. framed_tac. Qed.

Lemma unschedule_account id id' : framed (account id) (EscrowPallet.remove_expiry_schedule (L:=L) id').
Proof. apply framed_modify. intros e. unfold EscrowPallet.unschedule. by case_match. Qed.

Lemma targets_account id id' l : framed (account id) (EscrowPallet.try_targets ecfg id' l).
Proof. induction l as [| t l IH]; simpl; [framed_tac |]. repeat first [ apply IH | framed_step ]. Qed.

Lemma open_account id : framed (account id) (EscrowPallet.ensure_open (L:=L) id).
Proof. unfold EscrowPallet.ensure_open. framed_tac. Qed.

Lemma shares_account id a b ra fa : framed (account id) (EscrowPallet.pay_shares ecfg a b ra fa).
Proof. unfold EscrowPallet.pay_shares. repeat first [ apply pay_account | framed_step | progress cbv zeta ]. Qed.

Lemma close_account id : framed (account id) (EscrowPallet.close (L:=L) id).
Proof. unfold EscrowPallet.close. repeat first [ apply unschedule_account | framed_step ]. Qed.

Definition posts (id : Z) (m : M (EscrowPallet.State L) (DispatchError EscrowPallet.Error) unit)
    (f : Z -> list EscrowPallet.Event * Z) : Prop :=
  forall e u e', m e = (Ok u, e') ->
    account id e' = (EscrowPallet.events e ++ (f (EscrowPallet.amount_of e id)).1, (f (EscrowPallet.amount_of e id)).2).

Ltac by_account :=
  repeat match goal with
    | Ho : EscrowPallet.ensure_open _ _ = _ |- _ => apply open_account in Ho
    | Hp : EscrowPallet.pay _ _ _ _ _ _ = _ |- _ => apply pay_account in Hp
    | Hp : EscrowPallet.pay_shares _ _ _ _ _ _ = _ |- _ => apply shares_account in Hp
    | Hc : EscrowPallet.close _ _ = _ |- _ => apply close_account in Hc
    end.

(** A settlement takes the amount, pays, closes and records one event. *)
Lemma refund_posts id to :
  posts id (EscrowPallet.refund_all ecfg id to) (fun v => ([EscrowPallet.Refunded id to v], 0)).
Proof.
  unfold EscrowPallet.refund_all, EscrowPallet.settle_all, EscrowPallet.take_locked, EscrowPallet.deposit_event, EscrowPallet.notify.
  intros e u e' Hr. m_inv.
  match goal with Ho : EscrowPallet.ensure_open _ _ = _ |- _ => apply ensure_open_inv in Ho as (-> & _) end.
  match goal with Hp : EscrowPallet.pay _ _ _ _ _ _ = _, Hc : EscrowPallet.close _ _ = _ |- _ =>
    apply (pay_account id) in Hp; apply (close_account id) in Hc; rewrite Hp in Hc; injection Hc as Hev Ham end.
  unfold account. simpl. f_equal; [by rewrite Hev |]. etrans; [exact Ham |]. apply taken_amount.
Qed.

Lemma transfer_posts id to x :
  posts id (EscrowPallet.transfer_from_escrow ecfg id to x) (fun v => ([EscrowPallet.Transferred id to x (sat_sub v x)], sat_sub v x)).
Proof.
  unfold EscrowPallet.transfer_from_escrow, EscrowPallet.deposit_event. intros e u e' Hr. m_inv.
  all: match goal with Ho : EscrowPallet.ensure_open _ _ = _ |- _ => apply ensure_open_inv in Ho as (-> & _) end.
  all: match goal with Hp : EscrowPallet.pay _ _ _ _ _ _ = _ |- _ => apply (pay_account id) in Hp; injection Hp as Hev Ham end.
  all: unfold account; simpl; f_equal; [by rewrite Hev |].
  - etrans; [apply taken_amount |]. done.
  - etrans; [exact Ham |]. apply amount_insert.
Qed.

Lemma split_posts id a b bps :
  posts id (EscrowPallet.split_partial ecfg id a b bps)
    (fun v => let r := EscrowPallet.mul_floor (bps * 100) v in ([EscrowPallet.PartialSplit id a r b (sat_sub v r)], 0)).
Proof.
  unfold EscrowPallet.split_partial, EscrowPallet.take_locked, EscrowPallet.deposit_event, EscrowPallet.notify.
  intros e u e' Hr. m_inv.
  all: match goal with Ho : EscrowPallet.ensure_open _ _ = _ |- _ => apply ensure_open_inv in Ho as (-> & _) end.
  all: match goal with Hp : EscrowPallet.pay_shares _ _ _ _ _ _ = _, Hc : EscrowPallet.close _ _ = _ |- _ =>
    apply (shares_account id) in Hp; apply (close_account id) in Hc; rewrite Hp in Hc; injection Hc as Hev Ham end.
  all: unfold account; simpl; f_equal; [by rewrite Hev |].
  all: etrans; [exact Ham |]; apply taken_amount.
Qed.

Lemma disputed_posts env id :
  posts id (EscrowPallet.set_disputed ecfg env id) (fun v => ([EscrowPallet.Disputed id 0 [] (block_number env)], v)).
Proof.
  unfold EscrowPallet.set_disputed, EscrowPallet.do_set_disputed, EscrowPallet.deposit_event, EscrowPallet.notify,
    EscrowPallet.try_schedule_expiry_at. intros e u e' Hr. cbv zeta in Hr. m_inv; [done |].
  match goal with Ht : EscrowPallet.try_targets _ _ _ _ = _ |- _ => apply (targets_account id) in Ht; injection Ht as Hev Ham end.
  unfold account. simpl. rewrite Hev. f_equal. exact Ham.
Qed.

Lemma resolved_posts id : posts id (EscrowPallet.set_resolved (L:=L) id) (fun v => ([], v)).
Proof. unfold EscrowPallet.set_resolved. intros e u e' Hr. m_inv. unfold account. simpl. by rewrite app_nil_r. Qed.
End Escrow.

(** * What the order pallet's steps record there *)

Section Orders.
Context `{FrameSystem} {L W : Type} `{TransferCurrency L} `{EscrowPallet.PermillOps}.
Context `{OrderWorld (L * W)} `{EntityTokens (L * W)} (ecfg : EscrowPallet.Config L) (cfg : Config).
#[local] Instance joined : EscrowPort (Joint (L:=L) (W:=W)) := joint_escrow_port ecfg.
Implicit Types (s : State (Joint (L:=L) (W:=W))).

Abbreviation X_ := (Joint (L:=L) (W:=W)).
Abbreviation M_ := (M (State X_) (DispatchError Error)).

Definition sheet (id : Z) s : list EscrowPallet.Event * Z := account id (others s).1.

(** What a successful run adds to the events and leaves locked. *)
Definition pays {A} (id : Z) (m : M_ A) (f : Z -> list EscrowPallet.Event * Z) : Prop :=
  forall s a s', m s = (Ok a, s') -> sheet id s' = ((sheet id s).1 ++ (f (sheet id s).2).1, (f (sheet id s).2).2).

Lemma pays_port id (m : M (EscrowPallet.State L) (DispatchError EscrowPallet.Error) unit) f :
  posts id m f -> pays id (port (run_escrow m)) f.
Proof.
  intros Hm s u s' Hr. unfold port, ask, bind, gets, modify in Hr. apply ensure_inv in Hr as [-> Hr].
  unfold sheet. simpl. unfold run_escrow in *. destruct (m (others s).1) as [[v | e0] e] eqn:Hrun; simpl in *.
  - by apply Hm in Hrun.
  - destruct Hr as [[_ ?] | [? _]]; done.
Qed.

Lemma pays_after {A B} id (m : M_ A) (k : A -> M_ B) f :
  framed (sheet id) m -> (forall a, pays id (k a) f) -> pays id (bind m k) f.
Proof. intros Hm Hk s b s' (a & s1 & K1 & Hr)%bind_Ok. apply Hm in K1. rewrite <- K1. by eapply Hk. Qed.

Lemma pays_before {A B} id (m : M_ A) (k : A -> M_ B) f :
  pays id m f -> (forall a, framed (sheet id) (k a)) -> pays id (bind m k) f.
Proof. intros Hm Hk s b s' (a & s1 & K1 & Hr)%bind_Ok. apply Hk in Hr. rewrite Hr. by eapply Hm. Qed.

Lemma sheet_last {A} id (m : M_ A) s : framed (sheet id) m -> forall s' a, m s = (Ok a, s') -> sheet id s' = sheet id s.
Proof. intros Hm s' a. apply Hm. Qed.

Lemma pays_nothing {A} id (m : M_ A) : framed (sheet id) m -> pays id m (fun v => ([], v)).
Proof. intros Hm s a s' ->%Hm. simpl. rewrite app_nil_r. apply surjective_pairing. Qed.

Lemma pays_ensure {A} id P `{Decision P} e (m : M_ A) f : (P -> pays id m f) -> pays id (ensure P e >> m) f.
Proof. intros Hm s a s' (? & s1 & [HP ->]%ensure_Ok & Hr)%bind_Ok. by eapply Hm. Qed.

(** ** Steps that leave it *)

Definition silent (x x' : X_) : Prop := forall id, account id x'.1 = account id x.1.

Lemma sheet_port id op : (forall x, silent x (op x).2) -> framed (sheet id) (port op).
Proof. intros Hop. unfold port, ask. intros s r s'. unfold bind, gets, modify. intros [-> _]%ensure_inv. apply Hop. Qed.

Lemma sheet_port_try id op : (forall x, silent x (op x).2) -> framed (sheet id) (port_try op).
Proof. intros Hop. unfold port_try, ask. intros s r s'. unfold bind, gets, modify. intros [= <- <-]. apply Hop. Qed.

Lemma sheet_port_opt id op : (forall x x', op x = Some x' -> silent x x') -> framed (sheet id) (port_opt op).
Proof.
  intros Hop s r s'. unfold port_opt, ask, bind, gets, ok_or. destruct (op (others s)) as [x' |] eqn:Hx; intros [= <- <-]; [| done].
  by apply Hop.
Qed.

Lemma sheet_tell id op : (forall x, silent x (op x)) -> framed (sheet id) (tell op).
Proof. intros Hop s r s' [= <- <-]. apply Hop. Qed.

Lemma reserve_silent w v (x x' : X_) : currency_reserve w v x = Some x' -> silent x x'.
Proof. intros (y & _ & ->)%fmap_Some. done. Qed.

Ltac sheet_step :=
  first
    [ apply sheet_port; done | apply sheet_port_try; done | apply sheet_tell; done
    | apply sheet_port_opt; by apply reserve_silent | framed_step ].
Ltac sheet_tac :=
  unfold or_event, operation_failed, deposit_event, push_expiry, drop_expiry, validate_reason_cid, validate_optional_reason_cid,
    bounded_cid, root, signed, get_order, notify_order_cancelled, update_order, ask;
  cbv zeta; repeat (sheet_step; cbv zeta).

Lemma rollback_sheet j o id : framed (sheet j) (rollback_loyalty (X:=X_) o id).
Proof. unfold rollback_loyalty. sheet_tac. Qed.

(** ** Settlements *)

Definition keeps_money (v : Z) : list EscrowPallet.Event * Z := ([], v).

Definition refunded (o : Order) (id v : Z) : list EscrowPallet.Event * Z :=
  match payment_asset o with Native => ([EscrowPallet.Refunded id (fund_account o) v], 0) | _ => keeps_money v end.

(** The seller gets the price less the fee, the platform the fee. *)
Definition paid_to_seller (o : Order) (id v : Z) : list EscrowPallet.Event * Z :=
  let net := sat_sub (total_amount o) (platform_fee o) in
  let rest := sat_sub v net in
  match payment_asset o with
  | Native =>
      if decide (platform_fee o = 0) then ([EscrowPallet.Transferred id (seller o) net rest], rest)
      else ([EscrowPallet.Transferred id (seller o) net rest;
             EscrowPallet.Transferred id (PlatformAccount cfg) (platform_fee o) (sat_sub rest (platform_fee o))],
            sat_sub rest (platform_fee o))
  | _ => keeps_money v
  end.

Definition shared (o : Order) (id bps v : Z) : list EscrowPallet.Event * Z :=
  let r := EscrowPallet.mul_floor (sat_sub 10000 bps * 100) v in
  ([EscrowPallet.PartialSplit id (seller o) r (fund_account o) (sat_sub v r)], 0).

Lemma refund_by_asset_pays o id : pays id (refund_by_asset o id) (refunded o id).
Proof.
  unfold refund_by_asset, refunded. destruct (payment_asset o).
  - apply pays_port, refund_posts.
  - apply pays_nothing. sheet_tac.
  - apply pays_nothing. sheet_tac.
Qed.

Lemma cancel_pays o id st : pays id (do_cancel_or_refund o id st) (refunded o id).
Proof.
  unfold do_cancel_or_refund. apply pays_after; [apply rollback_sheet | intros _]. apply pays_before; [apply refund_by_asset_pays |].
  intros _. sheet_tac.
Qed.

Lemma pay_native_pays o id : payment_asset o = Native -> pays id (pay_native cfg o id) (paid_to_seller o id).
Proof.
  intros Ha. unfold pay_native, paid_to_seller. rewrite Ha. cbv zeta.
  pose proof (transfer_posts ecfg id (seller o) (sat_sub (total_amount o) (platform_fee o))) as Hseller.
  apply pays_port in Hseller. case_decide.
  - apply pays_before; [exact Hseller | intros _]. sheet_tac.
  - pose proof (transfer_posts ecfg id (PlatformAccount cfg) (platform_fee o)) as Hfee. apply pays_port in Hfee.
    intros s a s' (? & s1 & K1 & Hr)%bind_Ok. apply bind_Ok in Hr as (? & s2 & K2 & Hr). apply Hseller in K1. apply Hfee in K2.
    assert (sheet id s' = sheet id s2) as -> by (revert Hr; generalize s', a; apply sheet_last; sheet_tac).
    rewrite K2, K1. simpl. by rewrite <- app_assoc.
Qed.

Lemma repatriate_silent e a b v (x x' : X_) : fst <$> token_repatriate e a b v x = Some x' -> silent x x'.
Proof. intros ([x1 n] & (r & _ & [= -> ->])%fmap_Some & ->)%fmap_Some. done. Qed.

Lemma tokens_sheet o id fee : framed (sheet id) (pay_tokens (X:=X_) o id fee).
Proof.
  unfold pay_tokens, operation_failed, deposit_event, ask.
  repeat first [ apply sheet_port_opt; intros ? ?; apply repatriate_silent | framed_step | progress cbv zeta ].
Qed.

Lemma complete_pays env o id : pays id (do_complete_order cfg env id o) (paid_to_seller o id).
Proof.
  unfold do_complete_order. cbv zeta. apply pays_after; [sheet_tac | intros fee]. apply pays_before; [| intros [? ?]; sheet_tac].
  destruct (payment_asset o) eqn:Ha.
  - apply pays_before; [by apply pay_native_pays | intros ?; sheet_tac].
  - unfold paid_to_seller. rewrite Ha. apply pays_nothing. apply framed_bind; [apply tokens_sheet | intros ?; sheet_tac].
  - unfold paid_to_seller. rewrite Ha. apply pays_nothing. sheet_tac.
Qed.

Lemma unfreeze_pays o id : pays id (unfreeze o id) keeps_money.
Proof. unfold unfreeze. case_decide; [apply pays_port, resolved_posts | apply pays_nothing; sheet_tac]. Qed.

Lemma unfreeze_disputed_pays o id : pays id (unfreeze_disputed o id) keeps_money.
Proof. unfold unfreeze_disputed. case_decide; [apply pays_port, resolved_posts | apply pays_nothing; sheet_tac]. Qed.

(** After a payment-free step the rest decides. *)
Lemma pays_kept {A B} id (m : M_ A) (k : A -> M_ B) f : pays id m keeps_money -> (forall a, pays id (k a) f) -> pays id (bind m k) f.
Proof.
  intros Hm Hk s b s' (a & s1 & K1 & Hr)%bind_Ok. apply Hm in K1. simpl in K1. rewrite app_nil_r in K1.
  change (sheet id s1 = sheet id s) in K1. rewrite <- K1. by eapply Hk.
Qed.

(** ** Calls *)

(** The same for the calls, which look the order up first. *)
Definition pays_of {A} (id : Z) (o : Order) (m : M_ A) (f : Z -> list EscrowPallet.Event * Z) : Prop :=
  forall s a s', m s = (Ok a, s') -> Orders s !! id = Some o ->
    sheet id s' = ((sheet id s).1 ++ (f (sheet id s).2).1, (f (sheet id s).2).2).

Lemma pays_of_pays {A} id o (m : M_ A) f : pays id m f -> pays_of id o m f.
Proof. intros Hm s a s' Hr _. by eapply Hm. Qed.

Lemma pays_of_get {A} id o (k : Order -> M_ A) f : pays id (k o) f -> pays_of id o (bind (get_order id) k) f.
Proof.
  intros Hk s a s' Hr Ho. unfold get_order in Hr. m_inv. by eapply Hk.
Qed.

Lemma pays_of_after {A B} id o (m : M_ A) (k : A -> M_ B) f :
  framed (fun s => s) m -> (forall a, pays_of id o (k a) f) -> pays_of id o (bind m k) f.
Proof. intros Hm Hk s b s' (a & s1 & ->%Hm & Hr)%bind_Ok. by eapply Hk. Qed.

(** What a call on order [o] settles of an amount locked for it. *)
Definition settlement (env : Env) (c : Call) (o : Order) (id v : Z) : list EscrowPallet.Event * Z :=
  match c with
  | CCancel _ | CApproveRefund _ | CSellerCancel _ _ | CForceRefund _ _ | CSellerRefund _ _ => refunded o id v
  | CConfirmReceipt _ | CConfirmService _ | CForceComplete _ _ => paid_to_seller o id v
  | CForcePartial _ bps _ => shared o id bps v
  | CRequestRefund _ _ =>
      match payment_asset o with Native => ([EscrowPallet.Disputed id 0 [] (block_number env)], v) | _ => keeps_money v end
  | _ => keeps_money v
  end.

Ltac checks :=
  repeat first
    [ apply pays_of_get
    | apply pays_of_after; [unfold signed, root, validate_reason_cid, validate_optional_reason_cid, bounded_cid; framed_tac | intros ?] ].
Ltac guards := repeat first [ apply complete_pays | apply pays_ensure; intros ? | apply pays_after; [by sheet_tac | intros ?] ].

Lemma call_pays env origin c id o : targets c = Some id ->
  pays_of id o (apply_call cfg env origin c) (settlement env c o id).
Proof.
  intros Ht. destruct c; simpl in Ht; try done; injection Ht as ->; unfold settlement; simpl.
  all: unfold cancel_order, ship_order, confirm_receipt, do_request_refund, do_approve_refund, start_service,
      complete_service, confirm_service, do_reject_refund, seller_cancel_order, do_force_refund, do_force_complete,
      update_shipping_address, extend_confirm_timeout, update_tracking, seller_refund_order, do_force_partial_refund,
      do_withdraw_dispute; cbv zeta.
  all: checks.
  all: guards.
  all: try (by apply pays_nothing; sheet_tac).
  all: try (apply pays_before; [apply cancel_pays | intros ?; sheet_tac]).
  all: try (apply pays_before; [apply complete_pays | intros ?; sheet_tac]).
  all: try (apply pays_kept; [first [apply unfreeze_pays | apply unfreeze_disputed_pays] | intros _]).
  - apply pays_before; [| intros ?; sheet_tac]. unfold keeps_money. case_decide as Ha.
    + rewrite Ha. exact (pays_port id _ _ (disputed_posts ecfg (mkEnv (block_number env) 0 0 []) id)).
    + destruct (payment_asset o); [done | apply pays_nothing; sheet_tac..].
  - apply pays_before; [apply cancel_pays | intros ?; sheet_tac].
  - apply pays_before; [apply cancel_pays | intros ?; sheet_tac].
  - apply pays_before; [apply complete_pays | intros ?; sheet_tac].
  - apply pays_kept; [case_decide; [apply pays_port, resolved_posts | apply pays_nothing; sheet_tac] | intros _].
    apply pays_after; [apply rollback_sheet | intros _]. apply pays_before; [| intros ?; sheet_tac].
    unfold shared. apply pays_port, split_posts.
  - apply pays_nothing. sheet_tac.
Qed.

(** * What a call on an order pays *)

Context `{!UnsignedDiscounts (L:=L) (W:=W)} `{!TransferCurrencyLaws L} `{!EscrowPallet.PermillLaws} `{Savings L W}.

(** What is locked for an open order. *)
Definition price (o : Order) : Z := match payment_asset o with Native => total_amount o | _ => 0 end.

(** The events of the escrow a call on an open order leaves, and what stays locked. *)
Definition bill (env : Env) (c : Call) (o : Order) (id : Z) : list EscrowPallet.Event * Z :=
  match payment_asset o with
  | Native =>
      let total := total_amount o in
      let fee := platform_fee o in
      match c with
      | CCancel _ | CApproveRefund _ | CSellerCancel _ _ | CForceRefund _ _ | CSellerRefund _ _ =>
          ([EscrowPallet.Refunded id (fund_account o) total], 0)
      | CConfirmReceipt _ | CConfirmService _ | CForceComplete _ _ =>
          (EscrowPallet.Transferred id (seller o) (total - fee) fee ::
             (if decide (fee = 0) then [] else [EscrowPallet.Transferred id (PlatformAccount cfg) fee 0]), 0)
      | CForcePartial _ bps _ =>
          let net := EscrowPallet.mul_floor (sat_sub 10000 bps * 100) total in
          ([EscrowPallet.PartialSplit id (seller o) net (fund_account o) (sat_sub total net)], 0)
      | CRequestRefund _ _ => ([EscrowPallet.Disputed id 0 [] (block_number env)], total)
      | _ => ([], total)
      end
  | _ => ([], 0)
  end.

Lemma settlement_bill env c o id : order_ok id o -> (forall i bps r, c = CForcePartial i bps r -> payment_asset o = Native) ->
  settlement env c o id (price o) = bill env c o id.
Proof.
  intros Hok Hc. pose proof (ok_fee _ _ Hok) as [Hf Ht]. unfold settlement, bill, price, refunded, paid_to_seller, shared, keeps_money.
  destruct (payment_asset o).
  - destruct c; try done.
    all: cbv zeta; rewrite (sat_sub_exact (total_amount o) (platform_fee o)), (sat_sub_exact (total_amount o)) by lia.
    all: replace (total_amount o - (total_amount o - platform_fee o)) with (platform_fee o) by lia.
    all: case_decide as Hz; [by rewrite Hz | by rewrite (sat_sub_exact (platform_fee o)), Z.sub_diag by lia].
  - destruct c; try done. by specialize (Hc _ _ _ eq_refl).
  - destruct c; try done. by specialize (Hc _ _ _ eq_refl).
Qed.

Lemma partial_native env origin i bps r s u s' id o : targets (CForcePartial i bps r) = Some id -> Orders s !! id = Some o ->
  apply_call cfg env origin (CForcePartial i bps r) s = (Ok u, s') -> payment_asset o = Native.
Proof.
  simpl. intros [= ->] Ho Hr. unfold root, do_force_partial_refund, validate_optional_reason_cid, validate_reason_cid, bounded_cid, get_order in Hr.
  destruct r; m_inv; done.
Qed.

(** What an open order has locked, as long as its timeouts did not fail. *)
Lemma locked_price E x s id o : empty_escrow x -> rtc (estep cfg E) (genesis x) s -> ~ E id -> failed id s = false -> Orders s !! id = Some o ->
  is_active (status o) = true -> order_ok id o /\ EscrowPallet.amount_of (others s).1 id = price o.
Proof.
  intros Hx Hrun HE Hf Ho Hact. pose proof (inv_view _ s (ereach_inv cfg E x s Hx Hrun) id) as Hok. unfold view_ok in Hok. simpl in Hok.
  rewrite Ho in Hok. destruct Hok as [Hok [[? _] | Hb]]; [done |]. split; [done |]. unfold backed, price in *. rewrite Hact in Hb.
  destruct (payment_asset o); [by apply Hb | apply Hb..].
Qed.

Lemma price_nonneg id o : order_ok id o -> 0 <= price o.
Proof. intros Hok. pose proof (ok_total _ _ Hok). unfold price. destruct (payment_asset o); lia. Qed.

(** C6: Orders pay exactly their price. Take any run in which nobody else touches the
    escrow's books but those of orders in [E], and an open order outside [E] whose
    timeouts have not failed. A successful call on it leaves in the escrow exactly the
    events of [bill]: a cancellation or refund sends the whole price back to whoever paid,
    a completion sends the price less the fee to the seller and the fee to the platform, a
    partial refund splits it, a refund request freezes it, and every other call leaves it
    where it is. And that is what is paid: every account but the escrow's, as far as the
    hooks of other pallets leave its money alone, owns afterwards what it owned before and
    what these events name for it, no more and no less. *)
Theorem orders_pay_exactly E x s env origin c s' id o : empty_escrow x -> rtc (estep cfg E) (genesis x) s -> ~ E id -> failed id s = false ->
  Orders s !! id = Some o -> is_active (status o) = true -> targets c = Some id -> dispatch cfg env origin c s = (Ok tt, s') ->
  EscrowPallet.events (others s').1 = EscrowPallet.events (others s).1 ++ (bill env c o id).1 /\
  EscrowPallet.amount_of (others s').1 id = (bill env c o id).2 /\
  forall a, a <> EscrowPallet.escrow_account ecfg -> LeavesAlone a ->
    owned a (rest (others s')) = owned a (rest (others s)) + gains a (bill env c o id).1.
Proof.
  intros Hx Hrun HE Hf Ho Hact Ht Hr. unfold dispatch in Hr. apply transactional_Ok in Hr.
  destruct (locked_price E x s id o Hx Hrun HE Hf Ho Hact) as [Hok Hv].
  assert (forall i bps r, c = CForcePartial i bps r -> payment_asset o = Native) as Hp.
  { intros i bps r ->. by eapply partial_native. }
  pose proof (call_pays env origin c id o Ht _ _ _ Hr Ho) as He. unfold sheet, account in He. simpl in He. rewrite Hv, settlement_bill in He by done.
  injection He as Hev Ham. split_and!; [done | done |]. intros a Ha Halone.
  destruct (call_honest ecfg cfg a Ha id o Hok env origin c Ht _ _ _ Hr Ho) as [(evs & Hl & Hw) _];
    [unfold stock; rewrite Hv; by eapply price_nonneg |].
  unfold log in Hl. rewrite Hev in Hl. apply app_inv_head in Hl. by rewrite Hl.
Qed.
End Orders.

(** * A parcel, paid, shipped and received *)

#[local] Existing Instance EscrowPallet.floor_permill.
#[local] Existing Instance EscrowPallet.floor_permill_laws.

Definition demo_shipped : DemoState := run_calls shipped_steps (genesis demo_start).

Definition demo_received : DemoState := call_at 3 1%N (CConfirmReceipt 0) demo_shipped.

Definition shipped_order : Order :=
  demo_order <| tracking_cid := Some [7] |> <| status := Shipped |> <| shipped_at := Some 2 |>.

Lemma demo_shipped_reached : rtc (step demo_cfg) (genesis demo_start) demo_shipped.
Proof. apply calls_reach. by repeat constructor. Qed.

Lemma demo_shipped_get : Orders demo_shipped !! 0 = Some shipped_order.
Proof. vm_compute. reflexivity. Qed.

Lemma demo_receives : dispatch demo_cfg (demo_env 3) (SignedBy 1%N) (CConfirmReceipt 0) demo_shipped = (Ok tt, demo_received).
Proof. unfold demo_received, call_at. apply returns. vm_compute. reflexivity. Qed.

Lemma demo_not_failed : failed 0 demo_shipped = false.
Proof. vm_compute. reflexivity. Qed.

(** Of 1000 units the platform keeps 10; the seller has 990 more, reserved at once for
    commissions. *)
Lemma orders_pay_exactly_witness :
  EscrowPallet.events (others demo_received).1 =
    EscrowPallet.events (others demo_shipped).1 ++ [EscrowPallet.Transferred 0 2%N 990 10; EscrowPallet.Transferred 0 50%N 10 0] /\
  EscrowPallet.amount_of (others demo_received).1 0 = 0 /\
  owned 2%N (rest (others demo_shipped)) = 100 /\ owned 2%N (rest (others demo_received)) = 100 + 990 /\
  owned 50%N (rest (others demo_received)) = owned 50%N (rest (others demo_shipped)) + 10 /\
  owned 1%N (rest (others demo_received)) = owned 1%N (rest (others demo_shipped)).
Proof.
  destruct (orders_pay_exactly demo_escrow demo_cfg (fun _ => False) demo_start demo_shipped (demo_env 3) (SignedBy 1%N) (CConfirmReceipt 0)
    demo_received 0 shipped_order demo_start_empty (run_estep _ _ _ _ demo_shipped_reached) (fun f => f) demo_not_failed demo_shipped_get
    eq_refl eq_refl demo_receives) as (Hev & Ham & Hown).
  assert (owned 2%N (rest (others demo_shipped)) = 100) as Hs by (by vm_compute).
  split_and!; [exact Hev | exact Ham | exact Hs | | |].
  - etrans; [apply (Hown 2%N); [done | apply _] |]. rewrite Hs. by vm_compute.
  - apply (Hown 50%N); [done | apply _].
  - etrans; [apply (Hown 1%N); [done | apply _] |]. apply Z.add_0_r.
Defined.
End OrderPayments.
