(* ===== verification/OrderLife.v ===== *)
(** The life of an order: its money stays in escrow while it is open, it stays well formed
    and moves along its state machine; what a withdrawn dispute restores, and what an
    automatic repurchase leaves when it fails. *)

From S2P Require Import Prelude Frame EntityPorts Escrow EscrowSolvency HoldCurrency Arbitration ArbitrationEscrow.
From S2P Require Import EntityOrder OrderRules OrderMoney OrderEscrow OrderPayments.

Module OrderLife.
Import OrderPallet OrderRules OrderMoney OrderEscrow OrderPayments.

Section Theorems.
Context `{FrameSystem} {X : Type} `{EscrowPort X} `{OrderWorld X} `{EntityTokens X}.
Context `{!EscrowPortLaws X, !OrderWorldLaws X} (cfg : Config).
Implicit Types (s : State X).

(** C5: The money of orders stays in escrow. Take any run of calls, ports and hooks of the
    pallet from an escrow without locks, in which nobody else touches the escrow's books
    except for orders already placed that are in [E] (those the arbitration settles or
    freezes, say). An order outside [E], paid in the native currency, that has not ended
    has its whole price locked under its identifier, frozen exactly while it is disputed;
    once it has ended nothing is left there. The one exception is recorded: where the hook
    failed to complete or refund the order, there can be less, never more. *)
Theorem order_money_is_locked E x s id o :
  empty_escrow x -> rtc (estep cfg E) (genesis x) s -> ~ E id -> Orders s !! id = Some o -> payment_asset o = Native ->
  if is_active (status o) then
    escrow_amount id (others s) <= total_amount o /\
    (failed id s = false ->
       escrow_amount id (others s) = total_amount o /\ (escrow_frozen id (others s) = true <-> status o = Disputed))
  else escrow_amount id (others s) = 0 /\ escrow_frozen id (others s) = false.
Proof.
  intros Hx Hrun HE Ho Ha. pose proof (inv_view _ s (ereach_inv cfg E x s Hx Hrun) id) as Hok. unfold view_ok in Hok. simpl in Hok.
  rewrite Ho in Hok. destruct Hok as [_ [[? _] | Hb]]; [done |]. unfold backed in Hb. rewrite Ha in Hb. destruct (is_active (status o)); [| done].
  destruct Hb as (Hle & Hf & Hb). split; [done |]. intros Hok. destruct (Hb Hok) as [Hv Hd]. split; [done |]. split; auto.
Qed.

(** C22: Every stored order is well formed, whatever calls were made: its fee is at most a
    tenth of the price, the amounts belong to its way of payment, buyer, seller and payer
    are different accounts, a digital order is completed, and the times and addresses its
    status needs are there. *)
Theorem orders_are_well_formed x s id o :
  empty_escrow x -> rtc (step cfg) (genesis x) s -> Orders s !! id = Some o -> order_ok id o.
Proof.
  intros Hx Hrun Ho. pose proof (inv_view _ s (reach_inv cfg x s Hx Hrun) id) as Hok. unfold view_ok in Hok. simpl in Hok.
  rewrite Ho in Hok. apply Hok.
Qed.

(** The state machine of an order. *)
Definition may_become (st st' : OrderStatus) : bool :=
  match st, st' with
  | Paid, (Shipped | Disputed | Cancelled | Refunded | PartiallyRefunded | Completed) => true
  | Shipped, (Disputed | Refunded | PartiallyRefunded | Completed) => true
  | Disputed, (Paid | Shipped | Refunded | PartiallyRefunded | Completed) => true
  | _, _ => false
  end.

Lemma change_status o o' : change o o' -> status o' = status o \/ may_become (status o) (status o') = true.
Proof.
  intros Hc. destruct Hc as [o cid Hs | o cid Hs | o Hs | o now Hs | o d Hs | o now cid Hs | o now Hs | o reason d Hs
    | o Hs | o Hs | o Hs | o Hs | o now Hs]; simpl; try (by left); try (rewrite Hs; by right);
    try (destruct (status o); by right).
  - destruct Hs as [-> | ->]; by right.
  - rewrite Hs. unfold restored_status. right. by destruct (shipped_at o).
Qed.

(** What an order can have become later. *)
Definition later (o o' : Order) : Prop :=
  terms o' = terms o /\ rtc (fun a b => may_become a b = true) (status o) (status o') /\ (is_active (status o) = false -> o' = o).

Lemma later_refl o : later o o.
Proof. done. Qed.

Lemma later_trans o1 o2 o3 : later o1 o2 -> later o2 o3 -> later o1 o3.
Proof.
  intros (Ht & Hs & He) (Ht' & Hs' & He'). split; [congruence |]. split; [by etrans |].
  intros Hend. specialize (He Hend). subst o2. auto.
Qed.

Lemma change_later o o' : change o o' -> later o o'.
Proof.
  intros Hc. split; [by apply change_terms |]. pose proof (change_active _ _ Hc) as Hact. split; [| by rewrite Hact].
  destruct (change_status _ _ Hc) as [<- | Hb]; [done | by apply rtc_once].
Qed.

Lemma moves_later w w' : rtc move w w' -> forall o, v_order w = Some o -> exists o', v_order w' = Some o' /\ later o o'.
Proof.
  induction 1 as [w | w1 w2 w3 Hm _ IH]; intros o Ho; [by exists o |].
  destruct Hm as [o1 o2 v v' f f' b Hc _ | o1 v v' f f' b]; simpl in *; injection Ho as <-; [| by apply IH].
  destruct (IH _ eq_refl) as (o' & Ho' & Hl). exists o'. split; [done |]. eapply later_trans; [by apply change_later | done].
Qed.

Lemma run_later E s s' : Inv (used E s) s -> rtc (estep cfg E) s s' -> forall id o, id < NextOrderId s -> Orders s !! id = Some o ->
  exists o', Orders s' !! id = Some o' /\ later o o'.
Proof.
  intros Hinv Hrun. induction Hrun as [s | s1 s2 s3 Hs _ IH]; intros id o Hid Ho; [exists o; by split |].
  destruct (estep_follows cfg E _ _ Hinv Hs) as (Hinv2 & Hn & Hm).
  assert (exists o2, Orders s2 !! id = Some o2 /\ later o o2) as (o2 & Ho2 & Hl).
  { destruct (Hm id Hid) as [Hmv | He]; [exact (moves_later _ _ Hmv o Ho) |]. exists o. by rewrite He. }
  destruct (IH Hinv2 id o2 ltac:(lia) Ho2) as (o3 & Ho3 & Hl3). exists o3. split; [done |]. by eapply later_trans.
Qed.

(** C7: Orders move along their state machine and nowhere else. Once the identifier of an
    order is used up (smaller than the next one to be given out, as it is for every order
    a successful call placed), every later state has that order, with the parties, prices
    and amounts it was placed with, in a status that is reached from the earlier one by
    the transitions of [may_become]; if it has ended it never changes again. That holds
    whatever others do to the escrow's books of placed orders. An order left behind by a
    failed automatic repurchase is not meant: its identifier is not used up, and the next
    order replaces it ([demo_overwritten]). *)
Theorem orders_move_along E x s s' id o :
  empty_escrow x -> rtc (estep cfg E) (genesis x) s -> rtc (estep cfg E) s s' -> id < NextOrderId s -> Orders s !! id = Some o ->
  exists o', Orders s' !! id = Some o' /\ terms o' = terms o /\
    rtc (fun a b => may_become a b = true) (status o) (status o') /\ (is_active (status o) = false -> o' = o).
Proof. intros Hx Hrun Hrun' Hid Ho. exact (run_later E s s' (ereach_inv cfg E x s Hx Hrun) Hrun' id o Hid Ho). Qed.

(** ** A dispute, requested and withdrawn *)

Definition after_dispute (o : Order) : Order :=
  o <| status := if is_service_like (product_category o) then Paid else status o |>
    <| dispute_deadline := None |> <| dispute_rejected := false |> <| refund_reason_cid := None |>.

Lemma requested env who id reason s u s' o : do_request_refund cfg env who id reason s = (Ok u, s') -> Orders s !! id = Some o ->
  (status o = Paid \/ status o = Shipped) /\
  exists d, Orders s' !! id = Some (o <| status := Disputed |> <| refund_reason_cid := Some reason |> <| dispute_deadline := Some d |>).
Proof.
  unfold do_request_refund, validate_reason_cid, bounded_cid, get_order, push_expiry, port, ask, deposit_event, update_order.
  intros Hr Ho. cbv zeta in Hr. m_inv; split; try done; eexists; simpl; rewrite lookup_alter_eq;
    match goal with Hs : Orders s !! id = Some _ |- _ => by rewrite Hs end.
Qed.

Lemma withdrawn env who id s u s' o : do_withdraw_dispute cfg env who id s = (Ok u, s') -> Orders s !! id = Some o ->
  Orders s' !! id = Some (o <| status := restored_status o |> <| dispute_deadline := None |> <| dispute_rejected := false |>
                            <| refund_reason_cid := None |>).
Proof.
  unfold do_withdraw_dispute, unfreeze, get_order, push_expiry, drop_expiry, port, ask, deposit_event, update_order.
  intros Hr Ho. m_inv; simpl; rewrite lookup_alter_eq; simpl in *;
    match goal with Hs : Orders s !! id = Some _ |- _ => by rewrite Hs end.
Qed.

(** C24: Requesting a refund and withdrawing the request restores an order for goods as it
    was, apart from the traces of an earlier dispute; but an order for a service always
    comes back as one that was only paid for, even when the service had been started or
    completed, since it is the time of shipping that is looked at, which services do not
    have. Such an order can be cancelled by the buyer for the whole price. *)
Theorem withdrawn_disputes_restore x s env env' origin origin' reason id o s1 s2 :
  empty_escrow x -> rtc (step cfg) (genesis x) s -> Orders s !! id = Some o ->
  dispatch cfg env origin (CRequestRefund id reason) s = (Ok tt, s1) ->
  dispatch cfg env' origin' (CWithdrawDispute id) s1 = (Ok tt, s2) ->
  Orders s2 !! id = Some (after_dispute o).
Proof.
  intros Hx Hrun Ho Hr1 Hr2. unfold dispatch in Hr1, Hr2. apply transactional_Ok in Hr1, Hr2. simpl in Hr1, Hr2.
  apply bind_Ok in Hr1 as (w1 & t1 & [_ ->]%ok_or_Ok & Hr1). apply bind_Ok in Hr2 as (w2 & t2 & [_ ->]%ok_or_Ok & Hr2).
  destruct (requested _ _ _ _ _ _ _ _ Hr1 Ho) as (Hst & d & Ho1). pose proof (withdrawn _ _ _ _ _ _ _ Hr2 Ho1) as Ho2.
  rewrite Ho2. unfold after_dispute. f_equal. cbn.
  assert (order_ok id o) as Hok.
  { pose proof (inv_view _ s (reach_inv cfg x s Hx Hrun) id) as Hv. unfold view_ok in Hv. simpl in Hv. rewrite Ho in Hv. apply Hv. }
  pose proof (ok_paid _ _ Hok) as Hp. pose proof (ok_shipped _ _ Hok) as Hs. pose proof (ok_shipped_at _ _ Hok) as Ha.
  assert (restored_status o = if is_service_like (product_category o) then Paid else status o) as He.
  { unfold restored_status. destruct (is_service_like (product_category o)), (shipped_at o) eqn:Hsh, Hst as [Hst | Hst];
      try done; rewrite ?Hst; try done; try (by specialize (Hp Hst)); try (by specialize (Ha (mk_is_Some _ _ eq_refl)));
      by destruct (Hs Hst). }
  unfold restored_status in *. cbn. by rewrite He.
Qed.

(** ** Automatic repurchases *)

(** C25: A repurchase that cannot be made burns the balance it was to be paid from. The
    commission pallet places it without an address and without a storage layer: for goods
    that need shipping the shopping balance is consumed first and the order refused
    afterwards, and what was consumed is not given back. *)
Theorem auto_repurchase_burns_balance env b product s q s1 x :
  quote b b product 1 None s = (Ok q, s1) ->
  native_enabled (payment_config (q_entity q) (others s1)) = true ->
  q_nex q <= shopping_balance (q_entity q) b (others s1) ->
  consume_shopping_balance (q_entity q) b (q_nex q) (others s1) = (true, x) ->
  category_requires_shipping (category (q_product q)) = true ->
  do_place_order_for_auto_repurchase cfg env b product s = (Err (Module ShippingCidRequired), s1 <| others := x |>).
Proof.
  intros Hq Hn Hbal Hc Hship.
  assert (prepare_order cfg b None product 1 None None ShoppingBalance None None s =
    (Err (Module ShippingCidRequired), s1 <| others := x |>)) as Hp.
  { unfold prepare_order. rewrite (bind_eval _ _ _ _ _ Hq). unfold check_channel, apply_loyalty, ask, port, opt_bounded. m_run.
    rewrite run_ensure by auto. m_run. unfold ask. rewrite run_gets, Hc. m_run.
    rewrite run_ensure by (by destruct (category (q_product q))).
    rewrite run_ensure_not by (intros Hno; by apply (Hno Hship)). done.
  }
  unfold do_place_order_for_auto_repurchase, do_place_order. unfold bind at 1, gets. unfold bind at 1. unfold bind at 1. simpl default.
  by rewrite Hp.
Qed.
End Theorems.

(** * At the small market *)

Lemma demo_bought_before : rtc (step demo_cfg) demo_bought demo_received.
Proof.
  change (rtc (step demo_cfg) demo_bought (run_calls [(2, 2%N, CShip 0 [7]); (3, 1%N, CConfirmReceipt 0)] demo_bought)).
  apply calls_reach. by repeat constructor.
Qed.

(** Account 1 buys two parcels; the arbitration gives the money of the second to the
    seller. The first order still has its money. *)
Definition demo_two : DemoState := run_calls [(1, 1%N, buy 2); (1, 1%N, buy 2)] (genesis demo_start).

Definition demo_ruled : EscrowPallet.State SimpleBank :=
  (ArbitrationEscrow.settle_order demo_escrow 1 1%N 2%N Arbitration.Release (others demo_two).1).2.

Definition demo_beside : DemoState := demo_two <| others := (demo_ruled, (others demo_two).2) |>.

Lemma demo_two_reached : rtc (step demo_cfg) (genesis demo_start) demo_two.
Proof. apply calls_reach. by repeat constructor. Qed.

Lemma demo_beside_reached : rtc (estep demo_cfg (fun j => j = 1)) (genesis demo_start) demo_beside.
Proof.
  eapply rtc_r; [apply run_estep, demo_two_reached |]. apply es_touch. intros j Hj.
  destruct (decide (j = 1)) as [-> | Hne]; [clear Hj; split_and!; [done | by vm_compute | by eexists; vm_compute] |]. destruct Hj.
  apply books_at_escrow. cbn [fst]. unfold demo_ruled. generalize (others demo_two).1. intros e.
  destruct (ArbitrationEscrow.settle_order demo_escrow 1 1%N 2%N Arbitration.Release e) as [r e'] eqn:Hr.
  exact (settled_order_elsewhere demo_escrow 1 j 1%N 2%N Arbitration.Release Hne _ _ _ Hr).
Qed.

Lemma demo_beside_get : Orders demo_beside !! 0 = Some demo_order.
Proof. vm_compute. reflexivity. Qed.

Lemma order_money_is_locked_witness :
  EscrowPallet.amount_of (others demo_beside).1 1 = 0 /\
  EscrowPallet.amount_of (others demo_beside).1 0 <= 1000 /\
  (failed 0 demo_beside = false ->
     EscrowPallet.amount_of (others demo_beside).1 0 = 1000 /\ (escrow_frozen 0 (others demo_beside) = true <-> Paid = Disputed)).
Proof.
  split; [by vm_compute |].
  exact (order_money_is_locked demo_cfg (fun j => j = 1) demo_start demo_beside 0 demo_order demo_start_empty demo_beside_reached
    ltac:(done) demo_beside_get eq_refl).
Defined.

Lemma orders_are_well_formed_witness : order_ok 0 demo_order.
Proof. exact (orders_are_well_formed demo_cfg demo_start demo_bought 0 demo_order demo_start_empty demo_bought_reached demo_bought_get). Defined.

Lemma orders_move_along_witness :
  exists o', Orders demo_received !! 0 = Some o' /\ terms o' = terms demo_order /\
    rtc (fun a b => may_become a b = true) Paid (status o') /\ (is_active Paid = false -> o' = demo_order).
Proof.
  refine (orders_move_along demo_cfg (fun _ => False) demo_start demo_bought demo_received 0 demo_order demo_start_empty
    (run_estep _ _ _ _ demo_bought_reached) (run_estep _ _ _ _ demo_bought_before) _ demo_bought_get).
  by vm_compute.
Defined.

(** A service, started and completed; the dispute puts it back to paid, and the buyer
    cancels it for the whole price. *)
Definition demo_served : DemoState :=
  run_calls [(1, 1%N, buy 3); (2, 2%N, CStartService 0); (3, 2%N, CCompleteService 0)] (genesis demo_start).

Definition demo_complained : DemoState := call_at 4 1%N (CRequestRefund 0 [8]) demo_served.

Definition demo_withdrawn : DemoState := call_at 5 1%N (CWithdrawDispute 0) demo_complained.

Example demo_refunded_service :
  (status <$> Orders demo_served !! 0, status <$> Orders demo_withdrawn !! 0,
   status <$> Orders (call_at 6 1%N (CCancel 0) demo_withdrawn) !! 0,
   bank_get (EscrowPallet.ledger (others (call_at 6 1%N (CCancel 0) demo_withdrawn)).1) 1%N) =
  (Some Shipped, Some Paid, Some Cancelled, 10000).
Proof. vm_compute. reflexivity. Qed.

Definition served_order : Order :=
  demo_order <| product_id := 3 |> <| product_category := Service |> <| status := Shipped |>
    <| service_started_at := Some 2 |> <| service_completed_at := Some 3 |>.

Lemma demo_served_get : Orders demo_served !! 0 = Some served_order.
Proof. vm_compute. reflexivity. Qed.

Lemma demo_served_reached : rtc (step demo_cfg) (genesis demo_start) demo_served.
Proof. apply calls_reach. by repeat constructor. Qed.

Lemma demo_complains : dispatch demo_cfg (demo_env 4) (SignedBy 1%N) (CRequestRefund 0 [8]) demo_served = (Ok tt, demo_complained).
Proof. unfold demo_complained, call_at. apply returns. vm_compute. reflexivity. Qed.

Lemma demo_withdraws : dispatch demo_cfg (demo_env 5) (SignedBy 1%N) (CWithdrawDispute 0) demo_complained = (Ok tt, demo_withdrawn).
Proof. unfold demo_withdrawn, call_at. apply returns. vm_compute. reflexivity. Qed.

Lemma withdrawn_disputes_restore_witness : Orders demo_withdrawn !! 0 = Some (served_order <| status := Paid |>).
Proof.
  exact (withdrawn_disputes_restore demo_cfg demo_start demo_served (demo_env 4) (demo_env 5) (SignedBy 1%N) (SignedBy 1%N) [8] 0
    served_order demo_complained demo_withdrawn demo_start_empty demo_served_reached demo_served_get demo_complains demo_withdraws).
Defined.

(** A parcel of 1000 units, out of a balance of 3000. *)
Definition parcel_quote : Quote := mkQuote (mkProduct 1 10000000 7 OnSale Physical Public 1 0) 2%N 1 10000000 10000000000000000 1000.

Definition demo_spent : Joint (L:=SimpleBank) (W:=DemoWorld) := (demo_start.1, mkDemo 7 2000 ∅ ∅).

Lemma auto_repurchase_burns_balance_witness :
  do_place_order_for_auto_repurchase demo_cfg (demo_env 1) 1%N 2 (genesis demo_start) =
    (Err (Module ShippingCidRequired), (genesis demo_start) <| others := demo_spent |>).
Proof.
  refine (auto_repurchase_burns_balance demo_cfg (demo_env 1) 1%N 2 (genesis demo_start) parcel_quote (genesis demo_start) demo_spent _ _ _ _ _).
  - vm_compute. reflexivity.
  - done.
  - by vm_compute.
  - vm_compute. reflexivity.
  - done.
Defined.

(** ** What a failed repurchase leaves *)

(** Account 1 has as many orders as can be listed for a buyer, two. Its automatic
    repurchase of a digital product then fails after the order was stored, without a
    storage layer: a completed order stays under an identifier that is not used up, until
    somebody else's order takes its place. *)
Definition tight_cfg : Config := mkConfig 50%N 10 20 30 40 15 8 2 3 9 5.

Definition tight_call (now : Z) (who : AccountId) (c : Call) (s : DemoState) : DemoState :=
  (dispatch tight_cfg (demo_env now) (SignedBy who) c s).2.

Definition tight_full : DemoState :=
  tight_call 1 1%N (buy 2) (tight_call 1 1%N (buy 2)
    (genesis (EscrowPallet.genesis {[9%N := 5%N; 1%N := 10000%N; 3%N := 10000%N]}, mkDemo 7 3000 ∅ ∅))).

Definition demo_left : DemoState := (do_place_order_for_auto_repurchase tight_cfg (demo_env 2) 1%N 1 tight_full).2.

Example demo_overwritten :
  NextOrderId demo_left = 2 /\
  ((fun o => (buyer o, status o)) <$> Orders demo_left !! 2) = Some (1%N, Completed) /\
  ((fun o => (buyer o, status o)) <$> Orders (tight_call 3 3%N (buy 3) demo_left) !! 2) = Some (3%N, Paid).
Proof. split_and!; by vm_compute. Qed.
End OrderLife.
