(* ===== verification/EntityLoyalty.v ===== *)
(** [pallet-entity-loyalty] (src/pallets/entity/loyalty/src/lib.rs): the points of a shop,
    which its managers issue and customers transfer or redeem for money, and the shopping
    balances an entity owes its members, in the native currency and in its token. The
    dispatchables and the operations other pallets call are definitions of their names;
    the theorems are in LoyaltyPoints.v and LoyaltyBalances.v. *)

From S2P Require Import Prelude Frame.

(** * What the pallet asks of others

    [W] is the state of the pallets behind these traits: the shops and entities, the
    tokens of an entity and the participation guard. *)

Inductive ShopOperatingStatus : Type := Active | Paused | FundDepleted | Closed | Closing | Banned.

#[export] Instance shop_status_eq_dec : EqDecision ShopOperatingStatus.
Proof. solve_decision. Defined.

Definition is_banned (st : ShopOperatingStatus) : bool := bool_decide (st = Banned).

Definition is_terminal_or_banned (st : ShopOperatingStatus) : bool :=
  match st with Closed | Closing | Banned => true | _ => false end.

Class LoyaltyWorld (W : Type) : Type := {
  (** [ShopProvider] *)
  shop_exists (shop : Z) (w : W) : bool;
  shop_entity_id (shop : Z) (w : W) : option Z;
  is_shop_manager (shop : Z) (who : AccountId) (w : W) : bool;
  shop_own_status (shop : Z) (w : W) : option ShopOperatingStatus;
  shop_account (shop : Z) : AccountId;
  (** [EntityProvider] *)
  is_entity_active (entity : Z) (w : W) : bool;
  is_entity_locked (entity : Z) (w : W) : bool;
  entity_account (entity : Z) : AccountId;
  entity_shops (entity : Z) (w : W) : list Z;
  (** [ParticipationGuard] *)
  can_participate (entity : Z) (who : AccountId) (w : W) : bool;
  (** [EntityTokenProvider]: fallible calls say what they left *)
  is_token_enabled (entity : Z) (w : W) : bool;
  token_balance (entity : Z) (who : AccountId) (w : W) : Z;
  token_redeem_for_discount (entity : Z) (who : AccountId) (tokens : Z) (w : W) : option Z * W;
  token_reward_on_purchase (entity : Z) (who : AccountId) (amount : Z) (w : W) : option Z * W;
  token_refund_discount (entity : Z) (who : AccountId) (tokens : Z) (w : W) : bool * W;
  (** [TokenTransferProvider] *)
  token_transfer (entity : Z) (from to : AccountId) (amount : Z) (w : W) : bool * W;
}.

Module Loyalty.

(** * Data and storage *)

Record PointsConfig : Type := mkPointsConfig {
  name : bytes;
  symbol : bytes;
  (** basis points *)
  reward_rate : Z;
  exchange_rate : Z;
  transferable : bool;
}.

#[export] Instance eta_points_config : Settable PointsConfig := fun c =>
  mkPointsConfig (name c) (symbol c) (reward_rate c) (exchange_rate c) (transferable c).

Inductive CleanupPhase : Type := ClearingBalances | ClearingExpiry.

Inductive Event : Type :=
| ShopPointsEnabled (shop : Z) (name_ : bytes)
| ShopPointsDisabled (shop : Z)
| PointsIssued (shop : Z) (to : AccountId) (amount : Z)
| PointsBurned (shop : Z) (from : AccountId) (amount : Z)
| PointsTransferred (shop : Z) (from to : AccountId) (amount : Z)
| PointsConfigUpdated (shop : Z)
| PointsRedeemed (shop : Z) (who : AccountId) (burned payout : Z)
| PointsTtlSet (shop ttl : Z)
| PointsExpired (shop : Z) (account : AccountId) (amount : Z)
| EvMaxSupplySet (shop max_supply : Z)
| ShoppingBalanceUsed (entity : Z) (account : AccountId) (amount : Z)
| ShoppingBalanceCredited (entity : Z) (account : AccountId) (amount : Z)
| TokenShoppingBalanceUsed (entity : Z) (account : AccountId) (amount : Z)
| TokenShoppingBalanceCredited (entity : Z) (account : AccountId) (amount : Z)
| ShoppingBalanceRolledBack (entity : Z) (account : AccountId) (amount : Z).

Inductive Error : Type :=
| PointsNotEnabled | PointsAlreadyEnabled | PointsNotTransferable | InsufficientPointsBalance | PointsNameEmpty
| PointsNotExpired | RedeemPayoutZero | PointsMaxSupplyExceeded | InvalidConfig | ShopNotFound | NotAuthorized
| EntityNotActive | EntityLocked | ShopAlreadyClosed | ShopBanned | SameAccount | InsufficientOperatingFund
| InsufficientShoppingBalance | ZeroAmount | ParticipationRequirementNotMet | NoCleanupInProgress
(** [DispatchError::Other] of the governance calls, and the error of another pallet *)
| NoPointsConfigFound | PortRefused.

Record State {L W : Type} : Type := mkState {
  ShopPointsConfigs : gmap Z PointsConfig;
  ShopPointsBalances : gmap Z (gmap AccountId Z);
  ShopPointsTotalSupply : gmap Z Z;
  ShopPointsTtl : gmap Z Z;
  ShopPointsExpiresAt : gmap Z (gmap AccountId Z);
  ShopPointsMaxSupply : gmap Z Z;
  ShopShoppingTotal : gmap Z Z;
  MemberShoppingBalance : gmap Z (gmap AccountId Z);
  MemberTokenShoppingBalance : gmap Z (gmap AccountId Z);
  TokenShoppingTotal : gmap Z Z;
  PointsCleanupCursor : gmap Z CleanupPhase;
  ledger : L;
  world : W;
  events : list Event;
  (** what a bounded clearing goes by: the two maps of points as the block found them, and
      the entries written since *)
  begun_balances : gmap Z (gmap AccountId Z);
  begun_expiry : gmap Z (gmap AccountId Z);
  written_balances : gset (Z * AccountId);
  written_expiry : gset (Z * AccountId);
}.
Arguments State : clear implicits.

#[export] Instance eta_state {L W} : Settable (State L W) := fun s =>
  mkState L W (ShopPointsConfigs s) (ShopPointsBalances s) (ShopPointsTotalSupply s) (ShopPointsTtl s)
    (ShopPointsExpiresAt s) (ShopPointsMaxSupply s) (ShopShoppingTotal s) (MemberShoppingBalance s)
    (MemberTokenShoppingBalance s) (TokenShoppingTotal s) (PointsCleanupCursor s) (ledger s) (world s) (events s)
    (begun_balances s) (begun_expiry s) (written_balances s) (written_expiry s).

Definition genesis {L W} (l : L) (w : W) : State L W := mkState L W ∅ ∅ ∅ ∅ ∅ ∅ ∅ ∅ ∅ ∅ ∅ l w [] ∅ ∅ ∅ ∅.

(** What was written is stored for good when the next block begins. *)
Definition next_block {L W} (s : State L W) : State L W :=
  s <| begun_balances := ShopPointsBalances s |> <| begun_expiry := ShopPointsExpiresAt s |>
    <| written_balances := ∅ |> <| written_expiry := ∅ |>.

Definition POINTS_CLEANUP_LIMIT : nat := 500.

(** A [ValueQuery] entry of a double map. *)
Definition cell (m : gmap Z (gmap AccountId Z)) (k : Z) (who : AccountId) : Z := default 0 (dget m k who).

(** [XMap::clear_prefix(k, POINTS_CLEANUP_LIMIT, None)] of the host: every entry written in
    this block goes, and of the keys the block found, the first [POINTS_CLEANUP_LIMIT] in
    the order of the storage, whether or not they are there still. The others stay, and
    then a cursor is left, which the pallet does not use. *)
Definition spared `{PrefixStorage} (k : Z) (written : gset (Z * AccountId)) (begun : gmap Z (gmap AccountId Z)) : list AccountId :=
  filter (fun who => (k, who) ∉ written) (drop POINTS_CLEANUP_LIMIT (iter_keys (prefix begun k))).

Definition clear_prefix `{PrefixStorage} (k : Z) (written : gset (Z * AccountId)) (begun m : gmap Z (gmap AccountId Z))
    : gmap Z (gmap AccountId Z) * bool :=
  (<[k := filter (fun x => x.1 ∈ spared k written begun) (prefix m k)]> m,
   bool_decide (POINTS_CLEANUP_LIMIT < length (iter_keys (prefix begun k)))%nat).

Section Pallet.
Context `{FrameSystem} `{PrefixStorage} {L W : Type} `{TransferCurrency L} `{LoyaltyWorld W}.
Implicit Types (s : State L W).

Abbreviation M_ := (M (State L W) (DispatchError Error)).
Abbreviation Call_ := (M (State L W) (DispatchError Error) unit).

Definition deposit_event (e : Event) : Call_ := modify (fun s => s <| events ::= fun l => l ++ [e] |>).

Definition signed (origin : Origin) : M_ AccountId := ok_or (ensure_signed origin) BadOrigin.

Definition ask {A} (q : W -> A) : M_ A := gets (fun s => q (world s)).

(** * Helpers *)

Definition ensure_shop (ok : ShopOperatingStatus -> bool) (shop : Z) (err : Error) : Call_ :=
  let! st := ask (shop_own_status shop) in
  match st with Some st => ensure (ok st = true) (Module err) | None => ret tt end.

Definition ensure_shop_not_terminal_or_banned (shop : Z) : Call_ :=
  ensure_shop (fun st => negb (is_terminal_or_banned st)) shop ShopAlreadyClosed.

Definition ensure_shop_not_closed (shop : Z) : Call_ :=
  ensure_shop (fun st => negb (bool_decide (st = Closed))) shop ShopAlreadyClosed.

Definition ensure_shop_not_banned (shop : Z) : Call_ :=
  ensure_shop (fun st => negb (is_banned st)) shop ShopBanned.

(** What every call of a manager checks first: the shop, its entity and who asks. *)
Definition ensure_manager (who : AccountId) (shop : Z) : Call_ :=
  let! entity_ := ask (shop_entity_id shop) in
  let! entity := ok_or entity_ (Module ShopNotFound) in
  let! manager := ask (is_shop_manager shop who) in
  ensure (manager = true) (Module NotAuthorized) >>
  let! locked := ask (is_entity_locked entity) in
  ensure (locked = false) (Module EntityLocked) >>
  let! active := ask (is_entity_active entity) in
  ensure (active = true) (Module EntityNotActive).

Definition ensure_enabled (shop : Z) : Call_ :=
  let! configs := gets ShopPointsConfigs in
  ensure (is_Some (configs !! shop)) (Module PointsNotEnabled).

Definition get_config (shop : Z) : M_ PointsConfig :=
  let! configs := gets ShopPointsConfigs in
  ok_or (configs !! shop) (Module PointsNotEnabled).

Definition ensure_exists (shop : Z) : Call_ :=
  let! e := ask (shop_exists shop) in
  ensure (e = true) (Module ShopNotFound).

(** The entries a write touches in this block. *)
Definition write_balance (shop : Z) (who : AccountId) : Call_ := modify (fun s => s <| written_balances ::= fun w => {[ (shop, who) ]} ∪ w |>).
Definition write_expiry (shop : Z) (who : AccountId) : Call_ := modify (fun s => s <| written_expiry ::= fun w => {[ (shop, who) ]} ∪ w |>).

Definition add_points (shop : Z) (who : AccountId) (v : Z) : Call_ :=
  modify (fun s => s <| ShopPointsBalances ::= fun m => dset shop who (sat_add u128_max (cell m shop who) v) m |>) >>
  write_balance shop who.

Definition sub_points (shop : Z) (who : AccountId) (v : Z) : Call_ :=
  modify (fun s => s <| ShopPointsBalances ::= fun m => dset shop who (sat_sub (cell m shop who) v) m |>) >>
  write_balance shop who.

Definition add_supply (shop v : Z) : Call_ :=
  modify (fun s => s <| ShopPointsTotalSupply ::= fun m => <[shop := sat_add u128_max (get0 m shop) v]> m |>).

Definition sub_supply (shop v : Z) : Call_ :=
  modify (fun s => s <| ShopPointsTotalSupply ::= fun m => <[shop := sat_sub (get0 m shop) v]> m |>).

(** Takes the points of an account whose time is over; the last block still counts. *)
Definition take_expired (shop : Z) (who : AccountId) : Call_ :=
  let! expired := gets (fun s => cell (ShopPointsBalances s) shop who) in
  modify (fun s => s <| ShopPointsBalances ::= drem shop who |>) >>
  write_balance shop who >>
  (if decide (expired = 0) then ret tt
   else sub_supply shop expired >> deposit_event (PointsExpired shop who expired)) >>
  modify (fun s => s <| ShopPointsExpiresAt ::= drem shop who |>) >>
  write_expiry shop who.

Definition check_points_expiry (env : Env) (shop : Z) (who : AccountId) : Call_ :=
  let! expiry := gets (fun s => dget (ShopPointsExpiresAt s) shop who) in
  match expiry with
  | Some at_ => if decide (block_number env > at_) then take_expired shop who else ret tt
  | None => ret tt
  end.

Definition check_points_max_supply (shop amount : Z) : Call_ :=
  let! top := gets (fun s => get0 (ShopPointsMaxSupply s) shop) in
  let! current := gets (fun s => get0 (ShopPointsTotalSupply s) shop) in
  ensure (top <> 0 -> sat_add u128_max current amount <= top) (Module PointsMaxSupplyExceeded).

Definition maybe_extend_points_expiry (env : Env) (shop : Z) (who : AccountId) : Call_ :=
  let! ttl := gets (fun s => get0 (ShopPointsTtl s) shop) in
  if decide (ttl = 0) then ret tt else
  let new := sat_add u32_max (block_number env) ttl in
  let! old := gets (fun s => dget (ShopPointsExpiresAt s) shop who) in
  let final := match old with Some current => if decide (current > new) then current else new | None => new end in
  modify (fun s => s <| ShopPointsExpiresAt ::= dset shop who final |>) >>
  write_expiry shop who.

(** * Dispatchables *)

Definition enable_points (origin : Origin) (shop : Z) (name_ symbol_ : bytes) (reward exchange : Z) (transfer_ok : bool) : Call_ :=
  let! who := signed origin in
  ensure_manager who shop >>
  ensure_shop_not_terminal_or_banned shop >>
  let! configs := gets ShopPointsConfigs in
  ensure (configs !! shop = None) (Module PointsAlreadyEnabled) >>
  ensure (name_ <> []) (Module PointsNameEmpty) >>
  ensure (symbol_ <> []) (Module InvalidConfig) >>
  ensure (reward <= 10000 /\ exchange <= 10000) (Module InvalidConfig) >>
  modify (fun s => s <| ShopPointsConfigs ::= <[shop := mkPointsConfig name_ symbol_ reward exchange transfer_ok]> |>) >>
  deposit_event (ShopPointsEnabled shop name_).

Definition clear_balances (shop : Z) : M_ bool :=
  let! r := gets (fun s => clear_prefix shop (written_balances s) (begun_balances s) (ShopPointsBalances s)) in
  modify (fun s => s <| ShopPointsBalances := r.1 |>) >> ret r.2.

Definition clear_expiry (shop : Z) : M_ bool :=
  let! r := gets (fun s => clear_prefix shop (written_expiry s) (begun_expiry s) (ShopPointsExpiresAt s)) in
  modify (fun s => s <| ShopPointsExpiresAt := r.1 |>) >> ret r.2.

Definition disable_points (origin : Origin) (shop : Z) : Call_ :=
  let! who := signed origin in
  ensure_manager who shop >>
  ensure_shop_not_terminal_or_banned shop >>
  ensure_enabled shop >>
  modify (fun s => s <| ShopPointsConfigs ::= delete shop |>) >>
  let! _ := clear_balances shop in
  modify (fun s => s <| ShopPointsTotalSupply ::= delete shop |>) >>
  modify (fun s => s <| ShopPointsTtl ::= delete shop |>) >>
  let! _ := clear_expiry shop in
  modify (fun s => s <| ShopPointsMaxSupply ::= delete shop |>) >>
  deposit_event (ShopPointsDisabled shop).

Definition update_points_config (origin : Origin) (shop : Z) (reward exchange : option Z) (transfer_ok : option bool) : Call_ :=
  let! who := signed origin in
  ensure (reward <> None \/ exchange <> None \/ transfer_ok <> None) (Module InvalidConfig) >>
  ensure_manager who shop >>
  ensure_shop_not_terminal_or_banned shop >>
  let! c := get_config shop in
  ensure (default 0 reward <= 10000) (Module InvalidConfig) >>
  ensure (default 0 exchange <= 10000) (Module InvalidConfig) >>
  deposit_event (PointsConfigUpdated shop) >>
  modify (fun s => s <| ShopPointsConfigs ::= <[shop := c <| reward_rate ::= fun r => default r reward |>
    <| exchange_rate ::= fun r => default r exchange |> <| transferable ::= fun t => default t transfer_ok |>]> |>).

Definition transfer_points (env : Env) (origin : Origin) (shop : Z) (to : AccountId) (amount : Z) : Call_ :=
  let! who := signed origin in
  ensure (amount <> 0) (Module InsufficientPointsBalance) >>
  ensure (who <> to) (Module SameAccount) >>
  ensure_exists shop >>
  ensure_shop_not_closed shop >>
  ensure_shop_not_banned shop >>
  let! c := get_config shop in
  ensure (transferable c = true) (Module PointsNotTransferable) >>
  check_points_expiry env shop who >>
  let! held := gets (fun s => cell (ShopPointsBalances s) shop who) in
  ensure (held >= amount) (Module InsufficientPointsBalance) >>
  sub_points shop who amount >>
  add_points shop to amount >>
  maybe_extend_points_expiry env shop to >>
  deposit_event (PointsTransferred shop who to amount).

Definition grant_points (env : Env) (shop : Z) (to : AccountId) (amount : Z) : Call_ :=
  ensure_enabled shop >>
  check_points_max_supply shop amount >>
  add_points shop to amount >>
  add_supply shop amount >>
  maybe_extend_points_expiry env shop to >>
  deposit_event (PointsIssued shop to amount).

Definition manager_issue_points (env : Env) (origin : Origin) (shop : Z) (to : AccountId) (amount : Z) : Call_ :=
  let! who := signed origin in
  ensure (amount <> 0) (Module InsufficientPointsBalance) >>
  ensure_manager who shop >>
  ensure_shop_not_terminal_or_banned shop >>
  grant_points env shop to amount.

(** Burns after the points that are too old are gone. *)
Definition destroy_points (env : Env) (shop : Z) (from : AccountId) (amount : Z) : Call_ :=
  ensure_enabled shop >>
  check_points_expiry env shop from >>
  let! held := gets (fun s => cell (ShopPointsBalances s) shop from) in
  ensure (held >= amount) (Module InsufficientPointsBalance) >>
  sub_points shop from amount >>
  sub_supply shop amount >>
  deposit_event (PointsBurned shop from amount).

Definition manager_burn_points (env : Env) (origin : Origin) (shop : Z) (from : AccountId) (amount : Z) : Call_ :=
  let! who := signed origin in
  ensure (amount <> 0) (Module InsufficientPointsBalance) >>
  ensure_manager who shop >>
  ensure_shop_not_closed shop >>
  ensure_shop_not_banned shop >>
  destroy_points env shop from amount.

Definition redeem_points (env : Env) (origin : Origin) (shop amount : Z) : Call_ :=
  let! who := signed origin in
  ensure (amount <> 0) (Module InsufficientPointsBalance) >>
  ensure_exists shop >>
  ensure_shop_not_closed shop >>
  ensure_shop_not_banned shop >>
  let! c := get_config shop in
  ensure (exchange_rate c > 0) (Module InvalidConfig) >>
  check_points_expiry env shop who >>
  let! held := gets (fun s => cell (ShopPointsBalances s) shop who) in
  ensure (held >= amount) (Module InsufficientPointsBalance) >>
  let payout := Z.min u128_max (amount * exchange_rate c) / 10000 in
  ensure (payout <> 0) (Module RedeemPayoutZero) >>
  let! fund := gets (fun s => balance (shop_account shop) (ledger s)) in
  ensure (fund >= payout) (Module InsufficientOperatingFund) >>
  let! l := gets ledger in
  let! l' := ok_or (transfer (shop_account shop) who payout AllowDeath l) (Module PortRefused) in
  modify (fun s => s <| ledger := l' |>) >>
  sub_points shop who amount >>
  sub_supply shop amount >>
  deposit_event (PointsRedeemed shop who amount payout).

Definition set_points_ttl (origin : Origin) (shop ttl : Z) : Call_ :=
  let! who := signed origin in
  ensure_manager who shop >>
  ensure_shop_not_terminal_or_banned shop >>
  ensure_enabled shop >>
  (if decide (ttl = 0) then modify (fun s => s <| ShopPointsTtl ::= delete shop |>)
   else modify (fun s => s <| ShopPointsTtl ::= <[shop := ttl]> |>)) >>
  deposit_event (PointsTtlSet shop ttl).

Definition expire_points (env : Env) (origin : Origin) (shop : Z) (account : AccountId) : Call_ :=
  let! _ := signed origin in
  ensure_exists shop >>
  let! expiry := gets (fun s => dget (ShopPointsExpiresAt s) shop account) in
  let! at_ := ok_or expiry (Module PointsNotExpired) in
  ensure (block_number env > at_) (Module PointsNotExpired) >>
  take_expired shop account.

Definition set_points_max_supply (origin : Origin) (shop top : Z) : Call_ :=
  let! who := signed origin in
  ensure_manager who shop >>
  ensure_shop_not_terminal_or_banned shop >>
  ensure_enabled shop >>
  let! current := gets (fun s => get0 (ShopPointsTotalSupply s) shop) in
  ensure (top <> 0 -> current <= top) (Module PointsMaxSupplyExceeded) >>
  (if decide (top = 0) then modify (fun s => s <| ShopPointsMaxSupply ::= delete shop |>)
   else modify (fun s => s <| ShopPointsMaxSupply ::= <[shop := top]> |>)) >>
  deposit_event (EvMaxSupplySet shop top).

(** ** Clearing the points of a shop in steps *)

Definition set_phase (shop : Z) (p : CleanupPhase) : Call_ := modify (fun s => s <| PointsCleanupCursor ::= <[shop := p]> |>).

Definition clear_metadata (shop : Z) : Call_ :=
  modify (fun s => s <| ShopPointsTotalSupply ::= delete shop |>) >>
  modify (fun s => s <| ShopPointsTtl ::= delete shop |>) >>
  modify (fun s => s <| ShopPointsMaxSupply ::= delete shop |>).

Definition finish_cleanup (shop : Z) : Call_ :=
  clear_metadata shop >>
  modify (fun s => s <| PointsCleanupCursor ::= delete shop |>).

Definition run_cleanup_step (shop : Z) : Call_ :=
  let! phases := gets PointsCleanupCursor in
  match phases !! shop with
  | None => ret tt
  | Some ClearingBalances =>
      let! more := clear_balances shop in
      if more : bool then ret tt else
      let! more := clear_expiry shop in
      if more : bool then set_phase shop ClearingExpiry else finish_cleanup shop
  | Some ClearingExpiry =>
      let! more := clear_expiry shop in
      if more : bool then ret tt else finish_cleanup shop
  end.

Definition continue_cleanup (origin : Origin) (shop : Z) : Call_ :=
  let! _ := signed origin in
  let! phases := gets PointsCleanupCursor in
  ensure (is_Some (phases !! shop)) (Module NoCleanupInProgress) >>
  run_cleanup_step shop.

(** Called when a shop is closed or its points are switched off by governance. *)
Definition cleanup_shop_points (shop : Z) : Call_ :=
  modify (fun s => s <| ShopPointsConfigs ::= delete shop |>) >>
  let! more := clear_balances shop in
  if more : bool then set_phase shop ClearingBalances else
  let! more := clear_expiry shop in
  if more : bool then set_phase shop ClearingExpiry else
  clear_metadata shop.

(** * What other pallets call *)

(** [issue_points] and [burn_points], of the order of a shop. *)
Definition issue_points (env : Env) (shop : Z) (to : AccountId) (amount : Z) : Call_ :=
  ensure (amount <> 0) (Module InsufficientPointsBalance) >>
  ensure_exists shop >>
  ensure_shop_not_closed shop >>
  ensure_shop_not_banned shop >>
  ensure_shop (fun st => negb (bool_decide (st = Closing))) shop ShopAlreadyClosed >>
  grant_points env shop to amount.

Definition burn_points (env : Env) (shop : Z) (from : AccountId) (amount : Z) : Call_ :=
  ensure (amount <> 0) (Module InsufficientPointsBalance) >>
  ensure_exists shop >>
  ensure_shop_not_closed shop >>
  ensure_shop_not_banned shop >>
  destroy_points env shop from amount.

(** ** Shopping balances in the native currency: bookkeeping only *)

Definition take_shopping (entity : Z) (who : AccountId) (amount : Z) : Call_ :=
  let! held := gets (fun s => cell (MemberShoppingBalance s) entity who) in
  ensure (held >= amount) (Module InsufficientShoppingBalance) >>
  modify (fun s => s <| ShopShoppingTotal ::= fun m => <[entity := sat_sub (get0 m entity) amount]> m |>) >>
  deposit_event (ShoppingBalanceUsed entity who amount) >>
  modify (fun s => s <| MemberShoppingBalance ::= dset entity who (sat_sub held amount) |>).

Definition do_use_shopping_balance : Z -> AccountId -> Z -> Call_ := take_shopping.

Definition ensure_may_spend (entity : Z) (who : AccountId) (amount : Z) : Call_ :=
  ensure (amount <> 0) (Module ZeroAmount) >>
  let! active := ask (is_entity_active entity) in
  ensure (active = true) (Module EntityNotActive) >>
  let! may := ask (can_participate entity who) in
  ensure (may = true) (Module ParticipationRequirementNotMet).

Definition do_consume_shopping_balance (entity : Z) (who : AccountId) (amount : Z) : Call_ :=
  ensure_may_spend entity who amount >>
  take_shopping entity who amount.

Definition put_shopping (event : Z -> AccountId -> Z -> Event) (entity : Z) (who : AccountId) (amount : Z) : Call_ :=
  if decide (amount = 0) then ret tt else
  modify (fun s => s <| MemberShoppingBalance ::= fun m => dset entity who (sat_add u128_max (cell m entity who) amount) m |>) >>
  modify (fun s => s <| ShopShoppingTotal ::= fun m => <[entity := sat_add u128_max (get0 m entity) amount]> m |>) >>
  deposit_event (event entity who amount).

Definition do_credit_shopping_balance : Z -> AccountId -> Z -> Call_ := put_shopping ShoppingBalanceCredited.
Definition do_rollback_shopping_balance : Z -> AccountId -> Z -> Call_ := put_shopping ShoppingBalanceRolledBack.

Definition do_forfeit_shopping_balance (entity : Z) (who : AccountId) : Call_ :=
  let! amount := gets (fun s => cell (MemberShoppingBalance s) entity who) in
  modify (fun s => s <| MemberShoppingBalance ::= drem entity who |>) >>
  (if decide (amount = 0) then ret tt
   else modify (fun s => s <| ShopShoppingTotal ::= fun m => <[entity := sat_sub (get0 m entity) amount]> m |>)).

(** [clear_prefix(entity, u32::MAX, None)]: more rows than a state can have. *)
Definition forfeit_all_shopping_balances (entity : Z) : Call_ :=
  modify (fun s => s <| MemberShoppingBalance ::= delete entity |>) >>
  modify (fun s => s <| ShopShoppingTotal ::= delete entity |>).

(** ** Shopping balances in the entity's token, paid out of its account *)

Definition do_credit_token_shopping_balance (entity : Z) (who : AccountId) (amount : Z) : Call_ :=
  if decide (amount = 0) then ret tt else
  modify (fun s => s <| MemberTokenShoppingBalance ::= fun m => dset entity who (sat_add u128_max (cell m entity who) amount) m |>) >>
  modify (fun s => s <| TokenShoppingTotal ::= fun m => <[entity := sat_add u128_max (get0 m entity) amount]> m |>) >>
  deposit_event (TokenShoppingBalanceCredited entity who amount).

Definition do_consume_token_shopping_balance (entity : Z) (who : AccountId) (amount : Z) : Call_ :=
  ensure_may_spend entity who amount >>
  let! held := gets (fun s => cell (MemberTokenShoppingBalance s) entity who) in
  ensure (held >= amount) (Module InsufficientShoppingBalance) >>
  let! paid := ask (token_transfer entity (entity_account entity) who amount) in
  modify (fun s => s <| world := paid.2 |>) >>
  ensure (paid.1 = true) (Module PortRefused) >>
  modify (fun s => s <| TokenShoppingTotal ::= fun m => <[entity := sat_sub (get0 m entity) amount]> m |>) >>
  deposit_event (TokenShoppingBalanceUsed entity who amount) >>
  modify (fun s => s <| MemberTokenShoppingBalance ::= dset entity who (sat_sub held amount) |>).

Definition forfeit_all_token_shopping_balances (entity : Z) : Call_ :=
  modify (fun s => s <| MemberTokenShoppingBalance ::= delete entity |>) >>
  modify (fun s => s <| TokenShoppingTotal ::= delete entity |>).

(** ** What is passed on to the token pallet *)

Definition pass_on {A} (op : W -> option A * W) : M_ A :=
  let! r := ask op in
  modify (fun s => s <| world := r.2 |>) >>
  ok_or r.1 (Module PortRefused).

Definition redeem_for_discount (entity : Z) (who : AccountId) (tokens : Z) : M_ Z := pass_on (token_redeem_for_discount entity who tokens).

Definition reward_on_purchase (entity : Z) (who : AccountId) (amount : Z) : M_ Z := pass_on (token_reward_on_purchase entity who amount).

Definition rollback_token_discount (entity : Z) (who : AccountId) (tokens : Z) : Call_ :=
  let! r := ask (token_refund_discount entity who tokens) in
  modify (fun s => s <| world := r.2 |>) >>
  ensure (r.1 = true) (Module PortRefused).

(** ** Governance of the points of all shops of an entity *)

Fixpoint update_all (reward exchange : Z) (transfer_ok : bool) (shops : list Z) (updated : Z) : M_ Z :=
  match shops with
  | [] => ret updated
  | shop :: rest =>
      let! configs := gets ShopPointsConfigs in
      match configs !! shop with
      | Some c =>
          modify (fun s => s <| ShopPointsConfigs ::= <[shop := c <| reward_rate := reward |>
            <| exchange_rate := exchange |> <| transferable := transfer_ok |>]> |>) >>
          deposit_event (PointsConfigUpdated shop) >>
          update_all reward exchange transfer_ok rest (updated + 1)
      | None => update_all reward exchange transfer_ok rest updated
      end
  end.

Definition governance_set_points_config (entity reward exchange : Z) (transfer_ok : bool) : Call_ :=
  ensure (reward <= 10000 /\ exchange <= 10000) (Module InvalidConfig) >>
  let! shops := ask (entity_shops entity) in
  let! updated := update_all reward exchange transfer_ok shops 0 in
  ensure (updated > 0) (Module NoPointsConfigFound).

Definition governance_toggle_points (entity : Z) (enabled : bool) : Call_ :=
  if enabled then ret tt else
  let! shops := ask (entity_shops entity) in
  for_each shops (fun shop =>
    let! configs := gets ShopPointsConfigs in
    match configs !! shop with
    | Some _ => cleanup_shop_points shop >> deposit_event (ShopPointsDisabled shop)
    | None => ret tt
    end).

(** * All calls *)

Inductive Call : Type :=
| CEnable (shop : Z) (name_ symbol_ : bytes) (reward exchange : Z) (transfer_ok : bool)
| CDisable (shop : Z)
| CUpdate (shop : Z) (reward exchange : option Z) (transfer_ok : option bool)
| CTransfer (shop : Z) (to : AccountId) (amount : Z)
| CIssue (shop : Z) (to : AccountId) (amount : Z)
| CBurn (shop : Z) (from : AccountId) (amount : Z)
| CRedeem (shop amount : Z)
| CTtl (shop ttl : Z)
| CExpire (shop : Z) (account : AccountId)
| CMaxSupply (shop top : Z)
| CContinue (shop : Z).

Definition apply_call (env : Env) (origin : Origin) (c : Call) : Call_ :=
  match c with
  | CEnable shop n y r x t => enable_points origin shop n y r x t
  | CDisable shop => disable_points origin shop
  | CUpdate shop r x t => update_points_config origin shop r x t
  | CTransfer shop to v => transfer_points env origin shop to v
  | CIssue shop to v => manager_issue_points env origin shop to v
  | CBurn shop from v => manager_burn_points env origin shop from v
  | CRedeem shop v => redeem_points env origin shop v
  | CTtl shop ttl => set_points_ttl origin shop ttl
  | CExpire shop account => expire_points env origin shop account
  | CMaxSupply shop top => set_points_max_supply origin shop top
  | CContinue shop => continue_cleanup origin shop
  end.

Definition dispatch (env : Env) (origin : Origin) (c : Call) : Call_ := transactional (apply_call env origin c).

(** The traits [LoyaltyWritePort], [LoyaltyTokenWritePort], [PointsCleanup] and
    [ShopGovernancePort], and the functions orders use. *)
Inductive PortCall : Type :=
| PIssue (shop : Z) (to : AccountId) (amount : Z)
| PBurn (shop : Z) (from : AccountId) (amount : Z)
| PCleanup (shop : Z)
| PUse (entity : Z) (who : AccountId) (amount : Z)
| PConsume (entity : Z) (who : AccountId) (amount : Z)
| PCredit (entity : Z) (who : AccountId) (amount : Z)
| PRollback (entity : Z) (who : AccountId) (amount : Z)
| PForfeit (entity : Z) (who : AccountId)
| PForfeitAll (entity : Z)
| PCreditToken (entity : Z) (who : AccountId) (amount : Z)
| PConsumeToken (entity : Z) (who : AccountId) (amount : Z)
| PForfeitAllToken (entity : Z)
| PSetPointsConfig (entity reward exchange : Z) (transfer_ok : bool)
| PTogglePoints (entity : Z) (enabled : bool)
| PRollbackDiscount (entity : Z) (who : AccountId) (tokens : Z).

Definition port_call (env : Env) (c : PortCall) : Call_ :=
  match c with
  | PIssue shop to v => issue_points env shop to v
  | PBurn shop from v => burn_points env shop from v
  | PCleanup shop => cleanup_shop_points shop
  | PUse e who v => do_use_shopping_balance e who v
  | PConsume e who v => do_consume_shopping_balance e who v
  | PCredit e who v => do_credit_shopping_balance e who v
  | PRollback e who v => do_rollback_shopping_balance e who v
  | PForfeit e who => do_forfeit_shopping_balance e who
  | PForfeitAll e => forfeit_all_shopping_balances e
  | PCreditToken e who v => do_credit_token_shopping_balance e who v
  | PConsumeToken e who v => do_consume_token_shopping_balance e who v
  | PForfeitAllToken e => forfeit_all_token_shopping_balances e
  | PSetPointsConfig e r x t => governance_set_points_config e r x t
  | PTogglePoints e on => governance_toggle_points e on
  | PRollbackDiscount e who v => rollback_token_discount e who v
  end.
End Pallet.

(** * Reads *)

Section Reads.
Context {L W : Type}.
Implicit Types (s : State L W).

Definition get_points_balance s (shop : Z) (who : AccountId) : Z := cell (ShopPointsBalances s) shop who.
Definition get_points_total_supply s (shop : Z) : Z := get0 (ShopPointsTotalSupply s) shop.
Definition get_points_config s (shop : Z) : option PointsConfig := ShopPointsConfigs s !! shop.
Definition get_points_expiry s (shop : Z) (who : AccountId) : option Z := dget (ShopPointsExpiresAt s) shop who.
Definition get_points_max_supply s (shop : Z) : Z := get0 (ShopPointsMaxSupply s) shop.
Definition shopping_balance s (entity : Z) (who : AccountId) : Z := cell (MemberShoppingBalance s) entity who.
Definition shopping_total s (entity : Z) : Z := get0 (ShopShoppingTotal s) entity.
Definition token_shopping_balance s (entity : Z) (who : AccountId) : Z := cell (MemberTokenShoppingBalance s) entity who.
Definition token_shopping_total s (entity : Z) : Z := get0 (TokenShoppingTotal s) entity.
End Reads.
End Loyalty.
