(* ===== verification/LoyaltyBalances.v ===== *)
(** The books of the loyalty pallet: what the members of an entity are owed adds up to the
    entity's total, in the native currency and in its token, and what an order took out
    of a shopping balance comes back when it is rolled back. *)

From S2P Require Import Prelude Frame EntityLoyalty.

Module LoyaltyBalances.
Import Loyalty.

(** * Rows and their totals *)

Abbreviation Rows := (gmap Z (gmap AccountId Z)).

Definition row_sum (m : Rows) (k : Z) : Z := msum (fun _ v => v) (prefix m k).

Lemma cell_dset m k w v k' w' : cell (dset k w v m) k' w' = if decide (k = k' /\ w = w') then v else cell m k' w'.
Proof. unfold cell. rewrite dget_dset. by case_decide. Qed.

Lemma cell_drem m k w k' w' : cell (drem k w m) k' w' = if decide (k = k' /\ w = w') then 0 else cell m k' w'.
Proof. unfold cell. rewrite dget_drem. by case_decide. Qed.

Lemma cell_prefix m k w : cell m k w = default 0 (prefix m k !! w).
Proof. done. Qed.

Lemma row_sum_dset m k w v k' :
  row_sum (dset k w v m) k' = if decide (k = k') then row_sum m k - cell m k w + v else row_sum m k'.
Proof.
  unfold row_sum. rewrite prefix_dset. case_decide as Hk; [| done]. rewrite msum_insert, cell_prefix.
  by destruct (prefix m k !! w).
Qed.

Lemma row_sum_drem m k w k' :
  row_sum (drem k w m) k' = if decide (k = k') then row_sum m k - cell m k w else row_sum m k'.
Proof.
  unfold row_sum. rewrite prefix_drem. case_decide as Hk; [| done]. rewrite msum_delete, cell_prefix.
  by destruct (prefix m k !! w).
Qed.

Lemma prefix_delete (m : Rows) k k' : prefix (delete k m) k' = if decide (k = k') then ∅ else prefix m k'.
Proof. unfold prefix. rewrite lookup_delete. by case_decide. Qed.

Lemma get0_delete (m : gmap Z Z) k k' : get0 (delete k m) k' = if decide (k = k') then 0 else get0 m k'.
Proof. unfold get0. rewrite lookup_delete. by case_decide. Qed.

(** A table of balances and its totals. *)
Record book_ok (m : Rows) (t : gmap Z Z) : Prop := {
  book_sum : forall k, get0 t k = row_sum m k;
  book_nonneg : forall k w, 0 <= cell m k w;
}.

Lemma row_values m k : (forall w, 0 <= cell m k w) -> forall w v, prefix m k !! w = Some v -> 0 <= v.
Proof. intros Hm w v Hw. specialize (Hm w). rewrite cell_prefix, Hw in Hm. done. Qed.

Lemma cell_le_row m k w : (forall w', 0 <= cell m k w') -> cell m k w <= row_sum m k.
Proof.
  intros Hm. pose proof (row_values _ _ Hm) as Hv. rewrite cell_prefix. unfold row_sum.
  destruct (prefix m k !! w) as [v |] eqn:Hw; simpl.
  - exact (msum_elem_le (fun _ v => v) (prefix m k) w v Hv Hw).
  - apply msum_nonneg, Hv.
Qed.

Lemma book_le m t k w : book_ok m t -> 0 <= cell m k w <= get0 t k.
Proof. intros [Hs Hn]. rewrite Hs. split; [apply Hn | apply cell_le_row, Hn]. Qed.

Lemma book_empty : book_ok ∅ ∅.
Proof.
  split.
  - intros k. rewrite get0_empty. unfold row_sum. by rewrite prefix_empty, msum_empty.
  - intros k w. rewrite cell_prefix, prefix_empty, lookup_empty. done.
Qed.

Lemma book_take m t k w v : book_ok m t -> 0 <= v <= cell m k w ->
  book_ok (dset k w (sat_sub (cell m k w) v) m) (<[k := sat_sub (get0 t k) v]> t).
Proof.
  intros Hb Hv. pose proof (book_le m t k w Hb). destruct Hb as [Hs Hn]. rewrite !sat_sub_exact by lia. split.
  - intros k'. rewrite get0_insert, row_sum_dset, Hs. case_decide; [lia | apply Hs].
  - intros k' w'. rewrite cell_dset. case_decide; [lia | apply Hn].
Qed.

Lemma book_put m t k w v : book_ok m t -> 0 <= v -> get0 t k + v <= u128_max ->
  book_ok (dset k w (sat_add u128_max (cell m k w) v) m) (<[k := sat_add u128_max (get0 t k) v]> t).
Proof.
  intros Hb Hv Hmax. pose proof (book_le m t k w Hb). destruct Hb as [Hs Hn]. rewrite !sat_add_exact by lia. split.
  - intros k'. rewrite get0_insert, row_sum_dset, Hs. case_decide; [lia | apply Hs].
  - intros k' w'. rewrite cell_dset. case_decide; [lia | apply Hn].
Qed.

Lemma book_forfeit m t k w : book_ok m t ->
  book_ok (drem k w m) (<[k := sat_sub (get0 t k) (cell m k w)]> t).
Proof.
  intros Hb. pose proof (book_le m t k w Hb). destruct Hb as [Hs Hn]. rewrite sat_sub_exact by lia. split.
  - intros k'. rewrite get0_insert, row_sum_drem, Hs. case_decide; [done | apply Hs].
  - intros k' w'. rewrite cell_drem. case_decide; [lia | apply Hn].
Qed.

(** The same when there was nothing, and the total is left alone. *)
Lemma book_forfeit_nothing m t k w : book_ok m t -> cell m k w = 0 -> book_ok (drem k w m) t.
Proof.
  intros [Hs Hn] Hz. split.
  - intros k'. rewrite row_sum_drem, Hs. case_decide as Hk; [rewrite <- Hk; lia | done].
  - intros k' w'. rewrite cell_drem. case_decide; [lia | apply Hn].
Qed.

Lemma book_delete m t k : book_ok m t -> book_ok (delete k m) (delete k t).
Proof.
  intros [Hs Hn]. split.
  - intros k'. rewrite get0_delete. unfold row_sum. rewrite prefix_delete. case_decide; [by rewrite msum_empty | apply Hs].
  - intros k' w'. rewrite cell_prefix, prefix_delete. case_decide; [by rewrite lookup_empty | apply Hn].
Qed.

(** Moving between two accounts of a row. *)
Lemma book_move m t k a b v : book_ok m t -> a <> b -> 0 <= v <= cell m k a -> get0 t k <= u128_max ->
  let m1 := dset k a (sat_sub (cell m k a) v) m in book_ok (dset k b (sat_add u128_max (cell m1 k b) v) m1) t.
Proof.
  intros Hb Hab Hv Hmax m1. pose proof (book_le m t k a Hb) as Ha. pose proof (book_le m t k b Hb) as Hbb.
  assert (cell m1 k b = cell m k b) as Hcb by (unfold m1; rewrite cell_dset, decide_False by naive_solver; done).
  destruct Hb as [Hs Hn].
  assert (row_sum m1 k = row_sum m k - v) as Hr1.
  { unfold m1. rewrite row_sum_dset, decide_True by done. rewrite sat_sub_exact by lia. lia. }
  assert (forall w', 0 <= cell m1 k w') as Hn1.
  { intros w'. unfold m1. rewrite cell_dset. case_decide; [rewrite sat_sub_exact by lia; lia | apply Hn]. }
  specialize (cell_le_row m1 k b Hn1) as Hle. rewrite Hr1, Hcb, <- Hs in Hle. rewrite Hcb, sat_add_exact by lia. split.
  - intros k'. rewrite row_sum_dset. case_decide as Hk; [rewrite <- Hk, Hr1, Hcb, Hs; lia |].
    unfold m1. rewrite row_sum_dset, decide_False by done. apply Hs.
  - intros k' w'. rewrite cell_dset. case_decide; [lia |]. unfold m1. rewrite cell_dset.
    case_decide; [rewrite sat_sub_exact by lia; lia | apply Hn].
Qed.

(** * Runs *)

Section Runs.
Context `{FrameSystem} `{PrefixStorage} {L W : Type} `{TransferCurrency L} `{LoyaltyWorld W}.
Implicit Types (s : State L W).

Abbreviation M_ := (M (State L W) (DispatchError Error)).

(** Amounts are unsigned, and what is added stays within u128. *)
Definition call_fits (c : Call) s : Prop :=
  match c with
  | CIssue shop _ v => 0 <= v /\ get0 (ShopPointsTotalSupply s) shop + v <= u128_max
  | CTransfer _ _ v | CBurn _ _ v | CRedeem _ v => 0 <= v
  | CEnable _ _ _ r x _ => 0 <= r /\ 0 <= x
  | CUpdate _ r x _ => 0 <= default 0 r /\ 0 <= default 0 x
  | CTtl _ v | CMaxSupply _ v => 0 <= v
  | _ => True
  end.

Definition port_fits (c : PortCall) s : Prop :=
  match c with
  | PIssue shop _ v => 0 <= v /\ get0 (ShopPointsTotalSupply s) shop + v <= u128_max
  | PBurn _ _ v | PUse _ _ v | PConsume _ _ v | PConsumeToken _ _ v => 0 <= v
  | PCredit e _ v | PRollback e _ v => 0 <= v /\ shopping_total s e + v <= u128_max
  | PCreditToken e _ v => 0 <= v /\ token_shopping_total s e + v <= u128_max
  | PSetPointsConfig _ r x _ => 0 <= r /\ 0 <= x
  | _ => True
  end.

(** A call by anybody in any block, what other pallets call, in a storage layer or not,
    whatever money and the other pallets do meanwhile, and the end of a block. *)
Inductive step : State L W -> State L W -> Prop :=
| step_call env origin c r s s' : call_fits c s -> dispatch env origin c s = (r, s') -> step s s'
| step_port env c r s s' : port_fits c s -> port_call env c s = (r, s') -> step s s'
| step_others s l w : step s (s <| ledger := l |> <| world := w |>)
| step_block s : step s (next_block s).

(** ** The two books of shopping balances *)

Definition nex_book s : Rows * gmap Z Z := (MemberShoppingBalance s, ShopShoppingTotal s).
Definition token_book s : Rows * gmap Z Z := (MemberTokenShoppingBalance s, TokenShoppingTotal s).

Definition ok_book (b : Rows * gmap Z Z) : Prop := book_ok b.1 b.2.

Definition books_ok s : Prop := ok_book (nex_book s) /\ ok_book (token_book s).

Definition both s : (Rows * gmap Z Z) * (Rows * gmap Z Z) := (nex_book s, token_book s).

Ltac helpers :=
  unfold add_points, sub_points, write_balance, write_expiry, add_supply, sub_supply, take_expired, check_points_expiry, check_points_max_supply,
    maybe_extend_points_expiry, ensure_shop_not_terminal_or_banned, ensure_shop_not_closed, ensure_shop_not_banned, ensure_shop,
    ensure_manager, ensure_enabled, get_config, ensure_exists, grant_points, destroy_points, clear_balances, clear_expiry, set_phase,
    clear_metadata, finish_cleanup, deposit_event, signed, ask, ensure_may_spend, pass_on.

Lemma cleanup_both shop : framed both (cleanup_shop_points (L:=L) (W:=W) shop).
Proof. unfold cleanup_shop_points. helpers. framed_tac. Qed.

(** The dispatchables are about points only. *)
Lemma call_both env origin c : framed both (apply_call (L:=L) (W:=W) env origin c).
Proof.
  destruct c; simpl;
    unfold enable_points, disable_points, update_points_config, transfer_points, manager_issue_points, manager_burn_points,
      redeem_points, set_points_ttl, expire_points, set_points_max_supply, continue_cleanup, run_cleanup_step; helpers; framed_tac.
Qed.

Lemma update_all_both r x t shops n : framed both (update_all (L:=L) (W:=W) r x t shops n).
Proof.
  revert n. induction shops as [| shop shops IH]; intros n; simpl; [framed_tac |]. helpers.
  repeat first [ apply IH | framed_step ].
Qed.

Lemma take_nex e who v s u s' : books_ok s -> 0 <= v -> take_shopping e who v s = (Ok u, s') -> books_ok s'.
Proof.
  intros [Hn Ht] Hv Hr. unfold take_shopping, deposit_event in Hr. m_inv. split; [| exact Ht].
  apply (book_take _ _ e who v Hn). simpl in *. lia.
Qed.

Lemma take_nex_fails e who v s err s' : take_shopping e who v s = (Err err, s') -> s' = s.
Proof. unfold take_shopping, deposit_event. intros Hr. by m_err. Qed.

Lemma put_nex event e who v s u s' : books_ok s -> 0 <= v -> shopping_total s e + v <= u128_max ->
  put_shopping event e who v s = (Ok u, s') -> books_ok s'.
Proof.
  intros [Hn Ht] Hv Hmax Hr. unfold put_shopping, deposit_event in Hr. m_inv; split; try done.
  by apply (book_put _ _ e who v Hn).
Qed.

Lemma total_put event e who v : total (put_shopping (L:=L) (W:=W) event e who v).
Proof. unfold put_shopping, deposit_event. total_tac. Qed.

Lemma put_token e who v s u s' : books_ok s -> 0 <= v -> token_shopping_total s e + v <= u128_max ->
  do_credit_token_shopping_balance e who v s = (Ok u, s') -> books_ok s'.
Proof.
  intros [Hn Ht] Hv Hmax Hr. unfold do_credit_token_shopping_balance, deposit_event in Hr. m_inv; split; try done.
  by apply (book_put _ _ e who v Ht).
Qed.

Lemma may_spend_books e who v : framed (fun s => s) (ensure_may_spend (L:=L) (W:=W) e who v).
Proof. unfold ensure_may_spend, ask. framed_tac. Qed.

Lemma take_token e who v s r s' : books_ok s -> 0 <= v -> do_consume_token_shopping_balance e who v s = (r, s') -> books_ok s'.
Proof.
  intros Hb Hv Hr. unfold do_consume_token_shopping_balance in Hr. destruct r as [u | err].
  - apply bind_Ok in Hr as (? & s1 & ->%may_spend_books & Hr). destruct Hb as [Hn Ht]. unfold ask, deposit_event in Hr. m_inv.
    split; [exact Hn |]. apply (book_take _ _ e who v Ht). simpl in *. lia.
  - apply bind_Err in Hr as [Hr%may_spend_books | (? & s1 & ->%may_spend_books & Hr)]; [by subst |].
    unfold ask, deposit_event in Hr. by m_err.
Qed.

Lemma consume_nex e who v s r s' : books_ok s -> 0 <= v -> do_consume_shopping_balance e who v s = (r, s') -> books_ok s'.
Proof.
  intros Hb Hv Hr. unfold do_consume_shopping_balance in Hr. destruct r as [u | err].
  - apply bind_Ok in Hr as (? & s1 & ->%may_spend_books & Hr). by eapply take_nex.
  - apply bind_Err in Hr as [Hr%may_spend_books | (? & s1 & ->%may_spend_books & Hr)]; [by subst |].
    by apply take_nex_fails in Hr as ->.
Qed.

Lemma forfeit_books e who s r s' : books_ok s -> do_forfeit_shopping_balance e who s = (r, s') -> books_ok s'.
Proof.
  intros [Hn Ht] Hr. unfold do_forfeit_shopping_balance in Hr.
  destruct r as [u | err]; [| by m_err]. m_inv; (split; [| exact Ht]).
  - by apply book_forfeit_nothing.
  - by apply book_forfeit.
Qed.

Lemma kept_both {A} (m : M_ A) s r s' : books_ok s -> framed both m -> m s = (r, s') -> books_ok s'.
Proof. intros Hb Hm Hr. apply Hm in Hr. unfold both in Hr. injection Hr as Hr1 Hr2 Hr3 Hr4. unfold books_ok, nex_book, token_book.
  by rewrite Hr1, Hr2, Hr3, Hr4.
Qed.

Lemma port_books env c s r s' : books_ok s -> port_fits c s -> port_call env c s = (r, s') -> books_ok s'.
Proof.
  intros Hb Hf Hr. destruct c; simpl in Hf, Hr.
  all: try (eapply kept_both; [exact Hb | | exact Hr];
    unfold issue_points, burn_points, governance_set_points_config, governance_toggle_points, rollback_token_discount;
    helpers; by repeat first [ apply cleanup_both | apply update_all_both | framed_step ]).
  - destruct r as [u | err]; [by eapply take_nex | by apply take_nex_fails in Hr as ->].
  - by eapply consume_nex.
  - destruct Hf. destruct (total_put ShoppingBalanceCredited entity who amount s) as (u & s1 & Ht).
    unfold do_credit_shopping_balance in Hr. rewrite Ht in Hr. injection Hr as _ <-. by eapply put_nex.
  - destruct Hf. destruct (total_put ShoppingBalanceRolledBack entity who amount s) as (u & s1 & Ht).
    unfold do_rollback_shopping_balance in Hr. rewrite Ht in Hr. injection Hr as _ <-. by eapply put_nex.
  - by eapply forfeit_books.
  - destruct Hb as [Hn Ht]. injection Hr as _ <-. split; [by apply (book_delete _ _ entity Hn) | exact Ht].
  - destruct Hf. destruct r; [by eapply put_token |]. unfold do_credit_token_shopping_balance, deposit_event in Hr. by m_err.
  - by eapply take_token.
  - destruct Hb as [Hn Ht]. injection Hr as _ <-. split; [exact Hn | by apply (book_delete _ _ entity Ht)].
Qed.

Lemma step_books s s' : books_ok s -> step s s' -> books_ok s'.
Proof.
  intros Hb Hs. revert Hb. destruct Hs as [env origin c r t t' _ Hr | env c r t t' Hf Hr | t l w | t]; intros Hb.
  - apply transactional_cases in Hr as [([] & -> & Hr) | (e & -> & ->)]; [| done]. eapply kept_both; [exact Hb | apply call_both | exact Hr].
  - by eapply port_books.
  - done.
  - done.
Qed.

Lemma reach_books l w s : rtc step (genesis l w) s -> books_ok s.
Proof. apply rtc_invariant; [exact step_books |]. split; apply book_empty. Qed.

(** C27: The shopping balances of an entity add up. In every run, whatever is called and
    whether or not the callers undo what fails, the total an entity owes in the native
    currency is exactly the sum of its members' balances, so is the total in its token,
    and no balance is negative or exceeds the total. *)
Theorem shopping_totals_exact l w s e who : rtc step (genesis l w) s ->
  shopping_total s e = row_sum (MemberShoppingBalance s) e /\
  token_shopping_total s e = row_sum (MemberTokenShoppingBalance s) e /\
  0 <= shopping_balance s e who <= shopping_total s e /\
  0 <= token_shopping_balance s e who <= token_shopping_total s e.
Proof.
  intros [Hn Ht]%reach_books. split_and!.
  - apply (book_sum _ _ Hn).
  - apply (book_sum _ _ Ht).
  - apply (book_le _ _ e who Hn).
  - apply (book_le _ _ e who Hn).
  - apply (book_le _ _ e who Ht).
  - apply (book_le _ _ e who Ht).
Qed.

Lemma consumed e who v s u s' : do_consume_shopping_balance e who v s = (Ok u, s') ->
  v <= shopping_balance s e who /\
  nex_book s' = (dset e who (sat_sub (shopping_balance s e who) v) (MemberShoppingBalance s),
                 <[e := sat_sub (shopping_total s e) v]> (ShopShoppingTotal s)).
Proof.
  intros (? & s1 & ->%may_spend_books & Hr)%bind_Ok. unfold take_shopping, deposit_event in Hr. m_inv.
  split; [unfold shopping_balance; simpl in *; lia | done].
Qed.

Lemma rolled_back e who v s u s' : do_rollback_shopping_balance e who v s = (Ok u, s') -> v <> 0 ->
  nex_book s' = (dset e who (sat_add u128_max (shopping_balance s e who) v) (MemberShoppingBalance s),
                 <[e := sat_add u128_max (shopping_total s e) v]> (ShopShoppingTotal s)).
Proof. intros Hr Hv. unfold do_rollback_shopping_balance, put_shopping, deposit_event in Hr. by m_inv. Qed.

(** What was consumed comes back. Rolling a consumption back leaves every balance and
    every total as before it. *)
Theorem consumption_rolls_back l w s e who v u s1 u' s2 : rtc step (genesis l w) s -> 0 <= v -> shopping_total s e <= u128_max ->
  do_consume_shopping_balance e who v s = (Ok u, s1) -> do_rollback_shopping_balance e who v s1 = (Ok u', s2) ->
  (forall e' who', shopping_balance s2 e' who' = shopping_balance s e' who') /\ (forall e', shopping_total s2 e' = shopping_total s e').
Proof.
  intros Hrun Hv0 Hmax Hr1 Hr2. destruct (reach_books _ _ _ Hrun) as [Hn _]. pose proof (book_le _ _ e who Hn) as Hle. simpl in Hle.
  fold (shopping_balance s e who) in Hle. fold (shopping_total s e) in Hle.
  assert (v <> 0) as Hv.
  { unfold do_consume_shopping_balance, ensure_may_spend in Hr1. apply bind_Ok in Hr1 as (? & ? & Hr1 & _). by apply bind_Ok in Hr1 as (? & ? & [? _]%ensure_Ok & _). }
  apply consumed in Hr1 as [Hle1 Hb1]. apply rolled_back in Hr2; [| done]. unfold nex_book in Hb1, Hr2.
  injection Hb1 as Hm1 Ht1. injection Hr2 as Hm2 Ht2.
  unfold shopping_balance, shopping_total in *. rewrite Hm1, Ht1 in *. split.
  - intros e' who'. rewrite Hm2, !cell_dset. case_decide as Hd; [| done]. destruct Hd as [<- <-].
    rewrite decide_True by done. rewrite sat_sub_exact, sat_add_exact by lia. lia.
  - intros e'. rewrite Ht2, !get0_insert. case_decide as Hd; [| done]. subst e'.
    rewrite decide_True by done. rewrite sat_sub_exact, sat_add_exact by lia. lia.
Qed.
End Runs.

(** * A small world *)

(** Shop 1 of entity 1, managed by account 2 and open; everybody may take part. *)
#[export] Instance quiet_world : LoyaltyWorld unit := {
  shop_exists shop _ := bool_decide (shop = 1);
  shop_entity_id shop _ := if decide (shop = 1) then Some 1 else None;
  is_shop_manager shop who _ := bool_decide (shop = 1 /\ who = 2%N);
  shop_own_status _ _ := Some Active;
  shop_account _ := 30%N;
  is_entity_active _ _ := true;
  is_entity_locked _ _ := false;
  entity_account _ := 40%N;
  entity_shops _ _ := [1];
  can_participate _ _ _ := true;
  is_token_enabled _ _ := true;
  token_balance _ _ _ := 0;
  token_redeem_for_discount _ _ _ w := (None, w);
  token_reward_on_purchase _ _ _ w := (Some 0, w);
  token_refund_discount _ _ _ w := (true, w);
  token_transfer _ _ _ _ w := (true, w);
}.

Definition loyal_start : State SimpleBank unit := genesis {[30%N := 1000%N; 3%N := 50%N]} tt.

Definition loyal_env (now : Z) : Env := mkEnv now 0 0 [].

Definition loyal_port (c : PortCall) (s : State SimpleBank unit) : State SimpleBank unit := (port_call (loyal_env 1) c s).2.

Definition credited : State SimpleBank unit := loyal_port (PCredit 1 4%N 50) (loyal_port (PCredit 1 3%N 100) loyal_start).

Lemma port_step c s : port_fits c s -> step s (loyal_port c s).
Proof. intros Hf. eapply step_port; [exact Hf | apply surjective_pairing]. Qed.

Lemma credited_reached : rtc step loyal_start credited.
Proof.
  eapply rtc_l; [| apply rtc_once].
  - apply (port_step (PCredit 1 3%N 100)). by vm_compute.
  - apply (port_step (PCredit 1 4%N 50)). by vm_compute.
Qed.

Lemma shopping_totals_exact_witness :
  shopping_total credited 1 = row_sum (MemberShoppingBalance credited) 1 /\
  token_shopping_total credited 1 = row_sum (MemberTokenShoppingBalance credited) 1 /\
  0 <= shopping_balance credited 1 3%N <= shopping_total credited 1 /\
  0 <= token_shopping_balance credited 1 3%N <= token_shopping_total credited 1.
Proof. exact (shopping_totals_exact _ _ credited 1 3%N credited_reached). Defined.

Definition spent : State SimpleBank unit := (do_consume_shopping_balance 1 3%N 70 credited).2.

Example spent_books : (shopping_balance spent 1 3%N, shopping_total spent 1) = (30, 80).
Proof. vm_compute. reflexivity. Qed.

Lemma consumption_rolls_back_witness :
  (forall e' who', shopping_balance (do_rollback_shopping_balance (W:=unit) 1 3%N 70 spent).2 e' who' = shopping_balance credited e' who') /\
  (forall e', shopping_total (do_rollback_shopping_balance (W:=unit) 1 3%N 70 spent).2 e' = shopping_total credited e').
Proof.
  refine (consumption_rolls_back {[30%N := 1000%N; 3%N := 50%N]} tt credited 1 3%N 70 tt spent tt _ credited_reached _ _ _ _).
  - lia.
  - by vm_compute.
  - unfold spent. apply returns. vm_compute. reflexivity.
  - apply returns. vm_compute. reflexivity.
Defined.
End LoyaltyBalances.
