(* ===== verification/LoyaltyPoints.v ===== *)
(** The points of a shop: every point issued is counted in the supply as long as the lists
    that are cleared are short and the supply fits its type, redeeming pays exactly, a
    clearing in steps ends when it is given a block for each, and the ways round these: a
    long list left by switching points off, a supply that saturates, a second step in the
    same block, and expired points that come back. *)

From S2P Require Import Prelude Frame EntityLoyalty LoyaltyBalances.

Module LoyaltyPoints.
Import Loyalty LoyaltyBalances.

Section Points.
Context `{FrameSystem} `{PrefixStorage} {L W : Type} `{TransferCurrency L} `{LoyaltyWorld W}.
Implicit Types (s : State L W).

Abbreviation M_ := (M (State L W) (DispatchError Error)).

(** * The supply of points *)

(** A configuration that was checked. *)
Definition config_ok (c : PointsConfig) : Prop :=
  name c <> [] /\ symbol c <> [] /\ 0 <= reward_rate c <= 10000 /\ 0 <= exchange_rate c <= 10000.

Record points_ok s : Prop := {
  points_book : book_ok (ShopPointsBalances s) (ShopPointsTotalSupply s);
  points_bound : forall shop, get0 (ShopPointsTotalSupply s) shop <= u128_max;
  points_max : forall shop, get0 (ShopPointsMaxSupply s) shop <> 0 ->
    get0 (ShopPointsTotalSupply s) shop <= get0 (ShopPointsMaxSupply s) shop;
  points_config : map_Forall (fun _ c => config_ok c) (ShopPointsConfigs s);
  points_idle : PointsCleanupCursor s = ∅;
}.

(** A shop whose rows one clearing can empty: when the block began there were not more of
    them than a clearing looks at. *)
Definition short s (shop : Z) : Prop :=
  (length (iter_keys (prefix (begun_balances s) shop)) <= POINTS_CLEANUP_LIMIT)%nat /\
  (length (iter_keys (prefix (begun_expiry s) shop)) <= POINTS_CLEANUP_LIMIT)%nat.

Definition call_short (c : Call) s : Prop := match c with CDisable shop => short s shop | _ => True end.

Definition port_short (c : PortCall) s : Prop :=
  match c with
  | PCleanup shop => short s shop
  | PTogglePoints e _ => forall shop, shop ∈ entity_shops e (world s) -> short s shop
  | _ => True
  end.

(** Steps that clear short rows only. *)
Inductive short_step : State L W -> State L W -> Prop :=
| short_call env origin c r s s' : call_fits c s -> call_short c s -> dispatch env origin c s = (r, s') -> short_step s s'
| short_port env c r s s' : port_fits c s -> port_short c s -> port_call env c s = (r, s') -> short_step s s'
| short_others s l w : short_step s (s <| ledger := l |> <| world := w |>)
| short_block s : short_step s (next_block s).

(** What the invariant is about. *)
Definition points s :=
  (ShopPointsBalances s, ShopPointsTotalSupply s, ShopPointsMaxSupply s, ShopPointsConfigs s, PointsCleanupCursor s).

Lemma points_same s s' : points s' = points s -> points_ok s -> points_ok s'.
Proof.
  unfold points. intros [= Hb Ht Hm Hc Hp] [? ? ? ? ?]. split; rewrite ?Hb, ?Ht, ?Hm, ?Hc, ?Hp; done.
Qed.

(** Guards only look, and the time a balance lives is not in the invariant. *)
Lemma extend_points env shop who : framed points (maybe_extend_points_expiry (L:=L) (W:=W) env shop who).
Proof. unfold maybe_extend_points_expiry, write_expiry. framed_tac. Qed.

(** ** The writes *)

Lemma write_points s m t : points_ok s -> book_ok m t -> (forall shop, get0 t shop <= u128_max) ->
  (forall shop, get0 (ShopPointsMaxSupply s) shop <> 0 -> get0 t shop <= get0 (ShopPointsMaxSupply s) shop) ->
  points_ok (s <| ShopPointsBalances := m |> <| ShopPointsTotalSupply := t |>).
Proof. intros [? ? ? ? ?] ? ? ?. by split. Qed.

(** A supply that only went down. *)
Lemma lower_points s m t : points_ok s -> book_ok m t -> (forall shop, get0 t shop <= get0 (ShopPointsTotalSupply s) shop) ->
  points_ok (s <| ShopPointsBalances := m |> <| ShopPointsTotalSupply := t |>).
Proof.
  intros Hok Hb Hle. apply write_points; [done | done | |].
  - intros shop. etrans; [apply Hle | apply (points_bound s Hok)].
  - intros shop Hz. etrans; [apply Hle | by apply (points_max s Hok)].
Qed.

Lemma sub_get0 (t : gmap Z Z) k v j : 0 <= v -> 0 <= get0 t k -> get0 (<[k := sat_sub (get0 t k) v]> t) j <= get0 t j.
Proof. intros. rewrite get0_insert. case_decide as Hk; [subst; unfold sat_sub; lia | lia]. Qed.

Lemma supply_nonneg s shop : points_ok s -> 0 <= get0 (ShopPointsTotalSupply s) shop.
Proof. intros Hok. pose proof (book_le _ _ shop 0%N (points_book s Hok)). lia. Qed.

Lemma burnt_points s shop who v : points_ok s -> 0 <= v <= cell (ShopPointsBalances s) shop who ->
  points_ok (s <| ShopPointsBalances ::= fun m => dset shop who (sat_sub (cell m shop who) v) m |>
               <| ShopPointsTotalSupply ::= fun m => <[shop := sat_sub (get0 m shop) v]> m |>).
Proof.
  intros Hok Hv. refine (lower_points s _ _ Hok (book_take _ _ shop who v (points_book s Hok) Hv) _).
  intros j. apply sub_get0; [lia | by apply supply_nonneg].
Qed.

Lemma expired_points s shop who : points_ok s ->
  points_ok (s <| ShopPointsBalances ::= drem shop who |>
               <| ShopPointsTotalSupply ::= fun m => <[shop := sat_sub (get0 m shop) (cell (ShopPointsBalances s) shop who)]> m |>).
Proof.
  intros Hok. pose proof (book_le _ _ shop who (points_book s Hok)) as Hle.
  refine (lower_points s _ _ Hok (book_forfeit _ _ shop who (points_book s Hok)) _). intros j. apply sub_get0; lia.
Qed.

Lemma take_expired_points shop who : kept points_ok (take_expired (L:=L) (W:=W) shop who).
Proof.
  intros s r s' Hok Hr. unfold take_expired, write_balance, write_expiry, sub_supply, deposit_event in Hr. destruct r as [u | err]; [| by m_err].
  m_inv.
  - apply (points_same (s <| ShopPointsBalances ::= drem shop who |>)); [done |].
    destruct Hok as [Hb ? ? ? ?]. split; simpl; try done. by apply book_forfeit_nothing.
  - eapply points_same; [| exact (expired_points s shop who Hok)]. done.
Qed.

Lemma check_expiry_points env shop who : kept points_ok (check_points_expiry (L:=L) (W:=W) env shop who).
Proof.
  unfold check_points_expiry. apply kept_bind; [apply kept_gets | intros [at_ |]]; [| apply kept_ret].
  case_decide; [apply take_expired_points | apply kept_ret].
Qed.

(** ** The operations *)

Lemma burn_tail shop who v err e : 0 <= v ->
  kept points_ok (let! held := gets (fun s : State L W => cell (ShopPointsBalances s) shop who) in
    ensure (held >= v) err >> sub_points shop who v >> sub_supply shop v >> deposit_event e).
Proof.
  intros Hv s r s' Hok Hr. unfold sub_points, write_balance, sub_supply, deposit_event in Hr. destruct r as [u | e']; [| by m_err]. m_inv.
  eapply points_same; [| apply (burnt_points s shop who v Hok); simpl in *; lia]. done.
Qed.

Lemma destroy_kept env shop from v : 0 <= v -> kept points_ok (destroy_points (L:=L) (W:=W) env shop from v).
Proof.
  intros Hv. unfold destroy_points, ensure_enabled. apply kept_bind; [apply kept_bind; [apply kept_gets | intros ?; apply kept_ensure_last] | intros _].
  apply kept_bind; [apply check_expiry_points | intros _]. by apply burn_tail.
Qed.

Definition may_issue s (shop v : Z) : Prop := 0 <= v /\ get0 (ShopPointsTotalSupply s) shop + v <= u128_max.

Lemma granted_points s shop who v : points_ok s -> may_issue s shop v ->
  (get0 (ShopPointsMaxSupply s) shop <> 0 -> sat_add u128_max (get0 (ShopPointsTotalSupply s) shop) v <= get0 (ShopPointsMaxSupply s) shop) ->
  points_ok (s <| ShopPointsBalances ::= fun m => dset shop who (sat_add u128_max (cell m shop who) v) m |>
               <| ShopPointsTotalSupply ::= fun m => <[shop := sat_add u128_max (get0 m shop) v]> m |>).
Proof.
  intros Hok [Hv Hfit] Hmax. refine (write_points s _ _ Hok (book_put _ _ shop who v (points_book s Hok) Hv Hfit) _ _).
  - intros j. rewrite get0_insert. case_decide; [unfold sat_add; lia | apply (points_bound s Hok)].
  - intros j Hj. rewrite get0_insert. case_decide as Hk; [subst; by apply Hmax | by apply (points_max s Hok)].
Qed.

Lemma grant_kept env shop to v s r s' : points_ok s -> may_issue s shop v -> grant_points env shop to v s = (r, s') -> points_ok s'.
Proof.
  intros Hok Hf Hr. unfold grant_points, ensure_enabled, check_points_max_supply, add_points, write_balance, add_supply, deposit_event in Hr.
  destruct r as [u | e'].
  - m_inv. match goal with He : maybe_extend_points_expiry _ _ _ _ = _ |- _ => apply extend_points in He as He' end.
    eapply points_same; [| apply (granted_points s shop to v Hok Hf); done]. etrans; [| etrans; [exact He' |]]; done.
  - m_err; try done. exfalso. unfold maybe_extend_points_expiry, write_expiry in *. by m_err.
Qed.

Lemma moved_points s shop a b v : points_ok s -> a <> b -> 0 <= v <= cell (ShopPointsBalances s) shop a ->
  points_ok (s <| ShopPointsBalances ::= fun m => dset shop a (sat_sub (cell m shop a) v) m |>
               <| ShopPointsBalances ::= fun m => dset shop b (sat_add u128_max (cell m shop b) v) m |>).
Proof.
  intros Hok Hab Hv. pose proof (book_move _ _ shop a b v (points_book s Hok) Hab Hv (points_bound s Hok shop)) as Hb.
  destruct Hok as [? ? ? ? ?]. by split.
Qed.

(** Guards of the calls leave everything. *)
Definition looks {A} (m : M_ A) : Prop := framed (fun s => s) m.

Ltac looks_tac :=
  unfold looks, ensure_manager, ensure_shop_not_terminal_or_banned, ensure_shop_not_closed, ensure_shop_not_banned, ensure_shop,
    ensure_enabled, get_config, ensure_exists, signed, ask; by framed_tac.

Lemma kept_looks {A B} (m : M_ A) (k : A -> M_ B) s u s' (P : Prop) :
  looks m -> (forall a, k a s = (Ok u, s') -> P) -> bind m k s = (Ok u, s') -> P.
Proof. intros Hm Hk (a & s1 & ->%Hm & Hr)%bind_Ok. by eapply Hk. Qed.

Lemma passed {B} (Q : Prop) `{Decision Q} e (k : unit -> M_ B) s u s' (P : Prop) :
  (Q -> k tt s = (Ok u, s') -> P) -> bind (ensure Q e) k s = (Ok u, s') -> P.
Proof. intros Hk (a & s1 & [HQ ->]%ensure_Ok & Hr)%bind_Ok. destruct a. by apply Hk. Qed.

Ltac pass := lazymatch goal with |- bind _ _ _ = _ -> _ => first [ apply passed; intros ? | eapply kept_looks; [looks_tac | intros ?] ] end.
Ltac passes := repeat pass.

Lemma transfer_kept env origin shop to v s u s' : points_ok s -> 0 <= v ->
  transfer_points env origin shop to v s = (Ok u, s') -> points_ok s'.
Proof.
  intros Hok Hv. unfold transfer_points. passes. intros (? & s1 & Hc & Hr)%bind_Ok. apply check_expiry_points in Hc; [| done].
  unfold sub_points, add_points, write_balance, deposit_event in Hr. m_inv.
  match goal with He : maybe_extend_points_expiry _ _ _ _ = _ |- _ => apply extend_points in He end.
  eapply points_same; [| apply (moved_points s1 shop a to v); [done | done | simpl in *; lia]].
  match goal with He : points _ = points _ |- _ => etrans; [| etrans; [exact He |]]; done end.
Qed.

Lemma redeem_kept env origin shop v s u s' : points_ok s -> 0 <= v -> redeem_points env origin shop v s = (Ok u, s') -> points_ok s'.
Proof.
  intros Hok Hv. unfold redeem_points. passes. intros (? & s1 & Hc & Hr)%bind_Ok. apply check_expiry_points in Hc; [| done].
  unfold sub_points, write_balance, sub_supply, deposit_event in Hr. cbv zeta in Hr. m_inv.
  eapply points_same; [| apply (burnt_points s1 shop a v); [done | simpl in *; lia]]. done.
Qed.

Lemma expire_kept env origin shop who s u s' : points_ok s -> expire_points env origin shop who s = (Ok u, s') -> points_ok s'.
Proof. intros Hok. unfold expire_points. passes. by apply take_expired_points. Qed.

(** Clearing a short row empties it. *)
Context `{!PrefixStorageLaws}.

Lemma clear_short written (begun m : Rows) k : (length (iter_keys (prefix begun k)) <= POINTS_CLEANUP_LIMIT)%nat ->
  clear_prefix k written begun m = (<[k := ∅]> m, false).
Proof.
  intros Hs. unfold clear_prefix, spared. rewrite drop_ge by done. rewrite bool_decide_eq_false_2 by lia. do 2 f_equal.
  apply map_empty. intros w. apply map_lookup_filter_None. right. intros v _ Hw. by apply elem_of_nil in Hw.
Qed.

Lemma emptied_points s k : points_ok s ->
  points_ok (s <| ShopPointsBalances ::= <[k := ∅]> |> <| ShopPointsTotalSupply ::= delete k |>).
Proof.
  intros Hok. refine (lower_points s _ _ Hok _ _).
  - destruct (points_book s Hok) as [Hs Hn]. split.
    + intros j. rewrite get0_delete. unfold row_sum. rewrite prefix_insert. case_decide; [by rewrite msum_empty | apply Hs].
    + intros j w. rewrite cell_prefix, prefix_insert. case_decide; [by rewrite lookup_empty | apply Hn].
  - intros j. rewrite get0_delete. case_decide; [subst; by apply supply_nonneg | done].
Qed.

(** The caps go after the supplies they cap. *)
Lemma uncapped_points s k : points_ok s -> points_ok (s <| ShopPointsMaxSupply ::= delete k |>).
Proof.
  intros [? ? Hm ? ?]. split; try done. simpl. intros j. rewrite get0_delete. case_decide; [done | apply Hm].
Qed.

Lemma unconfigured_points s k : points_ok s -> points_ok (s <| ShopPointsConfigs ::= delete k |>).
Proof. intros [? ? ? Hc ?]. split; try done. simpl. by apply map_Forall_delete. Qed.

Lemma configured_points s k c : points_ok s -> config_ok c -> points_ok (s <| ShopPointsConfigs ::= <[k := c]> |>).
Proof. intros [? ? ? Hc ?] ?. split; try done. simpl. by apply map_Forall_insert_2. Qed.

Lemma clear_balances_short s k : (length (iter_keys (prefix (begun_balances s) k)) <= POINTS_CLEANUP_LIMIT)%nat ->
  clear_balances (L:=L) (W:=W) k s = (Ok false, s <| ShopPointsBalances ::= <[k := ∅]> |>).
Proof. intros Hs. unfold clear_balances. m_run. unfold ret. rewrite (clear_short _ _ _ _ Hs). done. Qed.

Lemma clear_expiry_short s k : (length (iter_keys (prefix (begun_expiry s) k)) <= POINTS_CLEANUP_LIMIT)%nat ->
  clear_expiry (L:=L) (W:=W) k s = (Ok false, s <| ShopPointsExpiresAt ::= <[k := ∅]> |>).
Proof. intros Hs. unfold clear_expiry. m_run. unfold ret. rewrite (clear_short _ _ _ _ Hs). done. Qed.

Definition wiped (s : State L W) (k : Z) : State L W :=
  s <| ShopPointsConfigs ::= delete k |> <| ShopPointsBalances ::= <[k := ∅]> |> <| ShopPointsTotalSupply ::= delete k |>
    <| ShopPointsMaxSupply ::= delete k |>.

Lemma wiped_points s k : points_ok s -> points_ok (wiped s k).
Proof. intros. by apply uncapped_points, emptied_points, unconfigured_points. Qed.

Lemma disable_kept origin shop s u s' : points_ok s -> short s shop -> disable_points origin shop s = (Ok u, s') -> points_ok s'.
Proof.
  intros Hok Hs. unfold disable_points. passes. rewrite run_modify. erewrite bind_eval by (apply clear_balances_short; exact (proj1 Hs)).
  rewrite !run_modify. erewrite bind_eval by (apply clear_expiry_short; exact (proj2 Hs)). rewrite run_modify. intros [= _ <-].
  eapply points_same; [| apply (wiped_points s shop Hok)]. done.
Qed.

Lemma cleanup_kept shop s r s' : points_ok s -> short s shop -> cleanup_shop_points shop s = (r, s') -> r = Ok tt /\ points_ok s' /\
  (forall j, short s j -> short s' j).
Proof.
  intros Hok Hs. unfold cleanup_shop_points. rewrite run_modify. erewrite bind_eval by (apply clear_balances_short; exact (proj1 Hs)). cbv beta iota.
  erewrite bind_eval by (apply clear_expiry_short; exact (proj2 Hs)). cbv beta iota. intros [= <- <-]. split; [done |]. split.
  - eapply points_same; [| apply (wiped_points s shop Hok)]. done.
  - done.
Qed.

Lemma enable_kept origin shop n y r x t s u s' : points_ok s -> 0 <= r -> 0 <= x ->
  enable_points origin shop n y r x t s = (Ok u, s') -> points_ok s'.
Proof.
  intros Hok Hr Hx. unfold enable_points, deposit_event. passes. intros He. m_inv.
  eapply points_same; [| apply (configured_points s shop (mkPointsConfig n y r x t) Hok); unfold config_ok; simpl; tauto]. done.
Qed.

Lemma update_kept origin shop r x t s u s' : points_ok s -> 0 <= default 0 r -> 0 <= default 0 x ->
  update_points_config origin shop r x t s = (Ok u, s') -> points_ok s'.
Proof.
  intros Hok Hr Hx. unfold update_points_config. do 4 pass. intros He. unfold get_config, deposit_event in He. m_inv.
  match goal with Hc : ShopPointsConfigs s !! shop = Some ?c |- _ =>
    pose proof (map_Forall_lookup_1 _ _ _ _ (points_config s Hok) Hc) as (Hn & Hy & Hrw & Hex);
    eapply points_same; [| apply (configured_points s shop (c <| reward_rate ::= fun q => default q r |>
      <| exchange_rate ::= fun q => default q x |> <| transferable ::= fun q => default q t |>) Hok)]; [done |]
  end.
  destruct r, x; unfold config_ok; simpl in *; tauto.
Qed.

Lemma max_supply_kept origin shop top s u s' : points_ok s -> set_points_max_supply origin shop top s = (Ok u, s') -> points_ok s'.
Proof.
  intros Hok. unfold set_points_max_supply. do 4 pass. intros He. unfold deposit_event in He. m_inv.
  - eapply points_same; [| apply (uncapped_points s shop Hok)]. done.
  - destruct Hok as [? ? Hm ? ?]. split; try done. simpl. intros j. rewrite get0_insert. case_decide; [subst; tauto | apply Hm].
Qed.

Lemma ttl_kept origin shop ttl s u s' : points_ok s -> set_points_ttl origin shop ttl s = (Ok u, s') -> points_ok s'.
Proof.
  intros Hok. unfold set_points_ttl. passes. intros He. unfold deposit_event in He. m_inv; by destruct Hok.
Qed.

Lemma call_kept env origin c s u s' : points_ok s -> call_fits c s -> call_short c s ->
  apply_call env origin c s = (Ok u, s') -> points_ok s'.
Proof.
  intros Hok Hf Hs Hr. destruct c; simpl in Hf, Hs, Hr.
  - destruct Hf. by refine (enable_kept _ _ _ _ _ _ _ _ _ _ Hok _ _ Hr).
  - by refine (disable_kept _ _ _ _ _ Hok _ Hr).
  - destruct Hf. by refine (update_kept _ _ _ _ _ _ _ _ Hok _ _ Hr).
  - by refine (transfer_kept _ _ _ _ _ _ _ _ Hok _ Hr).
  - revert Hr. unfold manager_issue_points. passes. intros Hr. by refine (grant_kept _ _ _ _ _ _ _ Hok _ Hr).
  - revert Hr. unfold manager_burn_points. passes. intros Hr. by refine (destroy_kept _ _ _ _ _ _ _ _ Hok Hr).
  - by refine (redeem_kept _ _ _ _ _ _ _ Hok _ Hr).
  - by eapply ttl_kept.
  - by eapply expire_kept.
  - by eapply max_supply_kept.
  - revert Hr. unfold continue_cleanup. pass. intros Hr. exfalso. m_inv. rewrite (points_idle s Hok), lookup_empty in *.
    by match goal with Hn : is_Some None |- _ => destruct Hn end.
Qed.

(** ** What other pallets call, whose failures are not undone *)

Lemma looks_kept {A} (m : M_ A) (P : State L W -> Prop) : looks m -> kept P m.
Proof. intros Hm s r s' HP Hr. apply Hm in Hr. by subst. Qed.

Lemma looks_bind {A B} (m : M_ A) (k : A -> M_ B) s r s' (P : Prop) :
  looks m -> (s' = s -> P) -> (forall a, k a s = (r, s') -> P) -> bind m k s = (r, s') -> P.
Proof.
  intros Hm Hs Hk. unfold bind. destruct (m s) as [[a | e] s1] eqn:Hr; apply Hm in Hr; subst s1; [apply Hk |].
  intros [= <- <-]. by apply Hs.
Qed.

Ltac look := eapply looks_bind; [looks_tac | by intros -> | intros ?].

Lemma issue_kept env shop to v s r s' : points_ok s -> may_issue s shop v -> issue_points env shop to v s = (r, s') -> points_ok s'.
Proof. intros Hok Hf. unfold issue_points. do 5 look. by apply grant_kept. Qed.

Lemma burn_kept env shop from v : 0 <= v -> kept points_ok (burn_points (L:=L) (W:=W) env shop from v).
Proof.
  intros Hv. unfold burn_points.
  do 4 (apply kept_bind; [apply looks_kept; looks_tac | intros _]). by apply destroy_kept.
Qed.

Lemma update_all_kept r x t shops n : 0 <= r <= 10000 -> 0 <= x <= 10000 -> kept points_ok (update_all (L:=L) (W:=W) r x t shops n).
Proof.
  intros Hr Hx. revert n. induction shops as [| shop shops IH]; intros n; simpl; [apply kept_ret |].
  apply kept_gets_bind. intros s res s' Hok Hrun. destruct (ShopPointsConfigs s !! shop) as [c |] eqn:Hc; [| by eapply IH].
  unfold bind at 1, modify, deposit_event in Hrun. unfold bind at 1, modify in Hrun. refine (IH _ _ _ _ _ Hrun).
  pose proof (map_Forall_lookup_1 _ _ _ _ (points_config s Hok) Hc) as (Hn & Hy & _).
  eapply points_same; [| apply (configured_points s shop (c <| reward_rate := r |> <| exchange_rate := x |> <| transferable := t |>) Hok)];
    [done |]. unfold config_ok. simpl. tauto.
Qed.

Lemma toggle_all_kept shops s r s' : points_ok s -> (forall shop, shop ∈ shops -> short s shop) ->
  for_each shops (fun shop =>
    let! configs := gets (ShopPointsConfigs (L:=L) (W:=W)) in
    match configs !! shop with
    | Some _ => cleanup_shop_points shop >> deposit_event (ShopPointsDisabled shop)
    | None => ret tt
    end) s = (r, s') -> points_ok s'.
Proof.
  revert s. induction shops as [| shop shops IH]; intros s Hok Hs; simpl; [by intros [_ ->]%ret_inv |].
  unfold bind at 1. unfold bind at 1, gets. destruct (ShopPointsConfigs s !! shop).
  - destruct (cleanup_shop_points shop s) as [rc s1] eqn:Hc. pose proof Hc as Hk. apply cleanup_kept in Hk as (-> & Hok1 & Hs1); [| done | apply Hs; left].
    unfold bind at 1. rewrite Hc. unfold deposit_event, modify. apply IH; [by destruct Hok1 |]. intros j Hj. apply (Hs1 j), Hs. by right.
  - unfold ret. apply IH; [done |]. intros j Hj. apply Hs. by right.
Qed.

Lemma kept_points {A} (m : M_ A) s r s' : points_ok s -> framed points m -> m s = (r, s') -> points_ok s'.
Proof. intros Hok Hm Hr. eapply points_same; [by eapply Hm | done]. Qed.

Lemma port_kept env c s r s' : points_ok s -> port_fits c s -> port_short c s -> port_call env c s = (r, s') -> points_ok s'.
Proof.
  intros Hok Hf Hs Hr. destruct c; simpl in Hf, Hs, Hr.
  - by refine (issue_kept _ _ _ _ _ _ _ Hok _ Hr).
  - by refine (burn_kept _ _ _ _ _ _ _ _ Hok Hr).
  - by apply cleanup_kept in Hr as (_ & ? & _).
  - eapply kept_points; [exact Hok | | exact Hr]. unfold do_use_shopping_balance, take_shopping, deposit_event. framed_tac.
  - eapply kept_points; [exact Hok | | exact Hr]. unfold do_consume_shopping_balance, ensure_may_spend, take_shopping, ask, deposit_event. framed_tac.
  - eapply kept_points; [exact Hok | | exact Hr]. unfold do_credit_shopping_balance, put_shopping, deposit_event. framed_tac.
  - eapply kept_points; [exact Hok | | exact Hr]. unfold do_rollback_shopping_balance, put_shopping, deposit_event. framed_tac.
  - eapply kept_points; [exact Hok | | exact Hr]. unfold do_forfeit_shopping_balance. framed_tac.
  - eapply kept_points; [exact Hok | | exact Hr]. unfold forfeit_all_shopping_balances. framed_tac.
  - eapply kept_points; [exact Hok | | exact Hr]. unfold do_credit_token_shopping_balance, deposit_event. framed_tac.
  - eapply kept_points; [exact Hok | | exact Hr]. unfold do_consume_token_shopping_balance, ensure_may_spend, ask, deposit_event. framed_tac.
  - eapply kept_points; [exact Hok | | exact Hr]. unfold forfeit_all_token_shopping_balances. framed_tac.
  - destruct Hf. revert Hr. unfold governance_set_points_config. unfold bind at 1, ensure. case_decide as Hd; [| by intros [= _ <-]].
    look. intros Hr. assert (kept points_ok (let! updated := update_all reward exchange transfer_ok a 0 in
      ensure (updated > 0) (Module NoPointsConfigFound))) as Hk.
    { apply kept_bind; [apply update_all_kept; lia | intros ?; apply kept_ensure_last]. }
    by eapply Hk.
  - revert Hr. unfold governance_toggle_points. destruct enabled; [by intros [_ ->]%ret_inv |]. unfold bind at 1, ask, gets.
    by apply toggle_all_kept.
  - eapply kept_points; [exact Hok | | exact Hr]. unfold rollback_token_discount, ask. framed_tac.
Qed.

Lemma short_step_kept s s' : points_ok s -> short_step s s' -> points_ok s'.
Proof.
  intros Hok Hs. revert Hok. destruct Hs as [env origin c r t t' Hf Hs Hr | env c r t t' Hf Hs Hr | t l w | t]; intros Hok.
  - apply transactional_cases in Hr as [([] & -> & Hr) | (e & -> & ->)]; [by eapply call_kept | done].
  - by eapply port_kept.
  - by destruct Hok.
  - by destruct Hok.
Qed.

Lemma genesis_points l w : points_ok (genesis l w : State L W).
Proof.
  split; simpl; done.
Qed.

(** C26: Every point is counted. In every run in which no shop whose points are switched
    off has more rows than one clearing looks at, and no issue takes the supply of a shop
    past the largest u128 (where it saturates, [saturated_supply]), the supply of a shop is
    exactly the sum of the points its customers hold, no balance is negative, the supply
    respects the cap where there is one, and stored configurations are valid. *)
Theorem points_are_counted l w s shop who : rtc short_step (genesis l w) s ->
  get_points_total_supply s shop = row_sum (ShopPointsBalances s) shop /\
  0 <= get_points_balance s shop who <= get_points_total_supply s shop /\
  (get_points_max_supply s shop <> 0 -> get_points_total_supply s shop <= get_points_max_supply s shop) /\
  (forall c, get_points_config s shop = Some c -> config_ok c).
Proof.
  intros Hrun. assert (points_ok s) as Hok by (revert Hrun; apply rtc_invariant; [exact short_step_kept | apply genesis_points]).
  split_and!.
  - apply (book_sum _ _ (points_book s Hok)).
  - apply (book_le _ _ shop who (points_book s Hok)).
  - apply (book_le _ _ shop who (points_book s Hok)).
  - apply (points_max s Hok).
  - intros c Hc. exact (map_Forall_lookup_1 _ _ _ _ (points_config s Hok) Hc).
Qed.

(** * Redeeming *)

(** What an account holds of the points of a shop once those too old are gone. *)
Definition live_points (env : Env) s (shop : Z) (who : AccountId) : Z :=
  match dget (ShopPointsExpiresAt s) shop who with
  | Some at_ => if decide (block_number env > at_) then 0 else cell (ShopPointsBalances s) shop who
  | None => cell (ShopPointsBalances s) shop who
  end.

Definition money s := (ledger s, ShopPointsConfigs s).

Lemma checked env shop who s u s' : check_points_expiry env shop who s = (Ok u, s') ->
  cell (ShopPointsBalances s') shop who = live_points env s shop who /\ ledger s' = ledger s.
Proof.
  unfold check_points_expiry, live_points. unfold bind at 1, gets. destruct (dget (ShopPointsExpiresAt s) shop who) as [at_ |];
    [case_decide |]; [| by intros [_ ->]%ret_inv..].
  unfold take_expired, write_balance, write_expiry, sub_supply, deposit_event. intros Hr. m_inv; (split; [| done]).
  all: change (cell (drem shop who (ShopPointsBalances s)) shop who = 0); by rewrite cell_drem, decide_True.
Qed.

(** C28: Redeeming pays by the rate and takes the points. A successful redemption takes
    exactly the points asked for from those the account holds and has not lost by age, and
    moves the amount times the exchange rate in basis points, rounded down, which is never
    nothing, from the account of the shop to the one that redeems: the shop has that much
    less (or nothing, where what was left was below the minimum balance), and nobody else's
    balance changes. The product of amount and rate has to fit a u128. *)
Theorem redeem_pays_exactly `{!TransferCurrencyLaws L} env origin who shop amount s s' c :
  ensure_signed origin = Some who -> get_points_config s shop = Some c -> who <> shop_account shop ->
  0 <= amount -> 0 <= exchange_rate c -> amount * exchange_rate c <= u128_max ->
  dispatch env origin (CRedeem shop amount) s = (Ok tt, s') ->
  let payout := amount * exchange_rate c / 10000 in
  let fund := balance (shop_account shop) (ledger s) in
  0 < payout <= fund /\ balance who (ledger s') = balance who (ledger s) + payout /\
  (balance (shop_account shop) (ledger s') = fund - payout \/
   fund - payout < minimum_balance /\ balance (shop_account shop) (ledger s') = 0) /\
  (forall x, x <> who -> x <> shop_account shop -> balance x (ledger s') = balance x (ledger s)) /\
  get_points_balance s' shop who = live_points env s shop who - amount /\ amount <= live_points env s shop who.
Proof.
  intros Ho Hc Hne Ha Hx Hmax Hr. unfold dispatch in Hr. apply transactional_Ok in Hr. simpl in Hr. intros payout fund.
  revert Hr. unfold redeem_points. intros (w & s0 & [Hw ->]%ok_or_Ok & Hr)%bind_Ok. rewrite Ho in Hw. injection Hw as <-. revert Hr. do 4 pass.
  intros (c' & s1 & Hc' & Hr)%bind_Ok. unfold get_config in Hc'. m_inv. unfold get_points_config in Hc. simplify_eq.
  match goal with He : check_points_expiry _ _ _ _ = _ |- _ => apply checked in He as [Hcell Hled] end.
  unfold sub_points, write_balance, sub_supply, deposit_event in *. m_inv. rewrite Hcell, Hled in *.
  assert (Z.min u128_max (amount * exchange_rate c) / 10000 = payout) as Hp by (rewrite Z.min_r by done; done). rewrite Hp in *.
  assert (0 <= payout) by (unfold payout; apply Z.div_pos; nia).
  match goal with Ht : transfer _ _ _ _ _ = Some _ |- _ =>
    pose proof (transfer_from _ _ _ _ _ _ (not_eq_sym Hne) ltac:(done) Ht) as [Hfund Hrest];
    pose proof (fun x Ha Hb => transfer_other _ _ _ _ _ _ x Hb Ha Ht) as Hother;
    apply transfer_to in Ht; [| done | done] end.
  split_and!; [lia | unfold fund; lia | done | | exact Hother | | lia].
  - unfold fund. simpl. destruct Hrest as [-> | (_ & ? & ->)]; auto.
  - unfold get_points_balance. simpl. rewrite cell_dset, decide_True by done. rewrite Hcell. apply sat_sub_exact. lia.
Qed.

(** * Clearing in steps *)

(** [n] blocks, in each of which somebody who signs calls once. *)
Fixpoint continue_times (n : nat) (env : Env) (origin : Origin) (shop : Z) s : State L W :=
  match n with
  | O => s
  | S n => continue_times n env origin shop (dispatch env origin (CContinue shop) (next_block s)).2
  end.

Definition rows_left s (shop : Z) : nat :=
  (size (prefix (ShopPointsBalances s) shop) + size (prefix (ShopPointsExpiresAt s) shop))%nat.

Definition cleared s (shop : Z) : Prop :=
  PointsCleanupCursor s !! shop = None /\ prefix (ShopPointsBalances s) shop = ∅ /\ prefix (ShopPointsExpiresAt s) shop = ∅ /\
  get_points_total_supply s shop = 0 /\ get_points_max_supply s shop = 0.

(** The balances go first: when the clearing is at the expiries, no balance is left. *)
Definition in_order s (shop : Z) : Prop :=
  match PointsCleanupCursor s !! shop with
  | Some ClearingBalances => True
  | Some ClearingExpiry => prefix (ShopPointsBalances s) shop = ∅
  | None => False
  end.

Lemma keys_length {V} (m : gmap AccountId V) : length (iter_keys m) = size m.
Proof. by rewrite (iter_keys_spec AccountId V m), length_fmap, length_map_to_list. Qed.

Lemma keys_NoDup {V} (m : gmap AccountId V) : NoDup (iter_keys m).
Proof. rewrite (iter_keys_spec AccountId V m). apply NoDup_fst_map_to_list. Qed.

(** What a clearing leaves of a row that nobody has written to in this block: what is
    beyond the part it looks at. *)
Lemma spared_rows (row : gmap AccountId Z) (n : nat) : size (filter (fun x => x.1 ∈ drop n (iter_keys row)) row) = (size row - n)%nat.
Proof.
  assert (dom (filter (fun x => x.1 ∈ drop n (iter_keys row)) row) = list_to_set (drop n (iter_keys row))) as Hd.
  { apply set_eq. intros w. rewrite elem_of_dom, elem_of_list_to_set. split.
    - intros [v [_ Hw]%map_lookup_filter_Some]. exact Hw.
    - intros Hw. assert (w ∈ iter_keys row) as Hin by (rewrite <- (take_drop n (iter_keys row)), elem_of_app; by right).
      apply iter_keys_elem in Hin as [v Hv]. exists v. by apply map_lookup_filter_Some. }
  rewrite <- size_dom, Hd, size_list_to_set, length_drop, keys_length; [done |].
  pose proof (keys_NoDup row) as Hn. rewrite <- (take_drop n (iter_keys row)) in Hn. by apply NoDup_app in Hn as (_ & _ & ?).
Qed.

Lemma clear_fresh (m : Rows) k : exists row, (clear_prefix k ∅ m m).1 = <[k := row]> m /\
  if (clear_prefix k ∅ m m).2 then (size row + POINTS_CLEANUP_LIMIT <= size (prefix m k))%nat else row = ∅.
Proof.
  eexists. split; [reflexivity |]. unfold clear_prefix. cbn [snd]. rewrite keys_length.
  assert (spared k ∅ m = drop POINTS_CLEANUP_LIMIT (iter_keys (prefix m k))) as ->.
  { unfold spared. induction (drop POINTS_CLEANUP_LIMIT (iter_keys (prefix m k))) as [| w l IH]; [done |].
    rewrite filter_cons, decide_True by apply not_elem_of_empty. by rewrite IH. }
  pose proof (spared_rows (prefix m k) POINTS_CLEANUP_LIMIT). case_bool_decide; [lia |]. apply map_size_empty_inv. lia.
Qed.

Lemma finish_clears s shop : prefix (ShopPointsBalances s) shop = ∅ -> prefix (ShopPointsExpiresAt s) shop = ∅ ->
  exists s', finish_cleanup (L:=L) (W:=W) shop s = (Ok tt, s') /\ cleared s' shop.
Proof.
  intros Hb He. eexists. split; [reflexivity |]. unfold cleared, get_points_total_supply, get_points_max_supply. simpl.
  rewrite lookup_delete_eq, !get0_delete, !decide_True by done. done.
Qed.

(** Nothing of the expiries was written in this block, of the balances either. *)
Definition fresh_expiry s : Prop := begun_expiry s = ShopPointsExpiresAt s /\ written_expiry s = ∅.

Definition fresh_balances s : Prop := begun_balances s = ShopPointsBalances s /\ written_balances s = ∅.

Lemma balances_run s shop : fresh_balances s -> let r := clear_prefix shop ∅ (ShopPointsBalances s) (ShopPointsBalances s) in
  clear_balances (L:=L) (W:=W) shop s = (Ok r.2, s <| ShopPointsBalances := r.1 |>).
Proof. intros [Hb Hw]. unfold clear_balances. m_run. by rewrite Hb, Hw. Qed.

Lemma expiry_run s shop : fresh_expiry s -> let r := clear_prefix shop ∅ (ShopPointsExpiresAt s) (ShopPointsExpiresAt s) in
  clear_expiry (L:=L) (W:=W) shop s = (Ok r.2, s <| ShopPointsExpiresAt := r.1 |>).
Proof. intros [Hb Hw]. unfold clear_expiry. m_run. by rewrite Hb, Hw. Qed.

Definition progress s s' (shop : Z) : Prop :=
  cleared s' shop \/ in_order s' shop /\ (rows_left s' shop + POINTS_CLEANUP_LIMIT <= rows_left s shop)%nat.

(** The second half, once the balances are gone. *)
Lemma expiry_progress s shop m : fresh_expiry s -> prefix (ShopPointsBalances s) shop = ∅ ->
  (m = ret tt /\ PointsCleanupCursor s !! shop = Some ClearingExpiry \/ m = set_phase shop ClearingExpiry) ->
  exists s', (let! more := clear_expiry shop in if more : bool then m else finish_cleanup (L:=L) (W:=W) shop) s = (Ok tt, s') /\
    progress s s' shop.
Proof.
  intros Hf Hb Hm. rewrite (bind_eval _ _ _ _ _ (expiry_run s shop Hf)).
  destruct (clear_fresh (ShopPointsExpiresAt s) shop) as (re & He1 & He2). rewrite He1. clear He1.
  destruct (clear_prefix shop ∅ (ShopPointsExpiresAt s) (ShopPointsExpiresAt s)).2.
  - destruct Hm as [[-> Hp] | ->]; eexists; (split; [reflexivity |]); right; unfold in_order, rows_left; simpl.
    + rewrite Hp, Hb, prefix_insert, decide_True by done. split; [done |]. rewrite map_size_empty. lia.
    + rewrite lookup_insert_eq, Hb, prefix_insert, decide_True by done. split; [done |]. rewrite map_size_empty. lia.
  - subst re. destruct (finish_clears (s <| ShopPointsExpiresAt := <[shop := ∅]> (ShopPointsExpiresAt s) |>) shop) as (s' & Hs' & Hcl);
      [done | simpl; by rewrite prefix_insert, decide_True |].
    eexists. split; [exact Hs' | by left].
Qed.

(** One step clears enough or ends the work. *)
Lemma cleanup_progress s shop : fresh_balances s -> fresh_expiry s -> in_order s shop ->
  exists s', run_cleanup_step (L:=L) (W:=W) shop s = (Ok tt, s') /\ progress s s' shop.
Proof.
  unfold in_order at 1, run_cleanup_step. intros Hfb Hfe Ho. rewrite run_gets.
  destruct (PointsCleanupCursor s !! shop) as [[|] |] eqn:Hp; [| | done].
  - rewrite (bind_eval _ _ _ _ _ (balances_run s shop Hfb)).
    destruct (clear_fresh (ShopPointsBalances s) shop) as (rb & Hb1 & Hb2). rewrite Hb1. clear Hb1.
    destruct (clear_prefix shop ∅ (ShopPointsBalances s) (ShopPointsBalances s)).2.
    + eexists. split; [reflexivity |]. right. unfold in_order, rows_left. simpl. rewrite Hp, prefix_insert, decide_True by done.
      split; [done |]. lia.
    + subst rb. destruct (expiry_progress (s <| ShopPointsBalances := <[shop := ∅]> (ShopPointsBalances s) |>) shop (set_phase shop ClearingExpiry))
        as (s' & Hs' & Hpr); [exact Hfe | simpl; by rewrite prefix_insert, decide_True | by right |].
      exists s'. split; [exact Hs' |]. destruct Hpr as [? | [? Hr]]; [by left | right; split; [done |]].
      unfold rows_left in *. simpl in Hr. rewrite prefix_insert, decide_True, map_size_empty in Hr by done. lia.
  - apply expiry_progress; [exact Hfe | exact Ho | by left].
Qed.

(** C29: A clearing in steps ends. Take a shop whose clearing is under way and in order:
    it is at the expiries only when no balance is left (not so where points were enabled
    again and issued while the expiries were being cleared: these balances stay). However many rows the shop has,
    anybody who calls [continue_cleanup] in enough blocks, once in each, one for every 500
    rows and one more, finishes it, if nothing else touches the shop's points in these
    blocks: no cursor, no balance, no expiry and no supply are left. Calling more than once
    in a block does not help, since the second call looks at the same rows
    ([second_call_idle]). *)
Theorem cleanup_completes n env origin who shop s : ensure_signed origin = Some who -> in_order s shop ->
  (rows_left s shop < n * POINTS_CLEANUP_LIMIT)%nat -> cleared (continue_times n env origin shop s) shop.
Proof.
  intros Hw. revert s. induction n as [| n IH]; intros s Ho Hn; [lia |]. cbn [continue_times].
  destruct (cleanup_progress (next_block s) shop) as (s' & Hs' & Hp); [done | done | exact Ho |].
  assert (dispatch env origin (CContinue shop) (next_block s) = (Ok tt, s')) as ->.
  { unfold dispatch. apply transactional_run. cbn [apply_call]. unfold continue_cleanup, signed.
    rewrite (run_ok_or _ _ _ _ _ Hw), run_gets, run_ensure; [exact Hs' |].
    unfold in_order in Ho. simpl. destruct (PointsCleanupCursor s !! shop); [by eexists | done]. }
  cbn [snd]. destruct Hp as [Hc | [Ho' Hr]].
  - clear - Hc Hw. revert s' Hc. induction n as [| n IH]; intros s' Hc; [done |]. cbn [continue_times].
    enough ((dispatch env origin (CContinue shop) (next_block s')).2 = next_block s') as -> by by apply IH.
    unfold dispatch, transactional. cbn [apply_call]. unfold continue_cleanup, signed.
    rewrite (run_ok_or _ _ _ _ _ Hw), run_gets, run_ensure_not; [done |].
    simpl. destruct Hc as [-> _]. by intros [? ?].
  - apply IH; [done |]. change (rows_left (next_block s) shop) with (rows_left s shop) in Hr. unfold POINTS_CLEANUP_LIMIT in *. lia.
Qed.

(** * What goes round the rules *)

(** The account's own row of a shop. *)
Definition own_row s (shop : Z) (who : AccountId) :=
  (cell (ShopPointsBalances s) shop who, dget (ShopPointsExpiresAt s) shop who, get0 (ShopPointsTtl s) shop).

Lemma check_other env shop a b : a <> b -> framed (fun s => own_row s shop b) (check_points_expiry (L:=L) (W:=W) env shop a).
Proof.
  intros Hab. unfold check_points_expiry, take_expired, write_balance, write_expiry, sub_supply, deposit_event.
  repeat first
    [ progress cbv zeta
    | apply framed_modify; intros ?; unfold own_row; simpl; rewrite ?cell_drem, ?dget_drem, ?decide_False by naive_solver; reflexivity
    | framed_step ].
Qed.

(** Points that are too old come back. A transfer looks at the age of the sender's
    points only: an account whose points have expired has all of them again, for another
    full period, once anybody sends it a single point. *)
Theorem expired_points_come_back env origin who shop to v s s' at_ :
  ensure_signed origin = Some who -> get_points_expiry s shop to = Some at_ -> block_number env > at_ ->
  0 < get0 (ShopPointsTtl s) shop -> block_number env + get0 (ShopPointsTtl s) shop <= u32_max ->
  0 <= v -> get_points_balance s shop to + v <= u128_max ->
  dispatch env origin (CTransfer shop to v) s = (Ok tt, s') ->
  live_points env s shop to = 0 /\
  live_points env s' shop to = get_points_balance s shop to + v /\
  get_points_expiry s' shop to = Some (block_number env + get0 (ShopPointsTtl s) shop).
Proof.
  intros Ho He Hold Httl Hfit Hv Hmax Hr. unfold dispatch in Hr. apply transactional_Ok in Hr. simpl in Hr. revert Hr.
  unfold transfer_points. intros (w & s0 & [Hw ->]%ok_or_Ok & Hr)%bind_Ok. rewrite Ho in Hw. injection Hw as <-. revert Hr.
  do 2 pass. do 5 pass. intros (? & s1 & Hc & Hr)%bind_Ok. apply (check_other env shop who to) in Hc; [| done].
  unfold own_row in Hc. injection Hc as Hcell Hexp Ht. unfold get_points_expiry in *. rewrite He in Hexp.
  assert (forall m, cell (dset shop who m (ShopPointsBalances s1)) shop to = cell (ShopPointsBalances s1) shop to) as Hother.
  { intros m. rewrite cell_dset, decide_False by naive_solver. done. }
  split; [unfold live_points; by rewrite He, decide_True |].
  unfold sub_points, add_points, write_balance, maybe_extend_points_expiry, write_expiry, deposit_event in Hr. m_inv; [simpl in *; lia |].
  unfold live_points, get_points_balance in *. simpl. rewrite dget_dset, decide_True, Hexp, Ht by done.
  rewrite (sat_add_exact _ (block_number env)) by lia. rewrite (decide_False (P := at_ > block_number env + get0 (ShopPointsTtl s) shop)) by lia.
  rewrite (decide_False (P := block_number env > block_number env + get0 (ShopPointsTtl s) shop)) by lia.
  split; [| done]. rewrite cell_dset, decide_True by done. rewrite Hother, Hcell. apply sat_add_exact. lia.
Qed.
End Points.

(** * Concrete runs *)

(** Account 2 manages shop 1; the points cost half a unit each. *)
Definition act (now : Z) (who : AccountId) (c : Call) (s : State SimpleBank unit) : State SimpleBank unit :=
  (dispatch (loyal_env now) (SignedBy who) c s).2.

Definition opened : State SimpleBank unit := act 1 2%N (CEnable 1 (repeat 65 1) (repeat 66 1) 500 5000 true) loyal_start.

Definition issued : State SimpleBank unit := act 2 2%N (CIssue 1 3%N 100) opened.

Lemma act_step now who c s : call_fits c s -> call_short c s -> short_step s (act now who c s).
Proof. intros Hf Hs. eapply short_call; [exact Hf | exact Hs | apply surjective_pairing]. Qed.

Lemma issued_reached : rtc short_step loyal_start issued.
Proof. eapply rtc_l; [| apply rtc_once]; apply act_step; by vm_compute. Qed.

Lemma points_are_counted_witness :
  get_points_total_supply issued 1 = row_sum (ShopPointsBalances issued) 1 /\
  0 <= get_points_balance issued 1 3%N <= get_points_total_supply issued 1 /\
  (get_points_max_supply issued 1 <> 0 -> get_points_total_supply issued 1 <= get_points_max_supply issued 1) /\
  (forall c, get_points_config issued 1 = Some c -> config_ok c).
Proof. exact (points_are_counted {[30%N := 1000%N; 3%N := 50%N]} tt issued 1 3%N issued_reached). Defined.

Lemma redeem_pays_exactly_witness :
  let s' := act 3 3%N (CRedeem 1 41) issued in
  let fund := balance 30%N (ledger issued) in
  0 < 20 <= fund /\ balance 3%N (ledger s') = balance 3%N (ledger issued) + 20 /\
  (balance 30%N (ledger s') = fund - 20 \/ fund - 20 < 5 /\ balance 30%N (ledger s') = 0) /\
  (forall x, x <> 3%N -> x <> 30%N -> balance x (ledger s') = balance x (ledger issued)) /\
  get_points_balance s' 1 3%N = live_points (loyal_env 3) issued 1 3%N - 41 /\ 41 <= live_points (loyal_env 3) issued 1 3%N.
Proof.
  refine (redeem_pays_exactly (loyal_env 3) (SignedBy 3%N) 3%N 1 41 issued _ (mkPointsConfig (repeat 65 1) (repeat 66 1) 500 5000 true) _ _ _ _ _ _ _).
  - done.
  - by vm_compute.
  - done.
  - lia.
  - by vm_compute.
  - by vm_compute.
  - unfold act. apply returns. vm_compute. reflexivity.
Defined.

(** One point each for 501 accounts, and a governance decision to switch the points off. *)
Definition crowd : State SimpleBank unit :=
  foldl (fun s i => act 2 2%N (CIssue 1 (N.of_nat i) 1) s) opened (seq 100 501).

Definition clearing : State SimpleBank unit := loyal_port (PTogglePoints 1 false) (next_block crowd).

Example clearing_waits : (PointsCleanupCursor clearing !! 1, rows_left clearing 1, get_points_total_supply clearing 1)
  = (Some ClearingBalances, 1%nat, 501).
Proof. vm_compute. reflexivity. Qed.

Lemma cleanup_completes_witness : cleared (continue_times 1 (loyal_env 4) (SignedBy 9%N) 1 clearing) 1.
Proof.
  refine (cleanup_completes 1 (loyal_env 4) (SignedBy 9%N) 9%N 1 clearing _ _ _); [done | by vm_compute | vm_compute; lia].
Defined.

(** In the same block nothing more goes: the call looks at the 500 rows again that are
    gone, and leaves the last one and the cursor. *)
Example second_call_idle : (rows_left (act 3 9%N (CContinue 1) clearing) 1, PointsCleanupCursor (act 3 9%N (CContinue 1) clearing) !! 1)
  = (1%nat, Some ClearingBalances).
Proof. vm_compute. reflexivity. Qed.

(** Switched off by its manager instead, the shop keeps a point nobody counts, and no
    cursor that would let anybody clear it. *)
Definition left_over : State SimpleBank unit := act 3 2%N (CDisable 1) (next_block crowd).

Example disabling_leaves_points :
  (row_sum (ShopPointsBalances left_over) 1, get_points_total_supply left_over 1, PointsCleanupCursor left_over !! 1) = (1, 0, None).
Proof. vm_compute. reflexivity. Qed.

(** While a clearing waits, the manager can open the points again, and what he issues then
    is wiped by anybody. *)
Definition reopened : State SimpleBank unit :=
  act 4 2%N (CIssue 1 3%N 100) (act 4 2%N (CEnable 1 (repeat 65 1) (repeat 66 1) 500 5000 true) (next_block clearing)).

Example reopened_points_wiped :
  (get_points_balance reopened 1 3%N, get_points_balance (act 5 9%N (CContinue 1) (next_block reopened)) 1 3%N) = (100, 0).
Proof. vm_compute. reflexivity. Qed.

(** The supply saturates while the balances do not: two accounts are issued the largest
    amount there is, and when one of them loses its points the supply of what the other
    holds is nothing. *)
Definition flooded : State SimpleBank unit := act 3 2%N (CIssue 1 4%N u128_max) (act 2 2%N (CIssue 1 3%N u128_max) opened).

Example saturated_supply :
  (get_points_total_supply flooded 1, row_sum (ShopPointsBalances flooded) 1) = (u128_max, 2 * u128_max) /\
  let s := act 4 2%N (CBurn 1 3%N u128_max) flooded in (get_points_total_supply s 1, get_points_balance s 1 4%N) = (0, u128_max).
Proof. split; by vm_compute. Qed.

(** Points that live ten blocks; account 4 keeps its own, so that account 3's grow old. *)
Definition ageing : State SimpleBank unit := act 2 2%N (CIssue 1 3%N 100) (act 1 2%N (CTtl 1 10) opened).
Definition refreshed : State SimpleBank unit := act 20 2%N (CIssue 1 4%N 5) ageing.

Lemma expired_points_come_back_witness :
  let s' := act 21 4%N (CTransfer 1 3%N 1) refreshed in
  live_points (loyal_env 21) refreshed 1 3%N = 0 /\
  live_points (loyal_env 21) s' 1 3%N = get_points_balance refreshed 1 3%N + 1 /\
  get_points_expiry s' 1 3%N = Some (21 + get0 (ShopPointsTtl refreshed) 1).
Proof.
  refine (expired_points_come_back (loyal_env 21) (SignedBy 4%N) 4%N 1 3%N 1 refreshed _ 12 _ _ _ _ _ _ _ _).
  - done.
  - by vm_compute.
  - by vm_compute.
  - by vm_compute.
  - by vm_compute.
  - lia.
  - by vm_compute.
  - unfold act. apply returns. vm_compute. reflexivity.
Defined.
End LoyaltyPoints.
